(* ===== verification/_CoqProject ===== *)
-Q . S2P
Prelude.v
GoStrings.v
GoText.v
GoValues.v
GoSort.v
GoNumbers.v
GoFiles.v
GoNet.v
FlowTypes.v
DeltaTracker.v
Reconnect.v
AgentClient.v
FlowMapper.v
FlowStore.v
UpstreamClient.v
KubeIndex.v
Enricher.v
DnsCache.v
PeerIndex.v
FlowServer.v
RightSizerKube.v
RightSizerCluster.v
RightSizerReport.v
RightSizerController.v
KyvernoSync.v
WorkerPool.v
ImageTrustModels.v
ImageTrustConfig.v
ImageTrustRegistry.v
ImageTrustVerify.v
ImageTrustPlugin.v
TrivyImages.v
TrivyScan.v
PrometheusQueries.v
PrometheusData.v
EventWatcherModels.v
EventWatcherMessages.v
EventWatcherEvents.v
EventWatcherConsumers.v
EventWatcherProducers.v
EventWatcherWatcher.v
OnDemandJobs.v
Opa.v
AdmissionReports.v
Admission.v
CiModels.v
CiManifests.v
CiCommands.v
CiImages.v
CiGit.v
CiConfig.v
CiPolicies.v
CiScan.v
WorkloadsResources.v
WorkloadsImages.v
WorkloadsInventory.v
Workloads.v
KyvernoReports.v
FalcoAgent.v
NodeReports.v
PrometheusProgram.v
RealtimeReporter.v
