(* ===== verification/Prelude.v ===== *)
(** * Verification of the Fairwinds Insights plugins

    The repository holds the plugins of the Insights agent, each a program of
    its own under [src/plugins/], and the realtime reporter beside them.  This
    development models nineteen of these programs in Rocq and proves what makes
    them correct:

    - network-flow, the agent that runs on every node: eBPF gadgets report TCP
      counters and DNS answers, callbacks turn them into flow events, and a
      client with a bounded queue sends these to the aggregator;
    - network-flow-aggregator: a gRPC server that enriches the events of all
      agents with Kubernetes identities, keeps them in a bounded store and
      sends them on to Insights;
    - right-sizer: a controller that watches for OOM-killed containers, keeps a
      report of them and raises memory limits;
    - kyverno-policy-sync: a job that makes the Insights-managed Kyverno policies
      of the cluster those that Insights expects;
    - image-trust: a job that finds the images of the cluster, asks cosign about
      their signatures and attestations, and reports which are trusted;
    - trivy: a job that scans images for vulnerabilities, a few at a time, and
      carries the results of earlier runs over into its report;
    - prometheus: a job that merges metric series into statistics per container;
    - event-watcher: a program that finds the requests that policies blocked or
      would block, in Kubernetes events, an audit log or CloudWatch, and sends
      each once to Insights;
    - on-demand-job-runner: a job that claims the jobs that Insights asks for and
      runs each as a Kubernetes Job made from a CronJob;
    - opa: a job that runs the custom checks of Insights on the objects of the
      cluster;
    - admission: the webhooks that ask Insights whether an object may be created
      or changed;
    - ci: the scan of a repository in a pipeline: charts are rendered, images
      downloaded and scanned, manifests checked, and the results sent;
    - workloads: a job that reports the controllers, nodes, services, claims and
      images of the cluster, what is allocated on each node, and the inventories of
      Karpenter and the Gateway API;
    - kyverno: a job that reports the violations of policies;
    - falco-agent: a server that keeps the alerts of Falco and reports those of a day;
    - kube-bench, its aggregator, and rbac-reporter: jobs that run checks on a node,
      collect them over all nodes, and list roles;
    - realtime-reporter: a program that audits every object that is added or changed
      and uploads an event for it.

    What is left out is at the end of this comment.

    ** How the parts interact

    A flow event is made in [FlowMapper] from a gadget record, with byte counts
    from [DeltaTracker], queued and sent by [AgentClient].  The aggregator's
    [FlowServer] receives batches, enriches each event with [Enricher] (whose
    indexes [KubeIndex] builds), [DnsCache] and [PeerIndex], and appends the rows
    to [FlowStore]; [UpstreamClient] drains the store.  Both clients instantiate
    the loop of [Reconnect].  In right-sizer the controller
    ([RightSizerController]) is driven by events and a timer, keeps its state
    in the report ([RightSizerReport]) and reaches the cluster through the
    interface of [RightSizerKube].  [KyvernoSync] is one file: its run talks to
    the cluster through the interface [PolicyManager] and to Insights through
    [InsightsClient], each with its real and its dry-run implementation.

    In image-trust [ImageTrustPlugin] discovers images, has [ImageTrustRegistry]
    find their digests, verifies them with the verifier that [ImageTrustVerify]
    builds from the configuration ([ImageTrustConfig]), and reports with
    [ImageTrustModels]; both resolving and verifying run in the pool of
    [WorkerPool], as do the jobs of [OnDemandJobs].  In trivy [TrivyScan] holds
    the run: it selects with the functions of [TrivyImages], scans with its own
    pool, which shares two maps under locks, and merges with [Minimize].  In
    prometheus [PrometheusQueries] fetches the series that [PrometheusData] merges.

    In event-watcher the sources ([EventWatcherProducers]) put events on a bounded
    channel; the consumer hands each to the handler of its class
    ([EventWatcherConsumers]), which makes a request with [EventWatcherMessages]
    and [EventWatcherEvents]; [EventWatcherWatcher] is the program around them.
    The checks of [Opa] run in three programs: in opa on the cluster, in
    [Admission] on the object of a request (by [AdmissionReports]), and in
    [CiPolicies] on the manifests of a repository.  In ci [CiScan] is the run: it
    gets its configuration from [CiConfig], prepares the manifests with
    [CiCommands], reads resources and images from them with [CiManifests], and
    makes the reports with [CiImages] (which uses the models and the merging of
    trivy), [CiPolicies] and the commands; [CiGit] says what is scanned, and
    problems become items by [CiModels].

    In workloads [Workloads] makes the report from lists of the API server, with the
    nodes and the comparison of templates and pods of [WorkloadsResources], the
    images of [WorkloadsImages] and the inventories of [WorkloadsInventory].  The
    collectors of [KyvernoReports], [FalcoAgent] and [NodeReports] stand alone, as does
    [RealtimeReporter], whose informers call the handlers.

    ** Files and sources

    - Prelude: machine integers, time, panics ([go]), errors ([result]), the order
      of ranging over a map ([RangeOrder]), lists and sums, automation.
    - GoStrings, GoText, GoNet: what the code uses of [strings], [strconv], [fmt],
      [regexp], [path/filepath], [encoding/base64], [net] and [net/netip].
    - GoValues: pointers, maps that may be nil, the values an [any] can hold;
      GoFiles: calls that use the world ([io]), trees of files with
      [filepath.Walk], and commands; GoSort: [sort.Slice]; GoNumbers: floating-point
      numbers and resource quantities as classes with laws.
    - FlowTypes: the protobuf messages of both protocols
      ([aggregator/v1], [insights/v1]) and the gadget field records.
    - DeltaTracker: [network-flow/pkg/agent/delta_tracker.go]; the tracker is a
      [gmap] from connection keys to [connState].
    - FlowMapper: [mapper.go], [mapper_dns.go], [gadget_top_tcp.go],
      [gadget_trace_dns.go], [gadget_runner.go] of the same directory.
    - Reconnect, AgentClient: [collector_client.go]; [Reconnect.run_step] is [Run]
      with [runConnected], [Client] is the queue with its counters.
    - FlowStore: [network-flow-aggregator/pkg/collector/store/]; [events] is the
      buffer, where [None] is a nil entry, and [sendCursor] splits it.
    - UpstreamClient: [collector/upstream/] ([client.go], [tls.go], [addr.go]).
    - KubeIndex, Enricher: [collector/kube/] ([services.go], [pod_ips.go],
      [node_ips.go]; [enricher.go], [ports.go]).
    - DnsCache, PeerIndex: [collector/dns/cache.go], [collector/peerindex/index.go].
    - FlowServer: [collector/server.go] and [collector/http_debug.go]; a nil
      interface, a nil pointer in an interface and a working enricher are three
      different values.
    - RightSizerKube, RightSizerReport, RightSizerController:
      [right-sizer/src/util/kubernetes.go], [src/report/report.go],
      [src/controller/controller.go] and [metrics.go]; RightSizerCluster: a
      concrete cluster on which it runs, and the patches a client is asked for.
    - KyvernoSync: [kyverno-policy-sync/pkg/] ([sync/], [insights/client.go],
      [lock/lock.go], [config/config.go]) and [cmd/main.go].
    - WorkerPool: the goroutines of [image-trust/pkg/verify/verifier.go],
      [pkg/resolve/enrich.go] and [on-demand-job-runner/pkg/ondemandjobs/].
    - ImageTrustModels: [image-trust/pkg/models/], [policy/], [report/];
      ImageTrustConfig: [config/], [sigstore/]; ImageTrustRegistry: [registry/],
      [resolve/]; ImageTrustVerify: [verify/]; ImageTrustPlugin:
      [discovery/images.go] and [cmd/main.go].
    - TrivyImages: [trivy/pkg/models/image.go] and [pkg/image/] but for [scan.go];
      TrivyScan: [pkg/image/scan.go], [pkg/util/util.go], [pkg/config/config.go]
      and [cmd/trivy/main.go]; [scan_state] is the two maps with their lock.
    - PrometheusQueries: [prometheus/pkg/data/prometheus.go]; PrometheusData:
      [pkg/data/data.go], [calculate.go], [types.go] and
      [pkg/models/persistentvolumeclaim.go]; PrometheusProgram: [pkg/data/client.go]
      and [cmd/].
    - EventWatcherModels, EventWatcherMessages, EventWatcherEvents,
      EventWatcherConsumers, EventWatcherProducers, EventWatcherWatcher:
      [event-watcher/pkg/] ([models/]; the two halves of [utils/utils.go];
      [consumers/]; [producers/]; [metrics/], [health/], [watcher/]) and the
      environment of [cmd/].  [wstep] is the step relation of the goroutines.
    - OnDemandJobs: [on-demand-job-runner/pkg/] and [cmd/main.go].
    - Opa: [opa/pkg/] and [cmd/root.go].
    - AdmissionReports: [admission/pkg/models/], [pluto/], [polaris/], [opa/] and
      [pkg/admission/admission.go]; Admission: [validate.go], [mutate.go] there,
      [pkg/kube/client.go] and [cmd/admission/main.go].
    - CiModels: [ci/pkg/models/], [pkg/util/], [scan-errors.go], [junit.go] of
      [pkg/ci/]; CiManifests: the walk of [ci.go] and [auto_detection.go];
      CiCommands: [pkg/commands/], [helm.go]; CiImages: [trivy.go]; CiGit:
      [git.go]; CiPolicies: [opa.go]; CiConfig, CiScan: the two halves of [ci.go]
      and the program.
    - WorkloadsResources: [workloads/pkg/gpuresources.go], [allocated.go], [actual.go];
      WorkloadsImages: [pkg/discovery/]; WorkloadsInventory: [karpenter.go],
      [gateway_api.go]; Workloads: [info.go] and [cmd/main.go].
    - KyvernoReports: [kyverno/cmd/main.go], where the objects that are changed in
      place are positions of a list; FalcoAgent: [falco-agent/pkg/]; NodeReports:
      [kube-bench/pkg/], [kube-bench-aggregator/pkg/], [rbac-reporter/pkg/].
    - RealtimeReporter: [realtime-reporter/pkg/], and the settings of [cmd/root.go].

    ** How the code is translated

    Sized integers are [Z] with the wrap-around written out; a string is its
    bytes; a nil pointer is [None]; a Go map is a [gmap], and code whose result
    depends on the order of ranging over it takes that order as an argument,
    any order the language allows.  A call that may panic lives in the monad
    [go], one that also uses files, commands or the network in [io], which passes
    the world on.  A mutex makes each locked operation one step; interleavings are
    sequences of steps, and [runConnected], the goroutines that enqueue and the
    tickers are constructors of a step relation.  Readings of the clock are
    arguments; of several readings in one pass over a list (the ageing of the
    report, the pruning of a cache) one is kept.

    Code outside the repository is a parameter: the gRPC stream ([Send]), the
    gadget data source, the listers, JSON, YAML, resource quantities, the commands
    cosign, skopeo, trivy, git, helm, polaris and pluto, registries, version
    numbers, [QueryRange], the policy engine and the Kubernetes clients.  A
    component that such code answers to is a class: [StreamClient], [KubeAPI],
    [PolicyManager], [InsightsClient], [BigCache], [InsightsAPI],
    [CloudWatchLogs], [BatchAPI], [RunnerEnv], [RegoEngine], [KubeClient],
    [AdmissionLib], [AdmissionCluster], [Files], [Commands], [Http], [Console],
    [PodObjects], [PodLists], [ClusterLists], [DynamicLists], [NestedFields],
    [FloatTexts], [KyvernoCluster], [FalcoFiles], [FalcoJSON], [FalcoCluster].
    What the theorems need of it is a class of laws
    ([flowEnricherLaws], [StreamClientLaws], [QuantityLaws], [ConfigMapLaws],
    [ReportCodecLaws], [PatchLog], [ClusterView], [ClusterLaws], [SortByScan],
    [Float64], [BigCacheLaws], [BatchAPILaws], [RunnerEnvLaws],
    [AdmissionLibLaws], [FloatZero], [GoSort], [QuantitySumsLaws],
    [StableLists]) with an instance that satisfies it.
    [Float64] is floating-point arithmetic; its laws are those of IEEE 754 for
    whole numbers below 2^53.

    ** What the theorems show

    - Accounting: bytes are conserved over polls; every event offered to the
      agent's client is delivered, in flight, pending or counted as dropped;
      every stored row is sent, unsent or counted; the store refines a bounded
      drop-oldest queue.
    - Sending: one call of [sendPending] terminates and sends a prefix of what
      is pending in well-formed batches; what fails stays pending; the backoff
      is bounded and [Run] returns only when it is cancelled.
    - Attribution: the indexes answer exactly when an address has one owner; a
      destination, a workload or a backend is named only when the listings
      justify it; DNS names are fresh and come from recorded answers.
    - Ingest: the server never panics with a working enricher, acknowledges
      exactly the acceptable events, and accepts what the agent makes.
    - Right-sizer: an OOM kill touches one item; only allowed patches are sent,
      within the configured maximum of the first-seen limit; the report
      survives a restart; a controller stays within its namespaces.
    - Policy sync: the state of the cluster after a run is the expected one,
      failures apart; every planned policy is accounted for; a dry run changes
      nothing.
    - Image trust: validation accepts exactly the valid configurations, and what
      loads is usable; an image is reported as verified only with the evidence
      its mode asks for; retries are bounded, the pool ends under every schedule;
      allowlists exempt exactly what they match; discovery stays in its
      namespaces; configured credentials are the ones used.
    - Trivy: the queue is bounded and new images come first, the rest oldest
      first; the final report has exactly the entries that are current, each
      scanned image once, and describes exactly the vulnerabilities it refers
      to; the pool of scans ends, unless the branch for a known error is taken.
    - Prometheus: splitting a pod metric over containers conserves it; there is
      one entry per container; the controller of a pod is its workload or the
      longest matching prefix; empty required series are errors.
    - Event-watcher: a blocked request reaches Insights by the handler of its
      class; what is refused is sent again, what was sent is not; every event put
      on the channel is waiting, processed or counted, under every schedule.
    - On-demand jobs: every claimed job ends with a status that is reported, and
      the status is that of the Job.
    - Opa and admission: the report holds exactly the items of every check on
      every object it selects, each error apart; the items are those of a
      reference definition; a request is allowed only if the answers, an ignored
      user, a checked owner or the configured failure policy allow it; the
      configuration in force is that of the last refresh that succeeded; target
      versions are read as they are written.
    - Ci: every report that is switched on is made or has an error among the
      problems, and these reach the list of items; the images are exactly
      those of the manifests, with the containers that use them as owners;
      auto-detection finds the files a reference definition names; a missing image
      is downloaded or reported, and a report of images means all were scanned; a
      scan that starts is configured.
    - Workloads: what is allocated on a node is the exact sum of what its pods need,
      and no share divides by zero; a ready pod is counted as converged or listed
      with what it was given; the images are exactly those of the pods that are
      found, whatever the order of maps; inventories hold every page; the counts of
      a namespace are exact; the report ends, and fails only with a list it needs.
    - Collectors: the two sections of policy reports share the reports out; the
      search for a file's name ends with the first that is free; the alerts of a day
      are those that can be read, unless the last file cannot; the aggregator's file
      is the union of what the nodes write for themselves; a change of an object is
      handled without an error exactly when its event is uploaded, if one is due.
    - Defects the model shows: a counter reset is misreported; an append during
      a send skips a row; a typed-nil enricher panics; the scheme of an address
      does not turn TLS on; removing items at the head of the report panics;
      updated policies are not recorded, and a change of kind leaves the old one;
      a lock is leaked in the scanner; an image upgraded to its recommendation is
      not scanned; rewriting mirrors depends on map order; one registry's
      certificates are trusted for all; claims are confused across namespaces;
      the second policy a resource violates is not reported; logging metrics and
      stopping the watcher can block for ever; a zero pool of jobs blocks; one
      failed check loses the action items of the run; two archives share a name;
      failing results of validating admission policies are left out of their
      section; one unreadable last file hides the alerts of a day.
      The manifest of findings has them all.

    ** Bounds and fuel

    Loops that are not structural take fuel.  [send_loop] of both clients runs
    with one round more than there are events, and each round sends at least
    one; [remove_outer] runs with one more than the report's length, and each
    round brings the index and the end one step closer; the owner walk has the
    code's own limit of eight; the IPv6 parser has sixteen bytes to fill; string
    replacement, the reading of a CSV record and the split at slashes have the
    length of the string; the search for a pod template has the depth of the
    object; the wait for a job has as many readings as fit into its timeout; the
    search for a file's name has one try more than there are files; the pages of a
    list and the objects of a command's output have as many as there are.  The
    pools have no fuel: a measure bounds their runs (two steps per image to
    verify, eleven per image to scan).  The theorems state the result itself, so
    running out of fuel is excluded.

    ** Not modelled

    Flag parsing, dialling, TLS certificates, informer start-up, the creation of
    Kubernetes clients, HTTP listeners, the gadget runtime, log texts and metrics
    registration are I/O or calls of libraries; so are image-trust's output file and
    the database update of trivy beyond its commands, and the generated protobuf
    code.  Of the mains of network-flow, network-flow-aggregator and right-sizer only
    that is left, as of the manual test of CloudWatch in event-watcher.
    cloud-costs, uploader, kubectl, postgres-partman, automation,
    utils and the template have no Go code: shell scripts and images that start other
    programs. *)

From stdpp Require Import base decidable list gmap strings sets.
From Stdlib Require Import ZArith Lia.

(** ** Machine integers

    Go's sized integers are [Z] together with the reduction that the conversion
    or the arithmetic operation performs. *)
Module GoInt.

Local Open Scope Z_scope.

Definition u16 (z : Z) : Z := z mod 2 ^ 16.

Definition u32 (z : Z) : Z := z mod 2 ^ 32.

Definition u64 (z : Z) : Z := z mod 2 ^ 64.

Definition i32 (z : Z) : Z := (z + 2 ^ 31) mod 2 ^ 32 - 2 ^ 31.

Definition i64 (z : Z) : Z := (z + 2 ^ 63) mod 2 ^ 64 - 2 ^ 63.

Definition max_int64 : Z := 2 ^ 63 - 1.

Definition min_int64 : Z := - 2 ^ 63.

Definition in_u32 (z : Z) : Prop := 0 <= z < 2 ^ 32.

Definition in_u64 (z : Z) : Prop := 0 <= z < 2 ^ 64.

Definition in_i64 (z : Z) : Prop := - 2 ^ 63 <= z < 2 ^ 63.

Lemma u32_id z : in_u32 z -> u32 z = z.
Proof. intros H. apply Z.mod_small. exact H. Qed.

Lemma u64_id z : in_u64 z -> u64 z = z.
Proof. intros H. apply Z.mod_small. exact H. Qed.

Lemma u32_range z : in_u32 (u32 z).
Proof. apply Z.mod_pos_bound. lia. Qed.

Lemma u64_range z : in_u64 (u64 z).
Proof. apply Z.mod_pos_bound. lia. Qed.

Lemma i64_id z : in_i64 z -> i64 z = z.
Proof. unfold in_i64, i64. intros H. rewrite Z.mod_small by lia. lia. Qed.

Lemma i64_range z : in_i64 (i64 z).
Proof.
  unfold in_i64, i64. pose proof (Z.mod_pos_bound (z + 2 ^ 63) (2 ^ 64)). lia.
Qed.

Lemma u32_i32 z : u32 (i32 z) = u32 z.
Proof.
  unfold u32, i32. rewrite Zminus_mod_idemp_l. f_equal. lia.
Qed.

Lemma u64_i64 z : u64 (i64 z) = u64 z.
Proof.
  unfold u64, i64. rewrite Zminus_mod_idemp_l. f_equal. lia.
Qed.

Lemma i32_u32 z : - 2 ^ 31 <= z < 2 ^ 31 -> i32 (u32 z) = z.
Proof.
  intros H. unfold u32, i32. rewrite Zplus_mod_idemp_l, Z.mod_small by lia. lia.
Qed.

End GoInt.

(** ** Time

    A [time.Time] is its distance from the Unix epoch in nanoseconds; durations
    are nanoseconds.  Readings of the clock are arguments. *)
Module GoTime.

Local Open Scope Z_scope.

Definition Second : Z := 1000000000.
Definition Minute : Z := 60 * Second.
Definition Hour : Z := 60 * Minute.

(** The zero [time.Time]: January 1, year 1, UTC. *)
Definition zeroTime : Z := - 62135596800 * Second.

Definition IsZero (t : Z) : bool := t =? zeroTime.

Definition Before (a b : Z) : bool := a <? b.

Definition After (a b : Z) : bool := b <? a.

(** [a.Sub(b)] saturates at the ends of the 64-bit range. *)
Definition Sub (a b : Z) : Z := Z.max GoInt.min_int64 (Z.min GoInt.max_int64 (a - b)).

End GoTime.

(** ** Panics

    A Go call either returns or panics; [go] is the monad of calls whose panics
    are modelled. *)
Inductive go (A : Type) : Type :=
| Ret (a : A)
| Panic.
Arguments Ret {A} a.
Arguments Panic {A}.

#[global] Instance go_ret : MRet go := @Ret.

#[global] Instance go_bind : MBind go := fun A B f m =>
  match m with
  | Ret a => f a
  | Panic => Panic
  end.

Definition returns {A} (m : go A) : Prop := exists a, m = Ret a.

Lemma go_bind_ret {A B} (m : go A) (f : A -> go B) b :
  m ≫= f = Ret b <-> exists a, m = Ret a /\ f a = Ret b.
Proof.
  destruct m as [a|]; simpl; split; [by eauto|by intros (? & [= <-] & ?)|done|].
  by intros (? & ? & _).
Qed.

Lemma returns_ret {A} (a : A) : returns (Ret a).
Proof. by exists a. Qed.

Lemma returns_bind {A B} (m : go A) (f : A -> go B) :
  returns m -> (forall a, m = Ret a -> returns (f a)) -> returns (m ≫= f).
Proof. intros [a ->] H. apply H. done. Qed.

(** ** Errors: a Go function that returns [(T, error)]. *)
Inductive result (E A : Type) : Type :=
| Ok (a : A)
| Err (e : E).
Arguments Ok {E A} a.
Arguments Err {E A} e.

#[global] Instance result_ret {E} : MRet (result E) := fun A a => Ok a.

#[global] Instance result_bind {E} : MBind (result E) := fun A B f m =>
  match m with
  | Ok a => f a
  | Err e => Err e
  end.

Lemma result_bind_ok {E A B} (m : result E A) (f : A -> result E B) b :
  m ≫= f = Ok b <-> exists a, m = Ok a /\ f a = Ok b.
Proof.
  destruct m as [a|e]; simpl; split; [by eauto|by intros (? & [= <-] & ?)|done|].
  by intros (? & ? & _).
Qed.

(** ** Iteration order

    Ranging over a Go map visits every entry exactly once, in an order the
    language leaves open.  Code whose output depends on that order takes the
    order from this interface. *)
Class RangeOrder (K V : Type) `{Countable K} := {
  range_map : gmap K V -> list (K * V);
  range_map_perm : forall m, range_map m ≡ₚ map_to_list m
}.

(** The order of stdpp's enumeration, and its reverse: two orders that satisfy
    the interface, used where a concrete one is needed. *)
Definition canonical_order {K V : Type} `{Countable K} : RangeOrder K V :=
  {| range_map := map_to_list; range_map_perm := fun _ => reflexivity _ |}.

Definition reverse_order {K V : Type} `{Countable K} : RangeOrder K V :=
  {| range_map := fun m => reverse (map_to_list m);
     range_map_perm := fun m => reverse_Permutation (map_to_list m) |}.

Section range_order.
Context {K V : Type} `{Countable K} `{!RangeOrder K V}.
Implicit Types m : gmap K V.

Lemma elem_of_range_map m k v : (k, v) ∈ range_map m <-> m !! k = Some v.
Proof. rewrite range_map_perm. apply elem_of_map_to_list. Qed.

Lemma NoDup_range_map m : NoDup (range_map m).
Proof. rewrite range_map_perm. apply NoDup_map_to_list. Qed.

Lemma NoDup_fst_range_map m : NoDup (range_map m).*1.
Proof. rewrite range_map_perm. apply NoDup_fst_map_to_list. Qed.
End range_order.

(** ** Optional values: a nil pointer is [None]. *)
Definition from_ptr {A B} (d : B) (f : A -> B) (p : option A) : B :=
  match p with
  | Some a => f a
  | None => d
  end.

(** ** Lists *)
Section lists.
Context {A : Type}.
Implicit Types l k : list A.

Lemma drop_app_drop l k n : n <= length l -> drop n (l ++ k) = drop n l ++ k.
Proof. apply drop_app_le. Qed.

Lemma sublist_drop n l : sublist (drop n l) l.
Proof. rewrite <-(take_drop n l) at 2. by apply sublist_inserts_l. Qed.

Lemma foldl_inv {B} (P : B -> Prop) (f : B -> A -> B) (l : list A) (b : B) :
  P b -> (forall b a, a ∈ l -> P b -> P (f b a)) -> P (foldl f b l).
Proof.
  revert b. induction l as [|a l IH]; intros b Hb Hf; simpl; [done|].
  apply IH.
  - apply Hf; [by left|done].
  - intros b' a' Ha. apply Hf. by right.
Qed.

End lists.

Lemma omap_id_fmap_Some {A} (l : list A) : omap id (Some <$> l) = l.
Proof. induction l as [|x l IH]; simpl; [done|]. f_equal. exact IH. Qed.

Lemma sublist_drop_mid {A} (a l : list A) n k : sublist (a ++ l) k -> sublist (a ++ drop n l) k.
Proof. intros H. etrans; [|exact H]. apply sublist_app; [done|]. apply sublist_drop. Qed.

(** Lengths as Go's [int]. *)
Definition lenZ {A} (l : list A) : Z := Z.of_nat (length l).

Lemma lenZ_app {A} (l k : list A) : lenZ (l ++ k) = (lenZ l + lenZ k)%Z.
Proof. unfold lenZ. rewrite length_app. lia. Qed.

Lemma lenZ_drop {A} (l : list A) n :
  (0 <= n <= lenZ l)%Z -> lenZ (drop (Z.to_nat n) l) = (lenZ l - n)%Z.
Proof. unfold lenZ. rewrite length_drop. lia. Qed.

Lemma lenZ_nonneg {A} (l : list A) : (0 <= lenZ l)%Z.
Proof. unfold lenZ. lia. Qed.

(** ** Sums *)
Definition sumZ (l : list Z) : Z := foldr Z.add 0%Z l.

Lemma sumZ_app l k : sumZ (l ++ k) = (sumZ l + sumZ k)%Z.
Proof. induction l as [|x l IH]; simpl; [lia|]. unfold sumZ in *. simpl. lia. Qed.

Lemma sumZ_cons x l : sumZ (x :: l) = (x + sumZ l)%Z.
Proof. done. Qed.

#[global] Instance sumZ_perm : Proper ((≡ₚ) ==> (=)) sumZ.
Proof. induction 1; rewrite ?sumZ_cons in *; lia. Qed.

Lemma sumZ_zero l : Forall (fun x => x = 0%Z) l -> sumZ l = 0%Z.
Proof. induction 1 as [|x l -> _ IH]; [done|]. rewrite sumZ_cons. lia. Qed.

(** ** Automation *)

(** Case analysis on every [match]/[if] scrutinee of the goal, then cleanup. *)
Ltac crush_match := repeat (case_match; simplify_eq/=; try done).

(** Turns boolean comparisons into propositions. *)
Ltac to_prop :=
  repeat match goal with
  | H : andb _ _ = true |- _ => apply andb_true_iff in H; destruct H
  | H : orb _ _ = false |- _ => apply orb_false_iff in H; destruct H
  | H : Z.ltb _ _ = true |- _ => apply Z.ltb_lt in H
  | H : Z.ltb _ _ = false |- _ => apply Z.ltb_ge in H
  | H : Z.leb _ _ = true |- _ => apply Z.leb_le in H
  | H : Z.leb _ _ = false |- _ => apply Z.leb_gt in H
  | H : Z.eqb _ _ = true |- _ => apply Z.eqb_eq in H
  | H : Z.eqb _ _ = false |- _ => apply Z.eqb_neq in H
  | H : bool_decide _ = true |- _ => apply bool_decide_eq_true in H
  | H : bool_decide _ = false |- _ => apply bool_decide_eq_false in H
  | H : negb _ = true |- _ => apply negb_true_iff in H
  | H : negb _ = false |- _ => apply negb_false_iff in H
  end.

Create HintDb flow discriminated.
Create Rewrite HintDb flow_rw.
#[export] Hint Resolve returns_ret : flow.
