(* ===== verification/GoStrings.v ===== *)
(** * Go strings

    What the modelled code uses of Go's [strings], [strconv] and [fmt] packages.
    A Go string is a sequence of bytes, which is what [string] is here, so
    every function works on bytes; the places where Go looks at Unicode code
    points (white space, case folding) spell out their UTF-8 encodings. *)

From stdpp Require Import base decidable list gmap strings pretty.
From Stdlib Require Import ZArith Lia Ascii.
From S2P Require Import Prelude.

Definition chars (s : string) : list ascii := String.list_ascii_of_string s.

Definition str (l : list ascii) : string := String.string_of_list_ascii l.

Definition slen (s : string) : nat := length (chars s).

(** ** [strings]: prefixes, suffixes, substrings *)

Definition HasPrefix (s p : string) : bool := bool_decide (chars p `prefix_of` chars s).

Definition HasSuffix (s p : string) : bool := bool_decide (chars p `suffix_of` chars s).

Definition TrimPrefix (s p : string) : string :=
  if HasPrefix s p then str (drop (slen p) (chars s)) else s.

Definition TrimSuffix (s p : string) : string :=
  if HasSuffix s p then str (take (slen s - slen p) (chars s)) else s.

Fixpoint contains_aux (sub l : list ascii) : bool :=
  bool_decide (sub `prefix_of` l) ||
  match l with
  | [] => false
  | _ :: l' => contains_aux sub l'
  end.

Definition Contains (s sub : string) : bool := contains_aux (chars sub) (chars s).

(** [strings.LastIndex] for a one-byte separator; [None] is -1. *)
Fixpoint last_index_aux (c : ascii) (i : nat) (l : list ascii) (acc : option nat) : option nat :=
  match l with
  | [] => acc
  | x :: l' => last_index_aux c (S i) l' (if decide (x = c) then Some i else acc)
  end.

Definition LastIndex (s : string) (c : ascii) : option nat := last_index_aux c 0 (chars s) None.

(** [strings.Split] on a one-byte separator: always at least one field. *)
Fixpoint split_aux (c : ascii) (cur l : list ascii) : list string :=
  match l with
  | [] => [str (reverse cur)]
  | x :: l' =>
      if decide (x = c) then str (reverse cur) :: split_aux c [] l'
      else split_aux c (x :: cur) l'
  end.

Definition Split (s : string) (c : ascii) : list string := split_aux c [] (chars s).

(** [s[i:j]] for indices in range. *)
Definition slice_from (i : nat) (s : string) : string := str (drop i (chars s)).

Definition slice_to (i : nat) (s : string) : string := str (take i (chars s)).

(** ** White space: the UTF-8 encodings of the code points [unicode.IsSpace] accepts. *)

Definition byte (n : nat) : ascii := ascii_of_nat n.

Definition ascii_spaces : list (list ascii) :=
  (fun n => [byte n]) <$> [9; 10; 11; 12; 13; 32].

Definition unicode_spaces : list (list ascii) :=
  [[byte 194; byte 133]; [byte 194; byte 160]; [byte 225; byte 154; byte 128]]
  ++ ((fun n => [byte 226; byte 128; byte n]) <$> [128; 129; 130; 131; 132; 133; 134; 135; 136; 137; 138; 168; 169; 175])
  ++ [[byte 226; byte 129; byte 159]; [byte 227; byte 128; byte 128]].

Definition space_seqs : list (list ascii) := ascii_spaces ++ unicode_spaces.

(** Strips leading members of [seqs]; every member is nonempty, so the length
    of the input bounds the number of rounds. *)
Fixpoint strip_seqs (fuel : nat) (seqs : list (list ascii)) (l : list ascii) : list ascii :=
  match fuel with
  | 0 => l
  | S fuel' =>
      match List.find (fun q => bool_decide (q `prefix_of` l)) seqs with
      | Some q => strip_seqs fuel' seqs (drop (length q) l)
      | None => l
      end
  end.

Definition trim_left_seqs (seqs : list (list ascii)) (l : list ascii) : list ascii :=
  strip_seqs (length l) seqs l.

Definition TrimSpace (s : string) : string :=
  let l := trim_left_seqs space_seqs (chars s) in
  str (reverse (trim_left_seqs (reverse <$> space_seqs) (reverse l))).

(** [strings.Trim(s, cutset)] for a cutset of one-byte characters. *)
Definition Trim (s : string) (cutset : list ascii) : string :=
  let seqs := (fun c => [c]) <$> cutset in
  str (reverse (trim_left_seqs seqs (reverse (trim_left_seqs seqs (chars s))))).

(** ** Case

    [lower] and [upper] change ASCII letters only.  Go also maps other code
    points; no non-ASCII code point is mapped to a letter of the constants the
    code compares with, so the comparisons the code makes come out the same. *)

Definition is_upper (c : ascii) : bool :=
  let n := nat_of_ascii c in (65 <=? n)%nat && (n <=? 90)%nat.

Definition is_lower (c : ascii) : bool :=
  let n := nat_of_ascii c in (97 <=? n)%nat && (n <=? 122)%nat.

Definition lower (c : ascii) : ascii :=
  if is_upper c then ascii_of_nat (nat_of_ascii c + 32) else c.

Definition upper (c : ascii) : ascii :=
  if is_lower c then ascii_of_nat (nat_of_ascii c - 32) else c.

Definition ToLower (s : string) : string := str (lower <$> chars s).

Definition ToUpper (s : string) : string := str (upper <$> chars s).

(** Simple case folding onto ASCII: besides the letters themselves only U+017F
    (long s, C5 BF) and U+212A (Kelvin, E2 84 AA) fold onto ASCII letters. *)
Fixpoint fold_ascii (l : list ascii) : list ascii :=
  match l with
  | [] => []
  | a :: l1 =>
      match l1 with
      | b :: l2 =>
          if decide (a = byte 197 /\ b = byte 191) then byte 115 :: fold_ascii l2
          else
            match l2 with
            | c :: l3 =>
                if decide (a = byte 226 /\ b = byte 132 /\ c = byte 170)
                then byte 107 :: fold_ascii l3
                else lower a :: fold_ascii l1
            | [] => lower a :: fold_ascii l1
            end
      | [] => [lower a]
      end
  end.

(** [strings.EqualFold(s, t)] for a [t] of ASCII characters. *)
Definition EqualFold (s t : string) : bool :=
  bool_decide (fold_ascii (chars s) = (lower <$> chars t)).

(** ** Numbers *)

Definition digit_value (c : ascii) : option Z :=
  let n := nat_of_ascii c in
  if (48 <=? n)%nat && (n <=? 57)%nat then Some (Z.of_nat n - 48)%Z else None.

Inductive parsed : Type :=
| ParsedOk (z : Z)
| RangeError (z : Z)
| SyntaxError.

(** [strconv.ParseUint(s, 10, 64)] after the empty-string check: the range
    error is reported at the first digit that overflows. *)
Fixpoint parse_uint_aux (acc : Z) (l : list ascii) : parsed :=
  match l with
  | [] => ParsedOk acc
  | c :: l' =>
      match digit_value c with
      | None => SyntaxError
      | Some d =>
          let n := (acc * 10 + d)%Z in
          if (2 ^ 64 - 1 <? n)%Z then RangeError (2 ^ 64 - 1) else parse_uint_aux n l'
      end
  end.

Definition ParseUint (l : list ascii) : parsed :=
  match l with
  | [] => SyntaxError
  | _ => parse_uint_aux 0 l
  end.

(** [strconv.ParseInt(s, 10, 64)]. *)
Definition ParseInt (s : string) : parsed :=
  let '(neg, rest) :=
    match chars s with
    | "+"%char :: l => (false, l)
    | "-"%char :: l => (true, l)
    | l => (false, l)
    end in
  let signed (u : Z) (err : bool) : parsed :=
    if negb neg && (2 ^ 63 <=? u)%Z then RangeError (2 ^ 63 - 1)
    else if neg && (2 ^ 63 <? u)%Z then RangeError (- 2 ^ 63)
    else let z := if neg then (- u)%Z else u in
         if err then RangeError z else ParsedOk z in
  match ParseUint rest with
  | SyntaxError => SyntaxError
  | ParsedOk u => signed u false
  | RangeError u => signed u true
  end.

(** [n, _ := strconv.ParseInt(...)]: the value, the error dropped. *)
Definition parsed_value (p : parsed) : Z :=
  match p with
  | ParsedOk z => z
  | RangeError z => z
  | SyntaxError => 0
  end.

(** Decimal digits and their value. *)
Fixpoint take_digits (l : list ascii) : list Z :=
  match l with
  | [] => []
  | c :: l' =>
      match digit_value c with
      | Some d => d :: take_digits l'
      | None => []
      end
  end.

Definition digits_value (ds : list Z) : Z := foldl (fun acc d => acc * 10 + d)%Z 0%Z ds.

(** [fmt.Sscanf(s, "%d", &v)] for a [uint32]: leading spaces other than a
    newline are skipped, at least one digit is required, what follows the
    digits is not looked at, and a value past 32 bits is an error. *)
Definition scan_spaces : list (list ascii) :=
  ((fun n => [byte n]) <$> [9; 11; 12; 32]) ++ unicode_spaces.

Fixpoint skip_scan_space (fuel : nat) (l : list ascii) : option (list ascii) :=
  match fuel with
  | 0 => Some l
  | S fuel' =>
      match l with
      | c :: l' =>
          if decide (c = byte 10) then None
          else if decide (c = byte 13) then
            match l' with
            | d :: _ => if decide (d = byte 10) then None else skip_scan_space fuel' l'
            | [] => Some []
            end
          else
            match List.find (fun q => bool_decide (q `prefix_of` l)) scan_spaces with
            | Some q => skip_scan_space fuel' (drop (length q) l)
            | None => Some l
            end
      | [] => Some []
      end
  end.

Definition sscanf_uint32 (s : string) : option Z :=
  match skip_scan_space (slen s) (chars s) with
  | None => None
  | Some l =>
      match take_digits l with
      | [] => None
      | ds => let v := digits_value ds in if (v <? 2 ^ 32)%Z then Some v else None
      end
  end.

(** [%d] of an integer. *)
Definition fmt_d (z : Z) : string := pretty z.

(** ** Facts *)

Lemma chars_str l : chars (str l) = l.
Proof. apply String.list_ascii_of_string_of_list_ascii. Qed.

Lemma str_chars s : str (chars s) = s.
Proof. apply String.string_of_list_ascii_of_string. Qed.

#[export] Hint Rewrite chars_str str_chars : flow_rw.

#[global] Instance chars_inj : Inj (=) (=) chars.
Proof. intros s t H. rewrite <-(str_chars s), <-(str_chars t). by f_equal. Qed.

#[global] Instance str_inj : Inj (=) (=) str.
Proof. intros s t H. rewrite <-(chars_str s), <-(chars_str t). by f_equal. Qed.

Lemma chars_app s t : chars (s +:+ t) = chars s ++ chars t.
Proof. induction s as [|a s IH]; simpl; [done|]. f_equal. exact IH. Qed.

Lemma HasPrefix_spec s p : HasPrefix s p = true <-> exists t, s = p +:+ t.
Proof.
  unfold HasPrefix. rewrite bool_decide_eq_true. split.
  - intros [k Hk]. exists (str k). apply (inj chars). by rewrite chars_app, chars_str.
  - intros [t ->]. exists (chars t). apply chars_app.
Qed.

Lemma HasSuffix_spec s p : HasSuffix s p = true <-> exists t, s = t +:+ p.
Proof.
  unfold HasSuffix. rewrite bool_decide_eq_true. split.
  - intros [k Hk]. exists (str k). apply (inj chars). by rewrite chars_app, chars_str.
  - intros [t ->]. exists (chars t). apply chars_app.
Qed.

Lemma TrimPrefix_app p t : TrimPrefix (p +:+ t) p = t.
Proof.
  unfold TrimPrefix, slen. rewrite (proj2 (HasPrefix_spec _ _)) by eauto.
  by rewrite chars_app, drop_app_length, str_chars.
Qed.

Lemma TrimPrefix_no s p : HasPrefix s p = false -> TrimPrefix s p = s.
Proof. unfold TrimPrefix. by intros ->. Qed.

Lemma TrimSuffix_app t p : TrimSuffix (t +:+ p) p = t.
Proof.
  unfold TrimSuffix, slen. rewrite (proj2 (HasSuffix_spec _ _)) by eauto.
  rewrite chars_app, length_app.
  replace (length (chars t) + length (chars p) - length (chars p)) with (length (chars t)) by lia.
  by rewrite take_app_length, str_chars.
Qed.

Lemma TrimSuffix_no s p : HasSuffix s p = false -> TrimSuffix s p = s.
Proof. unfold TrimSuffix. by intros ->. Qed.

(** *** Stripping stops only when nothing is left to strip. *)
Lemma strip_seqs_done fuel seqs l :
  Forall (fun q => q <> []) seqs -> length l <= fuel ->
  Forall (fun q => ~ q `prefix_of` strip_seqs fuel seqs l) seqs.
Proof.
  intros Hne. revert l. induction fuel as [|fuel IH]; intros l Hl; simpl.
  - destruct l; [|simpl in Hl; lia].
    eapply Forall_impl; [exact Hne|]. intros q Hq [k Hk]. by destruct q.
  - destruct (List.find _ seqs) as [q|] eqn:Hf.
    + apply List.find_some in Hf as [Hin Hp]. apply bool_decide_eq_true in Hp as [k ->].
      apply IH. rewrite drop_app_length. rewrite length_app in Hl.
      apply list_elem_of_In in Hin. rewrite Forall_forall in Hne. specialize (Hne q Hin).
      destruct q; [done|]. simpl in Hl. lia.
    + apply Forall_forall. intros q Hq%list_elem_of_In.
      pose proof (List.find_none _ _ Hf q Hq) as Hb. by apply bool_decide_eq_false in Hb.
Qed.

Lemma strip_seqs_suffix fuel seqs l : strip_seqs fuel seqs l `suffix_of` l.
Proof.
  revert l. induction fuel as [|fuel IH]; intros l; simpl; [done|].
  destruct (List.find _ seqs) as [q|]; [|done].
  etrans; [apply IH|]. exists (take (length q) l). by rewrite take_drop.
Qed.

Lemma space_seqs_nonempty : Forall (fun q => q <> []) space_seqs.
Proof. by repeat constructor. Qed.

(** A trimmed string does not end in white space. *)
Lemma TrimSpace_no_space_suffix s q :
  q ∈ space_seqs -> ~ q `suffix_of` chars (TrimSpace s).
Proof.
  intros Hq. unfold TrimSpace. cbv zeta. rewrite chars_str.
  set (l := trim_left_seqs space_seqs (chars s)).
  assert (Hne : Forall (fun q => q <> []) (reverse <$> space_seqs)).
  { rewrite Forall_fmap. eapply Forall_impl; [apply space_seqs_nonempty|].
    intros q' Hq' Hr. apply Hq'. apply (inj reverse). by rewrite Hr. }
  pose proof (strip_seqs_done (length (reverse l)) _ (reverse l) Hne ltac:(lia)) as Hd.
  rewrite Forall_fmap, Forall_forall in Hd. specialize (Hd q Hq). simpl in Hd.
  intros Hs. apply Hd. unfold trim_left_seqs in Hs.
  apply suffix_prefix_reverse in Hs. by rewrite reverse_involutive in Hs.
Qed.

(** Splitting never loses or invents a byte: joining the fields gives the
    string back. *)
Fixpoint join_sep (c : ascii) (ps : list string) : list ascii :=
  match ps with
  | [] => []
  | [p] => chars p
  | p :: ps' => chars p ++ c :: join_sep c ps'
  end.

Lemma split_aux_ne c cur l : split_aux c cur l <> [].
Proof. revert cur. induction l as [|x l IH]; intros cur; simpl; [done|]. by case_decide. Qed.

Lemma split_aux_join c cur l : join_sep c (split_aux c cur l) = reverse cur ++ l.
Proof.
  revert cur. induction l as [|x l IH]; intros cur; simpl.
  - by rewrite chars_str, app_nil_r.
  - case_decide as Hx; simpl.
    + subst x. pose proof (split_aux_ne c [] l) as Hne.
      destruct (split_aux c [] l) eqn:E; [done|]. rewrite <-E, IH. by rewrite chars_str.
    + rewrite IH. by rewrite reverse_cons, <-app_assoc.
Qed.

Lemma split_aux_app c cur l k :
  split_aux c cur (l ++ c :: k) = split_aux c cur l ++ split_aux c [] k.
Proof.
  revert cur. induction l as [|x l IH]; intros cur; simpl.
  - by rewrite decide_True by done.
  - destruct (decide (x = c)); [|apply IH]. by rewrite IH.
Qed.

Lemma split_aux_whole c cur l : c ∉ l -> split_aux c cur l = [str (reverse cur ++ l)].
Proof.
  revert cur. induction l as [|x l IH]; intros cur H; simpl; [by rewrite app_nil_r|].
  apply not_elem_of_cons in H as [Hx H]. rewrite decide_False by done. rewrite IH by done.
  by rewrite reverse_cons, <-app_assoc.
Qed.

Lemma Split_whole s c : c ∉ chars s -> Split s c = [s].
Proof. intros H. unfold Split. rewrite split_aux_whole by done. simpl. by rewrite str_chars. Qed.

Lemma Split_app s c t : Split (s +:+ String c t) c = Split s c ++ Split t c.
Proof. unfold Split. rewrite chars_app. apply split_aux_app. Qed.

(** A string without the separator is the only field. *)
Lemma Split_length s c : 2 <= length (Split s c) <-> c ∈ chars s.
Proof.
  split.
  - intros H. destruct (decide (c ∈ chars s)) as [|Hc]; [done|]. rewrite Split_whole in H by done. simpl in H. lia.
  - intros (l & k & E)%list_elem_of_split. rewrite <-(str_chars s), E.
    unfold Split. rewrite chars_str, split_aux_app, length_app.
    pose proof (split_aux_ne c [] l). pose proof (split_aux_ne c [] k).
    destruct (split_aux c [] l), (split_aux c [] k); simpl; done || lia.
Qed.

Lemma Split_join s c : str (join_sep c (Split s c)) = s.
Proof. unfold Split. rewrite split_aux_join. apply str_chars. Qed.

(** *** Scanned numbers fit the width they are read into. *)
Lemma digit_value_range c d : digit_value c = Some d -> (0 <= d <= 9)%Z.
Proof.
  unfold digit_value. destruct (_ && _) eqn:E; [|done]. intros [= <-].
  apply andb_true_iff in E as [E1 E2].
  apply Nat.leb_le in E1. apply Nat.leb_le in E2. lia.
Qed.

Lemma take_digits_range l : Forall (fun d => 0 <= d <= 9)%Z (take_digits l).
Proof.
  induction l as [|c l IH]; simpl; [constructor|].
  destruct (digit_value c) eqn:E; [|constructor].
  constructor; [by eapply digit_value_range|done].
Qed.

Lemma digits_value_nonneg ds : Forall (fun d => 0 <= d <= 9)%Z ds -> (0 <= digits_value ds)%Z.
Proof.
  intros H. unfold digits_value. apply foldl_inv; [lia|].
  intros b a Ha Hb. rewrite Forall_forall in H. specialize (H a Ha). lia.
Qed.

Lemma sscanf_uint32_range s v : sscanf_uint32 s = Some v -> GoInt.in_u32 v.
Proof.
  unfold sscanf_uint32. destruct (skip_scan_space _ _) as [l|]; [|done].
  pose proof (take_digits_range l) as Hr. destruct (take_digits l) as [|d ds] eqn:E; [done|].
  cbv zeta. destruct (_ <? _)%Z eqn:Ev; [|done]. intros [= <-]. to_prop.
  split; [|done]. by apply digits_value_nonneg.
Qed.

(** *** Printing and scanning a number *)

Definition is_digit (c : ascii) (d : Z) : Prop := digit_value c = Some d.

Lemma pretty_N_char_digit x : (x < 10)%N -> is_digit (pretty_N_char x) (Z.of_N x).
Proof.
  intros H. unfold is_digit.
  by do 10 (destruct x as [|x] using N.peano_ind; [vm_compute; done|]); lia.
Qed.

Lemma digits_value_snoc ds d : digits_value (ds ++ [d]) = (digits_value ds * 10 + d)%Z.
Proof. unfold digits_value. by rewrite foldl_app. Qed.

Lemma pretty_N_go_digits x s :
  exists cs ds, chars (pretty_N_go x s) = cs ++ chars s /\ Forall2 is_digit cs ds /\
    digits_value ds = Z.of_N x /\ ((0 < x)%N -> cs <> []).
Proof.
  revert s. induction (N.lt_wf_0 x) as [x _ IH]; intros s.
  destruct (decide (x = 0%N)) as [->|Hx].
  { exists [], []. rewrite pretty_N_go_0. split_and!; [done|constructor|done|lia]. }
  rewrite pretty_N_go_step by lia.
  destruct (IH (x `div` 10)%N) with (s := String (pretty_N_char (x `mod` 10)) s)
    as (cs & ds & Hc & Hd & Hv & _); [apply N.div_lt; lia|].
  exists (cs ++ [pretty_N_char (x `mod` 10)]), (ds ++ [Z.of_N (x `mod` 10)%N]).
  rewrite Hc, <-app_assoc, digits_value_snoc, Hv. split_and!; [done| | |].
  - apply Forall2_app; [done|]. constructor; [|constructor].
    apply pretty_N_char_digit. apply N.mod_lt. lia.
  - pose proof (N.div_mod x 10). lia.
  - intros _ H. by apply app_nil in H as [_ H].
Qed.

Lemma fmt_d_digits z :
  (0 <= z)%Z -> exists cs ds, chars (fmt_d z) = cs /\ Forall2 is_digit cs ds /\
    digits_value ds = z /\ cs <> [].
Proof.
  intros Hz. destruct z as [|p|p]; [| |lia].
  - exists ["0"%char], [0%Z]. split_and!; try done. by repeat constructor.
  - destruct (pretty_N_go_digits (Npos p) "") as (cs & ds & Hc & Hd & Hv & Hne).
    exists cs, ds. rewrite app_nil_r in Hc. split_and!; [|done|done|by apply Hne].
    rewrite <-Hc. unfold fmt_d, pretty. simpl. done.
Qed.

Lemma take_digits_all cs ds : Forall2 is_digit cs ds -> take_digits cs = ds.
Proof. induction 1 as [|c d cs ds Hc _ IH]; simpl; [done|]. rewrite Hc. by f_equal. Qed.

Lemma is_digit_code c d : is_digit c d -> 48 <= nat_of_ascii c <= 57.
Proof.
  unfold is_digit, digit_value. destruct (_ && _)%nat eqn:E; [|done]. intros _. to_prop.
  apply Nat.leb_le in H. apply Nat.leb_le in H0. lia.
Qed.

Lemma skip_scan_space_digit fuel c d l :
  is_digit c d -> skip_scan_space fuel (c :: l) = Some (c :: l).
Proof.
  intros Hd. apply is_digit_code in Hd. destruct fuel as [|fuel]; [done|].
  assert (Hn : forall n, (n < 48 \/ 57 < n < 256) -> c <> byte n).
  { intros n Hn ->. unfold byte in Hd. rewrite nat_ascii_embedding in Hd by lia. lia. }
  cbn [skip_scan_space]. rewrite !decide_False by (apply Hn; lia).
  destruct (List.find _ scan_spaces) as [q|] eqn:E; [|done].
  apply find_some in E as [Hin Hq]. apply bool_decide_eq_true in Hq.
  exfalso. assert (Hf : Forall (fun q => exists n q', (n < 48 \/ 57 < n < 256) /\ q = byte n :: q') scan_spaces).
  { unfold scan_spaces, unicode_spaces. simpl. repeat (constructor; [eexists _, _; split; [|reflexivity]; lia|]).
    constructor. }
  rewrite Forall_forall in Hf. apply base.list_elem_of_In in Hin.
  destruct (Hf q Hin) as (n & q' & Hb & ->). destruct Hq as [k [= Hk _]]. by apply (Hn n).
Qed.

Lemma sscanf_uint32_fmt_d z : GoInt.in_u32 z -> sscanf_uint32 (fmt_d z) = Some z.
Proof.
  intros [Hz Hlt]. destruct (fmt_d_digits z Hz) as (cs & ds & Hc & Hd & Hv & Hne).
  unfold sscanf_uint32. rewrite Hc.
  destruct Hd as [|c d cs ds Hcd Hds]; [done|].
  rewrite (skip_scan_space_digit _ _ d) by done.
  rewrite (take_digits_all (c :: cs) (d :: ds)) by by constructor.
  rewrite Hv. cbv zeta. by rewrite (proj2 (Z.ltb_lt _ _) Hlt).
Qed.

(** *** The last separator *)

Lemma last_index_aux_none c i l acc : c ∉ l -> last_index_aux c i l acc = acc.
Proof.
  revert i acc. induction l as [|x l IH]; intros i acc H; simpl; [done|].
  rewrite decide_False by (intros ->; apply H; left). apply IH. intros H'. apply H. by right.
Qed.

Lemma last_index_aux_split c i l k acc :
  c ∉ k -> last_index_aux c i (l ++ c :: k) acc = Some (i + length l).
Proof.
  intros Hk. revert i acc. induction l as [|x l IH]; intros i acc; simpl.
  - rewrite decide_True by done. rewrite last_index_aux_none by done. f_equal. lia.
  - rewrite IH. f_equal. lia.
Qed.

Lemma LastIndex_split s c t :
  c ∉ chars t -> LastIndex (s +:+ String c t) c = Some (slen s).
Proof.
  intros H. unfold LastIndex. rewrite chars_app. simpl. by apply last_index_aux_split.
Qed.

Lemma fmt_d_not_in z c : (0 <= z)%Z -> digit_value c = None -> c ∉ chars (fmt_d z).
Proof.
  intros Hz Hc Hin. destruct (fmt_d_digits z Hz) as (cs & ds & Heq & Hd & _). rewrite Heq in Hin.
  apply list_elem_of_lookup in Hin as [i Hi]. destruct (Forall2_lookup_l _ _ _ _ _ Hd Hi) as (d & _ & Hcd).
  unfold is_digit in Hcd. congruence.
Qed.
