(* ===== verification/GoText.v ===== *)
(** * More of Go's text packages

    What the plugins use of [strings] beyond [GoStrings] (first separators,
    [Cut], [Join], [TrimRight]), of [path/filepath] on Unix, of
    [regexp.QuoteMeta] and of [encoding/base64], with the round trip of the
    encoding. *)

From stdpp Require Import base decidable list strings.
From Stdlib Require Import ZArith Lia Ascii.
From S2P Require Import Prelude GoStrings.

(** ** [strings] *)

(** [strings.Index] of a one-byte separator; [None] is -1. *)
Fixpoint index_aux (c : ascii) (i : nat) (l : list ascii) : option nat :=
  match l with
  | [] => None
  | x :: l' => if decide (x = c) then Some i else index_aux c (S i) l'
  end.

Definition Index (s : string) (c : ascii) : option nat := index_aux c 0 (chars s).

(** [strings.Cut(s, sep)] and [strings.SplitN(s, sep, 2)]: [None] when the
    separator does not occur. *)
Definition Cut (s : string) (c : ascii) : option (string * string) :=
  match Index s c with
  | Some i => Some (slice_to i s, slice_from (S i) s)
  | None => None
  end.

Definition Join (l : list string) (sep : string) : string := String.concat sep l.

(** [strings.TrimRight(s, cutset)] for one character. *)
Fixpoint drop_char (c : ascii) (l : list ascii) : list ascii :=
  match l with
  | x :: l' => if decide (x = c) then drop_char c l' else l
  | [] => []
  end.

Definition TrimRight (s : string) (c : ascii) : string :=
  str (reverse (drop_char c (reverse (chars s)))).

(** The part of [s] up to its first [c], the whole of [s] without one. *)
Definition before_first (s : string) (c : ascii) : string :=
  match Index s c with
  | Some i => slice_to i s
  | None => s
  end.

(** [regexp.QuoteMeta]. *)
Definition special_chars : list ascii := chars "\.+*?()|[]{}^$".

Definition QuoteMeta (s : string) : string :=
  str (mjoin ((fun c => if decide (c ∈ special_chars) then ["\"%char; c] else [c]) <$> chars s)).

(** [strconv.Quote], the verb [%q]; bytes of multi-byte characters, which Go
    prints as they are when the character is printable, are left alone. *)
Definition hex_digit (n : nat) : ascii := nth n (chars "0123456789abcdef") "0"%char.

Definition quote_char (c : ascii) : list ascii :=
  let n := nat_of_ascii c in
  if decide (c = byte 34 \/ c = "\"%char) then ["\"%char; c]
  else match List.find (fun kv => fst kv =? n)
                       [(7, "a"); (8, "b"); (9, "t"); (10, "n"); (11, "v"); (12, "f"); (13, "r")]%char with
       | Some (_, e) => ["\"%char; e]
       | None => if (n <? 32) || (n =? 127)
                 then ["\"; "x"; hex_digit (n / 16); hex_digit (n mod 16)]%char else [c]
       end.

Definition Quote (s : string) : string :=
  str ([byte 34] ++ mjoin (quote_char <$> chars s) ++ [byte 34]).

(** ** [path/filepath] *)

Definition clean_step (rooted : bool) (stack : list string) (seg : string) : list string :=
  if decide (seg = "" \/ seg = ".") then stack
  else if decide (seg = "..") then
    match stack with
    | top :: rest => if decide (top = "..") then ".." :: stack else rest
    | [] => if rooted then [] else [".."]
    end
  else seg :: stack.

Definition IsAbs (p : string) : bool := HasPrefix p "/".

Definition Clean (p : string) : string :=
  let rooted := IsAbs p in
  let segs := reverse (foldl (clean_step rooted) [] (Split p "/")) in
  if rooted then "/" +:+ Join segs "/"
  else match segs with
       | [] => "."
       | _ => Join segs "/"
       end.

Definition after_last (s : string) (c : ascii) : string :=
  match LastIndex s c with
  | Some i => slice_from (S i) s
  | None => s
  end.

Definition Base (p : string) : string :=
  if decide (p = "") then "."
  else let b := after_last (TrimRight p "/") "/" in
       if decide (b = "") then "/" else b.

Definition Dir (p : string) : string :=
  Clean (match LastIndex p "/" with
         | Some i => slice_to (S i) p
         | None => ""
         end).

(** [filepath.Join] of two elements. *)
Definition PathJoin (a b : string) : string :=
  if decide (a = "") then (if decide (b = "") then "" else Clean b)
  else Clean (a +:+ "/" +:+ b).

(** [filepath.Abs] in the working directory [cwd]. *)
Definition Abs (cwd p : string) : string :=
  if IsAbs p then Clean p else PathJoin cwd p.

(** ** [encoding/base64.StdEncoding] *)

Definition b64_alphabet : list ascii :=
  chars "ABCDEFGHIJKLMNOPQRSTUVWXYZabcdefghijklmnopqrstuvwxyz0123456789+/".

Definition b64_char (n : nat) : ascii := nth n b64_alphabet "="%char.

Fixpoint position (c : ascii) (i : nat) (l : list ascii) : option nat :=
  match l with
  | [] => None
  | x :: l' => if decide (x = c) then Some i else position c (S i) l'
  end.

Definition b64_value (c : ascii) : option nat := position c 0 b64_alphabet.

Fixpoint b64_encode (l : list ascii) : list ascii :=
  match l with
  | [] => []
  | [a] =>
      let x := nat_of_ascii a in
      [b64_char (x / 4); b64_char (x mod 4 * 16); "="; "="]%char
  | [a; b] =>
      let x := nat_of_ascii a in
      let y := nat_of_ascii b in
      [b64_char (x / 4); b64_char (x mod 4 * 16 + y / 16); b64_char (y mod 16 * 4); "="]%char
  | a :: b :: c :: l' =>
      let x := nat_of_ascii a in
      let y := nat_of_ascii b in
      let z := nat_of_ascii c in
      b64_char (x / 4) :: b64_char (x mod 4 * 16 + y / 16) :: b64_char (y mod 16 * 4 + z / 64)
        :: b64_char (z mod 64) :: b64_encode l'
  end.

(** Decoding of the input without its line breaks: groups of four characters,
    padding in the last one only. *)
Fixpoint b64_decode (l : list ascii) : option (list ascii) :=
  match l with
  | [] => Some []
  | p :: q :: r :: s :: l' =>
      match b64_value p, b64_value q with
      | Some a, Some b =>
          let first := ascii_of_nat (a * 4 + b / 16) in
          match b64_value r with
          | Some c =>
              let second := ascii_of_nat (b mod 16 * 16 + c / 4) in
              match b64_value s with
              | Some d =>
                  (fun rest => first :: second :: ascii_of_nat (c mod 4 * 64 + d) :: rest)
                    <$> b64_decode l'
              | None => if decide (s = "="%char /\ l' = []) then Some [first; second] else None
              end
          | None =>
              if decide (r = "="%char /\ s = "="%char /\ l' = []) then Some [first] else None
          end
      | _, _ => None
      end
  | _ => None
  end.

Definition EncodeToString (s : string) : string := str (b64_encode (chars s)).

Definition DecodeString (s : string) : option string :=
  str <$> b64_decode (filter (fun c => c <> byte 10 /\ c <> byte 13) (chars s)).

(** ** Facts *)

Lemma index_aux_split c i l k : c ∉ l -> index_aux c i (l ++ c :: k) = Some (i + length l).
Proof.
  revert i. induction l as [|x l IH]; intros i H; simpl.
  - rewrite decide_True by done. f_equal. lia.
  - rewrite decide_False by (intros ->; apply H; left).
    rewrite IH by (intros Hin; apply H; by right). f_equal. lia.
Qed.

Lemma index_aux_none c i l : c ∉ l -> index_aux c i l = None.
Proof.
  revert i. induction l as [|x l IH]; intros i H; simpl; [done|].
  rewrite decide_False by (intros ->; apply H; left). apply IH. intros Hin. apply H. by right.
Qed.

Lemma Index_split s c t : c ∉ chars s -> Index (s +:+ String c t) c = Some (slen s).
Proof. intros H. unfold Index. rewrite chars_app. simpl. by apply index_aux_split. Qed.

Lemma Index_none s c : c ∉ chars s -> Index s c = None.
Proof. apply index_aux_none. Qed.

Lemma Cut_split s c t : c ∉ chars s -> Cut (s +:+ String c t) c = Some (s, t).
Proof.
  intros H. unfold Cut. rewrite Index_split by done. unfold slice_to, slice_from, slen.
  rewrite chars_app, take_app_length. change (chars (String c t)) with (c :: chars t).
  rewrite drop_app_ge by lia.
  replace (S (length (chars s)) - length (chars s)) with 1 by lia.
  change (drop 1 (c :: chars t)) with (chars t). by rewrite !str_chars.
Qed.

Lemma b64_value_char n : n < 64 -> b64_value (b64_char n) = Some n.
Proof.
  intros H.
  assert (Forall (fun n => b64_value (b64_char n) = Some n) (seq 0 64)) as Hall.
  { repeat (constructor; [vm_compute; reflexivity|]). constructor. }
  rewrite Forall_forall in Hall. apply Hall. apply elem_of_seq. lia.
Qed.

Lemma b64_value_pad : b64_value "=" = None.
Proof. done. Qed.

Lemma ascii_of_split (a : ascii) n : n = nat_of_ascii a -> ascii_of_nat n = a.
Proof. intros ->. apply ascii_nat_embedding. Qed.

Lemma div_digits x y k : (y < k) -> (x * k + y) / k = x.
Proof. intros H. rewrite Nat.div_add_l by lia. rewrite Nat.div_small by done. lia. Qed.

Lemma mod_digits x y k : (y < k) -> (x * k + y) mod k = y.
Proof. intros H. rewrite Nat.add_comm, Nat.Div0.mod_add. by apply Nat.mod_small. Qed.

(** The first byte, the second and the third of a group from its sextets. *)
Lemma byte1 x y : x < 256 -> y < 256 -> x / 4 * 4 + (x mod 4 * 16 + y / 16) / 16 = x.
Proof.
  intros Hx Hy. rewrite div_digits by (apply Nat.Div0.div_lt_upper_bound; lia).
  pose proof (Nat.div_mod_eq x 4). lia.
Qed.

Lemma byte2 x y z : x < 256 -> y < 256 -> z < 256 ->
  (x mod 4 * 16 + y / 16) mod 16 * 16 + (y mod 16 * 4 + z / 64) / 4 = y.
Proof.
  intros Hx Hy Hz. rewrite mod_digits by (apply Nat.Div0.div_lt_upper_bound; lia).
  rewrite div_digits by (apply Nat.Div0.div_lt_upper_bound; lia).
  pose proof (Nat.div_mod_eq y 16). lia.
Qed.

Lemma byte3 y z : z < 256 -> (y mod 16 * 4 + z / 64) mod 4 * 64 + z mod 64 = z.
Proof.
  intros Hz. rewrite mod_digits by (apply Nat.Div0.div_lt_upper_bound; lia).
  pose proof (Nat.div_mod_eq z 64). lia.
Qed.

Lemma b64_bounds x y : x < 256 -> y < 256 ->
  x / 4 < 64 /\ x mod 4 * 16 + y / 16 < 64 /\ x mod 16 * 4 + y / 64 < 64 /\ x mod 64 < 64.
Proof.
  intros Hx Hy.
  pose proof (Nat.Div0.div_lt_upper_bound x 4 64). pose proof (Nat.Div0.div_lt_upper_bound y 16 16).
  pose proof (Nat.Div0.div_lt_upper_bound y 64 4).
  pose proof (Nat.mod_upper_bound x 4). pose proof (Nat.mod_upper_bound x 16).
  pose proof (Nat.mod_upper_bound x 64). lia.
Qed.

Lemma list_ind3 {A} (P : list A -> Prop) :
  P [] -> (forall a, P [a]) -> (forall a b, P [a; b]) ->
  (forall a b c l, P l -> P (a :: b :: c :: l)) -> forall l, P l.
Proof.
  intros H0 H1 H2 H3. fix IH 1. intros [|a [|b [|c l]]]; [apply H0|apply H1|apply H2|].
  apply H3, IH.
Qed.

Lemma b64_decode_encode l : b64_decode (b64_encode l) = Some l.
Proof.
  pose proof nat_ascii_bounded as Hb.
  induction l as [|a|a b|a b c l IH] using list_ind3; [done| | |];
    pose proof (Hb a) as Ha.
  - destruct (b64_bounds _ 0 Ha ltac:(lia)) as (H1 & H2 & _ & _).
    rewrite Nat.Div0.div_0_l, Nat.add_0_r in H2.
    cbn -[b64_value b64_char Nat.div Nat.modulo nat_of_ascii ascii_of_nat].
    rewrite !b64_value_char, b64_value_pad, decide_True by done. do 2 f_equal.
    apply ascii_of_split. pose proof (byte1 _ 0 Ha ltac:(lia)) as E.
    by rewrite Nat.Div0.div_0_l, Nat.add_0_r in E.
  - pose proof (Hb b) as Hb'. destruct (b64_bounds _ _ Ha Hb') as (H1 & H2 & _ & _).
    destruct (b64_bounds _ 0 Hb' ltac:(lia)) as (_ & _ & H3 & _).
    rewrite Nat.Div0.div_0_l, Nat.add_0_r in H3.
    cbn -[b64_value b64_char Nat.div Nat.modulo nat_of_ascii ascii_of_nat].
    rewrite !b64_value_char, b64_value_pad, decide_True by done.
    do 3 f_equal; [by apply ascii_of_split, byte1|]. f_equal. apply ascii_of_split.
    pose proof (byte2 _ _ 0 Ha Hb' ltac:(lia)) as E. by rewrite Nat.Div0.div_0_l, Nat.add_0_r in E.
  - pose proof (Hb b) as Hb'. pose proof (Hb c) as Hc.
    destruct (b64_bounds _ _ Ha Hb') as (H1 & H2 & _ & _).
    destruct (b64_bounds _ _ Hb' Hc) as (_ & _ & H3 & _).
    destruct (b64_bounds _ _ Hc Hc) as (_ & _ & _ & H4).
    cbn -[b64_value b64_char Nat.div Nat.modulo nat_of_ascii ascii_of_nat].
    rewrite !b64_value_char, IH by done. cbn [fmap option_fmap option_map].
    rewrite byte1, byte2, byte3, !ascii_nat_embedding by done. done.
Qed.

Lemma b64_char_no_break n : b64_char n <> byte 10 /\ b64_char n <> byte 13.
Proof.
  unfold b64_char. destruct (nth_in_or_default n b64_alphabet "="%char) as [Hin| ->]; [|done].
  assert (Forall (fun c => c <> byte 10 /\ c <> byte 13) b64_alphabet) as Hall
    by (apply Forall_forall; intros x Hx; revert x Hx; apply Forall_forall;
        repeat constructor; done).
  rewrite Forall_forall in Hall. apply Hall. by apply list_elem_of_In.
Qed.

Lemma b64_encode_no_break l : Forall (fun c => c <> byte 10 /\ c <> byte 13) (b64_encode l).
Proof.
  induction l as [|a|a b|a b c l IH] using list_ind3; simpl;
    repeat first [apply Forall_nil_2 | apply Forall_cons_2]; try apply b64_char_no_break; try done.
Qed.

Lemma filter_Forall_id {A} (P : A -> Prop) `{!forall x, Decision (P x)} (l : list A) :
  Forall P l -> filter P l = l.
Proof. induction 1 as [|x l Hx _ IH]; [done|]. by rewrite filter_cons_True, IH. Qed.

(** What [EncodeToString] produces, [DecodeString] reads back. *)
Lemma DecodeString_EncodeToString s : DecodeString (EncodeToString s) = Some s.
Proof.
  unfold DecodeString, EncodeToString. rewrite chars_str.
  rewrite filter_Forall_id; [rewrite b64_decode_encode; simpl; by rewrite str_chars|].
  apply b64_encode_no_break.
Qed.

(** *** Substrings *)

Lemma contains_aux_spec sub l : contains_aux sub l = true <-> exists a b, l = a ++ sub ++ b.
Proof.
  induction l as [|x l IH]; simpl; rewrite orb_true_iff, bool_decide_eq_true.
  - split.
    + intros [[b Hb]|?]; [|done]. by exists [], b.
    + intros (a & b & H). left. symmetry in H. apply app_nil in H as [-> H].
      by exists b.
  - rewrite IH. split.
    + intros [[b Hb]|(a & b & ->)]; [by exists [], b|]. by exists (x :: a), b.
    + intros ([|y a] & b & H); simpl in H; [left; by exists b|].
      right. injection H as -> ->. by exists a, b.
Qed.

Lemma Contains_spec s sub :
  Contains s sub = true <-> exists a b, chars s = a ++ chars sub ++ b.
Proof. apply contains_aux_spec. Qed.

Lemma Contains_app_l s t sub : Contains t sub = true -> Contains (s +:+ t) sub = true.
Proof.
  rewrite !Contains_spec. intros (a & b & H).
  exists (chars s ++ a), b. by rewrite chars_app, H, app_assoc.
Qed.

Lemma Contains_app_r s t sub : Contains s sub = true -> Contains (s +:+ t) sub = true.
Proof.
  rewrite !Contains_spec. intros (a & b & H). exists a, (b ++ chars t).
  by rewrite chars_app, H, <-!app_assoc.
Qed.

Lemma Contains_refl t sub : Contains (sub +:+ t) sub = true.
Proof. rewrite Contains_spec. exists [], (chars t). by rewrite chars_app. Qed.

(** *** Separators that do not occur *)

Lemma before_first_none s c : c ∉ chars s -> before_first s c = s.
Proof. intros H. unfold before_first. by rewrite Index_none. Qed.

Lemma before_first_split s c t : c ∉ chars s -> before_first (s +:+ String c t) c = s.
Proof.
  intros H. unfold before_first. rewrite Index_split by done.
  unfold slice_to, slen. by rewrite chars_app, take_app_length, str_chars.
Qed.

Lemma LastIndex_none s c : c ∉ chars s -> LastIndex s c = None.
Proof. apply last_index_aux_none. Qed.

Lemma index_aux_Some c i l j :
  index_aux c i l = Some j -> exists a b, l = a ++ c :: b /\ c ∉ a /\ j = i + length a.
Proof.
  revert i j. induction l as [|x l IH]; intros i j; simpl; [done|].
  case_decide as Hx.
  - intros [= <-]. subst x. exists [], l. split_and!; [done|by apply not_elem_of_nil|simpl; lia].
  - intros (a & b & -> & Ha & ->)%IH. exists (x :: a), b. split_and!; [done| |simpl; lia].
    rewrite not_elem_of_cons. split; [congruence|done].
Qed.

(** What comes before the first [c] has none. *)
Lemma before_first_no_sep s c : c ∉ chars (before_first s c).
Proof.
  unfold before_first, Index. destruct (index_aux c 0 (chars s)) as [i|] eqn:E.
  - apply index_aux_Some in E as (a & b & Hs & Ha & ->). unfold slice_to.
    rewrite chars_str, Hs. simpl. by rewrite take_app_length.
  - intros Hin. apply list_elem_of_split in Hin as (a & b & Hs).
    destruct (decide (c ∈ a)) as [Hca|Hca].
    + apply list_elem_of_split_l in Hca as (a1 & a2 & -> & Hn).
      rewrite Hs, <-app_assoc in E. simpl in E. by rewrite index_aux_split in E.
    + by rewrite Hs, index_aux_split in E.
Qed.

Lemma Join_nil sep : Join [] sep = "".
Proof. done. Qed.

Lemma Join_cons_cons x y l sep : Join (x :: y :: l) sep = x +:+ sep +:+ Join (y :: l) sep.
Proof. done. Qed.

(** *** Trimming a string that has nothing to trim *)

Lemma strip_seqs_id fuel seqs l :
  Forall (fun q => ~ q `prefix_of` l) seqs -> strip_seqs fuel seqs l = l.
Proof.
  intros H. destruct fuel; simpl; [done|]. destruct (List.find _ seqs) as [q|] eqn:E; [|done].
  apply List.find_some in E as [Hin Hq]. apply bool_decide_eq_true in Hq.
  rewrite Forall_forall in H. apply list_elem_of_In in Hin. by destruct (H q Hin).
Qed.

(** A string whose first and last bytes are in no encoding of a space is trimmed
    already. *)
Definition first_bytes : list ascii := omap head space_seqs.
Definition last_bytes : list ascii := omap last space_seqs.

Lemma TrimSpace_id c l d k :
  c ∉ first_bytes -> d ∉ last_bytes -> c :: l = k ++ [d] -> TrimSpace (str (c :: l)) = str (c :: l).
Proof.
  intros Hc Hd Heq. unfold TrimSpace. rewrite chars_str. unfold trim_left_seqs at 2.
  assert (strip_seqs (length (c :: l)) space_seqs (c :: l) = c :: l) as E.
  { apply strip_seqs_id, Forall_forall. intros q Hq [r Hr].
    destruct q as [|x q]; [by pose proof space_seqs_nonempty as Hne; rewrite Forall_forall in Hne; apply (Hne [])|].
    injection Hr as <- _. apply Hc. apply list_elem_of_omap. by exists (c :: q). }
  rewrite E. cbv zeta. unfold trim_left_seqs. rewrite Heq, strip_seqs_id; [by rewrite reverse_involutive|].
  apply Forall_fmap, Forall_forall. intros q Hq Hp. simpl in Hp. rewrite reverse_snoc in Hp.
  destruct q as [|x q _] using rev_ind;
    [by pose proof space_seqs_nonempty as Hne; rewrite Forall_forall in Hne; apply (Hne [])|].
  rewrite reverse_snoc in Hp. destruct Hp as [r Hr]. injection Hr as <- _.
  apply Hd. apply list_elem_of_omap. exists (q ++ [d]). split; [done|]. by rewrite last_snoc.
Qed.

Lemma Contains_app_inv s t c sub :
  c ∉ chars s -> Contains (s +:+ t) (String c sub) = true -> Contains t (String c sub) = true.
Proof.
  rewrite !Contains_spec, chars_app. intros Hc (a & b & H).
  change (chars (String c sub)) with (c :: chars sub) in *.
  apply app_eq_inv in H as [(k & Hs & H)|(k & -> & H)].
  - destruct k as [|x k]; simpl in H; [by exists [], b|].
    exfalso. apply Hc. injection H as <- _. rewrite Hs, elem_of_app. right. by left.
  - by exists k, b.
Qed.

(** The first and the last occurrence of a separator split a list in one way. *)
Lemma sep_split_first c (l a k b : list ascii) :
  c ∉ l -> c ∉ k -> l ++ c :: a = k ++ c :: b -> l = k /\ a = b.
Proof.
  intros Hl Hk H. pose proof (index_aux_split c 0 l a Hl) as E1.
  rewrite H, (index_aux_split c 0 k b Hk) in E1. injection E1 as E1.
  apply app_inj_1 in H as [-> [= ->]]; [done|lia].
Qed.

Lemma sep_split_last c (l a k b : list ascii) :
  c ∉ a -> c ∉ b -> l ++ c :: a = k ++ c :: b -> l = k /\ a = b.
Proof.
  intros Ha Hb H. apply (f_equal reverse) in H.
  rewrite !reverse_app, !reverse_cons, <-!app_assoc in H. simpl in H.
  apply sep_split_first in H as [H1 H2]; [|by rewrite elem_of_reverse|by rewrite elem_of_reverse].
  by apply (inj reverse) in H1, H2.
Qed.

Lemma chars_inj s t : chars s = chars t -> s = t.
Proof. intros H. by rewrite <-(str_chars s), H, str_chars. Qed.

(** ** Substring search and replacement *)

(** [strings.Index] of a string; [None] is -1. *)
Fixpoint index_str_aux (sub : list ascii) (i : nat) (l : list ascii) : option nat :=
  if bool_decide (sub `prefix_of` l) then Some i
  else match l with
       | [] => None
       | _ :: l' => index_str_aux sub (S i) l'
       end.

Definition IndexStr (s sub : string) : option nat := index_str_aux (chars sub) 0 (chars s).

(** A byte inside a multi-byte character. *)
Definition is_continuation (c : ascii) : bool :=
  let n := nat_of_ascii c in (128 <=? n) && (n <? 192).

(** Replacing the empty string inserts before every character and at the end. *)
Fixpoint replace_empty (new l : list ascii) : list ascii :=
  match l with
  | [] => new
  | c :: l' => (if is_continuation c then [] else new) ++ c :: replace_empty new l'
  end.

Fixpoint replace_all (fuel : nat) (old new l : list ascii) : list ascii :=
  match fuel with
  | 0 => l
  | S fuel' =>
      if bool_decide (old `prefix_of` l) then new ++ replace_all fuel' old new (drop (length old) l)
      else match l with
           | [] => []
           | c :: l' => c :: replace_all fuel' old new l'
           end
  end.

Definition ReplaceAll (s old new : string) : string :=
  match chars old with
  | [] => str (replace_empty (chars new) (chars s))
  | o => str (replace_all (slen s) o (chars new) (chars s))
  end.

(** [regexp.MustCompile("\\W+").ReplaceAllString(s, "_")]. *)
Definition is_word (c : ascii) : bool :=
  is_upper c || is_lower c || bool_decide (c = "_"%char) || from_ptr false (fun _ => true) (digit_value c).

Fixpoint replace_nonword (inside : bool) (l : list ascii) : list ascii :=
  match l with
  | [] => []
  | c :: l' => if is_word c then c :: replace_nonword false l'
               else (if inside then [] else ["_"%char]) ++ replace_nonword true l'
  end.

Definition non_word_to_underscore (s : string) : string := str (replace_nonword false (chars s)).
