(* ===== verification/GoValues.v ===== *)
(** * Go values

    Substrings that panic out of range, pointers, maps that may be nil. *)

From stdpp Require Import base decidable list gmap strings.
From Stdlib Require Import ZArith Lia Ascii.
From S2P Require Import Prelude GoStrings GoText.

(** ** Substrings *)

(** [strings.Index], -1 when there is none. *)
Definition IndexZ (s sub : string) : Z :=
  match IndexStr s sub with
  | Some i => Z.of_nat i
  | None => -1
  end.

(** [len(s)]. *)
Definition lenS (s : string) : Z := Z.of_nat (slen s).

(** [s[lo:hi]], which panics unless [0 <= lo <= hi <= len(s)]. *)
Definition slice (s : string) (lo hi : Z) : go string :=
  if decide (0 <= lo /\ lo <= hi /\ hi <= lenS s)%Z
  then Ret (str (take (Z.to_nat (hi - lo)) (drop (Z.to_nat lo) (chars s))))
  else Panic.

(** [s[lo:]]. *)
Definition slice_tail (s : string) (lo : Z) : go string := slice s lo (lenS s).

(** ** Maps that may be nil *)

Definition nilmap (V : Type) : Type := option (gmap string V).
Definition strmap : Type := nilmap string.

(** [m[k]] reads a nil map as an empty one. *)
Definition map_get {V} (m : nilmap V) (k : string) : option V :=
  match m with
  | Some m => m !! k
  | None => None
  end.

Definition get_string (m : strmap) (k : string) : string := default "" (map_get m k).

(** [*p]. *)
Definition deref {A} (p : option A) : go A :=
  match p with
  | Some a => Ret a
  | None => Panic
  end.

(** ** Lemmas on substrings *)

(** [sub] does not begin inside [pre] when [sub] follows it: the first
    occurrence in [pre ++ sub ++ post] is the one after [pre]. *)
Definition first_after (pre sub : string) : bool :=
  negb (contains_aux (chars sub) (chars pre ++ take (slen sub - 1) (chars sub))).

Lemma index_str_aux_here sub i l : sub `prefix_of` l -> index_str_aux sub i l = Some i.
Proof. intros H. destruct l; simpl; by rewrite bool_decide_eq_true_2. Qed.

Lemma index_str_aux_first sub a i b :
  contains_aux sub (a ++ take (length sub - 1) sub) = false ->
  index_str_aux sub i (a ++ sub ++ b) = Some (i + length a).
Proof.
  revert i. induction a as [|x a IH]; intros i H.
  - simpl. rewrite index_str_aux_here by (by exists b). f_equal. lia.
  - cbn [app index_str_aux]. cbn [app contains_aux] in H. apply orb_false_iff in H as [Hx H].
    rewrite (IH (S i) H). apply bool_decide_eq_false in Hx.
    destruct (decide (sub `prefix_of` x :: a ++ sub ++ b)) as [Hp|Hp];
      [|rewrite bool_decide_eq_false_2 by done; f_equal; simpl; lia].
    exfalso. apply Hx.
    set (p := x :: a ++ take (length sub - 1) sub).
    assert (Hq : p `prefix_of` x :: a ++ sub ++ b).
    { exists (drop (length sub - 1) sub ++ b). unfold p. simpl. rewrite <-!app_assoc. f_equal. f_equal.
      by rewrite app_assoc, take_drop. }
    destruct (prefix_weak_total _ _ _ Hp Hq) as [?|Hr]; [done|].
    rewrite (prefix_length_eq _ _ Hr); [done|].
    unfold p. simpl. rewrite length_app, length_take. lia.
Qed.

Lemma IndexStr_first pre sub post :
  first_after pre sub = true -> IndexStr (pre +:+ sub +:+ post) sub = Some (slen pre).
Proof.
  intros H. unfold IndexStr, slen. rewrite !chars_app.
  rewrite index_str_aux_first; [done|]. by apply negb_true_iff in H.
Qed.

Lemma index_str_aux_Some sub i l j :
  index_str_aux sub i l = Some j -> i <= j /\ j - i + length sub <= length l /\ sub `prefix_of` drop (j - i) l.
Proof.
  revert i. induction l as [|x l IH]; intros i; simpl.
  - case_bool_decide as Hp; [|done]. intros [= ->]. rewrite Nat.sub_diag. apply prefix_length in Hp as Hl.
    simpl in *. repeat split; [lia|lia|done].
  - case_bool_decide as Hp.
    + intros [= ->]. rewrite Nat.sub_diag. apply prefix_length in Hp as Hl. simpl in *. repeat split; [lia|lia|done].
    + intros (H1 & H2 & H3)%IH. repeat split; [lia|lia|]. by replace (j - i) with (S (j - S i)) by lia.
Qed.

Lemma index_str_aux_None sub i l : index_str_aux sub i l = None <-> contains_aux sub l = false.
Proof.
  revert i. induction l as [|x l IH]; intros i; simpl; by case_bool_decide.
Qed.

Lemma IndexZ_none s sub : IndexZ s sub = (-1)%Z <-> Contains s sub = false.
Proof.
  unfold IndexZ, Contains, IndexStr. destruct (index_str_aux _ _ _) as [i|] eqn:E.
  - split; [lia|]. intros H. apply (index_str_aux_None _ 0) in H. congruence.
  - split; [|done]. intros _. by apply index_str_aux_None in E.
Qed.

(** Where the index points to, the whole substring is in range. *)
Lemma IndexZ_range s sub :
  Contains s sub = true -> (0 <= IndexZ s sub /\ IndexZ s sub + lenS sub <= lenS s)%Z.
Proof.
  intros H. unfold IndexZ, IndexStr, lenS, slen. destruct (index_str_aux _ _ _) as [i|] eqn:E.
  - apply index_str_aux_Some in E as (? & ? & ?). lia.
  - apply index_str_aux_None in E. unfold Contains in H. congruence.
Qed.

Lemma IndexZ_first pre sub post :
  first_after pre sub = true -> IndexZ (pre +:+ sub +:+ post) sub = lenS pre.
Proof. intros H. unfold IndexZ. by rewrite IndexStr_first. Qed.

Lemma slen_app s t : slen (s +:+ t) = slen s + slen t.
Proof. unfold slen. by rewrite chars_app, length_app. Qed.

Lemma lenS_app s t : lenS (s +:+ t) = (lenS s + lenS t)%Z.
Proof. unfold lenS. rewrite slen_app. lia. Qed.

Lemma lenS_nonneg s : (0 <= lenS s)%Z.
Proof. unfold lenS. lia. Qed.

Lemma slice_middle a b c : slice (a +:+ b +:+ c) (lenS a) (lenS a + lenS b) = Ret b.
Proof.
  unfold slice. rewrite decide_True by (rewrite !lenS_app; pose proof (lenS_nonneg a);
    pose proof (lenS_nonneg b); pose proof (lenS_nonneg c); lia).
  f_equal. rewrite !chars_app. unfold lenS, slen.
  replace (Z.to_nat (Z.of_nat (length (chars a)) + Z.of_nat (length (chars b)) - Z.of_nat (length (chars a))))
    with (length (chars b)) by lia.
  rewrite Nat2Z.id, drop_app_length, take_app_length. apply str_chars.
Qed.

Lemma slice_tail_after a b : slice_tail (a +:+ b) (lenS a) = Ret b.
Proof.
  unfold slice_tail. rewrite lenS_app. rewrite <-(slice_middle a b ""). f_equal.
  by rewrite <-(str_chars (b +:+ "")), chars_app, app_nil_r, str_chars.
Qed.

(** When a slice panics. *)
Lemma slice_panics s lo hi : slice s lo hi = Panic <-> ~ (0 <= lo /\ lo <= hi /\ hi <= lenS s)%Z.
Proof. unfold slice. by case_decide. Qed.

Lemma slice_returns s lo hi : (0 <= lo)%Z -> (lo <= hi)%Z -> (hi <= lenS s)%Z -> returns (slice s lo hi).
Proof. intros. unfold slice. rewrite decide_True by done. apply returns_ret. Qed.

(** ** Decoded JSON

    What an [any] holds after [json.Unmarshal] or a policy evaluation.  A number
    is its literal. *)
#[warnings="-register-all"]
Inductive value : Type :=
| VNil
| VBool (b : bool)
| VNumber (literal : string)
| VString (s : string)
| VArray (l : list value)
| VMap (m : gmap string value).

(** [x.(bool)], [x.(string)], [x.([]any)] and [x.(map[string]any)] with a comma-ok;
    a missing key reads as nil. *)
Definition to_bool (x : option value) : option bool :=
  match x with Some (VBool b) => Some b | _ => None end.

Definition to_string (x : option value) : option string :=
  match x with Some (VString s) => Some s | _ => None end.

Definition to_array (x : option value) : option (list value) :=
  match x with Some (VArray l) => Some l | _ => None end.

Definition to_map (x : option value) : option (gmap string value) :=
  match x with Some (VMap m) => Some m | _ => None end.

(** [x != nil]. *)
Definition not_nil (x : option value) : bool :=
  match x with None | Some VNil => false | _ => true end.

(** Maps inside maps: enough fuel for code that descends through keys. *)
Fixpoint depth (v : value) : nat :=
  match v with
  | VMap m => S (map_fold (fun _ x n => Nat.max (depth x) n) 0 m)
  | VArray l => S (foldr (fun x n => Nat.max (depth x) n) 0 l)
  | _ => 0
  end.

Lemma depth_lookup (m : gmap string value) k v : m !! k = Some v -> depth v < depth (VMap m).
Proof.
  intros H. simpl. apply Nat.lt_succ_r.
  rewrite (map_fold_delete_L (fun (_ : string) x n => Nat.max (depth x) n) 0 k v m); [lia| |done].
  intros j1 j2 z1 z2 y _ _ _. lia.
Qed.
