(* ===== verification/GoSort.v ===== *)
(** * Go sorting

    [sort.Slice] with a comparison function and [sort.Strings].  Which of several
    equal elements comes first is open. *)

From stdpp Require Import base decidable list sorting strings.
From Stdlib Require Import ZArith Lia Ascii Sorted OrdersEx.
From S2P Require Import Prelude GoStrings GoText.

(** What the documentation asks of a comparison: a strict weak order. *)
Record strict_weak {A} (less : A -> A -> bool) : Prop := {
  less_irrefl : forall a, less a a = false;
  less_trans : forall a b c, less a b = true -> less b c = true -> less a c = true;
  less_incomparable : forall a b c, less a b = false -> less b c = false -> less a c = false
}.

(** [b] may stand after [a]. *)
Definition not_after {A} (less : A -> A -> bool) (a b : A) : Prop := less b a = false.

#[global] Instance not_after_dec {A} (less : A -> A -> bool) : RelDecision (not_after less).
Proof. intros a b. unfold not_after. apply _. Defined.

(** A sort gives a permutation, which is sorted when the comparison is as asked. *)
Class GoSort : Type := {
  sort_slice : forall {A}, (A -> A -> bool) -> list A -> list A;
  sort_slice_perm : forall {A} (less : A -> A -> bool) l, sort_slice less l ≡ₚ l;
  sort_slice_sorted : forall {A} (less : A -> A -> bool) l,
    strict_weak less -> StronglySorted (not_after less) (sort_slice less l)
}.

(** The order of strings is that of their bytes. *)
Definition string_less (s t : string) : bool :=
  match String_as_OT.compare s t with Lt => true | _ => false end.

Definition sort_strings `{GoSort} (l : list string) : list string := sort_slice string_less l.

(** The comparison of several keys, one after the other, as in
    [if a.x != b.x { return a.x < b.x }; return a.y < b.y]. *)
Fixpoint keys_less (a b : list string) : bool :=
  match a, b with
  | x :: a', y :: b' => if decide (x <> y) then string_less x y else keys_less a' b'
  | _, _ => false
  end.

(** A sort by keys. *)
Definition by_keys {A} (keys : A -> list string) (a b : A) : bool := keys_less (keys a) (keys b).

(** ** Lemmas *)

Lemma strict_weak_total {A} (less : A -> A -> bool) : strict_weak less -> Total (not_after less).
Proof.
  intros H a b. unfold not_after. destruct (less b a) eqn:E; [|by left]. right.
  destruct (less a b) eqn:E'; [|done]. pose proof (less_trans _ H _ _ _ E E') as H'. by rewrite (less_irrefl _ H) in H'.
Qed.

Lemma strict_weak_transitive {A} (less : A -> A -> bool) : strict_weak less -> Transitive (not_after less).
Proof. intros H a b c. unfold not_after. intros H1 H2. by apply (less_incomparable _ H c b a). Qed.

(** The sort of stdpp is one. *)
Definition merge_go_sort : GoSort :=
  {| sort_slice := fun A less => merge_sort (not_after less);
     sort_slice_perm := fun A less => merge_sort_Permutation (not_after less);
     sort_slice_sorted := fun A less l H =>
       @StronglySorted_merge_sort A (not_after less) _ (strict_weak_transitive less H) (strict_weak_total less H) l |}.

Lemma string_less_lt s t : string_less s t = true <-> String_as_OT.lt s t.
Proof. unfold string_less, String_as_OT.lt. by destruct (String_as_OT.compare s t). Qed.

Lemma string_less_irrefl s : string_less s s = false.
Proof.
  destruct (string_less s s) eqn:E; [|done]. apply string_less_lt in E.
  by apply String_as_OT.lt_strorder in E.
Qed.

Lemma string_less_trans a b c : string_less a b = true -> string_less b c = true -> string_less a c = true.
Proof. rewrite !string_less_lt. intros H1 H2. by transitivity b. Qed.

(** Of two different strings one comes first. *)
Lemma string_less_connected s t : string_less s t = false -> string_less t s = false -> s = t.
Proof.
  intros H1 H2. destruct (String_as_OT.compare_spec s t) as [?|H|H]; [done|..];
    apply string_less_lt in H; congruence.
Qed.

Lemma keys_less_irrefl k : keys_less k k = false.
Proof. induction k as [|x k IH]; simpl; [done|]. by rewrite decide_False by auto. Qed.

(** Keys of the same length that are not ordered are equal. *)
Lemma keys_less_connected a b :
  length a = length b -> keys_less a b = false -> keys_less b a = false -> a = b.
Proof.
  revert b. induction a as [|x a IH]; intros [|y b] Hl; simpl in *; try done. injection Hl as Hl.
  destruct (decide (x <> y)) as [Hn|Hn].
  - rewrite decide_True by done. intros H1 H2. by destruct (Hn (string_less_connected _ _ H1 H2)).
  - apply dec_stable in Hn as ->. rewrite decide_False by auto. intros H1 H2. f_equal. by apply IH.
Qed.

Lemma keys_less_trans a b c : keys_less a b = true -> keys_less b c = true -> keys_less a c = true.
Proof.
  revert b c. induction a as [|x a IH]; intros [|y b] [|z c]; simpl; try done.
  destruct (decide (x <> y)) as [Hxy|Hxy]; destruct (decide (y <> z)) as [Hyz|Hyz].
  - intros H1 H2. pose proof (string_less_trans _ _ _ H1 H2) as H3. destruct (decide (x <> z)) as [|Hxz]; [done|].
    apply dec_stable in Hxz as ->. by rewrite string_less_irrefl in H3.
  - apply dec_stable in Hyz as ->. by rewrite decide_True.
  - apply dec_stable in Hxy as ->. by rewrite decide_True.
  - apply dec_stable in Hxy as ->, Hyz as ->. rewrite decide_False by auto. apply IH.
Qed.

(** Keys of one length are compared as the documentation asks. *)
Lemma by_keys_strict_weak {A} (keys : A -> list string) n :
  (forall a, length (keys a) = n) -> strict_weak (by_keys keys).
Proof.
  intros Hn. unfold by_keys. split.
  - intros a. apply keys_less_irrefl.
  - intros a b c. apply keys_less_trans.
  - intros a b c H1 H2. destruct (keys_less (keys a) (keys c)) eqn:H3; [|done].
    destruct (keys_less (keys b) (keys a)) eqn:H4.
    + rewrite <-H2. symmetry. by eapply keys_less_trans.
    + rewrite <-H2, <-(keys_less_connected (keys a) (keys b)); [done|by rewrite !Hn|done|done].
Qed.

Lemma string_less_strict_weak : strict_weak string_less.
Proof.
  split; [apply string_less_irrefl|apply string_less_trans|]. intros a b c H1 H2.
  destruct (string_less a c) eqn:H3; [|done]. destruct (string_less b a) eqn:H4.
  - rewrite <-H2. symmetry. by eapply string_less_trans.
  - by rewrite <-H2, <-(string_less_connected a b).
Qed.

(** A sorted permutation is unique when the elements that the comparison does not
    tell apart are equal. *)
Lemma sorted_permutation_unique {A} (R : A -> A -> Prop) (l k : list A) :
  (forall a b, a ∈ l -> b ∈ l -> R a b -> R b a -> a = b) ->
  StronglySorted R l -> StronglySorted R k -> l ≡ₚ k -> l = k.
Proof.
  intros Ha Hl. revert k Ha. induction Hl as [|x l Hl IH Hx]; intros k Ha Hk Hp.
  - by apply Permutation_nil_l in Hp.
  - destruct Hk as [|y k Hk Hy]; [by apply Permutation_nil_r in Hp|].
    assert (x = y) as ->.
    { assert (y ∈ x :: l) as Hyl by (rewrite Hp; by left). assert (x ∈ y :: k) as Hxk by (rewrite <-Hp; by left).
      apply elem_of_cons in Hyl as [->|Hyl]; [done|]. apply elem_of_cons in Hxk as [->|Hxk]; [done|].
      apply Ha; [by left|by right|..].
      - rewrite Forall_forall in Hx. by apply Hx.
      - rewrite Forall_forall in Hy. by apply Hy. }
    f_equal. apply IH; [intros; apply Ha; try by right|done|]; try done. by apply Permutation_cons_inv in Hp.
Qed.

(** Two sorts of the same elements agree when their keys are different. *)
Lemma sort_by_keys_unique {A} (s1 s2 : GoSort) (keys : A -> list string) n (l k : list A) :
  (forall a, length (keys a) = n) -> (forall a b, a ∈ l -> b ∈ l -> keys a = keys b -> a = b) ->
  l ≡ₚ k -> @sort_slice s1 A (by_keys keys) l = @sort_slice s2 A (by_keys keys) k.
Proof.
  intros Hn Hk Hp. pose proof (by_keys_strict_weak keys n Hn) as Hw.
  apply (sorted_permutation_unique (not_after (by_keys keys))).
  - intros a b. rewrite !(sort_slice_perm _ l). unfold not_after, by_keys. intros Ha Hb H1 H2. apply Hk; [done..|].
    apply keys_less_connected; [by rewrite !Hn|done|done].
  - by apply sort_slice_sorted.
  - by apply sort_slice_sorted.
  - rewrite !sort_slice_perm. done.
Qed.

Lemma sort_strings_unique (s1 s2 : GoSort) l k : l ≡ₚ k -> @sort_strings s1 l = @sort_strings s2 k.
Proof.
  intros Hp. unfold sort_strings. apply (sorted_permutation_unique (not_after string_less)).
  - intros a b _ _ H1 H2. by apply string_less_connected.
  - apply sort_slice_sorted, string_less_strict_weak.
  - apply sort_slice_sorted, string_less_strict_weak.
  - rewrite !sort_slice_perm. done.
Qed.

Lemma elem_of_sort_slice `{GoSort} {A} (less : A -> A -> bool) l a : a ∈ sort_slice less l <-> a ∈ l.
Proof. by rewrite sort_slice_perm. Qed.

Lemma elem_of_sort_strings `{GoSort} l s : s ∈ sort_strings l <-> s ∈ l.
Proof. apply elem_of_sort_slice. Qed.

(** The first string of a sorted list. *)
Example sorted_words : @sort_strings merge_go_sort ["b"; "a"; "B"; "ab"] = ["B"; "a"; "ab"; "b"].
Proof. reflexivity. Qed.
