(* ===== verification/GoNumbers.v ===== *)
(** * Numbers of libraries

    Floating-point arithmetic, and the quantities of the Kubernetes API. *)

From stdpp Require Import base decidable list strings countable.
From Stdlib Require Import ZArith QArith Qround Lia Ascii.
From S2P Require Import Prelude.

Local Open Scope Z_scope.

(** ** Floating-point numbers

    The operations on [float64] that the code uses, and what IEEE 754 promises of
    them for whole numbers below 2^53: these are represented exactly, and sums,
    products, remainders and the floor of a quotient are exact. *)
Definition exact (z : Z) : Prop := 0 <= z < 2 ^ 53.

Class Float64 : Type := {
  float : Type;
  of_int : Z -> float;
  f_add : float -> float -> float;
  f_mul : float -> float -> float;
  f_div : float -> float -> float;
  (** [math.Mod], [math.Floor] *)
  f_mod : float -> float -> float;
  f_floor : float -> float;
  f_lt : float -> float -> bool;
  (** 0.001 *)
  f_milli : float;
  (** the conversion to [int64] *)
  to_int64 : float -> Z;
  f_add_exact : forall a b, exact a -> exact b -> exact (a + b) -> f_add (of_int a) (of_int b) = of_int (a + b);
  f_mul_exact : forall a b, exact a -> exact b -> exact (a * b) -> f_mul (of_int a) (of_int b) = of_int (a * b);
  f_mod_exact : forall a b, exact a -> exact b -> 0 < b -> f_mod (of_int a) (of_int b) = of_int (a mod b);
  f_floor_div : forall a b, exact a -> exact b -> 0 < b -> f_floor (f_div (of_int a) (of_int b)) = of_int (a / b);
  f_lt_exact : forall a b, exact a -> exact b -> f_lt (of_int a) (of_int b) = (a <? b);
  to_int64_exact : forall a, exact a -> to_int64 (of_int a) = a
}.

(** ** Quantities *)

(** What the code uses of [resource.Quantity], a decimal with a format. *)
Class Quantity (Qty : Type) := {
  Format : Type;
  format_of : Qty -> Format;
  AsDec : Qty -> Q;
  NewDecimalQuantity : Q -> Format -> Qty;
  Cmp : Qty -> Qty -> Z;
  q_IsZero : Qty -> bool;
  zeroQuantity : Qty;
  q_String : Qty -> string
}.

(** Quantities are exact decimals, compared by value. *)
Class QuantityLaws (Qty : Type) `{!Quantity Qty} := {
  AsDec_new : forall d f, (AsDec (NewDecimalQuantity d f) == d)%Q;
  Cmp_gt : forall a b, 0 < Cmp a b <-> (AsDec b < AsDec a)%Q;
  Cmp_zero : forall a b, Cmp a b = 0 <-> (AsDec a == AsDec b)%Q;
  IsZero_spec : forall a, q_IsZero a = true <-> (AsDec a == 0)%Q;
  AsDec_zero : (AsDec zeroQuantity == 0)%Q
}.

(** Sums, whole numbers in a given format, the zero of a format, and the conversions
    to [int64]: thousandths and units. *)
Class QuantitySums (Qty : Type) `{!Quantity Qty} := {
  q_Empty : string -> Qty;
  q_Add : Qty -> Qty -> Qty;
  q_New : Z -> string -> Qty;
  q_MilliValue : Qty -> Z;
  q_Value : Qty -> Z
}.

Class QuantitySumsLaws (Qty : Type) `{!Quantity Qty} `{!QuantitySums Qty} := {
  AsDec_Empty : forall f, (AsDec (q_Empty f) == 0)%Q;
  AsDec_Add : forall a b, (AsDec (q_Add a b) == AsDec a + AsDec b)%Q;
  AsDec_New : forall z f, (AsDec (q_New z f) == inject_Z z)%Q
}.

(** ** Text for countable values *)
Fixpoint bits_text (p : positive) : string :=
  match p with
  | xH => ""%string
  | xO p => String "0"%char (bits_text p)
  | xI p => String "1"%char (bits_text p)
  end.

Fixpoint text_bits (s : string) : positive :=
  match s with
  | EmptyString => xH
  | String c s => if decide (c = "0"%char) then xO (text_bits s) else xI (text_bits s)
  end.

Lemma text_bits_text p : text_bits (bits_text p) = p.
Proof.
  induction p as [p IH|p IH|]; [| |done]; cbn [bits_text text_bits].
  - rewrite decide_False by done. by rewrite IH.
  - rewrite decide_True by done. by rewrite IH.
Qed.

Definition print_value {A} `{Countable A} (x : A) : string := bits_text (encode x).

Definition parse_value {A} `{Countable A} (s : string) : option A := decode (text_bits s).

Lemma parse_print {A} `{Countable A} (x : A) : parse_value (print_value x) = Some x.
Proof. unfold parse_value, print_value. rewrite text_bits_text. apply decode_encode. Qed.

(** ** The rationals

    Exact numbers satisfy the laws; concrete inputs are evaluated with them. *)
Definition Q_eq_dec : EqDecision Q.
Proof. solve_decision. Defined.

Definition Q_countable : @Countable Q Q_eq_dec :=
  @inj_countable' (Z * positive) _ _ Q Q_eq_dec (fun q => (Qnum q, Qden q)) (fun p => Qmake p.1 p.2) (fun q => match q with Qmake _ _ => eq_refl end).

Definition Q_quantity : Quantity Q := {|
  Format := unit;
  format_of := fun _ => tt;
  AsDec := fun q => q;
  NewDecimalQuantity := fun q _ => Qred q;
  Cmp := fun a b => match (a ?= b)%Q with Lt => -1 | Eq => 0 | Gt => 1 end;
  q_IsZero := fun q => Qnum q =? 0;
  zeroQuantity := 0%Q;
  q_String := @print_value Q Q_eq_dec Q_countable
|}.

Lemma Q_quantity_laws : @QuantityLaws Q Q_quantity.
Proof.
  split; simpl.
  - intros d _. apply Qred_correct.
  - intros a b. rewrite Qgt_alt. by destruct (a ?= b)%Q.
  - intros a b. rewrite Qeq_alt. by destruct (a ?= b)%Q.
  - intros a. rewrite Z.eqb_eq. unfold Qeq. simpl. lia.
  - done.
Qed.

Definition Q_trunc (q : Q) : Z := if Qle_bool 0 q then Qfloor q else Qceiling q.

Definition Q_of_Z (z : Z) : Q := Qmake z 1.

Lemma Qfloor_div a b : 0 < b -> Qfloor (Qdiv (Q_of_Z a) (Q_of_Z b)) = a / b.
Proof.
  intros Hb. destruct b as [|b|b]; try lia. unfold Qdiv, Q_of_Z, Qinv, Qmult, Qfloor. simpl.
  f_equal; lia.
Qed.

Lemma Qtrunc_div a b : 0 <= a -> 0 < b -> Q_trunc (Qdiv (Q_of_Z a) (Q_of_Z b)) = a / b.
Proof.
  intros Ha Hb. unfold Q_trunc. rewrite Qfloor_div by done.
  destruct (Qle_bool 0 _) eqn:E; [done|]. exfalso. apply not_true_iff_false in E. apply E. apply Qle_bool_iff.
  destruct b as [|b|b]; try lia. unfold Qle, Qdiv, Q_of_Z, Qinv, Qmult. simpl. lia.
Qed.

#[refine] Definition Q_Float64 : Float64 := {|
  float := Q;
  of_int := Q_of_Z;
  f_add := Qplus;
  f_mul := Qmult;
  f_div := Qdiv;
  f_mod := fun x y => Qminus x (Qmult y (Q_of_Z (Q_trunc (Qdiv x y))));
  f_floor := fun q => Q_of_Z (Qfloor q);
  f_lt := fun x y => negb (Qle_bool y x);
  f_milli := Qmake 1 1000;
  to_int64 := fun q => GoInt.i64 (Q_trunc q)
|}.
Proof.
  - intros a b _ _ _. unfold Q_of_Z, Qplus. simpl. f_equal. lia.
  - intros a b _ _ _. done.
  - intros a b [Ha _] _ Hb. rewrite Qtrunc_div by done. unfold Q_of_Z, Qminus, Qplus, Qopp, Qmult. simpl.
    f_equal. rewrite Z.mod_eq by lia. lia.
  - intros a b _ _ Hb. by rewrite Qfloor_div.
  - intros a b _ _. unfold Qle_bool, Q_of_Z. simpl. rewrite !Z.mul_1_r. destruct (Z.ltb_spec a b), (Z.leb_spec b a); done || lia.
  - intros a [Ha Hb]. unfold Q_trunc. destruct (Qle_bool 0 (Q_of_Z a)) eqn:E.
    + unfold Qfloor, Q_of_Z. rewrite Z.div_1_r. apply GoInt.i64_id. unfold GoInt.in_i64. lia.
    + exfalso. apply not_true_iff_false in E. apply E. apply Qle_bool_iff. unfold Qle, Q_of_Z. simpl. lia.
Defined.

Definition Q_sums : @QuantitySums Q Q_quantity := {|
  q_Empty := fun _ => 0%Q;
  q_Add := Qplus;
  q_New := fun z _ => Q_of_Z z;
  q_MilliValue := fun q => Qceiling (Qmult q (Q_of_Z 1000));
  q_Value := Qceiling
|}.

Lemma Q_sums_laws : @QuantitySumsLaws Q Q_quantity Q_sums.
Proof. by split. Qed.
