(* ===== verification/GoFiles.v ===== *)
(** * Go files and commands

    Calls that use the world, the rest of [path/filepath], trees of files with
    [filepath.Walk], and the commands that a program starts. *)

From stdpp Require Import base decidable list gmap strings.
From Stdlib Require Import ZArith Lia Ascii.
From S2P Require Import Prelude GoStrings GoText GoValues.

(** ** Calls that use the world: they panic, or give the new world and a result. *)

Definition io (W A : Type) : Type := W -> go (W * A).

Section io.
Context {W : Type}.

#[global] Instance io_ret : MRet (io W) := fun A a w => Ret (w, a).

#[global] Instance io_bind : MBind (io W) := fun A B f m w =>
  match m w with
  | Ret (w', a) => f a w'
  | Panic => Panic
  end.

(** A call that does not use the world, one that cannot panic, and a look at the world. *)
Definition pure_go {A} (m : go A) : io W A := fun w =>
  match m with
  | Ret a => Ret (w, a)
  | Panic => Panic
  end.

Definition effect {A} (f : W -> W * A) : io W A := fun w => Ret (f w).

Definition asks {A} (f : W -> A) : io W A := fun w => Ret (w, f w).

(** [runs m w w' a]: started in [w] the call ends in [w'] with [a]. *)
Definition runs {A} (m : io W A) (w w' : W) (a : A) : Prop := m w = Ret (w', a).

Lemma runs_ret {A} (a b : A) w w' : runs (mret a) w w' b <-> w' = w /\ b = a.
Proof. unfold runs. split; [by intros [= <- <-]|by intros [-> ->]]. Qed.

Lemma runs_bind {A B} (m : io W A) (f : A -> io W B) w w' b :
  runs (m ≫= f) w w' b <-> exists w1 a, runs m w w1 a /\ runs (f a) w1 w' b.
Proof.
  unfold runs, mbind, io_bind. destruct (m w) as [[w1 a]|]; split.
  - intros H. by exists w1, a.
  - by intros (? & ? & [= <- <-] & ?).
  - done.
  - by intros (? & ? & ? & _).
Qed.

Lemma runs_pure {A} (m : go A) w w' a : runs (pure_go m) w w' a <-> w' = w /\ m = Ret a.
Proof.
  unfold runs, pure_go. destruct m as [b|]; split; [by intros [= <- <-]|by intros [-> [= ->]]|done|by intros [_ ?]].
Qed.

Lemma runs_effect {A} (f : W -> W * A) w w' a : runs (effect f) w w' a <-> f w = (w', a).
Proof. unfold runs, effect. split; [by intros [= <-]|by intros ->]. Qed.

Lemma runs_asks {A} (f : W -> A) w w' a : runs (asks f) w w' a <-> w' = w /\ a = f w.
Proof. unfold runs, asks. split; [by intros [= <- <-]|by intros [-> ->]]. Qed.

(** A loop over a slice that carries a state. *)
Fixpoint for_each {A S} (f : A -> S -> io W S) (l : list A) (s : S) : io W S :=
  match l with
  | [] => mret s
  | x :: l' => s' ← f x s; for_each f l' s'
  end.

(** An invariant of the body is one of the loop. *)
Lemma for_each_inv {A S} (P : list A -> S -> W -> Prop) (f : A -> S -> io W S) l w s w' s' :
  (forall done x s w s' w', P done s w -> runs (f x s) w w' s' -> P (done ++ [x]) s' w') ->
  P [] s w -> runs (for_each f l s) w w' s' -> P l s' w'.
Proof.
  intros Hstep. change l with ([] ++ l) at 2. generalize (@nil A) as past. revert w s.
  induction l as [|x l IH]; intros w s past Hp.
  - intros [-> ->]%runs_ret. by rewrite app_nil_r.
  - intros (w1 & s1 & H1 & H2)%runs_bind. replace (past ++ x :: l) with ((past ++ [x]) ++ l) by by rewrite <-app_assoc.
    eapply IH; [|done]. by eapply Hstep.
Qed.

(** A loop whose body always returns returns. *)
Lemma for_each_returns {A S} (P : S -> W -> Prop) (f : A -> S -> io W S) l w s :
  (forall x s w, x ∈ l -> P s w -> exists w' s', runs (f x s) w w' s' /\ P s' w') ->
  P s w -> exists w' s', runs (for_each f l s) w w' s' /\ P s' w'.
Proof.
  revert w s. induction l as [|x l IH]; intros w s Hf Hp.
  - exists w, s. split; [by apply runs_ret|done].
  - destruct (Hf x s w) as (w1 & s1 & Hr & Hp1); [by left|done|].
    destruct (IH w1 s1) as (w2 & s2 & Hr2 & Hp2); [intros; apply Hf; [by right|done]|done|].
    exists w2, s2. split; [|done]. apply runs_bind. by exists w1, s1.
Qed.
End io.

(** ** The rest of [path/filepath] *)

(** The extension, with its dot. *)
Definition Ext (p : string) : string :=
  let b := after_last p "/" in
  match LastIndex b "." with
  | Some i => slice_from i b
  | None => ""
  end.

(** The elements of a cleaned path. *)
Definition elements (p : string) : list string :=
  reverse (foldl (clean_step (IsAbs p)) [] (Split p "/")).

Fixpoint strip_common (b t : list string) : list string * list string :=
  match b, t with
  | x :: b', y :: t' => if decide (x = y) then strip_common b' t' else (b, t)
  | _, _ => (b, t)
  end.

(** [filepath.Rel(base, targ)]. *)
Definition Rel (base targ : string) : result string string :=
  let (b, t) := strip_common (elements base) (elements targ) in
  if negb (bool_decide (IsAbs base = IsAbs targ)) || bool_decide (head b = Some "..")
  then Err ("Rel: can't make " +:+ targ +:+ " relative to " +:+ base)
  else match b ++ t with
       | [] => Ok "."
       | _ => Ok (Join (((fun _ => "..") <$> b) ++ t) "/")
       end.

(** ** Paths below a path *)

(** A name in a folder. *)
Definition plain_name (x : string) : Prop :=
  x <> "" /\ x <> "." /\ x <> ".." /\ "/"%char ∉ chars x.

(** A stack that cleaning has made. *)
Definition clean_stack (rooted : bool) (s : list string) : Prop :=
  foldl (clean_step rooted) [] (reverse s) = s /\ Forall (fun x => x <> "" /\ x <> "." /\ "/"%char ∉ chars x) s.

Lemma split_aux_no_sep c cur l x : c ∉ cur -> x ∈ split_aux c cur l -> c ∉ chars x.
Proof.
  revert cur. induction l as [|y l IH]; intros cur Hc; simpl.
  - intros ->%list_elem_of_singleton. by rewrite chars_str, elem_of_reverse.
  - case_decide as Hy.
    + intros [->|H]%elem_of_cons; [by rewrite chars_str, elem_of_reverse|].
      eapply IH; [|done]. apply not_elem_of_nil.
    + apply IH. by apply not_elem_of_cons.
Qed.

Lemma Split_no_sep s c : Forall (fun x => c ∉ chars x) (Split s c).
Proof. apply Forall_forall. intros x Hx. eapply split_aux_no_sep; [|exact Hx]. apply not_elem_of_nil. Qed.

Lemma clean_step_clean rooted s seg :
  clean_stack rooted s -> "/"%char ∉ chars seg -> clean_stack rooted (clean_step rooted s seg).
Proof.
  intros [Hf Hs] Hc. unfold clean_step at 1. case_decide as H1; [by split|].
  apply Decidable.not_or in H1 as [He Hd]. case_decide as H2.
  - subst seg. destruct s as [|top rest]; [destruct rooted; by repeat constructor|].
    inversion Hs as [|? ? (Ht1 & Ht2 & Ht3) Hr]; subst. case_decide as Ht.
    + split; [|by repeat constructor]. subst top. by rewrite reverse_cons, foldl_app, Hf.
    + split; [|done]. rewrite reverse_cons, foldl_app in Hf. cbn [foldl] in Hf. unfold clean_step at 1 in Hf.
      rewrite decide_False in Hf by tauto. rewrite decide_False in Hf by done. congruence.
  - split; [|by constructor]. rewrite reverse_cons, foldl_app, Hf. cbn [foldl]. unfold clean_step.
    rewrite decide_False by tauto. by rewrite decide_False.
Qed.

Lemma clean_foldl rooted l s :
  clean_stack rooted s -> Forall (fun x => "/"%char ∉ chars x) l -> clean_stack rooted (foldl (clean_step rooted) s l).
Proof.
  revert s. induction l as [|x l IH]; intros s Hs Hl; [done|]. inversion Hl; subst. simpl.
  apply IH; [by apply clean_step_clean|done].
Qed.

Lemma elements_clean p : clean_stack (IsAbs p) (reverse (elements p)).
Proof.
  unfold elements. rewrite reverse_involutive. apply clean_foldl; [by split|apply Split_no_sep].
Qed.

Lemma Join_snoc_plain l x : l <> [] -> Join (l ++ [x]) "/" = Join l "/" +:+ String "/" x.
Proof.
  induction l as [|y l IH]; intros H; [done|]. destruct l as [|z l]; [done|].
  rewrite <-app_comm_cons. change ((z :: l) ++ [x]) with (z :: (l ++ [x])). rewrite !Join_cons_cons.
  change (z :: l ++ [x]) with ((z :: l) ++ [x]). rewrite IH by done.
  apply chars_inj. by rewrite !chars_app, <-!app_assoc.
Qed.

Lemma Split_Join l :
  l <> [] -> Forall (fun x => "/"%char ∉ chars x) l -> Split (Join l "/") "/" = l.
Proof.
  induction l as [|x l IH]; intros Hl Hf; [done|]. inversion Hf; subst. destruct l as [|y l].
  - by apply Split_whole.
  - rewrite Join_cons_cons. change (x +:+ "/" +:+ Join (y :: l) "/") with (x +:+ String "/" (Join (y :: l) "/")).
    rewrite Split_app, Split_whole, IH by done. done.
Qed.

Lemma elements_no_sep p : Forall (fun x => "/"%char ∉ chars x) (elements p).
Proof.
  destruct (elements_clean p) as [_ H]. rewrite Forall_forall in *. intros x Hx.
  apply (H x). by apply elem_of_reverse.
Qed.

Lemma Clean_elements p :
  Clean p = if IsAbs p then "/" +:+ Join (elements p) "/" else if decide (elements p = []) then "." else Join (elements p) "/".
Proof. unfold Clean. fold (elements p). destruct (IsAbs p); [done|]. by destruct (elements p). Qed.

Lemma IsAbs_slash s : IsAbs (String "/" s) = true.
Proof. unfold IsAbs, HasPrefix. apply bool_decide_eq_true_2. by exists (chars s). Qed.

Lemma IsAbs_no_slash x s : x <> "" -> "/"%char ∉ chars x -> IsAbs (x +:+ s) = false.
Proof.
  intros Hx Hs. unfold IsAbs, HasPrefix. apply bool_decide_eq_false_2. intros [k Hk].
  rewrite chars_app in Hk. destruct x as [|c x]; [done|]. simpl in Hk. injection Hk as -> _. apply Hs. left.
Qed.

Lemma str_app_nil (x : string) : x +:+ "" = x.
Proof. apply chars_inj. by rewrite chars_app, app_nil_r. Qed.

(** Cleaning twice is cleaning once. *)
Lemma Clean_facts p : IsAbs (Clean p) = IsAbs p /\ elements (Clean p) = elements p.
Proof.
  pose proof (elements_clean p) as [Hc Hf]. rewrite reverse_involutive in Hc.
  pose proof (elements_no_sep p) as Hn. apply Forall_reverse in Hf. rewrite reverse_involutive in Hf.
  rewrite Clean_elements. destruct (IsAbs p) eqn:Ha.
  - change ("/" +:+ Join (elements p) "/") with (String "/" (Join (elements p) "/")).
    rewrite IsAbs_slash. split; [done|]. unfold elements at 1. rewrite IsAbs_slash.
    change (String "/" (Join (elements p) "/")) with ("" +:+ String "/" (Join (elements p) "/")).
    rewrite Split_app. rewrite Split_whole by apply not_elem_of_nil. cbn [app foldl].
    change (clean_step true [] "") with (@nil string).
    destruct (decide (elements p = [])) as [E|E]; [by rewrite E|].
    by rewrite Split_Join, Hc, reverse_involutive.
  - case_decide as E; [by rewrite E|].
    assert (IsAbs (Join (elements p) "/") = false) as HA.
    { destruct (elements p) as [|x l] eqn:El; [done|]. inversion Hf as [|? ? (? & ? & ?) ?]; subst. destruct l as [|y l].
      - rewrite <-(str_app_nil (Join [x] "/")). by apply IsAbs_no_slash.
      - rewrite Join_cons_cons. by apply IsAbs_no_slash. }
    split; [done|]. unfold elements at 1. rewrite HA. by rewrite Split_Join, Hc, reverse_involutive.
Qed.

Lemma PathJoin_facts p x :
  p <> "" -> plain_name x ->
  IsAbs (PathJoin p x) = IsAbs p /\ elements (PathJoin p x) = elements p ++ [x]
  /\ after_last (PathJoin p x) "/" = x.
Proof.
  intros Hp (Hx1 & Hx2 & Hx3 & Hx4). unfold PathJoin. rewrite decide_False by done.
  change (p +:+ "/" +:+ x) with (p +:+ String "/" x).
  assert (Ha : IsAbs (p +:+ String "/" x) = IsAbs p).
  { unfold IsAbs, HasPrefix. apply bool_decide_ext. rewrite chars_app. destruct p as [|c p]; [done|]. simpl.
    split; intros [k Hk]; injection Hk as -> ?; by eexists. }
  assert (He : elements (p +:+ String "/" x) = elements p ++ [x]).
  { unfold elements. rewrite Ha, Split_app, foldl_app, (Split_whole x) by done. cbn [foldl].
    unfold clean_step at 1. rewrite !decide_False by (done || tauto). by rewrite reverse_cons. }
  destruct (Clean_facts (p +:+ String "/" x)) as [-> ->]. split_and!; [done..|].
  rewrite Clean_elements, He, Ha. rewrite decide_False by (by destruct (elements p)).
  assert (Hl : forall q, after_last (q +:+ String "/" x) "/" = x).
  { intros q. unfold after_last. rewrite LastIndex_split by done. unfold slice_from. rewrite chars_app. unfold slen.
    rewrite drop_app_ge by lia. replace (S (length (chars q)) - length (chars q)) with 1 by lia. apply str_chars. }
  destruct (decide (elements p = [])) as [->|E].
  - simpl. destruct (IsAbs p); [apply (Hl "")|]. unfold after_last. by rewrite LastIndex_none.
  - rewrite Join_snoc_plain by done. destruct (IsAbs p); [|apply Hl].
    change ("/" +:+ (Join (elements p) "/" +:+ String "/" x)) with (("/" +:+ Join (elements p) "/") +:+ String "/" x). apply Hl.
Qed.

Lemma strip_common_app l k : strip_common l (l ++ k) = ([], k).
Proof. induction l as [|x l IH]; simpl; [by destruct k|]. by rewrite decide_True. Qed.

(** A path below another one is relative to it. *)
Lemma Rel_below base targ names :
  IsAbs targ = IsAbs base -> elements targ = elements base ++ names ->
  Rel base targ = Ok (match names with [] => "." | _ => Join names "/" end).
Proof.
  intros Ha He. unfold Rel. rewrite He, strip_common_app, Ha, bool_decide_eq_true_2 by done. simpl. by destruct names.
Qed.

(** ** Trees of files

    What is found at a path: a file with the result of opening and reading it, or
    a folder with the result of reading its entries, which [filepath.Walk] and
    [os.ReadDir] visit by name. *)
Record path_error : Type := { pe_NotExist : bool; pe_Text : string }.

#[warnings="-register-all"]
Inductive node : Type :=
| FileNode (content : result path_error string)
| DirNode (listing : result path_error (list (string * node))).

Definition IsDir (n : node) : bool :=
  match n with DirNode _ => true | FileNode _ => false end.

Definition read_node (n : node) : result path_error string :=
  match n with
  | FileNode c => c
  | DirNode _ => Err {| pe_NotExist := false; pe_Text := "is a directory" |}
  end.

Inductive walk_error (E : Type) : Type := SkipDir | WalkError (e : E).
Arguments SkipDir {E}.
Arguments WalkError {E} e.

Section walk.
Context {S E : Type}.

(** The callback: path, name, what is there (nothing when looking failed) and the
    error of looking or listing. *)
Definition walk_fn : Type := string -> string -> option node -> option path_error -> S -> go (S * option (walk_error E)).

Context (fn : walk_fn).

Fixpoint walk (path name : string) (n : node) (s : S) : go (S * option (walk_error E)) :=
  match n with
  | FileNode _ => fn path name (Some n) None s
  | DirNode (Err e) => fn path name (Some n) (Some e) s
  | DirNode (Ok entries) =>
      '(s, out) ← fn path name (Some n) None s;
      match out with
      | Some _ => mret (s, out)
      | None =>
          (fix walk_entries (l : list (string * node)) (s : S) : go (S * option (walk_error E)) :=
             match l with
             | [] => mret (s, None)
             | (child, c) :: l' =>
                 '(s, out) ← walk (PathJoin path child) child c s;
                 match out with
                 | None => walk_entries l' s
                 | Some SkipDir => if IsDir c then walk_entries l' s else mret (s, out)
                 | Some (WalkError _) => mret (s, out)
                 end
             end) entries s
      end
  end.

Definition Walk (root : string) (found : result path_error node) (s : S) : go (S * option E) :=
  '(s, out) ← match found with
              | Err e => fn root "" None (Some e) s
              | Ok n => walk root (Base root) n s
              end;
  mret (s, match out with
           | Some (WalkError e) => Some e
           | _ => None
           end).
End walk.
Arguments walk_fn : clear implicits.

(** The nodes that a walk visits, in order, when the callback skips exactly the
    folders of [skip] and listing never fails. *)
Section visits.
Context (skip : string -> string -> node -> bool).

Fixpoint visits (path name : string) (n : node) : list (string * string * node) :=
  (path, name, n) ::
  match n with
  | DirNode (Ok entries) =>
      if skip path name n then []
      else mjoin ((fun e => visits (PathJoin path e.1) e.1 e.2) <$> entries)
  | _ => []
  end.

(** Every folder can be listed. *)
Fixpoint listable (n : node) : Prop :=
  match n with
  | FileNode _ => True
  | DirNode (Err _) => False
  | DirNode (Ok entries) => foldr (fun e P => listable e.2 /\ P) True entries
  end.

(** The entries of every folder have plain names. *)
Fixpoint plain_tree (n : node) : Prop :=
  match n with
  | DirNode (Ok entries) => foldr (fun e P => (plain_name e.1 /\ plain_tree e.2) /\ P) True entries
  | _ => True
  end.
End visits.

(** Induction over trees with the hypothesis for every entry. *)
Lemma node_entries_ind (P : node -> Prop) :
  (forall c, P (FileNode c)) ->
  (forall e, P (DirNode (Err e))) ->
  (forall entries, Forall (fun e => P e.2) entries -> P (DirNode (Ok entries))) ->
  forall n, P n.
Proof.
  intros Hf He Hd. fix IH 1. intros [c|[entries|e]]; [apply Hf| |apply He].
  apply Hd. induction entries as [|[name c] l IHl]; constructor; [apply IH|exact IHl].
Defined.

Lemma listable_entries entries :
  listable (DirNode (Ok entries)) <-> Forall (fun e => listable e.2) entries.
Proof.
  simpl. induction entries as [|e l IH]; simpl; [by split|]. by rewrite Forall_cons, IH.
Qed.

Lemma plain_tree_entries entries :
  plain_tree (DirNode (Ok entries)) <-> Forall (fun e => plain_name e.1 /\ plain_tree e.2) entries.
Proof.
  simpl. induction entries as [|e l IH]; simpl; [by split|]. by rewrite Forall_cons, IH.
Qed.

(** A walk whose callback never fails folds the callback over the visited nodes:
    [step] is what it does to its state. *)
Section walk_fold.
Context {S E : Type} (skip : string -> string -> node -> bool).
Context (step : string -> string -> node -> S -> go S).

Definition fold_visits (l : list (string * string * node)) (s : S) : go S :=
  foldl (fun acc v => acc ≫= step v.1.1 v.1.2 v.2) (Ret s) l.

Lemma fold_visits_panic l :
  foldl (fun (acc : go S) v => acc ≫= step v.1.1 v.1.2 v.2) Panic l = Panic.
Proof. by induction l. Qed.

Lemma fold_visits_cons v l s :
  fold_visits (v :: l) s = step v.1.1 v.1.2 v.2 s ≫= fold_visits l.
Proof.
  unfold fold_visits. simpl. destruct (step _ _ _ s) as [s'|]; simpl; [done|]. apply fold_visits_panic.
Qed.

Lemma fold_visits_app l k s : fold_visits (l ++ k) s = fold_visits l s ≫= fold_visits k.
Proof.
  revert s. induction l as [|v l IH]; intros s; [done|].
  rewrite <-app_comm_cons, !fold_visits_cons. destruct (step _ _ _ s) as [s'|]; simpl; [apply IH|done].
Qed.

Context (fn : walk_fn S E).
Context (Hfn : forall path name n s,
  (forall e, n <> DirNode (Err e)) ->
  fn path name (Some n) None s =
    s' ← step path name n s;
    mret (s', if IsDir n && skip path name n then Some SkipDir else None)).

Lemma walk_visits n : forall path name s,
  listable n ->
  walk fn path name n s =
    s' ← fold_visits (visits skip path name n) s;
    mret (s', if IsDir n && skip path name n then Some SkipDir else None).
Proof.
  induction n as [c|e|entries IH] using node_entries_ind; intros path name s Hl; [| done |].
  - simpl. rewrite Hfn by done. simpl. unfold fold_visits. simpl. by destruct (step _ _ _ s).
  - cbn [walk]. rewrite Hfn by done. cbn [visits IsDir]. rewrite fold_visits_cons.
    cbn [fst snd]. destruct (step path name _ s) as [s1|]; cbn; [|done].
    destruct (skip path name _) eqn:Hs; cbn; [done|].
    apply listable_entries in Hl. clear Hs s. revert s1.
    induction entries as [|[child c] l IHl]; intros s1; [done|].
    inversion IH as [|? ? IHc IHr]; subst. inversion Hl as [|? ? Hlc Hlr]; subst. simpl in *.
    rewrite IHc by done. rewrite fold_visits_app.
    destruct (fold_visits (visits skip (PathJoin path child) child c) s1) as [s2|]; simpl; [|done].
    destruct (IsDir c && _) eqn:Hd; simpl; [|by apply IHl].
    apply andb_prop in Hd as [-> _]. by apply IHl.
Qed.

Lemma Walk_visits root n s :
  listable n -> Walk fn root (Ok n) s = s' ← fold_visits (visits skip root (Base root) n) s; mret (s', None).
Proof.
  intros Hl. unfold Walk. cbn. rewrite walk_visits by done.
  destruct (fold_visits _ s) as [s'|]; simpl; [|done]. by destruct (_ && _).
Qed.
End walk_fold.

(** ** The file system and commands *)

(** [Lookup] is what is found at a path; writing, making folders and removing
    return nil or an error. *)
Class Files (W : Type) := {
  Lookup : string -> W -> result path_error node;
  WriteFile : string -> string -> W -> W * option string;
  MkdirAll : string -> W -> W * option string;
  RemoveAll : string -> W -> W * option string;
  Remove : string -> W -> W * option string
}.

(** A command with its arguments, started in a folder ([""] is that of the
    program): standard output, standard error, and the error of running it.
    [LookPath] is the path that [exec.Command] resolves the name to, and
    [RunCombined] gives both outputs in one. *)
Class Commands (W : Type) := {
  LookPath : string -> string;
  Run : string -> string -> list string -> W -> W * (string * string * option string);
  RunCombined : string -> list string -> W -> W * (string * option string)
}.

(** [os.Open] and [io.ReadAll]. *)
Definition ReadPath {W} `{!Files W} (path : string) (w : W) : result path_error string :=
  match Lookup path w with
  | Ok n => read_node n
  | Err e => Err e
  end.

(** [os.Stat]: a link to nothing is a file that does not exist. *)
Definition Stat {W} `{!Files W} (path : string) (w : W) : result path_error node :=
  match Lookup path w with
  | Ok (FileNode (Err e)) => if pe_NotExist e then Err e else Ok (FileNode (Err e))
  | found => found
  end.
