(* ===== verification/GoNet.v ===== *)
(** * Go's address parsers

    [net.ParseIP], [IP.IsLoopback], [IP.IsLinkLocalUnicast] and
    [net.SplitHostPort], as the enricher and the TLS configuration use them.
    An address is the list of its 16 bytes; an IPv4 address is IPv4-mapped. *)

From stdpp Require Import base decidable list gmap strings.
From Stdlib Require Import ZArith Lia Ascii.
From S2P Require Import Prelude GoStrings.

Local Open Scope Z_scope.

(** ** [net.ParseIP] *)

(** One decimal octet: one to three digits, no leading zero, at most 255. *)
Definition parse_octet (s : string) : option Z :=
  let l := chars s in
  let ds := take_digits l in
  if decide (length ds = length l /\ ds <> [] /\ (length ds = 1%nat \/ head ds <> Some 0)
             /\ digits_value ds <= 255)
  then Some (digits_value ds) else None.

(** [parseIPv4Fields]. *)
Definition parse_ipv4_fields (l : list ascii) : option (list Z) :=
  match Split (str l) "."%char with
  | [a; b; c; d] => mapM parse_octet [a; b; c; d]
  | _ => None
  end.

Definition v4_mapped (b4 : list Z) : list Z := replicate 10 0 ++ [255; 255] ++ b4.

Definition hex_value (c : ascii) : option Z :=
  let n := Z.of_nat (nat_of_ascii c) in
  if (48 <=? n) && (n <=? 57) then Some (n - 48)
  else if (97 <=? n) && (n <=? 102) then Some (n - 87)
  else if (65 <=? n) && (n <=? 70) then Some (n - 55)
  else None.

(** The hex digits at the front of [l], and the rest. *)
Fixpoint take_hex (l : list ascii) : list Z * list ascii :=
  match l with
  | [] => ([], [])
  | c :: l' =>
      match hex_value c with
      | Some d => let '(ds, r) := take_hex l' in (d :: ds, r)
      | None => ([], l)
      end
  end.

Definition hex_number (ds : list Z) : Z := foldl (fun acc d => acc * 16 + d) 0 ds.

(** What the group loop of [parseIPv6] leaves: the bytes, the position of the
    ellipsis and the unread characters. *)
Record ipv6_state := { v6_bytes : list Z; v6_ellipsis : option nat; v6_rest : list ascii }.

(** The loop, at most eight groups. *)
Fixpoint parse_ipv6_groups (fuel : nat) (st : ipv6_state) : option ipv6_state :=
  match fuel with
  | O => Some st
  | S fuel' =>
      let i := length (v6_bytes st) in
      let '(ds, rest) := take_hex (v6_rest st) in
      if decide (ds = [] \/ (4 < length ds)%nat) then None
      else if decide (head rest = Some "."%char) then
        if decide (v6_ellipsis st = None /\ i <> 12%nat) then None
        else if decide (16 < i + 4)%nat then None
        else
          match parse_ipv4_fields (v6_rest st) with
          | None => None
          | Some b4 => Some {| v6_bytes := v6_bytes st ++ b4; v6_ellipsis := v6_ellipsis st; v6_rest := [] |}
          end
      else
        let acc := hex_number ds in
        let bs := v6_bytes st ++ [acc / 256; acc mod 256] in
        match rest with
        | [] => Some {| v6_bytes := bs; v6_ellipsis := v6_ellipsis st; v6_rest := [] |}
        | c :: rest1 =>
            if decide (c <> ":"%char) then None
            else
              match rest1 with
              | [] => None
              | c2 :: rest2 =>
                  if decide (c2 = ":"%char) then
                    match v6_ellipsis st with
                    | Some _ => None
                    | None =>
                        let st' := {| v6_bytes := bs; v6_ellipsis := Some (i + 2)%nat; v6_rest := rest2 |} in
                        match rest2 with
                        | [] => Some st'
                        | _ => parse_ipv6_groups fuel' st'
                        end
                    end
                  else
                    parse_ipv6_groups fuel' {| v6_bytes := bs; v6_ellipsis := v6_ellipsis st; v6_rest := rest1 |}
              end
        end
  end.

(** A leading ellipsis is read before the loop. *)
Definition ipv6_start (l : list ascii) : ipv6_state :=
  if decide (take 2 l = [":"%char; ":"%char])
  then {| v6_bytes := []; v6_ellipsis := Some 0%nat; v6_rest := drop 2 l |}
  else {| v6_bytes := []; v6_ellipsis := None; v6_rest := l |}.

(** [parseIPv6] without a zone: what surrounds the loop. *)
Definition parse_ipv6 (l : list ascii) : option (list Z) :=
  let start := ipv6_start l in
  if decide (v6_ellipsis start = Some 0%nat /\ v6_rest start = []) then Some (replicate 16 0)
  else
    match parse_ipv6_groups 8 start with
    | None => None
    | Some st =>
        if decide (v6_rest st <> []) then None
        else
          let i := length (v6_bytes st) in
          match v6_ellipsis st with
          | None => if decide (i < 16)%nat then None else Some (v6_bytes st)
          | Some e =>
              if decide (i < 16)%nat
              then Some (take e (v6_bytes st) ++ replicate (16 - i) 0 ++ drop e (v6_bytes st))
              else None
          end
    end.

(** [net.ParseIP]: the first of [.], [:] and [%] selects the form; a zone is
    never accepted. *)
Definition ParseIP (s : string) : option (list Z) :=
  let l := chars s in
  if decide ("%"%char ∈ l) then None
  else
    match List.find (fun c => bool_decide (c = "."%char) || bool_decide (c = ":"%char)) l with
    | Some "."%char => v4_mapped <$> parse_ipv4_fields l
    | Some _ => parse_ipv6 l
    | None => None
    end.

(** [IP.To4]. *)
Definition To4 (ip : list Z) : option (list Z) :=
  if decide (take 12 ip = replicate 10 0 ++ [255; 255]) then Some (drop 12 ip) else None.

Definition IsLoopback (ip : list Z) : bool :=
  match To4 ip with
  | Some b4 => bool_decide (head b4 = Some 127)
  | None => bool_decide (ip = replicate 15 0 ++ [1])
  end.

Definition IsLinkLocalUnicast (ip : list Z) : bool :=
  match To4 ip with
  | Some b4 => bool_decide (take 2 b4 = [169; 254])
  | None =>
      match ip with
      | a :: b :: _ => (a =? 254) && (Z.land b 192 =? 128)
      | _ => false
      end
  end.

(** ** [net.SplitHostPort] *)

Definition index_of (c : ascii) (l : list ascii) : option nat :=
  fst <$> list_find (fun x => x = c) l.

Definition SplitHostPort (hostport : string) : option (string * string) :=
  let l := chars hostport in
  match LastIndex hostport ":"%char with
  | None => None
  | Some i =>
      let port := slice_from (S i) hostport in
      if decide (head l = Some "["%char) then
        match index_of "]"%char l with
        | None => None
        | Some e =>
            if decide (S e = length l) then None
            else if decide (S e <> i) then None
            else if decide ("["%char ∈ drop 1 l) then None
            else if decide ("]"%char ∈ drop (S e) l) then None
            else Some (str (drop 1 (take e l)), port)
        end
      else
        let host := take i l in
        if decide (":"%char ∈ host) then None
        else if decide ("["%char ∈ l) then None
        else if decide ("]"%char ∈ l) then None
        else Some (str host, port)
  end.

(** ** Facts *)

Lemma mapM_octets_length (l : list string) bs :
  mapM parse_octet l = Some bs -> length bs = length l.
Proof. intros H%mapM_Some. symmetry. by eapply Forall2_length. Qed.

Lemma parse_ipv4_fields_length l bs : parse_ipv4_fields l = Some bs -> length bs = 4%nat.
Proof.
  unfold parse_ipv4_fields. intros Hp. repeat case_match; try done.
  by apply mapM_octets_length in Hp.
Qed.

(** The loop never writes past the sixteenth byte, and the ellipsis is a
    position in what was written. *)
Definition ipv6_ok (fuel : nat) (st : ipv6_state) : Prop :=
  (length (v6_bytes st) + 2 * fuel <= 16)%nat /\
  forall e, v6_ellipsis st = Some e -> (e <= length (v6_bytes st))%nat.

Lemma ipv6_ok_group fuel bs a b e rest rest' :
  ipv6_ok (S fuel) {| v6_bytes := bs; v6_ellipsis := e; v6_rest := rest |} ->
  ipv6_ok fuel {| v6_bytes := bs ++ [a; b]; v6_ellipsis := e; v6_rest := rest' |}.
Proof.
  intros [H1 H2]; split; simpl in *; rewrite length_app; simpl; [lia|].
  intros e0 He. specialize (H2 e0 He). lia.
Qed.

Lemma ipv6_ok_ellipsis fuel bs a b rest rest' :
  ipv6_ok (S fuel) {| v6_bytes := bs; v6_ellipsis := None; v6_rest := rest |} ->
  ipv6_ok fuel {| v6_bytes := bs ++ [a; b]; v6_ellipsis := Some (length bs + 2)%nat; v6_rest := rest' |}.
Proof.
  intros [H1 H2]; split; simpl in *; rewrite length_app; simpl; [lia|].
  intros e0 [= <-]. lia.
Qed.

Lemma ipv6_ok_weaken fuel st : ipv6_ok fuel st -> ipv6_ok 0 st.
Proof. intros [H1 H2]; split; [lia|done]. Qed.

Lemma parse_ipv6_groups_ok fuel st st' :
  ipv6_ok fuel st -> parse_ipv6_groups fuel st = Some st' -> ipv6_ok 0 st'.
Proof.
  revert st. induction fuel as [|fuel IH]; intros [bs e rest] Hok; cbn -[decide].
  { by intros [= <-]. }
  destruct (take_hex rest) as [ds r]. intros H.
  case_decide; [done|]. case_decide.
  - case_decide; [done|]. case_decide as H16; [done|].
    destruct (parse_ipv4_fields rest) as [b4|] eqn:E4; [|done].
    apply parse_ipv4_fields_length in E4. destruct Hok as [Hok1 Hok2]. simplify_eq/=.
    split; simpl; rewrite length_app; [lia|]. intros e0 He. specialize (Hok2 e0 He). simpl in Hok2. lia.
  - destruct r as [|c [|c2 r2]].
    + simplify_eq. eapply ipv6_ok_weaken, ipv6_ok_group, Hok.
    + by case_decide.
    + case_decide; [done|]. case_decide.
      * destruct e; [done|]. destruct r2; simplify_eq.
        -- eapply ipv6_ok_weaken, ipv6_ok_ellipsis, Hok.
        -- eapply IH; [|exact H]. eapply ipv6_ok_ellipsis, Hok.
      * eapply IH; [|exact H]. eapply ipv6_ok_group, Hok.
Qed.

Lemma ipv6_start_ok l : ipv6_ok 8 (ipv6_start l).
Proof.
  unfold ipv6_start. case_decide; split; simpl; try lia; intros e He; by simplify_eq.
Qed.

Lemma parse_ipv6_length l ip : parse_ipv6 l = Some ip -> length ip = 16%nat.
Proof.
  unfold parse_ipv6. cbv zeta. pose proof (ipv6_start_ok l) as Hs.
  case_decide; [by intros [= <-]|].
  destruct (parse_ipv6_groups 8 _) as [st|] eqn:Eg; [|done].
  destruct (parse_ipv6_groups_ok _ _ _ Hs Eg) as [Hl He].
  case_decide; [done|].
  destruct (v6_ellipsis st) as [e|]; case_decide; intros; simplify_eq; [|lia].
  specialize (He e eq_refl).
  rewrite !length_app, length_take, length_drop, length_replicate. lia.
Qed.

(** A parsed address always has 16 bytes, so no accessor indexes past it. *)
Lemma ParseIP_length s ip : ParseIP s = Some ip -> length ip = 16%nat.
Proof.
  unfold ParseIP. case_decide; [done|].
  destruct (List.find _ _) as [c|]; [|done].
  assert (H4 : v4_mapped <$> parse_ipv4_fields (chars s) = Some ip -> length ip = 16%nat).
  { destruct (parse_ipv4_fields _) as [b|] eqn:Eb; simpl; [|done]. intros [= <-].
    apply parse_ipv4_fields_length in Eb. simpl. lia. }
  pose proof (parse_ipv6_length (chars s) ip) as H6.
  repeat case_match; auto.
Qed.
