(* ===== verification/FlowTypes.v ===== *)
(** * Network-flow messages

    The protobuf messages the agent, the aggregator and the Insights API
    exchange.  A message pointer is an [option]; a getter on a nil pointer
    yields the zero value, as the generated getters do.  proto3 enums are open,
    so an enum is its number, with the named values as constants. *)

From stdpp Require Import base decidable list gmap strings.
From Stdlib Require Import ZArith Lia.
From S2P Require Import Prelude.

Local Open Scope Z_scope.

(** ** Agent to aggregator: [pkg/aggregator/v1] *)
Module aggregv1.

Definition FLOW_EVENT_KIND_UNSPECIFIED : Z := 0.
Definition FLOW_EVENT_KIND_CONNECT : Z := 1.
Definition FLOW_EVENT_KIND_TRAFFIC : Z := 2.
Definition FLOW_EVENT_KIND_DNS_QUERY : Z := 3.
Definition FLOW_EVENT_KIND_DNS_RESPONSE : Z := 4.

Definition PROTOCOL_UNSPECIFIED : Z := 0.
Definition PROTOCOL_TCP : Z := 1.
Definition PROTOCOL_DNS : Z := 2.

Record DnsDetails := mkDnsDetails {
  Name : string;
  Qtype : string;
  Rcode : string;
  Addresses : list string;
  QueryId : Z
}.

Record Endpoint := mkEndpoint {
  Addr : string;
  Port : Z
}.

Record WorkloadRef := mkWorkloadRef {
  Namespace : string;
  Pod : string;
  Container : string
}.

Record FlowEvent := mkFlowEvent {
  EventKind : Z;
  Protocol : Z;
  TimestampUnixNano : Z;
  Src : option WorkloadRef;
  SrcEndpoint : option Endpoint;
  Dst : option Endpoint;
  BytesSent : Z;
  BytesReceived : Z;
  Dns : option DnsDetails
}.

Record FlowEventBatch := mkFlowEventBatch {
  NodeName : string;
  AgentId : string;
  Events : list (option FlowEvent)
}.

Definition GetName (x : option DnsDetails) : string := from_ptr "" Name x.
Definition GetQtype (x : option DnsDetails) : string := from_ptr "" Qtype x.
Definition GetRcode (x : option DnsDetails) : string := from_ptr "" Rcode x.
Definition GetAddresses (x : option DnsDetails) : list string := from_ptr [] Addresses x.
Definition GetAddr (x : option Endpoint) : string := from_ptr "" Addr x.
Definition GetPort (x : option Endpoint) : Z := from_ptr 0 Port x.
Definition GetNamespace (x : option WorkloadRef) : string := from_ptr "" Namespace x.
Definition GetPod (x : option WorkloadRef) : string := from_ptr "" Pod x.

#[global] Instance DnsDetails_eq_dec : EqDecision DnsDetails.
Proof. solve_decision. Defined.
#[global] Instance Endpoint_eq_dec : EqDecision Endpoint.
Proof. solve_decision. Defined.
#[global] Instance WorkloadRef_eq_dec : EqDecision WorkloadRef.
Proof. solve_decision. Defined.
#[global] Instance FlowEvent_eq_dec : EqDecision FlowEvent.
Proof. solve_decision. Defined.

End aggregv1.

(** ** Aggregator to Insights: [pkg/insights/v1] *)
Module insightsv1.

Definition FLOW_EVENT_KIND_UNSPECIFIED : Z := 0.
Definition FLOW_EVENT_KIND_CONNECT : Z := 1.
Definition FLOW_EVENT_KIND_TRAFFIC : Z := 2.
Definition FLOW_EVENT_KIND_DNS_QUERY : Z := 3.
Definition FLOW_EVENT_KIND_DNS_RESPONSE : Z := 4.

Record DnsDetails := mkDnsDetails {
  Name : string;
  Qtype : string;
  Rcode : string;
  Addresses : list string;
  QueryId : Z
}.

Record Endpoint := mkEndpoint {
  Addr : string;
  Port : Z
}.

Record WorkloadRef := mkWorkloadRef {
  Namespace : string;
  Pod : string;
  Container : string
}.

Record KubernetesRef := mkKubernetesRef {
  RefNamespace : string;
  Kind : string;
  RefName : string
}.

Record EnrichedFlowEvent := mkEnrichedFlowEvent {
  NodeName : string;
  AgentId : string;
  EventKind : Z;
  Protocol : Z;
  TimestampUnixNano : Z;
  Src : option WorkloadRef;
  SrcWorkload : option KubernetesRef;
  SrcEndpoint : option Endpoint;
  Dst : option Endpoint;
  DstRef : option KubernetesRef;
  BytesSent : Z;
  BytesReceived : Z;
  Dns : option DnsDetails;
  BackendWorkload : option KubernetesRef;
  BackendPod : option WorkloadRef
}.

Record EnrichedFlowEventBatch := mkEnrichedFlowEventBatch {
  Organization : string;
  Cluster : string;
  BatchNodeName : string;
  BatchAgentId : string;
  Events : list EnrichedFlowEvent
}.

Definition GetNamespace (x : option WorkloadRef) : string := from_ptr "" Namespace x.
Definition GetRefNamespace (x : option KubernetesRef) : string := from_ptr "" RefNamespace x.
Definition GetKind (x : option KubernetesRef) : string := from_ptr "" Kind x.

#[global] Instance DnsDetails_eq_dec : EqDecision DnsDetails.
Proof. solve_decision. Defined.
#[global] Instance Endpoint_eq_dec : EqDecision Endpoint.
Proof. solve_decision. Defined.
#[global] Instance WorkloadRef_eq_dec : EqDecision WorkloadRef.
Proof. solve_decision. Defined.
#[global] Instance KubernetesRef_eq_dec : EqDecision KubernetesRef.
Proof. solve_decision. Defined.
#[global] Instance EnrichedFlowEvent_eq_dec : EqDecision EnrichedFlowEvent.
Proof. solve_decision. Defined.

End insightsv1.

(** ** What the agent's gadgets extract: [pkg/agent] *)
Module agent.

(** [TCPFields] *)
Record TCPFields := mkTCPFields {
  Namespace : string;
  Pod : string;
  Container : string;
  SrcAddr : string;
  SrcPort : Z;
  DstAddr : string;
  DstPort : Z;
  PID : Z;
  Timestamp : Z;
  BytesSent : Z;
  BytesReceived : Z;
  EventKind : Z
}.

(** [DNSFields] *)
Record DNSFields := mkDNSFields {
  dns_Namespace : string;
  dns_Pod : string;
  dns_Container : string;
  dns_SrcAddr : string;
  dns_SrcPort : Z;
  dns_DstAddr : string;
  dns_DstPort : Z;
  dns_Timestamp : Z;
  QR : string;
  dns_Name : string;
  QType : string;
  RCode : string;
  dns_Addresses : string;
  QueryID : Z
}.

#[global] Instance TCPFields_eq_dec : EqDecision TCPFields.
Proof. solve_decision. Defined.

(** [connKey]: what identifies a connection. *)
Record connKey := mkConnKey {
  key_Namespace : string;
  key_Pod : string;
  key_Container : string;
  key_SrcAddr : string;
  key_SrcPort : Z;
  key_DstAddr : string;
  key_DstPort : Z;
  key_PID : Z
}.

#[global] Instance connKey_eq_dec : EqDecision connKey.
Proof. solve_decision. Defined.

#[global] Instance connKey_countable : Countable connKey.
Proof.
  refine (inj_countable'
    (fun k => (key_Namespace k, key_Pod k, key_Container k, key_SrcAddr k,
               key_SrcPort k, key_DstAddr k, key_DstPort k, key_PID k))
    (fun '(a, b, c, d, e, f, g, h) => mkConnKey a b c d e f g h) _).
  by intros [].
Defined.

End agent.
