(* ===== verification/DeltaTracker.v ===== *)
(** * Byte-delta tracker

    [pkg/agent/delta_tracker.go] of the network-flow agent: turns the cumulative
    byte counters that the top_tcp gadget polls into increments, one connection
    at a time. *)

From stdpp Require Import base decidable list gmap strings.
From Stdlib Require Import ZArith Lia.
From S2P Require Import Prelude FlowTypes.
Import agent GoInt.

Local Open Scope Z_scope.

(** ** State and operations *)

Record connState := mkConnState {
  fields : TCPFields;
  lastSent : Z;
  lastReceived : Z;
  emittedSent : Z;
  emittedReceived : Z;
  seen : bool
}.

Record ByteDelta := mkByteDelta {
  Fields : TCPFields;
  Sent : Z;
  Received : Z
}.

(** [ByteDeltaTracker.last]; the lock is not part of the state. *)
Abbreviation tracker := (gmap connKey connState).

Definition NewByteDeltaTracker : tracker := ∅.

Definition connKeyFromFields (f : TCPFields) : connKey :=
  {| key_Namespace := Namespace f; key_Pod := Pod f; key_Container := Container f;
     key_SrcAddr := SrcAddr f; key_SrcPort := SrcPort f;
     key_DstAddr := DstAddr f; key_DstPort := DstPort f; key_PID := PID f |}.

Definition remainingBytes (emitted last : Z) : Z :=
  if emitted <=? last then last - emitted else last.

Definition diffCumulative (prev current : Z) : Z :=
  if prev <=? current then current - prev else current.

Definition with_seen (b : bool) (st : connState) : connState :=
  {| fields := fields st; lastSent := lastSent st; lastReceived := lastReceived st;
     emittedSent := emittedSent st; emittedReceived := emittedReceived st; seen := b |}.

Definition BeginPoll (t : tracker) : tracker := with_seen false <$> t.

(** The entry that a repeated observation leaves. *)
Definition observed (st : connState) (f : TCPFields) : connState :=
  let deltaSent := diffCumulative (lastSent st) (BytesSent f) in
  let deltaReceived := diffCumulative (lastReceived st) (BytesReceived f) in
  {| fields := f;
     lastSent := BytesSent f;
     lastReceived := BytesReceived f;
     emittedSent := u64 (emittedSent st + deltaSent);
     emittedReceived := u64 (emittedReceived st + deltaReceived);
     seen := true |}.

(** [None] is the [ByteDelta{}, false] return. *)
Definition Observe (t : tracker) (f : TCPFields) : tracker * option ByteDelta :=
  let key := connKeyFromFields f in
  match t !! key with
  | None =>
      (<[key := {| fields := f; lastSent := BytesSent f; lastReceived := BytesReceived f;
                   emittedSent := 0; emittedReceived := 0; seen := true |}]> t, None)
  | Some st =>
      let deltaSent := diffCumulative (lastSent st) (BytesSent f) in
      let deltaReceived := diffCumulative (lastReceived st) (BytesReceived f) in
      if (deltaSent =? 0) && (deltaReceived =? 0) then
        (<[key := {| fields := f; lastSent := BytesSent f; lastReceived := BytesReceived f;
                     emittedSent := emittedSent st; emittedReceived := emittedReceived st;
                     seen := true |}]> t, None)
      else
        (<[key := observed st f]> t,
         Some {| Fields := f; Sent := deltaSent; Received := deltaReceived |})
  end.

(** What [EndPoll] emits for one entry it deletes. *)
Definition flush (st : connState) : option ByteDelta :=
  let remainingSent := remainingBytes (emittedSent st) (lastSent st) in
  let remainingReceived := remainingBytes (emittedReceived st) (lastReceived st) in
  if (0 <? remainingSent) || (0 <? remainingReceived)
  then Some {| Fields := fields st; Sent := remainingSent; Received := remainingReceived |}
  else None.

Definition EndPoll `{!RangeOrder connKey connState} (t : tracker) : tracker * list ByteDelta :=
  (filter (fun kst => seen kst.2 = true) t,
   omap (fun kst : connKey * connState => if seen kst.2 then None else flush kst.2) (range_map t)).

(** [Delta]: the single-key wrapper. *)
Definition Delta (t : tracker) (key : connKey) (sent received : Z) : tracker * (Z * Z * bool) :=
  let '(t', d) :=
    Observe t {| Namespace := key_Namespace key; Pod := key_Pod key; Container := key_Container key;
                 SrcAddr := key_SrcAddr key; SrcPort := key_SrcPort key;
                 DstAddr := key_DstAddr key; DstPort := key_DstPort key; PID := key_PID key;
                 Timestamp := 0; BytesSent := sent; BytesReceived := received; EventKind := 0 |} in
  match d with
  | Some d => (t', (Sent d, Received d, true))
  | None => (t', (0, 0, false))
  end.

(** The observations of one poll, in array order, with the deltas they emit. *)
Fixpoint observe_all (t : tracker) (obs : list TCPFields) : tracker * list ByteDelta :=
  match obs with
  | [] => (t, [])
  | f :: obs' =>
      let '(t1, d) := Observe t f in
      let '(t2, ds) := observe_all t1 obs' in
      (t2, option_list d ++ ds)
  end.

(** One poll, as the gadget callback runs it. *)
Definition poll `{!RangeOrder connKey connState} (t : tracker) (obs : list TCPFields) :
  tracker * list ByteDelta :=
  let '(t1, ds1) := observe_all (BeginPoll t) obs in
  let '(t2, ds2) := EndPoll t1 in
  (t2, ds1 ++ ds2).

Fixpoint polls `{!RangeOrder connKey connState} (t : tracker) (ps : list (list TCPFields)) :
  tracker * list ByteDelta :=
  match ps with
  | [] => (t, [])
  | p :: ps' =>
      let '(t1, ds1) := poll t p in
      let '(t2, ds2) := polls t1 ps' in
      (t2, ds1 ++ ds2)
  end.

(** ** What the theorems measure *)

(** The bytes, sent and received, that a list of deltas reports for a connection. *)
Definition delta_for (k : connKey) (d : ByteDelta) : Prop := connKeyFromFields (Fields d) = k.

#[global] Instance delta_for_dec k d : Decision (delta_for k d).
Proof. unfold delta_for. apply _. Defined.

Definition bytes_for (proj : ByteDelta -> Z) (k : connKey) (ds : list ByteDelta) : Z :=
  sumZ ((fun d => if decide (delta_for k d) then proj d else 0) <$> ds).

(** The counters of [k] in an observation sequence never decrease and fit 64 bits. *)
Fixpoint monotone (k : connKey) (s r : Z) (obs : list TCPFields) : Prop :=
  match obs with
  | [] => True
  | f :: obs' =>
      if decide (connKeyFromFields f = k)
      then s <= BytesSent f < 2 ^ 64 /\ r <= BytesReceived f < 2 ^ 64 /\
           monotone k (BytesSent f) (BytesReceived f) obs'
      else monotone k s r obs'
  end.

(** The last counters of [k] in an observation sequence. *)
Fixpoint last_counters (k : connKey) (s r : Z) (obs : list TCPFields) : Z * Z :=
  match obs with
  | [] => (s, r)
  | f :: obs' =>
      if decide (connKeyFromFields f = k)
      then last_counters k (BytesSent f) (BytesReceived f) obs'
      else last_counters k s r obs'
  end.

(** Every entry is stored under the key of its own fields. *)
Definition tracker_wf (t : tracker) : Prop :=
  forall k st, t !! k = Some st -> connKeyFromFields (fields st) = k.

(** Entry [st] has emitted all but its baseline: [s] and [r] are what the
    deltas so far reported for it, [ls] and [lr] its last counters. *)
Definition entry_ok (st : connState) (s r ls lr : Z) : Prop :=
  lastSent st = ls /\ lastReceived st = lr /\
  emittedSent st = s /\ emittedReceived st = r /\
  0 <= s <= ls /\ ls < 2 ^ 64 /\ 0 <= r <= lr /\ lr < 2 ^ 64.

(** ** Lemmas *)

Lemma diffCumulative_mono p c : p <= c -> diffCumulative p c = c - p.
Proof. intros H. unfold diffCumulative. by rewrite (proj2 (Z.leb_le p c) H). Qed.

Lemma remainingBytes_le e l : e <= l -> remainingBytes e l = l - e.
Proof. intros H. unfold remainingBytes. by rewrite (proj2 (Z.leb_le e l) H). Qed.

Lemma bytes_for_app proj k ds1 ds2 :
  bytes_for proj k (ds1 ++ ds2) = bytes_for proj k ds1 + bytes_for proj k ds2.
Proof. unfold bytes_for. by rewrite fmap_app, sumZ_app. Qed.

#[global] Instance bytes_for_perm proj k : Proper ((≡ₚ) ==> (=)) (bytes_for proj k).
Proof. intros ds1 ds2 H. unfold bytes_for. by rewrite H. Qed.

Lemma bytes_for_none proj k ds :
  Forall (fun d => ~ delta_for k d) ds -> bytes_for proj k ds = 0.
Proof.
  intros H. unfold bytes_for. apply sumZ_zero. rewrite Forall_fmap.
  eapply Forall_impl; [exact H|]. intros d Hd. simpl. by case_decide.
Qed.

Lemma bytes_for_nil proj k : bytes_for proj k [] = 0.
Proof. done. Qed.

Lemma bytes_for_single proj k d :
  bytes_for proj k [d] = if decide (delta_for k d) then proj d else 0.
Proof. unfold bytes_for. simpl. case_decide; lia. Qed.

Lemma observed_seen st f : seen (observed st f) = true.
Proof. done. Qed.

(** An observation touches its own entry only, and marks it seen. *)
Lemma Observe_other t f k :
  connKeyFromFields f <> k -> (Observe t f).1 !! k = t !! k.
Proof.
  intros Hk. unfold Observe.
  destruct (t !! connKeyFromFields f); [destruct (_ && _)|]; simpl; by rewrite lookup_insert_ne.
Qed.

Lemma Observe_own t f :
  exists st, (Observe t f).1 !! connKeyFromFields f = Some st /\ seen st = true /\ fields st = f.
Proof.
  unfold Observe.
  destruct (t !! connKeyFromFields f); [destruct (_ && _)|]; simpl;
    eexists; (split; [apply lookup_insert_eq|done]).
Qed.

Lemma Observe_delta_fields t f d : (Observe t f).2 = Some d -> Fields d = f.
Proof.
  unfold Observe. destruct (t !! _); [destruct (_ && _)|]; simpl; try done. by intros [= <-].
Qed.

Lemma Observe_wf t f : tracker_wf t -> tracker_wf (Observe t f).1.
Proof.
  intros Hwf k st Hk. destruct (decide (connKeyFromFields f = k)) as [<-|Hne].
  - destruct (Observe_own t f) as (st' & Hst & _ & Hf).
    rewrite Hst in Hk. injection Hk as <-. by rewrite Hf.
  - rewrite Observe_other in Hk by done. by apply Hwf.
Qed.

Lemma BeginPoll_wf t : tracker_wf t -> tracker_wf (BeginPoll t).
Proof.
  intros Hwf k st. unfold BeginPoll. rewrite lookup_fmap.
  destruct (t !! k) as [st0|] eqn:E; simpl; intros; simplify_eq. simpl. by apply Hwf.
Qed.

Lemma observe_all_wf t obs : tracker_wf t -> tracker_wf (observe_all t obs).1.
Proof.
  revert t. induction obs as [|f obs IH]; intros t Hwf; simpl; [done|].
  pose proof (Observe_wf t f Hwf) as H1. destruct (Observe t f) as [t1 d]; simpl in *.
  specialize (IH t1 H1). by destruct (observe_all t1 obs).
Qed.

(** One observation of a monotone counter moves bytes from "not yet observed"
    to "emitted": the reported total stays at last counter minus baseline. *)
Lemma Observe_entry_ok t f st s r ls lr :
  t !! connKeyFromFields f = Some st -> entry_ok st s r ls lr ->
  ls <= BytesSent f < 2 ^ 64 -> lr <= BytesReceived f < 2 ^ 64 ->
  exists st',
    (Observe t f).1 !! connKeyFromFields f = Some st' /\
    entry_ok st' (s + bytes_for Sent (connKeyFromFields f) (option_list (Observe t f).2))
                 (r + bytes_for Received (connKeyFromFields f) (option_list (Observe t f).2))
                 (BytesSent f) (BytesReceived f).
Proof.
  intros Hst (<- & <- & <- & <- & Hs & Hls & Hr & Hlr) Hbs Hbr. unfold Observe. rewrite Hst. cbv zeta.
  rewrite !diffCumulative_mono by lia.
  destruct (_ && _) eqn:E; simpl.
  - to_prop. eexists. split; [apply lookup_insert_eq|].
    unfold entry_ok; simpl. rewrite !bytes_for_nil. lia.
  - eexists. split; [apply lookup_insert_eq|].
    unfold entry_ok, observed. rewrite !bytes_for_single, !decide_True by done. simpl.
    rewrite !diffCumulative_mono, !u64_id by (unfold in_u64; lia). lia.
Qed.

(** A first observation is a baseline and emits nothing. *)
Lemma Observe_baseline t f :
  t !! connKeyFromFields f = None ->
  0 <= BytesSent f < 2 ^ 64 -> 0 <= BytesReceived f < 2 ^ 64 ->
  (Observe t f).2 = None /\
  exists st', (Observe t f).1 !! connKeyFromFields f = Some st' /\
    entry_ok st' 0 0 (BytesSent f) (BytesReceived f).
Proof.
  intros Hst Hbs Hbr. unfold Observe. rewrite Hst. simpl. split; [done|].
  eexists. split; [apply lookup_insert_eq|]. unfold entry_ok; simpl. lia.
Qed.

(** The part of the trackers' state that the accounting of [k] depends on:
    not yet seen, or an entry whose emitted bytes are [s] and [r]. *)
Definition accounted (k : connKey) (t : tracker) (s r ls lr : Z) : Prop :=
  match t !! k with
  | None => s = 0 /\ r = 0 /\ ls = 0 /\ lr = 0
  | Some st => entry_ok st s r ls lr
  end.

Lemma observe_all_accounted k obs t s r ls lr :
  accounted k t s r ls lr -> monotone k ls lr obs ->
  accounted k (observe_all t obs).1
    (s + bytes_for Sent k (observe_all t obs).2)
    (r + bytes_for Received k (observe_all t obs).2)
    (last_counters k ls lr obs).1 (last_counters k ls lr obs).2.
Proof.
  revert t s r ls lr. induction obs as [|f obs IH]; intros t s r ls lr Ha Hm; simpl in *.
  { by rewrite !bytes_for_nil, !Z.add_0_r. }
  destruct (Observe t f) as [t1 d] eqn:E.
  assert (Ht1 : (Observe t f).1 = t1) by (by rewrite E).
  assert (Hd : (Observe t f).2 = d) by (by rewrite E).
  destruct (observe_all t1 obs) as [t2 ds] eqn:E2. simpl.
  rewrite !bytes_for_app, !Z.add_assoc.
  assert (Hstep : forall ls' lr',
    accounted k t1 (s + bytes_for Sent k (option_list d)) (r + bytes_for Received k (option_list d)) ls' lr' ->
    monotone k ls' lr' obs ->
    accounted k t2 (s + bytes_for Sent k (option_list d) + bytes_for Sent k ds)
      (r + bytes_for Received k (option_list d) + bytes_for Received k ds)
      (last_counters k ls' lr' obs).1 (last_counters k ls' lr' obs).2).
  { intros ls' lr' H1 H2. specialize (IH _ _ _ _ _ H1 H2). by rewrite E2 in IH. }
  destruct (decide (connKeyFromFields f = k)) as [<-|Hne].
  - destruct Hm as (Hs & Hr & Hm). apply Hstep; [|done].
    unfold accounted in Ha |- *. rewrite <-Ht1, <-Hd.
    destruct (t !! connKeyFromFields f) as [st|] eqn:Et.
    + destruct (Observe_entry_ok t f st s r ls lr Et Ha Hs Hr) as (st' & -> & Hok). exact Hok.
    + destruct Ha as (-> & -> & -> & ->).
      destruct (Observe_baseline t f Et) as (-> & st' & -> & Hok); [lia..|].
      by rewrite !bytes_for_nil.
  - apply Hstep; [|done]. unfold accounted in Ha |- *.
    rewrite <-Ht1, Observe_other by done.
    assert (Hn : forall proj, bytes_for proj k (option_list d) = 0).
    { intros proj. apply bytes_for_none. destruct d as [d|]; simpl; [|constructor].
      constructor; [|constructor]. unfold delta_for. by rewrite (Observe_delta_fields t f d). }
    by rewrite !Hn, !Z.add_0_r.
Qed.

Lemma BeginPoll_accounted k t s r ls lr :
  accounted k t s r ls lr -> accounted k (BeginPoll t) s r ls lr.
Proof.
  unfold accounted, BeginPoll. rewrite lookup_fmap. by destruct (t !! k).
Qed.

(** Being seen during a poll. *)
Lemma observe_all_seen k t obs :
  match (observe_all t obs).1 !! k with
  | Some st => seen st = true <-> (exists f, f ∈ obs /\ connKeyFromFields f = k) \/
                                  (exists st0, t !! k = Some st0 /\ seen st0 = true)
  | None => t !! k = None /\ forall f, f ∈ obs -> connKeyFromFields f <> k
  end.
Proof.
  revert t. induction obs as [|f obs IH]; intros t; simpl.
  { destruct (t !! k) as [st|]; [|split; [done|by intros f ?%not_elem_of_nil]].
    split; [right; eauto|]. intros [(f & ?%not_elem_of_nil & _)|(st0 & [= ->] & ?)]; done. }
  destruct (Observe t f) as [t1 d] eqn:E.
  assert (Ht1 : (Observe t f).1 = t1) by (by rewrite E).
  specialize (IH t1). destruct (observe_all t1 obs) as [t2 ds]. simpl in *.
  destruct (decide (connKeyFromFields f = k)) as [Hk|Hne].
  - destruct (Observe_own t f) as (st1 & Hst1 & Hseen & _). rewrite Hk, Ht1 in Hst1.
    destruct (t2 !! k).
    + split; intros _; [left; exists f; by split; [left|]|]. apply IH. right. by exists st1.
    + destruct IH as [IH _]. congruence.
  - rewrite <-Ht1, Observe_other in IH by done.
    destruct (t2 !! k).
    + rewrite IH. split; (intros [(f' & Hf & Hk)|Hst]; [left; exists f'|by right]).
      * split; [by right|done].
      * apply elem_of_cons in Hf as [->|Hf]; [done|by split].
    + destruct IH as [-> IH]. split; [done|]. intros f' [->|Hf]%elem_of_cons; auto.
Qed.

Section range.
Context `{!RangeOrder connKey connState}.

Lemma EndPoll_lookup t k :
  (EndPoll t).1 !! k = st ← t !! k; guard (seen st = true);; Some st.
Proof.
  unfold EndPoll; simpl. destruct (t !! k) as [st|] eqn:E; simpl.
  - destruct (seen st) eqn:Es; simpl.
    + rewrite map_lookup_filter_Some. split; [exact E|exact Es].
    + rewrite map_lookup_filter_None. right. intros st' Hst' Hs. simpl in Hs. congruence.
  - rewrite map_lookup_filter_None. by left.
Qed.

Lemma EndPoll_wf t : tracker_wf t -> tracker_wf (EndPoll t).1.
Proof.
  intros Hwf k st. rewrite EndPoll_lookup. destruct (t !! k) as [st0|] eqn:E; simpl; [|done].
  destruct (seen st0); simpl; [|done]. intros; simplify_eq. by apply Hwf.
Qed.

Lemma poll_wf t obs : tracker_wf t -> tracker_wf (poll t obs).1.
Proof.
  intros Hwf. unfold poll.
  pose proof (observe_all_wf (BeginPoll t) obs (BeginPoll_wf t Hwf)) as H1.
  destruct (observe_all (BeginPoll t) obs) as [t1 ds1]; simpl in *.
  exact (EndPoll_wf t1 H1).
Qed.

(** What [EndPoll] reports for a connection is the flush of its entry, once. *)
Lemma EndPoll_bytes proj t k :
  tracker_wf t ->
  bytes_for proj k (EndPoll t).2 =
    match t !! k with
    | Some st => if seen st then 0 else from_ptr 0 proj (flush st)
    | None => 0
    end.
Proof.
  intros Hwf. unfold EndPoll; simpl.
  set (g := fun kst : connKey * connState => if seen kst.2 then None else flush kst.2).
  assert (Hfl : forall st d, flush st = Some d -> Fields d = fields st).
  { intros st d. unfold flush. destruct (_ || _); [|done]. by intros [= <-]. }
  rewrite range_map_perm.
  assert (Hrest : forall m, tracker_wf m -> m !! k = None ->
            bytes_for proj k (omap g (map_to_list m)) = 0).
  { intros m Hm Hk. apply bytes_for_none. apply Forall_forall. intros d.
    rewrite list_elem_of_omap. intros ([k' st'] & Hin & Hg).
    apply elem_of_map_to_list in Hin. unfold g in Hg; simpl in Hg.
    destruct (seen st'); [done|]. apply Hfl in Hg. unfold delta_for. rewrite Hg, (Hm k' st') by done.
    congruence. }
  destruct (t !! k) as [st|] eqn:E; [|by apply Hrest].
  assert (Hl : map_to_list t ≡ₚ (k, st) :: map_to_list (delete k t)).
  { rewrite <-(insert_delete_id t k st E) at 1. apply map_to_list_insert, lookup_delete_eq. }
  rewrite Hl. clear Hl.
  assert (Hd : bytes_for proj k (omap g (map_to_list (delete k t))) = 0).
  { apply Hrest; [|apply lookup_delete_eq]. intros k' st' H'.
    apply lookup_delete_Some in H' as [_ H']. by apply Hwf. }
  change (omap g ((k, st) :: map_to_list (delete k t))) with
    (match g (k, st) with
     | Some d => d :: omap g (map_to_list (delete k t))
     | None => omap g (map_to_list (delete k t)) end).
  unfold g at 1; simpl. destruct (seen st); [done|].
  destruct (flush st) as [d|] eqn:Ef; simpl; [|done].
  unfold bytes_for in *. rewrite fmap_cons, sumZ_cons, Hd.
  rewrite decide_True; [lia|]. unfold delta_for. rewrite (Hfl _ _ Ef). by apply Hwf.
Qed.


Lemma BeginPoll_unseen t k st : BeginPoll t !! k = Some st -> seen st = false.
Proof.
  unfold BeginPoll. rewrite lookup_fmap. destruct (t !! k); simpl; [|done]. by intros [= <-].
Qed.

Lemma poll_lookup t obs k :
  is_Some ((poll t obs).1 !! k) <-> exists f, f ∈ obs /\ connKeyFromFields f = k.
Proof.
  unfold poll. pose proof (observe_all_seen k (BeginPoll t) obs) as Hs.
  destruct (observe_all (BeginPoll t) obs) as [t1 ds1]. simpl in Hs. simpl fst.
  change (filter _ t1) with (EndPoll t1).1. rewrite EndPoll_lookup.
  destruct (t1 !! k) as [st|]; simpl.
  - destruct (seen st) eqn:Est; simpl.
    + split; [intros _|by eauto].
      destruct (proj1 Hs eq_refl) as [H|(st0 & H0 & H1)]; [done|].
      apply BeginPoll_unseen in H0. congruence.
    + split; [by intros [? ?]|]. intros H. destruct Hs as [_ Hs]. discriminate Hs. by left.
  - destruct Hs as [_ Hs]. split; [by intros [? ?]|]. intros (f & Hf & Hk). by destruct (Hs f Hf).
Qed.

Lemma poll_bytes proj t obs k :
  tracker_wf t ->
  bytes_for proj k (poll t obs).2 =
    bytes_for proj k (observe_all (BeginPoll t) obs).2 +
    match (observe_all (BeginPoll t) obs).1 !! k with
    | Some st => if seen st then 0 else from_ptr 0 proj (flush st)
    | None => 0
    end.
Proof.
  intros Hwf. unfold poll.
  pose proof (observe_all_wf (BeginPoll t) obs (BeginPoll_wf t Hwf)) as H1.
  destruct (observe_all (BeginPoll t) obs) as [t1 ds1]. simpl in H1.
  simpl. rewrite bytes_for_app. f_equal. exact (EndPoll_bytes proj t1 k H1).
Qed.

(** A poll that observes [k] keeps its accounts. *)
Lemma poll_live k t obs s r ls lr :
  tracker_wf t -> accounted k t s r ls lr -> monotone k ls lr obs ->
  (exists f, f ∈ obs /\ connKeyFromFields f = k) ->
  accounted k (poll t obs).1
    (s + bytes_for Sent k (poll t obs).2) (r + bytes_for Received k (poll t obs).2)
    (last_counters k ls lr obs).1 (last_counters k ls lr obs).2.
Proof.
  intros Hwf Ha Hm Hin.
  pose proof (observe_all_accounted k obs _ _ _ _ _ (BeginPoll_accounted k t s r ls lr Ha) Hm) as Hacc.
  pose proof (observe_all_seen k (BeginPoll t) obs) as Hs.
  rewrite !poll_bytes by done. unfold poll.
  destruct (observe_all (BeginPoll t) obs) as [t1 ds1]. simpl in Hs, Hacc |- *.
  change (filter _ t1) with (EndPoll t1).1.
  destruct (t1 !! k) as [st|] eqn:E.
  - assert (Hseen : seen st = true) by (apply Hs; by left).
    rewrite Hseen, !Z.add_0_r. unfold accounted in *. rewrite EndPoll_lookup, E in *. simpl.
    by rewrite Hseen.
  - destruct Hin as (f & Hf & Hk). destruct Hs as [_ Hs]. by destruct (Hs f Hf).
Qed.

Lemma observe_all_unobserved k t obs :
  (forall f, f ∈ obs -> connKeyFromFields f <> k) ->
  (observe_all t obs).1 !! k = t !! k /\
  forall proj, bytes_for proj k (observe_all t obs).2 = 0.
Proof.
  revert t. induction obs as [|f obs IH]; intros t Hn; simpl; [done|].
  assert (Hf : connKeyFromFields f <> k) by (apply Hn; by left).
  pose proof (Observe_other t f k Hf) as Ho. pose proof (Observe_delta_fields t f) as Hd.
  destruct (Observe t f) as [t1 d]. simpl in Ho, Hd.
  specialize (IH t1 ltac:(intros f' Hf'; apply Hn; by right)).
  destruct (observe_all t1 obs) as [t2 ds]. simpl in *. destruct IH as [IH1 IH2].
  split; [congruence|]. intros proj. rewrite bytes_for_app, IH2, Z.add_0_r.
  apply bytes_for_none. destruct d as [d|]; simpl; constructor; [|constructor].
  unfold delta_for. by rewrite (Hd d).
Qed.

(** A poll that no longer observes [k] reports what is left and forgets it. *)
Lemma poll_gone k t obs s r ls lr :
  tracker_wf t -> accounted k t s r ls lr ->
  (forall f, f ∈ obs -> connKeyFromFields f <> k) ->
  (poll t obs).1 !! k = None /\
  s + bytes_for Sent k (poll t obs).2 = ls /\ r + bytes_for Received k (poll t obs).2 = lr.
Proof.
  intros Hwf Ha Hn. split.
  { apply eq_None_not_Some. rewrite poll_lookup. intros (f & Hf & Hk). by apply (Hn f). }
  rewrite !poll_bytes by done.
  destruct (observe_all_unobserved k (BeginPoll t) obs Hn) as [-> Hb]. rewrite !Hb, !Z.add_0_l.
  apply BeginPoll_accounted in Ha. unfold accounted in Ha.
  destruct (BeginPoll t !! k) as [st|] eqn:E; [|lia].
  rewrite (BeginPoll_unseen _ _ _ E).
  destruct Ha as (<- & <- & <- & <- & Hs & Hls & Hr & Hlr). unfold flush. cbv zeta.
  rewrite !remainingBytes_le by lia.
  destruct (_ || _) eqn:Ef; simpl; [lia|]. to_prop. lia.
Qed.

Lemma monotone_app k s r a b :
  monotone k s r (a ++ b) <->
  monotone k s r a /\ monotone k (last_counters k s r a).1 (last_counters k s r a).2 b.
Proof.
  revert s r. induction a as [|f a IH]; intros s r; simpl; [tauto|].
  case_decide; rewrite IH; tauto.
Qed.

Lemma last_counters_app k s r a b :
  last_counters k s r (a ++ b) =
  last_counters k (last_counters k s r a).1 (last_counters k s r a).2 b.
Proof.
  revert s r. induction a as [|f a IH]; intros s r; simpl; [done|]. case_decide; apply IH.
Qed.

Lemma polls_wf t ps : tracker_wf t -> tracker_wf (polls t ps).1.
Proof.
  revert t. induction ps as [|p ps IH]; intros t Hwf; simpl; [done|].
  pose proof (poll_wf t p Hwf) as H1. destruct (poll t p) as [t1 ds1].
  specialize (IH t1 H1). by destruct (polls t1 ps).
Qed.

Lemma polls_live k t ps s r ls lr :
  tracker_wf t -> accounted k t s r ls lr ->
  Forall (fun p => exists f, f ∈ p /\ connKeyFromFields f = k) ps ->
  monotone k ls lr (concat ps) ->
  accounted k (polls t ps).1
    (s + bytes_for Sent k (polls t ps).2) (r + bytes_for Received k (polls t ps).2)
    (last_counters k ls lr (concat ps)).1 (last_counters k ls lr (concat ps)).2.
Proof.
  revert t s r ls lr. induction ps as [|p ps IH]; intros t s r ls lr Hwf Ha Hps Hm; simpl.
  { by rewrite !bytes_for_nil, !Z.add_0_r. }
  apply Forall_cons in Hps as [Hp Hps]. simpl in Hm. apply monotone_app in Hm as [Hm1 Hm2].
  pose proof (poll_live k t p s r ls lr Hwf Ha Hm1 Hp) as H1.
  pose proof (poll_wf t p Hwf) as Hwf1.
  destruct (poll t p) as [t1 ds1]. simpl in H1, Hwf1.
  specialize (IH t1 _ _ _ _ Hwf1 H1 Hps Hm2).
  destruct (polls t1 ps) as [t2 ds2]. simpl in IH |- *.
  rewrite !bytes_for_app, !Z.add_assoc, last_counters_app. exact IH.
Qed.

Lemma polls_app t ps qs :
  polls t (ps ++ qs) =
  ((polls (polls t ps).1 qs).1, (polls t ps).2 ++ (polls (polls t ps).1 qs).2).
Proof.
  revert t. induction ps as [|p ps IH]; intros t; simpl; [by destruct (polls t qs)|].
  destruct (poll t p) as [t1 ds1]. rewrite IH. destruct (polls t1 ps) as [t2 ds2]. simpl.
  by rewrite app_assoc.
Qed.

(** *** A tracker with a single entry *)

Lemma range_map_single (k : connKey) (st : connState) : range_map {[k := st]} = [(k, st)].
Proof. apply Permutation_singleton_r. by rewrite range_map_perm, map_to_list_singleton. Qed.

Lemma EndPoll_single k st :
  EndPoll {[k := st]} = if seen st then ({[k := st]}, []) else (∅, option_list (flush st)).
Proof.
  unfold EndPoll. rewrite range_map_single. simpl.
  destruct (seen st) eqn:E.
  - rewrite map_filter_singleton_True; [done|exact E].
  - rewrite map_filter_singleton_False by (simpl; by rewrite E). by destruct (flush st).
Qed.

Lemma BeginPoll_single k st : BeginPoll {[k := st]} = {[k := with_seen false st]}.
Proof. apply map_fmap_singleton. Qed.

Lemma Observe_single st f :
  exists st', Observe {[connKeyFromFields f := st]} f =
    ({[connKeyFromFields f := st']}, (Observe {[connKeyFromFields f := st]} f).2) /\ seen st' = true.
Proof.
  unfold Observe. rewrite lookup_singleton_eq.
  destruct (_ && _); simpl; rewrite insert_singleton_eq; by eexists.
Qed.

(** ** Properties *)

(** C1. Conservation: for a connection that enters the tracker, is observed at
    least once in every poll of [ps] with non-decreasing 64-bit counters, and
    is absent from the next poll [q], the deltas emitted for it over the whole
    run add up to its final cumulative counters, each byte once, whatever the
    other connections do and in whatever order the map is ranged over; and the
    tracker has forgotten it. *)
Theorem tracker_conserves_bytes (t : tracker) (ps : list (list TCPFields)) (q : list TCPFields) (k : connKey) :
  tracker_wf t -> t !! k = None ->
  Forall (fun p => exists f, f ∈ p /\ connKeyFromFields f = k) ps ->
  (forall f, f ∈ q -> connKeyFromFields f <> k) ->
  monotone k 0 0 (concat ps) ->
  (polls t (ps ++ [q])).1 !! k = None /\
  (bytes_for Sent k (polls t (ps ++ [q])).2, bytes_for Received k (polls t (ps ++ [q])).2)
  = last_counters k 0 0 (concat ps).
Proof.
  intros Hwf Hk Hps Hq Hm. rewrite polls_app. simpl.
  assert (Ha : accounted k t 0 0 0 0) by (unfold accounted; rewrite Hk; lia).
  pose proof (polls_live k t ps 0 0 0 0 Hwf Ha Hps Hm) as H1.
  destruct (poll_gone k (polls t ps).1 q _ _ _ _ (polls_wf t ps Hwf) H1 Hq) as (Hn & Hs & Hr).
  destruct (poll (polls t ps).1 q) as [t2 ds2]. simpl in *. rewrite app_nil_r, !bytes_for_app.
  split; [done|]. destruct (last_counters k 0 0 (concat ps)); simpl in *. f_equal; lia.
Qed.

(** After a poll the tracker holds exactly the connections the poll
    observed, each under the key of its own fields. *)
Theorem poll_tracks_observed (t : tracker) (obs : list TCPFields) :
  tracker_wf t ->
  tracker_wf (poll t obs).1 /\
  dom (poll t obs).1 = list_to_set (connKeyFromFields <$> obs).
Proof.
  intros Hwf. split; [by apply poll_wf|]. apply set_eq. intros k.
  rewrite elem_of_dom, poll_lookup, elem_of_list_to_set, list_elem_of_fmap. naive_solver.
Qed.

End range.

(** The same connection, with another sent counter. *)
Definition with_sent (f : TCPFields) (v : Z) : TCPFields :=
  {| Namespace := Namespace f; Pod := Pod f; Container := Container f;
     SrcAddr := SrcAddr f; SrcPort := SrcPort f; DstAddr := DstAddr f; DstPort := DstPort f;
     PID := PID f; Timestamp := Timestamp f; BytesSent := v; BytesReceived := BytesReceived f;
     EventKind := EventKind f |}.

Section reset.
Context `{!RangeOrder connKey connState}.

Lemma poll_single st f :
  poll {[connKeyFromFields f := st]} [f] =
  ((Observe {[connKeyFromFields f := with_seen false st]} f).1,
   option_list (Observe {[connKeyFromFields f := with_seen false st]} f).2).
Proof.
  unfold poll. rewrite BeginPoll_single. cbn [observe_all].
  destruct (Observe_single (with_seen false st) f) as (st' & Ho & Hs).
  destruct (Observe _ f) as [t1 d]. simpl fst. simpl snd. injection Ho as ->.
  rewrite EndPoll_single, Hs. by rewrite !app_nil_r.
Qed.

(** One poll of a connection whose received counter stands still. *)
Lemma poll_sent_step f g l e v :
  let d := diffCumulative l v in
  0 <= e -> 0 <= d -> e + d < 2 ^ 64 ->
  exists ds,
    poll {[connKeyFromFields f := mkConnState g l (BytesReceived f) e 0 true]} [with_sent f v] =
      ({[connKeyFromFields f := mkConnState (with_sent f v) v (BytesReceived f) (e + d) 0 true]}, ds) /\
    bytes_for Sent (connKeyFromFields f) ds = d.
Proof.
  intros d He Hd Hw. rewrite (poll_single _ (with_sent f v)). unfold Observe.
  rewrite lookup_singleton_eq. simpl. fold d.
  rewrite (diffCumulative_mono (BytesReceived f)), Z.sub_diag by lia.
  destruct (d =? 0) eqn:E; simpl; rewrite insert_singleton_eq; to_prop.
  - exists []. rewrite E, Z.add_0_r. split; [done|]. by rewrite bytes_for_nil.
  - eexists. split.
    + unfold observed; simpl. fold d.
      by rewrite (diffCumulative_mono (BytesReceived f)), Z.sub_diag, !u64_id by (unfold in_u64; lia).
    + by rewrite bytes_for_single, decide_True.
Qed.

Lemma poll_first f v :
  poll ∅ [with_sent f v] =
    ({[connKeyFromFields f := mkConnState (with_sent f v) v (BytesReceived f) 0 0 true]}, []).
Proof.
  unfold poll. replace (BeginPoll ∅) with (∅ : tracker) by (symmetry; apply fmap_empty).
  cbn [observe_all]. unfold Observe. rewrite lookup_empty, insert_empty. cbn [option_list app].
  by rewrite EndPoll_single.
Qed.

(** The four polls of a connection whose sent counter goes [a], [b], [c] and
    that is then gone. *)
Definition reset_polls (f : TCPFields) (a b c : Z) : list (list TCPFields) :=
  [[with_sent f a]; [with_sent f b]; [with_sent f c]; []].

(** A counter that restarts is misreported: the cumulative counter goes
    [a < b], restarts and reaches [c < b], and the connection closes.  It moved
    [b + c] bytes; the deltas reported add up to [(b - a) + 2 * c], because the
    final flush compares the total emitted over both lives of the counter with
    the last value of the second.  Bytes are counted twice when [c > a] and
    lost when [c < a]. *)
Theorem tracker_counter_reset_misreports (f : TCPFields) (a b c : Z) :
  0 <= a < b -> 0 <= c < b -> b - a + c < 2 ^ 64 -> BytesReceived f = 0 ->
  bytes_for Sent (connKeyFromFields f) (polls ∅ (reset_polls f a b c)).2 = b - a + 2 * c.
Proof.
  intros Ha Hc Hw Hr. unfold reset_polls. cbn [polls]. rewrite poll_first.
  assert (Hd1 : diffCumulative a b = b - a) by (apply diffCumulative_mono; lia).
  assert (Hd2 : diffCumulative b c = c).
  { unfold diffCumulative. by rewrite (proj2 (Z.leb_gt b c)) by lia. }
  destruct (poll_sent_step f (with_sent f a) a 0 b) as (ds1 & -> & Hb1); [lia..|].
  destruct (poll_sent_step f (with_sent f b) b (0 + diffCumulative a b) c) as (ds2 & -> & Hb2); [lia..|].
  unfold poll. rewrite BeginPoll_single. cbn [observe_all]. rewrite EndPoll_single. simpl.
  rewrite !bytes_for_app, Hb1, Hb2, Hd1, Hd2, Hr. unfold flush, remainingBytes.
  cbn [emittedSent lastSent emittedReceived lastReceived fields with_seen].
  rewrite (proj2 (Z.leb_gt (0 + (b - a) + c) c)) by lia. simpl.
  destruct (0 <? c) eqn:E; to_prop; simpl; rewrite ?bytes_for_nil.
  - rewrite bytes_for_single, decide_True by done. simpl. lia.
  - lia.
Qed.
End reset.

(** ** Witnesses *)

Definition sample_fields (pid sent received : Z) : TCPFields :=
  {| Namespace := "default"; Pod := "client"; Container := "app"; SrcAddr := "10.0.0.1"; SrcPort := 40000;
     DstAddr := "10.0.0.2"; DstPort := 443; PID := pid; Timestamp := 0; BytesSent := sent;
     BytesReceived := received; EventKind := 0 |}.

Lemma tracker_wf_empty : tracker_wf ∅.
Proof. intros k st. by rewrite lookup_empty. Qed.

(** A connection polled three times beside another one, then closed. *)
Lemma tracker_conserves_bytes_witness :
  let k := connKeyFromFields (sample_fields 1 0 0) in
  let ps := [[sample_fields 1 100 7; sample_fields 2 5 5]; [sample_fields 1 150 7]; [sample_fields 1 150 9]] in
  bytes_for Sent k (@polls canonical_order ∅ (ps ++ [[sample_fields 2 9 9]])).2 = 150.
Proof.
  intros k ps.
  destruct (@tracker_conserves_bytes canonical_order ∅ ps [sample_fields 2 9 9] k) as [_ H].
  - apply tracker_wf_empty.
  - done.
  - repeat constructor; eexists; (split; [by left|done]).
  - intros f Hf. apply list_elem_of_singleton in Hf as ->. discriminate.
  - vm_compute. repeat split; discriminate.
  - exact (f_equal fst H).
Defined.

Lemma poll_tracks_observed_witness :
  tracker_wf ∅ /\
  dom (@poll canonical_order ∅ [sample_fields 1 100 7]).1 =@{gset connKey} {[connKeyFromFields (sample_fields 1 0 0)]} ∪ ∅.
Proof.
  split; [exact tracker_wf_empty|].
  exact (proj2 (@poll_tracks_observed canonical_order ∅ [sample_fields 1 100 7] tracker_wf_empty)).
Defined.

(** 10 to 100, restart, 50: 140 bytes move and 190 are reported. *)
Lemma tracker_counter_reset_misreports_witness :
  bytes_for Sent (connKeyFromFields (sample_fields 1 0 0))
    (@polls canonical_order ∅ (reset_polls (sample_fields 1 0 0) 10 100 50)).2 = 190.
Proof.
  exact (@tracker_counter_reset_misreports canonical_order (sample_fields 1 0 0) 10 100 50
    ltac:(lia) ltac:(lia) ltac:(lia) eq_refl).
Defined.
