(* ===== verification/Reconnect.v ===== *)
(** * The reconnecting send loop

    The network-flow agent ([pkg/agent/collector_client.go]) and the aggregator's
    upstream client ([pkg/collector/upstream/client.go]) run the same loop: dial,
    flush what is pending, then flush on every tick or signal, and after an error
    sleep with exponential backoff and dial again.  The loop is modelled once,
    against the interface below, which each client implements. *)

From stdpp Require Import base decidable list gmap strings.
From Stdlib Require Import ZArith Lia.
From S2P Require Import Prelude.
Import GoInt.

Local Open Scope Z_scope.

(** ** The interface of a client

    [C] is the client's state, [S] an open stream, [E] what one call of
    [sendPending] reads from its environment (the clock, what the stream
    answers).  [other] is what the client's other goroutines may do to its state
    between two steps of the loop. *)
Class StreamClient (C S E : Type) := {
  sendPending : E -> C -> S -> C * S * option string;
  onConnect : E -> C -> C;
  flushSignalled : C -> bool;
  takeFlush : C -> C;
  backoffMin : C -> Z;
  backoffMax : C -> Z;
  other : C -> C -> Prop
}.

(** The laws the loop's theorems need: nothing changes the configured backoff. *)
Class StreamClientLaws (C S E : Type) `{!StreamClient C S E} := {
  sendPending_min : forall e c s, backoffMin (sendPending e c s).1.1 = backoffMin c;
  sendPending_max : forall e c s, backoffMax (sendPending e c s).1.1 = backoffMax c;
  onConnect_min : forall e c, backoffMin (onConnect e c) = backoffMin c;
  onConnect_max : forall e c, backoffMax (onConnect e c) = backoffMax c;
  takeFlush_min : forall c, backoffMin (takeFlush c) = backoffMin c;
  takeFlush_max : forall c, backoffMax (takeFlush c) = backoffMax c;
  other_min : forall c c', other c c' -> backoffMin c' = backoffMin c;
  other_max : forall c c', other c c' -> backoffMax c' = backoffMax c
}.

(** [nextBackoff]: doubling in 64-bit arithmetic, capped. *)
Definition next_backoff (max current : Z) : Z :=
  let next := i64 (current * 2) in
  if max <? next then max else next.

(** Where the loop stands. *)
Inductive phase (S : Type) : Type :=
| AtTop (backoff : Z)               (* about to check the context and dial *)
| Sleeping (backoff : Z)            (* in [sleepOrDone] *)
| Connected (stream : S)            (* in [runConnected]'s select *)
| Returned (closedGracefully : bool).
Arguments AtTop {S} backoff.
Arguments Sleeping {S} backoff.
Arguments Connected {S} stream.
Arguments Returned {S} closedGracefully.

(** What happens next in the world. *)
Inductive event (S E : Type) : Type :=
| CtxDone (e : E)                   (* the context is cancelled *)
| DialError
| DialOk (s : S) (e : E)
| TimerFired
| Tick (e : E)
| FlushSignal (e : E)
| ErrorAfterCancel (e e' : E)       (* a send fails when the context is already done *)
| OtherGoroutine.
Arguments CtxDone {S E} e.
Arguments DialError {S E}.
Arguments DialOk {S E} s e.
Arguments TimerFired {S E}.
Arguments Tick {S E} e.
Arguments FlushSignal {S E} e.
Arguments ErrorAfterCancel {S E} e e'.
Arguments OtherGoroutine {S E}.

Section loop.
Context {C S E : Type} `{!StreamClient C S E}.

(** A failed send disconnects; the loop goes to sleep with the backoff that
    [Run] reset when it connected. *)
Definition after_send (r : C * S * option string) : C * phase S :=
  match r with
  | (c, s, None) => (c, Connected s)
  | (c, s, Some _) => (c, Sleeping (backoffMin c))
  end.

(** Steps of [Run] with its inlined [runConnected] and [sleepOrDone]. *)
Inductive run_step : C * phase S -> event S E -> C * phase S -> Prop :=
| run_cancelled_top c b e :
    run_step (c, AtTop b) (CtxDone e) (c, Returned false)
| run_dial_error c b :
    run_step (c, AtTop b) DialError (c, Sleeping b)
| run_dial_ok c b s e :
    run_step (c, AtTop b) (DialOk s e) (after_send (sendPending e (onConnect e c) s))
| run_slept c b :
    run_step (c, Sleeping b) TimerFired (c, AtTop (next_backoff (backoffMax c) b))
| run_cancelled_sleep c b e :
    run_step (c, Sleeping b) (CtxDone e) (c, Returned false)
| run_tick c s e :
    run_step (c, Connected s) (Tick e) (after_send (sendPending e c s))
| run_flush c s e :
    flushSignalled c = true ->
    run_step (c, Connected s) (FlushSignal e) (after_send (sendPending e (takeFlush c) s))
| run_cancelled_connected c s e :
    run_step (c, Connected s) (CtxDone e) ((sendPending e c s).1.1, Returned true)
| run_error_after_cancel c s e e' c1 s1 err :
    sendPending e c s = (c1, s1, Some err) ->
    run_step (c, Connected s) (ErrorAfterCancel e e') ((sendPending e' c1 s1).1.1, Returned true)
| run_other c p c' :
    other c c' ->
    run_step (c, p) OtherGoroutine (c', p).

Inductive run_steps : C * phase S -> list (event S E) -> C * phase S -> Prop :=
| run_steps_refl x : run_steps x [] x
| run_steps_step x ev y evs z :
    run_step x ev y -> run_steps y evs z -> run_steps x (ev :: evs) z.

(** The state [Run] starts in. *)
Definition run_init (c : C) : C * phase S := (c, AtTop (backoffMin c)).

(** ** The loop's invariant: every backoff it holds is positive and within the
    configured bounds. *)
Definition backoff_ok (lo hi : Z) (x : C * phase S) : Prop :=
  backoffMin x.1 = lo /\ backoffMax x.1 = hi /\
  match x.2 with
  | AtTop b | Sleeping b => 0 < b <= Z.max lo hi
  | _ => True
  end.

Context `{!StreamClientLaws C S E}.

Lemma next_backoff_bounds lo hi b :
  0 < lo -> 0 < hi -> lo < 2 ^ 62 -> hi < 2 ^ 62 -> 0 < b <= Z.max lo hi ->
  Z.min b hi <= next_backoff hi b <= hi /\ 0 < next_backoff hi b.
Proof.
  intros Hlo Hhi Hlo2 Hhi2 Hb. unfold next_backoff. cbv zeta.
  rewrite i64_id by (unfold in_i64; lia). destruct (hi <? b * 2) eqn:Hlt; to_prop; lia.
Qed.

Lemma after_send_ok lo hi r :
  0 < lo -> backoffMin r.1.1 = lo -> backoffMax r.1.1 = hi -> backoff_ok lo hi (after_send r).
Proof.
  intros Hlo H1 H2. destruct r as [[c s] [err|]]; simpl in *; unfold backoff_ok; simpl; repeat split; lia.
Qed.

Lemma run_step_backoff lo hi x ev y :
  0 < lo < 2 ^ 62 -> 0 < hi < 2 ^ 62 ->
  backoff_ok lo hi x -> run_step x ev y -> backoff_ok lo hi y.
Proof.
  intros Hlo Hhi (Hmin & Hmax & Hb) Hst.
  inversion Hst; subst; simpl in *; unfold backoff_ok; simpl;
    try (apply after_send_ok; rewrite ?sendPending_min, ?sendPending_max, ?onConnect_min,
           ?onConnect_max, ?takeFlush_min, ?takeFlush_max; lia);
    rewrite ?sendPending_min, ?sendPending_max; repeat split; try done; try lia.
  - pose proof (next_backoff_bounds (backoffMin c) (backoffMax c) b). lia.
  - pose proof (next_backoff_bounds (backoffMin c) (backoffMax c) b). lia.
  - pose proof (sendPending_min e c s) as H1. rewrite H in H1. simpl in H1. done.
  - pose proof (sendPending_max e c s) as H1. rewrite H in H1. simpl in H1. done.
  - by apply other_min.
  - by apply other_max.
Qed.

Lemma run_steps_backoff lo hi x evs y :
  0 < lo < 2 ^ 62 -> 0 < hi < 2 ^ 62 ->
  backoff_ok lo hi x -> run_steps x evs y -> backoff_ok lo hi y.
Proof. intros Hlo Hhi Hx. induction 1; eauto using run_step_backoff. Qed.

Lemma run_init_ok c : 0 < backoffMin c -> backoff_ok (backoffMin c) (backoffMax c) (run_init c).
Proof. unfold backoff_ok, run_init; simpl. lia. Qed.

(** [n] failed dials in a row from the top: sleep, double, sleep, ... *)
Fixpoint failures (n : nat) : list (event S E) :=
  match n with
  | O => []
  | Datatypes.S n' => DialError :: TimerFired :: failures n'
  end.

Lemma next_backoff_pow hi b (n : nat) :
  0 < b -> 0 < hi < 2 ^ 62 -> b <= hi ->
  Nat.iter n (next_backoff hi) b = Z.min (b * 2 ^ Z.of_nat n) hi.
Proof.
  intros Hb Hhi Hle. induction n as [|n IH]; [simpl; lia|].
  cbn [Nat.iter nat_rect]. change (nat_rect _ _ _ n) with (Nat.iter n (next_backoff hi) b).
  rewrite IH, Nat2Z.inj_succ, Z.pow_succ_r by lia.
  assert (0 < 2 ^ Z.of_nat n) by (apply Z.pow_pos_nonneg; lia).
  unfold next_backoff. cbv zeta. rewrite i64_id by (unfold in_i64; nia).
  destruct (_ <? _) eqn:Hlt; to_prop; nia.
Qed.

Lemma failures_backoff c b n y :
  run_steps (c, AtTop b) (failures n) y ->
  y = (c, AtTop (Nat.iter n (next_backoff (backoffMax c)) b)).
Proof.
  revert b y. induction n as [|n IH]; intros b y; simpl.
  { by inversion 1. }
  inversion 1 as [|? ? ? ? ? H1 H2]; subst. inversion H1; subst.
  inversion H2 as [|? ? ? ? ? H3 H4]; subst. inversion H3; subst.
  apply IH in H4. rewrite H4. by rewrite <-Nat.iter_succ_r.
Qed.

(** The loop returns only after the context was cancelled. *)
Definition cancel_event (ev : event S E) : bool :=
  match ev with
  | CtxDone _ | ErrorAfterCancel _ _ => true
  | _ => false
  end.

Definition returned (x : C * phase S) : bool :=
  match x.2 with
  | Returned _ => true
  | _ => false
  end.

Lemma run_step_returned x ev y :
  run_step x ev y -> returned x = false -> returned y = true -> cancel_event ev = true.
Proof.
  assert (Hs : forall r, returned (after_send r) = false) by (by intros [[c s] [err|]]).
  inversion 1; subst; unfold returned in *; simpl in *; rewrite ?Hs; try done; try congruence;
    intros _ Hr; by rewrite Hs in Hr.
Qed.

Lemma run_steps_returned x evs y :
  run_steps x evs y -> returned x = false -> returned y = true -> Exists (fun ev => cancel_event ev = true) evs.
Proof.
  induction 1 as [x|x ev y evs z Hst Hsts IH]; intros Hx Hz; [congruence|].
  destruct (returned y) eqn:Ey.
  - left. by eapply run_step_returned.
  - right. by apply IH.
Qed.

End loop.
