(* ===== verification/AgentClient.v ===== *)
(** * The agent's collector client

    [pkg/agent/collector_client.go] of the network-flow agent: a bounded
    drop-oldest queue of events, drained in batches onto a gRPC stream, with
    failed batches put back in front. *)

From stdpp Require Import base decidable list gmap strings.
From Stdlib Require Import ZArith Lia.
From S2P Require Import Prelude FlowTypes Reconnect.
Import GoInt GoTime.

Local Open Scope Z_scope.

(** ** Configuration and state *)

Record ClientConfig := mkClientConfig {
  CollectorAddr : string;
  NodeName : string;
  AgentID : string;
  BatchSize : Z;
  MaxPendingEvents : Z;
  FlushInterval : Z;
  ReconnectBackoffMin : Z;
  ReconnectBackoffMax : Z
}.

Definition defaultMaxPendingEvents : Z := 50000.

(** [flushCh] is a channel of capacity one: whether it holds a token. *)
Record Client := mkClient {
  cfg : ClientConfig;
  events : list aggregv1.FlowEvent;
  flushCh : bool;
  droppedPending : Z;
  sendFailures : Z;
  lastDropReason : string;
  dropLogNext : Z;
  pendingDropLogCount : Z;
  pendingDropLogReason : string
}.

(** The warning that [logDroppedPending] writes. *)
Record DropWarning := mkDropWarning {
  warn_dropped : Z;
  warn_pending : Z;
  warn_reason : string
}.

Definition or_default (z d : Z) : Z := if z <=? 0 then d else z.

Definition NewClient (c : ClientConfig) : Client :=
  {| cfg :=
       {| CollectorAddr := CollectorAddr c; NodeName := NodeName c; AgentID := AgentID c;
          BatchSize := or_default (BatchSize c) 5000;
          MaxPendingEvents := or_default (MaxPendingEvents c) defaultMaxPendingEvents;
          FlushInterval := or_default (FlushInterval c) (5 * Second);
          ReconnectBackoffMin := or_default (ReconnectBackoffMin c) Second;
          ReconnectBackoffMax := or_default (ReconnectBackoffMax c) (30 * Second) |};
     events := []; flushCh := false; droppedPending := 0; sendFailures := 0;
     lastDropReason := ""; dropLogNext := zeroTime; pendingDropLogCount := 0;
     pendingDropLogReason := "" |}.

(** ** Field updates *)

Definition set_events (l : list aggregv1.FlowEvent) (c : Client) : Client :=
  {| cfg := cfg c; events := l; flushCh := flushCh c; droppedPending := droppedPending c;
     sendFailures := sendFailures c; lastDropReason := lastDropReason c; dropLogNext := dropLogNext c;
     pendingDropLogCount := pendingDropLogCount c; pendingDropLogReason := pendingDropLogReason c |}.

Definition set_flushCh (b : bool) (c : Client) : Client :=
  {| cfg := cfg c; events := events c; flushCh := b; droppedPending := droppedPending c;
     sendFailures := sendFailures c; lastDropReason := lastDropReason c; dropLogNext := dropLogNext c;
     pendingDropLogCount := pendingDropLogCount c; pendingDropLogReason := pendingDropLogReason c |}.

Definition set_dropped (n : Z) (reason : string) (c : Client) : Client :=
  {| cfg := cfg c; events := events c; flushCh := flushCh c; droppedPending := n;
     sendFailures := sendFailures c; lastDropReason := reason; dropLogNext := dropLogNext c;
     pendingDropLogCount := pendingDropLogCount c; pendingDropLogReason := pendingDropLogReason c |}.

Definition add_sendFailure (c : Client) : Client :=
  {| cfg := cfg c; events := events c; flushCh := flushCh c; droppedPending := droppedPending c;
     sendFailures := sendFailures c + 1; lastDropReason := lastDropReason c; dropLogNext := dropLogNext c;
     pendingDropLogCount := pendingDropLogCount c; pendingDropLogReason := pendingDropLogReason c |}.

Definition set_dropLog (next count : Z) (reason : string) (c : Client) : Client :=
  {| cfg := cfg c; events := events c; flushCh := flushCh c; droppedPending := droppedPending c;
     sendFailures := sendFailures c; lastDropReason := lastDropReason c; dropLogNext := next;
     pendingDropLogCount := count; pendingDropLogReason := reason |}.

(** ** Operations *)

Definition PendingCount (c : Client) : Z := lenZ (events c).

Definition DroppedPending (c : Client) : Z := droppedPending c.

Definition SendFailures (c : Client) : Z := sendFailures c.

(** The [select] with a default: a full channel keeps its token. *)
Definition signalFlush (c : Client) : Client := set_flushCh true c.

Definition Flush (c : Client) : Client := signalFlush c.

Definition enforceMaxLocked (c : Client) : Client :=
  let overflow := lenZ (events c) - MaxPendingEvents (cfg c) in
  if overflow <=? 0 then c
  else set_dropped (droppedPending c + overflow) "max_pending_events"
         (set_events (drop (Z.to_nat overflow) (events c)) c).

Definition Enqueue (event : option aggregv1.FlowEvent) (c : Client) : Client :=
  match event with
  | None => c
  | Some e =>
      let c1 := enforceMaxLocked (set_events (events c ++ [e]) c) in
      let shouldFlush := BatchSize (cfg c1) <=? lenZ (events c1) in
      if shouldFlush then signalFlush c1 else c1
  end.

Definition drainBatchLocked (max : Z) (c : Client) : Client * option aggregv1.FlowEventBatch :=
  match events c with
  | [] => (c, None)
  | _ =>
      let max1 := if max <=? 0 then BatchSize (cfg c) else max in
      let max2 := if lenZ (events c) <? max1 then lenZ (events c) else max1 in
      (set_events (drop (Z.to_nat max2) (events c)) c,
       Some {| aggregv1.NodeName := NodeName (cfg c); aggregv1.AgentId := AgentID (cfg c);
               aggregv1.Events := Some <$> take (Z.to_nat max2) (events c) |})
  end.

(** A drained batch holds no nil event; [catMaybes] reads its events back. *)
Definition batch_events (b : aggregv1.FlowEventBatch) : list aggregv1.FlowEvent :=
  omap id (aggregv1.Events b).

Definition requeue (batch : option aggregv1.FlowEventBatch) (c : Client) : Client :=
  match batch with
  | None => c
  | Some b =>
      match aggregv1.Events b with
      | [] => c
      | _ => enforceMaxLocked (set_events (batch_events b ++ events c) c)
      end
  end.

Definition logDroppedPending (now : Z) (c : Client) : Client * option DropWarning :=
  let count := droppedPending c in
  let reason := lastDropReason c in
  let c1 := if 0 <? count then set_dropped 0 "" c else c in
  let pending := lenZ (events c1) in
  if count =? 0 then (c1, None)
  else
    let count' := pendingDropLogCount c1 + count in
    let reason' := if decide (reason <> "") then reason else pendingDropLogReason c1 in
    if Before now (dropLogNext c1) then
      (set_dropLog (dropLogNext c1) count' reason' c1, None)
    else
      (set_dropLog (now + Minute) 0 "" c1,
       Some {| warn_dropped := count'; warn_pending := pending; warn_reason := reason' |}).

Definition nextBackoff (c : Client) (current : Z) : Z :=
  next_backoff (ReconnectBackoffMax (cfg c)) current.

(** The stream is the gRPC client's: [Send] is what the loop calls. *)
Section stream.
Context {Stream : Type} (Send : Stream -> aggregv1.FlowEventBatch -> Stream * option string).

(** The loop of [sendPending]. [None]: the fuel ran out. *)
Fixpoint send_loop (fuel : nat) (c : Client) (s : Stream) : option (Client * Stream * option string) :=
  match fuel with
  | O => None
  | S fuel' =>
      let '(c1, batch) := drainBatchLocked (BatchSize (cfg c)) c in
      match batch with
      | None => Some (c1, s, None)
      | Some b =>
          match aggregv1.Events b with
          | [] => Some (c1, s, None)
          | _ =>
              match Send s b with
              | (s1, Some err) => Some (requeue (Some b) (add_sendFailure c1), s1, Some err)
              | (s1, None) => send_loop fuel' c1 s1
              end
          end
      end
  end.

(** One batch at least leaves the queue per round, so its length is enough. *)
Definition sendPending (now : Z) (c : Client) (s : Stream) : Client * Stream * option string :=
  let '(c1, _) := logDroppedPending now c in
  match send_loop (S (length (events c1))) c1 s with
  | Some r => r
  | None => (c1, s, Some "out of fuel"%string)
  end.
End stream.

(** ** The client as a [StreamClient]: [Run] is the loop of [Reconnect]. *)
Section run.
Context {Stream : Type} (Send : Stream -> aggregv1.FlowEventBatch -> Stream * option string).

Definition agent_stream_client : StreamClient Client Stream Z :=
  {| Reconnect.sendPending := sendPending Send;
     onConnect := fun _ c => c;
     flushSignalled := flushCh;
     takeFlush := set_flushCh false;
     backoffMin := fun c => ReconnectBackoffMin (cfg c);
     backoffMax := fun c => ReconnectBackoffMax (cfg c);
     other := fun c c' => exists e, c' = Enqueue e c \/ c' = Flush c |}.

Definition Run_steps := @run_steps Client Stream Z agent_stream_client.

Definition Run_init (c : Client) : Client * phase Stream := (c, AtTop (ReconnectBackoffMin (cfg c))).
End run.

(** ** Interleavings

    The gadget goroutines enqueue while the send loop is between draining a
    batch and learning what became of it.  A state pairs the client with the
    batch in flight; the rest is the history the theorem speaks of: the events
    offered so far, those a successful send delivered, and the drops that
    warnings have reported. *)
Record sys := mkSys {
  client : Client;
  inflight : option aggregv1.FlowEventBatch;
  offered : list aggregv1.FlowEvent;
  delivered : list aggregv1.FlowEvent;
  reported : Z
}.

Definition inflight_events (s : sys) : list aggregv1.FlowEvent :=
  from_ptr [] batch_events (inflight s).

Inductive sys_step : sys -> sys -> Prop :=
| sys_enqueue c fl off del rep e :
    sys_step (mkSys c fl off del rep) (mkSys (Enqueue (Some e) c) fl (off ++ [e]) del rep)
| sys_flush c fl off del rep :
    sys_step (mkSys c fl off del rep) (mkSys (Flush c) fl off del rep)
| sys_drain c c' b off del rep max :
    drainBatchLocked max c = (c', Some b) ->
    sys_step (mkSys c None off del rep) (mkSys c' (Some b) off del rep)
| sys_sent c b off del rep :
    sys_step (mkSys c (Some b) off del rep) (mkSys c None off (del ++ batch_events b) rep)
| sys_failed c b off del rep :
    sys_step (mkSys c (Some b) off del rep) (mkSys (requeue (Some b) (add_sendFailure c)) None off del rep)
| sys_log c c' fl off del rep now w :
    logDroppedPending now c = (c', w) ->
    sys_step (mkSys c fl off del rep) (mkSys c' fl off del (rep + from_ptr 0 warn_dropped w)).

Definition sys_init (c : ClientConfig) : sys := mkSys (NewClient c) None [] [] 0.

(** Drops not yet reported by a warning, and all drops so far. *)
Definition lost (s : sys) : Z :=
  droppedPending (client s) + pendingDropLogCount (client s) + reported s.

(** Every offered event is delivered, in flight, pending or counted as lost;
    order is kept and nothing is duplicated; the queue respects its cap. *)
Definition sys_ok (s : sys) : Prop :=
  0 < MaxPendingEvents (cfg (client s)) /\ 0 < BatchSize (cfg (client s)) /\
  sublist (delivered s ++ inflight_events s ++ events (client s)) (offered s) /\
  lenZ (delivered s) + lenZ (inflight_events s) + lenZ (events (client s)) + lost s = lenZ (offered s) /\
  lenZ (events (client s)) <= MaxPendingEvents (cfg (client s)) /\
  0 <= droppedPending (client s) /\ 0 <= pendingDropLogCount (client s) /\ 0 <= reported s.

(** ** Lemmas *)

Lemma or_default_pos z d : 0 < d -> 0 < or_default z d.
Proof. unfold or_default. destruct (z <=? 0) eqn:E; to_prop; lia. Qed.

Lemma enforceMaxLocked_cfg c : cfg (enforceMaxLocked c) = cfg c.
Proof. unfold enforceMaxLocked. by destruct (_ <=? _). Qed.

(** Retention: a suffix of the queue stays, what goes is counted. *)
Lemma enforceMaxLocked_spec c :
  0 < MaxPendingEvents (cfg c) ->
  let n := Z.max 0 (lenZ (events c) - MaxPendingEvents (cfg c)) in
  events (enforceMaxLocked c) = drop (Z.to_nat n) (events c) /\
  droppedPending (enforceMaxLocked c) = droppedPending c + n /\
  pendingDropLogCount (enforceMaxLocked c) = pendingDropLogCount c /\
  lenZ (events (enforceMaxLocked c)) = lenZ (events c) - n /\
  lenZ (events (enforceMaxLocked c)) <= MaxPendingEvents (cfg c).
Proof.
  intros Hmax n. unfold enforceMaxLocked. pose proof (lenZ_nonneg (events c)).
  destruct (_ <=? 0) eqn:E; to_prop.
  - assert (n = 0) as -> by lia. simpl. split_and!; try done; lia.
  - assert (Hn : n = lenZ (events c) - MaxPendingEvents (cfg c)) by lia. simpl. rewrite Hn.
    rewrite lenZ_drop by lia. split_and!; try done; lia.
Qed.

(** Draining takes a nonempty prefix of the queue, at most [max] events. *)
Lemma drainBatchLocked_spec max c c' b :
  0 < max \/ 0 < BatchSize (cfg c) ->
  drainBatchLocked max c = (c', Some b) ->
  exists n : nat, events c' = drop n (events c) /\ batch_events b = take n (events c) /\
    (0 < n <= length (events c))%nat /\ (Z.of_nat n <= (if max <=? 0 then BatchSize (cfg c) else max)) /\
    cfg c' = cfg c /\ droppedPending c' = droppedPending c /\
    pendingDropLogCount c' = pendingDropLogCount c /\ aggregv1.Events b <> [].
Proof.
  intros Hpos. unfold drainBatchLocked. destruct (events c) as [|e l] eqn:E; [done|].
  rewrite <-E. cbv zeta.
  set (m1 := if max <=? 0 then BatchSize (cfg c) else max).
  assert (Hm1 : 0 < m1 \/ max <= 0 /\ BatchSize (cfg c) <= 0).
  { subst m1. destruct (max <=? 0) eqn:H1; to_prop; lia. }
  set (m2 := if lenZ (events c) <? m1 then lenZ (events c) else m1).
  assert (Hlen : 0 < lenZ (events c)) by (rewrite E; unfold lenZ; simpl; lia).
  assert (Hm2 : 0 < m2 <= lenZ (events c) /\ m2 <= m1).
  { subst m2. destruct (_ <? m1) eqn:H1; to_prop; lia. }
  intros [= <- <-]. exists (Z.to_nat m2). unfold batch_events; simpl.
  rewrite omap_id_fmap_Some. unfold lenZ in *. split_and!; try done; try lia.
  rewrite E. replace (Z.to_nat m2) with (S (pred (Z.to_nat m2))) by lia. done.
Qed.

Lemma requeue_spec b c :
  aggregv1.Events b <> [] -> requeue (Some b) c = enforceMaxLocked (set_events (batch_events b ++ events c) c).
Proof. intros H. unfold requeue. by destruct (aggregv1.Events b). Qed.

Lemma logDroppedPending_spec now c c' w :
  0 <= droppedPending c -> logDroppedPending now c = (c', w) ->
  events c' = events c /\ cfg c' = cfg c /\ droppedPending c' = 0 /\
  pendingDropLogCount c' + from_ptr 0 warn_dropped w = pendingDropLogCount c + droppedPending c /\
  (0 <= pendingDropLogCount c -> 0 <= pendingDropLogCount c' /\ 0 <= from_ptr 0 warn_dropped w).
Proof.
  intros Hd. unfold logDroppedPending.
  destruct (droppedPending c =? 0) eqn:E0; to_prop.
  - rewrite E0. simpl. intros [= <- <-]. simpl. split_and!; try done; lia.
  - rewrite (proj2 (Z.ltb_lt 0 (droppedPending c))) by lia. simpl.
    destruct (Before _ _); intros [= <- <-]; simpl; split_and!; try done; lia.
Qed.

(** A warning clears the counts and opens a silent minute. *)
Lemma logDroppedPending_rate now c c' w :
  logDroppedPending now c = (c', Some w) ->
  dropLogNext c <= now /\ dropLogNext c' = now + Minute /\ pendingDropLogCount c' = 0.
Proof.
  unfold logDroppedPending. destruct (_ =? 0); [done|].
  assert (Hn : dropLogNext (if 0 <? droppedPending c then set_dropped 0 "" c else c) = dropLogNext c).
  { by destruct (_ <? _). }
  rewrite Hn. unfold Before. destruct (_ <? dropLogNext c) eqn:E; [done|]. to_prop.
  intros [= <- _]. simpl. split; [lia|done].
Qed.

Lemma logDroppedPending_silent now c :
  now < dropLogNext c -> (logDroppedPending now c).2 = None.
Proof.
  intros H. unfold logDroppedPending. destruct (_ =? 0); [done|].
  assert (Hn : dropLogNext (if 0 <? droppedPending c then set_dropped 0 "" c else c) = dropLogNext c).
  { by destruct (_ <? _). }
  rewrite Hn. unfold Before. by rewrite (proj2 (Z.ltb_lt _ _) H).
Qed.

(** *** The invariant *)

Lemma sys_ok_init c : sys_ok (sys_init c).
Proof.
  unfold sys_ok, sys_init, lost; simpl. unfold lenZ; simpl.
  split_and!; try lia; try done; try (apply or_default_pos; unfold defaultMaxPendingEvents; lia).
  pose proof (or_default_pos (MaxPendingEvents c) defaultMaxPendingEvents).
  unfold defaultMaxPendingEvents in *. lia.
Qed.

(** Replacing the queue by a retained suffix of a longer one keeps the accounts. *)
Lemma sys_ok_enforce c fl off del rep :
  0 < MaxPendingEvents (cfg c) -> 0 < BatchSize (cfg c) ->
  sublist (del ++ from_ptr [] batch_events fl ++ events c) off ->
  lenZ del + lenZ (from_ptr [] batch_events fl) + lenZ (events c) +
    (droppedPending c + pendingDropLogCount c + rep) = lenZ off ->
  0 <= droppedPending c -> 0 <= pendingDropLogCount c -> 0 <= rep ->
  sys_ok (mkSys (enforceMaxLocked c) fl off del rep).
Proof.
  intros Hmax Hbatch Hsub Hcount Hd Hp Hr.
  destruct (enforceMaxLocked_spec c Hmax) as (He & Hdr & Hpl & Hlen & Hle).
  unfold sys_ok, lost, inflight_events; simpl. rewrite enforceMaxLocked_cfg, Hdr, Hpl, Hlen.
  rewrite He. split_and!; try done; try lia.
  rewrite app_assoc. apply sublist_drop_mid. by rewrite <-app_assoc.
Qed.

Lemma sys_step_ok s s' : sys_ok s -> sys_step s s' -> sys_ok s'.
Proof.
  intros (Hmax & Hbatch & Hsub & Hcount & Hle & Hd & Hp & Hr) Hst.
  destruct Hst as [c fl off del rep e|c fl off del rep|c c' b off del rep max Hdrain
                  |c b off del rep|c b off del rep|c c' fl off del rep now w Hlog];
    unfold inflight_events, lost in *; simpl in *.
  - unfold Enqueue.
    assert (Hok : sys_ok (mkSys (enforceMaxLocked (set_events (events c ++ [e]) c)) fl (off ++ [e]) del rep)).
    { apply sys_ok_enforce; simpl; try done.
      - rewrite !app_assoc. apply sublist_app; [|done]. by rewrite <-app_assoc.
      - rewrite !lenZ_app. lia. }
    destruct (_ <=? _); exact Hok.
  - unfold sys_ok, lost, inflight_events; simpl. by split_and!.
  - apply drainBatchLocked_spec in Hdrain as (n & He & Hb & Hn & _ & Hcfg & Hdr & Hpl & _); [|by right].
    unfold sys_ok, lost, inflight_events; simpl. rewrite He, Hb, Hcfg, Hdr, Hpl, take_drop.
    simpl in Hsub. split_and!; try done; unfold lenZ in *; rewrite ?length_take, length_drop; simpl in *; lia.
  - unfold sys_ok, lost, inflight_events; simpl. rewrite lenZ_app. unfold lenZ in *; simpl in *.
    rewrite <-app_assoc. split_and!; try done; lia.
  - unfold requeue. destruct (aggregv1.Events b) as [|x l] eqn:Eb.
    + assert (Hb : batch_events b = []) by (unfold batch_events; by rewrite Eb). rewrite Hb in *.
      unfold sys_ok, lost, inflight_events; simpl in *. by split_and!.
    + apply sys_ok_enforce; simpl; try done. rewrite lenZ_app. unfold lenZ in *; simpl in *. lia.
  - apply logDroppedPending_spec in Hlog as (He & Hcfg & Hdr & Hpl & Hnn); [|done].
    destruct (Hnn Hp) as [H1 H2].
    unfold sys_ok, lost, inflight_events; simpl. rewrite He, Hcfg, Hdr. split_and!; try done; lia.
Qed.

Lemma sys_reachable_ok s s' : sys_ok s -> rtc sys_step s s' -> sys_ok s'.
Proof. intros Hs. induction 1; eauto using sys_step_ok. Qed.

(** *** The send loop *)

Lemma requeue_cfg b c : cfg (requeue b c) = cfg c.
Proof.
  destruct b as [b|]; [|done]. simpl. destruct (aggregv1.Events b); [done|].
  by rewrite enforceMaxLocked_cfg.
Qed.

Lemma drainBatchLocked_cfg max c : cfg (drainBatchLocked max c).1 = cfg c.
Proof. unfold drainBatchLocked. by destruct (events c). Qed.

Lemma logDroppedPending_frame now c :
  cfg (logDroppedPending now c).1 = cfg c /\ events (logDroppedPending now c).1 = events c.
Proof.
  unfold logDroppedPending. destruct (0 <? droppedPending c), (_ =? 0); try done;
    by destruct (Before _ _).
Qed.

Lemma Enqueue_cfg e c : cfg (Enqueue e c) = cfg c.
Proof.
  destruct e as [e|]; [|done]. unfold Enqueue. cbv zeta.
  by destruct (_ <=? _); simpl; rewrite enforceMaxLocked_cfg.
Qed.

Section send_laws.
Context {Stream : Type} (Send : Stream -> aggregv1.FlowEventBatch -> Stream * option string).

Lemma send_loop_cfg fuel c s r : send_loop Send fuel c s = Some r -> cfg r.1.1 = cfg c.
Proof.
  revert c s. induction fuel as [|fuel IH]; intros c s; simpl; [done|].
  pose proof (drainBatchLocked_cfg (BatchSize (cfg c)) c) as Hd.
  destruct (drainBatchLocked _ c) as [c1 [b|]]; simpl in *; [|by intros [= <-]].
  destruct (aggregv1.Events b); [by intros [= <-]|].
  destruct (Send s b) as [s1 [err|]].
  - intros [= <-]. simpl fst. by rewrite enforceMaxLocked_cfg.
  - intros H. by rewrite (IH _ _ H), Hd.
Qed.

(** One round more than there are events is enough fuel. *)
Lemma send_loop_total fuel c s :
  0 < BatchSize (cfg c) -> (length (events c) < fuel)%nat -> is_Some (send_loop Send fuel c s).
Proof.
  revert c s. induction fuel as [|fuel IH]; intros c s Hb Hf; [lia|]. simpl.
  destruct (drainBatchLocked _ c) as [c1 [b|]] eqn:Hd; [|by eexists].
  apply drainBatchLocked_spec in Hd as (n & He & _ & Hn & _ & Hcfg & _ & _ & Hne); [|by right].
  destruct (aggregv1.Events b); [done|]. destruct (Send s b) as [s1 [err|]]; [by eexists|].
  apply IH; [by rewrite Hcfg|]. rewrite He, length_drop. lia.
Qed.

Lemma sendPending_cfg now c s : cfg (sendPending Send now c s).1.1 = cfg c.
Proof.
  unfold sendPending. pose proof (logDroppedPending_frame now c) as [Hc _].
  destruct (logDroppedPending now c) as [c1 w]. simpl in Hc.
  destruct (send_loop Send _ c1 s) as [r|] eqn:E; [|done].
  by rewrite (send_loop_cfg _ _ _ _ E), Hc.
Qed.

#[export] Instance agent_stream_client_laws :
  @StreamClientLaws Client Stream Z (agent_stream_client Send).
Proof.
  split; simpl; intros; try done; rewrite ?sendPending_cfg; try done.
  - destruct H as (e & [-> | ->]); by rewrite ?Enqueue_cfg.
  - destruct H as (e & [-> | ->]); by rewrite ?Enqueue_cfg.
Qed.
End send_laws.

(** A stream that records what it accepted and refuses when [refuse] says so. *)
Definition recording_send (refuse : list aggregv1.FlowEventBatch -> option string)
    (s : list aggregv1.FlowEventBatch) (b : aggregv1.FlowEventBatch) :
    list aggregv1.FlowEventBatch * option string :=
  match refuse s with
  | Some err => (s, Some err)
  | None => (s ++ [b], None)
  end.

(** What a batch on the wire satisfies. *)
Definition good_batch (c : ClientConfig) (b : aggregv1.FlowEventBatch) : Prop :=
  batch_events b <> [] /\ lenZ (batch_events b) <= BatchSize c /\
  aggregv1.NodeName b = NodeName c /\ aggregv1.AgentId b = AgentID c.

Lemma drainBatchLocked_good c c' b :
  0 < BatchSize (cfg c) -> drainBatchLocked (BatchSize (cfg c)) c = (c', Some b) ->
  good_batch (cfg c) b.
Proof.
  intros Hb Hd. pose proof Hd as Hd'.
  apply drainBatchLocked_spec in Hd as (n & He & Hbe & Hn & Hle & _); [|by right].
  rewrite (proj2 (Z.leb_gt _ _)) in Hle by lia.
  unfold good_batch, lenZ. rewrite Hbe, length_take. split_and!; try lia.
  - intros H. apply (f_equal length) in H. rewrite length_take in H. simpl in H. lia.
  - unfold drainBatchLocked in Hd'. destruct (events c); [done|]. by injection Hd' as _ <-.
  - unfold drainBatchLocked in Hd'. destruct (events c); [done|]. by injection Hd' as _ <-.
Qed.

Lemma send_loop_spec refuse fuel c s c' s' err :
  0 < BatchSize (cfg c) -> lenZ (events c) <= MaxPendingEvents (cfg c) ->
  send_loop (recording_send refuse) fuel c s = Some (c', s', err) ->
  exists bs, s' = s ++ bs /\ Forall (good_batch (cfg c)) bs /\
    (bs ≫= batch_events) ++ events c' = events c /\ droppedPending c' = droppedPending c /\
    match err with
    | None => events c' = [] /\ sendFailures c' = sendFailures c
    | Some e => refuse s' = Some e /\ sendFailures c' = sendFailures c + 1
    end.
Proof.
  revert c s. induction fuel as [|fuel IH]; intros c s Hb Hmax; simpl; [done|].
  destruct (drainBatchLocked _ c) as [c1 [b|]] eqn:Hd.
  2:{ unfold drainBatchLocked in Hd. destruct (events c) eqn:E; [|done].
      injection Hd as <-. intros [= <- <- <-]. exists []. by rewrite app_nil_r, E. }
  pose proof (drainBatchLocked_good _ _ _ Hb Hd) as Hgood.
  assert (Hsf : sendFailures c1 = sendFailures c).
  { unfold drainBatchLocked in Hd. destruct (events c); [done|]. by injection Hd as <- _. }
  apply drainBatchLocked_spec in Hd as (n & He & Hbe & Hn & _ & Hcfg & Hdr & _ & Hne); [|by right].
  assert (Hq : batch_events b ++ events c1 = events c) by (by rewrite Hbe, He, take_drop).
  destruct (aggregv1.Events b) eqn:Eb; [done|]. rewrite <-Eb in Hne. clear Eb.
  unfold recording_send at 1. destruct (refuse s) as [err'|] eqn:Hr.
  - intros [= <- <- <-]. exists []. rewrite app_nil_r. simpl.
    unfold enforceMaxLocked; simpl. rewrite Hq, Hcfg, (proj2 (Z.leb_le _ 0)) by lia. simpl.
    rewrite Hsf, Hdr. done.
  - intros H. apply IH in H as (bs & -> & Hg & Hev & Hd & Hres).
    + exists (b :: bs). rewrite bind_cons, <-!app_assoc, Hev, Hd, Hdr.
      rewrite Hcfg in Hg. rewrite Hsf in Hres.
      split_and!; try done; [by constructor|]. by rewrite <-app_assoc in Hres.
    + by rewrite Hcfg.
    + rewrite Hcfg, He. unfold lenZ in *. rewrite length_drop. lia.
Qed.

(** ** Properties *)

(** C8. Whatever the interleaving of enqueuing goroutines with the send loop, its
    failures and its drop warnings, every event offered to the client is
    delivered, in flight, pending, or counted as dropped; delivered, in-flight
    and pending events keep the order they were offered in without duplicates;
    the queue never exceeds its cap. *)
Theorem agent_queue_accounts (c : ClientConfig) s :
  rtc sys_step (sys_init c) s ->
  sublist (delivered s ++ inflight_events s ++ events (client s)) (offered s) /\
  lenZ (delivered s) + lenZ (inflight_events s) + PendingCount (client s)
    + (droppedPending (client s) + pendingDropLogCount (client s) + reported s)
    = lenZ (offered s) /\
  PendingCount (client s) <= MaxPendingEvents (cfg (client s)).
Proof.
  intros H. apply sys_reachable_ok in H; [|apply sys_ok_init].
  destruct H as (_ & _ & Hsub & Hcount & Hle & _). unfold lost in Hcount. done.
Qed.

(** One call of [sendPending] terminates and sends a prefix of the queue, in order, in
    nonempty batches of at most [BatchSize] events stamped with the node's
    identity; with no send error nothing stays pending, and after an error the
    failed batch and everything behind it are pending again, in order, and the
    failure is counted. *)
Theorem agent_sendPending_delivers_in_order refuse now (c : Client) s :
  0 < BatchSize (cfg c) -> PendingCount c <= MaxPendingEvents (cfg c) ->
  exists bs c' err,
    sendPending (recording_send refuse) now c s = (c', s ++ bs, err) /\
    Forall (good_batch (cfg c)) bs /\
    (bs ≫= batch_events) ++ events c' = events c /\
    match err with
    | None => events c' = [] /\ sendFailures c' = sendFailures c
    | Some e => refuse (s ++ bs) = Some e /\ sendFailures c' = sendFailures c + 1
    end.
Proof.
  intros Hb Hmax. unfold sendPending. pose proof (logDroppedPending_frame now c) as [Hc He].
  assert (Hsf : sendFailures (logDroppedPending now c).1 = sendFailures c).
  { unfold logDroppedPending. destruct (0 <? _), (_ =? 0); try done; by destruct (Before _ _). }
  destruct (logDroppedPending now c) as [c1 w]. simpl in Hc, He, Hsf.
  destruct (send_loop_total (recording_send refuse) (S (length (events c1))) c1 s)
    as [[[c' s'] err] Hrun]; [by rewrite Hc|lia|].
  rewrite Hrun. apply send_loop_spec in Hrun; try (rewrite ?Hc, ?He; done).
  destruct Hrun as (bs & -> & Hg & Hev & _ & Hres). rewrite Hc, ?He, ?Hsf in *. eauto 10.
Qed.

(** The client's [Run] loop, started from any configuration: every delay it sleeps
    is positive and bounded by the larger of the two configured backoffs, and the
    loop returns only after its context was cancelled, whatever the server,
    the ticker and the gadgets do. *)
Theorem agent_run_backoff_and_return {Stream} Send (c : ClientConfig) evs y :
  ReconnectBackoffMin c < 2 ^ 62 -> ReconnectBackoffMax c < 2 ^ 62 ->
  @Run_steps Stream Send (Run_init (NewClient c)) evs y ->
  match y.2 with
  | AtTop b | Sleeping b =>
      0 < b <= Z.max (ReconnectBackoffMin (cfg y.1)) (ReconnectBackoffMax (cfg y.1))
  | Connected _ => True
  | Returned _ => Exists (fun ev => cancel_event ev = true) evs
  end.
Proof.
  intros Hlo Hhi H. unfold Run_steps in H.
  assert (Hpos : 0 < ReconnectBackoffMin (cfg (NewClient c)) < 2 ^ 62 /\
                 0 < ReconnectBackoffMax (cfg (NewClient c)) < 2 ^ 62).
  { simpl. unfold or_default, Second. destruct (_ <=? 0) eqn:?, (ReconnectBackoffMax c <=? 0) eqn:?; to_prop; lia. }
  pose proof (@run_steps_backoff _ _ _ (agent_stream_client Send) (agent_stream_client_laws Send)
    _ _ _ _ _ (proj1 Hpos) (proj2 Hpos)
    (@run_init_ok _ _ _ (agent_stream_client Send) (NewClient c) (proj1 (proj1 Hpos))) H)
    as (Hmin & Hmax & Hb).
  pose proof (run_steps_returned _ _ _ H eq_refl) as Hret. destruct y as [c' p]. simpl in *.
  rewrite Hmin, Hmax. destruct p; try done. by apply Hret.
Qed.

(** ** Witnesses *)

Definition sample_event (n : Z) : aggregv1.FlowEvent :=
  {| aggregv1.EventKind := aggregv1.FLOW_EVENT_KIND_TRAFFIC; aggregv1.Protocol := aggregv1.PROTOCOL_TCP;
     aggregv1.TimestampUnixNano := n; aggregv1.Src := None; aggregv1.SrcEndpoint := None;
     aggregv1.Dst := None; aggregv1.BytesSent := n; aggregv1.BytesReceived := 0; aggregv1.Dns := None |}.

Definition sample_config : ClientConfig :=
  {| CollectorAddr := "aggregator:9443"; NodeName := "node-1"; AgentID := "agent-1"; BatchSize := 2;
     MaxPendingEvents := 3; FlushInterval := 0; ReconnectBackoffMin := 0; ReconnectBackoffMax := 0 |}.

Definition sample_client : Client :=
  foldl (fun c n => Enqueue (Some (sample_event n)) c) (NewClient sample_config) [1; 2; 3; 4].

Definition sample_drained : Client * option aggregv1.FlowEventBatch := drainBatchLocked 2 sample_client.

(** Four events offered to a queue of three, a batch drained and refused. *)
Definition sample_sys : sys :=
  mkSys (requeue sample_drained.2 (add_sendFailure sample_drained.1)) None
    (sample_event <$> [1; 2; 3; 4]) [] 0.

Lemma sample_sys_reachable : rtc sys_step (sys_init sample_config) sample_sys.
Proof.
  do 4 (eapply rtc_l; [apply sys_enqueue|]).
  eapply rtc_l; [apply sys_drain with (max := 2); vm_compute; reflexivity|].
  eapply rtc_l; [apply sys_failed|]. apply rtc_refl.
Qed.

Lemma agent_queue_accounts_witness :
  droppedPending (client sample_sys) = 1 /\
  events (client sample_sys) = sample_event <$> [2; 3; 4] /\
  PendingCount (client sample_sys) <= MaxPendingEvents (cfg (client sample_sys)).
Proof.
  split; [vm_compute; reflexivity|]. split; [vm_compute; reflexivity|].
  apply (agent_queue_accounts sample_config). apply sample_sys_reachable.
Defined.

(** Three pending events; the second batch is refused. *)
Lemma agent_sendPending_delivers_in_order_witness :
  exists bs c' err,
    sendPending (recording_send (fun s => if decide (s <> []) then Some "EOF" else None)%string)
      0 sample_client [] = (c', bs, err) /\
    (bs ≫= batch_events) ++ events c' = sample_event <$> [2; 3; 4].
Proof.
  destruct (agent_sendPending_delivers_in_order
    (fun s => if decide (s <> []) then Some "EOF" else None)%string 0 sample_client [])
    as (bs & c' & err & H1 & _ & H2 & _); [reflexivity|vm_compute; discriminate|].
  exists bs, c', err. split; [exact H1|exact H2].
Defined.

(** A failed dial, the sleep, then cancellation. *)
Lemma agent_run_backoff_and_return_witness :
  @Run_steps unit (fun s _ => (s, None)) (Run_init (NewClient sample_config))
    [DialError; TimerFired; CtxDone 0] (NewClient sample_config, Returned false) /\
  Exists (fun ev => @cancel_event unit Z ev = true) [DialError; TimerFired; CtxDone 0].
Proof.
  assert (H : @Run_steps unit (fun s _ => (s, None)) (Run_init (NewClient sample_config))
    [DialError; TimerFired; CtxDone 0] (NewClient sample_config, Returned false)).
  { unfold Run_steps. repeat econstructor. }
  split; [exact H|].
  exact (agent_run_backoff_and_return (fun s _ => (s, None)) sample_config _ _ eq_refl eq_refl H).
Defined.
