(* ===== verification/FlowMapper.v ===== *)
(** * The agent's gadgets and event mappers

    [pkg/agent/mapper.go], [mapper_dns.go] and the three gadget runners
    ([gadget_runner.go], [gadget_top_tcp.go], [gadget_trace_dns.go]) of the
    network-flow agent: what a record of a gadget's data source becomes on the
    client's queue.  The data source itself is Inspektor Gadget's: [DataSource]
    is its interface as the runners use it. *)

From stdpp Require Import base decidable list gmap strings pretty.
From Stdlib Require Import ZArith Lia Ascii.
From S2P Require Import Prelude GoStrings FlowTypes DeltaTracker AgentClient.
Import agent GoInt.

Local Open Scope Z_scope.

(** ** Mappers *)

Definition MapFlowEvent (fields : TCPFields) : option aggregv1.FlowEvent :=
  if decide (Pod fields = "" \/ DstAddr fields = "") then None
  else Some
    {| aggregv1.EventKind := EventKind fields;
       aggregv1.Protocol := aggregv1.PROTOCOL_TCP;
       aggregv1.TimestampUnixNano := Timestamp fields;
       aggregv1.Src := Some {| aggregv1.Namespace := Namespace fields; aggregv1.Pod := Pod fields;
                               aggregv1.Container := Container fields |};
       aggregv1.SrcEndpoint := Some {| aggregv1.Addr := SrcAddr fields; aggregv1.Port := SrcPort fields |};
       aggregv1.Dst := Some {| aggregv1.Addr := DstAddr fields; aggregv1.Port := DstPort fields |};
       aggregv1.BytesSent := BytesSent fields;
       aggregv1.BytesReceived := BytesReceived fields;
       aggregv1.Dns := None |}.

Definition splitEndpoint (endpoint : string) : string * Z :=
  if decide (endpoint = "") then (""%string, 0)
  else
    match LastIndex endpoint ":"%char with
    | Some i =>
        if (0 <? i)%nat then
          match sscanf_uint32 (slice_from (i + 1) endpoint) with
          | Some port => (slice_to i endpoint, port)
          | None => (""%string, 0)
          end
        else (endpoint, 0)
    | None => (endpoint, 0)
    end.

Definition normalizeHostname (name : string) : string := TrimSuffix (TrimSpace name) ".".

(** A [nil] slice and an empty one are not told apart by any caller. *)
Definition parseAddresses (raw : string) : list string :=
  let raw := TrimSpace raw in
  if decide (raw = "") then []
  else
    filter (fun p => p <> ""%string) (TrimSpace <$> Split raw ","%char).

Definition MapDnsEvent (fields : DNSFields) : option aggregv1.FlowEvent :=
  if decide (dns_Pod fields = "" \/ dns_Name fields = "") then None
  else
    let kind := if decide (QR fields = "R"%string) then aggregv1.FLOW_EVENT_KIND_DNS_RESPONSE
                else aggregv1.FLOW_EVENT_KIND_DNS_QUERY in
    let addresses := parseAddresses (dns_Addresses fields) in
    let dstAddr :=
      match addresses with
      | a :: _ => if kind =? aggregv1.FLOW_EVENT_KIND_DNS_RESPONSE then a else dns_DstAddr fields
      | [] => dns_DstAddr fields
      end in
    Some
      {| aggregv1.EventKind := kind;
         aggregv1.Protocol := aggregv1.PROTOCOL_DNS;
         aggregv1.TimestampUnixNano := dns_Timestamp fields;
         aggregv1.Src := Some {| aggregv1.Namespace := dns_Namespace fields; aggregv1.Pod := dns_Pod fields;
                                 aggregv1.Container := dns_Container fields |};
         aggregv1.SrcEndpoint := Some {| aggregv1.Addr := dns_SrcAddr fields; aggregv1.Port := dns_SrcPort fields |};
         aggregv1.Dst := Some {| aggregv1.Addr := dstAddr; aggregv1.Port := dns_DstPort fields |};
         aggregv1.BytesSent := 0;
         aggregv1.BytesReceived := 0;
         aggregv1.Dns := Some {| aggregv1.Name := normalizeHostname (dns_Name fields);
                                 aggregv1.Qtype := QType fields; aggregv1.Rcode := RCode fields;
                                 aggregv1.Addresses := addresses; aggregv1.QueryId := QueryID fields |} |}.

(** [mapTrafficDelta], given what [time.Now().UnixNano()] would read. *)
Definition mapTrafficDelta (now : Z) (delta : ByteDelta) : option aggregv1.FlowEvent :=
  let f := Fields delta in
  if decide (Pod f = "" \/ DstAddr f = "") then None
  else if (Sent delta =? 0) && (Received delta =? 0) then None
  else
    let ts := if Timestamp f =? 0 then now else Timestamp f in
    MapFlowEvent
      {| Namespace := Namespace f; Pod := Pod f; Container := Container f;
         SrcAddr := SrcAddr f; SrcPort := SrcPort f; DstAddr := DstAddr f; DstPort := DstPort f;
         PID := 0; Timestamp := ts; BytesSent := Sent delta; BytesReceived := Received delta;
         EventKind := aggregv1.FLOW_EVENT_KIND_TRAFFIC |}.

(** ** Data sources *)

Section gadgets.
Context {Data : Type}.

(** A field accessor; every caller discards the error and keeps the value. *)
Record FieldAccessor := mkFieldAccessor {
  acc_String : Data -> string;
  acc_Uint16 : Data -> Z;
  acc_Uint32 : Data -> Z;
  acc_Uint64 : Data -> Z;
  acc_Int64 : Data -> Z
}.

(** [ds.GetField]. *)
Abbreviation DataSource := (string -> option FieldAccessor).

Definition string_of (acc : option FieldAccessor) (data : Data) : string :=
  from_ptr ""%string (fun a => acc_String a data) acc.

Definition port_of (acc : option FieldAccessor) (data : Data) : Z :=
  from_ptr 0 (fun a => acc_Uint16 a data) acc.

(** The address and port of one side: the separate fields, or the combined
    endpoint field when the address came out empty. *)
Definition extract_endpoint (addr port ep : option FieldAccessor) (data : Data) : string * Z :=
  let a := string_of addr data in
  let p := port_of port data in
  if decide (a = "") then
    match ep with
    | Some e => splitEndpoint (acc_String e data)
    | None => (a, p)
    end
  else (a, p).

Record tcpAccessors := mkTcpAccessors {
  namespace : option FieldAccessor;
  pod : option FieldAccessor;
  container : option FieldAccessor;
  srcAddr : option FieldAccessor;
  srcPort : option FieldAccessor;
  srcEp : option FieldAccessor;
  dstAddr : option FieldAccessor;
  dstPort : option FieldAccessor;
  dstEp : option FieldAccessor;
  timestamp : option FieldAccessor;
  sent : option FieldAccessor;
  received : option FieldAccessor;
  pid : option FieldAccessor
}.

(** [traceTCPFields.init]; the accessors it does not have stay [None]. *)
Definition traceTCPFields_init (ds : DataSource) : result string tcpAccessors :=
  let f := {| namespace := ds "k8s.namespace"; pod := ds "k8s.podName"; container := ds "k8s.containerName";
              srcAddr := ds "src.addr"; srcPort := ds "src.port"; srcEp := ds "src.endpoint";
              dstAddr := ds "dst.addr"; dstPort := ds "dst.port"; dstEp := ds "dst.endpoint";
              timestamp := ds "timestamp_raw"; sent := None; received := None; pid := None |}%string in
  match pod f with
  | None => Err "missing k8s.podName field"%string
  | Some _ =>
      match dstAddr f, dstEp f with
      | None, None => Err "missing dst endpoint fields"%string
      | _, _ => Ok f
      end
  end.

Definition traceTCPFields_extract (f : tcpAccessors) (data : Data) : TCPFields :=
  let '(sa, sp) := extract_endpoint (srcAddr f) (srcPort f) (srcEp f) data in
  let '(da, dp) := extract_endpoint (dstAddr f) (dstPort f) (dstEp f) data in
  {| Namespace := string_of (namespace f) data; Pod := string_of (pod f) data;
     Container := string_of (container f) data;
     SrcAddr := sa; SrcPort := sp; DstAddr := da; DstPort := dp; PID := 0;
     Timestamp := from_ptr 0 (fun a => acc_Int64 a data) (timestamp f);
     BytesSent := 0; BytesReceived := 0; EventKind := aggregv1.FLOW_EVENT_KIND_UNSPECIFIED |}.

Definition topTCPFields_init (ds : DataSource) : result string tcpAccessors :=
  let f := {| namespace := ds "k8s.namespace"; pod := ds "k8s.podName"; container := ds "k8s.containerName";
              srcAddr := ds "src.addr"; srcPort := ds "src.port"; srcEp := ds "src.endpoint";
              dstAddr := ds "dst.addr"; dstPort := ds "dst.port"; dstEp := ds "dst.endpoint";
              timestamp := None; sent := ds "sent_raw"; received := ds "received_raw";
              pid := ds "pid" |}%string in
  match pod f with
  | None => Err "missing k8s.podName field"%string
  | Some _ =>
      match sent f, received f with
      | Some _, Some _ =>
          match dstAddr f, dstEp f with
          | None, None => Err "missing dst endpoint fields"%string
          | _, _ => Ok f
          end
      | _, _ => Err "missing sent_raw/received_raw fields"%string
      end
  end.

Definition topTCPFields_extract (f : tcpAccessors) (data : Data) : TCPFields :=
  let '(sa, sp) := extract_endpoint (srcAddr f) (srcPort f) (srcEp f) data in
  let '(da, dp) := extract_endpoint (dstAddr f) (dstPort f) (dstEp f) data in
  {| Namespace := string_of (namespace f) data; Pod := string_of (pod f) data;
     Container := string_of (container f) data;
     SrcAddr := sa; SrcPort := sp; DstAddr := da; DstPort := dp;
     PID := from_ptr 0 (fun a => acc_Uint32 a data) (pid f);
     Timestamp := 0;
     BytesSent := from_ptr 0 (fun a => acc_Uint64 a data) (sent f);
     BytesReceived := from_ptr 0 (fun a => acc_Uint64 a data) (received f);
     EventKind := aggregv1.FLOW_EVENT_KIND_UNSPECIFIED |}.

Record traceDNSFields := mkTraceDNSFields {
  d_namespace : option FieldAccessor;
  d_pod : option FieldAccessor;
  d_container : option FieldAccessor;
  d_srcAddr : option FieldAccessor;
  d_srcPort : option FieldAccessor;
  d_srcEp : option FieldAccessor;
  d_dstAddr : option FieldAccessor;
  d_dstPort : option FieldAccessor;
  d_dstEp : option FieldAccessor;
  d_timestamp : option FieldAccessor;
  d_qr : option FieldAccessor;
  d_name : option FieldAccessor;
  d_qtype : option FieldAccessor;
  d_rcode : option FieldAccessor;
  d_addresses : option FieldAccessor;
  d_queryID : option FieldAccessor
}.

Definition traceDNSFields_init (ds : DataSource) : result string traceDNSFields :=
  let f := {| d_namespace := ds "k8s.namespace"; d_pod := ds "k8s.podName"; d_container := ds "k8s.containerName";
              d_srcAddr := ds "src.addr"; d_srcPort := ds "src.port"; d_srcEp := ds "src.endpoint";
              d_dstAddr := ds "dst.addr"; d_dstPort := ds "dst.port"; d_dstEp := ds "dst.endpoint";
              d_timestamp := ds "timestamp_raw"; d_qr := ds "qr"; d_name := ds "name"; d_qtype := ds "qtype";
              d_rcode := ds "rcode"; d_addresses := ds "addresses"; d_queryID := ds "id" |}%string in
  match d_pod f with
  | None => Err "missing k8s.podName field"%string
  | Some _ =>
      match d_name f with
      | None => Err "missing name field"%string
      | Some _ => Ok f
      end
  end.

Definition traceDNSFields_extract (f : traceDNSFields) (data : Data) : DNSFields :=
  let '(sa, sp) := extract_endpoint (d_srcAddr f) (d_srcPort f) (d_srcEp f) data in
  let '(da, dp) := extract_endpoint (d_dstAddr f) (d_dstPort f) (d_dstEp f) data in
  {| dns_Namespace := string_of (d_namespace f) data; dns_Pod := string_of (d_pod f) data;
     dns_Container := string_of (d_container f) data;
     dns_SrcAddr := sa; dns_SrcPort := sp; dns_DstAddr := da; dns_DstPort := dp;
     dns_Timestamp := from_ptr 0 (fun a => acc_Int64 a data) (d_timestamp f);
     QR := string_of (d_qr f) data; dns_Name := string_of (d_name f) data;
     QType := string_of (d_qtype f) data; RCode := string_of (d_rcode f) data;
     dns_Addresses := string_of (d_addresses f) data;
     QueryID := from_ptr 0 (fun a => acc_Uint32 a data) (d_queryID f) |}.

(** ** The subscription callbacks *)

Definition set_EventKind (k : Z) (f : TCPFields) : TCPFields :=
  {| Namespace := Namespace f; Pod := Pod f; Container := Container f;
     SrcAddr := SrcAddr f; SrcPort := SrcPort f; DstAddr := DstAddr f; DstPort := DstPort f;
     PID := PID f; Timestamp := Timestamp f; BytesSent := BytesSent f;
     BytesReceived := BytesReceived f; EventKind := k |}.

Definition traceTCP_callback (f : tcpAccessors) (data : Data) (c : Client) : Client :=
  let raw := set_EventKind aggregv1.FLOW_EVENT_KIND_CONNECT (traceTCPFields_extract f data) in
  Enqueue (MapFlowEvent raw) c.

Definition traceDNS_callback (f : traceDNSFields) (data : Data) (c : Client) : Client :=
  Enqueue (MapDnsEvent (traceDNSFields_extract f data)) c.

(** [if event := mapTrafficDelta(delta); event != nil { Enqueue(event) }]. *)
Definition enqueue_delta (now : Z) (delta : ByteDelta) (c : Client) : Client :=
  match mapTrafficDelta now delta with
  | Some event => Enqueue (Some event) c
  | None => c
  end.

(** The loop over the data array.  [clock i] is what the clock reads during
    iteration [i]. *)
Fixpoint topTCP_observe (clock : nat -> Z) (f : tcpAccessors) (data : list Data)
    (t : tracker) (c : Client) : tracker * Client * nat :=
  match data with
  | [] => (t, c, 0%nat)
  | d :: data' =>
      let '(t1, delta) := Observe t (topTCPFields_extract f d) in
      let c1 := match delta with
                | Some delta => enqueue_delta (clock 0%nat) delta c
                | None => c
                end in
      let '(t2, c2, n) := topTCP_observe (fun i => clock (S i)) f data' t1 c1 in
      (t2, c2, S n)
  end.

Fixpoint topTCP_flush (clock : nat -> Z) (ds : list ByteDelta) (c : Client) : Client :=
  match ds with
  | [] => c
  | delta :: ds' => topTCP_flush (fun i => clock (S i)) ds' (enqueue_delta (clock 0%nat) delta c)
  end.

Definition topTCP_callback `{!RangeOrder connKey connState} (clock : nat -> Z) (f : tcpAccessors)
    (data : list Data) (t : tracker) (c : Client) : tracker * Client :=
  let t0 := BeginPoll t in
  let '(t1, c1, n) := topTCP_observe clock f data t0 c in
  let '(t2, ds) := EndPoll t1 in
  (t2, topTCP_flush (fun i => clock (n + i)%nat) ds c1).

End gadgets.
Arguments FieldAccessor : clear implicits.
Arguments tcpAccessors : clear implicits.
Arguments traceDNSFields : clear implicits.

(** ** Lemmas *)

Definition nonzero (d : ByteDelta) : Prop := Sent d <> 0 \/ Received d <> 0.

Lemma Observe_nonzero t f d : (Observe t f).2 = Some d -> nonzero d.
Proof.
  unfold Observe, nonzero. destruct (t !! _) as [st|]; [|done].
  destruct (_ && _) eqn:E; [done|]. simpl. intros [= <-]. simpl.
  apply andb_false_iff in E as [E|E]; to_prop; auto.
Qed.

Lemma flush_nonzero st d : flush st = Some d -> nonzero d.
Proof.
  unfold flush, nonzero. destruct (_ || _) eqn:E; [|done]. intros [= <-]. simpl.
  apply orb_true_iff in E as [E|E]; to_prop; lia.
Qed.

Lemma EndPoll_nonzero `{!RangeOrder connKey connState} t : Forall nonzero (EndPoll t).2.
Proof.
  unfold EndPoll. simpl. apply Forall_forall. intros d Hd.
  apply list_elem_of_omap in Hd as ([k st] & _ & Hd). simpl in Hd.
  destruct (seen st); [done|]. by eapply flush_nonzero.
Qed.

(** What one event says of the delta it was mapped from. *)
Definition reports (e : aggregv1.FlowEvent) (d : ByteDelta) : Prop :=
  let f := Fields d in
  aggregv1.EventKind e = aggregv1.FLOW_EVENT_KIND_TRAFFIC /\
  aggregv1.Protocol e = aggregv1.PROTOCOL_TCP /\
  aggregv1.Src e = Some {| aggregv1.Namespace := Namespace f; aggregv1.Pod := Pod f; aggregv1.Container := Container f |} /\
  aggregv1.SrcEndpoint e = Some {| aggregv1.Addr := SrcAddr f; aggregv1.Port := SrcPort f |} /\
  aggregv1.Dst e = Some {| aggregv1.Addr := DstAddr f; aggregv1.Port := DstPort f |} /\
  aggregv1.BytesSent e = Sent d /\ aggregv1.BytesReceived e = Received d.

(** A delta of an attributed connection. *)
Definition attributed (d : ByteDelta) : Prop := Pod (Fields d) <> ""%string /\ DstAddr (Fields d) <> ""%string.

#[global] Instance attributed_dec d : Decision (attributed d).
Proof. unfold attributed. apply _. Defined.

Definition enqueue_all (es : list aggregv1.FlowEvent) (c : Client) : Client :=
  foldl (fun c e => Enqueue (Some e) c) c es.

Lemma enqueue_delta_spec now d c :
  nonzero d ->
  if decide (attributed d) then exists e, reports e d /\ enqueue_delta now d c = Enqueue (Some e) c
  else enqueue_delta now d c = c.
Proof.
  intros Hn. unfold enqueue_delta, mapTrafficDelta, attributed, nonzero in *. cbv zeta.
  destruct (decide (Pod (Fields d) = "" \/ DstAddr (Fields d) = "")) as [H|H].
  - rewrite decide_False by (intros [H1 H2]; destruct H; done). done.
  - rewrite decide_True by (split; intros H'; apply H; auto).
    assert (((Sent d =? 0) && (Received d =? 0)) = false) as ->.
    { apply andb_false_iff. rewrite !Z.eqb_neq. done. }
    unfold MapFlowEvent. simpl. rewrite decide_False by done.
    eexists. split; [|done]. repeat split.
Qed.

(** The events [es] report the attributed ones of the deltas [ds], in order. *)
Definition all_reported (es : list aggregv1.FlowEvent) (ds : list ByteDelta) : Prop :=
  Forall2 reports es (filter attributed ds).

Lemma enqueue_one now d c :
  nonzero d -> exists es, enqueue_delta now d c = enqueue_all es c /\ all_reported es [d].
Proof.
  intros Hn. pose proof (enqueue_delta_spec now d c Hn) as H. unfold all_reported.
  rewrite filter_cons, filter_nil. destruct (decide (attributed d)).
  - destruct H as (e & He & ->). exists [e]. split; [done|]. constructor; [done|constructor].
  - rewrite H. exists []. split; [done|constructor].
Qed.

Lemma all_reported_app es1 es2 ds1 ds2 :
  all_reported es1 ds1 -> all_reported es2 ds2 -> all_reported (es1 ++ es2) (ds1 ++ ds2).
Proof. unfold all_reported. rewrite filter_app. apply Forall2_app. Qed.

Lemma enqueue_all_app es1 es2 c : enqueue_all (es1 ++ es2) c = enqueue_all es2 (enqueue_all es1 c).
Proof. apply foldl_app. Qed.

Lemma topTCP_flush_spec clock ds c :
  Forall nonzero ds -> exists es, topTCP_flush clock ds c = enqueue_all es c /\ all_reported es ds.
Proof.
  intros H. revert clock c. induction H as [|d ds Hd Hds IH]; intros clock c; simpl.
  { exists []. split; [done|]. constructor. }
  destruct (enqueue_one (clock 0%nat) d c Hd) as (es1 & -> & H1).
  destruct (IH (fun i => clock (S i)) (enqueue_all es1 c)) as (es2 & -> & H2).
  exists (es1 ++ es2). rewrite enqueue_all_app. split; [done|].
  change (d :: ds) with ([d] ++ ds). by apply all_reported_app.
Qed.

Lemma topTCP_observe_spec {Data} clock (f : tcpAccessors Data) data t c :
  exists es, (topTCP_observe clock f data t c).1
    = ((observe_all t (topTCPFields_extract f <$> data)).1, enqueue_all es c) /\
  all_reported es (observe_all t (topTCPFields_extract f <$> data)).2.
Proof.
  revert clock t c. induction data as [|d data IH]; intros clock t c; simpl.
  { exists []. split; [done|constructor]. }
  pose proof (Observe_nonzero t (topTCPFields_extract f d)) as Hnz.
  destruct (Observe t _) as [t1 delta]. simpl in Hnz.
  set (c1 := match delta with Some _ => _ | None => c end).
  assert (H1 : exists es, c1 = enqueue_all es c /\ all_reported es (option_list delta)).
  { subst c1. destruct delta as [d'|]; [by apply enqueue_one; auto|].
    exists []. split; [done|constructor]. }
  destruct H1 as (es1 & -> & H1).
  destruct (IH (fun i => clock (S i)) t1 (enqueue_all es1 c)) as (es2 & H2 & H3).
  destruct (topTCP_observe _ f data t1 _) as [[t2 c2] n], (observe_all t1 _) as [t3 ds].
  simpl in *. injection H2 as -> ->. exists (es1 ++ es2). rewrite enqueue_all_app.
  split; [done|]. by apply all_reported_app.
Qed.


(** ** Properties *)

(** An endpoint printed as [addr:port], the way the gadgets render it, splits
    back into the address and the port, whatever colons the address contains
    (an IPv6 address does). *)
Theorem splitEndpoint_round_trip (addr : string) (port : Z) :
  addr <> ""%string -> in_u32 port ->
  splitEndpoint (addr +:+ String ":"%char (fmt_d port)) = (addr, port).
Proof.
  intros Ha Hp. unfold splitEndpoint.
  assert (Hlen : (0 < slen addr)%nat) by (destruct addr; [done|unfold slen; simpl; lia]).
  rewrite decide_False by (destruct addr; done).
  rewrite LastIndex_split by (apply fmt_d_not_in; [apply Hp|done]).
  rewrite (proj2 (Nat.ltb_lt _ _) Hlen). unfold slice_from, slice_to, slen.
  rewrite chars_app. rewrite Nat.add_comm, take_app_length. simpl.
  change (addr +:+ String ":"%char (fmt_d port)) with (addr +:+ String ":"%char (fmt_d port)).
  replace (S (length (chars addr))) with (length (chars addr ++ [":"%char])) by (rewrite length_app; simpl; lia).
  replace (chars addr ++ ":"%char :: chars (fmt_d port))
    with ((chars addr ++ [":"%char]) ++ chars (fmt_d port)) by (by rewrite <-app_assoc).
  rewrite drop_app_length, !str_chars, sscanf_uint32_fmt_d by done. done.
Qed.

(** The top_tcp callback leaves the tracker as one poll of it does, and puts on
    the client's queue, in order and one for one, a TRAFFIC event for every
    delta of that poll whose connection has a pod and a destination; the
    other deltas are the only ones it leaves out. *)
Theorem topTCP_callback_enqueues_poll {Data} `{!RangeOrder connKey connState}
    clock (f : tcpAccessors Data) data t c :
  exists es,
    topTCP_callback clock f data t c
      = ((poll t (topTCPFields_extract f <$> data)).1, enqueue_all es c) /\
    all_reported es (poll t (topTCPFields_extract f <$> data)).2.
Proof.
  unfold topTCP_callback, poll.
  destruct (topTCP_observe_spec clock f data (BeginPoll t) c) as (es1 & H1 & Hr1).
  destruct (topTCP_observe clock f data (BeginPoll t) c) as [[t1 c1] n].
  destruct (observe_all (BeginPoll t) _) as [t1' ds1]. cbn [fst snd] in *. injection H1 as -> ->.
  pose proof (EndPoll_nonzero t1') as Hnz. destruct (EndPoll t1') as [t2 ds2]. cbn [fst snd] in *.
  destruct (topTCP_flush_spec (fun i => clock (n + i)%nat) ds2 (enqueue_all es1 c) Hnz) as (es2 & -> & Hr2).
  exists (es1 ++ es2). rewrite enqueue_all_app. simpl. split; [done|]. by apply all_reported_app.
Qed.

(** A DNS record is dropped only when it has no pod or no name; otherwise the
    event is a RESPONSE exactly when the record's QR flag is ["R"], names the
    host without surrounding space or the root dot, lists the record's nonempty
    trimmed addresses in order, and points at the first of them when it is a
    response that has any, at the resolver's peer otherwise. *)
Theorem MapDnsEvent_functional (f : DNSFields) :
  match MapDnsEvent f with
  | None => dns_Pod f = ""%string \/ dns_Name f = ""%string
  | Some e =>
      dns_Pod f <> ""%string /\ dns_Name f <> ""%string /\
      (aggregv1.EventKind e = aggregv1.FLOW_EVENT_KIND_DNS_RESPONSE <-> QR f = "R"%string) /\
      (aggregv1.EventKind e = aggregv1.FLOW_EVENT_KIND_DNS_QUERY <-> QR f <> "R"%string) /\
      aggregv1.GetName (aggregv1.Dns e) = TrimSuffix (TrimSpace (dns_Name f)) "." /\
      aggregv1.GetAddresses (aggregv1.Dns e) =
        filter (fun a => a <> ""%string) (TrimSpace <$> Split (TrimSpace (dns_Addresses f)) ","%char) /\
      aggregv1.GetAddr (aggregv1.Dst e) =
        match aggregv1.GetAddresses (aggregv1.Dns e) with
        | a :: _ => if decide (QR f = "R"%string) then a else dns_DstAddr f
        | [] => dns_DstAddr f
        end
  end.
Proof.
  unfold MapDnsEvent. case_decide as H; [done|]. cbv zeta. simpl.
  split; [tauto|]. split; [tauto|]. split; [by case_decide|]. split; [by case_decide|].
  split; [done|]. split.
  - unfold parseAddresses. cbv zeta. case_decide as Hr; [|done]. by rewrite Hr.
  - destruct (parseAddresses _) as [|a l]; [done|]. by case_decide.
Qed.

(** ** Witnesses *)

Lemma splitEndpoint_round_trip_witness : splitEndpoint "fd00::1:8443" = ("fd00::1"%string, 8443).
Proof. exact (splitEndpoint_round_trip "fd00::1" 8443 ltac:(done) ltac:(unfold in_u32; lia)). Defined.
