(* ===== verification/FlowStore.v ===== *)
(** * The aggregator's event store

    [pkg/collector/store] of network-flow-aggregator: a bounded buffer of
    enriched events with a cursor that separates what the upstream client has
    sent from what it has not.  Events leave from the front, by age or by
    count; unsent ones that leave are counted. *)

From stdpp Require Import base decidable list gmap strings.
From Stdlib Require Import ZArith Lia.
From S2P Require Import Prelude GoStrings FlowTypes.
Import GoInt GoTime.

Local Open Scope Z_scope.

(** ** Data *)

Record Enrichment := mkEnrichment {
  SrcNamespace : string;
  SrcWorkloadKind : string;
  SrcWorkloadName : string;
  DstNamespace : string;
  DstKind : string;
  DstName : string;
  BackendWorkloadNamespace : string;
  BackendWorkloadKind : string;
  BackendWorkloadName : string;
  BackendPodNamespace : string;
  BackendPodName : string
}.

Definition noEnrichment : Enrichment :=
  {| SrcNamespace := ""; SrcWorkloadKind := ""; SrcWorkloadName := ""; DstNamespace := "";
     DstKind := ""; DstName := ""; BackendWorkloadNamespace := ""; BackendWorkloadKind := "";
     BackendWorkloadName := ""; BackendPodNamespace := ""; BackendPodName := "" |}.

Record ListOpts := mkListOpts {
  Since : Z;
  Limit : Z;
  Offset : Z;
  opt_Namespace : string;
  opt_EventKind : Z;
  opt_SrcWorkloadKind : string;
  opt_DstKind : string
}.

Abbreviation row := insightsv1.EnrichedFlowEvent.

(** The slice holds pointers; [None] is a nil one. *)
Record Store := mkStore {
  events : list (option row);
  maxEvents : Z;
  maxAge : Z;
  sendCursor : nat;
  droppedUnsent : Z;
  lastDropReason : string
}.

Definition NewStore (maxEvents maxAge : Z) : Store :=
  {| events := [];
     maxEvents := if maxEvents <=? 0 then 100000 else maxEvents;
     maxAge := if maxAge <=? 0 then 15 * Minute else maxAge;
     sendCursor := 0; droppedUnsent := 0; lastDropReason := "" |}.

Definition MaxAge (s : Store) : Z := maxAge s.

(** ** Conversion: [convert.go] *)

Definition cloneWorkloadRef (w : option aggregv1.WorkloadRef) : option insightsv1.WorkloadRef :=
  (fun w => {| insightsv1.Namespace := aggregv1.Namespace w; insightsv1.Pod := aggregv1.Pod w;
               insightsv1.Container := aggregv1.Container w |}) <$> w.

Definition cloneEndpoint (e : option aggregv1.Endpoint) : option insightsv1.Endpoint :=
  (fun e => {| insightsv1.Addr := aggregv1.Addr e; insightsv1.Port := i32 (aggregv1.Port e) |}) <$> e.

Definition cloneDnsDetails (d : option aggregv1.DnsDetails) : option insightsv1.DnsDetails :=
  (fun d => {| insightsv1.Name := aggregv1.Name d; insightsv1.Qtype := aggregv1.Qtype d;
               insightsv1.Rcode := aggregv1.Rcode d; insightsv1.Addresses := aggregv1.Addresses d;
               insightsv1.QueryId := i32 (aggregv1.QueryId d) |}) <$> d.

Definition nonempty (s : string) : bool := negb (bool_decide (s = ""%string)).

Definition enrichedFromEvent (nodeName agentID : string) (event : aggregv1.FlowEvent)
    (enrich : Enrichment) : row :=
  {| insightsv1.NodeName := nodeName;
     insightsv1.AgentId := agentID;
     insightsv1.EventKind := aggregv1.EventKind event;
     insightsv1.Protocol := aggregv1.Protocol event;
     insightsv1.TimestampUnixNano := aggregv1.TimestampUnixNano event;
     insightsv1.Src := cloneWorkloadRef (aggregv1.Src event);
     insightsv1.SrcWorkload :=
       if nonempty (SrcNamespace enrich) || nonempty (SrcWorkloadKind enrich) || nonempty (SrcWorkloadName enrich)
       then Some {| insightsv1.RefNamespace := SrcNamespace enrich; insightsv1.Kind := SrcWorkloadKind enrich;
                    insightsv1.RefName := SrcWorkloadName enrich |}
       else None;
     insightsv1.SrcEndpoint := cloneEndpoint (aggregv1.SrcEndpoint event);
     insightsv1.Dst := cloneEndpoint (aggregv1.Dst event);
     insightsv1.DstRef :=
       if nonempty (DstKind enrich) || nonempty (DstName enrich)
       then Some {| insightsv1.RefNamespace := DstNamespace enrich; insightsv1.Kind := DstKind enrich;
                    insightsv1.RefName := DstName enrich |}
       else None;
     insightsv1.BytesSent := i64 (aggregv1.BytesSent event);
     insightsv1.BytesReceived := i64 (aggregv1.BytesReceived event);
     insightsv1.Dns := cloneDnsDetails (aggregv1.Dns event);
     insightsv1.BackendWorkload :=
       if nonempty (BackendWorkloadKind enrich) || nonempty (BackendWorkloadName enrich)
       then Some {| insightsv1.RefNamespace := BackendWorkloadNamespace enrich;
                    insightsv1.Kind := BackendWorkloadKind enrich;
                    insightsv1.RefName := BackendWorkloadName enrich |}
       else None;
     insightsv1.BackendPod :=
       if nonempty (BackendPodName enrich)
       then Some {| insightsv1.Namespace := BackendPodNamespace enrich;
                    insightsv1.Pod := BackendPodName enrich; insightsv1.Container := "" |}
       else None |}.

Definition isAcceptableEvent (event : aggregv1.FlowEvent) : bool :=
  if decide (aggregv1.GetPod (aggregv1.Src event) = ""%string) then false
  else if aggregv1.Protocol event =? aggregv1.PROTOCOL_DNS then
    nonempty (aggregv1.GetName (aggregv1.Dns event))
  else nonempty (aggregv1.GetAddr (aggregv1.Dst event)).

(** ** Retention *)

Definition adjustCursorOnDrop (droppedFromFront : nat) (reason : string) (s : Store) : Store :=
  if decide (droppedFromFront = 0%nat) then s
  else
    let '(cursor, lostUnsent) :=
      if (droppedFromFront <=? sendCursor s)%nat then ((sendCursor s - droppedFromFront)%nat, 0%nat)
      else (0%nat, (droppedFromFront - sendCursor s)%nat) in
    if (0 <? lostUnsent)%nat then
      {| events := events s; maxEvents := maxEvents s; maxAge := maxAge s; sendCursor := cursor;
         droppedUnsent := droppedUnsent s + Z.of_nat lostUnsent; lastDropReason := reason |}
    else
      {| events := events s; maxEvents := maxEvents s; maxAge := maxAge s; sendCursor := cursor;
         droppedUnsent := droppedUnsent s; lastDropReason := lastDropReason s |}.

Definition set_events (l : list (option row)) (s : Store) : Store :=
  {| events := l; maxEvents := maxEvents s; maxAge := maxAge s; sendCursor := sendCursor s;
     droppedUnsent := droppedUnsent s; lastDropReason := lastDropReason s |}.

Definition row_time (e : option row) : Z := from_ptr 0 insightsv1.TimestampUnixNano e.

(** How many events at the front are older than the cutoff. *)
Fixpoint count_old (cutoff : Z) (l : list (option row)) : nat :=
  match l with
  | [] => 0
  | e :: l' => if row_time e <? cutoff then S (count_old cutoff l') else 0
  end.

Definition pruneLocked (now : Z) (s : Store) : Store :=
  if (maxAge s <=? 0) || (lenZ (events s) =? 0) then s
  else
    let cutoff := now - maxAge s in
    let start := count_old cutoff (events s) in
    if (0 <? start)%nat
    then adjustCursorOnDrop start "max_age" (set_events (drop start (events s)) s)
    else s.

Definition enforceMaxLocked (s : Store) : Store :=
  let overflow := lenZ (events s) - maxEvents s in
  if overflow <=? 0 then s
  else adjustCursorOnDrop (Z.to_nat overflow) "max_events"
         (set_events (drop (Z.to_nat overflow) (events s)) s).

(** ** Ingest *)

Section append.
Context {St : Type}.

(** The enrichment callback keeps state of its own and may panic. *)
Definition enricher : Type := St -> aggregv1.FlowEvent -> go (St * Enrichment).

Definition defaultEnrichment (event : aggregv1.FlowEvent) : Enrichment :=
  {| SrcNamespace := aggregv1.GetNamespace (aggregv1.Src event); SrcWorkloadKind := "Pod";
     SrcWorkloadName := aggregv1.GetPod (aggregv1.Src event); DstNamespace := ""; DstKind := "";
     DstName := ""; BackendWorkloadNamespace := ""; BackendWorkloadKind := "";
     BackendWorkloadName := ""; BackendPodNamespace := ""; BackendPodName := "" |}.

Fixpoint build_rows (enrich : option enricher) (nodeName agentID : string)
    (es : list (option aggregv1.FlowEvent)) (st : St) : go (St * list row) :=
  match es with
  | [] => Ret (st, [])
  | None :: es' => build_rows enrich nodeName agentID es' st
  | Some event :: es' =>
      if isAcceptableEvent event then
        '(st1, enrichment) ←
          match enrich with
          | Some f => f st event
          | None => Ret (st, defaultEnrichment event)
          end;
        '(st2, rows) ← build_rows enrich nodeName agentID es' st1;
        Ret (st2, enrichedFromEvent nodeName agentID event enrichment :: rows)
      else build_rows enrich nodeName agentID es' st
  end.

(** The critical section of [AppendBatch]. *)
Definition append_rows (now : Z) (rows : list row) (s : Store) : Store :=
  enforceMaxLocked (pruneLocked now (set_events (events s ++ (Some <$> rows)) s)).

Definition AppendBatch (now : Z) (batch : option aggregv1.FlowEventBatch)
    (enrich : option enricher) (st : St) (s : Store) : go (St * Store * (Z * list row)) :=
  match batch with
  | None => Ret (st, s, (0, []))
  | Some b =>
      '(st1, rows) ← build_rows enrich (aggregv1.NodeName b) (aggregv1.AgentId b) (aggregv1.Events b) st;
      match rows with
      | [] => Ret (st1, s, (0, []))
      | _ => Ret (st1, append_rows now rows s, (lenZ rows, rows))
      end
  end.
End append.
Arguments enricher : clear implicits.

(** ** Reading and sending *)

Definition UnsentCount (s : Store) : Z :=
  if (length (events s) <=? sendCursor s)%nat then 0
  else lenZ (events s) - Z.of_nat (sendCursor s).

Fixpoint oldest_age (now : Z) (l : list (option row)) : Z :=
  match l with
  | [] => 0
  | None :: l' => oldest_age now l'
  | Some e :: _ =>
      let ts := insightsv1.TimestampUnixNano e in
      if ts <=? 0 then 0
      else let age := Sub now ts in if age <? 0 then 0 else age
  end.

Definition OldestUnsentAge (now : Z) (s : Store) : Z :=
  oldest_age now (drop (sendCursor s) (events s)).

Definition SendCursor (s : Store) : nat := sendCursor s.

Fixpoint skip_nil (l : list (option row)) : list (option row) :=
  match l with
  | None :: l' => skip_nil l'
  | _ => l
  end.

(** The events of one node and agent at the front, at most [room] of them. *)
Fixpoint take_batch (node agent : string) (room : nat) (l : list (option row)) : list row :=
  match room, l with
  | O, _ => []
  | _, [] => []
  | S _, None :: l' => take_batch node agent room l'
  | S room', Some e :: l' =>
      if decide (insightsv1.NodeName e = node /\ insightsv1.AgentId e = agent)
      then e :: take_batch node agent room' l'
      else []
  end.

Definition PeekUnsentBatch (max : Z) (s : Store) : option (string * string * list row) :=
  let max := if max <=? 0 then 100 else max in
  match skip_nil (drop (sendCursor s) (events s)) with
  | Some e :: l' =>
      let nodeName := insightsv1.NodeName e in
      let agentID := insightsv1.AgentId e in
      match take_batch nodeName agentID (Z.to_nat max) (Some e :: l') with
      | [] => None
      | rows => Some (nodeName, agentID, rows)
      end
  | _ => None
  end.

Definition AdvanceSendCursor (n : Z) (s : Store) : Store :=
  if n <=? 0 then s
  else
    {| events := events s; maxEvents := maxEvents s; maxAge := maxAge s;
       sendCursor := (sendCursor s + Z.to_nat n) `min` length (events s);
       droppedUnsent := droppedUnsent s; lastDropReason := lastDropReason s |}.

Definition TakeDroppedUnsent (s : Store) : Store * (Z * string) :=
  ({| events := events s; maxEvents := maxEvents s; maxAge := maxAge s; sendCursor := sendCursor s;
      droppedUnsent := 0; lastDropReason := "" |},
   (droppedUnsent s, lastDropReason s)).

Definition Count (s : Store) : Z := lenZ (events s).

(** [ListEvents] *)
Definition list_match (opts : ListOpts) (event : row) : bool :=
  if (0 <? Since opts) && (insightsv1.TimestampUnixNano event <=? Since opts) then false
  else if nonempty (opt_Namespace opts)
          && negb (bool_decide (insightsv1.GetNamespace (insightsv1.Src event) = opt_Namespace opts))
          && negb (bool_decide (insightsv1.GetRefNamespace (insightsv1.DstRef event) = opt_Namespace opts))
  then false
  else if negb (opt_EventKind opts =? insightsv1.FLOW_EVENT_KIND_UNSPECIFIED)
          && negb (insightsv1.EventKind event =? opt_EventKind opts)
  then false
  else if nonempty (opt_SrcWorkloadKind opts)
          && negb (bool_decide (insightsv1.GetKind (insightsv1.SrcWorkload event) = opt_SrcWorkloadKind opts))
  then false
  else if nonempty (opt_DstKind opts)
          && negb (bool_decide (insightsv1.GetKind (insightsv1.DstRef event) = opt_DstKind opts))
  then false
  else true.

Fixpoint list_loop (opts : ListOpts) (limit skipped : Z) (out : list row) (l : list (option row)) : list row :=
  match l with
  | [] => out
  | None :: l' => list_loop opts limit skipped out l'
  | Some event :: l' =>
      if list_match opts event then
        if skipped <? Offset opts then list_loop opts limit (skipped + 1) out l'
        else
          let out := out ++ [event] in
          if limit <=? lenZ out then out else list_loop opts limit skipped out l'
      else list_loop opts limit skipped out l'
  end.

(** [make([]*T, 0, limit)] panics when the array of pointers would exceed the
    address space of a 64-bit Linux process, 2^48 bytes. *)
Definition make_pointers (cap : Z) : go unit :=
  if (cap <? 0) || (2 ^ 48 <? cap * 8) then Panic else Ret ().

Definition ListEvents (opts : ListOpts) (s : Store) : go (list row) :=
  let limit := if Limit opts <=? 0 then lenZ (events s) else Limit opts in
  make_pointers limit ≫= fun _ =>
  Ret (list_loop opts limit 0 [] (events s)).

(** ** The contract: a queue of unsent events

    What the store promises its clients: the events past the cursor, and how
    many of them retention has removed unsent. *)
Definition unsent (s : Store) : list (option row) := drop (sendCursor s) (events s).

Record wf (s : Store) : Prop := {
  wf_cursor : (sendCursor s <= length (events s))%nat;
  wf_nonnil : Forall is_Some (events s);
  wf_max : 0 < maxEvents s;
  wf_age : 0 < maxAge s;
  wf_bound : lenZ (events s) <= maxEvents s;
  wf_dropped : 0 <= droppedUnsent s
}.

(** [s'] is [s] with the first [k] unsent events lost. *)
Record loses (k : nat) (s s' : Store) : Prop := {
  loses_unsent : unsent s' = drop k (unsent s);
  loses_count : droppedUnsent s' = droppedUnsent s + Z.of_nat k;
  loses_maxEvents : maxEvents s' = maxEvents s;
  loses_maxAge : maxAge s' = maxAge s;
  loses_cursor : (sendCursor s' <= length (events s'))%nat;
  loses_length : (k <= length (unsent s))%nat
}.

(** ** Lemmas *)

Lemma loses_refl s : (sendCursor s <= length (events s))%nat -> loses 0 s s.
Proof. intros H. split; try done; try lia. Qed.

Lemma loses_trans j k s1 s2 s3 : loses j s1 s2 -> loses k s2 s3 -> loses (j + k) s1 s3.
Proof.
  intros [H1 H2 H3 H4 H5 H6] [K1 K2 K3 K4 K5 K6].
  rewrite H1, length_drop in K6. split; try congruence; try lia.
  rewrite K1, H1, drop_drop. done.
Qed.

(** Dropping [n] events from the front loses those of them past the cursor. *)
Lemma drop_front_loses n reason s :
  (n <= length (events s))%nat -> (sendCursor s <= length (events s))%nat ->
  let s' := adjustCursorOnDrop n reason (set_events (drop n (events s)) s) in
  loses (n - sendCursor s) s s' /\ events s' = drop n (events s).
Proof.
  intros Hn Hc s'. subst s'. unfold adjustCursorOnDrop. simpl.
  case_decide as H0.
  { subst n. simpl. rewrite drop_0. split; [|done]. destruct s. by apply loses_refl. }
  destruct (n <=? sendCursor s)%nat eqn:E; simpl.
  - apply Nat.leb_le in E. replace (n - sendCursor s)%nat with 0%nat by lia. split; [|done].
    split; unfold unsent; simpl; rewrite ?drop_drop, ?length_drop; try done; try lia.
    by replace (n + (sendCursor s - n))%nat with (sendCursor s + 0)%nat by lia.
  - apply Nat.leb_gt in E. rewrite (proj2 (Nat.ltb_lt _ _)) by lia. split; [|done].
    split; unfold unsent; simpl; rewrite ?drop_drop, ?length_drop; try done; try lia.
    f_equal. lia.
Qed.

Lemma count_old_le cutoff l : (count_old cutoff l <= length l)%nat.
Proof. induction l as [|e l IH]; simpl; [done|]. destruct (_ <? _); lia. Qed.

(** Pruning stops at the first event that is recent enough. *)
Lemma count_old_head cutoff l e :
  head (drop (count_old cutoff l) l) = Some e -> cutoff <= row_time e.
Proof.
  induction l as [|x l IH]; simpl; [done|].
  destruct (row_time x <? cutoff) eqn:E; [exact IH|]. to_prop. by intros [= <-].
Qed.

Lemma pruneLocked_spec now s :
  0 < maxAge s -> (sendCursor s <= length (events s))%nat ->
  exists k, loses k s (pruneLocked now s) /\
    events (pruneLocked now s) = drop (count_old (now - maxAge s) (events s)) (events s).
Proof.
  intros Hage Hc. unfold pruneLocked. rewrite (proj2 (Z.leb_gt _ _)) by lia. cbn [orb].
  destruct (lenZ (events s) =? 0) eqn:E; to_prop.
  { exists 0%nat. split; [by apply loses_refl|]. unfold lenZ in E. by destruct (events s). }
  cbv zeta. destruct (0 <? _)%nat eqn:E0.
  - eexists. apply drop_front_loses; [apply count_old_le|done].
  - apply Nat.ltb_ge in E0. exists 0%nat. split; [by apply loses_refl|].
    by replace (count_old _ _) with 0%nat by lia.
Qed.

Lemma enforceMaxLocked_drops s :
  0 < maxEvents s -> (sendCursor s <= length (events s))%nat ->
  exists k, loses k s (enforceMaxLocked s) /\
    events (enforceMaxLocked s) = drop (Z.to_nat (lenZ (events s) - maxEvents s)) (events s) /\
    lenZ (events (enforceMaxLocked s)) = Z.min (lenZ (events s)) (maxEvents s).
Proof.
  intros Hmax Hc. unfold enforceMaxLocked. cbv zeta. destruct (_ <=? 0) eqn:E; to_prop.
  { exists 0%nat. split; [by apply loses_refl|]. split; [|lia].
    by replace (Z.to_nat _) with 0%nat by lia. }
  destruct (drop_front_loses (Z.to_nat (lenZ (events s) - maxEvents s)) "max_events" s) as [H1 H2];
    [unfold lenZ in *; lia|done|].
  eexists. split; [exact H1|]. split; [exact H2|]. rewrite H2, lenZ_drop; lia.
Qed.

(** What retention keeps of a buffer: what follows its old front, and of that the
    newest [max] events. *)
Definition retain (cutoff max : Z) (l : list (option row)) : list (option row) :=
  let l1 := drop (count_old cutoff l) l in
  drop (Z.to_nat (lenZ l1 - max)) l1.

(** Appending [rows] to a well-formed store loses a prefix of what was unsent
    with [rows] behind it, and nothing else. *)
Lemma append_rows_spec now rows s :
  wf s -> exists k,
    unsent (append_rows now rows s) = drop k (unsent s ++ (Some <$> rows)) /\
    (k <= length (unsent s) + length rows)%nat /\
    droppedUnsent (append_rows now rows s) = droppedUnsent s + Z.of_nat k /\
    wf (append_rows now rows s) /\
    events (append_rows now rows s) = retain (now - maxAge s) (maxEvents s) (events s ++ (Some <$> rows)).
Proof.
  intros [Hc Hn Hm Ha Hb Hd]. unfold append_rows.
  set (s1 := set_events (events s ++ (Some <$> rows)) s).
  assert (Hc1 : (sendCursor s1 <= length (events s1))%nat) by (simpl; rewrite length_app; lia).
  destruct (pruneLocked_spec now s1 Ha Hc1) as (k1 & L1 & E1).
  destruct (enforceMaxLocked_drops (pruneLocked now s1)) as (k2 & L2 & E2 & Hlen).
  { by rewrite (loses_maxEvents _ _ _ L1). }
  { apply L1. }
  pose proof (loses_trans _ _ _ _ _ L1 L2) as L. exists (k1 + k2)%nat.
  assert (Hu : unsent s1 = unsent s ++ (Some <$> rows)).
  { unfold unsent. simpl. by rewrite drop_app_le. }
  destruct L as [H1 H2 H3 H4 H5 H6]. rewrite Hu in H1, H6. rewrite length_app, length_fmap in H6.
  split; [done|]. split; [done|]. split; [done|].
  split; [|by rewrite E2, E1, (loses_maxEvents _ _ _ L1)].
  split; rewrite ?H2, ?H3, ?H4; simpl; try done; try lia.
  - rewrite E2, E1. do 2 apply Forall_drop. simpl. apply Forall_app. split; [done|].
    apply Forall_fmap, Forall_true. by eexists.
  - rewrite Hlen, (loses_maxEvents _ _ _ L1). simpl. lia.
Qed.

Lemma wf_NewStore n age : wf (NewStore n age).
Proof.
  unfold NewStore, Minute, Second. split; simpl; try done; try lia; try (by constructor).
  - destruct (n <=? 0) eqn:E; to_prop; lia.
  - destruct (age <=? 0) eqn:E; to_prop; lia.
  - unfold lenZ. simpl. destruct (n <=? 0) eqn:E; to_prop; lia.
Qed.

Lemma wf_AdvanceSendCursor n s : wf s -> wf (AdvanceSendCursor n s).
Proof.
  intros [Hc Hn Hm Ha Hb Hd]. unfold AdvanceSendCursor. destruct (_ <=? _); [done|].
  split; simpl; try done. lia.
Qed.

Lemma wf_TakeDroppedUnsent s : wf s -> wf (TakeDroppedUnsent s).1.
Proof. intros [Hc Hn Hm Ha Hb Hd]. split; simpl; try done. Qed.

Lemma AdvanceSendCursor_unsent n s :
  0 <= n -> wf s -> unsent (AdvanceSendCursor n s) = drop (Z.to_nat n) (unsent s).
Proof.
  intros Hn [Hc _ _ _ _ _]. unfold unsent, AdvanceSendCursor. destruct (_ <=? _) eqn:E; to_prop; simpl.
  { replace (Z.to_nat n) with 0%nat by lia. done. }
  rewrite drop_drop. destruct (Nat.le_gt_cases (sendCursor s + Z.to_nat n) (length (events s))) as [H|H].
  - by rewrite Nat.min_l by done.
  - rewrite Nat.min_r by lia. rewrite drop_all. symmetry. apply drop_ge. lia.
Qed.

Lemma unsent_nonnil s : wf s -> exists rows, unsent s = Some <$> rows.
Proof.
  intros [_ Hn _ _ _ _]. apply (Forall_drop _ (sendCursor s)) in Hn. unfold unsent.
  induction Hn as [|x l [r ->] _ [rows IH]]; [by exists []|]. exists (r :: rows). simpl. by f_equal.
Qed.

(** *** Building rows *)

Definition acceptable (e : option aggregv1.FlowEvent) : option aggregv1.FlowEvent :=
  match e with
  | Some e => if isAcceptableEvent e then Some e else None
  | None => None
  end.

(** Row [r] records event [e], whatever the enrichment. *)
Definition row_of (node agent : string) (e : aggregv1.FlowEvent) (r : row) : Prop :=
  exists en, r = enrichedFromEvent node agent e en.

Lemma build_rows_spec {St} (enrich : option (enricher St)) node agent es st st' rows :
  build_rows enrich node agent es st = Ret (st', rows) ->
  Forall2 (row_of node agent) (omap acceptable es) rows.
Proof.
  revert st rows. induction es as [|[e|] es IH]; intros st rows; simpl.
  - intros [= <- <-]. constructor.
  - destruct (isAcceptableEvent e); [|by eauto].
    intros ([st1 en] & _ & H)%go_bind_ret.
    apply go_bind_ret in H as ([st2 rows'] & Hr & [= <- <-]).
    constructor; [by exists en|]. by eapply IH.
  - by eauto.
Qed.

Lemma build_rows_returns {St} (f : enricher St) node agent es st :
  (forall st e, Some e ∈ es -> isAcceptableEvent e = true -> returns (f st e)) ->
  returns (build_rows (Some f) node agent es st).
Proof.
  revert st. induction es as [|[e|] es IH]; intros st Hf; simpl.
  - apply returns_ret.
  - destruct (isAcceptableEvent e) eqn:E; [|apply IH; intros; apply Hf; [by right|done]].
    apply returns_bind; [apply Hf; [by left|done]|]. intros [st1 en] _.
    apply returns_bind; [apply IH; intros; apply Hf; [by right|done]|]. intros [st2 rows] _.
    apply returns_ret.
  - apply IH. intros; apply Hf; [by right|done].
Qed.

(** *** Peeking *)

Lemma skip_nil_some rows : skip_nil (Some <$> rows) = Some <$> rows.
Proof. by destruct rows. Qed.

Definition same_origin (node agent : string) (r : row) : Prop :=
  insightsv1.NodeName r = node /\ insightsv1.AgentId r = agent.

Lemma take_batch_spec node agent room rows :
  exists k, take_batch node agent room (Some <$> rows) = take k rows /\
    Forall (same_origin node agent) (take k rows) /\ (k <= room)%nat /\ (k <= length rows)%nat /\
    (k = room \/ match drop k rows with r :: _ => ~ same_origin node agent r | [] => True end).
Proof.
  revert room. induction rows as [|r rows IH]; intros room.
  { exists 0%nat. simpl. split_and!; try done; try lia; first [by destruct room|by right|idtac]. }
  destruct room as [|room]; simpl.
  { exists 0%nat. simpl. split_and!; try done; try lia; auto. }
  case_decide as Hr.
  - destruct (IH room) as (k & Hk & Hf & H1 & H2 & H3). exists (S k). simpl.
    split_and!; try done; try lia; [f_equal; exact Hk|by constructor|destruct H3 as [->|H3]; auto].
  - exists 0%nat. simpl. split_and!; try done; try lia; auto.
Qed.

(** *** Listing *)

(** What a listing asks for: of the matching events, those past the offset, at
    most [limit]. *)
Definition listing (opts : ListOpts) (limit : Z) (l : list (option row)) : list row :=
  take (Z.to_nat limit) (drop (Z.to_nat (Offset opts)) (filter (fun r => list_match opts r = true) (omap id l))).

Lemma list_loop_past opts limit skipped out l :
  Offset opts <= skipped -> 0 < limit -> lenZ out < limit ->
  list_loop opts limit skipped out l
  = out ++ take (Z.to_nat (limit - lenZ out)) (filter (fun r => list_match opts r = true) (omap id l)).
Proof.
  intros Hs Hl. revert out. induction l as [|[e|] l IH]; intros out Ho; simpl.
  - by rewrite filter_nil, take_nil, app_nil_r.
  - rewrite filter_cons. destruct (list_match opts e) eqn:Em.
    + rewrite (decide_True (P := true = true)) by done. rewrite (proj2 (Z.ltb_ge _ _)) by lia.
      assert (Hlen : lenZ (out ++ [e]) = lenZ out + 1) by (rewrite lenZ_app; done).
      replace (Z.to_nat (limit - lenZ out)) with (S (Z.to_nat (limit - lenZ (out ++ [e])))) by lia.
      simpl. destruct (limit <=? lenZ (out ++ [e])) eqn:E; to_prop.
      * replace (Z.to_nat _) with 0%nat by lia. done.
      * rewrite IH by lia. by rewrite <-app_assoc.
    + rewrite (decide_False (P := false = true)) by done. by apply IH.
  - by apply IH.
Qed.

Lemma list_loop_spec opts limit skipped l :
  0 <= skipped -> 0 < limit ->
  list_loop opts limit skipped [] l
  = take (Z.to_nat limit) (drop (Z.to_nat (Offset opts - skipped)) (filter (fun r => list_match opts r = true) (omap id l))).
Proof.
  intros Hs Hl. revert skipped Hs. induction l as [|[e|] l IH]; intros skipped Hs.
  - simpl. by rewrite filter_nil, drop_nil, take_nil.
  - destruct (Z.le_gt_cases (Offset opts) skipped) as [Ho|Ho].
    { rewrite list_loop_past by done. unfold lenZ. simpl length.
      replace (Z.to_nat (Offset opts - skipped)) with 0%nat by lia. rewrite drop_0. simpl. f_equal. lia. }
    simpl. rewrite filter_cons. destruct (list_match opts e).
    + rewrite (decide_True (P := true = true)) by done. rewrite (proj2 (Z.ltb_lt _ _)) by lia.
      rewrite IH by lia.
      by replace (Z.to_nat (Offset opts - skipped)) with (S (Z.to_nat (Offset opts - (skipped + 1)))) by lia.
    + rewrite (decide_False (P := false = true)) by done. by apply IH.
  - simpl. by apply IH.
Qed.

Lemma peek_spec max s :
  wf s ->
  match PeekUnsentBatch max s with
  | None => unsent s = []
  | Some (node, agent, rows) =>
      rows <> [] /\ Forall (same_origin node agent) rows /\
      lenZ rows <= (if max <=? 0 then 100 else max) /\
      unsent s = (Some <$> rows) ++ unsent (AdvanceSendCursor (lenZ rows) s) /\
      (lenZ rows = (if max <=? 0 then 100 else max) \/
       match unsent (AdvanceSendCursor (lenZ rows) s) with
       | Some r :: _ => ~ same_origin node agent r
       | _ => True
       end)
  end.
Proof.
  intros Hwf. unfold PeekUnsentBatch. fold (unsent s). cbv zeta.
  destruct (unsent_nonnil s Hwf) as [us Hus]. rewrite Hus, skip_nil_some.
  destruct us as [|r us]; [done|]. set (m := if max <=? 0 then 100 else max).
  assert (Hm : 0 < m) by (subst m; destruct (max <=? 0) eqn:E; to_prop; lia).
  cbn [fmap list_fmap].
  destruct (take_batch_spec (insightsv1.NodeName r) (insightsv1.AgentId r) (Z.to_nat m) (r :: us))
    as (k & Hk & Hf & H1 & H2 & H3). cbn [fmap list_fmap] in Hk. rewrite Hk.
  destruct k as [|k]; [destruct H3 as [H3|H3]; [lia|by destruct H3]|].
  change (take (S k) (r :: us)) with (r :: take k us) in *. cbn [length] in H2. cbv beta iota.
  assert (Hlen : lenZ (r :: take k us) = Z.of_nat (S k)).
  { unfold lenZ. simpl. rewrite length_take. lia. }
  rewrite Hlen, AdvanceSendCursor_unsent by (done || lia). rewrite Hus, Nat2Z.id.
  rewrite <-fmap_drop. split; [done|]. split; [done|]. split; [lia|]. split.
  - rewrite <-fmap_app. simpl. by rewrite take_drop.
  - destruct H3 as [H3|H3]; [left; lia|right]. by destruct (drop (S k) (r :: us)).
Qed.

(** *** Refinement *)

(** The abstract store: the rows waiting to be sent and the count of those lost. *)
Record queue := mkQueue {
  pending : list row;
  lost : Z
}.

Inductive op : Type :=
| OpAppend (now : Z) (rows : list row)
| OpAdvance (n : Z)
| OpTake.

(** A retention step may lose a prefix, never anything else, and counts it. *)
Inductive queue_step : queue -> op -> queue -> Prop :=
| q_append q now rows k :
    (k <= length (pending q) + length rows)%nat ->
    queue_step q (OpAppend now rows)
      {| pending := drop k (pending q ++ rows); lost := lost q + Z.of_nat k |}
| q_advance q n :
    queue_step q (OpAdvance n) {| pending := drop (Z.to_nat n) (pending q); lost := lost q |}
| q_take q :
    queue_step q OpTake {| pending := pending q; lost := 0 |}.

Inductive queue_steps : queue -> list op -> queue -> Prop :=
| q_refl q : queue_steps q [] q
| q_cons q o q' os q'' : queue_step q o q' -> queue_steps q' os q'' -> queue_steps q (o :: os) q''.

Definition run_op (o : op) (s : Store) : Store :=
  match o with
  | OpAppend now rows => append_rows now rows s
  | OpAdvance n => AdvanceSendCursor n s
  | OpTake => (TakeDroppedUnsent s).1
  end.

Definition abs (s : Store) : queue := {| pending := omap id (unsent s); lost := droppedUnsent s |}.

Lemma omap_id_drop (k : nat) (l : list (option row)) :
  Forall is_Some l -> omap id (drop k l) = drop k (omap id l).
Proof.
  intros H. revert k. induction H as [|x l [r ->] _ IH]; intros k; [by destruct k|].
  destruct k; simpl; [done|]. apply IH.
Qed.

Lemma unsent_is_Some s : wf s -> Forall is_Some (unsent s).
Proof. intros H. apply Forall_drop, H. Qed.

Lemma run_op_refines o s : wf s -> wf (run_op o s) /\ queue_step (abs s) o (abs (run_op o s)).
Proof.
  intros Hwf. pose proof (unsent_is_Some s Hwf) as Hs. destruct o as [now rows|n|]; simpl.
  - destruct (append_rows_spec now rows s Hwf) as (k & Hu & Hk & Hd & Hwf' & _). split; [done|].
    unfold abs. rewrite Hu, Hd, omap_id_drop, omap_app, omap_id_fmap_Some.
    + apply q_append. simpl. destruct (unsent_nonnil s Hwf) as [rs Hrs].
      rewrite Hrs, omap_id_fmap_Some in *. by rewrite length_fmap in Hk.
    + apply Forall_app. split; [done|]. apply Forall_fmap, Forall_true. by eexists.
  - split; [by apply wf_AdvanceSendCursor|]. unfold abs.
    assert (He : unsent (AdvanceSendCursor n s) = drop (Z.to_nat n) (unsent s)).
    { destruct (Z.le_gt_cases 0 n) as [Hn|Hn]; [by apply AdvanceSendCursor_unsent|].
      unfold AdvanceSendCursor. rewrite (proj2 (Z.leb_le _ _)) by lia.
      by replace (Z.to_nat n) with 0%nat by lia. }
    rewrite He, omap_id_drop by done.
    replace (droppedUnsent (AdvanceSendCursor n s)) with (droppedUnsent s); [apply q_advance|].
    unfold AdvanceSendCursor. by destruct (_ <=? _).
  - split; [by apply wf_TakeDroppedUnsent|]. apply q_take.
Qed.

(** ** Properties *)

(** C2. The store implements the bounded drop-oldest queue of unsent events: from
    any well-formed state, any sequence of appends, cursor advances and takes of
    the drop count steps the abstract queue accordingly, where an append may
    lose only a prefix of what is pending and counts exactly what it loses; and
    the state stays well formed (cursor in range, no nil entry, at most
    [maxEvents] events). *)
Theorem store_refines_queue (ops : list op) (s : Store) :
  wf s ->
  wf (foldl (fun s o => run_op o s) s ops) /\
  queue_steps (abs s) ops (abs (foldl (fun s o => run_op o s) s ops)).
Proof.
  revert s. induction ops as [|o ops IH]; intros s Hwf; simpl; [split; [done|constructor]|].
  destruct (run_op_refines o s Hwf) as [Hwf' Hstep]. destruct (IH _ Hwf') as [H1 H2].
  split; [done|]. by econstructor.
Qed.

(** [AppendBatch] keeps, in order, one row per acceptable event of the batch
    stamped with the batch's node and agent, reports their number, and leaves
    in the store what retention keeps of the old buffer followed by the rows:
    a front of expired events goes, and then all but the newest [maxEvents].
    The cursor and the drop count account for what was unsent. *)
Theorem AppendBatch_functional {St} now b (enrich : option (enricher St)) st s st' s' n rows :
  wf s -> AppendBatch now (Some b) enrich st s = Ret (st', s', (n, rows)) ->
  Forall2 (row_of (aggregv1.NodeName b) (aggregv1.AgentId b)) (omap acceptable (aggregv1.Events b)) rows /\
  n = lenZ rows /\ wf s' /\
  (exists k, unsent s' = drop k (unsent s ++ (Some <$> rows)) /\
             droppedUnsent s' = droppedUnsent s + Z.of_nat k) /\
  events s' = if decide (rows = []) then events s
              else retain (now - maxAge s) (maxEvents s) (events s ++ (Some <$> rows)).
Proof.
  intros Hwf. unfold AppendBatch. intros ([st1 rows1] & Hb & H)%go_bind_ret.
  apply build_rows_spec in Hb.
  assert (H' : (st', s', (n, rows)) =
    (st1, if decide (rows1 = []) then s else append_rows now rows1 s, (lenZ rows1, rows1))).
  { destruct rows1; by injection H as <- <- <- <-. }
  injection H' as -> -> -> ->. split; [done|]. split; [done|]. case_decide as Hr.
  - subst rows1. split; [done|]. split; [|done]. exists 0%nat. rewrite app_nil_r. split; [done|lia].
  - destruct (append_rows_spec now rows1 s Hwf) as (k & Hu & Hk & Hd & Hwf' & He). by eauto 10.
Qed.

(** Peeking returns nothing exactly when nothing is unsent; otherwise it returns
    the longest prefix of the unsent events that share the first one's node and
    agent and fit the batch size, so that advancing the cursor by its length
    leaves the rest. *)
Theorem PeekUnsentBatch_longest_prefix max s :
  wf s ->
  match PeekUnsentBatch max s with
  | None => unsent s = []
  | Some (node, agent, rows) =>
      rows <> [] /\ Forall (same_origin node agent) rows /\
      lenZ rows <= (if max <=? 0 then 100 else max) /\
      unsent s = (Some <$> rows) ++ unsent (AdvanceSendCursor (lenZ rows) s) /\
      (lenZ rows = (if max <=? 0 then 100 else max) \/
       match unsent (AdvanceSendCursor (lenZ rows) s) with
       | Some r :: _ => ~ same_origin node agent r
       | _ => True
       end)
  end.
Proof. exact (peek_spec max s). Qed.

(** [ListEvents] returns, in buffer order, the events that match every filter
    that is set, without the first [Offset] of them and at most [Limit]; it
    panics exactly when the requested limit exceeds what [make] can allocate. *)
Theorem ListEvents_spec opts s :
  (lenZ (events s) <= 2 ^ 45) ->
  ListEvents opts s =
    if 2 ^ 45 <? Limit opts then Panic
    else Ret (listing opts (if Limit opts <=? 0 then lenZ (events s) else Limit opts) (events s)).
Proof.
  intros Hlen. unfold ListEvents, make_pointers, listing. cbv zeta.
  pose proof (lenZ_nonneg (events s)) as H0.
  set (limit := if Limit opts <=? 0 then lenZ (events s) else Limit opts).
  destruct (2 ^ 45 <? Limit opts) eqn:E; to_prop.
  - assert (limit = Limit opts) as -> by (subst limit; by rewrite (proj2 (Z.leb_gt _ _)) by lia).
    rewrite (proj2 (Z.ltb_lt (2 ^ 48) _)) by lia. by rewrite orb_true_r.
  - assert (Hl : 0 <= limit <= 2 ^ 45) by (subst limit; destruct (_ <=? _) eqn:?; to_prop; lia).
    rewrite !(proj2 (Z.ltb_ge _ _)) by lia. cbn [orb mbind go_bind]. f_equal.
    destruct (Z.eq_dec limit 0) as [Hz|Hz].
    + assert (He : events s = []).
      { subst limit. unfold lenZ in Hz. destruct (events s); [done|]. simpl in *.
        destruct (_ <=? _) eqn:E2; to_prop; lia. }
      rewrite He, Hz. simpl. by destruct (Z.to_nat (Offset opts)).
    + rewrite list_loop_spec by lia. by rewrite Z.sub_0_r.
Qed.

(** Enrichment loses nothing of an event: the counters, ports and query id that the
    row stores in signed fields convert back to the event's unsigned ones, and
    every other field is the event's own. *)
Theorem enrichedFromEvent_lossless node agent e en :
  in_u64 (aggregv1.BytesSent e) -> in_u64 (aggregv1.BytesReceived e) ->
  in_u32 (aggregv1.GetPort (aggregv1.Dst e)) ->
  let r := enrichedFromEvent node agent e en in
  u64 (insightsv1.BytesSent r) = aggregv1.BytesSent e /\
  u64 (insightsv1.BytesReceived r) = aggregv1.BytesReceived e /\
  from_ptr 0 (fun d => u32 (insightsv1.Port d)) (insightsv1.Dst r) = aggregv1.GetPort (aggregv1.Dst e) /\
  from_ptr ""%string insightsv1.Addr (insightsv1.Dst r) = aggregv1.GetAddr (aggregv1.Dst e) /\
  insightsv1.GetNamespace (insightsv1.Src r) = aggregv1.GetNamespace (aggregv1.Src e) /\
  from_ptr ""%string insightsv1.Name (insightsv1.Dns r) = aggregv1.GetName (aggregv1.Dns e) /\
  from_ptr [] insightsv1.Addresses (insightsv1.Dns r) = aggregv1.GetAddresses (aggregv1.Dns e).
Proof.
  intros Hs Hr Hp r. subst r. simpl. rewrite !u64_i64, !u64_id by done.
  split; [done|]. split; [done|]. split.
  - destruct (aggregv1.Dst e); [|done]. simpl in *. by rewrite u32_i32, u32_id.
  - split; [by destruct (aggregv1.Dst e)|]. split; [by destruct (aggregv1.Src e)|].
    by destruct (aggregv1.Dns e).
Qed.

(** ** Witnesses *)

Definition sample_flow (pod addr : string) (ts bytes : Z) : aggregv1.FlowEvent :=
  {| aggregv1.EventKind := aggregv1.FLOW_EVENT_KIND_TRAFFIC; aggregv1.Protocol := aggregv1.PROTOCOL_TCP;
     aggregv1.TimestampUnixNano := ts;
     aggregv1.Src := Some {| aggregv1.Namespace := "default"; aggregv1.Pod := pod; aggregv1.Container := "app" |};
     aggregv1.SrcEndpoint := None;
     aggregv1.Dst := Some {| aggregv1.Addr := addr; aggregv1.Port := 443 |};
     aggregv1.BytesSent := bytes; aggregv1.BytesReceived := 0; aggregv1.Dns := None |}.

Definition sample_row (node : string) (ts : Z) : row :=
  enrichedFromEvent node "agent" (sample_flow "client" "10.0.0.2" ts 1) noEnrichment.

(** A store of three rows, one of them sent. *)
Definition sample_store : Store :=
  AdvanceSendCursor 1
    (append_rows (100 * Second) [sample_row "a" 90000000000; sample_row "a" 91000000000; sample_row "b" 92000000000]
       (NewStore 3 (60 * Second))).

Lemma sample_store_wf : wf sample_store.
Proof.
  apply wf_AdvanceSendCursor. edestruct append_rows_spec as (k & _ & _ & _ & Hwf & _); [|exact Hwf].
  apply wf_NewStore.
Qed.

(** Two more rows arrive in a full store, a batch is acknowledged, drops are read. *)
Lemma store_refines_queue_witness :
  let ops := [OpAppend (101 * Second) [sample_row "b" 93000000000; sample_row "b" 94000000000]; OpAdvance 2; OpTake] in
  lost (abs (foldl (fun s o => run_op o s) sample_store (take 1 ops))) = 1 /\
  queue_steps (abs sample_store) ops (abs (foldl (fun s o => run_op o s) sample_store ops)).
Proof.
  intros ops. split; [vm_compute; reflexivity|].
  exact (proj2 (store_refines_queue ops sample_store sample_store_wf)).
Defined.

(** One event without a pod, one acceptable. *)
Lemma AppendBatch_functional_witness :
  let b := {| aggregv1.NodeName := "a"; aggregv1.AgentId := "agent";
              aggregv1.Events := [Some (sample_flow "" "10.0.0.2" 1 1); None;
                                  Some (sample_flow "client" "10.0.0.2" 95000000000 7)] |} in
  exists s' rows,
    AppendBatch (St := unit) (101 * Second) (Some b) None () sample_store = Ret ((), s', (1, rows)) /\
    wf s' /\ 1 = lenZ rows.
Proof.
  intros b.
  destruct (AppendBatch (St := unit) (101 * Second) (Some b) None () sample_store) as [[[[] s'] [n rows]]|] eqn:E.
  - destruct (AppendBatch_functional _ _ _ _ _ _ _ _ _ sample_store_wf E) as (_ & Hn & Hwf & _).
    assert (n = 1) as -> by (apply (f_equal (fun g => match g with Ret (_, _, (n, _)) => n | Panic => 0 end)) in E; vm_compute in E; symmetry; exact E).
    exists s', rows. split; [reflexivity|]. split; [exact Hwf|exact Hn].
  - exfalso. vm_compute in E. discriminate.
Defined.

(** The unsent events are of two nodes: only the first node's are peeked. *)
Lemma PeekUnsentBatch_longest_prefix_witness :
  wf sample_store /\
  match PeekUnsentBatch 10 sample_store with
  | None => unsent sample_store = []
  | Some (_, _, rows) => rows <> []
  end.
Proof.
  split; [exact sample_store_wf|].
  pose proof (PeekUnsentBatch_longest_prefix 10 sample_store sample_store_wf) as H.
  destruct (PeekUnsentBatch 10 sample_store) as [[[node agent] rows]|]; [exact (proj1 H)|exact H].
Defined.

Lemma ListEvents_spec_witness :
  let opts := {| Since := 90000000000; Limit := 1; Offset := 1; opt_Namespace := "default"; opt_EventKind := 0;
                 opt_SrcWorkloadKind := ""; opt_DstKind := "" |} in
  ListEvents opts sample_store = Ret (listing opts 1 (events sample_store)).
Proof.
  intros opts. refine (ListEvents_spec opts sample_store _). vm_compute. discriminate.
Defined.

Lemma enrichedFromEvent_lossless_witness :
  let e := sample_flow "client" "10.0.0.2" 1 (2 ^ 64 - 1) in
  insightsv1.BytesSent (enrichedFromEvent "a" "agent" e noEnrichment) = -1 /\
  u64 (insightsv1.BytesSent (enrichedFromEvent "a" "agent" e noEnrichment)) = 2 ^ 64 - 1.
Proof.
  intros e. split; [reflexivity|].
  apply (enrichedFromEvent_lossless "a" "agent" e noEnrichment); unfold in_u64, in_u32; simpl; lia.
Defined.
