(* ===== verification/UpstreamClient.v ===== *)
(** * The aggregator's upstream client

    [pkg/collector/upstream] of network-flow-aggregator: sends the store's
    unsent events to Insights over a gRPC stream, in batches of one node, and
    advances the store's cursor behind each batch the stream accepted; plus the
    address and TLS configuration of that stream. *)

From stdpp Require Import base decidable list gmap strings.
From Stdlib Require Import ZArith Lia Ascii.
From S2P Require Import Prelude GoStrings GoNet FlowTypes Reconnect FlowStore.
Import GoInt GoTime.

Local Open Scope Z_scope.

(** ** Addresses and TLS: [addr.go], [tls.go] *)

Definition normalizeGRPCAddr (addr : string) : string :=
  let addr := TrimSpace addr in
  let addr := TrimPrefix addr "http://" in
  TrimPrefix addr "https://".

Inductive TLSMode : Type := TLSModeAuto | TLSModeOn | TLSModeOff.

#[global] Instance TLSMode_eq_dec : EqDecision TLSMode.
Proof. solve_decision. Defined.

Definition ParseTLSMode (value : string) : TLSMode :=
  let v := ToLower (TrimSpace value) in
  if decide (v ∈ ["true"; "on"; "1"; "yes"]%string) then TLSModeOn
  else if decide (v ∈ ["false"; "off"; "0"; "no"]%string) then TLSModeOff
  else TLSModeAuto.

Record TLSConfig := mkTLSConfig {
  Mode : TLSMode;
  ServerName : string;
  CAFile : string
}.

Definition autoTLSEnabled (addr : string) : bool :=
  let addr := TrimSpace addr in
  if HasPrefix (ToLower addr) "https://" then true
  else
    match SplitHostPort (normalizeGRPCAddr addr) with
    | None => false
    | Some (_, port) => bool_decide (port = "443"%string)
    end.

Definition enabledFor (t : TLSConfig) (addr : string) : bool :=
  match Mode t with
  | TLSModeOn => true
  | TLSModeOff => false
  | TLSModeAuto => autoTLSEnabled addr
  end.

Definition brackets : list ascii := ["["; "]"]%char.

Definition hostFromGRPCAddr (addr : string) : string :=
  let addr := normalizeGRPCAddr addr in
  if decide (addr = ""%string) then ""%string
  else
    match SplitHostPort addr with
    | None => Trim addr brackets
    | Some (host, _) => Trim host brackets
    end.

Section tls.
(** [x509.CertPool] and reading one from a file. *)
Context {CertPool : Type} (loadCertPool : string -> result string CertPool).

Record tls_Config := mkTlsConfig {
  tls_MinVersion : Z;
  tls_ServerName : string;
  tls_RootCAs : option CertPool
}.

Definition VersionTLS12 : Z := 771.

(** [Ok None] is the nil configuration: a plaintext connection. *)
Definition buildTLSConfig (addr : string) (tlsCfg : TLSConfig) : result string (option tls_Config) :=
  if negb (enabledFor tlsCfg addr) then Ok None
  else
    let serverName := TrimSpace (ServerName tlsCfg) in
    let serverName := if decide (serverName = ""%string) then hostFromGRPCAddr addr else serverName in
    if decide (serverName = ""%string) then Err "insights grpc tls: server name is required"%string
    else if decide (CAFile tlsCfg = ""%string) then
      Ok (Some {| tls_MinVersion := VersionTLS12; tls_ServerName := serverName; tls_RootCAs := None |})
    else
      match loadCertPool (CAFile tlsCfg) with
      | Err e => Err ("insights grpc tls ca file: " +:+ e)%string
      | Ok pool =>
          Ok (Some {| tls_MinVersion := VersionTLS12; tls_ServerName := serverName; tls_RootCAs := Some pool |})
      end.

Inductive Credentials : Type :=
| Insecure
| TLSCredentials (config : tls_Config).

Definition transportCredentials (addr : string) (tlsCfg : TLSConfig) : result string Credentials :=
  match buildTLSConfig addr tlsCfg with
  | Err e => Err e
  | Ok None => Ok Insecure
  | Ok (Some config) => Ok (TLSCredentials config)
  end.
End tls.
Arguments tls_Config : clear implicits.
Arguments Credentials : clear implicits.

(** ** Client state *)

Record Config := mkConfig {
  InsightsAddr : string;
  Organization : string;
  Cluster : string;
  AuthToken : string;
  TLS : TLSConfig;
  BatchSize : Z;
  FlushInterval : Z;
  ReconnectBackoffMin : Z;
  ReconnectBackoffMax : Z
}.

(** The fields that [dropLogMu] guards. *)
Record DropLog := mkDropLog {
  dropLogNext : Z;
  pendingDropLogCount : Z;
  pendingDropLogReason : string
}.

(** The fields that [statsMu] guards. *)
Record SendStats := mkSendStats {
  slowSendLogNext : Z;
  sentEventsSinceLog : Z;
  sentBatchesSinceLog : Z;
  sessionSentEvents : Z;
  sessionSentBatches : Z;
  sessionConnectedAt : Z
}.

(** [store] is the store the server appends to. *)
Record Client := mkClient {
  cfg : Config;
  store : Store;
  flushCh : bool;
  dropLog : DropLog;
  stats : SendStats
}.

Definition statusLogInterval : Z := Minute.
Definition slowSendThreshold : Z := 5 * Second.

Definition or_default (z d : Z) : Z := if z <=? 0 then d else z.

Definition NewClient (c : Config) (st : Store) : Client :=
  {| cfg := {| InsightsAddr := normalizeGRPCAddr (InsightsAddr c); Organization := Organization c;
               Cluster := Cluster c; AuthToken := AuthToken c; TLS := TLS c;
               BatchSize := or_default (BatchSize c) 10000;
               FlushInterval := or_default (FlushInterval c) (10 * Second);
               ReconnectBackoffMin := or_default (ReconnectBackoffMin c) Second;
               ReconnectBackoffMax := or_default (ReconnectBackoffMax c) (30 * Second) |};
     store := st; flushCh := false;
     dropLog := {| dropLogNext := zeroTime; pendingDropLogCount := 0; pendingDropLogReason := "" |};
     stats := {| slowSendLogNext := zeroTime; sentEventsSinceLog := 0; sentBatchesSinceLog := 0;
                 sessionSentEvents := 0; sessionSentBatches := 0; sessionConnectedAt := zeroTime |} |}.

Definition set_store (s : Store) (c : Client) : Client :=
  {| cfg := cfg c; store := s; flushCh := flushCh c; dropLog := dropLog c; stats := stats c |}.

Definition set_flushCh (b : bool) (c : Client) : Client :=
  {| cfg := cfg c; store := store c; flushCh := b; dropLog := dropLog c; stats := stats c |}.

Definition set_dropLog (d : DropLog) (c : Client) : Client :=
  {| cfg := cfg c; store := store c; flushCh := flushCh c; dropLog := d; stats := stats c |}.

Definition set_stats (t : SendStats) (c : Client) : Client :=
  {| cfg := cfg c; store := store c; flushCh := flushCh c; dropLog := dropLog c; stats := t |}.

(** ** Operations *)

Definition signalFlush (c : Client) : Client := set_flushCh true c.

Definition Flush (c : Client) : Client := signalFlush c.

Definition NotifyAppended (c : Client) : Client :=
  if BatchSize (cfg c) <=? UnsentCount (store c) then signalFlush c else c.

(** The warning of [logDroppedUnsent] with its attributes. *)
Record DropWarning := mkDropWarning {
  warn_dropped : Z;
  warn_unsent_remaining : Z;
  warn_buffered : Z;
  warn_reason : string;
  warn_oldest_unsent_age : option Z
}.

(** [now] is the clock under the lock, [now'] the later reading of the age. *)
Definition logDroppedUnsent (now now' : Z) (c : Client) : Client * option DropWarning :=
  let '(st, (count, reason)) := TakeDroppedUnsent (store c) in
  let c := set_store st c in
  if count =? 0 then (c, None)
  else
    let d := dropLog c in
    let pendingCount := pendingDropLogCount d + count in
    let pendingReason := if decide (reason <> ""%string) then reason else pendingDropLogReason d in
    if Before now (dropLogNext d) then
      (set_dropLog {| dropLogNext := dropLogNext d; pendingDropLogCount := pendingCount;
                      pendingDropLogReason := pendingReason |} c, None)
    else
      let c := set_dropLog {| dropLogNext := now + statusLogInterval; pendingDropLogCount := 0;
                              pendingDropLogReason := "" |} c in
      let age := OldestUnsentAge now' (store c) in
      (c, Some {| warn_dropped := pendingCount; warn_unsent_remaining := UnsentCount (store c);
                  warn_buffered := Count (store c); warn_reason := pendingReason;
                  warn_oldest_unsent_age := if 0 <? age then Some age else None |}).

Definition beginSession (now : Z) (c : Client) : Client :=
  set_stats {| slowSendLogNext := slowSendLogNext (stats c); sentEventsSinceLog := 0;
               sentBatchesSinceLog := 0; sessionSentEvents := 0; sessionSentBatches := 0;
               sessionConnectedAt := now |} c.

Definition noteSent (events batches : Z) (c : Client) : Client :=
  if (events <=? 0) && (batches <=? 0) then c
  else
    let t := stats c in
    set_stats {| slowSendLogNext := slowSendLogNext t;
                 sentEventsSinceLog := sentEventsSinceLog t + events;
                 sentBatchesSinceLog := sentBatchesSinceLog t + batches;
                 sessionSentEvents := sessionSentEvents t + events;
                 sessionSentBatches := sessionSentBatches t + batches;
                 sessionConnectedAt := sessionConnectedAt t |} c.

Inductive ProgressLevel : Type := LogWarnStalled | LogInfoProgress.

Record ProgressLog := mkProgressLog {
  log_level : ProgressLevel;
  log_events : Z;
  log_batches : Z;
  log_unsent : Z;
  log_buffered : Z;
  log_oldest : option Z
}.

Definition maybeLogSendProgress (now : Z) (c : Client) : Client * option ProgressLog :=
  let t := stats c in
  let events := sentEventsSinceLog t in
  let batches := sentBatchesSinceLog t in
  let c := set_stats {| slowSendLogNext := slowSendLogNext t; sentEventsSinceLog := 0;
                        sentBatchesSinceLog := 0; sessionSentEvents := sessionSentEvents t;
                        sessionSentBatches := sessionSentBatches t;
                        sessionConnectedAt := sessionConnectedAt t |} c in
  let unsent := UnsentCount (store c) in
  let buffered := Count (store c) in
  if (events =? 0) && (batches =? 0) && (unsent =? 0) then (c, None)
  else
    let oldest := OldestUnsentAge now (store c) in
    let stalled := (events =? 0) && (0 <? unsent) && (statusLogInterval <=? oldest) in
    (c, Some {| log_level := if stalled then LogWarnStalled else LogInfoProgress;
                log_events := events; log_batches := batches; log_unsent := unsent;
                log_buffered := buffered; log_oldest := if 0 <? oldest then Some oldest else None |}).

(** [true] when the slow-send warning is written. *)
Definition noteSlowSend (now elapsed : Z) (c : Client) : Client * bool :=
  if elapsed <? slowSendThreshold then (c, false)
  else
    let t := stats c in
    if Before now (slowSendLogNext t) then (c, false)
    else
      (set_stats {| slowSendLogNext := now + statusLogInterval; sentEventsSinceLog := sentEventsSinceLog t;
                    sentBatchesSinceLog := sentBatchesSinceLog t; sessionSentEvents := sessionSentEvents t;
                    sessionSentBatches := sessionSentBatches t; sessionConnectedAt := sessionConnectedAt t |} c, true).

Definition sessionSent (c : Client) : Z := sessionSentEvents (stats c).

Definition sessionBatches (c : Client) : Z := sessionSentBatches (stats c).

Definition connectedFor (now : Z) (c : Client) : Z :=
  if IsZero (sessionConnectedAt (stats c)) then 0 else Sub now (sessionConnectedAt (stats c)).

Definition nextBackoff (c : Client) (current : Z) : Z :=
  next_backoff (ReconnectBackoffMax (cfg c)) current.

(** ** Sending *)

(** The clock's readings during one [sendPending]: in [beginSession] when a new
    session starts with it, in [logDroppedUnsent], and in round [i] when the send
    starts, when it has ended, and in [noteSlowSend]. *)
Record Clock := mkClock {
  clock_connected : Z;
  clock_drop : Z;
  clock_drop_age : Z;
  clock_started : nat -> Z;
  clock_ended : nat -> Z;
  clock_slow : nat -> Z
}.

Section stream.
Context {Stream : Type}
        (Send : Stream -> insightsv1.EnrichedFlowEventBatch -> Stream * option string).

Definition batch_msg (c : Client) (b : string * string * list row) : insightsv1.EnrichedFlowEventBatch :=
  {| insightsv1.Organization := Organization (cfg c); insightsv1.Cluster := Cluster (cfg c);
     insightsv1.BatchNodeName := b.1.1; insightsv1.BatchAgentId := b.1.2; insightsv1.Events := b.2 |}.

(** The bookkeeping behind a batch the stream accepted. *)
Definition after_sent (clk : Clock) (i : nat) (events : list row) (c : Client) : Client :=
  let '(c, _) := noteSlowSend (clock_slow clk i) (Sub (clock_ended clk i) (clock_started clk i)) c in
  let c := set_store (AdvanceSendCursor (lenZ events) (store c)) c in
  noteSent (lenZ events) 1 c.

(** [None]: the fuel ran out. *)
Fixpoint send_loop (fuel i : nat) (clk : Clock) (c : Client) (s : Stream) :
    option (Client * Stream * option string) :=
  match fuel with
  | O => None
  | S fuel' =>
      match PeekUnsentBatch (BatchSize (cfg c)) (store c) with
      | None => Some (c, s, None)
      | Some b =>
          match Send s (batch_msg c b) with
          | (s1, Some err) => Some (c, s1, Some err)
          | (s1, None) => send_loop fuel' (S i) clk (after_sent clk i b.2 c) s1
          end
      end
  end.

(** Each round advances the cursor, so the length of the buffer is enough. *)
Definition sendPending (clk : Clock) (c : Client) (s : Stream) : Client * Stream * option string :=
  let '(c1, _) := logDroppedUnsent (clock_drop clk) (clock_drop_age clk) c in
  match send_loop (S (length (events (store c1)))) 0 clk c1 s with
  | Some r => r
  | None => (c1, s, Some "out of fuel"%string)
  end.

(** What the server and the status loop may do to the client between two steps
    of [Run]. *)
Inductive other_step : Client -> Client -> Prop :=
| other_append now rows c : other_step c (NotifyAppended (set_store (append_rows now rows (store c)) c))
| other_flush c : other_step c (Flush c)
| other_status now c : other_step c (maybeLogSendProgress now c).1.

Definition upstream_stream_client : StreamClient Client Stream Clock :=
  {| Reconnect.sendPending := sendPending;
     onConnect := fun clk => beginSession (clock_connected clk);
     flushSignalled := flushCh;
     takeFlush := set_flushCh false;
     backoffMin := fun c => ReconnectBackoffMin (cfg c);
     backoffMax := fun c => ReconnectBackoffMax (cfg c);
     other := other_step |}.

Definition Run_steps := @run_steps Client Stream Clock upstream_stream_client.

Definition Run_init (c : Client) : Client * phase Stream := (c, AtTop (ReconnectBackoffMin (cfg c))).
End stream.

(** ** Lemmas *)

Lemma logDroppedUnsent_frame now now' c :
  let c' := (logDroppedUnsent now now' c).1 in
  cfg c' = cfg c /\ stats c' = stats c /\ store c' = (TakeDroppedUnsent (store c)).1.
Proof.
  unfold logDroppedUnsent. simpl. destruct (_ =? 0); [done|].
  destruct (Before _ _); done.
Qed.

Lemma after_sent_frame clk i es c :
  cfg (after_sent clk i es c) = cfg c /\
  store (after_sent clk i es c) = AdvanceSendCursor (lenZ es) (store c) /\
  sessionSent (after_sent clk i es c) = sessionSent c + lenZ es /\
  sessionBatches (after_sent clk i es c) = sessionBatches c + 1.
Proof.
  unfold after_sent, noteSlowSend, noteSent, sessionSent, sessionBatches.
  rewrite andb_false_r.
  destruct (_ <? slowSendThreshold); [done|]. by destruct (Before _ _).
Qed.

Lemma NotifyAppended_cfg c : cfg (NotifyAppended c) = cfg c.
Proof. unfold NotifyAppended. by destruct (_ <=? _). Qed.

Lemma maybeLogSendProgress_cfg now c : cfg (maybeLogSendProgress now c).1 = cfg c.
Proof. unfold maybeLogSendProgress. cbv zeta. by destruct (_ && _ && _). Qed.

Lemma other_step_cfg c c' : other_step c c' -> cfg c' = cfg c.
Proof. destruct 1; [by rewrite NotifyAppended_cfg|done|apply maybeLogSendProgress_cfg]. Qed.

Section send_laws.
Context {Stream : Type} (Send : Stream -> insightsv1.EnrichedFlowEventBatch -> Stream * option string).

Lemma upstream_send_loop_cfg fuel i clk c s r : send_loop Send fuel i clk c s = Some r -> cfg r.1.1 = cfg c.
Proof.
  revert i c s. induction fuel as [|fuel IH]; intros i c s; simpl; [done|].
  destruct (PeekUnsentBatch _ _) as [b|]; [|by intros [= <-]].
  destruct (Send s (batch_msg c b)) as [s1 [err|]]; [by intros [= <-]|].
  intros H. rewrite (IH _ _ _ H). apply after_sent_frame.
Qed.

Lemma upstream_sendPending_cfg clk c s : cfg (sendPending Send clk c s).1.1 = cfg c.
Proof.
  unfold sendPending. pose proof (logDroppedUnsent_frame (clock_drop clk) (clock_drop_age clk) c) as (Hc & _ & _).
  destruct (logDroppedUnsent _ _ c) as [c1 w]. cbn [fst] in Hc.
  destruct (send_loop Send _ _ _ c1 s) as [r|] eqn:E; [|done].
  by rewrite (upstream_send_loop_cfg _ _ _ _ _ _ E), Hc.
Qed.

#[export] Instance upstream_stream_client_laws :
  @StreamClientLaws Client Stream Clock (upstream_stream_client Send).
Proof.
  split; simpl; intros; try done; rewrite ?upstream_sendPending_cfg; try done.
  - by rewrite (other_step_cfg _ _ H).
  - by rewrite (other_step_cfg _ _ H).
Qed.
End send_laws.

(** A stream that records what it accepted and refuses when [refuse] says so. *)
Definition recording_send (refuse : list insightsv1.EnrichedFlowEventBatch -> option string)
    (s : list insightsv1.EnrichedFlowEventBatch) (b : insightsv1.EnrichedFlowEventBatch) :
    list insightsv1.EnrichedFlowEventBatch * option string :=
  match refuse s with
  | Some err => (s, Some err)
  | None => (s ++ [b], None)
  end.

(** What a batch on the wire satisfies: stamped with the cluster, nonempty, at
    most [BatchSize] events, all of one node and agent. *)
Definition good_batch (c : Config) (b : insightsv1.EnrichedFlowEventBatch) : Prop :=
  insightsv1.Organization b = Organization c /\ insightsv1.Cluster b = Cluster c /\
  insightsv1.Events b <> [] /\ lenZ (insightsv1.Events b) <= BatchSize c /\
  Forall (same_origin (insightsv1.BatchNodeName b) (insightsv1.BatchAgentId b)) (insightsv1.Events b).

Lemma peek_good c b :
  wf (store c) -> 0 < BatchSize (cfg c) -> PeekUnsentBatch (BatchSize (cfg c)) (store c) = Some b ->
  good_batch (cfg c) (batch_msg c b) /\ wf (AdvanceSendCursor (lenZ b.2) (store c)) /\
  unsent (store c) = (Some <$> b.2) ++ unsent (AdvanceSendCursor (lenZ b.2) (store c)) /\
  b.2 <> [].
Proof.
  intros Hwf Hb Hp. pose proof (peek_spec (BatchSize (cfg c)) (store c) Hwf) as H.
  rewrite Hp in H. destruct b as [[node agent] rows]. simpl.
  rewrite (proj2 (Z.leb_gt _ _)) in H by lia.
  destruct H as (H1 & H2 & H3 & H4 & _). unfold good_batch, batch_msg; simpl.
  split_and!; try done. by apply wf_AdvanceSendCursor.
Qed.

Lemma AdvanceSendCursor_events n s : events (AdvanceSendCursor n s) = events s.
Proof. unfold AdvanceSendCursor. by destruct (_ <=? _). Qed.

Lemma upstream_send_loop_spec refuse fuel i clk c s :
  wf (store c) -> 0 < BatchSize (cfg c) -> (length (unsent (store c)) < fuel)%nat ->
  exists bs c' err,
    send_loop (recording_send refuse) fuel i clk c s = Some (c', s ++ bs, err) /\
    Forall (good_batch (cfg c)) bs /\ wf (store c') /\
    unsent (store c) = (Some <$> (bs ≫= insightsv1.Events)) ++ unsent (store c') /\
    sessionSent c' = sessionSent c + lenZ (bs ≫= insightsv1.Events) /\
    sessionBatches c' = sessionBatches c + lenZ bs /\
    match err with
    | None => unsent (store c') = []
    | Some e => refuse (s ++ bs) = Some e
    end.
Proof.
  revert i c s. induction fuel as [|fuel IH]; intros i c s Hwf Hb Hf; [lia|]. simpl.
  destruct (PeekUnsentBatch _ _) as [b|] eqn:Hp.
  2:{ pose proof (peek_spec (BatchSize (cfg c)) (store c) Hwf) as H. rewrite Hp in H.
      exists [], c, None. rewrite app_nil_r. unfold lenZ. simpl. split_and!; try done; lia. }
  destruct (peek_good c b Hwf Hb Hp) as (Hg & Hwf' & Hu & Hne). unfold recording_send at 1.
  destruct (refuse s) as [e|] eqn:Hr.
  { exists [], c, (Some e). rewrite app_nil_r. unfold lenZ. simpl. split_and!; try done; lia. }
  destruct (after_sent_frame clk i b.2 c) as (Hc & Hs & Hse & Hsb).
  rewrite <-Hs in Hwf', Hu.
  destruct (IH (S i) (after_sent clk i b.2 c) (s ++ [batch_msg c b])) as (bs & c' & err & H1 & H2 & H3 & H4 & H5 & H6 & H7);
    [done|by rewrite Hc| |].
  { rewrite Hu, length_app, length_fmap in Hf. destruct b.2; [done|]. simpl in Hf. lia. }
  exists (batch_msg c b :: bs), c', err. rewrite <-app_assoc in H1, H7. rewrite Hc in H2.
  rewrite bind_cons, fmap_app, <-app_assoc, <-H4, H5, H6, Hse, Hsb, lenZ_app. cbn [insightsv1.Events batch_msg].
  split_and!; try done; [by constructor|lia|]. unfold lenZ. simpl. lia.
Qed.

(** ** Appends during a send

    The server appends to the store while a batch is on the wire.  The state
    pairs the store with that batch; the rest is history: the rows appended, the
    rows of acknowledged batches, and the drops already taken for the log. *)
Record sys := mkSys {
  sys_store : Store;
  inflight : option (list row);
  appended : list row;
  sent : list row;
  reported : Z
}.

Inductive sys_step (batchSize : Z) : sys -> sys -> Prop :=
| sys_append now rows st fl ap se rep :
    sys_step batchSize (mkSys st fl ap se rep) (mkSys (append_rows now rows st) fl (ap ++ rows) se rep)
| sys_peek b st ap se rep :
    PeekUnsentBatch batchSize st = Some b ->
    sys_step batchSize (mkSys st None ap se rep) (mkSys st (Some b.2) ap se rep)
| sys_acked rows st ap se rep :
    sys_step batchSize (mkSys st (Some rows) ap se rep)
      (mkSys (AdvanceSendCursor (lenZ rows) st) None ap (se ++ rows) rep)
| sys_failed rows st ap se rep :
    sys_step batchSize (mkSys st (Some rows) ap se rep) (mkSys st None ap se rep)
| sys_take st fl ap se rep :
    sys_step batchSize (mkSys st fl ap se rep)
      (mkSys (TakeDroppedUnsent st).1 fl ap se (rep + (TakeDroppedUnsent st).2.1)).

Definition sys_init (maxEvents maxAge : Z) : sys := mkSys (NewStore maxEvents maxAge) None [] [] 0.

Definition sys_ok (s : sys) : Prop :=
  wf (sys_store s) /\
  lenZ (appended s) <= lenZ (sent s) + lenZ (unsent (sys_store s)) + droppedUnsent (sys_store s) + reported s.

Lemma upstream_sys_step_ok n s s' : sys_ok s -> sys_step n s s' -> sys_ok s'.
Proof.
  intros [Hwf Hc] Hst. destruct Hst as [now rows st fl ap se rep|b st ap se rep Hp|rows st ap se rep
    |rows st ap se rep|st fl ap se rep]; unfold sys_ok; cbn [sys_store inflight appended sent reported] in *.
  - destruct (append_rows_spec now rows st Hwf) as (k & Hu & Hk & Hd & Hwf' & _). split; [done|].
    rewrite Hu, Hd, lenZ_app. unfold lenZ in *. rewrite length_drop, length_app, length_fmap. lia.
  - done.
  - split; [by apply wf_AdvanceSendCursor|]. rewrite AdvanceSendCursor_unsent by (apply lenZ_nonneg || done).
    replace (droppedUnsent (AdvanceSendCursor (lenZ rows) st)) with (droppedUnsent st).
    2:{ unfold AdvanceSendCursor. by destruct (_ <=? _). }
    rewrite lenZ_app. unfold lenZ in *. rewrite length_drop. lia.
  - done.
  - split; [by apply wf_TakeDroppedUnsent|].
    change (unsent (TakeDroppedUnsent st).1) with (unsent st). simpl. lia.
Qed.

Lemma upstream_sys_reachable_ok n s s' : sys_ok s -> rtc (sys_step n) s s' -> sys_ok s'.
Proof. intros Hs. induction 1; eauto using upstream_sys_step_ok. Qed.

Lemma sys_init_ok m a : sys_ok (sys_init m a).
Proof. split; [apply wf_NewStore|]. simpl. unfold lenZ. simpl. lia. Qed.

(** ** Properties *)

(** C6. One call of [sendPending] on a well-formed store terminates and sends a
    prefix of the unsent events, in order, in nonempty batches of at most
    [BatchSize] events of one node and agent, stamped with the organization and
    cluster; the cursor ends right behind what the stream accepted, so a failed
    batch stays unsent; with no send error nothing stays unsent; and the
    session's counters grow by exactly what was sent. *)
Theorem upstream_sendPending_functional refuse clk (c : Client) s :
  wf (store c) -> 0 < BatchSize (cfg c) ->
  exists bs c' err,
    sendPending (recording_send refuse) clk c s = (c', s ++ bs, err) /\
    Forall (good_batch (cfg c)) bs /\ wf (store c') /\
    unsent (store c) = (Some <$> (bs ≫= insightsv1.Events)) ++ unsent (store c') /\
    sessionSent c' = sessionSent c + lenZ (bs ≫= insightsv1.Events) /\
    sessionBatches c' = sessionBatches c + lenZ bs /\
    match err with
    | None => unsent (store c') = []
    | Some e => refuse (s ++ bs) = Some e
    end.
Proof.
  intros Hwf Hb. unfold sendPending.
  pose proof (logDroppedUnsent_frame (clock_drop clk) (clock_drop_age clk) c) as (Hc & Ht & Hs).
  destruct (logDroppedUnsent _ _ c) as [c1 w]. cbn [fst] in Hc, Ht, Hs.
  assert (Hu : unsent (store c1) = unsent (store c)) by (by rewrite Hs).
  destruct (upstream_send_loop_spec refuse (S (length (events (store c1)))) 0 clk c1 s)
    as (bs & c' & err & -> & H1 & H2 & H3 & H4 & H5 & H6).
  - rewrite Hs. by apply wf_TakeDroppedUnsent.
  - by rewrite Hc.
  - unfold unsent. rewrite length_drop. lia.
  - rewrite Hu in H3. rewrite Hc in H1. unfold sessionSent, sessionBatches in *. rewrite Ht in H4, H5. eauto 10.
Qed.

(** The upstream [Run] loop, started from any configuration: every delay it sleeps
    is positive and bounded by the larger configured backoff, and the loop
    returns only after its context was cancelled. *)
Theorem upstream_run_backoff_and_return {Stream} Send (c : Config) st evs y :
  ReconnectBackoffMin c < 2 ^ 62 -> ReconnectBackoffMax c < 2 ^ 62 ->
  @Run_steps Stream Send (Run_init (NewClient c st)) evs y ->
  match y.2 with
  | AtTop b | Sleeping b =>
      0 < b <= Z.max (ReconnectBackoffMin (cfg y.1)) (ReconnectBackoffMax (cfg y.1))
  | Connected _ => True
  | Returned _ => Exists (fun ev => cancel_event ev = true) evs
  end.
Proof.
  intros Hlo Hhi H. unfold Run_steps in H.
  assert (Hpos : 0 < ReconnectBackoffMin (cfg (NewClient c st)) < 2 ^ 62 /\
                 0 < ReconnectBackoffMax (cfg (NewClient c st)) < 2 ^ 62).
  { simpl. unfold or_default, Second. destruct (_ <=? 0) eqn:?, (ReconnectBackoffMax c <=? 0) eqn:?; to_prop; lia. }
  pose proof (@run_steps_backoff _ _ _ (upstream_stream_client Send) (upstream_stream_client_laws Send)
    _ _ _ _ _ (proj1 Hpos) (proj2 Hpos)
    (@run_init_ok _ _ _ (upstream_stream_client Send) (NewClient c st) (proj1 (proj1 Hpos))) H)
    as (Hmin & Hmax & Hb).
  pose proof (run_steps_returned _ _ _ H eq_refl) as Hret. destruct y as [c' p]. simpl in *.
  rewrite Hmin, Hmax. destruct p; try done. by apply Hret.
Qed.

(** However appends, sends, failures and drop reports interleave, the number of
    rows appended never exceeds the rows of acknowledged batches, the rows still
    unsent and the drops counted: no row disappears from the accounts. *)
Theorem upstream_counts_every_row n maxEvents maxAge s :
  rtc (sys_step n) (sys_init maxEvents maxAge) s ->
  lenZ (appended s) <=
    lenZ (sent s) + UnsentCount (sys_store s) + droppedUnsent (sys_store s) + reported s.
Proof.
  intros H. apply upstream_sys_reachable_ok in H as [[Hwf _ _ _ _ _] Hc]; [|apply sys_init_ok].
  assert (HU : UnsentCount (sys_store s) = lenZ (unsent (sys_store s))).
  { unfold UnsentCount, unsent, lenZ. rewrite length_drop. destruct (_ <=? _)%nat eqn:E; [|lia].
    apply Nat.leb_le in E. lia. }
  lia.
Qed.

(** The accounts are numeric only: an append that drops a row of the batch on the
    wire makes the acknowledgement advance the cursor past a row that was never
    sent.  With room for two rows, [r1] and [r2] on the wire and [r3] appended,
    the acknowledgement leaves [r3] in the buffer, behind the cursor, never to be
    sent, while the drop reported is [r1], which was. *)
Theorem upstream_append_during_send_skips_row r1 r2 r3 now node agent :
  same_origin node agent r1 -> same_origin node agent r2 -> 0 <= now - Hour ->
  Forall (fun r => now - Hour <= insightsv1.TimestampUnixNano r) [r1; r2; r3] ->
  exists s, rtc (sys_step 2) (sys_init 2 Hour) s /\ inflight s = None /\
    appended s = [r1; r2; r3] /\ sent s = [r1; r2] /\
    events (sys_store s) = [Some r2; Some r3] /\ unsent (sys_store s) = [] /\
    droppedUnsent (sys_store s) = 1.
Proof.
  intros [Hn1 Ha1] [Hn2 Ha2] Hnow Hts.
  apply Forall_cons in Hts as [Ht1 Hts]. apply Forall_cons in Hts as [Ht2 Hts].
  apply Forall_cons in Hts as [Ht3 _].
  set (st0 := NewStore 2 Hour).
  set (st1 := set_events [Some r1; Some r2] st0).
  assert (H1 : append_rows now [r1; r2] st0 = st1).
  { unfold append_rows, pruneLocked. simpl. unfold row_time. simpl.
    by rewrite (proj2 (Z.ltb_ge _ _)) by exact Ht1. }
  assert (Hp : PeekUnsentBatch 2 st1 = Some (node, agent, [r1; r2])).
  { unfold PeekUnsentBatch. simpl. rewrite Hn1, Ha1, Hn2, Ha2. rewrite !decide_True by done. done. }
  set (st2 := {| events := [Some r2; Some r3]; maxEvents := 2; maxAge := Hour; sendCursor := 0;
                 droppedUnsent := 1; lastDropReason := "max_events" |}).
  assert (H2 : append_rows now [r3] st1 = st2).
  { unfold append_rows, pruneLocked. simpl. unfold row_time. simpl.
    by rewrite (proj2 (Z.ltb_ge _ _)) by exact Ht1. }
  eexists. split.
  - eapply rtc_l; [apply (sys_append 2 now [r1; r2])|]. fold st0. rewrite H1.
    eapply rtc_l; [by eapply sys_peek|].
    eapply rtc_l; [apply (sys_append 2 now [r3])|]. rewrite H2.
    eapply rtc_l; [apply sys_acked|]. apply rtc_refl.
  - done.
Qed.

(** In mode [auto] the scheme the operator wrote does not matter: [NewClient]
    strips it from the address, so unless the port is 443 the stream to
    Insights is plaintext, even for an address configured with https. *)
Theorem client_auto_tls_ignores_scheme {CertPool} load (c : Config) st :
  let addr := InsightsAddr (cfg (NewClient c st)) in
  Mode (TLS c) = TLSModeAuto ->
  HasPrefix (ToLower (TrimSpace addr)) "https://" = false ->
  (exists host, SplitHostPort (normalizeGRPCAddr (TrimSpace addr)) = Some (host, "443"%string)) \/
  @transportCredentials CertPool load addr (TLS c) = Ok (Insecure).
Proof.
  intros addr Hm Hp. unfold transportCredentials, buildTLSConfig, enabledFor. rewrite Hm.
  unfold autoTLSEnabled. cbv zeta. rewrite Hp.
  destruct (SplitHostPort _) as [[host port]|]; [|by right].
  destruct (decide (port = "443"%string)) as [->|Hne]; [left; by exists host|right].
  by rewrite bool_decide_eq_false_2.
Qed.

(** ** Witnesses *)

Definition sample_tls : TLSConfig := {| Mode := TLSModeAuto; ServerName := ""; CAFile := "" |}.

Definition sample_config : Config :=
  {| InsightsAddr := "https://insights.example.com:8443"; Organization := "acme"; Cluster := "prod";
     AuthToken := "token"; TLS := sample_tls; BatchSize := 2; FlushInterval := 0;
     ReconnectBackoffMin := 0; ReconnectBackoffMax := 0 |}.

Definition sample_client : Client := NewClient sample_config sample_store.

Definition sample_clock : Clock :=
  {| clock_connected := 0; clock_drop := 0; clock_drop_age := 0; clock_started := fun _ => 0;
     clock_ended := fun _ => 6 * Second; clock_slow := fun _ => 0 |}.

(** Rows of two nodes are unsent: two batches, the second refused. *)
Lemma upstream_sendPending_functional_witness :
  exists bs c' err,
    sendPending (recording_send (fun s => if decide (s = []) then None else Some "EOF"%string))
      sample_clock sample_client [] = (c', bs, err) /\
    unsent (store sample_client) = (Some <$> (bs ≫= insightsv1.Events)) ++ unsent (store c') /\
    sessionSent c' = 0 + lenZ (bs ≫= insightsv1.Events).
Proof.
  destruct (upstream_sendPending_functional
    (fun s => if decide (s = []) then None else Some "EOF"%string) sample_clock sample_client [])
    as (bs & c' & err & H1 & _ & _ & H2 & H3 & _).
  - exact sample_store_wf.
  - reflexivity.
  - exists bs, c', err. split; [exact H1|]. split; [exact H2|exact H3].
Defined.

Lemma upstream_run_backoff_and_return_witness :
  let c := NewClient sample_config sample_store in
  @Run_steps unit (fun s _ => (s, None)) (Run_init c) [DialError] (c, Sleeping Second) /\
  0 < Second <= Z.max (ReconnectBackoffMin (cfg c)) (ReconnectBackoffMax (cfg c)).
Proof.
  intros c.
  assert (H : @Run_steps unit (fun s _ => (s, None)) (Run_init c) [DialError] (c, Sleeping Second)).
  { unfold Run_steps. repeat econstructor. }
  split; [exact H|].
  exact (upstream_run_backoff_and_return (fun s _ => (s, None)) sample_config sample_store _ _ eq_refl eq_refl H).
Defined.

(** Two rows appended and one of them on the wire. *)
Definition sample_sys : sys :=
  mkSys (append_rows Hour [sample_row "a" 90000000000; sample_row "b" 91000000000] (NewStore 3 Hour))
    (Some [sample_row "a" 90000000000]) [sample_row "a" 90000000000; sample_row "b" 91000000000] [] 0.

Lemma upstream_sample_reachable : rtc (sys_step 5) (sys_init 3 Hour) sample_sys.
Proof.
  eapply rtc_l.
  { apply (sys_append 5 Hour [sample_row "a" 90000000000; sample_row "b" 91000000000] (NewStore 3 Hour) None [] [] 0). }
  eapply rtc_l; [apply (sys_peek 5 ("a", "agent", [sample_row "a" 90000000000])%string); vm_compute; reflexivity|].
  apply rtc_refl.
Qed.

Lemma upstream_counts_every_row_witness :
  UnsentCount (sys_store sample_sys) = 2 /\
  lenZ (appended sample_sys) <=
    lenZ (sent sample_sys) + UnsentCount (sys_store sample_sys) + droppedUnsent (sys_store sample_sys)
    + reported sample_sys.
Proof.
  split; [vm_compute; reflexivity|]. exact (upstream_counts_every_row 5 3 Hour sample_sys upstream_sample_reachable).
Defined.

Lemma upstream_append_during_send_skips_row_witness :
  exists s, rtc (sys_step 2) (sys_init 2 Hour) s /\ inflight s = None /\
    sent s = [sample_row "a" 1; sample_row "a" 2] /\ unsent (sys_store s) = [] /\
    events (sys_store s) = [Some (sample_row "a" 2); Some (sample_row "a" 3)].
Proof.
  destruct (upstream_append_during_send_skips_row (sample_row "a" 1) (sample_row "a" 2) (sample_row "a" 3)
    Hour "a" "agent") as (s & H1 & H2 & _ & H3 & H4 & H5 & _).
  - split; reflexivity.
  - split; reflexivity.
  - vm_compute. discriminate.
  - repeat constructor; vm_compute; discriminate.
  - exists s. split; [exact H1|]. split; [exact H2|]. split; [exact H3|]. split; [exact H5|exact H4].
Defined.

Lemma client_auto_tls_ignores_scheme_witness :
  autoTLSEnabled (InsightsAddr sample_config) = true /\
  @transportCredentials unit (fun _ => Ok ()) (InsightsAddr (cfg sample_client)) sample_tls = Ok (Insecure).
Proof.
  split; [vm_compute; reflexivity|].
  destruct (@client_auto_tls_ignores_scheme unit (fun _ => Ok ()) sample_config sample_store eq_refl)
    as [[host H]|H]; [vm_compute; reflexivity| |exact H].
  exfalso. vm_compute in H. discriminate.
Defined.
