(* ===== verification/KubeIndex.v ===== *)
(** * Address indexes of the Kubernetes enricher

    [pkg/collector/kube/services.go], [pod_ips.go] and [node_ips.go] of
    network-flow-aggregator: maps from addresses (and ports) to the Services,
    pods and nodes that own them, built from the informers' listings.  The
    Kubernetes objects keep the fields the code reads. *)

From stdpp Require Import base decidable list gmap strings sets.
From Stdlib Require Import ZArith Lia.
From S2P Require Import Prelude.
Import GoInt.

Local Open Scope Z_scope.

(** ** Kubernetes objects *)

Inductive IntOrStringType : Type := IntType | StringType.

#[global] Instance IntOrStringType_eq_dec : EqDecision IntOrStringType.
Proof. solve_decision. Defined.

Record ServicePort := mkServicePort {
  sp_Port : Z;
  TargetPortType : IntOrStringType;
  TargetPortIntVal : Z
}.

Record Service := mkService {
  svc_Namespace : string;
  svc_Name : string;
  ClusterIP : string;
  ClusterIPs : list string;
  ExternalIPs : list string;
  IngressIPs : list string;
  svc_Ports : list ServicePort
}.

Record ObjectReference := mkObjectReference {
  ref_Kind : string;
  ref_Namespace : string;
  ref_Name : string
}.

Record Endpoint := mkEndpoint {
  Ready : option bool;
  ep_Addresses : list string;
  TargetRef : option ObjectReference
}.

(** [ServiceNameLabel] is [Labels[discoveryv1.LabelServiceName]]. *)
Record EndpointSlice := mkEndpointSlice {
  slice_Namespace : string;
  ServiceNameLabel : string;
  Endpoints : list Endpoint;
  slice_Ports : list (option Z)
}.

Record OwnerReference := mkOwnerReference {
  owner_Kind : string;
  owner_Name : string;
  Controller : option bool
}.

Inductive PodPhase : Type := PodPending | PodRunning | PodSucceeded | PodFailed | PodUnknown.

Record Pod := mkPod {
  pod_Namespace : string;
  pod_Name : string;
  OwnerReferences : list OwnerReference;
  HostNetwork : bool;
  Phase : PodPhase;
  PodIP : string;
  PodIPs : list string
}.

Inductive NodeAddressType : Type :=
| NodeHostName | NodeInternalIP | NodeExternalIP | NodeInternalDNS | NodeExternalDNS | NodeOtherAddress.

Record Node := mkNode {
  node_Name : string;
  Addresses : list (NodeAddressType * string)
}.

(** ** References and entries *)

Record serviceRef := mkServiceRef {
  Namespace : string;
  Name : string
}.

#[global] Instance serviceRef_eq_dec : EqDecision serviceRef.
Proof. solve_decision. Defined.

#[global] Instance serviceRef_countable : Countable serviceRef.
Proof.
  refine (inj_countable' (fun r => (Namespace r, Name r)) (fun '(a, b) => mkServiceRef a b) _).
  by intros [].
Defined.

(** [podRef] has the same two fields. *)
Abbreviation podRef := serviceRef.

(** [servicePortKey]: address and port. *)
Abbreviation servicePortKey := (string * Z)%type.

Abbreviation serviceIndex := (gmap servicePortKey serviceRef).

Record EndpointEntry := mkEndpointEntry {
  ServiceNamespace : string;
  ServiceName : string;
  PodNamespace : string;
  PodName : string
}.

Abbreviation endpointIndex := (gmap servicePortKey EndpointEntry).

Record BackendIdentity := mkBackendIdentity {
  be_PodNamespace : string;
  be_PodName : string;
  WorkloadNamespace : string;
  WorkloadKind : string;
  WorkloadName : string;
  be_ServiceNamespace : string;
  be_ServiceName : string
}.

Definition MatchesService (b : BackendIdentity) (namespace name : string) : bool :=
  bool_decide (be_ServiceNamespace b = namespace /\ be_ServiceName b = name).

(** ** Loops

    [for _, x := range l { ... }] over a state. *)
Definition range {A S} (l : list A) (body : A -> S -> S) (s : S) : S := foldl (fun s x => body x s) s l.

(** The body of a loop over pointers that skips the nil ones. *)
Definition non_nil {A S} (body : A -> S -> S) (p : option A) (s : S) : S :=
  match p with
  | None => s
  | Some x => body x s
  end.

(** ** Indexes that keep only unambiguous addresses *)
Section unique.
Context {R : Type} `{EqDecision R}.

Record uniqueEntry := mkUniqueEntry {
  ref : R;
  ambiguous : bool
}.

Abbreviation uniqueIndex := (gmap string uniqueEntry).

(** [zero] is the zero value the ambiguous entry holds. *)
Definition add_unique (zero : R) (addr : string) (r : R) (idx : uniqueIndex) : uniqueIndex :=
  match idx !! addr with
  | None => <[addr := {| ref := r; ambiguous := false |}]> idx
  | Some ent =>
      if ambiguous ent || bool_decide (ref ent = r) then idx
      else <[addr := {| ref := zero; ambiguous := true |}]> idx
  end.

Definition lookup_unique (idx : uniqueIndex) (addr : string) : option R :=
  match idx !! addr with
  | None => None
  | Some ent => if ambiguous ent then None else Some (ref ent)
  end.
End unique.
Arguments uniqueEntry : clear implicits.

Definition zeroRef : serviceRef := {| Namespace := ""; Name := "" |}.

(** ** Services *)

Definition ClusterIPNone : string := "None".

(** [add] of [collectServiceAddrs]: the set [seen] and the list [addrs]. *)
Definition add_addr (ip : string) (s : gset string * list string) : gset string * list string :=
  let '(seen, addrs) := s in
  if decide (ip = ""%string \/ ip = ClusterIPNone) then s
  else if decide (ip ∈ seen) then s
  else ({[ip]} ∪ seen, addrs ++ [ip]).

Definition collectServiceAddrs (svc : Service) : list string :=
  let s := (∅, []) in
  let s := if decide (ClusterIP svc <> ClusterIPNone)
           then range (ClusterIPs svc) add_addr (add_addr (ClusterIP svc) s) else s in
  let s := range (ExternalIPs svc) add_addr s in
  let s := range (IngressIPs svc) add_addr s in
  s.2.

Definition svc_ref (svc : Service) : serviceRef :=
  {| Namespace := svc_Namespace svc; Name := svc_Name svc |}.

Definition buildServiceIndex (services : list (option Service)) : serviceIndex :=
  range services (non_nil (fun svc =>
    range (collectServiceAddrs svc) (fun addr =>
      range (svc_Ports svc) (fun p idx =>
        <[(addr, u32 (sp_Port p)) := svc_ref svc]> idx)))) ∅.

Definition addClusterIPIndexEntry (addr : string) (r : serviceRef)
    (idx : gmap string (uniqueEntry serviceRef)) : gmap string (uniqueEntry serviceRef) :=
  add_unique zeroRef addr r idx.

Definition buildClusterIPIndex (services : list (option Service)) : gmap string (uniqueEntry serviceRef) :=
  range services (non_nil (fun svc =>
    range (collectServiceAddrs svc) (fun addr => addClusterIPIndexEntry addr (svc_ref svc)))) ∅.

(** ** EndpointSlices *)

Definition slice_ref (sl : EndpointSlice) : serviceRef :=
  {| Namespace := slice_Namespace sl; Name := ServiceNameLabel sl |}.

(** [ep.Conditions.Ready != nil && !*ep.Conditions.Ready] skips the endpoint. *)
Definition not_ready (ep : Endpoint) : bool :=
  match Ready ep with
  | Some false => true
  | _ => false
  end.

(** The loop over labelled slices and their ready endpoints. *)
Definition for_ready_endpoints {S} (body : EndpointSlice -> Endpoint -> S -> S)
    (slices : list (option EndpointSlice)) : S -> S :=
  range slices (non_nil (fun sl s =>
    if decide (ServiceNameLabel sl = ""%string) then s
    else range (Endpoints sl) (fun ep s => if not_ready ep then s else body sl ep s) s)).

Definition buildEndpointIPIndex (slices : list (option EndpointSlice)) : gmap string (uniqueEntry serviceRef) :=
  for_ready_endpoints (fun sl ep =>
    range (ep_Addresses ep) (fun addr => add_unique zeroRef addr (slice_ref sl))) slices ∅.

(** [for _, p := range slice.Ports { if p.Port == nil { continue }; ... }] *)
Definition for_slice_ports {S} (sl : EndpointSlice) (body : Z -> S -> S) : S -> S :=
  range (slice_Ports sl) (non_nil (fun p => body (u32 p))).

Definition mergeEndpointSliceIndex (slices : list (option EndpointSlice)) (idx : serviceIndex) : serviceIndex :=
  for_ready_endpoints (fun sl ep =>
    range (ep_Addresses ep) (fun addr =>
      for_slice_ports sl (fun port => <[(addr, port) := slice_ref sl]>))) slices idx.

(** A missing key of the Go map reads as the nil slice. *)
Definition serviceAddressesByRef (slices : list (option EndpointSlice)) : gmap serviceRef (list string) :=
  for_ready_endpoints (fun sl ep addrs =>
    <[slice_ref sl := (default [] (addrs !! slice_ref sl)) ++ ep_Addresses ep]> addrs) slices ∅.

(** The loop over the services that have addresses and their numeric target
    ports that differ from the service port. *)
Definition for_target_ports {S} (services : list (option Service)) (slices : list (option EndpointSlice))
    (body : Service -> string -> Z -> S -> S) : S -> S :=
  let addrsByService := serviceAddressesByRef slices in
  range services (non_nil (fun svc s =>
    match default [] (addrsByService !! svc_ref svc) with
    | [] => s
    | addrs =>
        range (svc_Ports svc) (fun sp s =>
          if decide (TargetPortType sp <> IntType) then s
          else
            let targetPort := u32 (TargetPortIntVal sp) in
            if targetPort =? u32 (sp_Port sp) then s
            else range addrs (fun addr => body svc addr targetPort) s) s
    end)).

Definition augmentEndpointIndexWithTargetPorts (services : list (option Service))
    (slices : list (option EndpointSlice)) (idx : serviceIndex) : serviceIndex :=
  for_target_ports services slices (fun svc addr targetPort => <[(addr, targetPort) := svc_ref svc]>) idx.

Definition buildDstIndex (services : list (option Service)) (slices : list (option EndpointSlice)) : serviceIndex :=
  let idx := buildServiceIndex services in
  let idx := mergeEndpointSliceIndex slices idx in
  augmentEndpointIndexWithTargetPorts services slices idx.

Definition endpointPodIdentity (sliceNamespace : string) (ep : Endpoint) : string * string :=
  match TargetRef ep with
  | Some t =>
      if decide (ref_Kind t = "Pod"%string) then
        (if decide (ref_Namespace t = ""%string) then sliceNamespace else ref_Namespace t, ref_Name t)
      else (""%string, ""%string)
  | None => (""%string, ""%string)
  end.

(** Unlike the other loops this one does not ask for the service label. *)
Definition endpointPodsByAddress (slices : list (option EndpointSlice)) : gmap string (string * string) :=
  range slices (non_nil (fun sl =>
    range (Endpoints sl) (fun ep out =>
      if not_ready ep then out
      else range (ep_Addresses ep) (fun addr => <[addr := endpointPodIdentity (slice_Namespace sl) ep]>) out))) ∅.

Definition mergeEndpointSlicePodIndex (slices : list (option EndpointSlice)) (idx : endpointIndex) : endpointIndex :=
  for_ready_endpoints (fun sl ep =>
    let '(podNamespace, podName) := endpointPodIdentity (slice_Namespace sl) ep in
    range (ep_Addresses ep) (fun addr =>
      for_slice_ports sl (fun port =>
        <[(addr, port) := {| ServiceNamespace := slice_Namespace sl; ServiceName := ServiceNameLabel sl;
                             PodNamespace := podNamespace; PodName := podName |}]>))) slices idx.

Definition augmentEndpointPodIndexWithTargetPorts (services : list (option Service))
    (slices : list (option EndpointSlice)) (idx : endpointIndex) : endpointIndex :=
  let podByAddr := endpointPodsByAddress slices in
  for_target_ports services slices (fun svc addr targetPort =>
    let pod := default (""%string, ""%string) (podByAddr !! addr) in
    <[(addr, targetPort) := {| ServiceNamespace := svc_Namespace svc; ServiceName := svc_Name svc;
                               PodNamespace := pod.1; PodName := pod.2 |}]>) idx.

Definition buildEndpointIndex (services : list (option Service)) (slices : list (option EndpointSlice)) : endpointIndex :=
  augmentEndpointPodIndexWithTargetPorts services slices (mergeEndpointSlicePodIndex slices ∅).

(** ** Pods: [pod_ips.go] *)

Definition indexablePod (pod : Pod) : bool :=
  if HostNetwork pod then false
  else match Phase pod with
       | PodSucceeded | PodFailed => false
       | _ => true
       end.

Definition add_pod_ip (ip : string) (s : gset string * list string) : gset string * list string :=
  let '(seen, out) := s in
  if decide (ip = ""%string) then s
  else if decide (ip ∈ seen) then s
  else ({[ip]} ∪ seen, out ++ [ip]).

Definition podIPs (pod : Pod) : list string :=
  (range (PodIPs pod) add_pod_ip (add_pod_ip (PodIP pod) (∅, []))).2.

Definition pod_ref (pod : Pod) : podRef := {| Namespace := pod_Namespace pod; Name := pod_Name pod |}.

Definition buildPodIPIndex (pods : list (option Pod)) : gmap string (uniqueEntry podRef) :=
  range pods (non_nil (fun pod idx =>
    if negb (indexablePod pod) then idx
    else range (podIPs pod) (fun ip idx =>
           if decide (ip = ""%string) then idx else add_unique zeroRef ip (pod_ref pod) idx) idx)) ∅.

(** ** Nodes: [node_ips.go] *)

Definition buildNodeIPIndex (nodes : list (option Node)) : gmap string (uniqueEntry string) :=
  range nodes (non_nil (fun node idx =>
    if decide (node_Name node = ""%string) then idx
    else range (Addresses node) (fun '(ty, ip) idx =>
           match ty with
           | NodeInternalIP | NodeExternalIP =>
               if decide (ip = ""%string) then idx else add_unique ""%string ip (node_Name node) idx
           | _ => idx
           end) idx)) ∅.

(** ** Lemmas: loops as sequences of writes *)

Lemma range_app {A S} (l k : list A) (body : A -> S -> S) s :
  range (l ++ k) body s = range k body (range l body s).
Proof. apply foldl_app. Qed.

Lemma range_cons {A S} x (l : list A) (body : A -> S -> S) s : range (x :: l) body s = range l body (body x s).
Proof. done. Qed.

Lemma range_id {A S} (l : list A) (body : A -> S -> S) s : (forall x s, body x s = s) -> range l body s = s.
Proof. intros Hb. revert s. induction l as [|x l IH]; intros s; [done|]. by rewrite range_cons, Hb. Qed.

(** Nested loops that end in the same kind of write are one loop over all writes. *)
Lemma range_bind {A W S} (l : list A) (f : A -> list W) (step : W -> S -> S) (body : A -> S -> S) s :
  (forall x s, body x s = range (f x) step s) -> range l body s = range (l ≫= f) step s.
Proof.
  intros Hb. revert s. induction l as [|x l IH]; intros s; [done|].
  rewrite bind_cons, range_app. unfold range at 1. cbn [foldl]. rewrite Hb. apply IH.
Qed.

Definition option_writes {A W} (f : A -> list W) (p : option A) : list W := from_ptr [] f p.

Lemma non_nil_writes {A W S} (f : A -> list W) (step : W -> S -> S) (body : A -> S -> S) p s :
  (forall x s, body x s = range (f x) step s) -> non_nil body p s = range (option_writes f p) step s.
Proof. intros Hb. destruct p; [apply Hb|done]. Qed.

Lemma elem_of_option_bind {A W} (f : A -> list W) (l : list (option A)) w :
  w ∈ l ≫= option_writes f <-> exists x, Some x ∈ l /\ w ∈ f x.
Proof.
  rewrite list_elem_of_bind. split.
  - intros ([x|] & Hw & Hx); [by exists x|]. by apply not_elem_of_nil in Hw.
  - intros (x & Hx & Hw). by exists (Some x).
Qed.

(** *** Maps written by insertion: the last write of a key stays *)
Definition insert_step {K V} `{Countable K} (w : K * V) (m : gmap K V) : gmap K V := <[w.1 := w.2]> m.

Lemma range_insert_Some {K V} `{Countable K} (ws : list (K * V)) m k v :
  range ws insert_step m !! k = Some v -> (k, v) ∈ ws \/ m !! k = Some v.
Proof.
  revert m. induction ws as [|[k' v'] ws IH]; intros m; [by right|].
  unfold range. cbn [foldl]. intros [Hin|Hm]%IH; [left; by right|].
  unfold insert_step in Hm. simpl in Hm. destruct (decide (k' = k)) as [->|Hne].
  - rewrite lookup_insert_eq in Hm. injection Hm as ->. left. by left.
  - rewrite lookup_insert_ne in Hm by done. by right.
Qed.

Lemma range_insert_keep {K V} `{Countable K} (ws : list (K * V)) m k :
  is_Some (m !! k) -> is_Some (range ws insert_step m !! k).
Proof.
  revert m. induction ws as [|[k' v'] ws IH]; intros m Hm; [done|].
  unfold range. cbn [foldl]. apply IH. unfold insert_step. simpl.
  destruct (decide (k' = k)) as [->|Hne]; [by rewrite lookup_insert_eq|by rewrite lookup_insert_ne].
Qed.

Lemma range_insert_written {K V} `{Countable K} (ws : list (K * V)) m k v :
  (k, v) ∈ ws -> is_Some (range ws insert_step m !! k).
Proof.
  revert m. induction ws as [|[k' v'] ws IH]; intros m Hin; [by apply not_elem_of_nil in Hin|].
  unfold range. cbn [foldl]. apply elem_of_cons in Hin as [[= <- <-]|Hin].
  - apply range_insert_keep. unfold insert_step. simpl. by rewrite lookup_insert_eq.
  - by apply IH.
Qed.

(** *** Unambiguous addresses *)
Section unique_lemmas.
Context {R : Type} `{EqDecision R}.

Definition add_step (zero : R) (c : string * R) : gmap string (uniqueEntry R) -> gmap string (uniqueEntry R) :=
  add_unique zero c.1 c.2.

(** [r] is the only owner of [a] among the claims. *)
Definition only_owner (claims : list (string * R)) (a : string) (r : R) : Prop :=
  (a, r) ∈ claims /\ forall r', (a, r') ∈ claims -> r' = r.

Definition entry_ok (claims : list (string * R)) (a : string) (e : option (uniqueEntry R)) : Prop :=
  match e with
  | None => forall r, (a, r) ∉ claims
  | Some ent =>
      if ambiguous ent then exists r1 r2, r1 <> r2 /\ (a, r1) ∈ claims /\ (a, r2) ∈ claims
      else only_owner claims a (ref ent)
  end.

Lemma entry_ok_other claims c a e : c.1 <> a -> entry_ok claims a e -> entry_ok (claims ++ [c]) a e.
Proof.
  intros Hne. unfold entry_ok, only_owner. destruct e as [ent|]; [destruct (ambiguous ent)|].
  - intros (r1 & r2 & H & H1 & H2). exists r1, r2. set_solver.
  - intros [H1 H2]. split; [set_solver|]. intros r' [Hr|Hr%list_elem_of_singleton]%elem_of_app; [by apply H2|].
    by destruct Hne; rewrite <-Hr.
  - intros H r [Hr|Hr%list_elem_of_singleton]%elem_of_app; [by apply (H r)|]. by destruct Hne; rewrite <-Hr.
Qed.

Lemma add_unique_ok zero claims idx c :
  (forall a, entry_ok claims a (idx !! a)) -> forall a, entry_ok (claims ++ [c]) a (add_step zero c idx !! a).
Proof.
  intros Hidx a. destruct c as [a' r]. unfold add_step. cbn [fst snd].
  destruct (decide (a' = a)) as [->|Hne].
  2:{ pose proof (entry_ok_other claims (a', r) a (idx !! a) Hne (Hidx a)) as H.
      unfold add_unique. destruct (idx !! a') as [ent|]; [destruct (_ || _)|];
        rewrite ?lookup_insert_ne by done; exact H. }
  pose proof (Hidx a) as H. unfold add_unique. destruct (idx !! a) as [ent|] eqn:E; cbn [entry_ok] in H.
  - destruct (ambiguous ent) eqn:Ea; cbn [orb].
    + rewrite E. unfold entry_ok. rewrite Ea. destruct H as (r1 & r2 & H & H1 & H2). exists r1, r2. set_solver.
    + destruct H as [H1 H2]. destruct (bool_decide (ref ent = r)) eqn:Er; to_prop.
      * rewrite E. unfold entry_ok. rewrite Ea. subst r. split; [set_solver|].
        intros r' [Hr|Hr%list_elem_of_singleton]%elem_of_app; [by apply H2|by injection Hr].
      * rewrite lookup_insert_eq. cbn [entry_ok ambiguous]. exists (ref ent), r. set_solver.
  - rewrite lookup_insert_eq. cbn [entry_ok ambiguous ref]. split; [set_solver|].
    intros r' [Hr|Hr%list_elem_of_singleton]%elem_of_app; [by destruct (H r')|by injection Hr].
Qed.

Lemma range_add_ok zero claims a : entry_ok claims a (range claims (add_step zero) ∅ !! a).
Proof.
  revert a. induction claims as [|c claims IH] using rev_ind; intros a.
  - unfold range. simpl. rewrite lookup_empty. intros r. apply not_elem_of_nil.
  - rewrite range_app. apply add_unique_ok, IH.
Qed.

(** The index answers with the only owner of an address, and only then. *)
Lemma lookup_unique_spec zero claims a r :
  lookup_unique (range claims (add_step zero) ∅) a = Some r <-> only_owner claims a r.
Proof.
  pose proof (range_add_ok zero claims a) as H. unfold lookup_unique.
  destruct (range claims _ ∅ !! a) as [ent|]; cbn [entry_ok] in H.
  - destruct (ambiguous ent).
    + destruct H as (r1 & r2 & Hne & H1 & H2). split; [done|]. intros [_ H].
      destruct Hne. by rewrite (H r1 H1), (H r2 H2).
    + split; [by intros [= <-]|]. intros [_ H']. f_equal. apply H', H.
  - split; [done|]. intros [H' _]. by destruct (H r).
Qed.
End unique_lemmas.

(** *** Collected addresses *)

(** The invariant of the [seen]/[out] pairs. *)
Definition collected (P : string -> Prop) (s : gset string * list string) : Prop :=
  s.1 = list_to_set s.2 /\ NoDup s.2 /\ forall ip, ip ∈ s.2 <-> P ip.

Lemma range_add_addr l s P :
  collected P s ->
  collected (fun ip => P ip \/ (ip ∈ l /\ ip <> ""%string /\ ip <> ClusterIPNone)) (range l add_addr s).
Proof.
  revert s P. induction l as [|x l IH]; intros [seen out] P (Hs & Hnd & Hel).
  { split_and!; try done. intros ip. rewrite Hel. set_solver. }
  rewrite range_cons.
  assert (H1 : collected (fun ip => P ip \/ (ip = x /\ ip <> ""%string /\ ip <> ClusterIPNone)) (add_addr x (seen, out))).
  { unfold add_addr, collected in *. simpl in *. case_decide as H1; [|case_decide as H2]; simpl.
    - split_and!; try done. intros ip. rewrite Hel. naive_solver.
    - subst seen. apply elem_of_list_to_set, Hel in H2. split_and!; try done. intros ip. rewrite Hel. naive_solver.
    - subst seen. split_and!.
      + rewrite list_to_set_app_L. set_solver.
      + apply NoDup_app. split_and!; [done| |apply NoDup_singleton]. set_solver.
      + intros ip. rewrite elem_of_app, Hel, list_elem_of_singleton. naive_solver. }
  apply IH in H1. destruct H1 as (H2 & H3 & H4). split_and!; try done.
  intros ip. rewrite H4, elem_of_cons. naive_solver.
Qed.

Lemma add_addr_first ip : collected (fun a => a = ip /\ a <> ""%string /\ a <> ClusterIPNone) (add_addr ip (∅, [])).
Proof.
  assert (H0 : collected (fun _ => False) (∅, [])).
  { split_and!; [done|constructor|]. intros a. simpl. split; [apply not_elem_of_nil|done]. }
  destruct (range_add_addr [ip] _ _ H0) as (H1 & H2 & H3). split_and!; try done.
  intros a. rewrite (H3 a). set_solver.
Qed.

(** The addresses of a Service: no empty or headless one, each once. *)
Definition svc_addr (svc : Service) (a : string) : Prop :=
  a <> ""%string /\ a <> ClusterIPNone /\
  ((ClusterIP svc <> ClusterIPNone /\ (a = ClusterIP svc \/ a ∈ ClusterIPs svc)) \/
   a ∈ ExternalIPs svc \/ a ∈ IngressIPs svc).

Lemma collectServiceAddrs_spec svc :
  NoDup (collectServiceAddrs svc) /\ forall a, a ∈ collectServiceAddrs svc <-> svc_addr svc a.
Proof.
  unfold collectServiceAddrs. cbv zeta.
  set (s1 := if decide _ then _ else _).
  assert (H1 : collected (fun a => a <> ""%string /\ a <> ClusterIPNone /\ ClusterIP svc <> ClusterIPNone /\
                                   (a = ClusterIP svc \/ a ∈ ClusterIPs svc)) s1).
  { subst s1. case_decide as Hc.
    - destruct (range_add_addr (ClusterIPs svc) _ _ (add_addr_first (ClusterIP svc))) as (H1 & H2 & H3).
      split_and!; try done. intros a. rewrite (H3 a). naive_solver.
    - split_and!; [done|constructor|]. intros a. simpl. split; [by intros H%not_elem_of_nil|tauto]. }
  apply (range_add_addr (ExternalIPs svc)), (range_add_addr (IngressIPs svc)) in H1 as (_ & Hnd & Hel).
  split; [done|]. intros a. rewrite Hel. unfold svc_addr. tauto.
Qed.

Lemma range_add_pod_ip l s P :
  collected P s -> collected (fun ip => P ip \/ (ip ∈ l /\ ip <> ""%string)) (range l add_pod_ip s).
Proof.
  revert s P. induction l as [|x l IH]; intros [seen out] P (Hs & Hnd & Hel).
  { split_and!; try done. intros ip. rewrite Hel. set_solver. }
  rewrite range_cons.
  assert (H1 : collected (fun ip => P ip \/ (ip = x /\ ip <> ""%string)) (add_pod_ip x (seen, out))).
  { unfold add_pod_ip, collected in *. simpl in *. case_decide as H1; [|case_decide as H2]; simpl.
    - split_and!; try done. intros ip. rewrite Hel. naive_solver.
    - subst seen. apply elem_of_list_to_set, Hel in H2. split_and!; try done. intros ip. rewrite Hel. naive_solver.
    - subst seen. split_and!.
      + rewrite list_to_set_app_L. set_solver.
      + apply NoDup_app. split_and!; [done| |apply NoDup_singleton]. set_solver.
      + intros ip. rewrite elem_of_app, Hel, list_elem_of_singleton. naive_solver. }
  apply IH in H1. destruct H1 as (H2 & H3 & H4). split_and!; try done.
  intros ip. rewrite H4, elem_of_cons. naive_solver.
Qed.

Lemma podIPs_spec pod :
  NoDup (podIPs pod) /\
  forall a, a ∈ podIPs pod <-> a <> ""%string /\ (a = PodIP pod \/ a ∈ PodIPs pod).
Proof.
  unfold podIPs.
  assert (H0 : collected (fun _ => False) (∅, [])).
  { split_and!; [done|constructor|]. intros a. simpl. split; [apply not_elem_of_nil|done]. }
  apply (range_add_pod_ip [PodIP pod]), (range_add_pod_ip (PodIPs pod)) in H0 as (_ & Hnd & Hel).
  split; [done|]. intros a. unfold range in Hel at 2. cbn [foldl] in Hel.
  etrans; [apply Hel|]. set_solver.
Qed.

(** *** The loops over slices as writes *)

Definition ready_endpoint (slices : list (option EndpointSlice)) (sl : EndpointSlice) (ep : Endpoint) : Prop :=
  Some sl ∈ slices /\ ServiceNameLabel sl <> ""%string /\ ep ∈ Endpoints sl /\ not_ready ep = false.

Definition ready_writes {W} (f : EndpointSlice -> Endpoint -> list W) (slices : list (option EndpointSlice)) : list W :=
  slices ≫= option_writes (fun sl =>
    if decide (ServiceNameLabel sl = ""%string) then []
    else Endpoints sl ≫= fun ep => if not_ready ep then [] else f sl ep).

Lemma for_ready_endpoints_writes {W S} (f : EndpointSlice -> Endpoint -> list W) (step : W -> S -> S) body slices s :
  (forall sl ep s, body sl ep s = range (f sl ep) step s) ->
  for_ready_endpoints body slices s = range (ready_writes f slices) step s.
Proof.
  intros Hb. apply range_bind. intros p s'. apply non_nil_writes. intros sl s''.
  case_decide; [done|]. apply range_bind. intros ep s3. by destruct (not_ready ep).
Qed.

Lemma elem_of_ready_writes {W} (f : EndpointSlice -> Endpoint -> list W) slices w :
  w ∈ ready_writes f slices <-> exists sl ep, ready_endpoint slices sl ep /\ w ∈ f sl ep.
Proof.
  unfold ready_writes, ready_endpoint. rewrite elem_of_option_bind. split.
  - intros (sl & Hsl & Hw). case_decide as Hl; [by apply not_elem_of_nil in Hw|].
    apply list_elem_of_bind in Hw as (ep & Hw & Hep).
    destruct (not_ready ep) eqn:Hr; [by apply not_elem_of_nil in Hw|]. by exists sl, ep.
  - intros (sl & ep & (Hsl & Hl & Hep & Hr) & Hw). exists sl. split; [done|].
    rewrite decide_False by done. apply list_elem_of_bind. exists ep. by rewrite Hr.
Qed.

(** [p] is one of the slice's ports. *)
Definition slice_port (sl : EndpointSlice) (port : Z) : Prop := exists p, Some p ∈ slice_Ports sl /\ port = u32 p.

Definition port_writes {V} (v : V) (sl : EndpointSlice) (addr : string) : list (servicePortKey * V) :=
  slice_Ports sl ≫= option_writes (fun p => [((addr, u32 p), v)]).

Lemma for_slice_ports_writes {V} (v : V) (sl : EndpointSlice) (addr : string) (m : gmap servicePortKey V) :
  for_slice_ports sl (fun port => <[(addr, port) := v]>) m = range (port_writes v sl addr) insert_step m.
Proof. apply range_bind. intros p s. by apply non_nil_writes. Qed.

Lemma elem_of_port_writes {V} (v : V) sl addr k v' :
  (k, v') ∈ port_writes v sl addr <-> k.1 = addr /\ slice_port sl k.2 /\ v' = v.
Proof.
  unfold port_writes, slice_port. rewrite elem_of_option_bind. split.
  - intros (p & Hp & [= -> ->]%list_elem_of_singleton). simpl. eauto.
  - intros (<- & (p & Hp & Hk) & ->). exists p. split; [done|]. apply list_elem_of_singleton.
    destruct k as [a q]; simpl in *. by subst q.
Qed.

Definition endpoint_writes {V} (v : EndpointSlice -> Endpoint -> V) (sl : EndpointSlice) (ep : Endpoint) :
    list (servicePortKey * V) :=
  ep_Addresses ep ≫= port_writes (v sl ep) sl.

Lemma endpoint_writes_spec {V} (v : EndpointSlice -> Endpoint -> V) (sl : EndpointSlice) (ep : Endpoint)
    (m : gmap servicePortKey V) :
  range (ep_Addresses ep) (fun addr => for_slice_ports sl (fun port => <[(addr, port) := v sl ep]>)) m
  = range (endpoint_writes v sl ep) insert_step m.
Proof. apply range_bind. intros addr s. apply for_slice_ports_writes. Qed.

Lemma elem_of_endpoint_writes {V} (v : EndpointSlice -> Endpoint -> V) sl ep k v' :
  (k, v') ∈ endpoint_writes v sl ep <-> k.1 ∈ ep_Addresses ep /\ slice_port sl k.2 /\ v' = v sl ep.
Proof.
  unfold endpoint_writes. rewrite list_elem_of_bind. setoid_rewrite elem_of_port_writes. naive_solver.
Qed.

(** *** Addresses of a Service's ready endpoints *)
Lemma serviceAddressesByRef_spec slices r addr :
  addr ∈ default [] (serviceAddressesByRef slices !! r) <->
  exists sl ep, ready_endpoint slices sl ep /\ slice_ref sl = r /\ addr ∈ ep_Addresses ep.
Proof.
  pose (step := fun (w : serviceRef * list string) (m : gmap serviceRef (list string)) =>
                  <[w.1 := default [] (m !! w.1) ++ w.2]> m).
  assert (Hg : forall ws m, addr ∈ default [] (range ws step m !! r) <->
            addr ∈ default [] (m !! r) \/ exists l, (r, l) ∈ ws /\ addr ∈ l).
  { induction ws as [|[r' l] ws IH]; intros m.
    - unfold range. simpl. split; [by left|]. intros [H|(l & H & _)]; [done|by apply not_elem_of_nil in H].
    - rewrite range_cons, IH. subst step. simpl.
      destruct (decide (r' = r)) as [->|Hne].
      + rewrite lookup_insert_eq. simpl. set_solver.
      + rewrite lookup_insert_ne by done. set_solver. }
  unfold serviceAddressesByRef.
  rewrite (for_ready_endpoints_writes (fun sl ep => [(slice_ref sl, ep_Addresses ep)]) step) by done.
  rewrite Hg, lookup_empty. setoid_rewrite elem_of_ready_writes. simpl. split.
  - intros [H|(l & (sl & ep & Hr & [= -> ->]%list_elem_of_singleton) & Hin)]; [by apply not_elem_of_nil in H|eauto].
  - intros (sl & ep & Hr & <- & Hin). right. exists (ep_Addresses ep). split; [|done].
    exists sl, ep. split; [done|]. by apply list_elem_of_singleton.
Qed.

(** *** Numeric target ports *)

(** [port] is a numeric target port of [svc] that differs from the service port. *)
Definition target_port (svc : Service) (port : Z) : Prop :=
  exists sp, sp ∈ svc_Ports svc /\ TargetPortType sp = IntType /\ port = u32 (TargetPortIntVal sp) /\
             port <> u32 (sp_Port sp).

(** [addr] is a ready endpoint address of [svc]. *)
Definition backs (slices : list (option EndpointSlice)) (svc : Service) (addr : string) : Prop :=
  exists sl ep, ready_endpoint slices sl ep /\ slice_ref sl = svc_ref svc /\ addr ∈ ep_Addresses ep.

Definition target_writes {V} (v : Service -> string -> V) (services : list (option Service))
    (slices : list (option EndpointSlice)) : list (servicePortKey * V) :=
  services ≫= option_writes (fun svc =>
    let addrs := default [] (serviceAddressesByRef slices !! svc_ref svc) in
    svc_Ports svc ≫= fun sp =>
      if decide (TargetPortType sp <> IntType) then []
      else if u32 (TargetPortIntVal sp) =? u32 (sp_Port sp) then []
      else (fun addr => ((addr, u32 (TargetPortIntVal sp)), v svc addr)) <$> addrs).

Lemma range_fmap {A W S} (l : list A) (f : A -> W) (step : W -> S -> S) s :
  range (f <$> l) step s = range l (fun x => step (f x)) s.
Proof. unfold range. revert s. induction l as [|x l IH]; intros s; [done|]. simpl. apply IH. Qed.

Lemma for_target_ports_writes {V} (v : Service -> string -> V)
    (services : list (option Service)) (slices : list (option EndpointSlice)) (m : gmap servicePortKey V) :
  for_target_ports services slices (fun svc addr targetPort => <[(addr, targetPort) := v svc addr]>) m
  = range (target_writes v services slices) insert_step m.
Proof.
  apply range_bind. intros p s. apply non_nil_writes. intros svc s'. cbv zeta.
  assert (Hbody : forall addrs, range (svc_Ports svc) (fun sp s =>
       if decide (TargetPortType sp <> IntType) then s
       else if u32 (TargetPortIntVal sp) =? u32 (sp_Port sp) then s
       else range addrs (fun addr => <[(addr, u32 (TargetPortIntVal sp)) := v svc addr]>) s) s'
     = range (svc_Ports svc ≫= fun sp =>
         if decide (TargetPortType sp <> IntType) then []
         else if u32 (TargetPortIntVal sp) =? u32 (sp_Port sp) then []
         else (fun addr => ((addr, u32 (TargetPortIntVal sp)), v svc addr)) <$> addrs) insert_step s').
  { intros addrs. apply range_bind. intros sp s2. case_decide; [done|]. destruct (_ =? _); [done|].
    by rewrite range_fmap. }
  destruct (default [] _) as [|a l] eqn:E; [|apply Hbody].
  rewrite <-Hbody. symmetry. apply range_id. intros sp s2. case_decide; [done|]. by destruct (_ =? _).
Qed.

Lemma elem_of_target_writes {V} (v : Service -> string -> V) services slices k v' :
  (k, v') ∈ target_writes v services slices <->
  exists svc, Some svc ∈ services /\ target_port svc k.2 /\ backs slices svc k.1 /\ v' = v svc k.1.
Proof.
  unfold target_writes, target_port, backs. rewrite elem_of_option_bind.
  setoid_rewrite list_elem_of_bind. split.
  - intros (svc & Hsvc & sp & Hw & Hsp). case_decide as Ht; [by apply not_elem_of_nil in Hw|].
    destruct (_ =? _) eqn:Ep; [by apply not_elem_of_nil in Hw|]. to_prop.
    apply list_elem_of_fmap in Hw as (addr & [= -> ->] & Ha). apply serviceAddressesByRef_spec in Ha.
    exists svc. simpl. split_and!; [done| |done|done].
    exists sp. by split_and!; try done; destruct (TargetPortType sp).
  - intros (svc & Hsvc & (sp & Hsp & Ht & Hk & Hne) & Hb & ->). exists svc. split; [done|].
    exists sp. split; [|done]. rewrite decide_False by (intros H; by apply H).
    rewrite <-Hk. rewrite (proj2 (Z.eqb_neq _ _)) by done.
    apply list_elem_of_fmap. exists k.1. split; [by destruct k|]. by apply serviceAddressesByRef_spec.
Qed.

(** *** Who may be found under an address and port *)

Definition service_claims (services : list (option Service)) (k : servicePortKey) (svc : Service) : Prop :=
  Some svc ∈ services /\ svc_addr svc k.1 /\ exists p, p ∈ svc_Ports svc /\ k.2 = u32 (sp_Port p).

Definition slice_claims (slices : list (option EndpointSlice)) (k : servicePortKey)
    (sl : EndpointSlice) (ep : Endpoint) : Prop :=
  ready_endpoint slices sl ep /\ k.1 ∈ ep_Addresses ep /\ slice_port sl k.2.

Definition target_claims (services : list (option Service)) (slices : list (option EndpointSlice))
    (k : servicePortKey) (svc : Service) : Prop :=
  Some svc ∈ services /\ target_port svc k.2 /\ backs slices svc k.1.

Definition service_writes (services : list (option Service)) : list (servicePortKey * serviceRef) :=
  services ≫= option_writes (fun svc => collectServiceAddrs svc ≫= fun addr =>
    (fun p => ((addr, u32 (sp_Port p)), svc_ref svc)) <$> svc_Ports svc).

Lemma elem_of_service_writes services k r :
  (k, r) ∈ service_writes services <-> exists svc, service_claims services k svc /\ r = svc_ref svc.
Proof.
  unfold service_writes, service_claims. rewrite elem_of_option_bind.
  setoid_rewrite list_elem_of_bind. setoid_rewrite list_elem_of_fmap.
  setoid_rewrite (fun svc => proj2 (collectServiceAddrs_spec svc)). split.
  - intros (svc & Hsvc & addr & (p & [= -> ->] & Hp) & Ha). exists svc. simpl. eauto 10.
  - intros (svc & (Hsvc & Ha & p & Hp & Hk) & ->). exists svc. split; [done|]. exists k.1. split; [|done].
    exists p. split; [|done]. destruct k as [a q]; simpl in *. by subst q.
Qed.

Definition dst_writes (services : list (option Service)) (slices : list (option EndpointSlice)) :
    list (servicePortKey * serviceRef) :=
  service_writes services ++ ready_writes (endpoint_writes (fun sl _ => slice_ref sl)) slices ++
  target_writes (fun svc _ => svc_ref svc) services slices.

Lemma buildDstIndex_writes services slices :
  buildDstIndex services slices = range (dst_writes services slices) insert_step ∅.
Proof.
  unfold buildDstIndex, dst_writes, augmentEndpointIndexWithTargetPorts, mergeEndpointSliceIndex, buildServiceIndex.
  cbv zeta. rewrite !range_app.
  rewrite (for_target_ports_writes (fun svc _ => svc_ref svc)). f_equal.
  rewrite (for_ready_endpoints_writes (endpoint_writes (fun sl _ => slice_ref sl)) insert_step)
    by (intros; apply (endpoint_writes_spec (fun sl _ => slice_ref sl))). f_equal.
  apply range_bind. intros p s. apply non_nil_writes. intros svc s'. apply range_bind. intros addr s2.
  by rewrite range_fmap.
Qed.

Definition entry_of (svcNs svcName : string) (pod : string * string) : EndpointEntry :=
  {| ServiceNamespace := svcNs; ServiceName := svcName; PodNamespace := pod.1; PodName := pod.2 |}.

Definition endpoint_index_writes (services : list (option Service)) (slices : list (option EndpointSlice)) :
    list (servicePortKey * EndpointEntry) :=
  ready_writes (endpoint_writes (fun sl ep =>
    entry_of (slice_Namespace sl) (ServiceNameLabel sl) (endpointPodIdentity (slice_Namespace sl) ep))) slices ++
  target_writes (fun svc addr =>
    entry_of (svc_Namespace svc) (svc_Name svc)
      (default (""%string, ""%string) (endpointPodsByAddress slices !! addr))) services slices.

Lemma buildEndpointIndex_writes services slices :
  buildEndpointIndex services slices = range (endpoint_index_writes services slices) insert_step ∅.
Proof.
  unfold buildEndpointIndex, endpoint_index_writes, augmentEndpointPodIndexWithTargetPorts, mergeEndpointSlicePodIndex.
  cbv zeta. rewrite range_app.
  etrans; [exact (for_target_ports_writes (fun svc addr => entry_of (svc_Namespace svc) (svc_Name svc)
    (default (""%string, ""%string) (endpointPodsByAddress slices !! addr))) _ _ _)|]. f_equal.
  apply for_ready_endpoints_writes. intros sl ep s.
  rewrite <-endpoint_writes_spec. unfold entry_of. by destruct (endpointPodIdentity _ ep).
Qed.

(** *** Claims on an address *)

(** Among the owners [owns] picks out, [r] is the only reference. *)
Definition sole {A R} (owns : A -> Prop) (ref_of : A -> R) (r : R) : Prop :=
  (exists x, owns x /\ ref_of x = r) /\ forall x, owns x -> ref_of x = r.

Lemma sole_claims {A R} (claims : list (string * R)) (owns : A -> Prop) (ref_of : A -> R) a r :
  (forall r, (a, r) ∈ claims <-> exists x, owns x /\ ref_of x = r) ->
  only_owner claims a r <-> sole owns ref_of r.
Proof.
  intros H. unfold only_owner, sole. rewrite H. split; intros [H1 H2]; (split; [done|]).
  - intros x Hx. apply H2, H. by exists x.
  - intros r' Hr'. apply H in Hr' as (x & Hx & <-). by apply H2.
Qed.

Definition pod_claims (pods : list (option Pod)) (a : string) (pod : Pod) : Prop :=
  Some pod ∈ pods /\ indexablePod pod = true /\ a <> ""%string /\ (a = PodIP pod \/ a ∈ PodIPs pod).

Definition node_claims (nodes : list (option Node)) (a : string) (node : Node) : Prop :=
  Some node ∈ nodes /\ node_Name node <> ""%string /\ a <> ""%string /\
  ((NodeInternalIP, a) ∈ Addresses node \/ (NodeExternalIP, a) ∈ Addresses node).

Definition address_claims (services : list (option Service)) (a : string) (svc : Service) : Prop :=
  Some svc ∈ services /\ svc_addr svc a.

Definition endpoint_claims (slices : list (option EndpointSlice)) (a : string) (sl : EndpointSlice) : Prop :=
  exists ep, ready_endpoint slices sl ep /\ a ∈ ep_Addresses ep.

Lemma podIPIndex_spec pods a r :
  lookup_unique (buildPodIPIndex pods) a = Some r <-> sole (pod_claims pods a) pod_ref r.
Proof.
  pose (writes := fun pod => if negb (indexablePod pod) then [] else (fun ip => (ip, pod_ref pod)) <$> podIPs pod).
  assert (H : buildPodIPIndex pods = range (pods ≫= option_writes writes) (add_step zeroRef) ∅).
  { apply range_bind. intros p s. apply non_nil_writes. intros pod s'. subst writes. simpl.
    destruct (negb _); [done|]. rewrite range_fmap. generalize (proj2 (podIPs_spec pod)).
    generalize (podIPs pod). intros ips Hips.
    assert (Hne : Forall (fun ip => ip <> ""%string) ips) by (apply Forall_forall; intros ip Hip; by destruct (proj1 (Hips ip) Hip)).
    clear Hips. revert s'. induction Hne as [|ip ips Hip _ IH]; intros s'; [done|].
    unfold range in *. cbn [foldl]. rewrite decide_False by done. apply IH. }
  rewrite H, lookup_unique_spec. apply sole_claims. intros r'. rewrite elem_of_option_bind. subst writes.
  unfold pod_claims. simpl. split.
  - intros (pod & Hpod & Hw). destruct (indexablePod pod) eqn:Ei; simpl in Hw; [|by apply not_elem_of_nil in Hw].
    apply list_elem_of_fmap in Hw as (ip & [= -> ->] & Hip). apply podIPs_spec in Hip. naive_solver.
  - intros (pod & (Hpod & Hi & Hne & Ha) & <-). exists pod. split; [done|]. rewrite Hi. simpl.
    apply list_elem_of_fmap. exists a. split; [done|]. by apply podIPs_spec.
Qed.

Lemma nodeIPIndex_spec nodes a name :
  lookup_unique (buildNodeIPIndex nodes) a = Some name <-> sole (node_claims nodes a) node_Name name.
Proof.
  pose (addr_writes := fun (node : Node) (ta : NodeAddressType * string) =>
    match ta.1 with
    | NodeInternalIP | NodeExternalIP => if decide (ta.2 = ""%string) then [] else [(ta.2, node_Name node)]
    | _ => []
    end).
  pose (writes := fun node => if decide (node_Name node = ""%string) then [] else Addresses node ≫= addr_writes node).
  assert (H : buildNodeIPIndex nodes = range (nodes ≫= option_writes writes) (add_step ""%string) ∅).
  { apply range_bind. intros p s. apply non_nil_writes. intros node s'. subst writes. simpl.
    case_decide; [done|]. apply range_bind. intros [ty ip] s2. subst addr_writes. simpl.
    destruct ty; try done; by case_decide. }
  rewrite H, lookup_unique_spec. apply sole_claims. intros n. rewrite elem_of_option_bind. subst writes.
  unfold node_claims. simpl. split.
  - intros (node & Hnode & Hw). case_decide as Hn; [by apply not_elem_of_nil in Hw|].
    apply list_elem_of_bind in Hw as ([ty ip] & Hw & Hin). subst addr_writes. simpl in Hw. exists node.
    destruct ty; try (by apply not_elem_of_nil in Hw); (case_decide; [by apply not_elem_of_nil in Hw|]);
      apply list_elem_of_singleton in Hw as [= -> ->]; eauto 10.
  - intros (node & (Hnode & Hn & Hne & Ha) & <-). exists node. split; [done|]. rewrite decide_False by done.
    apply list_elem_of_bind. subst addr_writes.
    destruct Ha as [Ha|Ha]; (eexists; split; [|exact Ha]); simpl; rewrite decide_False by done;
      by apply list_elem_of_singleton.
Qed.

Lemma clusterIPIndex_spec services a r :
  lookup_unique (buildClusterIPIndex services) a = Some r <-> sole (address_claims services a) svc_ref r.
Proof.
  assert (H : buildClusterIPIndex services
    = range (services ≫= option_writes (fun svc => (fun addr => (addr, svc_ref svc)) <$> collectServiceAddrs svc))
        (add_step zeroRef) ∅).
  { apply range_bind. intros p s. apply non_nil_writes. intros svc s'. by rewrite range_fmap. }
  rewrite H, lookup_unique_spec. apply sole_claims. intros r'. rewrite elem_of_option_bind.
  setoid_rewrite list_elem_of_fmap. unfold address_claims. setoid_rewrite (fun svc => proj2 (collectServiceAddrs_spec svc)).
  naive_solver.
Qed.

Lemma endpointIPIndex_spec slices a r :
  lookup_unique (buildEndpointIPIndex slices) a = Some r <-> sole (endpoint_claims slices a) slice_ref r.
Proof.
  unfold buildEndpointIPIndex.
  rewrite (for_ready_endpoints_writes (fun sl ep => (fun addr => (addr, slice_ref sl)) <$> ep_Addresses ep) (add_step zeroRef))
    by (intros; by rewrite range_fmap).
  rewrite lookup_unique_spec. apply sole_claims. intros r'. rewrite elem_of_ready_writes.
  setoid_rewrite list_elem_of_fmap. unfold endpoint_claims. naive_solver.
Qed.

(** ** Properties *)

(** The four address indexes answer with the owner of an address exactly when it
    has a single one, whatever the order and duplication of the listings: for
    pods (indexable ones, by pod IP), nodes (internal and external addresses),
    Services (cluster, external and load-balancer addresses) and labelled
    EndpointSlices (addresses of endpoints that are not unready). *)
Theorem unique_address_indexes pods nodes services slices a :
  (forall r, lookup_unique (buildPodIPIndex pods) a = Some r <-> sole (pod_claims pods a) pod_ref r) /\
  (forall n, lookup_unique (buildNodeIPIndex nodes) a = Some n <-> sole (node_claims nodes a) node_Name n) /\
  (forall r, lookup_unique (buildClusterIPIndex services) a = Some r <-> sole (address_claims services a) svc_ref r) /\
  (forall r, lookup_unique (buildEndpointIPIndex slices) a = Some r <-> sole (endpoint_claims slices a) slice_ref r).
Proof.
  split_and!; intros r; auto using podIPIndex_spec, nodeIPIndex_spec, clusterIPIndex_spec, endpointIPIndex_spec.
Qed.


(** The endpoint index, which decides whether a peer is a Service backend, only
    holds addresses of labelled, not-unready endpoints; a Service it names has
    that very endpoint address behind it. *)
Theorem buildEndpointIndex_ready services slices addr port e :
  buildEndpointIndex services slices !! (addr, port) = Some e ->
  exists sl ep, ready_endpoint slices sl ep /\ addr ∈ ep_Addresses ep /\
    slice_ref sl = {| Namespace := ServiceNamespace e; Name := ServiceName e |} /\
    (slice_port sl port \/ exists svc, Some svc ∈ services /\ svc_ref svc = slice_ref sl /\ target_port svc port).
Proof.
  rewrite buildEndpointIndex_writes. intros H. apply range_insert_Some in H as [H|H]; [|by rewrite lookup_empty in H].
  unfold endpoint_index_writes in H. rewrite elem_of_app, elem_of_ready_writes, elem_of_target_writes in H.
  setoid_rewrite elem_of_endpoint_writes in H. simpl in H.
  destruct H as [(sl & ep & Hr & Ha & Hp & ->)|(svc & Hsvc & Ht & (sl & ep & Hr & Hs & Ha) & ->)].
  - exists sl, ep. simpl. split_and!; try done. by left.
  - exists sl, ep. simpl. split_and!; try done. right. eauto.
Qed.

(** ** Witnesses *)

Definition sample_slice : EndpointSlice :=
  {| slice_Namespace := "shop"; ServiceNameLabel := "cart";
     Endpoints := [{| Ready := Some true; ep_Addresses := ["10.1.0.7"%string];
                      TargetRef := Some {| ref_Kind := "Pod"; ref_Namespace := ""; ref_Name := "cart-0" |} |};
                   {| Ready := Some false; ep_Addresses := ["10.1.0.8"%string]; TargetRef := None |}];
     slice_Ports := [Some 8080; None] |}.

Definition sample_service : Service :=
  {| svc_Namespace := "shop"; svc_Name := "cart"; ClusterIP := "10.96.0.10"; ClusterIPs := ["10.96.0.10"%string];
     ExternalIPs := []; IngressIPs := [];
     svc_Ports := [{| sp_Port := 80; TargetPortType := IntType; TargetPortIntVal := 8080 |}] |}.

Lemma buildEndpointIndex_ready_witness :
  let e := {| ServiceNamespace := "shop"; ServiceName := "cart"; PodNamespace := "shop"; PodName := "cart-0" |} in
  buildEndpointIndex [Some sample_service] [Some sample_slice; None] !! ("10.1.0.7"%string, 8080) = Some e /\
  exists sl ep, ready_endpoint [Some sample_slice; None] sl ep /\ "10.1.0.7"%string ∈ ep_Addresses ep.
Proof.
  intros e.
  assert (H : buildEndpointIndex [Some sample_service] [Some sample_slice; None] !! ("10.1.0.7"%string, 8080) = Some e)
    by (vm_compute; reflexivity).
  split; [exact H|].
  destruct (buildEndpointIndex_ready _ _ _ _ _ H) as (sl & ep & Hr & Ha & _). exists sl, ep. split; [exact Hr|exact Ha].
Defined.
