(* ===== verification/Enricher.v ===== *)
(** * The Kubernetes enricher

    [pkg/collector/kube/enricher.go] of network-flow-aggregator: resolves a
    source pod to its top workload, and a destination address to a Service,
    workload, node or special address.  The informers' listers belong to
    client-go; [Enricher] holds what they answer: [None] is an error, or for a
    field the code compares with nil, a missing lister. *)

From stdpp Require Import base decidable list gmap strings sets.
From Stdlib Require Import ZArith Lia.
From S2P Require Import Prelude GoNet KubeIndex.
Import GoInt.

Local Open Scope Z_scope.

(** ** State *)

Record WorkloadIdentity := mkWorkloadIdentity {
  wl_Namespace : string;
  wl_Kind : string;
  wl_Name : string
}.

Record DstIdentity := mkDstIdentity {
  dst_Namespace : string;
  dst_Kind : string;
  dst_Name : string;
  dst_Addr : string
}.

#[global] Instance WorkloadIdentity_eq_dec : EqDecision WorkloadIdentity.
Proof. solve_decision. Defined.

#[global] Instance DstIdentity_eq_dec : EqDecision DstIdentity.
Proof. solve_decision. Defined.

Record Enricher := mkEnricher {
  podLister_Get : string -> string -> option Pod;
  podLister_List : option (list (option Pod));
  svcLister_List : option (list (option Service));
  epSliceLister_List : option (list (option EndpointSlice));
  nodeLister_List : option (list (option Node));
  rsLister_Get : string -> string -> option (list OwnerReference);
  jobLister_Get : string -> string -> option (list OwnerReference)
}.

Definition maxOwnerWalkDepth : nat := 8.

Definition linuxDefaultEphemeralPortMin : Z := 32768.

(** ** Source workloads *)

(** The first owner marked as controller, else the first owner. *)
Definition controllerOwner (owners : list OwnerReference) : option OwnerReference :=
  match List.find (fun o => bool_decide (Controller o = Some true)) owners with
  | Some o => Some o
  | None => head owners
  end.

Section enricher.
Variable e : Enricher.

(** The loop of [resolveTopWorkload]; [depth] counts the rounds left. *)
Fixpoint walk_owners (depth : nat) (ns kind name : string) (owners : list OwnerReference) : WorkloadIdentity :=
  let here := {| wl_Namespace := ns; wl_Kind := kind; wl_Name := name |} in
  match depth with
  | O => here
  | S depth' =>
      match controllerOwner owners with
      | None => here
      | Some owner =>
          if decide (owner_Kind owner = "Node"%string) then here
          else
            let kind := owner_Kind owner in
            let name := owner_Name owner in
            let there := {| wl_Namespace := ns; wl_Kind := kind; wl_Name := name |} in
            if decide (kind = "ReplicaSet"%string) then
              match rsLister_Get e ns name with
              | None => there
              | Some owners => walk_owners depth' ns kind name owners
              end
            else if decide (kind = "Job"%string) then
              match jobLister_Get e ns name with
              | None => there
              | Some owners => walk_owners depth' ns kind name owners
              end
            else there
      end
  end.

Definition resolveTopWorkload (pod : Pod) : WorkloadIdentity :=
  walk_owners maxOwnerWalkDepth (pod_Namespace pod) "Pod" (pod_Name pod) (OwnerReferences pod).

Definition ResolveSrcWorkload (namespace podName : string) : WorkloadIdentity :=
  let fallback := {| wl_Namespace := namespace; wl_Kind := "Pod"; wl_Name := podName |} in
  if decide (namespace = ""%string \/ podName = ""%string) then fallback
  else
    match podLister_Get e namespace podName with
    | None => fallback
    | Some pod => resolveTopWorkload pod
    end.

(** ** Listings *)

Definition listPods : option (list (option Pod)) := podLister_List e.

Definition listNodes : option (list (option Node)) := nodeLister_List e.

Definition listServicesAndSlices : list (option Service) * list (option EndpointSlice) :=
  (default [] (svcLister_List e), default [] (epSliceLister_List e)).

(** ** Destinations *)

Definition resolveDstFromPodIP (addr : string) : option DstIdentity :=
  match listPods with
  | None => None
  | Some pods =>
      match lookup_unique (buildPodIPIndex pods) addr with
      | None => None
      | Some ref =>
          let wl := ResolveSrcWorkload (Namespace ref) (Name ref) in
          Some {| dst_Namespace := wl_Namespace wl; dst_Kind := wl_Kind wl; dst_Name := wl_Name wl; dst_Addr := addr |}
      end
  end.

Definition resolveDstFromNodeIP (addr : string) : option DstIdentity :=
  match listNodes with
  | None => None
  | Some nodes =>
      match lookup_unique (buildNodeIPIndex nodes) addr with
      | None => None
      | Some name => Some {| dst_Namespace := ""; dst_Kind := "Node"; dst_Name := name; dst_Addr := addr |}
      end
  end.

Definition isLoopbackAddr (addr : string) : bool :=
  match ParseIP addr with
  | None => false
  | Some ip => IsLoopback ip
  end.

Definition isLinkLocalAddr (addr : string) : bool :=
  match ParseIP addr with
  | None => false
  | Some ip => IsLinkLocalUnicast ip
  end.

Definition service_dst (addr : string) (ref : serviceRef) : DstIdentity :=
  {| dst_Namespace := Namespace ref; dst_Kind := "Service"; dst_Name := Name ref; dst_Addr := addr |}.

Definition ResolveDst (addr : string) (port : Z) : DstIdentity :=
  let fallback := {| dst_Namespace := ""; dst_Kind := ""; dst_Name := ""; dst_Addr := addr |} in
  if decide (addr = ""%string) then fallback
  else
    let '(services, slices) := listServicesAndSlices in
    match buildDstIndex services slices !! (addr, port) with
    | Some ref => service_dst addr ref
    | None =>
    match lookup_unique (buildClusterIPIndex services) addr with
    | Some ref => service_dst addr ref
    | None =>
    match lookup_unique (buildEndpointIPIndex slices) addr with
    | Some ref => service_dst addr ref
    | None =>
    match (if port <? linuxDefaultEphemeralPortMin then resolveDstFromPodIP addr else None) with
    | Some dst => dst
    | None =>
    match resolveDstFromNodeIP addr with
    | Some dst => dst
    | None =>
        if isLoopbackAddr addr then
          {| dst_Namespace := ""; dst_Kind := "Loopback"; dst_Name := "localhost"; dst_Addr := addr |}
        else if isLinkLocalAddr addr then
          {| dst_Namespace := ""; dst_Kind := "LinkLocal"; dst_Name := "metadata"; dst_Addr := addr |}
        else fallback
    end end end end end.

(** ** Endpoints *)

Definition LookupEndpoint (addr : string) (port : Z) : option EndpointEntry :=
  if decide (addr = ""%string \/ port = 0) then None
  else
    let '(services, slices) := listServicesAndSlices in
    match services, slices with
    | [], [] => None
    | _, _ => buildEndpointIndex services slices !! (addr, port)
    end.

Definition ResolveBackendFromEndpoint (addr : string) (port : Z) : option BackendIdentity :=
  match LookupEndpoint addr port with
  | None => None
  | Some entry =>
      if decide (PodName entry = ""%string) then None
      else
        let workload := ResolveSrcWorkload (PodNamespace entry) (PodName entry) in
        Some {| be_PodNamespace := PodNamespace entry; be_PodName := PodName entry;
                WorkloadNamespace := wl_Namespace workload; WorkloadKind := wl_Kind workload;
                WorkloadName := wl_Name workload;
                be_ServiceNamespace := ServiceNamespace entry; be_ServiceName := ServiceName entry |}
  end.

(** ** Lemmas *)

(** The owner of an object, if the walk follows it: a Node is not followed. *)
Definition followed_owner (owners : list OwnerReference) : option (string * string) :=
  match controllerOwner owners with
  | Some o => if decide (owner_Kind o = "Node"%string) then None else Some (owner_Kind o, owner_Name o)
  | None => None
  end.

(** What the listers say about the owner of a controller. *)
Definition controller_owner (ns : string) (kn : string * string) : option (string * string) :=
  if decide (kn.1 = "ReplicaSet"%string) then rsLister_Get e ns kn.2 ≫= followed_owner
  else if decide (kn.1 = "Job"%string) then jobLister_Get e ns kn.2 ≫= followed_owner
  else None.

(** [n] steps up the owner chain. *)
Inductive owner_chain (ns : string) : nat -> string * string -> string * string -> Prop :=
| chain_here x : owner_chain ns 0 x x
| chain_up n x y z : controller_owner ns x = Some y -> owner_chain ns n y z -> owner_chain ns (S n) x z.

Lemma walk_owners_spec depth ns kind name owners :
  let w := walk_owners depth ns kind name owners in
  wl_Namespace w = ns /\
  ((followed_owner owners = None \/ depth = 0%nat) /\ (wl_Kind w, wl_Name w) = (kind, name) \/
   exists x n, followed_owner owners = Some x /\ (n < depth)%nat /\ owner_chain ns n x (wl_Kind w, wl_Name w) /\
     (S n = depth \/ controller_owner ns (wl_Kind w, wl_Name w) = None)).
Proof.
  revert kind name owners. induction depth as [|depth IH]; intros kind name owners; simpl.
  { split; [done|]. left. auto. }
  destruct (controllerOwner owners) as [owner|] eqn:Eo.
  2:{ split; [done|]. left. split; [|done]. left. unfold followed_owner. by rewrite Eo. }
  destruct (decide (owner_Kind owner = "Node"%string)) as [Hn|Hn].
  { split; [done|]. left. split; [|done]. left. unfold followed_owner. rewrite Eo. by rewrite decide_True. }
  assert (Hf : followed_owner owners = Some (owner_Kind owner, owner_Name owner)).
  { unfold followed_owner. rewrite Eo. by rewrite decide_False. }
  set (x := (owner_Kind owner, owner_Name owner)) in *.
  (* the three ways to stop at [x], and the way on *)
  assert (Hstop : controller_owner ns x = None ->
    let w := {| wl_Namespace := ns; wl_Kind := owner_Kind owner; wl_Name := owner_Name owner |} in
    wl_Namespace w = ns /\
    ((followed_owner owners = None \/ S depth = 0%nat) /\ (wl_Kind w, wl_Name w) = (kind, name) \/
     exists x n, followed_owner owners = Some x /\ (n < S depth)%nat /\ owner_chain ns n x (wl_Kind w, wl_Name w) /\
       (S n = S depth \/ controller_owner ns (wl_Kind w, wl_Name w) = None))).
  { intros Hx. split; [done|]. right. exists x, 0%nat. split_and!; [done|lia|constructor|by right]. }
  assert (Hon : forall os, controller_owner ns x = followed_owner os ->
    let w := walk_owners depth ns (owner_Kind owner) (owner_Name owner) os in
    wl_Namespace w = ns /\
    ((followed_owner owners = None \/ S depth = 0%nat) /\ (wl_Kind w, wl_Name w) = (kind, name) \/
     exists x n, followed_owner owners = Some x /\ (n < S depth)%nat /\ owner_chain ns n x (wl_Kind w, wl_Name w) /\
       (S n = S depth \/ controller_owner ns (wl_Kind w, wl_Name w) = None))).
  { intros os Hos. cbv zeta in *.
    destruct (IH (owner_Kind owner) (owner_Name owner) os) as [Hns [[Hd Hw]|(y & n & Hy & Hlt & Hc & Hs)]];
      (split; [exact Hns|]); right.
    - rewrite Hw. exists x, 0%nat. split_and!; [done|lia|constructor|].
      destruct Hd as [Hd|Hd]; [right; fold x; by rewrite Hos|left; lia].
    - exists x, (S n). split_and!; [done|lia| |destruct Hs as [Hs|Hs]; [left; lia|by right]].
      econstructor; [by rewrite Hos|done]. }
  unfold controller_owner in Hstop, Hon. subst x. cbn [fst snd] in Hstop, Hon.
  destruct (decide (owner_Kind owner = "ReplicaSet"%string)).
  - destruct (rsLister_Get e ns (owner_Name owner)); [by apply Hon|by apply Hstop].
  - destruct (decide (owner_Kind owner = "Job"%string)); [|by apply Hstop].
    destruct (jobLister_Get e ns (owner_Name owner)); [by apply Hon|by apply Hstop].
Qed.
End enricher.

(** ** Properties *)

(** The source workload of a pod is in the pod's namespace.  It is the pod itself
    exactly when the pod has no owner to follow (none, or its node); otherwise it
    is reached from the pod's controlling owner by fewer than eight steps up the
    chain of ReplicaSets and Jobs, and is the top of that chain unless the
    eight steps were used up. *)
Theorem resolveTopWorkload_reaches_top (e : Enricher) (pod : Pod) :
  let w := resolveTopWorkload e pod in
  wl_Namespace w = pod_Namespace pod /\
  match followed_owner (OwnerReferences pod) with
  | None => (wl_Kind w, wl_Name w) = ("Pod"%string, pod_Name pod)
  | Some owner =>
      exists n, (n < 8)%nat /\ owner_chain e (pod_Namespace pod) n owner (wl_Kind w, wl_Name w) /\
        (n = 7%nat \/ controller_owner e (pod_Namespace pod) (wl_Kind w, wl_Name w) = None)
  end.
Proof.
  cbv zeta. destruct (walk_owners_spec e 8 (pod_Namespace pod) "Pod" (pod_Name pod) (OwnerReferences pod))
    as [Hns [[[Hf|Hf] Hw]|(x & n & Hf & Hn & Hc & Hs)]]; (split; [exact Hns|]).
  - by rewrite Hf.
  - discriminate.
  - rewrite Hf. exists n. split; [done|]. split; [done|]. destruct Hs as [Hs|Hs]; [left; lia|by right].
Qed.

(** The kinds a destination can have without being a workload. *)
Definition non_workload_kind (k : string) : Prop :=
  k ∈ ["Service"; "Node"; "Loopback"; "LinkLocal"; ""]%string.

(** A destination on an ephemeral port is never attributed to a workload: it is a
    Service, a node, a special address or nothing, so that a recycled pod IP
    seen from the reply side makes no false edge; and the address it carries is
    the one asked for. *)
Theorem ResolveDst_ephemeral_no_workload (e : Enricher) addr port :
  linuxDefaultEphemeralPortMin <= port ->
  non_workload_kind (dst_Kind (ResolveDst e addr port)) /\ dst_Addr (ResolveDst e addr port) = addr.
Proof.
  intros Hp. unfold ResolveDst, non_workload_kind. cbv zeta.
  case_decide; [simpl; split; [set_solver|done]|]. unfold listServicesAndSlices.
  rewrite (proj2 (Z.ltb_ge _ _)) by exact Hp.
  destruct (buildDstIndex _ _ !! _); [simpl; split; [set_solver|done]|].
  destruct (lookup_unique (buildClusterIPIndex _) _); [simpl; split; [set_solver|done]|].
  destruct (lookup_unique (buildEndpointIPIndex _) _); [simpl; split; [set_solver|done]|].
  unfold resolveDstFromNodeIP. destruct (listNodes e); [destruct (lookup_unique _ _)|];
    try (simpl; split; [set_solver|done]);
    (destruct (isLoopbackAddr addr); [|destruct (isLinkLocalAddr addr)]); simpl; split; set_solver.
Qed.

(** A destination address that the listed Services, and they alone, use for one
    Service resolves to that Service on every port, whatever pods or nodes
    claim the address; the more exact address-and-port index can only name
    another Service that owns the address with that very port. *)
Theorem ResolveDst_service_first (e : Enricher) addr port r :
  addr <> ""%string ->
  sole (address_claims (listServicesAndSlices e).1 addr) svc_ref r ->
  exists r', ResolveDst e addr port = service_dst addr r' /\
    match buildDstIndex (listServicesAndSlices e).1 (listServicesAndSlices e).2 !! (addr, port) with
    | Some exact => r' = exact
    | None => r' = r
    end.
Proof.
  intros Ha Hs. apply clusterIPIndex_spec in Hs. unfold ResolveDst. cbv zeta.
  rewrite decide_False by done. unfold listServicesAndSlices in *. cbn [fst snd] in *.
  destruct (buildDstIndex _ _ !! _) as [x|]; [by exists x|]. rewrite Hs. by exists r.
Qed.

(** A backend is named only for a port and an address of an endpoint that is not
    unready, of a labelled slice of the very Service the backend records; its
    workload is the one the pod resolves to. *)
Theorem ResolveBackendFromEndpoint_sound (e : Enricher) addr port b :
  ResolveBackendFromEndpoint e addr port = Some b ->
  addr <> ""%string /\ port <> 0 /\ be_PodName b <> ""%string /\
  (exists sl ep, ready_endpoint (listServicesAndSlices e).2 sl ep /\ addr ∈ ep_Addresses ep /\
     MatchesService b (slice_Namespace sl) (ServiceNameLabel sl) = true) /\
  {| wl_Namespace := WorkloadNamespace b; wl_Kind := WorkloadKind b; wl_Name := WorkloadName b |}
    = ResolveSrcWorkload e (be_PodNamespace b) (be_PodName b).
Proof.
  unfold ResolveBackendFromEndpoint. destruct (LookupEndpoint e addr port) as [entry|] eqn:El; [|done].
  case_decide as Hn; [done|]. intros [= <-]. simpl. unfold LookupEndpoint, listServicesAndSlices in *.
  case_decide as Hd; [done|]. simpl.
  assert (Hl : buildEndpointIndex (default [] (svcLister_List e)) (default [] (epSliceLister_List e)) !! (addr, port)
               = Some entry).
  { destruct (default [] (svcLister_List e)), (default [] (epSliceLister_List e)); try done. }
  split; [tauto|]. split; [tauto|]. split; [done|]. split; [|by destruct (ResolveSrcWorkload e _ _)].
  rewrite buildEndpointIndex_writes in Hl. apply range_insert_Some in Hl as [Hl|Hl]; [|by rewrite lookup_empty in Hl].
  unfold endpoint_index_writes in Hl. rewrite elem_of_app, elem_of_ready_writes, elem_of_target_writes in Hl.
  setoid_rewrite elem_of_endpoint_writes in Hl. unfold MatchesService. simpl in *.
  destruct Hl as [(sl & ep & Hr & Ha & _ & ->)|(svc & _ & _ & (sl & ep & Hr & Hs & Ha) & ->)];
    exists sl, ep; (split; [done|]); (split; [done|]); apply bool_decide_eq_true; simpl; [done|].
  unfold slice_ref, svc_ref in Hs. by injection Hs as -> ->.
Qed.

(** ** Witnesses *)

Definition sample_pod : Pod :=
  {| pod_Namespace := "shop"; pod_Name := "cart-0";
     OwnerReferences := [{| owner_Kind := "ReplicaSet"; owner_Name := "cart-6f"; Controller := Some true |}];
     HostNetwork := false; Phase := PodRunning; PodIP := "10.1.0.7"; PodIPs := ["10.1.0.7"%string] |}.

Definition sample_enricher : Enricher :=
  {| podLister_Get := fun ns name => if decide (ns = "shop"%string /\ name = "cart-0"%string) then Some sample_pod else None;
     podLister_List := Some [Some sample_pod];
     svcLister_List := Some [Some sample_service];
     epSliceLister_List := Some [Some sample_slice];
     nodeLister_List := Some [Some {| node_Name := "node-1"; Addresses := [(NodeInternalIP, "192.168.0.4"%string)] |}];
     rsLister_Get := fun ns name =>
       if decide (name = "cart-6f"%string)
       then Some [{| owner_Kind := "Deployment"; owner_Name := "cart"; Controller := Some true |}] else None;
     jobLister_Get := fun _ _ => None |}.

Example resolveTopWorkload_deployment :
  resolveTopWorkload sample_enricher sample_pod
  = {| wl_Namespace := "shop"; wl_Kind := "Deployment"; wl_Name := "cart" |}.
Proof. reflexivity. Qed.

(** A bare pod IP on an ephemeral port stays unattributed; below it would be a workload. *)
Definition bare_enricher : Enricher :=
  {| podLister_Get := podLister_Get sample_enricher; podLister_List := podLister_List sample_enricher;
     svcLister_List := None; epSliceLister_List := None; nodeLister_List := None;
     rsLister_Get := rsLister_Get sample_enricher; jobLister_Get := jobLister_Get sample_enricher |}.

Lemma ResolveDst_ephemeral_no_workload_witness :
  dst_Kind (ResolveDst bare_enricher "10.1.0.7" 8080) = "Deployment"%string /\
  non_workload_kind (dst_Kind (ResolveDst bare_enricher "10.1.0.7" 40000)).
Proof.
  split; [vm_compute; reflexivity|].
  exact (proj1 (ResolveDst_ephemeral_no_workload bare_enricher "10.1.0.7" 40000 ltac:(unfold linuxDefaultEphemeralPortMin; lia))).
Defined.

Lemma ResolveDst_service_first_witness :
  let r := {| Namespace := "shop"; Name := "cart" |} in
  exists r', ResolveDst sample_enricher "10.96.0.10" 9999 = service_dst "10.96.0.10" r' /\
    match buildDstIndex [Some sample_service] [Some sample_slice] !! ("10.96.0.10"%string, 9999) with
    | Some exact => r' = exact
    | None => r' = r
    end.
Proof.
  intros r. apply (ResolveDst_service_first sample_enricher "10.96.0.10" 9999 r); [discriminate|].
  split.
  - exists sample_service. split; [|reflexivity]. split; [left|]. split; [discriminate|]. split; [discriminate|].
    left. split; [discriminate|]. left. reflexivity.
  - intros svc [Hsvc _]. apply list_elem_of_singleton in Hsvc. injection Hsvc as ->. reflexivity.
Defined.

Lemma ResolveBackendFromEndpoint_sound_witness :
  exists b, ResolveBackendFromEndpoint sample_enricher "10.1.0.7" 8080 = Some b /\ WorkloadKind b = "Deployment"%string /\
    be_PodName b <> ""%string.
Proof.
  destruct (ResolveBackendFromEndpoint sample_enricher "10.1.0.7" 8080) as [b|] eqn:E.
  - exists b. split; [reflexivity|]. split; [vm_compute in E; injection E as <-; reflexivity|].
    apply (ResolveBackendFromEndpoint_sound sample_enricher _ _ b E).
  - exfalso. vm_compute in E. discriminate.
Defined.
