(* ===== verification/DnsCache.v ===== *)
(** * DNS answer cache

    [pkg/collector/dns/cache.go] of network-flow-aggregator: remembers which
    hostname an IP address was last answered for, per workload and overall, so
    that later TCP flows to the address can be named. *)

From stdpp Require Import base decidable list gmap strings.
From Stdlib Require Import ZArith Lia.
From S2P Require Import Prelude GoStrings.
Import GoTime.

Local Open Scope Z_scope.

(** ** State *)

Record cacheEntry := mkCacheEntry {
  hostname : string;
  seenAt : Z
}.

(** [workloadIPKey]: namespace, pod and ip. *)
Abbreviation workloadIPKey := (string * string * string)%type.

Record Cache := mkCache {
  byWorkload : gmap workloadIPKey cacheEntry;
  byIP : gmap string cacheEntry;
  maxAge : Z
}.

Definition NewCache (maxAge : Z) : Cache :=
  {| byWorkload := ∅; byIP := ∅; maxAge := if maxAge <=? 0 then 15 * Minute else maxAge |}.

(** ** Operations *)

Definition expired (c : Cache) (entry : cacheEntry) (now : Z) : bool :=
  (0 <? maxAge c) && (maxAge c <? Sub now (seenAt entry)).

Definition isInternalHostname (name : string) : bool :=
  let lower := ToLower name in
  HasSuffix lower ".svc.cluster.local" || HasSuffix lower ".cluster.local".

Definition isCoreDNSPod (ns pod : string) : bool :=
  bool_decide (ns = "kube-system"%string) && HasPrefix pod "coredns-".

Definition isCacheableResponse (qtype rcode : string) : bool :=
  if decide (ToUpper (TrimSpace qtype) ∈ ["A"; "AAAA"; ""]%string)
  then EqualFold (TrimSpace rcode) "Success"
  else false.

(** Deleting the expired entries while ranging over the map. *)
Definition pruneLocked (now : Z) (c : Cache) : Cache :=
  {| byWorkload := filter (fun ke => expired c ke.2 now = false) (byWorkload c);
     byIP := filter (fun ke => expired c ke.2 now = false) (byIP c);
     maxAge := maxAge c |}.

Definition record_address (srcNs srcPod hostname : string) (ts : Z) (c : Cache) (ip : string) : Cache :=
  let ip := TrimSpace ip in
  if decide (ip = ""%string) then c
  else
    let entry := {| hostname := hostname; seenAt := ts |} in
    {| byWorkload := <[(srcNs, srcPod, ip) := entry]> (byWorkload c);
       byIP := <[ip := entry]> (byIP c);
       maxAge := maxAge c |}.

(** [None] is a nil [*Cache]; [now] is what [time.Now()] reads. *)
Definition RecordResponse (now : Z) (srcNs srcPod hostname qtype rcode : string)
    (addresses : list string) (ts : Z) (c : option Cache) : option Cache :=
  match c with
  | None => None
  | Some c0 =>
      if bool_decide (addresses = []) || negb (isCacheableResponse qtype rcode) then c
      else
        let hostname := TrimSuffix (TrimSpace hostname) "." in
        if bool_decide (hostname = ""%string) || isInternalHostname hostname || isCoreDNSPod srcNs srcPod then c
        else
          let ts := if IsZero ts then now else ts in
          Some (pruneLocked ts (foldl (record_address srcNs srcPod hostname ts) c0 addresses))
  end.

Definition Lookup (now : Z) (ns pod ip : string) (c : option Cache) : option string :=
  match c with
  | None => None
  | Some c =>
      if decide (ip = ""%string) then None
      else
        let from_ip :=
          match byIP c !! ip with
          | Some entry => if expired c entry now then None else Some (hostname entry)
          | None => None
          end in
        match byWorkload c !! (ns, pod, ip) with
        | Some entry => if expired c entry now then from_ip else Some (hostname entry)
        | None => from_ip
        end
  end.

(** ** Lemmas *)

Definition entry_ok (e : cacheEntry) : Prop :=
  hostname e <> ""%string /\ isInternalHostname (hostname e) = false.

(** Every entry names an external host; whatever a workload was answered, the
    address is in the overall map too. *)
Record wf (c : Cache) : Prop := {
  wf_age : 0 < maxAge c;
  wf_byIP : map_Forall (fun ip e => ip <> ""%string /\ entry_ok e) (byIP c);
  wf_byWorkload : map_Forall (fun k e => k.2 <> ""%string /\ entry_ok e /\ isCoreDNSPod k.1.1 k.1.2 = false) (byWorkload c)
}.

Lemma wf_NewCache age : wf (NewCache age).
Proof.
  unfold NewCache, Minute, Second. split; simpl; [|apply map_Forall_empty|apply map_Forall_empty].
  destruct (age <=? 0) eqn:E; to_prop; lia.
Qed.

Lemma wf_record_address ns pod h ts c ip :
  h <> ""%string -> isInternalHostname h = false -> isCoreDNSPod ns pod = false ->
  wf c -> wf (record_address ns pod h ts c ip).
Proof.
  intros Hh Hi Hp [H1 H2 H3]. unfold record_address. cbv zeta. case_decide; [done|].
  split; simpl; [done| |]; by apply map_Forall_insert_2.
Qed.

Lemma wf_pruneLocked now c : wf c -> wf (pruneLocked now c).
Proof.
  intros [H1 H2 H3]. split; simpl; [done| |]; intros k e He; apply map_lookup_filter_Some in He as [He _];
    [by apply H2|by apply H3].
Qed.

Lemma record_addresses_maxAge ns pod h ts c addresses :
  maxAge (foldl (record_address ns pod h ts) c addresses) = maxAge c.
Proof.
  apply (foldl_inv (fun c' => maxAge c' = maxAge c)); [done|]. intros c' ip _ <-.
  unfold record_address. cbv zeta. by case_decide.
Qed.

(** The addresses a response records. *)
Definition recorded (addresses : list string) (ip : string) : Prop :=
  ip <> ""%string /\ ip ∈ TrimSpace <$> addresses.

Lemma record_addresses_lookup ns pod h ts c addresses ip :
  let c' := foldl (record_address ns pod h ts) c addresses in
  (recorded addresses ip ->
     byIP c' !! ip = Some {| hostname := h; seenAt := ts |} /\
     byWorkload c' !! (ns, pod, ip) = Some {| hostname := h; seenAt := ts |}) /\
  (~ recorded addresses ip -> byIP c' !! ip = byIP c !! ip) /\
  (forall k, (k.1 <> (ns, pod) \/ ~ recorded addresses k.2) -> byWorkload c' !! k = byWorkload c !! k).
Proof.
  cbv zeta. unfold recorded. induction addresses as [|a addresses IH] using rev_ind.
  { simpl. split_and!; [|done|done]. intros [_ H]. by apply not_elem_of_nil in H. }
  rewrite foldl_app. cbn [foldl]. destruct IH as (H1 & H2 & H3).
  set (c1 := foldl _ c addresses) in *. unfold record_address. cbv zeta.
  rewrite fmap_app. case_decide as Ha.
  { split_and!.
    - intros [Hne [Hin|Hin%list_elem_of_singleton]%elem_of_app]; [by apply H1|congruence].
    - intros Hn. apply H2. set_solver.
    - intros k Hk. apply H3. destruct Hk as [Hk|Hk]; [by left|right; set_solver]. }
  simpl. destruct (decide (TrimSpace a = ip)) as [<-|Hne].
  - split_and!.
    + intros _. by rewrite !lookup_insert_eq.
    + intros []. split; [done|]. set_solver.
    + intros k Hk. rewrite lookup_insert_ne; [apply H3; destruct Hk as [Hk|Hk]; [by left|right; set_solver]|].
      intros <-. simpl in Hk. destruct Hk as [Hk|Hk]; [done|]. apply Hk. set_solver.
  - split_and!.
    + intros [Hip [Hin|Hin%list_elem_of_singleton]%elem_of_app]; [|congruence].
      rewrite !lookup_insert_ne by congruence. by apply H1.
    + intros Hn. rewrite lookup_insert_ne by done. apply H2. set_solver.
    + intros k Hk. rewrite lookup_insert_ne; [apply H3; destruct Hk as [Hk|Hk]; [by left|right; set_solver]|].
      intros <-. simpl in Hk. destruct Hk as [Hk|Hk]; [done|]. apply Hk. set_solver.
Qed.

(** A response that is cacheable for this pod and host. *)
Definition cacheable (ns pod h qtype rcode : string) (addresses : list string) : Prop :=
  addresses <> [] /\ isCacheableResponse qtype rcode = true /\
  TrimSuffix (TrimSpace h) "." <> ""%string /\
  isInternalHostname (TrimSuffix (TrimSpace h) ".") = false /\ isCoreDNSPod ns pod = false.

#[global] Instance cacheable_dec ns pod h qtype rcode addresses : Decision (cacheable ns pod h qtype rcode addresses).
Proof. unfold cacheable. apply _. Defined.

Lemma RecordResponse_cases now ns pod h qtype rcode addresses ts c :
  RecordResponse now ns pod h qtype rcode addresses ts (Some c) =
  if decide (cacheable ns pod h qtype rcode addresses) then
    let ts := if IsZero ts then now else ts in
    Some (pruneLocked ts (foldl (record_address ns pod (TrimSuffix (TrimSpace h) ".") ts) c addresses))
  else Some c.
Proof.
  unfold RecordResponse. cbv zeta. case_decide as Hc.
  - destruct Hc as (H1 & H2 & H3 & H4 & H5). rewrite H2, H4, H5, !bool_decide_eq_false_2 by done. done.
  - unfold cacheable in Hc. destruct (bool_decide (addresses = [])) eqn:E1; to_prop; [done|].
    destruct (isCacheableResponse qtype rcode) eqn:E2; [|done].
    destruct (bool_decide (_ = ""%string)) eqn:E3; to_prop; [done|].
    destruct (isInternalHostname _) eqn:E4; [done|].
    destruct (isCoreDNSPod ns pod) eqn:E5; [done|]. tauto.
Qed.

Lemma RecordResponse_wf now ns pod h qtype rcode addresses ts c :
  wf c -> exists c', RecordResponse now ns pod h qtype rcode addresses ts (Some c) = Some c' /\ wf c'.
Proof.
  intros Hwf. rewrite RecordResponse_cases. case_decide as Hc; [|by exists c].
  destruct Hc as (_ & _ & Hne & Hi & Hp). eexists. split; [done|]. apply wf_pruneLocked.
  apply foldl_inv; [done|]. intros c' ip _ Hc'. by apply wf_record_address.
Qed.

(** The arguments of one [RecordResponse] call. *)
Record response := mkResponse {
  r_now : Z;
  r_ns : string;
  r_pod : string;
  r_host : string;
  r_qtype : string;
  r_rcode : string;
  r_addresses : list string;
  r_ts : Z
}.

Definition record (c : option Cache) (r : response) : option Cache :=
  RecordResponse (r_now r) (r_ns r) (r_pod r) (r_host r) (r_qtype r) (r_rcode r) (r_addresses r) (r_ts r) c.

(** Response [r] put entry [e] in the cache for address [ip]. *)
Definition answers (r : response) (ip : string) (e : cacheEntry) : Prop :=
  cacheable (r_ns r) (r_pod r) (r_host r) (r_qtype r) (r_rcode r) (r_addresses r) /\
  recorded (r_addresses r) ip /\
  e = {| hostname := TrimSuffix (TrimSpace (r_host r)) ".";
         seenAt := if IsZero (r_ts r) then r_now r else r_ts r |}.

(** Every entry comes from one of the responses, and an entry of a workload from
    a response to that workload. *)
Definition sourced (rs : list response) (c : Cache) : Prop :=
  map_Forall (fun ip e => exists r, r ∈ rs /\ answers r ip e) (byIP c) /\
  map_Forall (fun k e => exists r, r ∈ rs /\ answers r k.2 e /\ k.1 = (r_ns r, r_pod r)) (byWorkload c).

#[global] Instance recorded_dec addresses ip : Decision (recorded addresses ip).
Proof. unfold recorded. apply _. Defined.

Lemma record_sourced rs r c :
  sourced rs c -> exists c', record (Some c) r = Some c' /\ sourced (rs ++ [r]) c' /\ maxAge c' = maxAge c.
Proof.
  intros [H1 H2]. unfold record. rewrite RecordResponse_cases.
  assert (Hmono : sourced (rs ++ [r]) c).
  { split; [intros ip e He; destruct (H1 ip e He) as (r' & ? & ?)|intros k e He; destruct (H2 k e He) as (r' & ? & ? & ?)];
      exists r'; set_solver. }
  case_decide as Hc; [|by exists c]. cbv zeta. eexists. split; [done|].
  set (ts := if IsZero (r_ts r) then r_now r else r_ts r). set (h := TrimSuffix (TrimSpace (r_host r)) ".").
  split; [|apply record_addresses_maxAge]. destruct Hmono as [M1 M2].
  assert (Hr : r ∈ rs ++ [r]) by set_solver.
  split.
  - intros ip e He. cbn [pruneLocked byIP] in He. apply map_lookup_filter_Some in He as [He _].
    destruct (record_addresses_lookup (r_ns r) (r_pod r) h ts c (r_addresses r) ip) as (L1 & L2 & _).
    destruct (decide (recorded (r_addresses r) ip)) as [Hrec|Hrec].
    + rewrite (proj1 (L1 Hrec)) in He. injection He as <-. by exists r.
    + rewrite L2 in He by done. by apply M1.
  - intros k e He. cbn [pruneLocked byWorkload] in He. apply map_lookup_filter_Some in He as [He _].
    destruct (record_addresses_lookup (r_ns r) (r_pod r) h ts c (r_addresses r) k.2) as (L1 & _ & L3).
    destruct (decide (k.1 = (r_ns r, r_pod r))) as [Hk|Hk]; [destruct (decide (recorded (r_addresses r) k.2)) as [Hrec|Hrec]|].
    + destruct k as [nspod ip]. simpl in *. subst nspod. rewrite (proj2 (L1 Hrec)) in He. injection He as <-. by exists r.
    + rewrite L3 in He by auto. by apply M2.
    + rewrite L3 in He by auto. by apply M2.
Qed.

Lemma records_sourced age rs :
  exists c, foldl record (Some (NewCache age)) rs = Some c /\ sourced rs c /\ maxAge c = maxAge (NewCache age).
Proof.
  induction rs as [|r rs IH] using rev_ind.
  - exists (NewCache age). split_and!; [done| |done]. split; apply map_Forall_empty.
  - rewrite foldl_app. destruct IH as (c & -> & Hs & <-). simpl. by apply record_sourced.
Qed.

Lemma not_expired c e now : 0 < maxAge c -> expired c e now = false -> Sub now (seenAt e) <= maxAge c.
Proof.
  intros Ha H. unfold expired in H. rewrite (proj2 (Z.ltb_lt _ _) Ha) in H. simpl in H. to_prop. lia.
Qed.

Lemma fresh_not_expired c e now :
  maxAge c < 2 ^ 62 -> 0 <= now - seenAt e <= maxAge c -> expired c e now = false.
Proof.
  intros Hm H. unfold expired, Sub, GoInt.min_int64, GoInt.max_int64.
  apply andb_false_iff. right. apply Z.ltb_ge. lia.
Qed.

(** ** Properties *)

(** C16. Whatever responses were recorded, a hostname the cache answers for an address
    is the trimmed host of a recorded response that listed the address and was
    seen within the cache's maximum age; it is a nonempty name outside the
    cluster, and the response was a successful address lookup. *)
Theorem dns_lookup_sourced_and_fresh age rs now ns pod ip h :
  Lookup now ns pod ip (foldl record (Some (NewCache age)) rs) = Some h ->
  h <> ""%string /\ isInternalHostname h = false /\
  exists r e, r ∈ rs /\ answers r ip e /\ hostname e = h /\
    Sub now (seenAt e) <= (if age <=? 0 then 15 * Minute else age).
Proof.
  destruct (records_sourced age rs) as (c & -> & [H1 H2] & Hm).
  assert (Hage : 0 < maxAge c) by (rewrite Hm; apply wf_NewCache).
  change (if age <=? 0 then 15 * Minute else age) with (maxAge (NewCache age)). rewrite <-Hm.
  assert (Hgoal : forall e r, r ∈ rs -> answers r ip e -> expired c e now = false ->
    hostname e <> ""%string /\ isInternalHostname (hostname e) = false /\
    exists r e', r ∈ rs /\ answers r ip e' /\ hostname e' = hostname e /\ Sub now (seenAt e') <= maxAge c).
  { intros e r Hr Ha Hx. pose proof Ha as ((_ & _ & Hne & Hi & _) & _ & ->). simpl.
    split; [done|]. split; [done|]. exists r. eexists. split; [done|]. split; [exact Ha|]. split; [done|].
    by apply not_expired. }
  unfold Lookup. case_decide as Hne; [done|]. cbv zeta.
  assert (Hip : match byIP c !! ip with
                | Some entry => if expired c entry now then None else Some (hostname entry)
                | None => None
                end = Some h ->
    h <> ""%string /\ isInternalHostname h = false /\
    exists r e, r ∈ rs /\ answers r ip e /\ hostname e = h /\ Sub now (seenAt e) <= maxAge c).
  { destruct (byIP c !! ip) as [e|] eqn:Ei; [|done]. destruct (expired c e now) eqn:Ex; [done|].
    intros [= <-]. apply H1 in Ei as (r & Hr & Ha). by eapply Hgoal. }
  destruct (byWorkload c !! (ns, pod, ip)) as [e|] eqn:Ew; [|exact Hip].
  destruct (expired c e now) eqn:Ex; [exact Hip|]. intros [= <-].
  apply H2 in Ew as (r & Hr & Ha & _). by eapply Hgoal.
Qed.

(** A cacheable response is found again: for every address it lists, until the
    cache's maximum age has passed, the pod that asked gets the hostname, and
    so does every workload that was never answered for that address itself. *)
Theorem dns_record_then_lookup c now0 ns pod h qtype rcode addresses ts now ip :
  wf c -> maxAge c < 2 ^ 62 -> cacheable ns pod h qtype rcode addresses -> recorded addresses ip ->
  let ts' := if IsZero ts then now0 else ts in
  0 <= now - ts' <= maxAge c ->
  let c' := RecordResponse now0 ns pod h qtype rcode addresses ts (Some c) in
  Lookup now ns pod ip c' = Some (TrimSuffix (TrimSpace h) ".") /\
  forall ns2 pod2, byWorkload c !! (ns2, pod2, ip) = None ->
    Lookup now ns2 pod2 ip c' = Some (TrimSuffix (TrimSpace h) ".").
Proof.
  intros Hwf Hm Hc Hr ts' Hnow. cbv zeta. rewrite RecordResponse_cases, decide_True by done. cbv zeta.
  fold ts'. set (h' := TrimSuffix (TrimSpace h) "."). set (e := {| hostname := h'; seenAt := ts' |}).
  set (c1 := foldl (record_address ns pod h' ts') c addresses).
  destruct (record_addresses_lookup ns pod h' ts' c addresses ip) as (H1 & _ & H3). fold c1 in H1, H3.
  destruct (H1 Hr) as [Hip Hwl]. fold e in Hip, Hwl.
  assert (Hm1 : maxAge c1 = maxAge c) by apply record_addresses_maxAge.
  assert (Hkeep : expired c1 e ts' = false) by (apply fresh_not_expired; rewrite Hm1; simpl; [done|destruct Hwf; lia]).
  assert (Hfresh : expired (pruneLocked ts' c1) e now = false).
  { apply fresh_not_expired; simpl; rewrite Hm1; [done|lia]. }
  assert (Hip' : byIP (pruneLocked ts' c1) !! ip = Some e) by (apply map_lookup_filter_Some; done).
  assert (Hwl' : byWorkload (pruneLocked ts' c1) !! (ns, pod, ip) = Some e) by (apply map_lookup_filter_Some; done).
  unfold Lookup. rewrite !decide_False by apply Hr. cbv zeta. rewrite Hwl', Hip', Hfresh.
  split; [done|]. intros ns2 pod2 Hn. destruct (decide ((ns2, pod2) = (ns, pod))) as [[= -> ->]|Hne].
  - rewrite decide_False by apply Hr. rewrite Hwl'. cbv beta iota. by rewrite ?Hfresh.
  - rewrite decide_False by apply Hr.
    assert (byWorkload (pruneLocked ts' c1) !! (ns2, pod2, ip) = None) as ->; [|by rewrite ?Hfresh].
    apply map_lookup_filter_None. left. rewrite H3; [done|]. by left.
Qed.

(** ** Witnesses *)

Definition sample_response : response :=
  {| r_now := 0; r_ns := "shop"; r_pod := "cart-0"; r_host := " api.stripe.com. "; r_qtype := "a"; r_rcode := "success";
     r_addresses := ["34.1.1.1"; " 34.1.1.2"]%string; r_ts := 100 * Second |}.

Lemma dns_lookup_sourced_and_fresh_witness :
  Lookup (160 * Second) "shop" "web-1" "34.1.1.2" (foldl record (Some (NewCache 0)) [sample_response])
    = Some "api.stripe.com"%string /\
  isInternalHostname "api.stripe.com" = false.
Proof.
  assert (H : Lookup (160 * Second) "shop" "web-1" "34.1.1.2" (foldl record (Some (NewCache 0)) [sample_response])
    = Some "api.stripe.com"%string) by (vm_compute; reflexivity).
  split; [exact H|].
  exact (proj1 (proj2 (dns_lookup_sourced_and_fresh 0 [sample_response] _ _ _ _ _ H))).
Defined.

Lemma dns_record_then_lookup_witness :
  Lookup (160 * Second) "shop" "cart-0" "34.1.1.1"
    (RecordResponse 0 "shop" "cart-0" "api.stripe.com." "A" "Success" ["34.1.1.1"%string] (100 * Second)
       (Some (NewCache 0))) = Some "api.stripe.com"%string.
Proof.
  refine (proj1 (dns_record_then_lookup (NewCache 0) 0 "shop" "cart-0" "api.stripe.com." "A" "Success"
    ["34.1.1.1"%string] (100 * Second) (160 * Second) "34.1.1.1" (wf_NewCache 0) eq_refl _ _ _)).
  - unfold cacheable. split; [discriminate|]. vm_compute. repeat split; discriminate.
  - split; [discriminate|]. vm_compute. left.
  - vm_compute. split; discriminate.
Defined.
