(* ===== verification/PeerIndex.v ===== *)
(** * Peer index

    [pkg/collector/peerindex/index.go] of network-flow-aggregator: which backend
    accepted the connection of a client address and port, for a limited time. *)

From stdpp Require Import base decidable list gmap strings.
From Stdlib Require Import ZArith Lia.
From S2P Require Import Prelude KubeIndex.
Import GoTime.

Local Open Scope Z_scope.

(** [peerKey]: client address and port. *)
Abbreviation peerKey := (string * Z)%type.

Record entryWithExpiry := mkEntryWithExpiry {
  entry : BackendIdentity;
  expires : Z
}.

Record Index := mkIndex {
  entries : gmap peerKey entryWithExpiry;
  ttl : Z
}.

Definition New (ttl : Z) : Index := {| entries := ∅; ttl := if ttl <=? 0 then 5 * Minute else ttl |}.

Definition pruneLocked (now : Z) (idx : Index) : Index :=
  {| entries := filter (fun ki => After now (expires ki.2) = false) (entries idx); ttl := ttl idx |}.

Definition Put (clientAddr : string) (clientPort : Z) (backend : BackendIdentity) (now : Z) (idx : Index) : Index :=
  if decide (clientAddr = ""%string \/ clientPort = 0) then idx
  else
    let idx := pruneLocked now idx in
    {| entries := <[(clientAddr, clientPort) := {| entry := backend; expires := now + ttl idx |}]> (entries idx);
       ttl := ttl idx |}.

(** Looking up prunes, so it changes the index. *)
Definition Lookup (now : Z) (clientAddr : string) (clientPort : Z) (idx : Index) : Index * option BackendIdentity :=
  if decide (clientAddr = ""%string \/ clientPort = 0) then (idx, None)
  else
    let idx := pruneLocked now idx in
    (idx,
     match entries idx !! (clientAddr, clientPort) with
     | None => None
     | Some item => if After now (expires item) then None else Some (entry item)
     end).

(** ** Lemmas *)

Definition live (idx : Index) (k : peerKey) (now : Z) : option BackendIdentity :=
  match entries idx !! k with
  | Some item => if After now (expires item) then None else Some (entry item)
  | None => None
  end.

Lemma pruneLocked_lookup t idx k :
  entries (pruneLocked t idx) !! k =
  match entries idx !! k with
  | Some item => if After t (expires item) then None else Some item
  | None => None
  end.
Proof.
  unfold pruneLocked. simpl. rewrite map_lookup_filter. destruct (entries idx !! k) as [item|]; [|done]. simpl.
  destruct (After t (expires item)); [by rewrite option_guard_False by done|by rewrite option_guard_True by done].
Qed.

Lemma Lookup_live now addr port idx :
  (Lookup now addr port idx).2 =
  if decide (addr = ""%string \/ port = 0) then None else live idx (addr, port) now.
Proof.
  unfold Lookup, live. case_decide; [done|]. simpl fst. cbv zeta. cbn [snd]. rewrite pruneLocked_lookup.
  destruct (entries idx !! (addr, port)) as [item|]; [|done]. by destruct (After now (expires item)) eqn:E; rewrite ?E.
Qed.

(** ** Properties *)

(** After a connection is recorded, its client endpoint is answered with the
    recorded backend up to and including the instant its lifetime ends, and
    with nothing afterwards; every other endpoint keeps its answer unless its
    entry had expired when the connection was recorded. *)
Theorem peer_put_lookup addr port b t idx addr' port' now :
  addr <> ""%string -> port <> 0 -> addr' <> ""%string -> port' <> 0 ->
  (Lookup now addr' port' (Put addr port b t idx)).2 =
  if decide ((addr', port') = (addr, port)) then (if now <=? t + ttl idx then Some b else None)
  else match live idx (addr', port') t with
       | Some _ => live idx (addr', port') now
       | None => None
       end.
Proof.
  intros Ha Hp Ha' Hp'. rewrite Lookup_live, decide_False by tauto. unfold Put.
  rewrite decide_False by tauto. unfold live. cbv zeta. cbn [entries]. case_decide as Hk.
  - rewrite Hk, lookup_insert_eq. cbn [expires entry]. unfold After. simpl ttl.
    destruct (_ <? now) eqn:E1, (now <=? _) eqn:E2; to_prop; try done; lia.
  - rewrite lookup_insert_ne by done. rewrite pruneLocked_lookup.
    destruct (entries idx !! (addr', port')) as [item|]; [|done]. by destruct (After t (expires item)).
Qed.

Lemma peer_put_lookup_witness :
  let b := {| be_PodNamespace := "shop"; be_PodName := "cart-0"; WorkloadNamespace := "shop";
              WorkloadKind := "Deployment"; WorkloadName := "cart"; be_ServiceNamespace := "shop";
              be_ServiceName := "cart" |} in
  (Lookup (5 * Minute) "10.1.0.9" 40000 (Put "10.1.0.9" 40000 b 0 (New 0))).2 = Some b /\
  (Lookup (5 * Minute + 1) "10.1.0.9" 40000 (Put "10.1.0.9" 40000 b 0 (New 0))).2 = None.
Proof.
  intros b. split.
  - exact (peer_put_lookup "10.1.0.9" 40000 b 0 (New 0) "10.1.0.9" 40000 (5 * Minute)
      ltac:(discriminate) ltac:(discriminate) ltac:(discriminate) ltac:(discriminate)).
  - exact (peer_put_lookup "10.1.0.9" 40000 b 0 (New 0) "10.1.0.9" 40000 (5 * Minute + 1)
      ltac:(discriminate) ltac:(discriminate) ltac:(discriminate) ltac:(discriminate)).
Defined.
