(* ===== verification/FlowServer.v ===== *)
(** * The aggregator's ingest server

    [pkg/collector/server.go] and [http_debug.go] of network-flow-aggregator:
    receives the agents' batches, enriches and stores their events, and tells
    the upstream client; and the debug endpoint that lists the store.

    The enricher sits behind the Go interface [flowEnricher]; what it promises is
    the class of that name, and the server's theorems are proved against it.  The
    implementation is [*kube.Enricher], a pointer that may be nil. *)

From stdpp Require Import base decidable list gmap strings sets.
From Stdlib Require Import ZArith Lia.
From S2P Require Import Prelude GoStrings FlowTypes DeltaTracker Reconnect FlowMapper FlowStore UpstreamClient KubeIndex Enricher DnsCache PeerIndex.
Import GoTime.

Local Open Scope Z_scope.

(** ** The [flowEnricher] interface *)

Class flowEnricher (E : Type) := {
  enr_ResolveSrcWorkload : E -> string -> string -> go WorkloadIdentity;
  enr_ResolveDst : E -> string -> Z -> go DstIdentity;
  enr_LookupEndpoint : E -> string -> Z -> go (option EndpointEntry)
}.

(** What the server relies on: calls return, and an endpoint is only found for an
    address and a port. *)
Class flowEnricherLaws (E : Type) `{!flowEnricher E} (e : E) := {
  enr_src_returns : forall ns pod, returns (enr_ResolveSrcWorkload e ns pod);
  enr_dst_returns : forall addr port, returns (enr_ResolveDst e addr port);
  enr_endpoint_returns : forall addr port, returns (enr_LookupEndpoint e addr port)
}.

(** [*kube.Enricher]: a method of the nil pointer panics at its first field access. *)
Definition deref {A} (p : option Enricher) (f : Enricher -> A) : go A :=
  match p with
  | Some e => Ret (f e)
  | None => Panic
  end.

#[export] Instance kubeEnricher : flowEnricher (option Enricher) :=
  {| enr_ResolveSrcWorkload := fun p ns pod =>
       if decide (ns = ""%string \/ pod = ""%string)
       then Ret {| wl_Namespace := ns; wl_Kind := "Pod"; wl_Name := pod |}
       else deref p (fun e => ResolveSrcWorkload e ns pod);
     enr_ResolveDst := fun p addr port =>
       if decide (addr = ""%string)
       then Ret {| dst_Namespace := ""; dst_Kind := ""; dst_Name := ""; dst_Addr := addr |}
       else deref p (fun e => ResolveDst e addr port);
     enr_LookupEndpoint := fun p addr port =>
       if decide (addr = ""%string \/ port = 0) then Ret None
       else deref p (fun e => LookupEndpoint e addr port) |}.

#[export] Instance kubeEnricher_laws (e : Enricher) : flowEnricherLaws (option Enricher) (Some e).
Proof. split; intros; simpl; try case_decide; apply returns_ret. Qed.

(** ** State *)

(** The clock's readings while one event is enriched. *)
Record EventClock := mkEventClock {
  clk_record : Z;
  clk_lookup : Z;
  clk_put : Z;
  clk_peer : Z
}.

(** What enrichment reads and writes besides the event; [tick] counts the events
    enriched so far, to index the clock. *)
Record EnrichState := mkEnrichState {
  dnsCache : option Cache;
  peerIndex : option Index;
  tick : nat
}.

Definition set_peerIndex (p : option Index) (st : EnrichState) : EnrichState :=
  {| dnsCache := dnsCache st; peerIndex := p; tick := tick st |}.

Definition set_dnsCache (c : option Cache) (st : EnrichState) : EnrichState :=
  {| dnsCache := c; peerIndex := peerIndex st; tick := tick st |}.

Definition next_tick (st : EnrichState) : EnrichState :=
  {| dnsCache := dnsCache st; peerIndex := peerIndex st; tick := S (tick st) |}.

Section server.
Context {E : Type} `{!flowEnricher E}.

(** The interface value: [None] is the nil interface. *)
Record Server := mkServer {
  store : Store;
  enricher : option E;
  state : EnrichState;
  upstream : option UpstreamClient.Client
}.

Variable clock : nat -> EventClock.

(** ** Enrichment *)

Definition src_addr (event : aggregv1.FlowEvent) : string := aggregv1.GetAddr (aggregv1.SrcEndpoint event).
Definition src_port (event : aggregv1.FlowEvent) : Z := aggregv1.GetPort (aggregv1.SrcEndpoint event).
Definition dst_addr (event : aggregv1.FlowEvent) : string := aggregv1.GetAddr (aggregv1.Dst event).
Definition dst_port (event : aggregv1.FlowEvent) : Z := aggregv1.GetPort (aggregv1.Dst event).

Definition isServerObservedTCP (enr : option E) (event : aggregv1.FlowEvent) : go bool :=
  match enr with
  | None => Ret false
  | Some enr =>
      if negb (aggregv1.Protocol event =? aggregv1.PROTOCOL_TCP) then Ret false
      else if decide (src_addr event = ""%string \/ src_port event = 0) then Ret false
      else
        entry ← enr_LookupEndpoint enr (src_addr event) (src_port event);
        Ret (bool_decide (is_Some entry))
  end.

Definition recordServerPeer (enr : option E) (event : aggregv1.FlowEvent) (src : WorkloadIdentity)
    (st : EnrichState) : go EnrichState :=
  match enr, peerIndex st with
  | Some enr, Some idx =>
      if decide (src_addr event = ""%string \/ src_port event = 0) then Ret st
      else
        entry ← enr_LookupEndpoint enr (src_addr event) (src_port event);
        match entry with
        | None => Ret st
        | Some entry =>
            if decide (dst_addr event = ""%string \/ dst_port event = 0) then Ret st
            else
              let ts := aggregv1.TimestampUnixNano event in
              let now := if ts =? 0 then clk_put (clock (tick st)) else ts in
              let backend :=
                {| be_PodNamespace := aggregv1.GetNamespace (aggregv1.Src event);
                   be_PodName := aggregv1.GetPod (aggregv1.Src event);
                   WorkloadNamespace := wl_Namespace src; WorkloadKind := wl_Kind src; WorkloadName := wl_Name src;
                   be_ServiceNamespace := ServiceNamespace entry; be_ServiceName := ServiceName entry |} in
              Ret (set_peerIndex (Some (Put (dst_addr event) (dst_port event) backend now idx)) st)
        end
  | _, _ => Ret st
  end.

(** The peer-index half of [resolveClientBackend]. *)
Definition peerBackend (event : aggregv1.FlowEvent) (dst : DstIdentity) (st : EnrichState) :
    EnrichState * option BackendIdentity :=
  match peerIndex st with
  | None => (st, None)
  | Some idx =>
      if decide (src_addr event = ""%string \/ src_port event = 0) then (st, None)
      else
        let '(idx, found) := PeerIndex.Lookup (clk_peer (clock (tick st))) (src_addr event) (src_port event) idx in
        (set_peerIndex (Some idx) st,
         match found with
         | Some backend => if MatchesService backend (dst_Namespace dst) (dst_Name dst) then Some backend else None
         | None => None
         end)
  end.

Definition resolveClientBackend (enr : option E) (event : aggregv1.FlowEvent) (dst : DstIdentity)
    (st : EnrichState) : go (EnrichState * option BackendIdentity) :=
  match enr with
  | None => Ret (st, None)
  | Some enr =>
      found ← enr_LookupEndpoint enr (dst_addr event) (dst_port event);
      match found with
      | Some entry =>
          if bool_decide (PodName entry <> ""%string)
             && bool_decide (ServiceNamespace entry = dst_Namespace dst /\ ServiceName entry = dst_Name dst)
          then
            workload ← enr_ResolveSrcWorkload enr (PodNamespace entry) (PodName entry);
            Ret (st, Some {| be_PodNamespace := PodNamespace entry; be_PodName := PodName entry;
                             WorkloadNamespace := wl_Namespace workload; WorkloadKind := wl_Kind workload;
                             WorkloadName := wl_Name workload;
                             be_ServiceNamespace := ServiceNamespace entry; be_ServiceName := ServiceName entry |})
          else Ret (peerBackend event dst st)
      | None => Ret (peerBackend event dst st)
      end
  end.

Definition no_dst (addr : string) : DstIdentity :=
  {| dst_Namespace := ""; dst_Kind := ""; dst_Name := ""; dst_Addr := addr |}.

Definition with_dst (src : WorkloadIdentity) (dst : DstIdentity) : Enrichment :=
  {| SrcNamespace := wl_Namespace src; SrcWorkloadKind := wl_Kind src; SrcWorkloadName := wl_Name src;
     DstNamespace := dst_Namespace dst; DstKind := dst_Kind dst; DstName := dst_Name dst;
     BackendWorkloadNamespace := ""; BackendWorkloadKind := ""; BackendWorkloadName := "";
     BackendPodNamespace := ""; BackendPodName := "" |}.

Definition with_backend (en : Enrichment) (b : BackendIdentity) : Enrichment :=
  {| SrcNamespace := SrcNamespace en; SrcWorkloadKind := SrcWorkloadKind en; SrcWorkloadName := SrcWorkloadName en;
     DstNamespace := DstNamespace en; DstKind := DstKind en; DstName := DstName en;
     BackendWorkloadNamespace := WorkloadNamespace b; BackendWorkloadKind := WorkloadKind b;
     BackendWorkloadName := WorkloadName b; BackendPodNamespace := be_PodNamespace b;
     BackendPodName := be_PodName b |}.

Definition resolveSrc (enr : option E) (event : aggregv1.FlowEvent) : go WorkloadIdentity :=
  let srcNs := aggregv1.GetNamespace (aggregv1.Src event) in
  let srcPod := aggregv1.GetPod (aggregv1.Src event) in
  match enr with
  | None => Ret {| wl_Namespace := srcNs; wl_Kind := "Pod"; wl_Name := srcPod |}
  | Some enr => enr_ResolveSrcWorkload enr srcNs srcPod
  end.

(** The DNS branch of [enrichEvent]. *)
Definition enrichDns (enr : option E) (event : aggregv1.FlowEvent) (src : WorkloadIdentity)
    (st : EnrichState) : go (EnrichState * Enrichment) :=
  let st :=
    if aggregv1.EventKind event =? aggregv1.FLOW_EVENT_KIND_DNS_RESPONSE then
      set_dnsCache
        (RecordResponse (clk_record (clock (tick st))) (aggregv1.GetNamespace (aggregv1.Src event))
           (aggregv1.GetPod (aggregv1.Src event)) (aggregv1.GetName (aggregv1.Dns event))
           (aggregv1.GetQtype (aggregv1.Dns event)) (aggregv1.GetRcode (aggregv1.Dns event))
           (aggregv1.GetAddresses (aggregv1.Dns event)) (aggregv1.TimestampUnixNano event) (dnsCache st)) st
    else st in
  dst ←
    match enr with
    | Some enr =>
        if decide (dst_addr event = ""%string) then Ret (no_dst (dst_addr event))
        else enr_ResolveDst enr (dst_addr event) (dst_port event)
    | None => Ret (no_dst (dst_addr event))
    end;
  Ret (st, with_dst src dst).

(** The name the DNS cache gives an otherwise unknown destination. *)
Definition external_dst (event : aggregv1.FlowEvent) (dst : DstIdentity) (st : EnrichState) : DstIdentity :=
  if decide (dst_Kind dst = ""%string) then
    match DnsCache.Lookup (clk_lookup (clock (tick st))) (aggregv1.GetNamespace (aggregv1.Src event))
            (aggregv1.GetPod (aggregv1.Src event)) (dst_addr event) (dnsCache st) with
    | Some hostname =>
        {| dst_Namespace := ""; dst_Kind := "ExternalHostname"; dst_Name := hostname; dst_Addr := dst_addr event |}
    | None => dst
    end
  else dst.

Definition enrichEvent (enr : option E) (st : EnrichState) (event : aggregv1.FlowEvent) :
    go (EnrichState * Enrichment) :=
  src ← resolveSrc enr event;
  if aggregv1.Protocol event =? aggregv1.PROTOCOL_DNS then enrichDns enr event src st
  else
    observed ← isServerObservedTCP enr event;
    if (observed : bool) then
      st ← recordServerPeer enr event src st;
      Ret (st, with_dst src (no_dst ""))
    else
      dst ← match enr with
            | Some enr => enr_ResolveDst enr (dst_addr event) (dst_port event)
            | None => Ret (no_dst (dst_addr event))
            end;
      let dst := external_dst event dst st in
      st ← recordServerPeer enr event src st;
      if decide (dst_Kind dst = "Service"%string) then
        '(st, found) ← resolveClientBackend enr event dst st;
        Ret (st, match found with
                 | Some backend => with_backend (with_dst src dst) backend
                 | None => with_dst src dst
                 end)
      else Ret (st, with_dst src dst).

(** The callback [AppendBatch] gets; each call moves the clock. *)
Definition enrich_callback (enr : option E) : FlowStore.enricher EnrichState := fun st event =>
  '(st, en) ← enrichEvent enr st event; Ret (next_tick st, en).

(** ** [PushEvents] *)

(** What [stream.Recv] returns. *)
Inductive recv : Type :=
| RecvBatch (batch : option aggregv1.FlowEventBatch)
| RecvEOF
| RecvErr (err : string).

Inductive outcome : Type :=
| SendAndClose (acceptedEvents : Z)
| StatusErr (msg : string).

(** The upstream client holds the same store. *)
Definition share_store (s : Store) (c : option UpstreamClient.Client) : option UpstreamClient.Client :=
  set_store s <$> c.

(** One round of the loop: [now] is the clock at the store's pruning. *)
Definition ingest (now : Z) (batch : option aggregv1.FlowEventBatch) (s : Server) : go (Server * Z) :=
  '(st, sto, (accepted, _)) ← AppendBatch now batch (Some (enrich_callback (enricher s))) (state s) (store s);
  let up := share_store sto (upstream s) in
  let up := if 0 <? accepted then UpstreamClient.NotifyAppended <$> up else up in
  Ret ({| store := sto; enricher := enricher s; state := st; upstream := up |}, accepted).

(** The messages of one stream, each with the clock at its arrival; [None]: the
    stream is still open. *)
Fixpoint PushEvents (msgs : list (Z * recv)) (total : Z) (s : Server) : go (Server * option outcome) :=
  match msgs with
  | [] => Ret (s, None)
  | (_, RecvEOF) :: _ => Ret (s, Some (SendAndClose total))
  | (_, RecvErr err) :: _ => Ret (s, Some (StatusErr ("recv batch: " +:+ err)))
  | (now, RecvBatch batch) :: msgs' =>
      '(s, accepted) ← ingest now batch s;
      PushEvents msgs' (total + accepted) s
  end.
End server.
Arguments Server : clear implicits.

Definition defaultPeerIndexTTL : Z := 5 * Minute.

(** The pointer [enricher], nil or not, becomes a non-nil interface value. *)
Definition NewServer (st : Store) (enricher : option Enricher) (dnsCache : option Cache)
    (upstreamClient : option UpstreamClient.Client) : Server (option Enricher) :=
  {| store := st; enricher := Some enricher;
     state := {| dnsCache := dnsCache; peerIndex := Some (New defaultPeerIndexTTL); tick := 0 |};
     upstream := upstreamClient |}.

(** ** The debug endpoint *)

Definition parseInt64 (v : string) : Z :=
  if decide (v = ""%string) then 0 else parsed_value (ParseInt v).

(** [strconv.Atoi] on a 64-bit platform gives what [ParseInt] gives. *)
Definition parseInt (v : string) : Z :=
  if decide (v = ""%string) then 0 else parsed_value (ParseInt v).

Definition parseEventKind (v : string) : Z :=
  if decide (v ∈ ["CONNECT"; "connect"; "1"]%string) then insightsv1.FLOW_EVENT_KIND_CONNECT
  else if decide (v ∈ ["TRAFFIC"; "traffic"; "2"]%string) then insightsv1.FLOW_EVENT_KIND_TRAFFIC
  else if decide (v ∈ ["DNS_QUERY"; "dns_query"; "3"]%string) then insightsv1.FLOW_EVENT_KIND_DNS_QUERY
  else if decide (v ∈ ["DNS_RESPONSE"; "dns_response"; "4"]%string) then insightsv1.FLOW_EVENT_KIND_DNS_RESPONSE
  else insightsv1.FLOW_EVENT_KIND_UNSPECIFIED.

Definition listOpts (query : string -> string) : ListOpts :=
  {| Since := parseInt64 (query "since"%string); Limit := parseInt (query "limit"%string);
     Offset := parseInt (query "offset"%string); opt_Namespace := query "namespace"%string;
     opt_EventKind := if decide (query "event_kind"%string = ""%string) then insightsv1.FLOW_EVENT_KIND_UNSPECIFIED
                      else parseEventKind (query "event_kind"%string);
     opt_SrcWorkloadKind := query "src_workload_kind"%string; opt_DstKind := query "dst_kind"%string |}.

(** The response: the marshalled events and their count, or a 500. *)
Inductive response : Type :=
| FlowsOK (events : list string) (count : Z)
| MarshalError.

(** [marshal] is protojson's, [query] the request's query parameters. *)
Definition handleFlows (marshal : row -> result string string) (query : string -> string) (s : Store) : go response :=
  events ← ListEvents (listOpts query) s;
  Ret match mapM (fun e => match marshal e with Ok b => Some b | Err _ => None end) events with
      | Some out => FlowsOK out (lenZ out)
      | None => MarshalError
      end.

(** ** Lemmas *)

Section server_lemmas.
Context {E : Type} `{!flowEnricher E}.
Implicit Types (event : aggregv1.FlowEvent) (st : EnrichState) (clock : nat -> EventClock).

(** The interface value is nil, or what it holds keeps its promises. *)
Definition sound_enricher (enr : option E) : Prop :=
  match enr with
  | None => True
  | Some e => flowEnricherLaws E e
  end.

Lemma isServerObservedTCP_returns enr event : sound_enricher enr -> returns (isServerObservedTCP enr event).
Proof.
  destruct enr as [e|]; intros Hl; [|apply returns_ret]. simpl in *.
  destruct (negb _); [apply returns_ret|]. case_decide; [apply returns_ret|].
  apply returns_bind; [apply enr_endpoint_returns|]. intros; apply returns_ret.
Qed.

Lemma recordServerPeer_returns clock enr event src st :
  sound_enricher enr -> returns (recordServerPeer clock enr event src st).
Proof.
  intros Hl. unfold recordServerPeer. destruct enr as [e|]; [|apply returns_ret]. simpl in Hl.
  destruct (peerIndex st); [|apply returns_ret]. case_decide; [apply returns_ret|].
  apply returns_bind; [apply enr_endpoint_returns|]. intros [entry|] _; [|apply returns_ret].
  case_decide; apply returns_ret.
Qed.

Lemma resolveClientBackend_returns clock enr event dst st :
  sound_enricher enr -> returns (resolveClientBackend clock enr event dst st).
Proof.
  intros Hl. destruct enr as [e|]; [|apply returns_ret]. simpl in *.
  apply returns_bind; [apply enr_endpoint_returns|]. intros [entry|] _; [|apply returns_ret].
  destruct (_ && _); [|apply returns_ret].
  apply returns_bind; [apply enr_src_returns|]. intros; apply returns_ret.
Qed.

Lemma enrichEvent_returns clock enr st event : sound_enricher enr -> returns (enrichEvent clock enr st event).
Proof.
  intros Hl. unfold enrichEvent.
  apply returns_bind. { destruct enr; [simpl in Hl; apply enr_src_returns|apply returns_ret]. }
  intros src _. destruct (_ =? _).
  { unfold enrichDns. apply returns_bind; [|intros; apply returns_ret].
    destruct enr; [|apply returns_ret]. simpl in Hl. case_decide; [apply returns_ret|apply enr_dst_returns]. }
  apply returns_bind; [by apply isServerObservedTCP_returns|]. intros [] _.
  { apply returns_bind; [by apply recordServerPeer_returns|]. intros; apply returns_ret. }
  apply returns_bind. { destruct enr; [simpl in Hl; apply enr_dst_returns|apply returns_ret]. }
  intros dst _. cbv zeta. apply returns_bind; [by apply recordServerPeer_returns|]. intros st1 _.
  case_decide; [|apply returns_ret].
  apply returns_bind; [by apply resolveClientBackend_returns|]. intros [st2 found] _. apply returns_ret.
Qed.

Lemma ingest_returns clock now batch (s : Server E) : sound_enricher (enricher s) -> returns (ingest clock now batch s).
Proof.
  intros Hl. unfold ingest. apply returns_bind.
  - destruct batch as [b|]; [|apply returns_ret]. unfold AppendBatch. apply returns_bind.
    + apply build_rows_returns. intros st e _ _. unfold enrich_callback.
      apply returns_bind; [by apply enrichEvent_returns|]. intros [] _. apply returns_ret.
    + intros [st rows] _. destruct rows; apply returns_ret.
  - intros [[st sto] [n rows]] _. apply returns_ret.
Qed.

Lemma ingest_frame clock now batch (s s' : Server E) n :
  ingest clock now batch s = Ret (s', n) -> enricher s' = enricher s.
Proof. unfold ingest. by intros ([[st sto] [m rows]] & _ & [= <- _])%go_bind_ret. Qed.

Lemma PushEvents_returns clock msgs total (s : Server E) :
  sound_enricher (enricher s) -> returns (PushEvents clock msgs total s).
Proof.
  revert total s. induction msgs as [|[now [batch| |err]] msgs IH]; intros total s Hl; simpl; try apply returns_ret.
  apply returns_bind; [by apply ingest_returns|]. intros [s1 n] H1. apply IH. by rewrite (ingest_frame _ _ _ _ _ _ H1).
Qed.

(** What one batch adds: the acceptable events, all of them. *)
Definition accepted_of (batch : option aggregv1.FlowEventBatch) : Z :=
  from_ptr 0 (fun b => lenZ (omap acceptable (aggregv1.Events b))) batch.

Lemma ingest_spec clock now batch (s s' : Server E) n :
  FlowStore.wf (store s) -> ingest clock now batch s = Ret (s', n) -> FlowStore.wf (store s') /\ n = accepted_of batch.
Proof.
  intros Hwf. unfold ingest. intros ([[st sto] [m rows]] & Ha & [= <- <-])%go_bind_ret. simpl.
  destruct batch as [b|]; [|by injection Ha as <- <- <- <-].
  unfold AppendBatch in Ha. apply go_bind_ret in Ha as ([st1 rows1] & Hb & Ha).
  apply build_rows_spec, Forall2_length in Hb. destruct rows1 as [|r rows1]; injection Ha as <- <- <- <-.
  - split; [done|]. simpl. unfold lenZ. by rewrite Hb.
  - destruct (append_rows_spec now (r :: rows1) (store s) Hwf) as (k & _ & _ & _ & Hwf' & _).
    split; [done|]. simpl. unfold lenZ. by rewrite Hb.
Qed.

(** The batches received before the stream ended. *)
Fixpoint received_batches (msgs : list (Z * recv)) : list (option aggregv1.FlowEventBatch) :=
  match msgs with
  | (_, RecvBatch b) :: msgs' => b :: received_batches msgs'
  | _ => []
  end.

Lemma PushEvents_spec clock msgs total (s s' : Server E) out :
  FlowStore.wf (store s) -> PushEvents clock msgs total s = Ret (s', out) ->
  FlowStore.wf (store s') /\
  forall n, out = Some (SendAndClose n) -> n = total + sumZ (accepted_of <$> received_batches msgs).
Proof.
  revert total s. induction msgs as [|[now [batch| |err]] msgs IH]; intros total s Hwf;
    cbn [PushEvents received_batches].
  - by intros [= <- <-].
  - intros ([s1 n] & H1 & H2)%go_bind_ret. apply ingest_spec in H1 as [Hwf1 ->]; [|done].
    apply IH in H2 as [H2 H3]; [|done]. split; [done|]. intros n Hn. rewrite (H3 n Hn), fmap_cons, sumZ_cons. lia.
  - intros [= <- <-]. split; [done|]. intros n [= <-]. simpl. lia.
  - by intros [= <- <-].
Qed.

Lemma peerBackend_match clock event dst st st' b :
  peerBackend clock event dst st = (st', Some b) -> MatchesService b (dst_Namespace dst) (dst_Name dst) = true.
Proof.
  unfold peerBackend. destruct (peerIndex st) as [idx|]; [|done]. case_decide; [done|].
  destruct (PeerIndex.Lookup _ _ _ _) as [idx' [b'|]]; [|done].
  destruct (MatchesService b' _ _) eqn:Em; [|done]. by intros [= _ <-].
Qed.

Lemma resolveClientBackend_match clock enr event dst st st' b :
  resolveClientBackend clock enr event dst st = Ret (st', Some b) ->
  MatchesService b (dst_Namespace dst) (dst_Name dst) = true.
Proof.
  destruct enr as [e|]; [|done]. simpl. intros ([entry|] & _ & H)%go_bind_ret.
  - destruct (_ && _) eqn:Eb.
    + apply go_bind_ret in H as (w & _ & [= _ <-]). apply andb_true_iff in Eb as [_ Eb]. exact Eb.
    + injection H as H. by eapply peerBackend_match.
  - injection H as H. by eapply peerBackend_match.
Qed.
End server_lemmas.

(** ** Properties *)

(** With a non-nil enricher the ingest loop never panics: whatever the agents
    send, [PushEvents] consumes every message and stays ready or ends the
    stream with its outcome. *)
Theorem PushEvents_never_panics clock msgs st (e : Enricher) cache up :
  returns (PushEvents clock msgs 0 (NewServer st (Some e) cache up)).
Proof. apply PushEvents_returns. simpl. apply kubeEnricher_laws. Qed.

(** C11. The acknowledgement of a stream that the agent closes counts exactly the
    acceptable events of its batches, whatever the enricher answered, and the
    store is well formed after every one of them. *)
Theorem PushEvents_acks_acceptable {E} `{!flowEnricher E} clock msgs (s s' : Server E) out :
  FlowStore.wf (store s) -> PushEvents clock msgs 0 s = Ret (s', out) ->
  FlowStore.wf (store s') /\
  forall n, out = Some (SendAndClose n) -> n = sumZ (accepted_of <$> received_batches msgs).
Proof. intros Hwf H. exact (PushEvents_spec clock msgs 0 s s' out Hwf H). Qed.

(** An event observed from the listening side, its source being a Service
    endpoint, gets no destination and no backend: replies make no dependency
    edge.  The connection is remembered for its client when it has an address. *)
Theorem enrichEvent_reply_has_no_dst {E} `{!flowEnricher E} clock (enr : E) st event entry st' en :
  aggregv1.Protocol event = aggregv1.PROTOCOL_TCP ->
  src_addr event <> ""%string -> src_port event <> 0 ->
  enr_LookupEndpoint enr (src_addr event) (src_port event) = Ret (Some entry) ->
  enrichEvent clock (Some enr) st event = Ret (st', en) ->
  DstNamespace en = ""%string /\ DstKind en = ""%string /\ DstName en = ""%string /\
  BackendWorkloadKind en = ""%string /\ BackendPodName en = ""%string /\
  (dst_addr event <> ""%string -> dst_port event <> 0 -> forall idx, peerIndex st = Some idx ->
   exists b now, be_ServiceNamespace b = ServiceNamespace entry /\ be_ServiceName b = ServiceName entry /\
     be_PodName b = aggregv1.GetPod (aggregv1.Src event) /\
     peerIndex st' = Some (Put (dst_addr event) (dst_port event) b now idx)).
Proof.
  intros Hp Ha Hport Hl. unfold enrichEvent. intros (src & _ & H)%go_bind_ret.
  rewrite Hp in H. simpl in H. unfold isServerObservedTCP in H. rewrite Hp in H. simpl in H.
  rewrite decide_False in H by tauto. rewrite Hl in H. simpl in H.
  apply go_bind_ret in H as (st1 & Hr & [= <- <-]). split_and!; try done.
  intros Hda Hdp idx Hi. unfold recordServerPeer in Hr. rewrite Hi in Hr. cbv beta iota in Hr.
  rewrite !decide_False in Hr by tauto. injection Hr as <-.
  eexists _, _. split_and!; [..|reflexivity]; reflexivity.
Qed.

(** A backend is attributed only to an event whose destination resolved to a
    Service, and it is a backend of that very Service. *)
Theorem enrichEvent_backend_matches_service {E} `{!flowEnricher E} clock enr st event st' en :
  enrichEvent clock (enr : option E) st event = Ret (st', en) ->
  BackendWorkloadKind en <> ""%string \/ BackendPodName en <> ""%string ->
  DstKind en = "Service"%string /\
  exists b, MatchesService b (DstNamespace en) (DstName en) = true /\
    BackendWorkloadNamespace en = WorkloadNamespace b /\ BackendWorkloadKind en = WorkloadKind b /\
    BackendWorkloadName en = WorkloadName b /\ BackendPodNamespace en = be_PodNamespace b /\
    BackendPodName en = be_PodName b.
Proof.
  unfold enrichEvent. intros (src & _ & H)%go_bind_ret Hb. destruct (_ =? _).
  { unfold enrichDns in H. apply go_bind_ret in H as (dst & _ & [= _ <-]). simpl in Hb. tauto. }
  apply go_bind_ret in H as ([] & _ & H).
  { apply go_bind_ret in H as (st1 & _ & [= _ <-]). simpl in Hb. tauto. }
  apply go_bind_ret in H as (dst & _ & H). cbv zeta in H.
  apply go_bind_ret in H as (st1 & _ & H). case_decide as Hk; [|injection H as _ <-; simpl in Hb; tauto].
  apply go_bind_ret in H as ([st2 [b|]] & Hr & [= _ <-]); [|simpl in Hb; tauto].
  apply resolveClientBackend_match in Hr. split; [done|]. exists b. by split_and!.
Qed.

(** [NewServer] stores a nil enricher pointer as a non-nil interface value, so the
    server's nil checks do not see it: without Kubernetes access, the first
    acceptable event with a namespace makes [PushEvents] panic instead of being
    stored without enrichment. *)
Theorem NewServer_nil_enricher_panics clock st cache up now b event msgs :
  head (aggregv1.Events b) = Some (Some event) -> isAcceptableEvent event = true ->
  aggregv1.GetNamespace (aggregv1.Src event) <> ""%string ->
  PushEvents clock ((now, RecvBatch (Some b)) :: msgs) 0 (NewServer st None cache up) = Panic.
Proof.
  intros Hh Ha Hns. simpl. unfold ingest, AppendBatch.
  destruct (aggregv1.Events b) as [|e es]; [done|]. injection Hh as ->. cbn [build_rows]. rewrite Ha.
  assert (Hp : aggregv1.GetPod (aggregv1.Src event) <> ""%string).
  { intros Hp. unfold isAcceptableEvent in Ha. by rewrite decide_True in Ha. }
  unfold enrich_callback, enrichEvent, resolveSrc, NewServer. simpl.
  destruct (decide (aggregv1.GetNamespace (aggregv1.Src event) = ""%string \/
                    aggregv1.GetPod (aggregv1.Src event) = ""%string)) as [[?|?]|_]; done.
Qed.

(** An event the agent makes: by one of its TCP mappers, or of a DNS record whose
    name is more than space and a root dot. *)
Inductive agent_event : aggregv1.FlowEvent -> Prop :=
| ConnectEvent f e : MapFlowEvent f = Some e -> agent_event e
| TrafficEvent now d e : mapTrafficDelta now d = Some e -> agent_event e
| DnsEvent f e : MapDnsEvent f = Some e -> normalizeHostname (agent.dns_Name f) <> ""%string -> agent_event e.

Lemma MapFlowEvent_acceptable f e : MapFlowEvent f = Some e -> isAcceptableEvent e = true.
Proof.
  unfold MapFlowEvent. case_decide as H; [done|]. intros [= <-].
  unfold isAcceptableEvent. simpl. rewrite decide_False by tauto. unfold nonempty.
  by rewrite bool_decide_eq_false_2 by tauto.
Qed.

Lemma MapDnsEvent_acceptable f e :
  MapDnsEvent f = Some e ->
  isAcceptableEvent e = negb (bool_decide (normalizeHostname (agent.dns_Name f) = ""%string)).
Proof.
  unfold MapDnsEvent. case_decide as H; [done|]. cbv zeta. intros [= <-].
  unfold isAcceptableEvent. simpl. by rewrite decide_False by tauto.
Qed.

Lemma agent_event_acceptable e : agent_event e -> isAcceptableEvent e = true.
Proof.
  intros [f e' H|now d e' H|f e' H Hn].
  - by eapply MapFlowEvent_acceptable.
  - revert H. unfold mapTrafficDelta. cbv zeta. case_decide; [done|]. destruct (_ && _); [done|].
    apply MapFlowEvent_acceptable.
  - rewrite (MapDnsEvent_acceptable f e' H). by rewrite bool_decide_eq_false_2.
Qed.

(** Agent and aggregator agree on what an event is: a batch of events the
    agent's mappers made counts in full towards the acknowledgement, except
    that a DNS event without a name, which the agent does send, counts for
    nothing. *)
Theorem mapped_events_acceptable node id events :
  Forall agent_event events ->
  accepted_of (Some (aggregv1.mkFlowEventBatch node id (Some <$> events))) = lenZ events /\
  (forall f e, MapDnsEvent f = Some e -> normalizeHostname (agent.dns_Name f) = ""%string ->
    accepted_of (Some (aggregv1.mkFlowEventBatch node id [Some e])) = 0).
Proof.
  intros Hf. split.
  - simpl. unfold lenZ. f_equal. induction Hf as [|e l He _ IH]; [done|]. simpl.
    rewrite (agent_event_acceptable e He). simpl. by f_equal.
  - intros f e He Hn. simpl. by rewrite (MapDnsEvent_acceptable f e He), bool_decide_eq_true_2.
Qed.

(** ** Witnesses *)

Definition zero_clock (n : nat) : EventClock := {| clk_record := 0; clk_lookup := 0; clk_put := 0; clk_peer := 0 |}.

(** A TCP event of the pod [cart-0] of [sample_enricher]. *)
Definition tcp_event (sa : string) (sp : Z) (da : string) (dp : Z) : aggregv1.FlowEvent :=
  {| aggregv1.EventKind := aggregv1.FLOW_EVENT_KIND_TRAFFIC; aggregv1.Protocol := aggregv1.PROTOCOL_TCP;
     aggregv1.TimestampUnixNano := 1000;
     aggregv1.Src := Some {| aggregv1.Namespace := "shop"; aggregv1.Pod := "cart-0"; aggregv1.Container := "app" |};
     aggregv1.SrcEndpoint := Some {| aggregv1.Addr := sa; aggregv1.Port := sp |};
     aggregv1.Dst := Some {| aggregv1.Addr := da; aggregv1.Port := dp |};
     aggregv1.BytesSent := 1; aggregv1.BytesReceived := 2; aggregv1.Dns := None |}.

Definition sample_server : Server (option Enricher) :=
  NewServer (NewStore 10 Hour) (Some sample_enricher) (Some (NewCache 0)) None.

Definition sample_batch : aggregv1.FlowEventBatch :=
  {| aggregv1.NodeName := "node-1"; aggregv1.AgentId := "agent";
     aggregv1.Events := [Some (tcp_event "10.1.0.9" 41000 "10.96.0.10" 80); None;
                         Some (tcp_event "10.1.0.9" 41000 "" 80)] |}.

Lemma PushEvents_acks_acceptable_witness :
  exists s', PushEvents zero_clock [(0, RecvBatch (Some sample_batch)); (0, RecvEOF)] 0 sample_server
             = Ret (s', Some (SendAndClose 1)) /\
    1 = sumZ (accepted_of <$> [Some sample_batch]).
Proof.
  destruct (PushEvents zero_clock [(0, RecvBatch (Some sample_batch)); (0, RecvEOF)] 0 sample_server)
    as [[s' out]|] eqn:E.
  - assert (Ho : out = Some (SendAndClose 1)).
    { apply (f_equal (fun g => match g with Ret (_, o) => o | Panic => None end)) in E. vm_compute in E. symmetry. exact E. }
    exists s'. split; [rewrite Ho; reflexivity|].
    exact (proj2 (PushEvents_acks_acceptable zero_clock _ sample_server s' out (wf_NewStore 10 Hour) E) 1 Ho).
  - exfalso. vm_compute in E. discriminate.
Defined.

(** The server pod answers a client: its own endpoint is the source. *)
Lemma enrichEvent_reply_has_no_dst_witness :
  exists st' en, enrichEvent zero_clock (Some (Some sample_enricher)) (state sample_server)
                   (tcp_event "10.1.0.7" 8080 "10.96.0.10" 80) = Ret (st', en) /\
    SrcWorkloadKind en = "Deployment"%string /\ DstKind en = ""%string.
Proof.
  destruct (enrichEvent zero_clock (Some (Some sample_enricher)) (state sample_server)
                   (tcp_event "10.1.0.7" 8080 "10.96.0.10" 80)) as [[st' en]|] eqn:E.
  - exists st', en. split; [reflexivity|]. split.
    + apply (f_equal (fun g => match g with Ret (_, en) => SrcWorkloadKind en | Panic => ""%string end)) in E.
      vm_compute in E. symmetry. exact E.
    + apply (enrichEvent_reply_has_no_dst zero_clock (Some sample_enricher) (state sample_server)
        (tcp_event "10.1.0.7" 8080 "10.96.0.10" 80)
        {| ServiceNamespace := "shop"; ServiceName := "cart"; PodNamespace := "shop"; PodName := "cart-0" |} st' en
        eq_refl ltac:(discriminate) ltac:(discriminate) ltac:(vm_compute; reflexivity) E).
  - exfalso. vm_compute in E. discriminate.
Defined.

(** A client reaches the Service at its endpoint: the backend pod is attributed. *)
Lemma enrichEvent_backend_matches_service_witness :
  exists st' en, enrichEvent zero_clock (Some (Some sample_enricher)) (state sample_server)
                   (tcp_event "10.1.0.9" 41000 "10.1.0.7" 8080) = Ret (st', en) /\
    BackendPodName en = "cart-0"%string /\ DstKind en = "Service"%string.
Proof.
  destruct (enrichEvent zero_clock (Some (Some sample_enricher)) (state sample_server)
                   (tcp_event "10.1.0.9" 41000 "10.1.0.7" 8080)) as [[st' en]|] eqn:E.
  - assert (Hb : BackendPodName en = "cart-0"%string).
    { apply (f_equal (fun g => match g with Ret (_, en) => BackendPodName en | Panic => ""%string end)) in E.
      vm_compute in E. symmetry. exact E. }
    exists st', en. split; [reflexivity|]. split; [exact Hb|].
    apply (enrichEvent_backend_matches_service zero_clock _ _ _ _ _ E).
    right. rewrite Hb. discriminate.
  - exfalso. vm_compute in E. discriminate.
Defined.

Lemma NewServer_nil_enricher_panics_witness :
  PushEvents zero_clock [(0, RecvBatch (Some sample_batch)); (0, RecvEOF)] 0
    (NewServer (NewStore 10 Hour) None (Some (NewCache 0)) None) = Panic.
Proof.
  exact (NewServer_nil_enricher_panics zero_clock (NewStore 10 Hour) (Some (NewCache 0)) None 0 sample_batch
    (tcp_event "10.1.0.9" 41000 "10.96.0.10" 80) [(0, RecvEOF)] eq_refl eq_refl ltac:(discriminate)).
Defined.

Definition sample_delta : ByteDelta := {| Fields := sample_fields 1 0 0; Sent := 3; Received := 0 |}.

Lemma mapped_events_acceptable_witness :
  exists e, mapTrafficDelta 5 sample_delta = Some e /\
    accepted_of (Some (aggregv1.mkFlowEventBatch "node-1" "agent" [Some e])) = 1.
Proof.
  eexists. split; [reflexivity|].
  refine (proj1 (mapped_events_acceptable "node-1" "agent" [_] _)).
  apply Forall_singleton. apply (TrafficEvent 5 sample_delta). reflexivity.
Defined.
