(* ===== verification/RightSizerKube.v ===== *)
(** * The right-sizer and the cluster

    [src/util/kubernetes.go] of right-sizer: the arithmetic of memory
    quantities, the search for a pod spec and a container in an unstructured
    resource, the patch of a container's memory limit, and the interface of the
    Kubernetes clients the plugin calls. *)

From stdpp Require Import base decidable list gmap strings.
From Stdlib Require Import ZArith QArith Lia.
From S2P Require Import Prelude GoStrings GoNumbers.

Local Open Scope Z_scope.

(** ** Numbers *)

(** A [float64]: an exact rational, an infinity or not a number. *)
Inductive float64 : Type :=
| Finite (q : Q)
| Infinite
| NaN.

(** [value > 0.0]. *)
Definition is_positive (m : float64) : bool :=
  match m with
  | Finite q => 0 <? Qnum q
  | Infinite => true
  | NaN => false
  end.

(** The hundredths that [%.2f] prints: the nearest, a tie to the even one. *)
Definition hundredths (q : Q) : Z :=
  let n := 100 * Qnum q in
  let d := Zpos (Qden q) in
  let f := n / d in
  let r := n mod d in
  match (2 * r ?= d) with
  | Lt => f
  | Gt => f + 1
  | Eq => if Z.even f then f else f + 1
  end.

(** [inf.Dec.SetString] of the [%.2f] of a multiplier: it fails on [+Inf] and [NaN]. *)
Definition multiplier_dec (m : float64) : option Q :=
  match m with
  | Finite q => Some (hundredths q # 100)
  | _ => None
  end.

(** ** Errors

    An API error is a "not found" or another one; the plugin's own errors wrap
    what they report. *)
Inductive api_error : Type :=
| NotFound (text : string)
| OtherError (text : string).

Definition IsNotFound (e : option api_error) : bool :=
  match e with
  | Some (NotFound _) => true
  | _ => false
  end.

Inductive kube_error : Type :=
| NotADecimal (multiplier : float64)
| NoPodSpecFound (kind ns name : string)
| NoPodSpecFor (containerName : string) (e : kube_error)
| NoContainer (containerName kind ns name : string)
| NoMapping (apiVersion kind : string) (e : api_error)
| PatchFailed (kind ns name : string) (e : api_error)
| GetFailed (e : api_error)
| OwnerFailed (e : api_error)
| Codec (text : string).

Section kube.
Context {Qty : Type} `{!Quantity Qty}.

Definition MultiplyResourceQuantity (q : Qty) (multiplier : float64) : result kube_error Qty :=
  match multiplier_dec multiplier with
  | None => Err (NotADecimal multiplier)
  | Some m => Ok (NewDecimalQuantity (AsDec q * m)%Q (format_of q))
  end.

(** ** Cluster resources *)

(** [Memory()] of a container without a limit is the zero quantity. *)
Record Container := mkContainer {
  c_Name : string;
  c_MemoryLimits : Qty
}.

(** An unstructured resource.  [u_podSpecAt] is what [NestedMap] and the
    conversion to a pod spec make of a field path: [None] is no map there or a
    failed conversion, otherwise the containers. *)
Record Unstructured := mkUnstructured {
  u_APIVersion : string;
  u_Kind : string;
  u_Namespace : string;
  u_Name : string;
  u_Generation : Z;
  u_podSpecAt : list string -> option (list Container)
}.

Record ObjectReference := mkObjectReference {
  o_Kind : string;
  o_Namespace : string;
  o_Name : string;
  o_UID : string;
  o_APIVersion : string;
  o_ResourceVersion : string;
  o_FieldPath : string
}.

#[export] Instance ObjectReference_eq_dec : EqDecision ObjectReference.
Proof. solve_decision. Defined.

(** A [ContainerStateTerminated]. *)
Record Terminated := mkTerminated {
  t_Reason : string;
  t_FinishedAt : Z
}.

Record ContainerStatus := mkContainerStatus {
  s_Name : string;
  s_ContainerID : string;
  s_LastTerminated : option Terminated;
  s_StateTerminated : option Terminated
}.

Record Pod := mkPod {
  p_Namespace : string;
  p_Name : string;
  p_Containers : list Container;
  p_ContainerStatuses : list ContainerStatus
}.

(** A ConfigMap; a nil map is [None]. *)
Record ConfigMap := mkConfigMap {
  cm_Namespace : string;
  cm_Name : string;
  cm_Annotations : option (gmap string string);
  cm_Data : option (gmap string string)
}.

(** One operation of a JSON patch. *)
Record PatchOp := mkPatchOp {
  op_op : string;
  op_path : string;
  op_value : string
}.

(** ** The clients

    The world [W] is everything outside the plugin; every call may read and
    change it. *)
Class KubeAPI (W : Type) := {
  Now : W -> W * Z;
  ConfigMaps_Get : W -> string -> string -> W * result api_error ConfigMap;
  ConfigMaps_Update : W -> ConfigMap -> W * option api_error;
  ConfigMaps_Create : W -> ConfigMap -> W * option api_error;
  RESTMapping : W -> string -> string -> W * result api_error string;
  Dynamic_Get : W -> string -> string -> string -> W * result api_error Unstructured;
  Dynamic_Patch : W -> string -> string -> string -> list PatchOp -> W * result api_error Unstructured;
  pod_to_unstructured : Pod -> result string Unstructured;
  GetTopController : W -> Unstructured -> W * result api_error Unstructured;
  Recorder_Eventf : W -> Pod -> string -> string -> W
}.

(** ** Pod specs and containers *)

Definition searchFields : list (list string) :=
  [["spec"]; ["spec"; "jobTemplate"]; ["spec"; "template"; "spec"]]%string.

Fixpoint find_pod_spec (u : Unstructured) (paths : list (list string)) : option (list Container * string) :=
  match paths with
  | [] => None
  | fields :: paths' =>
      match u_podSpecAt u fields with
      | Some (c :: cs) => Some (c :: cs, String.concat "/" fields)
      | _ => find_pod_spec u paths'
      end
  end.

Definition FindPodSpecInUnstructured (u : Unstructured) : result kube_error (list Container * string) :=
  match find_pod_spec u searchFields with
  | Some r => Ok r
  | None => Err (NoPodSpecFound (u_Kind u) (u_Namespace u) (u_Name u))
  end.

(** The container and its position. *)
Definition FindContainerInPodSpec (podSpec : list Container) (containerName : string) : option (Container * nat) :=
  (fun ic : nat * Container => (ic.2, ic.1)) <$> list_find (fun c => c_Name c = containerName) podSpec.

Definition FindContainerInUnstructured (u : Unstructured) (containerName : string) :
    result kube_error (string * option (Container * nat)) :=
  match FindPodSpecInUnstructured u with
  | Err e => Err (NoPodSpecFor containerName e)
  | Ok (podSpec, podSpecPath) => Ok (podSpecPath, FindContainerInPodSpec podSpec containerName)
  end.

Section calls.
Context {W : Type} `{!KubeAPI W}.

Definition limit_patch (podSpecPath : string) (containerNumber : nat) (newContainerMemoryLimits : Qty) : list PatchOp :=
  [{| op_op := "replace";
      op_path := "/" +:+ podSpecPath +:+ "/containers/" +:+ fmt_d (Z.of_nat containerNumber)
                   +:+ "/resources/limits/memory";
      op_value := q_String newContainerMemoryLimits |}]%string.

Definition PatchContainerMemoryLimits (w : W) (resource : Unstructured) (containerName : string)
    (newContainerMemoryLimits : Qty) : W * result kube_error Unstructured :=
  match FindContainerInUnstructured resource containerName with
  | Err e => (w, Err e)
  | Ok (_, None) => (w, Err (NoContainer containerName (u_Kind resource) (u_Namespace resource) (u_Name resource)))
  | Ok (podSpecPath, Some (_, containerNumber)) =>
      match RESTMapping w (u_APIVersion resource) (u_Kind resource) with
      | (w, Err e) => (w, Err (NoMapping (u_APIVersion resource) (u_Kind resource) e))
      | (w, Ok mapped) =>
          match Dynamic_Patch w mapped (u_Namespace resource) (u_Name resource)
                  (limit_patch podSpecPath containerNumber newContainerMemoryLimits) with
          | (w, Err e) => (w, Err (PatchFailed (u_Kind resource) (u_Namespace resource) (u_Name resource) e))
          | (w, Ok patched) => (w, Ok patched)
          end
      end
  end.

(** The result's three Go values: the resource, [found] and the error. *)
Definition GetUnstructuredResourceFromObjectRef (w : W) (objectRef : ObjectReference) :
    W * (option Unstructured * bool * option kube_error) :=
  match RESTMapping w (o_APIVersion objectRef) (o_Kind objectRef) with
  | (w, Err e) => (w, (None, false, Some (NoMapping (o_APIVersion objectRef) (o_Kind objectRef) e)))
  | (w, Ok mapped) =>
      match Dynamic_Get w mapped (o_Namespace objectRef) (o_Name objectRef) with
      | (w, Err e) => (w, (None, false, if IsNotFound (Some e) then None else Some (GetFailed e)))
      | (w, Ok resource) => (w, (Some resource, true, None))
      end
  end.

Definition GetControllerFromPod (w : W) (pod : Pod) : W * result kube_error Unstructured :=
  match pod_to_unstructured pod with
  | Err text => (w, Err (Codec text))
  | Ok unstructuredPod =>
      match GetTopController w unstructuredPod with
      | (w, Err e) => (w, Err (OwnerFailed e))
      | (w, Ok topController) => (w, Ok topController)
      end
  end.
End calls.
End kube.

Arguments Container Qty : clear implicits.
Arguments Unstructured Qty : clear implicits.
Arguments Pod Qty : clear implicits.
Arguments KubeAPI Qty W : clear implicits.
