(* ===== verification/RightSizerCluster.v ===== *)
(** * A cluster for the right-sizer

    An executable instance of the client interface of RightSizerKube: quantities
    are rationals, ConfigMaps and resources are kept in maps, a patch replaces
    the memory limit its path points at and raises the generation, and every
    reading of the clock is a second later.  It satisfies the laws the theorems
    assume, and the concrete runs of the right-sizer use it.  The second part
    wraps any client so that the patches it is asked for are recorded. *)

From stdpp Require Import base decidable list gmap strings countable.
From Stdlib Require Import ZArith QArith Lia Ascii.
From S2P Require Import Prelude GoNumbers GoStrings RightSizerKube.

Local Open Scope Z_scope.

#[export] Existing Instance Q_quantity.
#[export] Existing Instance Q_quantity_laws.
#[export] Existing Instance Q_eq_dec.
#[export] Existing Instance Q_countable.

(** ** The world *)
Record Cluster := mkCluster {
  clock : Z;
  configMaps : gmap (string * string) ConfigMap;
  resources : gmap (string * string * string) (Unstructured Q)
}.

Definition put_configMap (cm : ConfigMap) (w : Cluster) : Cluster :=
  {| clock := clock w; configMaps := <[(cm_Namespace cm, cm_Name cm) := cm]> (configMaps w); resources := resources w |}.

Definition put_resource (mapped : string) (u : Unstructured Q) (w : Cluster) : Cluster :=
  {| clock := clock w; configMaps := configMaps w;
     resources := <[(mapped, u_Namespace u, u_Name u) := u]> (resources w) |}.

Definition missing {A} (o : option A) : result api_error A :=
  match o with
  | Some a => Ok a
  | None => Err (NotFound "not found"%string)
  end.

Definition named (ns name : string) (cm : ConfigMap) : ConfigMap :=
  {| cm_Namespace := ns; cm_Name := name; cm_Annotations := cm_Annotations cm; cm_Data := cm_Data cm |}.

(** Replaces the memory limit an operation points at. *)
Definition apply_op (op : PatchOp) (u : Unstructured Q) : Unstructured Q :=
  {| u_APIVersion := u_APIVersion u; u_Kind := u_Kind u; u_Namespace := u_Namespace u; u_Name := u_Name u;
     u_Generation := u_Generation u + 1;
     u_podSpecAt := fun fields =>
       imap (fun n c =>
               if decide (op_path op = ("/" +:+ String.concat "/" fields +:+ "/containers/" +:+ fmt_d (Z.of_nat n)
                                          +:+ "/resources/limits/memory")%string)
               then {| c_Name := c_Name c; c_MemoryLimits := default (c_MemoryLimits c) (parse_value (op_value op)) |}
               else c)
       <$> u_podSpecAt u fields |}.

(** A pod is its own top controller unless a Deployment of its name owns it. *)
Definition top_of (w : Cluster) (u : Unstructured Q) : Unstructured Q :=
  default u (resources w !! ("Deployment"%string, u_Namespace u, u_Name u)).

#[export] Instance cluster_api : KubeAPI Q Cluster := {
  Now := fun w => ({| clock := clock w + GoTime.Second; configMaps := configMaps w; resources := resources w |}, clock w);
  ConfigMaps_Get := fun w ns name => (w, missing (named ns name <$> configMaps w !! (ns, name)));
  ConfigMaps_Update := fun w cm =>
    match configMaps w !! (cm_Namespace cm, cm_Name cm) with
    | Some _ => (put_configMap cm w, None)
    | None => (w, Some (NotFound "not found"%string))
    end;
  ConfigMaps_Create := fun w cm =>
    match configMaps w !! (cm_Namespace cm, cm_Name cm) with
    | Some _ => (w, Some (OtherError "already exists"%string))
    | None => (put_configMap cm w, None)
    end;
  RESTMapping := fun w _ kind => (w, Ok kind);
  Dynamic_Get := fun w mapped ns name => (w, missing (resources w !! (mapped, ns, name)));
  Dynamic_Patch := fun w mapped ns name ops =>
    match resources w !! (mapped, ns, name) with
    | None => (w, Err (NotFound "not found"%string))
    | Some u => let u' := foldl (fun u op => apply_op op u) u ops in (put_resource mapped u' w, Ok u')
    end;
  pod_to_unstructured := fun pod =>
    Ok {| u_APIVersion := "v1"%string; u_Kind := "Pod"%string; u_Namespace := p_Namespace pod; u_Name := p_Name pod;
          u_Generation := 1; u_podSpecAt := fun fields => if decide (fields = ["spec"%string]) then Some (p_Containers pod) else None |};
  GetTopController := fun w u => (w, Ok (top_of w u));
  Recorder_Eventf := fun w _ _ _ => w
}.

(** ** Recording patches *)
Record PatchCall := mkPatchCall {
  pc_Resource : string;
  pc_Namespace : string;
  pc_Name : string;
  pc_Ops : list PatchOp
}.

(** A client together with the patches it was asked for so far. *)
Definition recording {Qty W : Type} (api : KubeAPI Qty W) : KubeAPI Qty (W * list PatchCall) := {|
  Now := fun w => let '(w', t) := Now w.1 in ((w', w.2), t);
  ConfigMaps_Get := fun w ns name => let '(w', r) := ConfigMaps_Get w.1 ns name in ((w', w.2), r);
  ConfigMaps_Update := fun w cm => let '(w', r) := ConfigMaps_Update w.1 cm in ((w', w.2), r);
  ConfigMaps_Create := fun w cm => let '(w', r) := ConfigMaps_Create w.1 cm in ((w', w.2), r);
  RESTMapping := fun w v kind => let '(w', r) := RESTMapping w.1 v kind in ((w', w.2), r);
  Dynamic_Get := fun w mapped ns name => let '(w', r) := Dynamic_Get w.1 mapped ns name in ((w', w.2), r);
  Dynamic_Patch := fun w mapped ns name ops =>
    let '(w', r) := Dynamic_Patch w.1 mapped ns name ops in
    ((w', w.2 ++ [mkPatchCall mapped ns name ops]), r);
  pod_to_unstructured := pod_to_unstructured;
  GetTopController := fun w u => let '(w', r) := GetTopController w.1 u in ((w', w.2), r);
  Recorder_Eventf := fun w pod reason message => (Recorder_Eventf w.1 pod reason message, w.2)
|}.

(** A client that keeps such a record: only a patch adds to it. *)
Class PatchLog {Qty : Type} (W : Type) `{!KubeAPI Qty W} := {
  patches : W -> list PatchCall;
  patches_Now : forall w, patches (Now w).1 = patches w;
  patches_Get : forall w ns n, patches (ConfigMaps_Get w ns n).1 = patches w;
  patches_Update : forall w cm, patches (ConfigMaps_Update w cm).1 = patches w;
  patches_Create : forall w cm, patches (ConfigMaps_Create w cm).1 = patches w;
  patches_Mapping : forall w v k, patches (RESTMapping w v k).1 = patches w;
  patches_Dynamic_Get : forall w m ns n, patches (Dynamic_Get w m ns n).1 = patches w;
  patches_Patch : forall w m ns n ops,
    patches (Dynamic_Patch w m ns n ops).1 = patches w ++ [mkPatchCall m ns n ops];
  patches_Top : forall w u, patches (GetTopController w u).1 = patches w;
  patches_Event : forall w pod r m, patches (Recorder_Eventf w pod r m) = patches w
}.

#[export] Instance recording_log {Qty W : Type} (api : KubeAPI Qty W) :
  @PatchLog Qty (W * list PatchCall) (recording api).
Proof.
  refine {| patches := snd |}; intros; cbn [Now ConfigMaps_Get ConfigMaps_Update ConfigMaps_Create RESTMapping Dynamic_Get
    Dynamic_Patch GetTopController Recorder_Eventf recording]; try done; by case_match.
Defined.

Section patch_log.
Context {Qty W : Type} `{!Quantity Qty} `{!KubeAPI Qty W} `{!PatchLog W}.

(** At most the one patch of the container's limit is sent. *)
Lemma PatchContainerMemoryLimits_patches (w : W) (u : Unstructured Qty) name (new : Qty) :
  let '(w', r) := PatchContainerMemoryLimits w u name new in
  (patches w' = patches w /\ (exists e, r = Err e)) \/
  exists mapped path c n, FindContainerInUnstructured u name = Ok (path, Some (c, n)) /\
    patches w' = patches w ++ [mkPatchCall mapped (u_Namespace u) (u_Name u) (limit_patch path n new)].
Proof.
  unfold PatchContainerMemoryLimits.
  destruct (FindContainerInUnstructured u name) as [[path [[c n]|]]|e]; [|by eauto|by eauto].
  pose proof (patches_Mapping w (u_APIVersion u) (u_Kind u)) as Hm.
  destruct (RESTMapping w _ _) as [w1 [mapped|e]]; cbn [fst] in Hm; [|by eauto].
  pose proof (patches_Patch w1 mapped (u_Namespace u) (u_Name u) (limit_patch path n new)) as Hp.
  destruct (Dynamic_Patch w1 _ _ _ _) as [w2 [patched|e]]; cbn [fst] in Hp; rewrite Hm in Hp; right; eauto 10.
Qed.

Lemma GetControllerFromPod_patches (w : W) (pod : Pod Qty) :
  patches (GetControllerFromPod w pod).1 = patches w.
Proof.
  unfold GetControllerFromPod. destruct (pod_to_unstructured pod) as [u|e]; [|done].
  pose proof (patches_Top w u) as Ht. by destruct (GetTopController w u) as [w1 [t|e]].
Qed.
End patch_log.
