(* ===== verification/RightSizerReport.v ===== *)
(** * The right-sizer's report

    [src/report/report.go] of right-sizer: the list of OOM-killed containers,
    keyed by kind, namespace, name and container; how items enter, age out and
    leave it, how far a memory limit may be raised, and the ConfigMap the report
    is kept in. *)

From stdpp Require Import base decidable list gmap strings.
From Stdlib Require Import ZArith QArith Lia.
From S2P Require Import Prelude GoNumbers GoStrings RightSizerKube RightSizerCluster.
Import GoTime.

Local Open Scope Z_scope.

Section report.
Context {Qty : Type} `{!Quantity Qty}.

(** ** Items *)

(** The two memory fields are pointers. *)
Record RightSizerReportItem := mkItem {
  Kind : string;
  ResourceName : string;
  ResourceNamespace : string;
  ResourceContainer : string;
  StartingMemory : option Qty;
  EndingMemory : option Qty;
  NumOOMs : Z;
  FirstOOM : Z;
  LastOOM : Z;
  ResourceGeneration : Z
}.

(** The builder: the report's items and its configuration. *)
Record RightSizerReportBuilder := mkBuilder {
  Items : list RightSizerReportItem;
  tooOldAge : Z;
  stateConfigMapNamespace : string;
  stateConfigMapName : string
}.

Definition set_Items (l : list RightSizerReportItem) (b : RightSizerReportBuilder) : RightSizerReportBuilder :=
  {| Items := l; tooOldAge := tooOldAge b; stateConfigMapNamespace := stateConfigMapNamespace b;
     stateConfigMapName := stateConfigMapName b |}.

Definition rightSizerReportBuilderOption : Type := RightSizerReportBuilder -> RightSizerReportBuilder.

Definition WithStateConfigMapNamespace (value : string) : rightSizerReportBuilderOption := fun r =>
  if decide (value <> ""%string)
  then {| Items := Items r; tooOldAge := tooOldAge r; stateConfigMapNamespace := value;
          stateConfigMapName := stateConfigMapName r |}
  else r.

Definition WithStateConfigMapName (value : string) : rightSizerReportBuilderOption := fun r =>
  if decide (value <> ""%string)
  then {| Items := Items r; tooOldAge := tooOldAge r; stateConfigMapNamespace := stateConfigMapNamespace r;
          stateConfigMapName := value |}
  else r.

Definition WithTooOldAge (value : Z) : rightSizerReportBuilderOption := fun r =>
  if 0 <? value
  then {| Items := Items r; tooOldAge := value; stateConfigMapNamespace := stateConfigMapNamespace r;
          stateConfigMapName := stateConfigMapName r |}
  else r.

Definition NewRightSizerReportBuilder (options : list rightSizerReportBuilderOption) : RightSizerReportBuilder :=
  foldl (fun b o => o b)
    {| Items := []; tooOldAge := 24 * Hour; stateConfigMapNamespace := "insights-agent";
       stateConfigMapName := "insights-agent-right-sizer-controller-state" |} options.

Definition item_String (i : RightSizerReportItem) : string :=
  (Kind i +:+ " " +:+ ResourceNamespace i +:+ "/" +:+ ResourceName i +:+ ":" +:+ ResourceContainer i)%string.

(** The comparison of the four unique fields. *)
Definition same_item (a b : RightSizerReportItem) : bool :=
  bool_decide (Kind a = Kind b /\ ResourceNamespace a = ResourceNamespace b /\
               ResourceName a = ResourceName b /\ ResourceContainer a = ResourceContainer b).

(** ** Memory *)

(** Dereferencing a nil [*resource.Quantity] panics. *)
Definition deref (p : option Qty) : go Qty :=
  match p with
  | Some q => Ret q
  | None => Panic
  end.

Definition MaxAllowedEndingMemory (i : RightSizerReportItem) (maxMultiplier : float64) : go (result kube_error Qty) :=
  q ← deref (StartingMemory i); Ret (MultiplyResourceQuantity q maxMultiplier).

(** The zero quantity stands for "not allowed". *)
Definition IncrementMemory (i : RightSizerReportItem) (currentMemory : Qty)
    (incrementMultiplier maxMultiplier : float64) : go Qty :=
  match MultiplyResourceQuantity currentMemory incrementMultiplier with
  | Err _ => Ret zeroQuantity
  | Ok newMemory =>
      max ← MaxAllowedEndingMemory i maxMultiplier;
      match max with
      | Err _ => Ret zeroQuantity
      | Ok maxAllowed => Ret (if 0 <? Cmp newMemory maxAllowed then zeroQuantity else newMemory)
      end
  end.

(** ** Report operations *)

Definition PopulateExistingItemFields (b : RightSizerReportBuilder) (yourItem : RightSizerReportItem) :
    RightSizerReportItem * bool :=
  match List.find (fun item => same_item item yourItem) (Items b) with
  | Some item => (item, true)
  | None => (yourItem, false)
  end.

Definition CreateRightSizerReportItem (now : Z) (b : RightSizerReportBuilder) (podController : Unstructured Qty)
    (container : Container Qty) : RightSizerReportItem :=
  let fresh :=
    {| Kind := u_Kind podController; ResourceName := u_Name podController;
       ResourceNamespace := u_Namespace podController; ResourceContainer := c_Name container;
       StartingMemory := None; EndingMemory := None; NumOOMs := 0; FirstOOM := zeroTime; LastOOM := zeroTime;
       ResourceGeneration := u_Generation podController |} in
  let '(item, itemAlreadyExists) := PopulateExistingItemFields b fresh in
  let limits := c_MemoryLimits container in
  {| Kind := Kind item; ResourceName := ResourceName item; ResourceNamespace := ResourceNamespace item;
     ResourceContainer := ResourceContainer item;
     StartingMemory := if (itemAlreadyExists : bool) then StartingMemory item else Some limits;
     EndingMemory := Some limits;
     NumOOMs := NumOOMs item + 1;
     FirstOOM := if (itemAlreadyExists : bool) then FirstOOM item else now;
     LastOOM := now;
     ResourceGeneration := ResourceGeneration item |}.

Definition retain_from (old newItem : RightSizerReportItem) : RightSizerReportItem :=
  {| Kind := Kind newItem; ResourceName := ResourceName newItem; ResourceNamespace := ResourceNamespace newItem;
     ResourceContainer := ResourceContainer newItem; StartingMemory := StartingMemory old;
     EndingMemory := EndingMemory newItem; NumOOMs := NumOOMs newItem; FirstOOM := FirstOOM old;
     LastOOM := LastOOM newItem; ResourceGeneration := ResourceGeneration newItem |}.

Definition first_seen (now : Z) (newItem : RightSizerReportItem) : RightSizerReportItem :=
  {| Kind := Kind newItem; ResourceName := ResourceName newItem; ResourceNamespace := ResourceNamespace newItem;
     ResourceContainer := ResourceContainer newItem; StartingMemory := StartingMemory newItem;
     EndingMemory := EndingMemory newItem; NumOOMs := 1; FirstOOM := now; LastOOM := now;
     ResourceGeneration := ResourceGeneration newItem |}.

(** The loop of [StoreItem]: [None] when no item matched. *)
Fixpoint store_existing (newItem : RightSizerReportItem) (l : list RightSizerReportItem) :
    option (list RightSizerReportItem) :=
  match l with
  | [] => None
  | item :: l' =>
      if same_item item newItem then Some (retain_from item newItem :: l')
      else (fun l'' => item :: l'') <$> store_existing newItem l'
  end.

Definition StoreItem (now : Z) (newItem : RightSizerReportItem) (b : RightSizerReportBuilder) : RightSizerReportBuilder :=
  match store_existing newItem (Items b) with
  | Some l => set_Items l b
  | None => set_Items (Items b ++ [first_seen now newItem]) b
  end.

(** [None] is the nil pointer returned when nothing matches. *)
Definition MatchItems (b : RightSizerReportBuilder) (kind ns name : string) : option (list RightSizerReportItem) :=
  match filter (fun i => Kind i = kind /\ ResourceNamespace i = ns /\ ResourceName i = name) (Items b) with
  | [] => None
  | l => Some l
  end.

Definition RemoveOldItems (now : Z) (b : RightSizerReportBuilder) : RightSizerReportBuilder * bool :=
  let kept := filter (fun i => ((0 <? tooOldAge b) && (tooOldAge b <=? Sub now (LastOOM i))) = false) (Items b) in
  if decide (length kept = length (Items b)) then (b, false) else (set_Items kept b, true).

(** [append(kept[:n], kept[n+1:]...)]. *)
Definition remove_at (n : nat) (l : list RightSizerReportItem) : list RightSizerReportItem := take n l ++ drop (S n) l.

(** The inner loop of [RemoveItems] at index [itemNum], which a removal moves
    back by one.  Indexing outside the slice panics. *)
Fixpoint remove_inner (removeItems : list RightSizerReportItem) (itemNum : Z) (kept : list RightSizerReportItem)
    (any : bool) : go (Z * list RightSizerReportItem * bool) :=
  match removeItems with
  | [] => Ret (itemNum, kept, any)
  | r :: rs =>
      if itemNum <? 0 then Panic
      else
        match kept !! Z.to_nat itemNum with
        | None => Panic
        | Some k =>
            if decide (item_String k = item_String r)
            then remove_inner rs (itemNum - 1) (remove_at (Z.to_nat itemNum) kept) true
            else remove_inner rs itemNum kept any
        end
  end.

(** The outer loop.  A removal moves the index and the end of the slice back
    together, so every round brings them one step closer and a fuel of one more
    than the length is enough; [None] is out of fuel. *)
Fixpoint remove_outer (fuel : nat) (removeItems : list RightSizerReportItem) (itemNum : Z)
    (kept : list RightSizerReportItem) (any : bool) : option (go (list RightSizerReportItem * bool)) :=
  match fuel with
  | O => None
  | S fuel' =>
      if itemNum <? lenZ kept then
        match remove_inner removeItems itemNum kept any with
        | Panic => Some Panic
        | Ret (n, kept, any) => remove_outer fuel' removeItems (n + 1) kept any
        end
      else Some (Ret (kept, any))
  end.

Definition RemoveItems (removeItems : list RightSizerReportItem) (b : RightSizerReportBuilder) :
    go (RightSizerReportBuilder * bool) :=
  match removeItems with
  | [] => Ret (b, false)
  | _ =>
      match remove_outer (S (length (Items b))) removeItems 0 (Items b) false with
      | Some (Ret (kept, any)) => Ret (if (any : bool) then set_Items kept b else b, any)
      | _ => Panic
      end
  end.

Definition GetNumItems (b : RightSizerReportBuilder) : Z := lenZ (Items b).


(** ** Items the cluster has moved past *)

(** The loop of [MatchItemsOlderWithModifiedMemoryLimits]. *)
Fixpoint match_older (currentResource : Unstructured Qty) (l : list RightSizerReportItem) :
    go (list RightSizerReportItem) :=
  match l with
  | [] => Ret []
  | item :: l' =>
      if ResourceGeneration item <? 1 then match_older currentResource l'
      else
        match FindPodSpecInUnstructured currentResource with
        | Err _ => match_older currentResource l'
        | Ok (currentPodSpec, _) =>
            match FindContainerInPodSpec currentPodSpec (ResourceContainer item) with
            | None => match_older currentResource l'
            | Some (currentContainer, _) =>
                ending ← deref (EndingMemory item);
                let MLEquality := Cmp ending (c_MemoryLimits currentContainer) in
                older ← match_older currentResource l';
                Ret (if (ResourceGeneration item <? u_Generation currentResource) && negb (MLEquality =? 0)
                     then item :: older else older)
            end
        end
  end.

Inductive report_error : Type :=
| FindingResource (e : kube_error)
| ReportJSON (text : string)
| GetConfigMap (e : api_error)
| UpdateConfigMap (e : api_error)
| CreateConfigMap (e : api_error)
| InitConfigMap (e : report_error)
| NoReportKey
| UnmarshalReport (text : string).

Section world.
Context {W : Type} `{!KubeAPI Qty W}.

(** The two Go values: the items, [None] for nil, and the error. *)
Definition MatchItemsOlderWithModifiedMemoryLimits (b : RightSizerReportBuilder) (w : W)
    (involvedObject : ObjectReference) : go (W * (option (list RightSizerReportItem) * option report_error)) :=
  match MatchItems b (o_Kind involvedObject) (o_Namespace involvedObject) (o_Name involvedObject) with
  | None => Ret (w, (None, None))
  | Some allMatches =>
      match GetUnstructuredResourceFromObjectRef w involvedObject with
      | (w, (_, false, _)) => Ret (w, (None, None))
      | (w, (_, true, Some err)) => Ret (w, (None, Some (FindingResource err)))
      | (w, (None, true, None)) => Panic
      | (w, (Some currentResource, true, None)) =>
          olderItems ← match_older currentResource allMatches;
          Ret (w, (match olderItems with [] => None | _ => Some olderItems end, None))
      end
  end.

(** ** The ConfigMap *)

(** [MarshalIndent] of the report and [Decode] into it: the decoder starts from
    the report it overwrites and may stop half way.  A stored text [null], which
    would leave a nil report, is outside the model. *)
Class ReportCodec := {
  encode_report : list RightSizerReportItem -> result string string;
  decode_report : string -> list RightSizerReportItem -> list RightSizerReportItem * option string;
  format_time : Z -> string
}.
Context `{!ReportCodec}.

Definition GetReportJSON (b : RightSizerReportBuilder) : result string string := encode_report (Items b).

(** [m[k] = v] on a map that may be nil. *)
Definition assign (k v : string) (m : option (gmap string string)) : go (gmap string string) :=
  match m with
  | None => Panic
  | Some m => Ret (<[k := v]> m)
  end.

(** [make] when the annotations are nil. *)
Definition made (m : option (gmap string string)) : option (gmap string string) :=
  Some (from_ptr ∅ id m).

Definition WriteConfigMap (b : RightSizerReportBuilder) (w : W) : go (W * option report_error) :=
  let '(w, now) := Now w in
  let updateTime := format_time now in
  match GetReportJSON b with
  | Err text => Ret (w, Some (ReportJSON text))
  | Ok reportJSON =>
      match ConfigMaps_Get w (stateConfigMapNamespace b) (stateConfigMapName b) with
      | (w, Ok configMap) =>
          data ← assign "report" reportJSON (cm_Data configMap);
          annotations ← assign "last-updated" updateTime (made (cm_Annotations configMap));
          match ConfigMaps_Update w
                  {| cm_Namespace := cm_Namespace configMap; cm_Name := cm_Name configMap;
                     cm_Annotations := Some annotations; cm_Data := Some data |} with
          | (w, Some e) => Ret (w, Some (UpdateConfigMap e))
          | (w, None) => Ret (w, None)
          end
      | (w, Err e) =>
          if IsNotFound (Some e) then
            match ConfigMaps_Create w
                    {| cm_Namespace := stateConfigMapNamespace b; cm_Name := stateConfigMapName b;
                       cm_Annotations := Some {["last-updated" := updateTime]};
                       cm_Data := Some {["report" := reportJSON]} |} with
            | (w, Some e) => Ret (w, Some (CreateConfigMap e))
            | (w, None) => Ret (w, None)
            end
          else Ret (w, Some (GetConfigMap e))
      end
  end.

Definition ReadConfigMap (b : RightSizerReportBuilder) (w : W) :
    go (W * RightSizerReportBuilder * option report_error) :=
  match ConfigMaps_Get w (stateConfigMapNamespace b) (stateConfigMapName b) with
  | (w, Err e) =>
      if IsNotFound (Some e) then
        '(w, err) ← WriteConfigMap b w;
        Ret (w, b, InitConfigMap <$> (err : option report_error))
      else Ret (w, b, Some (GetConfigMap e))
  | (w, Ok configMap) =>
      match from_ptr ∅ id (cm_Data configMap) !! "report"%string with
      | None => Ret (w, b, Some NoReportKey)
      | Some reportJSON =>
          let '(items, err) := decode_report reportJSON (Items b) in
          Ret (w, set_Items items b, UnmarshalReport <$> err)
      end
  end.

(** One tick of [LoopRemoveOldItems]; the write's error is dropped. *)
Definition remove_old_tick (b : RightSizerReportBuilder) (w : W) : go (W * RightSizerReportBuilder) :=
  let '(w, now) := Now w in
  let '(b, anyItemsRemoved) := RemoveOldItems now b in
  if (anyItemsRemoved : bool) then '(w, _) ← WriteConfigMap b w; Ret (w, b) else Ret (w, b).

Definition RemoveRelatedItemsOlderWithModifiedMemoryLimits (b : RightSizerReportBuilder) (w : W)
    (objRef : ObjectReference) : go (W * RightSizerReportBuilder * option report_error) :=
  '(w, (relatedItems, err)) ← MatchItemsOlderWithModifiedMemoryLimits b w objRef;
  match err, relatedItems with
  | Some err, _ => Ret (w, b, Some err)
  | None, None => Ret (w, b, None)
  | None, Some relatedItems =>
      '(b, anyItemsRemoved) ← RemoveItems relatedItems b;
      if (anyItemsRemoved : bool) then '(w, _) ← WriteConfigMap b w; Ret (w, b, None) else Ret (w, b, None)
  end.
End world.
End report.

Arguments RightSizerReportItem Qty : clear implicits.
Arguments RightSizerReportBuilder Qty : clear implicits.
Arguments ReportCodec Qty : clear implicits.

(** ** Removing items *)
Section removal.
Context {Qty : Type} `{!Quantity Qty}.
Implicit Types (i x r : RightSizerReportItem Qty) (l rs : list (RightSizerReportItem Qty)).

(** The item carries the name of one to remove. *)
Definition hit rs i : bool := existsb (fun r => bool_decide (item_String i = item_String r)) rs.

(** Among the items at the front of the report that are removed, one is matched
    by an entry of the list that is not its last. *)
Fixpoint head_panics rs l : bool :=
  match l with
  | [] => false
  | i :: l' => hit (removelast rs) i || (hit rs i && head_panics rs l')
  end.

Definition survivors rs l : list (RightSizerReportItem Qty) := filter (fun i => hit rs i = false) l.

Lemma survivors_nil rs l : existsb (hit rs) l = false -> survivors rs l = l.
Proof.
  induction l as [|i l IH]; [done|]. cbn [existsb]. intros [Hi Hl]%orb_false_iff.
  unfold survivors. rewrite filter_cons_True by done. f_equal. by apply IH.
Qed.

Lemma lookup_at (pre : list (RightSizerReportItem Qty)) x post :
  (pre ++ x :: post) !! Z.to_nat (lenZ pre) = Some x.
Proof. unfold lenZ. rewrite Nat2Z.id. by apply list_lookup_middle. Qed.

Lemma remove_at_mid (pre : list (RightSizerReportItem Qty)) x post :
  remove_at (Z.to_nat (lenZ pre)) (pre ++ x :: post) = pre ++ post.
Proof.
  unfold remove_at, lenZ. rewrite Nat2Z.id, take_app_length. f_equal.
  change (x :: post) with ([x] ++ post). rewrite (assoc_L (++)).
  replace (S (length pre)) with (length (pre ++ [x])) by (rewrite length_app; simpl; lia).
  apply drop_app_length.
Qed.

(** An item nothing matches is passed over. *)
Lemma remove_inner_keeps rs pre x post any :
  hit rs x = false ->
  remove_inner rs (lenZ pre) (pre ++ x :: post) any = Ret (lenZ pre, pre ++ x :: post, any).
Proof.
  induction rs as [|r rs IH]; intros H; [done|].
  cbn [hit existsb] in H. apply orb_false_iff in H as [Hr Hrs]. to_prop.
  cbn [remove_inner]. destruct (Z.ltb_spec (lenZ pre) 0) as [Hn|_]; [unfold lenZ in Hn; lia|].
  rewrite lookup_at, decide_False by done. by apply IH.
Qed.

(** Behind an item that stays, a matched item is removed and the index moves back. *)
Lemma remove_inner_behind rs pre y x post any :
  hit rs y = false -> hit rs x = true ->
  remove_inner rs (lenZ (pre ++ [y])) ((pre ++ [y]) ++ x :: post) any
  = Ret (lenZ pre, (pre ++ [y]) ++ post, true).
Proof.
  induction rs as [|r rs IH]; intros Hy Hx; [done|].
  cbn [hit existsb] in Hy, Hx. apply orb_false_iff in Hy as [Hr Hrs].
  cbn [remove_inner]. destruct (Z.ltb_spec (lenZ (pre ++ [y])) 0) as [Hn|_]; [unfold lenZ in Hn; lia|].
  rewrite lookup_at. case_decide as He.
  - rewrite remove_at_mid, lenZ_app. replace (lenZ pre + lenZ [y] - 1) with (lenZ pre) by (unfold lenZ; simpl; lia).
    rewrite <-(assoc_L (++)). by apply remove_inner_keeps.
  - rewrite bool_decide_eq_false_2 in Hx by done. by apply IH.
Qed.

Lemma hit_cons r rs x : hit (r :: rs) x = bool_decide (item_String x = item_String r) || hit rs x.
Proof. done. Qed.

(** At the front, a match by the last entry leaves the index before the slice,
    and a match by an earlier one makes the next entry index it. *)
Lemma remove_inner_front rs x post any :
  hit rs x = true ->
  remove_inner rs 0 (x :: post) any = if hit (removelast rs) x then Panic else Ret (-1, post, true).
Proof.
  induction rs as [|r rs IH]; intros Hx; [done|].
  rewrite hit_cons in Hx. cbn [remove_inner]. simpl (0 <? 0). cbv iota. simpl ((x :: post) !! _). cbv iota.
  destruct rs as [|r' rs'].
  - rewrite decide_True; [done|]. simpl in Hx. rewrite orb_false_r in Hx. by to_prop.
  - change (removelast (r :: r' :: rs')) with (r :: removelast (r' :: rs')). rewrite hit_cons.
    case_decide as He.
    + by rewrite bool_decide_eq_true_2 by done.
    + rewrite bool_decide_eq_false_2 in Hx |- * by done. by apply IH.
Qed.

Lemma remove_outer_behind rs fuel pre y post any :
  (length post < fuel)%nat -> Forall (fun i => hit rs i = false) (pre ++ [y]) ->
  remove_outer fuel rs (lenZ (pre ++ [y])) ((pre ++ [y]) ++ post) any
  = Some (Ret ((pre ++ [y]) ++ survivors rs post, any || existsb (hit rs) post)).
Proof.
  revert fuel pre y any. induction post as [|x post IH]; intros [|fuel] pre y any Hf Hpre; simpl in Hf; try lia.
  - cbn [remove_outer]. rewrite app_nil_r. destruct (Z.ltb_spec (lenZ (pre ++ [y])) (lenZ (pre ++ [y]))); [lia|].
    cbn [existsb]. rewrite orb_false_r. unfold survivors. by rewrite filter_nil, app_nil_r.
  - cbn [remove_outer]. destruct (Z.ltb_spec (lenZ (pre ++ [y])) (lenZ ((pre ++ [y]) ++ x :: post))) as [_|Hn].
    2:{ rewrite (lenZ_app (pre ++ [y])) in Hn. unfold lenZ in Hn. simpl in Hn. lia. }
    assert (Hy : hit rs y = false) by (apply Forall_app in Hpre as [_ Hy]; inversion Hy; done).
    cbn [existsb]. unfold survivors. destruct (hit rs x) eqn:Hx.
    + rewrite remove_inner_behind by done. rewrite filter_cons_False by congruence.
      replace (lenZ pre + 1) with (lenZ (pre ++ [y])) by (rewrite lenZ_app; done).
      rewrite IH by (done || lia). by rewrite orb_true_r.
    + rewrite remove_inner_keeps by done. rewrite filter_cons_True by done.
      change (x :: post) with ([x] ++ post). rewrite (assoc_L (++)).
      replace (lenZ (pre ++ [y]) + 1) with (lenZ ((pre ++ [y]) ++ [x])) by (rewrite (lenZ_app (pre ++ [y])); done).
      rewrite IH; [|lia|apply Forall_app; auto]. by rewrite orb_false_l, <-(assoc_L (++) (pre ++ [y])).
Qed.

Lemma remove_outer_front rs fuel l any :
  (length l < fuel)%nat ->
  remove_outer fuel rs 0 l any
  = Some (if head_panics rs l then Panic else Ret (survivors rs l, any || existsb (hit rs) l)).
Proof.
  revert fuel any. induction l as [|x l IH]; intros [|fuel] any Hf; simpl in Hf; try lia.
  - simpl. by rewrite orb_false_r.
  - cbn [remove_outer]. destruct (Z.ltb_spec 0 (lenZ (x :: l))) as [_|Hn]; [|unfold lenZ in Hn; simpl in Hn; lia].
    cbn [head_panics existsb]. unfold survivors. destruct (hit rs x) eqn:Hx.
    + rewrite remove_inner_front by done. rewrite filter_cons_False by congruence.
      destruct (hit (removelast rs) x) eqn:Hr; [done|]. simpl (-1 + 1).
      rewrite IH by lia. by rewrite orb_true_r.
    + pose proof (remove_inner_keeps rs [] x l any Hx) as He. cbn [app] in He. change (lenZ []) with 0 in He. rewrite He.
      rewrite filter_cons_True by done.
      replace (hit (removelast rs) x) with false.
      * pose proof (remove_outer_behind rs fuel [] x l any) as Ho. cbn [app] in Ho. change (lenZ [x]) with 1 in Ho.
        change (0 + 1) with 1. rewrite Ho; [done|lia|by apply Forall_singleton].
      * symmetry. apply not_true_is_false. intros (r & Hr & He')%existsb_exists.
        assert (hit rs x = true); [|congruence]. apply existsb_exists. exists r. split; [|done].
        clear -Hr. induction rs as [|a rs IH]; [done|]. destruct rs as [|b rs]; [done|].
        destruct Hr as [->|Hr]; [by left|right; by apply IH].
Qed.

(** [RemoveItems] terminates: it removes from the report exactly the items
    that carry the name of one in the list, in place and in order, and says
    whether there were any; except that it panics, with an index of -1, when an
    item that has come to the front of the report is matched by an entry that
    is not the list's last. *)
Theorem RemoveItems_removes_or_panics rs (b : RightSizerReportBuilder Qty) :
  RemoveItems rs b
  = (if head_panics rs (Items b) then Panic
     else Ret (set_Items (survivors rs (Items b)) b, existsb (hit rs) (Items b))).
Proof.
  unfold RemoveItems. destruct rs as [|r rs].
  - assert (existsb (hit []) (Items b) = false /\ head_panics [] (Items b) = false) as [He ->].
    { induction (Items b) as [|i l IH]; [done|]. destruct IH as [IH1 IH2]. split; simpl; done. }
    rewrite survivors_nil by done. rewrite He. by destruct b.
  - rewrite remove_outer_front by lia. destruct (head_panics _ _); [done|]. rewrite orb_false_l.
    destruct (existsb _ _) eqn:He; [done|]. rewrite survivors_nil by done. by destruct b.
Qed.
End removal.

(** ** Recording OOM kills *)
Section records.
Context {Qty : Type} `{!Quantity Qty}.
Implicit Types (i : RightSizerReportItem Qty) (l : list (RightSizerReportItem Qty)) (b : RightSizerReportBuilder Qty).

Definition key : Type := string * string * string * string.

Definition item_key i : key := (Kind i, ResourceNamespace i, ResourceName i, ResourceContainer i).

(** The report read as a map: the first item with a key. *)
Definition find_item (k : key) l : option (RightSizerReportItem Qty) :=
  snd <$> list_find (fun i => item_key i = k) l.

Lemma same_item_key i j : same_item i j = true <-> item_key i = item_key j.
Proof.
  unfold same_item, item_key. rewrite bool_decide_eq_true. split; [by intros (-> & -> & -> & ->)|].
  by intros [= -> -> -> ->].
Qed.

Lemma find_item_cons k i l : find_item k (i :: l) = if decide (item_key i = k) then Some i else find_item k l.
Proof.
  unfold find_item. cbn [list_find]. case_decide as He; [done|].
  destruct (list_find _ l) as [[n j]|]; done.
Qed.

Lemma find_item_app k l1 l2 :
  find_item k (l1 ++ l2) = match find_item k l1 with Some i => Some i | None => find_item k l2 end.
Proof.
  induction l1 as [|i l1 IH]; [done|]. cbn [app]. rewrite !find_item_cons. by case_decide.
Qed.

Lemma find_item_key k i l : find_item k l = Some i -> item_key i = k /\ i ∈ l.
Proof.
  induction l as [|j l IH]; [done|]. rewrite find_item_cons, elem_of_cons. case_decide as He.
  - intros [= ->]. by split; [|left].
  - intros H. destruct (IH H). by split; [|right].
Qed.

Lemma find_item_none k l : find_item k l = None <-> k ∉ item_key <$> l.
Proof.
  induction l as [|j l IH]; [rewrite fmap_nil, elem_of_nil; split; [by intros _ []|done]|].
  rewrite find_item_cons, fmap_cons, not_elem_of_cons. case_decide as He; [naive_solver|].
  rewrite IH. naive_solver.
Qed.

Lemma populate_find b i :
  PopulateExistingItemFields b i
  = match find_item (item_key i) (Items b) with Some old => (old, true) | None => (i, false) end.
Proof.
  unfold PopulateExistingItemFields. induction (Items b) as [|j l IH]; [done|].
  cbn [List.find]. rewrite find_item_cons. case_decide as He.
  - apply same_item_key in He. by rewrite He.
  - destruct (same_item j i) eqn:Hs; [by apply same_item_key in Hs|]. exact IH.
Qed.

Lemma retain_from_key i j : item_key (retain_from i j) = item_key j.
Proof. done. Qed.

(** Storing replaces the item with the same key where it stands, or finds none. *)
Lemma store_existing_spec i l :
  match store_existing i l with
  | Some l' =>
      item_key <$> l' = item_key <$> l /\
      exists old, find_item (item_key i) l = Some old /\
        forall k, find_item k l' = if decide (k = item_key i) then Some (retain_from old i) else find_item k l
  | None => find_item (item_key i) l = None
  end.
Proof.
  induction l as [|j l IH]; [done|]. cbn [store_existing].
  destruct (same_item j i) eqn:Hs.
  - apply same_item_key in Hs. split; [rewrite !fmap_cons; f_equal; by rewrite retain_from_key|].
    exists j. rewrite find_item_cons, decide_True by done. split; [done|]. intros k.
    rewrite !find_item_cons, retain_from_key. repeat case_decide; congruence.
  - assert (Hne : item_key j <> item_key i) by (intros He; apply same_item_key in He; congruence).
    destruct (store_existing i l) as [l'|]; cbn [fmap option_fmap option_map].
    + destruct IH as (Hk & old & Ho & Hf). split; [rewrite !fmap_cons; by f_equal|].
      exists old. rewrite find_item_cons, decide_False by done. split; [done|]. intros k.
      rewrite !find_item_cons, Hf. repeat case_decide; congruence.
    + by rewrite find_item_cons, decide_False.
Qed.

(** What [StoreItem] leaves under a key. *)
Lemma StoreItem_find now i b k :
  find_item k (Items (StoreItem now i b))
  = if decide (k = item_key i)
    then Some (match find_item (item_key i) (Items b) with Some old => retain_from old i | None => first_seen now i end)
    else find_item k (Items b).
Proof.
  unfold StoreItem. pose proof (store_existing_spec i (Items b)) as H.
  destruct (store_existing i (Items b)) as [l'|]; cbn [set_Items Items].
  - destruct H as (_ & old & -> & ->). done.
  - rewrite find_item_app, H. cbn [find_item]. rewrite find_item_cons.
    change (item_key (first_seen now i)) with (item_key i). repeat case_decide; subst; try done.
    + by rewrite H.
    + by destruct (find_item k (Items b)).
Qed.

Definition oom_key (u : Unstructured Qty) (c : Container Qty) : key := (u_Kind u, u_Namespace u, u_Name u, c_Name c).

(** The item of an OOM kill, before the memory limit is looked at. *)
Lemma Create_find now b (u : Unstructured Qty) (c : Container Qty) :
  CreateRightSizerReportItem now b u c
  = match find_item (oom_key u c) (Items b) with
    | Some old =>
        {| Kind := u_Kind u; ResourceName := u_Name u; ResourceNamespace := u_Namespace u; ResourceContainer := c_Name c;
           StartingMemory := StartingMemory old; EndingMemory := Some (c_MemoryLimits c); NumOOMs := NumOOMs old + 1;
           FirstOOM := FirstOOM old; LastOOM := now; ResourceGeneration := ResourceGeneration old |}
    | None =>
        {| Kind := u_Kind u; ResourceName := u_Name u; ResourceNamespace := u_Namespace u; ResourceContainer := c_Name c;
           StartingMemory := Some (c_MemoryLimits c); EndingMemory := Some (c_MemoryLimits c); NumOOMs := 1;
           FirstOOM := now; LastOOM := now; ResourceGeneration := u_Generation u |}
    end.
Proof.
  unfold CreateRightSizerReportItem. rewrite populate_find.
  change (item_key _) with (oom_key u c). destruct (find_item (oom_key u c) (Items b)) as [old|] eqn:Hf; [|done].
  apply find_item_key in Hf as [Hk _]. unfold item_key, oom_key in Hk. injection Hk as -> -> -> ->. done.
Qed.

Lemma Create_key now b (u : Unstructured Qty) (c : Container Qty) :
  item_key (CreateRightSizerReportItem now b u c) = oom_key u c.
Proof. rewrite Create_find. by destruct (find_item _ _). Qed.

(** The memory limit and the generation the controller settles on. *)
Definition with_outcome (ending : option Qty) (generation : Z) i : RightSizerReportItem Qty :=
  {| Kind := Kind i; ResourceName := ResourceName i; ResourceNamespace := ResourceNamespace i;
     ResourceContainer := ResourceContainer i; StartingMemory := StartingMemory i; EndingMemory := ending;
     NumOOMs := NumOOMs i; FirstOOM := FirstOOM i; LastOOM := LastOOM i; ResourceGeneration := generation |}.

(** An OOM kill recorded and stored touches the item of its container and no
    other: a known container keeps its place, its first OOM time and its
    starting memory, and its count grows by one; a new one is appended with
    count one, its current limit as starting memory and the time of storing. *)
Theorem report_records_oom now1 now2 (u : Unstructured Qty) (c : Container Qty) ending generation b :
  let k := oom_key u c in
  let b' := StoreItem now2 (with_outcome ending generation (CreateRightSizerReportItem now1 b u c)) b in
  item_key <$> Items b' = (item_key <$> Items b) ++ match find_item k (Items b) with Some _ => [] | None => [k] end /\
  forall k', find_item k' (Items b') =
    if decide (k' = k) then
      Some (match find_item k (Items b) with
            | Some old => mkItem (u_Kind u) (u_Name u) (u_Namespace u) (c_Name c) (StartingMemory old) ending
                            (NumOOMs old + 1) (FirstOOM old) now1 generation
            | None => mkItem (u_Kind u) (u_Name u) (u_Namespace u) (c_Name c) (Some (c_MemoryLimits c)) ending
                        1 now2 now2 generation
            end)
    else find_item k' (Items b).
Proof.
  intros k b'. set (i := with_outcome ending generation (CreateRightSizerReportItem now1 b u c)) in *.
  assert (Hk : item_key i = k) by apply (Create_key now1 b u c). split.
  - unfold b', StoreItem. pose proof (store_existing_spec i (Items b)) as H.
    destruct (store_existing i (Items b)) as [l'|]; rewrite Hk in H; cbn [set_Items Items].
    + destruct H as (-> & old & -> & _). by rewrite app_nil_r.
    + rewrite H, fmap_app. f_equal. change (item_key (first_seen now2 i) :: [] = [k]). f_equal. exact Hk.
  - intros k'. unfold b'. rewrite StoreItem_find, Hk. case_decide; [|done]. f_equal. unfold i. rewrite Create_find.
    fold k. by destruct (find_item k (Items b)).
Qed.
End records.

(** ** Keeping the report in the ConfigMap *)
Section config_map.
Context {Qty : Type} `{!Quantity Qty}.

(** Equality of items up to the representation of their quantities. *)
Definition same_quantity : relation Qty := fun a b => (AsDec a == AsDec b)%Q.

Record same_values (i j : RightSizerReportItem Qty) : Prop := {
  same_key : item_key i = item_key j;
  same_starting : option_Forall2 same_quantity (StartingMemory i) (StartingMemory j);
  same_ending : option_Forall2 same_quantity (EndingMemory i) (EndingMemory j);
  same_counts : (NumOOMs i, FirstOOM i, LastOOM i, ResourceGeneration i)
                = (NumOOMs j, FirstOOM j, LastOOM j, ResourceGeneration j)
}.

#[export] Instance same_quantity_equiv : Equivalence same_quantity.
Proof.
  split; unfold same_quantity; [intros a; reflexivity|intros a b H; by symmetry|intros a b c H1 H2; by etrans].
Qed.

#[export] Instance same_values_refl : Reflexive same_values.
Proof. intros i. split; reflexivity. Qed.

(** A stored ConfigMap is found again under its name. *)
Class ConfigMapLaws (W : Type) `{!KubeAPI Qty W} : Prop := {
  get_names : forall w ns n w' cm,
    ConfigMaps_Get w ns n = (w', Ok cm) -> cm_Namespace cm = ns /\ cm_Name cm = n;
  update_get : forall w cm w', ConfigMaps_Update w cm = (w', None) ->
    exists w'' cm', ConfigMaps_Get w' (cm_Namespace cm) (cm_Name cm) = (w'', Ok cm') /\ cm_Data cm' = cm_Data cm;
  create_get : forall w cm w', ConfigMaps_Create w cm = (w', None) ->
    exists w'' cm', ConfigMaps_Get w' (cm_Namespace cm) (cm_Name cm) = (w'', Ok cm') /\ cm_Data cm' = cm_Data cm
}.

(** Decoding an encoded report gives its items with the same values. *)
Class ReportCodecLaws `{!ReportCodec Qty} : Prop := {
  decode_encode_report : forall l s old, encode_report l = Ok s ->
    exists l', decode_report s old = (l', None) /\ Forall2 same_values l l'
}.

Context {W : Type} `{!KubeAPI Qty W} `{!ConfigMapLaws W} `{!ReportCodec Qty} `{!ReportCodecLaws}.

(** After a successful write the map under the report's name holds its JSON. *)
Lemma WriteConfigMap_stores (b : RightSizerReportBuilder Qty) (w w' : W) :
  WriteConfigMap b w = Ret (w', None) ->
  exists s w'' cm, encode_report (Items b) = Ok s /\
    ConfigMaps_Get w' (stateConfigMapNamespace b) (stateConfigMapName b) = (w'', Ok cm) /\
    from_ptr ∅ id (cm_Data cm) !! "report"%string = Some s.
Proof.
  unfold WriteConfigMap, GetReportJSON. destruct (Now w) as [w0 t].
  destruct (encode_report (Items b)) as [s|] eqn:He; [|done].
  destruct (ConfigMaps_Get w0 _ _) as [w1 [cm|e]] eqn:Hg.
  - destruct (get_names _ _ _ _ _ Hg) as [Hn1 Hn2].
    destruct (cm_Data cm) as [data|]; [|done]. cbn [assign made mbind go_bind].
    destruct (ConfigMaps_Update _ _) as [w2 [e|]] eqn:Hu; [done|]. intros [= ->].
    destruct (update_get _ _ _ Hu) as (w3 & cm' & Hg' & Hd). cbn [cm_Namespace cm_Name cm_Data] in *.
    rewrite Hn1, Hn2 in Hg'. exists s, w3, cm'. split_and!; [done|done|]. rewrite Hd. by apply lookup_insert_eq.
  - destruct (IsNotFound _); [|done]. destruct (ConfigMaps_Create _ _) as [w2 [e'|]] eqn:Hc; [done|]. intros [= ->].
    destruct (create_get _ _ _ Hc) as (w3 & cm' & Hg' & Hd). cbn [cm_Namespace cm_Name cm_Data] in *.
    exists s, w3, cm'. split_and!; [done|done|]. rewrite Hd. by apply lookup_insert_eq.
Qed.

(** The state survives a restart: after a successful [WriteConfigMap], a
    fresh controller's [ReadConfigMap] under the same ConfigMap name reports no
    error and its report holds the written items, in order, with the same
    values. *)
Theorem configmap_round_trip (b b' : RightSizerReportBuilder Qty) (w w' : W) :
  WriteConfigMap b w = Ret (w', None) ->
  stateConfigMapNamespace b' = stateConfigMapNamespace b -> stateConfigMapName b' = stateConfigMapName b ->
  exists w'' items, ReadConfigMap b' w' = Ret (w'', set_Items items b', None) /\ Forall2 same_values (Items b) items.
Proof.
  intros Hw Hns Hn. destruct (WriteConfigMap_stores b w w' Hw) as (s & w'' & cm & He & Hg & Hd).
  destruct (decode_encode_report _ _ (Items b') He) as (items & Hdec & Hs).
  exists w'', items. split; [|done]. unfold ReadConfigMap. rewrite Hns, Hn, Hg, Hd, Hdec. done.
Qed.
End config_map.
Arguments ConfigMapLaws Qty W {_}.
Arguments ReportCodecLaws Qty {_ _}.

(** [WriteConfigMap] panics exactly when the ConfigMap exists without data. *)
Lemma WriteConfigMap_panics {Qty W : Type} `{!Quantity Qty} `{!KubeAPI Qty W} `{!ReportCodec Qty}
    (b : RightSizerReportBuilder Qty) (w : W) :
  WriteConfigMap b w = Panic <->
  (exists s, encode_report (Items b) = Ok s) /\
  exists w' cm, ConfigMaps_Get (Now w).1 (stateConfigMapNamespace b) (stateConfigMapName b) = (w', Ok cm) /\
    cm_Data cm = None.
Proof.
  unfold WriteConfigMap, GetReportJSON. destruct (Now w) as [w0 t]. cbn [fst].
  destruct (encode_report (Items b)) as [s|e]; [|split; [done|by intros [[? ?] _]]].
  destruct (ConfigMaps_Get w0 _ _) as [w1 [cm|e]].
  - destruct (cm_Data cm) as [data|] eqn:Hd; cbn [assign made mbind go_bind].
    + split; [by destruct (ConfigMaps_Update _ _) as [? []]|]. intros [_ (? & ? & [= <- <-] & H)]. congruence.
    + split; [|done]. intros _. split; [by eexists|]. by exists w1, cm.
  - split; [|by intros [_ (? & ? & ? & _)]].
    destruct (IsNotFound _); [by destruct (ConfigMaps_Create _ _) as [? []]|done].
Qed.

(** ** A concrete report *)
#[export] Instance item_eq_dec : EqDecision (RightSizerReportItem Q).
Proof. solve_decision. Defined.

#[export] Instance item_countable : Countable (RightSizerReportItem Q) :=
  inj_countable'
    (fun i => (((Kind i, ResourceName i), (ResourceNamespace i, ResourceContainer i)),
               ((StartingMemory i, EndingMemory i), (NumOOMs i, (FirstOOM i, (LastOOM i, ResourceGeneration i))))))
    (fun '(((k, n), (ns, c)), ((s, e), (o, (f, (l, g))))) => mkItem k n ns c s e o f l g)
    (fun i => match i with mkItem _ _ _ _ _ _ _ _ _ _ => eq_refl end).

#[export] Instance sample_codec : ReportCodec Q := {
  encode_report := fun l => Ok (print_value l);
  decode_report := fun s old =>
    match parse_value s with
    | Some l => (l, None)
    | None => (old, Some "invalid report"%string)
    end;
  format_time := fun t => fmt_d t
}.

#[export] Instance sample_codec_laws : ReportCodecLaws Q.
Proof.
  split. intros l s old [= <-]. exists l. cbn [decode_report sample_codec]. rewrite parse_print. split; [done|].
  clear old. induction l; constructor; [reflexivity|done].
Qed.

Lemma put_configMap_get (w : Cluster) cm :
  ConfigMaps_Get (put_configMap cm w) (cm_Namespace cm) (cm_Name cm) = (put_configMap cm w, Ok cm).
Proof. simpl. rewrite lookup_insert_eq. by destruct cm. Qed.

#[export] Instance cluster_configMap_laws : ConfigMapLaws Q Cluster.
Proof.
  split.
  - intros w ns n w' cm. simpl. destruct (configMaps w !! (ns, n)); [|done]. by intros [= _ <-].
  - intros w cm w'. simpl. destruct (configMaps w !! _); [|done]. intros [= <-].
    exists (put_configMap cm w), cm. split; [|done]. apply put_configMap_get.
  - intros w cm w'. simpl. destruct (configMaps w !! _); [done|]. intros [= <-].
    exists (put_configMap cm w), cm. split; [|done]. apply put_configMap_get.
Qed.

Definition sample_item (name container : string) (limit : Q) (ooms : Z) : RightSizerReportItem Q :=
  {| Kind := "Deployment"; ResourceName := name; ResourceNamespace := "shop"; ResourceContainer := container;
     StartingMemory := Some limit; EndingMemory := Some limit; NumOOMs := ooms; FirstOOM := 0; LastOOM := 5;
     ResourceGeneration := 1 |}.

Definition sample_report : RightSizerReportBuilder Q :=
  set_Items [sample_item "cart" "api" 100 1; sample_item "cart" "proxy" 50 2; sample_item "pay" "api" 70 1]
    (NewRightSizerReportBuilder []).

Definition empty_cluster : Cluster := {| clock := 0; configMaps := ∅; resources := ∅ |}.

(** Two related items at the head of the report cannot be removed together. *)
Example head_items_panic : RemoveItems (take 2 (Items sample_report)) sample_report = Panic.
Proof. vm_compute. reflexivity. Qed.

Example tail_items_removed :
  RemoveItems (drop 1 (Items sample_report)) sample_report
  = Ret (set_Items (take 1 (Items sample_report)) sample_report, true).
Proof. vm_compute. reflexivity. Qed.

Definition one_item : RightSizerReportBuilder Q :=
  set_Items [sample_item "a" "b" 1 1] (NewRightSizerReportBuilder []).

Definition saved_cluster : Cluster :=
  match WriteConfigMap one_item empty_cluster with
  | Ret (w, _) => w
  | Panic => empty_cluster
  end.

Lemma configmap_round_trip_witness :
  exists w items,
    ReadConfigMap (NewRightSizerReportBuilder []) saved_cluster
    = Ret (w, set_Items items (NewRightSizerReportBuilder []), None)
    /\ Forall2 same_values (Items one_item) items.
Proof.
  apply (configmap_round_trip one_item (NewRightSizerReportBuilder []) empty_cluster saved_cluster).
  - reflexivity.
  - reflexivity.
  - reflexivity.
Defined.
