(* ===== verification/RightSizerController.v ===== *)
(** * The right-sizer's controller

    [src/controller/controller.go] of right-sizer: its configuration, the events
    it acts on, and what it does with a pod whose container was OOM-killed:
    record the kill in the report and, when the configuration allows it, raise
    the memory limit of the pod's controller by a patch. *)

From stdpp Require Import base decidable list gmap strings.
From Stdlib Require Import ZArith QArith Lia.
From S2P Require Import Prelude GoNumbers GoStrings RightSizerKube RightSizerCluster RightSizerReport.
Import GoTime.

Local Open Scope Z_scope.

(** ** Configuration *)
Record controllerConfig := mkConfig {
  updateMemoryLimits : bool;
  updateMemoryLimitsIncrement : float64;
  updateMemoryLimitsMax : float64;
  updateMemoryLimitsMinimumOOMs : Z;
  allowedNamespaces : list string;
  allowedUpdateNamespaces : list string
}.

Definition controllerOption : Type := controllerConfig -> controllerConfig.

Definition WithAllowedNamespaces (value : list string) : controllerOption := fun c =>
  {| updateMemoryLimits := updateMemoryLimits c; updateMemoryLimitsIncrement := updateMemoryLimitsIncrement c;
     updateMemoryLimitsMax := updateMemoryLimitsMax c; updateMemoryLimitsMinimumOOMs := updateMemoryLimitsMinimumOOMs c;
     allowedNamespaces := value; allowedUpdateNamespaces := allowedUpdateNamespaces c |}.

Definition WithAllowedUpdateNamespaces (value : list string) : controllerOption := fun c =>
  {| updateMemoryLimits := updateMemoryLimits c; updateMemoryLimitsIncrement := updateMemoryLimitsIncrement c;
     updateMemoryLimitsMax := updateMemoryLimitsMax c; updateMemoryLimitsMinimumOOMs := updateMemoryLimitsMinimumOOMs c;
     allowedNamespaces := allowedNamespaces c; allowedUpdateNamespaces := value |}.

Definition WithUpdateMemoryLimits (value : bool) : controllerOption := fun c =>
  {| updateMemoryLimits := value; updateMemoryLimitsIncrement := updateMemoryLimitsIncrement c;
     updateMemoryLimitsMax := updateMemoryLimitsMax c; updateMemoryLimitsMinimumOOMs := updateMemoryLimitsMinimumOOMs c;
     allowedNamespaces := allowedNamespaces c; allowedUpdateNamespaces := allowedUpdateNamespaces c |}.

Definition WithUpdateMemoryLimitsIncrement (value : float64) : controllerOption := fun c =>
  if is_positive value then
    {| updateMemoryLimits := updateMemoryLimits c; updateMemoryLimitsIncrement := value;
       updateMemoryLimitsMax := updateMemoryLimitsMax c; updateMemoryLimitsMinimumOOMs := updateMemoryLimitsMinimumOOMs c;
       allowedNamespaces := allowedNamespaces c; allowedUpdateNamespaces := allowedUpdateNamespaces c |}
  else c.

Definition WithUpdateMemoryLimitsMax (value : float64) : controllerOption := fun c =>
  if is_positive value then
    {| updateMemoryLimits := updateMemoryLimits c; updateMemoryLimitsIncrement := updateMemoryLimitsIncrement c;
       updateMemoryLimitsMax := value; updateMemoryLimitsMinimumOOMs := updateMemoryLimitsMinimumOOMs c;
       allowedNamespaces := allowedNamespaces c; allowedUpdateNamespaces := allowedUpdateNamespaces c |}
  else c.

Definition WithUpdateMemoryLimitsMinimumOOMs (value : Z) : controllerOption := fun c =>
  if 0 <? value then
    {| updateMemoryLimits := updateMemoryLimits c; updateMemoryLimitsIncrement := updateMemoryLimitsIncrement c;
       updateMemoryLimitsMax := updateMemoryLimitsMax c; updateMemoryLimitsMinimumOOMs := value;
       allowedNamespaces := allowedNamespaces c; allowedUpdateNamespaces := allowedUpdateNamespaces c |}
  else c.

(** The [float64] nearest to 1.2. *)
Definition one_point_two : float64 := Finite (5404319552844595 # 4503599627370496).

Definition defaultConfig : controllerConfig :=
  {| updateMemoryLimits := false; updateMemoryLimitsIncrement := one_point_two; updateMemoryLimitsMax := Finite 2;
     updateMemoryLimitsMinimumOOMs := 2; allowedNamespaces := []; allowedUpdateNamespaces := [] |}.

(** The right half of [lo.Difference]: what only the second list has. *)
Definition only_right (l r : list string) : list string := filter (fun x => x ∉ l) r.

Definition merge_namespaces (cfg : controllerConfig) : controllerConfig :=
  let missingAllowedNamespaces := only_right (allowedNamespaces cfg) (allowedUpdateNamespaces cfg) in
  if (0 <? lenZ (allowedNamespaces cfg)) && (0 <? lenZ missingAllowedNamespaces)
  then WithAllowedNamespaces (allowedNamespaces cfg ++ missingAllowedNamespaces) cfg
  else cfg.

(** ** Events *)

(** A Kubernetes event; [e_Rest] is every field the code only compares. *)
Record Event := mkEvent {
  e_Namespace : string;
  e_Name : string;
  e_Count : Z;
  e_Reason : string;
  e_InvolvedObject : ObjectReference;
  e_Rest : string
}.

#[export] Instance Event_eq_dec : EqDecision Event.
Proof. solve_decision. Defined.

Record eventUpdateGroup := mkEventUpdateGroup {
  oldEvent : option Event;
  newEvent : Event
}.

Definition TerminationReasonOOMKilled : string := "OOMKilled".
Definition startedEvent : string := "Started".
Definition podKind : string := "Pod".

Definition isContainerStartedEvent (event : Event) : bool :=
  bool_decide (e_Reason event = startedEvent) && bool_decide (o_Kind (e_InvolvedObject event) = podKind).

Definition isSameEventOccurrence (old new : Event) : bool :=
  bool_decide (e_InvolvedObject old = e_InvolvedObject new) && (e_Count old =? e_Count new).

Section controller.
Context {Qty : Type} `{!Quantity Qty}.

Record Controller := mkController {
  config : controllerConfig;
  startTime : Z;
  reportBuilder : RightSizerReportBuilder Qty;
  ProcessedContainerUpdates : gmap string Z
}.

Definition set_reportBuilder (b : RightSizerReportBuilder Qty) (c : Controller) : Controller :=
  {| config := config c; startTime := startTime c; reportBuilder := b;
     ProcessedContainerUpdates := ProcessedContainerUpdates c |}.

Definition Inc (label : string) (c : Controller) : Controller :=
  {| config := config c; startTime := startTime c; reportBuilder := reportBuilder c;
     ProcessedContainerUpdates := <[label := default 0 (ProcessedContainerUpdates c !! label) + 1]>
                                    (ProcessedContainerUpdates c) |}.

(** The labels [init] registers. *)
Definition initialUpdates : gmap string Z :=
  {["not_oomkilled" := 0; "oomkilled_termination_too_old" := 0; "oomkilled_restart_count_unchanged" := 0;
    "oomkilled_event_sent" := 0]}%string.

Definition UpdateMemoryLimitsPrecheck (c : Controller) (namespace : string) (OOMs : Z) : bool * string :=
  let cfg := config c in
  if negb (updateMemoryLimits cfg) then (false, "updating memory limits has not been enabled"%string)
  else if (0 <? lenZ (allowedUpdateNamespaces cfg)) && negb (bool_decide (namespace ∈ allowedUpdateNamespaces cfg))
  then (false, ("namespace " +:+ namespace +:+ " is not allowed by allowedUpdateNamespaces")%string)
  else if (0 <? updateMemoryLimitsMinimumOOMs cfg) && (OOMs <? updateMemoryLimitsMinimumOOMs cfg)
  then (false, (fmt_d OOMs +:+ " OOMs is lessthan the minimum required "
                  +:+ fmt_d (updateMemoryLimitsMinimumOOMs cfg) +:+ " OOMs")%string)
  else (true, ""%string).

Definition oom_reason (t : option Terminated) : bool :=
  from_ptr false (fun t => bool_decide (t_Reason t = TerminationReasonOOMKilled)) t.

Definition oomkilled (s : ContainerStatus) : bool := oom_reason (s_LastTerminated s) || oom_reason (s_StateTerminated s).

Definition containerTerminatedTime (s : ContainerStatus) : option Z :=
  match s_LastTerminated s with
  | Some t => Some (t_FinishedAt t)
  | None => t_FinishedAt <$> s_StateTerminated s
  end.

Section world.
Context {W : Type} `{!KubeAPI Qty W} `{!ReportCodec Qty}.

(** [StoreItem], which reads the clock for a new item. *)
Definition store (w : W) (c : Controller) (item : RightSizerReportItem Qty) : W * Controller :=
  let '(w, now) := Now w in (w, set_reportBuilder (StoreItem now item (reportBuilder c)) c).

(** The part of the loop body after a successful patch. *)
Definition adopt_patched (patchedResource : Unstructured Qty) (newContainerMemoryLimits : Qty)
    (reportItem : RightSizerReportItem Qty) : RightSizerReportItem Qty :=
  let ending :=
    match FindContainerInUnstructured patchedResource (ResourceContainer reportItem) with
    | Ok (_, Some (patchedContainer, _)) => c_MemoryLimits patchedContainer
    | _ => newContainerMemoryLimits
    end in
  with_outcome (Some ending) (u_Generation patchedResource) reportItem.

(** The part of the loop body that decides on the update of the limit. *)
Definition update_limit (w : W) (c : Controller) (pod : Pod Qty) (podControllerObject : Unstructured Qty)
    (containerInfo : Container Qty) (reportItem : RightSizerReportItem Qty) : go (W * Controller) :=
  let '(okToUpdate, _) := UpdateMemoryLimitsPrecheck c (p_Namespace pod) (NumOOMs reportItem) in
  if negb okToUpdate then Ret (store w c reportItem)
  else
    newContainerMemoryLimits ← IncrementMemory reportItem (c_MemoryLimits containerInfo)
                                 (updateMemoryLimitsIncrement (config c)) (updateMemoryLimitsMax (config c));
    if q_IsZero newContainerMemoryLimits then Ret (store w c reportItem)
    else
      match PatchContainerMemoryLimits w podControllerObject (ResourceContainer reportItem) newContainerMemoryLimits with
      | (w, Err _) => Ret (store w c reportItem)
      | (w, Ok patchedResource) =>
          Ret (store w c (adopt_patched patchedResource newContainerMemoryLimits reportItem))
      end.

(** One round of the loop over container statuses; [true] is [return]. *)
Definition process_container (w : W) (c : Controller) (pod : Pod Qty) (s : ContainerStatus) : go (W * Controller * bool) :=
  if negb (oomkilled s) then Ret (w, Inc "not_oomkilled" c, false)
  else
    match containerTerminatedTime s with
    | None => Ret (w, c, false)
    | Some t =>
        if Before t (startTime c) then Ret (w, Inc "oomkilled_termination_too_old" c, false)
        else
          let w := Recorder_Eventf w pod "PreviousContainerWasOOMKilled"
                     ("The previous instance of the container '" +:+ s_Name s +:+ "' (" +:+ s_ContainerID s
                        +:+ ") was OOMKilled") in
          let c := Inc "oomkilled_event_sent" c in
          match FindContainerInPodSpec (p_Containers pod) (s_Name s) with
          | None => Ret (w, c, false)
          | Some (containerInfo, _) =>
              match GetControllerFromPod w pod with
              | (w, Err _) => Ret (w, c, true)
              | (w, Ok podControllerObject) =>
                  let '(w, now) := Now w in
                  let reportItem := CreateRightSizerReportItem now (reportBuilder c) podControllerObject containerInfo in
                  '(w, c) ← update_limit w c pod podControllerObject containerInfo reportItem;
                  Ret (w, c, false)
              end
          end
    end%string.

Fixpoint process_containers (w : W) (c : Controller) (pod : Pod Qty) (l : list ContainerStatus) :
    go (W * Controller * bool) :=
  match l with
  | [] => Ret (w, c, false)
  | s :: l' =>
      '(w, c, returned) ← process_container w c pod s;
      if (returned : bool) then Ret (w, c, true) else process_containers w c pod l'
  end.

Definition processOOMKilledPod (w : W) (c : Controller) (pod : Pod Qty) : go (W * Controller) :=
  '(w, c, returned) ← process_containers w c pod (p_ContainerStatuses pod);
  if (returned : bool) then Ret (w, c)
  else '(w, _) ← WriteConfigMap (reportBuilder c) w; Ret (w, c).

(** The pod lister reads the informer's cache. *)
Context (Pods_Get : W -> string -> string -> result api_error (Pod Qty)).

Definition processEvent (w : W) (c : Controller) (event : Event) : go (W * Controller) :=
  let obj := e_InvolvedObject event in
  if (0 <? lenZ (allowedNamespaces (config c))) && negb (bool_decide (e_Namespace event ∈ allowedNamespaces (config c)))
  then Ret (w, c)
  else if isContainerStartedEvent event then
    match Pods_Get w (o_Namespace obj) (o_Name obj) with
    | Err _ => Ret (w, c)
    | Ok pod => processOOMKilledPod w c pod
    end
  else if bool_decide (o_Kind obj = podKind) then Ret (w, c)
  else
    '(w, b, _) ← RemoveRelatedItemsOlderWithModifiedMemoryLimits (reportBuilder c) w obj;
    Ret (w, set_reportBuilder b c).

Definition processEventUpdate (w : W) (c : Controller) (g : eventUpdateGroup) : go (W * Controller) :=
  match oldEvent g with
  | None => Ret (w, c)
  | Some old =>
      if decide (old = newEvent g) then Ret (w, c)
      else if isSameEventOccurrence old (newEvent g) then Ret (w, c)
      else processEvent w c (newEvent g)
  end.

Definition NewController (w : W) (rb : RightSizerReportBuilder Qty) (options : list controllerOption) : W * Controller :=
  let cfg := merge_namespaces (foldl (fun cfg o => o cfg) defaultConfig options) in
  let '(w, now) := Now w in
  (w, {| config := cfg; startTime := now; reportBuilder := rb; ProcessedContainerUpdates := initialUpdates |}).

(** What [Run]'s loop and the goroutine of [LoopRemoveOldItems] react to. *)
Inductive message : Type :=
| Added (event : Event)
| Updated (g : eventUpdateGroup)
| AgeTick.

Definition run_message (w : W) (c : Controller) (m : message) : go (W * Controller) :=
  match m with
  | Added event => processEvent w c event
  | Updated g => processEventUpdate w c g
  | AgeTick => '(w, b) ← remove_old_tick (reportBuilder c) w; Ret (w, set_reportBuilder b c)
  end.

Fixpoint run_messages (w : W) (c : Controller) (l : list message) : go (W * Controller) :=
  match l with
  | [] => Ret (w, c)
  | m :: l' => '(w, c) ← run_message w c m; run_messages w c l'
  end.

(** [Run] until it is stopped; an error of [ReadConfigMap] is only logged. *)
Definition Run (w : W) (c : Controller) (l : list message) : go (W * Controller) :=
  '(w, b, _) ← ReadConfigMap (reportBuilder c) w;
  run_messages w (set_reportBuilder b c) l.
End world.
End controller.

Arguments Controller Qty : clear implicits.

(** ** What is patched *)
Section patching.
Context {Qty : Type} `{!Quantity Qty} `{!QuantityLaws Qty}.
Implicit Types (b : RightSizerReportBuilder Qty) (c : Controller Qty) (pod : Pod Qty).

(** The report remembers: no item is lost, its starting memory stays and its
    count does not go down. *)
Definition grows b b' : Prop :=
  forall k old, find_item k (Items b) = Some old ->
    exists new, find_item k (Items b') = Some new /\ StartingMemory new = StartingMemory old /\
      FirstOOM new = FirstOOM old /\ NumOOMs old <= NumOOMs new.

#[export] Instance grows_preorder : PreOrder grows.
Proof.
  split.
  - intros b k old H. by exists old.
  - intros b1 b2 b3 H1 H2 k old H. destruct (H1 k old H) as (m & Hm & Es & Ef & Hn).
    destruct (H2 k m Hm) as (n & Hn' & Es' & Ef' & Hle). exists n. split_and!; [done|congruence|congruence|lia].
Qed.

Lemma store_grows now1 now2 (u : Unstructured Qty) (ct : Container Qty) ending generation b :
  grows b (StoreItem now2 (with_outcome ending generation (CreateRightSizerReportItem now1 b u ct)) b).
Proof.
  intros k old H. rewrite StoreItem_find.
  change (item_key (with_outcome ?e ?g ?i)) with (item_key i). rewrite Create_key. case_decide as Hk.
  - subst k. rewrite H. eexists. split; [done|]. rewrite Create_find, H. cbn. split_and!; [done|done|lia].
  - exists old. split_and!; [done|done|done|lia].
Qed.

Lemma with_outcome_id (i : RightSizerReportItem Qty) : with_outcome (EndingMemory i) (ResourceGeneration i) i = i.
Proof. by destruct i. Qed.

(** The increment of a limit that is not refused: the product, within the
    maximum for the item's starting memory. *)
Lemma IncrementMemory_bounded (i : RightSizerReportItem Qty) (current new : Qty) (inc max : float64) :
  IncrementMemory i current inc max = Ret new -> q_IsZero new = false ->
  exists start m, StartingMemory i = Some start /\ multiplier_dec max = Some m /\
    MultiplyResourceQuantity current inc = Ok new /\ (AsDec new <= AsDec start * m)%Q /\ ~ (AsDec new == 0)%Q.
Proof.
  assert (Hz : q_IsZero zeroQuantity = true) by (apply IsZero_spec; apply AsDec_zero).
  unfold IncrementMemory, MaxAllowedEndingMemory.
  destruct (MultiplyResourceQuantity current inc) as [p|e]; [|intros [= <-]; congruence].
  destruct (StartingMemory i) as [start|]; [|done]. cbn [deref mbind go_bind].
  unfold MultiplyResourceQuantity. destruct (multiplier_dec max) as [m|]; [|intros [= <-]; congruence].
  destruct (Z.ltb_spec 0 (Cmp p (NewDecimalQuantity (AsDec start * m)%Q (format_of start)))) as [Hc|Hc];
    [intros [= <-]; congruence|]. intros [= <-] Hnz. exists start, m. split_and!; try done.
  - apply Qnot_lt_le. intros Hlt. apply Zle_not_lt in Hc. apply Hc. apply Cmp_gt. by rewrite AsDec_new.
  - intros H0. apply IsZero_spec in H0. congruence.
Qed.

(** A patch that the configuration and the report justify, for a pod handled by
    a controller with report [b0]. *)
Inductive allowed_patch (cfg : controllerConfig) (started : Z) b0 pod : PatchCall -> Prop :=
| AllowedPatch s t ct n (u : Unstructured Qty) b now start m new mapped path target number :
    s ∈ p_ContainerStatuses pod -> oomkilled s = true -> containerTerminatedTime s = Some t -> started <= t ->
    FindContainerInPodSpec (p_Containers pod) (s_Name s) = Some (ct, n) ->
    updateMemoryLimits cfg = true ->
    (allowedUpdateNamespaces cfg = [] \/ p_Namespace pod ∈ allowedUpdateNamespaces cfg) ->
    grows b0 b ->
    updateMemoryLimitsMinimumOOMs cfg <= 0 \/
    updateMemoryLimitsMinimumOOMs cfg <= NumOOMs (CreateRightSizerReportItem now b u ct) ->
    StartingMemory (CreateRightSizerReportItem now b u ct) = Some start ->
    multiplier_dec (updateMemoryLimitsMax cfg) = Some m ->
    MultiplyResourceQuantity (c_MemoryLimits ct) (updateMemoryLimitsIncrement cfg) = Ok new ->
    (AsDec new <= AsDec start * m)%Q -> ~ (AsDec new == 0)%Q ->
    FindContainerInUnstructured u (s_Name s) = Ok (path, Some (target, number)) ->
    allowed_patch cfg started b0 pod (mkPatchCall mapped (u_Namespace u) (u_Name u) (limit_patch path number new)).

Lemma allowed_patch_grows cfg started b0 b1 pod call :
  grows b0 b1 -> allowed_patch cfg started b1 pod call -> allowed_patch cfg started b0 pod call.
Proof.
  intros Hg []. match goal with H : grows b1 ?b |- _ => pose proof (transitivity Hg H) end. clear Hg.
  eapply AllowedPatch; eassumption.
Qed.

Lemma precheck_ok c ns ooms reason :
  UpdateMemoryLimitsPrecheck c ns ooms = (true, reason) ->
  updateMemoryLimits (config c) = true /\
  (allowedUpdateNamespaces (config c) = [] \/ ns ∈ allowedUpdateNamespaces (config c)) /\
  (updateMemoryLimitsMinimumOOMs (config c) <= 0 \/ updateMemoryLimitsMinimumOOMs (config c) <= ooms).
Proof.
  unfold UpdateMemoryLimitsPrecheck. destruct (updateMemoryLimits (config c)); [cbn [negb]|done].
  destruct (_ && negb _) eqn:Hn; [done|]. destruct (_ && (ooms <? _)) eqn:Ho; [done|]. intros _.
  apply andb_false_iff in Hn, Ho. split_and!; [done| |].
  - destruct Hn as [Hn|Hn]; to_prop; [left; by destruct (allowedUpdateNamespaces (config c))|by right].
  - destruct Ho as [Ho|Ho]; to_prop; lia.
Qed.

Lemma FindContainerInPodSpec_name l name (ct : Container Qty) n :
  FindContainerInPodSpec l name = Some (ct, n) -> c_Name ct = name.
Proof.
  unfold FindContainerInPodSpec. destruct (list_find _ l) as [[m x]|] eqn:Hf; [|done]. intros [= <- <-].
  by apply list_find_Some in Hf as (_ & ? & _).
Qed.

Context {W : Type} `{!KubeAPI Qty W} `{!PatchLog W} `{!ReportCodec Qty}.

Lemma WriteConfigMap_patches b (w w' : W) e : WriteConfigMap b w = Ret (w', e) -> patches w' = patches w.
Proof.
  unfold WriteConfigMap. pose proof (patches_Now w) as Hn. destruct (Now w) as [w0 t]; cbn [fst] in Hn.
  destruct (GetReportJSON b) as [s|]; [|by intros [= <- _]].
  pose proof (patches_Get w0 (stateConfigMapNamespace b) (stateConfigMapName b)) as Hg.
  destruct (ConfigMaps_Get w0 _ _) as [w1 [cm|err]]; cbn [fst] in Hg.
  - destruct (cm_Data cm) as [data|]; cbn [assign made mbind go_bind]; [|done].
    match goal with |- context [ConfigMaps_Update ?w ?cm] => pose proof (patches_Update w cm) as Hu end.
    destruct (ConfigMaps_Update w1 _) as [w2 [|]]; cbn [fst] in Hu; intros [= <- _]; congruence.
  - destruct (IsNotFound _); [|intros [= <- _]; congruence].
    match goal with |- context [ConfigMaps_Create ?w ?cm] => pose proof (patches_Create w cm) as Hu end.
    destruct (ConfigMaps_Create w1 _) as [w2 [|]]; cbn [fst] in Hu; intros [= <- _]; congruence.
Qed.

(** What a round of the loop may do to the world and the controller. *)
Record step_ok (pod : Pod Qty) (w : W) c (w' : W) c' (calls : list PatchCall) : Prop := {
  step_patches : patches w' = patches w ++ calls;
  step_allowed : Forall (allowed_patch (config c) (startTime c) (reportBuilder c) pod) calls;
  step_config : config c' = config c;
  step_start : startTime c' = startTime c;
  step_grows : grows (reportBuilder c) (reportBuilder c')
}.

Lemma step_ok_silent pod (w w' : W) c c' :
  patches w' = patches w -> config c' = config c -> startTime c' = startTime c ->
  reportBuilder c' = reportBuilder c -> step_ok pod w c w' c' [].
Proof. intros Hp Hc Hs Hb. split; [by rewrite app_nil_r|done|done|done|by rewrite Hb]. Qed.

Lemma step_ok_app pod (w1 w2 w3 : W) c1 c2 c3 l1 l2 :
  step_ok pod w1 c1 w2 c2 l1 -> step_ok pod w2 c2 w3 c3 l2 -> step_ok pod w1 c1 w3 c3 (l1 ++ l2).
Proof.
  intros [P1 A1 C1 S1 G1] [P2 A2 C2 S2 G2]. split; [by rewrite P2, P1, (assoc_L (++))| |congruence|congruence|by etrans].
  apply Forall_app. split; [done|]. rewrite C1, S1 in A2. eapply Forall_impl; [exact A2|]. intros call.
  by apply allowed_patch_grows.
Qed.

(** Storing the item of this kill, whatever became of its limit. *)
Lemma store_ok pod (w : W) c (u : Unstructured Qty) (ct : Container Qty) now ending generation :
  let '(w', c') := store w c (with_outcome ending generation (CreateRightSizerReportItem now (reportBuilder c) u ct)) in
  step_ok pod w c w' c' [].
Proof.
  unfold store. pose proof (patches_Now w) as Hn. destruct (Now w) as [w' t]; cbn [fst] in Hn.
  split; [by rewrite app_nil_r|done|done|done|]. apply store_grows.
Qed.

Lemma store_plain_ok pod (w : W) c (u : Unstructured Qty) (ct : Container Qty) now :
  let '(w', c') := store w c (CreateRightSizerReportItem now (reportBuilder c) u ct) in step_ok pod w c w' c' [].
Proof.
  pose proof (store_ok pod w c u ct now (EndingMemory (CreateRightSizerReportItem now (reportBuilder c) u ct))
    (ResourceGeneration (CreateRightSizerReportItem now (reportBuilder c) u ct))) as H.
  by rewrite with_outcome_id in H.
Qed.

Lemma Create_container now b (u : Unstructured Qty) (ct : Container Qty) :
  ResourceContainer (CreateRightSizerReportItem now b u ct) = c_Name ct.
Proof. rewrite Create_find. by destruct (find_item _ _). Qed.

Lemma update_limit_ok pod (w w' : W) c c' (u : Unstructured Qty) (ct : Container Qty) n s t now :
  s ∈ p_ContainerStatuses pod -> oomkilled s = true -> containerTerminatedTime s = Some t -> startTime c <= t ->
  FindContainerInPodSpec (p_Containers pod) (s_Name s) = Some (ct, n) ->
  update_limit w c pod u ct (CreateRightSizerReportItem now (reportBuilder c) u ct) = Ret (w', c') ->
  exists calls, step_ok pod w c w' c' calls /\ (length calls <= 1)%nat.
Proof.
  intros Hs Ho Ht Hst Hf. unfold update_limit.
  set (item := CreateRightSizerReportItem now (reportBuilder c) u ct).
  pose proof (fun w => store_plain_ok pod w c u ct now) as Hplain. fold item in Hplain.
  assert (Hdone : forall w0, Ret (store w0 c item) = Ret (w', c') -> exists calls, step_ok pod w0 c w' c' calls /\ (length calls <= 1)%nat).
  { intros w0 [= He]. specialize (Hplain w0). rewrite He in Hplain. exists []. split; [done|simpl; lia]. }
  destruct (UpdateMemoryLimitsPrecheck c (p_Namespace pod) (NumOOMs item)) as [[] reason] eqn:Hp; cbn [negb]; [|by apply Hdone].
  destruct (precheck_ok _ _ _ _ Hp) as (Hen & Hns & Hmin).
  destruct (IncrementMemory item _ _ _) as [new|] eqn:Hi; cbn [mbind go_bind]; [|done].
  destruct (q_IsZero new) eqn:Hz; [by apply Hdone|].
  destruct (IncrementMemory_bounded _ _ _ _ _ Hi Hz) as (start & m & Hsm & Hm & Hmul & Hle & Hnz).
  unfold item at 1. rewrite Create_container, (FindContainerInPodSpec_name _ _ _ _ Hf).
  pose proof (PatchContainerMemoryLimits_patches w u (s_Name s) new) as Hpatch.
  destruct (PatchContainerMemoryLimits w u (s_Name s) new) as [w1 r].
  assert (exists calls, step_ok pod w c w1 c calls /\ (length calls <= 1)%nat) as (calls & Hok & Hlen).
  { destruct Hpatch as [[Hp1 _]|(mapped & path & target & number & Hfind & Hp1)].
    - exists []. split; [by apply step_ok_silent|simpl; lia].
    - eexists. split; [split; [exact Hp1| |done|done|done]|simpl; lia].
      apply Forall_singleton. by eapply AllowedPatch. }
  assert (Hcat : forall w2 c2, step_ok pod w1 c w2 c2 [] -> exists calls, step_ok pod w c w2 c2 calls /\ (length calls <= 1)%nat).
  { intros w2 c2 H2. exists (calls ++ []). split; [by eapply step_ok_app|]. by rewrite app_nil_r. }
  destruct r as [patched|e]; intros [= He]; apply Hcat.
  - pose proof (store_ok pod w1 c u ct now (EndingMemory (adopt_patched patched new item)) (u_Generation patched)) as H.
    fold item in H. change (with_outcome (EndingMemory (adopt_patched patched new item)) (u_Generation patched) item)
      with (adopt_patched patched new item) in H. by rewrite He in H.
  - specialize (Hplain w1). by rewrite He in Hplain.
Qed.

Lemma process_container_ok pod (w w' : W) c c' s r :
  s ∈ p_ContainerStatuses pod -> process_container w c pod s = Ret (w', c', r) ->
  exists calls, step_ok pod w c w' c' calls /\ (length calls <= 1)%nat.
Proof.
  intros Hs. unfold process_container.
  destruct (oomkilled s) eqn:Ho; cbn [negb].
  2:{ intros [= <- <- _]. exists []. split; [by apply step_ok_silent|simpl; lia]. }
  destruct (containerTerminatedTime s) as [t|] eqn:Ht.
  2:{ intros [= <- <- _]. exists []. split; [by apply step_ok_silent|simpl; lia]. }
  unfold Before. destruct (Z.ltb_spec t (startTime c)) as [Hlt|Hge].
  { intros [= <- <- _]. exists []. split; [by apply step_ok_silent|simpl; lia]. }
  set (w0 := Recorder_Eventf w pod _ _). assert (Hw0 : patches w0 = patches w) by apply patches_Event.
  cbv zeta. destruct (FindContainerInPodSpec _ _) as [[ct n]|] eqn:Hf.
  2:{ intros [= <- <- _]. exists []. split; [by apply step_ok_silent|simpl; lia]. }
  pose proof (GetControllerFromPod_patches w0 pod) as Hg.
  destruct (GetControllerFromPod w0 pod) as [w1 [u|e]]; cbn [fst] in Hg.
  2:{ intros [= <- <- _]. exists []. split; [apply step_ok_silent; try done; congruence|simpl; lia]. }
  pose proof (patches_Now w1) as Hn. destruct (Now w1) as [w2 now]; cbn [fst] in Hn.
  destruct (update_limit _ _ _ _ _ _) as [[w3 c3]|] eqn:Hu; cbn [mbind go_bind]; [|done].
  intros [= <- <- _]. eapply update_limit_ok in Hu as (calls & Hok & Hl); [|done..].
  exists calls. split; [|done]. change calls with ([] ++ calls). eapply step_ok_app; [|exact Hok].
  apply step_ok_silent; try done. congruence.
Qed.

Lemma process_containers_ok pod l (w w' : W) c c' r :
  l ⊆ p_ContainerStatuses pod -> process_containers w c pod l = Ret (w', c', r) ->
  exists calls, step_ok pod w c w' c' calls /\ (length calls <= length l)%nat.
Proof.
  revert w c. induction l as [|s l IH]; intros w c Hl; cbn [process_containers].
  - intros [= <- <- _]. exists []. split; [by apply step_ok_silent|simpl; lia].
  - intros ([[w1 c1] r1] & Hp & Hrest)%go_bind_ret.
    apply process_container_ok in Hp as (calls & Hok & Hlen); [|apply Hl; by left].
    destruct r1.
    + injection Hrest as <- <- _. exists calls. split; [done|simpl; lia].
    + apply IH in Hrest as (calls' & Hok' & Hlen'); [|intros x Hx; apply Hl; by right].
      exists (calls ++ calls'). split; [by eapply step_ok_app|]. rewrite length_app. simpl. lia.
Qed.

End patching.

(** ** The scope of the controller *)
Section scope.
Context {Qty : Type} `{!Quantity Qty} {W : Type} `{!KubeAPI Qty W} `{!ReportCodec Qty}.
Context (Pods_Get : W -> string -> string -> result api_error (Pod Qty)).

Definition configured (options : list controllerOption) : controllerConfig := foldl (fun cfg o => o cfg) defaultConfig options.

(** A message about an event outside the given namespaces. *)
Definition outside (namespaces : list string) (m : message) : Prop :=
  match m with
  | Added event => e_Namespace event ∉ namespaces
  | Updated g => e_Namespace (newEvent g) ∉ namespaces
  | AgeTick => False
  end.

Lemma merge_namespaces_elem cfg ns :
  allowedNamespaces cfg <> [] ->
  ns ∈ allowedNamespaces (merge_namespaces cfg) <-> ns ∈ allowedNamespaces cfg \/ ns ∈ allowedUpdateNamespaces cfg.
Proof.
  intros Hne. unfold merge_namespaces. set (miss := only_right _ _).
  assert (Hm : forall x, x ∈ miss <-> x ∈ allowedUpdateNamespaces cfg /\ x ∉ allowedNamespaces cfg).
  { intros x. unfold miss, only_right. rewrite list_elem_of_filter. tauto. }
  assert ((0 <? lenZ (allowedNamespaces cfg)) = true) as ->.
  { apply Z.ltb_lt. destruct (allowedNamespaces cfg); [done|]. unfold lenZ. simpl. lia. }
  destruct miss as [|x l] eqn:Hl; cbn [andb].
  - change (0 <? lenZ []) with false. cbv iota. split; [by left|]. intros [H|H]; [done|].
    destruct (decide (ns ∈ allowedNamespaces cfg)) as [|Hn]; [done|].
    exfalso. apply (not_elem_of_nil ns), Hm. by split.
  - change (0 <? lenZ (x :: l)) with true. cbn [WithAllowedNamespaces allowedNamespaces].
    rewrite elem_of_app, Hm. destruct (decide (ns ∈ allowedNamespaces cfg)); tauto.
Qed.

Lemma processEvent_outside (w : W) (c : Controller Qty) event :
  allowedNamespaces (config c) <> [] -> e_Namespace event ∉ allowedNamespaces (config c) ->
  processEvent Pods_Get w c event = Ret (w, c).
Proof.
  intros Hne Hout. unfold processEvent. rewrite bool_decide_eq_false_2 by done.
  assert ((0 <? lenZ (allowedNamespaces (config c))) = true) as ->; [|done].
  apply Z.ltb_lt. destruct (allowedNamespaces _); [done|]. unfold lenZ. simpl. lia.
Qed.

(** A controller configured with a list of namespaces works exactly in these
    and in the ones whose memory limits it may update: its effective list holds
    both, and any sequence of new and changed events outside leaves the
    cluster, the report and the metrics alone. *)
Theorem controller_scope options (rb : RightSizerReportBuilder Qty) (w : W) l :
  allowedNamespaces (configured options) <> [] ->
  let c := (NewController w rb options).2 in
  (forall ns, ns ∈ allowedNamespaces (config c) <->
    ns ∈ allowedNamespaces (configured options) \/ ns ∈ allowedUpdateNamespaces (configured options)) /\
  (Forall (outside (allowedNamespaces (config c))) l -> forall w', run_messages Pods_Get w' c l = Ret (w', c)).
Proof.
  intros Hne c. assert (Hc : config c = merge_namespaces (configured options)).
  { unfold c, NewController. by destruct (Now w). }
  assert (Hns : forall ns, ns ∈ allowedNamespaces (config c) <->
    ns ∈ allowedNamespaces (configured options) \/ ns ∈ allowedUpdateNamespaces (configured options)).
  { intros ns. rewrite Hc. by apply merge_namespaces_elem. }
  split; [exact Hns|]. intros Hl w'.
  assert (Hne' : allowedNamespaces (config c) <> []).
  { destruct (allowedNamespaces (configured options)) as [|ns l0] eqn:He; [done|]. intros Hnil.
    specialize (Hns ns). rewrite Hnil in Hns. apply (not_elem_of_nil ns), Hns. left. by left. }
  induction Hl as [|m l Hm _ IH]; [done|]. cbn [run_messages].
  assert (run_message Pods_Get w' c m = Ret (w', c)) as ->; [|exact IH].
  destruct m as [event|g|]; [by apply processEvent_outside| |done].
  cbn [run_message]. unfold processEventUpdate. destruct (oldEvent g); [|done].
  case_decide; [done|]. destruct (isSameEventOccurrence _ _); [done|]. by apply processEvent_outside.
Qed.
End scope.

(** ** A run *)
#[local] Instance recorded_api : KubeAPI Q (Cluster * list PatchCall) := recording cluster_api.

#[local] Instance recorded_log : PatchLog (Cluster * list PatchCall) := recording_log cluster_api.

Definition sample_pod : Pod Q :=
  {| p_Namespace := "shop"; p_Name := "cart";
     p_Containers := [{| c_Name := "api"; c_MemoryLimits := 100%Q |}; {| c_Name := "proxy"; c_MemoryLimits := 50%Q |}];
     p_ContainerStatuses :=
       [{| s_Name := "api"; s_ContainerID := "c1";
           s_LastTerminated := Some {| t_Reason := "OOMKilled"; t_FinishedAt := 10 |}; s_StateTerminated := None |};
        {| s_Name := "proxy"; s_ContainerID := "c2"; s_LastTerminated := None; s_StateTerminated := None |}] |}.

Definition sample_deployment : Unstructured Q :=
  {| u_APIVersion := "apps/v1"; u_Kind := "Deployment"; u_Namespace := "shop"; u_Name := "cart"; u_Generation := 1;
     u_podSpecAt := fun fields =>
       if decide (fields = ["spec"; "template"; "spec"]%string) then Some (p_Containers sample_pod) else None |}.

Definition sample_cluster : Cluster * list PatchCall :=
  ({| clock := 0; configMaps := ∅; resources := {[("Deployment", "shop", "cart")%string := sample_deployment]} |}, []).

Definition sample_controller : Controller Q :=
  (NewController sample_cluster (NewRightSizerReportBuilder [])
     [WithUpdateMemoryLimits true; WithUpdateMemoryLimitsMinimumOOMs 1]).2.

Definition run_sample : go (Cluster * list PatchCall * Controller Q) :=
  processOOMKilledPod sample_cluster sample_controller sample_pod.

Definition patched_limit (r : go (Cluster * list PatchCall * Controller Q)) : option (list string * list (option Q)) :=
  match r with
  | Ret (w, c) => Some (op_path <$> (w.2 ≫= pc_Ops), EndingMemory <$> Items (reportBuilder c))
  | Panic => None
  end.

(** The limit of [api] goes from 100 to 120 by one patch. *)
Example sample_patch :
  patched_limit run_sample = Some (["/spec/template/spec/containers/0/resources/limits/memory"%string], [Some 120%Q]).
Proof. vm_compute. reflexivity. Qed.

Definition sample_outcome : Cluster * list PatchCall * Controller Q :=
  match run_sample with Ret r => r | Panic => (sample_cluster, sample_controller) end.

Lemma run_sample_returns : run_sample = Ret (sample_outcome.1, sample_outcome.2).
Proof. unfold sample_outcome. destruct run_sample as [[w c]|] eqn:H; [done|]. pose proof sample_patch as P. by rewrite H in P. Qed.


Definition sample_event (ns : string) : Event :=
  {| e_Namespace := ns; e_Name := "e"; e_Count := 1; e_Reason := "Started";
     e_InvolvedObject := mkObjectReference "Pod" ns "cart" "" "v1" "" ""; e_Rest := "" |}.

Lemma controller_scope_witness :
  let c := (NewController sample_cluster (NewRightSizerReportBuilder [])
              [WithAllowedNamespaces ["a"]; WithAllowedUpdateNamespaces ["b"]]%string).2 in
  run_messages (fun _ _ _ => Ok sample_pod) sample_cluster c [Added (sample_event "c")] = Ret (sample_cluster, c).
Proof.
  apply (controller_scope (fun _ _ _ => Ok sample_pod)).
  - discriminate.
  - apply Forall_singleton. cbn [outside newEvent]. apply (bool_decide_unpack _). vm_compute. exact I.
Defined.
