(* ===== verification/KyvernoSync.v ===== *)
(** * Kyverno policy sync

    [kyverno-policy-sync]: one run fetches the policies Insights expects, lists
    the Insights-managed policies of the cluster, plans what to apply, update and
    remove, does it through a policy manager, reports every outcome to Insights
    and sums the run up.  From [pkg/sync/] ([sync.go], [policy_manager.go],
    [dry_run_policy_manager.go], [types.go]), [pkg/insights/client.go],
    [pkg/lock/lock.go], [pkg/config/config.go] and [cmd/main.go]. *)

From stdpp Require Import base decidable list gmap strings.
From Stdlib Require Import ZArith Lia.
From S2P Require Import Prelude GoStrings.

Local Open Scope Z_scope.

(** ** Data *)

(** A Go [any] that a YAML decoder or the Kubernetes client makes: a string, a
    map, or something the code has no use for. *)
Inductive any : Type :=
| AnyString (s : string)
| AnyMap (m : gmap string any)
| AnyOther.

(** The assertions [x.(map[string]any)] and [x.(string)] with a comma-ok. *)
Definition as_map (x : option any) : option (gmap string any) :=
  match x with
  | Some (AnyMap m) => Some m
  | _ => None
  end.

Definition as_string (x : option any) : option string :=
  match x with
  | Some (AnyString s) => Some s
  | _ => None
  end.

(** Without the comma-ok a failed assertion panics. *)
Definition must_map (x : option any) : go (gmap string any) :=
  match as_map x with
  | Some m => Ret m
  | None => Panic
  end.

Record ClusterPolicy := mkClusterPolicy {
  Kind : string;
  Name : string;
  Annotations : gmap string string;
  Spec : gmap string any;
  YAML : string
}.

Record PolicySyncActions := mkActions {
  ToApply : list string;
  ToUpdate : list string;
  ToRemove : list ClusterPolicy
}.

Record PolicySyncResult := mkResult {
  Success : bool;
  Actions : PolicySyncActions;
  Applied : list string;
  Updated : list string;
  Removed : list string;
  Failed : list string;
  Errors : list string;
  Duration : Z;
  Summary : string
}.

Definition noActions : PolicySyncActions := {| ToApply := []; ToUpdate := []; ToRemove := [] |}.

Definition emptyResult : PolicySyncResult :=
  {| Success := false; Actions := noActions; Applied := []; Updated := []; Removed := []; Failed := []; Errors := [];
     Duration := 0; Summary := "" |}.

Definition set_Actions (a : PolicySyncActions) (r : PolicySyncResult) : PolicySyncResult :=
  {| Success := Success r; Actions := a; Applied := Applied r; Updated := Updated r; Removed := Removed r;
     Failed := Failed r; Errors := Errors r; Duration := Duration r; Summary := Summary r |}.

Definition add_failed (name error : string) (r : PolicySyncResult) : PolicySyncResult :=
  {| Success := Success r; Actions := Actions r; Applied := Applied r; Updated := Updated r; Removed := Removed r;
     Failed := Failed r ++ [name]; Errors := Errors r ++ [error]; Duration := Duration r; Summary := Summary r |}.

Definition add_applied (name : string) (r : PolicySyncResult) : PolicySyncResult :=
  {| Success := Success r; Actions := Actions r; Applied := Applied r ++ [name]; Updated := Updated r;
     Removed := Removed r; Failed := Failed r; Errors := Errors r; Duration := Duration r; Summary := Summary r |}.

Definition add_removed (name : string) (r : PolicySyncResult) : PolicySyncResult :=
  {| Success := Success r; Actions := Actions r; Applied := Applied r; Updated := Updated r;
     Removed := Removed r ++ [name]; Failed := Failed r; Errors := Errors r; Duration := Duration r; Summary := Summary r |}.

(** ** The two interfaces *)
Class PolicyManager (W : Type) := {
  applyPolicy : W -> ClusterPolicy -> W * option string;
  removePolicy : W -> ClusterPolicy -> W * option string
}.

Class InsightsClient (W : Type) := {
  GetClusterKyvernoPoliciesYAML : W -> W * result string string;
  UpdateKyvernoPolicyStatus : W -> string -> string -> string -> string -> string -> W * option string
}.

Section implementations.
Context {W : Type}.

(** [kubectl] with its arguments and standard input: its output and error. *)
Context (kubectl : W -> list string -> string -> W * (string * option string)) (cmd_String : list string -> string).

Definition run_kubectl (w : W) (args : list string) (stdin prefix : string) : W * option string :=
  let '(w, (output, err)) := kubectl w args stdin in
  (w, (fun e => prefix +:+ " with kubectl: " +:+ cmd_String args +:+ ": " +:+ output +:+ ": " +:+ e)%string <$> err).

Definition DefaultPolicyManager : PolicyManager W := {|
  applyPolicy := fun w policy =>
    run_kubectl w ["apply"; "-f"; "-"]%string (YAML policy) ("failed to apply policy " +:+ Name policy)%string;
  removePolicy := fun w policy =>
    run_kubectl w ["delete"%string; Kind policy; Name policy] "" ("failed to delete policy " +:+ Name policy)%string
|}.

Definition DryRunPolicyManager : PolicyManager W := {|
  applyPolicy := fun w _ => (w, None);
  removePolicy := fun w _ => (w, None)
|}.

(** The HTTP library: a status and a body, or an error; and the clock. *)
Context (req_Get : W -> string -> W * result string (Z * string))
        (req_Put : W -> string -> list (string * string) -> W * result string (Z * string))
        (now_RFC3339 : W -> string).

Definition IsErrorState (status : Z) : bool := 400 <=? status.

Definition cluster_url (organization cluster path : string) : string :=
  ("/v0/organizations/" +:+ organization +:+ "/clusters/" +:+ cluster +:+ path)%string.

Definition HTTPClient (organization cluster : string) : InsightsClient W := {|
  GetClusterKyvernoPoliciesYAML := fun w =>
    match req_Get w (cluster_url organization cluster "/kyverno-policies/with-app-groups-applied/yaml") with
    | (w, Err e) => (w, Err ("failed to get cluster Kyverno policies: " +:+ e))
    | (w, Ok (status, body)) =>
        if IsErrorState status
        then (w, Err ("error getting cluster Kyverno policies: status " +:+ fmt_d status +:+ ", body " +:+ body))
        else (w, Ok body)
    end;
  UpdateKyvernoPolicyStatus := fun w policyName action status policyBody output =>
    match req_Put w (cluster_url organization cluster "/policies/apply-status")
            [("policyName", policyName); ("reportType", "kyverno"); ("action", action); ("status", status);
             ("lastAppliedAt", now_RFC3339 w); ("policyBody", policyBody); ("output", output)] with
    | (w, Err e) => (w, Some ("failed to update Kyverno policy status: " +:+ e))
    | (w, Ok (code, body)) =>
        if IsErrorState code
        then (w, Some ("failed to update Kyverno policy status: status " +:+ fmt_d code +:+ ", body " +:+ body))
        else (w, None)
    end
|}%string.

Definition DryRunClient (realClient : InsightsClient W) : InsightsClient W := {|
  GetClusterKyvernoPoliciesYAML := GetClusterKyvernoPoliciesYAML;
  UpdateKyvernoPolicyStatus := fun w _ _ _ _ _ => (w, None)
|}.
End implementations.

(** ** Reading the policies *)

(** An unstructured resource of a listing. *)
Record Item := mkItem {
  i_Kind : string;
  i_Name : string;
  i_Annotations : option (gmap string string);
  i_Object : gmap string any
}.

(** What a run reads: the REST mapper, the dynamic client, and the YAML library,
    whose decoder yields the documents of a text up to the first error. *)
Class SyncEnv (W : Type) := {
  ResourceFor : W -> string -> result string string;
  List_ : W -> string -> result string (list Item);
  yaml_Marshal : gmap string any -> result string string;
  yaml_Documents : string -> list (result string (gmap string any));
  format_Duration : Z -> string
}.

Definition getResourceNames : list string :=
  ["clusterpolicies"; "policies"; "validatingpolicies"; "validatingadmissionpolicies"; "clustercleanuppolicies";
   "imagevalidatingpolicies"; "mutatingpolicies"; "generatingpolicies"; "deletingpolicies";
   "namespacedvalidatingpolicies"; "policyexceptions"]%string.

Definition kind_table : list (string * string) :=
  [("clusterpolicies", "ClusterPolicy"); ("policies", "Policy"); ("validatingpolicies", "ValidatingPolicy");
   ("validatingadmissionpolicies", "ValidatingAdmissionPolicy"); ("clustercleanuppolicies", "ClusterCleanupPolicy");
   ("imagevalidatingpolicies", "ImageValidatingPolicy"); ("mutatingpolicies", "MutatingPolicy");
   ("generatingpolicies", "GeneratingPolicy"); ("deletingpolicies", "DeletingPolicy");
   ("namespacedvalidatingpolicies", "NamespacedValidatingPolicy"); ("policyexceptions", "PolicyException")]%string.

Definition deriveKindFromResourceName (resourceName : string) : string :=
  match List.find (fun p => bool_decide (p.1 = resourceName)) kind_table with
  | Some (_, kind) => kind
  | None => "ClusterPolicy"
  end.

Definition owned_by : string := "insights.fairwinds.com/owned-by".

Definition is_managed (annotations : option (gmap string string)) : bool :=
  from_ptr false (fun m => bool_decide (m !! owned_by = Some "Fairwinds Insights"%string)) annotations.

Section reading.
Context {W : Type} `{!SyncEnv W}.

(** The items of one resource; a failed [yaml.Marshal] ends the whole listing. *)
Fixpoint managed_items (resourceName : string) (items : list Item) : go (result string (list ClusterPolicy)) :=
  match items with
  | [] => Ret (Ok [])
  | item :: items' =>
      match yaml_Marshal (i_Object item) with
      | Err e => Ret (Err ("failed to marshal policy to YAML: " +:+ e)%string)
      | Ok yaml =>
          if is_managed (i_Annotations item) then
            spec ← must_map (i_Object item !! "spec"%string);
            rest ← managed_items resourceName items';
            Ret (match rest with
                 | Err e => Err e
                 | Ok ps =>
                     Ok ({| Kind := if decide (i_Kind item = "") then deriveKindFromResourceName resourceName else i_Kind item;
                            Name := i_Name item; Annotations := from_ptr ∅ id (i_Annotations item); Spec := spec;
                            YAML := yaml |} :: ps)
                 end)%string
          else managed_items resourceName items'
      end
  end.

Definition mapper_misses (e : string) : bool :=
  let errMsg := ToLower e in
  (Contains errMsg "not found" || Contains errMsg "could not find the requested resource" || Contains errMsg "no matches for")%string.

Definition list_misses (e : string) : bool :=
  (Contains e "not found" || Contains e "could not find the requested resource")%string.

Fixpoint list_resources (w : W) (names : list string) : go (result string (list ClusterPolicy)) :=
  match names with
  | [] => Ret (Ok [])
  | resourceName :: names' =>
      match ResourceFor w resourceName with
      | Err e =>
          if mapper_misses e then list_resources w names'
          else Ret (Err ("failed to discover resource " +:+ resourceName +:+ ": " +:+ e)%string)
      | Ok gvr =>
          match List_ w gvr with
          | Err e =>
              if list_misses e then list_resources w names'
              else Ret (Err ("failed to list " +:+ resourceName +:+ " policies: " +:+ e)%string)
          | Ok items =>
              found ← managed_items resourceName items;
              match found with
              | Err e => Ret (Err e)
              | Ok ps =>
                  rest ← list_resources w names';
                  Ret (match rest with Err e => Err e | Ok ps' => Ok (ps ++ ps') end)
              end
          end
      end
  end.

Definition listInsightsManagedPolicies (w : W) : go (result string (list ClusterPolicy)) :=
  list_resources w getResourceNames.

(** The string-valued entries of a document's annotations. *)
Definition string_annotations (metadata : gmap string any) : gmap string string :=
  match as_map (metadata !! "annotations"%string) with
  | Some ann => omap (fun v => as_string (Some v)) ann
  | None => ∅
  end.

Fixpoint parse_documents (docs : list (result string (gmap string any))) : go (result string (list ClusterPolicy)) :=
  match docs with
  | [] => Ret (Ok [])
  | Err e :: _ => Ret (Err ("failed to parse YAML document: " +:+ e)%string)
  | Ok policy :: docs' =>
      if decide (policy = ∅) then parse_documents docs'
      else
        match as_map (policy !! "metadata"%string) with
        | None => parse_documents docs'
        | Some metadata =>
            match as_string (metadata !! "name"%string) with
            | None => parse_documents docs'
            | Some name =>
                match yaml_Marshal policy with
                | Err e => Ret (Err ("failed to marshal policy to YAML: " +:+ e)%string)
                | Ok yamlBytes =>
                    spec ← must_map (policy !! "spec"%string);
                    rest ← parse_documents docs';
                    Ret (match rest with
                         | Err e => Err e
                         | Ok ps =>
                             Ok ({| Kind := default ""%string (as_string (policy !! "kind"%string)); Name := name;
                                    YAML := yamlBytes; Annotations := string_annotations metadata; Spec := spec |} :: ps)
                         end)
                end
            end
        end
  end.

Definition parsePoliciesFromYAML (yamlContent : string) : go (result string (list ClusterPolicy)) :=
  if decide (TrimSpace yamlContent = ""%string) then Ret (Ok []) else parse_documents (yaml_Documents yamlContent).
End reading.

(** ** The plan *)

(** The maps by name: a later policy replaces an earlier one. *)
Definition by_name (policies : list ClusterPolicy) : gmap string ClusterPolicy :=
  foldl (fun m policy => <[Name policy := policy]> m) ∅ policies.

Definition comparePolicies `{!RangeOrder string ClusterPolicy} (expected current : list ClusterPolicy) : PolicySyncActions :=
  let expectedMap := by_name expected in
  let currentMap := by_name current in
  {| ToApply := fst <$> filter (fun e => currentMap !! e.1 = None) (range_map expectedMap);
     ToUpdate := fst <$> filter (fun e => is_Some (currentMap !! e.1)) (range_map expectedMap);
     ToRemove := snd <$> filter (fun e => expectedMap !! e.1 = None) (range_map currentMap) |}.

(** ** The run *)
Section sync.
Context {W : Type} `{!SyncEnv W} `{!PolicyManager W} `{!InsightsClient W}.

(** One round of the loops over names; an error of the status update is only
    logged.  [record] is what a success adds to the result. *)
Definition apply_one (verb : string) (record : string -> PolicySyncResult -> PolicySyncResult)
    (m : gmap string ClusterPolicy) (s : W * PolicySyncResult) (policyName : string) : W * PolicySyncResult :=
  let '(w, result) := s in
  match m !! policyName with
  | None => (w, result)
  | Some policy =>
      match applyPolicy w policy with
      | (w, Some err) =>
          let errorMsg := ("Failed to " +:+ verb +:+ " policy " +:+ policyName +:+ ": " +:+ err)%string in
          let '(w, _) := UpdateKyvernoPolicyStatus w policyName "apply" "failed" (YAML policy) errorMsg in
          (w, add_failed policyName errorMsg result)
      | (w, None) =>
          let '(w, _) := UpdateKyvernoPolicyStatus w policyName "apply" "success" (YAML policy) "" in
          (w, record policyName result)
      end
  end.

Definition remove_one (s : W * PolicySyncResult) (policy : ClusterPolicy) : W * PolicySyncResult :=
  let '(w, result) := s in
  match removePolicy w policy with
  | (w, Some err) =>
      let errorMsg := ("Failed to remove policy " +:+ Name policy +:+ ": " +:+ err)%string in
      let '(w, _) := UpdateKyvernoPolicyStatus w (Name policy) "delete" "failed"
                       "Failed to remove policy from cluster" errorMsg in
      (w, add_failed (Name policy) errorMsg result)
  | (w, None) =>
      let '(w, _) := UpdateKyvernoPolicyStatus w (Name policy) "delete" "success"
                       "Successfully removed policy from cluster" "" in
      (w, add_removed (Name policy) result)
  end.

(** A successful update is recorded nowhere. *)
Definition executeSyncActions (w : W) (actions : PolicySyncActions) (managedPoliciesByInsights : list ClusterPolicy)
    (result : PolicySyncResult) : W * PolicySyncResult :=
  let m := by_name managedPoliciesByInsights in
  let s := foldl (apply_one "apply" add_applied m) (w, result) (ToApply actions) in
  let s := foldl (apply_one "update" (fun _ r => r) m) s (ToUpdate actions) in
  foldl remove_one s (ToRemove actions).

Definition count_part (label : string) (l : list string) : string :=
  if 0 <? lenZ l then (label +:+ " " +:+ fmt_d (lenZ l) +:+ ", ")%string else ""%string.

Definition generateSummary (result : PolicySyncResult) : string :=
  TrimSuffix
    ("Policy sync " +:+ (if Success result then "completed" else "failed") +:+ ": "
       +:+ count_part "Applied" (Applied result) +:+ count_part "Updated" (Updated result)
       +:+ count_part "Removed" (Removed result) +:+ count_part "Failed" (Failed result)
       +:+ "Duration: " +:+ format_Duration (Duration result))%string ", "%string.

Definition finish (elapsed : Z) (r : PolicySyncResult) : PolicySyncResult :=
  let r := {| Success := bool_decide (Errors r = []); Actions := Actions r; Applied := Applied r; Updated := Updated r;
              Removed := Removed r; Failed := Failed r; Errors := Errors r; Duration := elapsed; Summary := Summary r |} in
  {| Success := Success r; Actions := Actions r; Applied := Applied r; Updated := Updated r; Removed := Removed r;
     Failed := Failed r; Errors := Errors r; Duration := Duration r; Summary := generateSummary r |}.

(** The result and the error, as Go returns them; [elapsed] is the run's duration. *)
Definition syncPoliciesInternal `{!RangeOrder string ClusterPolicy} (elapsed : Z) (w : W) :
    go (W * PolicySyncResult * option string) :=
  match GetClusterKyvernoPoliciesYAML w with
  | (w, Err e) => Ret (w, emptyResult, Some ("failed to fetch expected policies from Insights: " +:+ e)%string)
  | (w, Ok yaml) =>
      current ← listInsightsManagedPolicies w;
      match current with
      | Err e => Ret (w, emptyResult, Some ("failed to list currently deployed Insights-managed policies: " +:+ e)%string)
      | Ok current =>
          expected ← parsePoliciesFromYAML yaml;
          match expected with
          | Err e => Ret (w, emptyResult, Some ("failed to parse expected policies from YAML: " +:+ e)%string)
          | Ok expected =>
              let actions := comparePolicies expected current in
              let '(w, result) := executeSyncActions w actions expected (set_Actions actions emptyResult) in
              Ret (w, finish elapsed result, None)
          end
      end
  end.

(** How the leader election ends: the lock cannot be made, the callback runs to
    its end as the leader, or the election is over without that. *)
Inductive election : Type :=
| LockFailed (e : string)
| Led
| NotLed.

(** The callback's own error is only logged. *)
Definition RunWithLeaderElection {A} (o : election) (runFunc : W -> go (W * A)) (w : W) :
    go (W * option A * option string) :=
  match o with
  | LockFailed e => Ret (w, None, Some ("failed to create resource lock: " +:+ e)%string)
  | Led => '(w, a) ← runFunc w; Ret (w, Some a, None)
  | NotLed => Ret (w, None, None)
  end.

Definition failedResult (e : string) : PolicySyncResult :=
  {| Success := false; Actions := {| ToApply := []; ToUpdate := []; ToRemove := [] |}; Applied := []; Updated := [];
     Removed := []; Failed := []; Errors := [e]; Duration := 0; Summary := "" |}.

Definition SyncPolicies `{!RangeOrder string ClusterPolicy} (o : election) (elapsed : Z) (w : W) :
    go (W * PolicySyncResult * option string) :=
  '(w, done, err) ← RunWithLeaderElection o
    (fun w => '(w, result, syncErr) ← syncPoliciesInternal elapsed w;
              Ret (w, (result : PolicySyncResult, syncErr : option string))) w;
  Ret (match err, done with
       | Some e, _ => (w, failedResult e, Some ("leader election failed: " +:+ e)%string)
       | None, None => (w, failedResult "sync result is nil", Some "sync result is nil"%string)
       | None, Some (result, syncErr) => (w, result, syncErr)
       end).

(** [main]'s exit condition: the error that makes the process exit with 1. *)
Definition syncKyvernoPolicies (r : PolicySyncResult * option string) : option string :=
  match r with
  | (_, Some err) => Some err
  | (result, None) =>
      if Success result then None else Some ("sync failed: [" +:+ String.concat " " (Errors result) +:+ "]")%string
  end.
End sync.

(** ** Configuration and identity *)
Record Config := mkConfig {
  Host : string;
  Token : string;
  Organization : string;
  Cluster : string;
  DevMode : bool;
  DryRun : bool;
  ValidatePolicies : bool;
  LogLevel : string
}.

Definition validateConfig (config : Config) : option string :=
  if decide (Host config = "") then Some "host is required"
  else if decide (Token config = "") then Some "token is required"
  else if decide (Organization config = "") then Some "organization is required"
  else if decide (Cluster config = "") then Some "cluster is required"
  else None%string.

(** The environment and the host name, as they are found; [now] is the Unix time. *)
Definition getLockIdentifier (getenv : string -> string) (hostname : result string string) (now : Z) : string :=
  if decide (getenv "POD_NAME" <> "") then ("fw-pod-" +:+ getenv "POD_NAME")
  else if decide (getenv "JOB_NAME" <> "") then ("fw-job-" +:+ getenv "JOB_NAME")
  else
    match hostname with
    | Ok h => "fw-host-" +:+ h
    | Err _ => "fw-unknown-" +:+ fmt_d now
    end%string.

Definition maskToken (token : string) : string :=
  if (slen token <=? 8)%nat then "***"%string
  else (slice_to 4 token +:+ "***" +:+ slice_from (slen token - 4) token)%string.

(** ** The cluster a run leaves behind *)

(** A view of the cluster's policies by kind and name, and what success and
    failure of the manager's operations mean for it. *)
Class ClusterView (W : Type) `{!PolicyManager W} `{!InsightsClient W} := {
  objects : W -> gmap (string * string) string;
  apply_ok : forall w p w', applyPolicy w p = (w', None) -> objects w' = <[(Kind p, Name p) := YAML p]> (objects w);
  apply_fails : forall w p w' e, applyPolicy w p = (w', Some e) -> objects w' = objects w;
  remove_ok : forall w p w', removePolicy w p = (w', None) -> objects w' = delete (Kind p, Name p) (objects w);
  remove_fails : forall w p w' e, removePolicy w p = (w', Some e) -> objects w' = objects w;
  status_keeps : forall w n a s b o, objects (UpdateKyvernoPolicyStatus w n a s b o).1 = objects w
}.

Section plan.
Context `{!RangeOrder string ClusterPolicy}.
Implicit Types (expected current : list ClusterPolicy) (n : string).

Lemma by_name_name l n p : by_name l !! n = Some p -> Name p = n /\ p ∈ l.
Proof.
  unfold by_name. assert (H : forall l (m : gmap string ClusterPolicy), (forall n p, m !! n = Some p -> Name p = n) ->
    forall n p, foldl (fun m q => <[Name q := q]> m) m l !! n = Some p -> Name p = n /\ (p ∈ l \/ m !! n = Some p)).
  { clear. induction l as [|q l IH]; intros m Hm n p; simpl; [intros H; split; [by apply Hm|by right]|].
    intros H. apply IH in H as [Hn [H|H]].
    - split; [done|]. left. by right.
    - split; [done|]. apply lookup_insert_Some in H as [[_ ->]|[_ H]]; [left; by left|by right].
    - intros n' p' [[<- ->]|[_ H']]%lookup_insert_Some; [done|by apply Hm]. }
  intros Hl. apply H in Hl as [Hn [Hp|Hp]]; [done|by rewrite lookup_empty in Hp|].
  intros n' p'. by rewrite lookup_empty.
Qed.

Lemma in_ToApply expected current n :
  n ∈ ToApply (comparePolicies expected current) <-> is_Some (by_name expected !! n) /\ by_name current !! n = None.
Proof.
  cbn [comparePolicies ToApply]. rewrite list_elem_of_fmap. split.
  - intros ([n' p] & -> & [Hc Hr%elem_of_range_map]%list_elem_of_filter). by split; [exists p|].
  - intros [[p Hp] Hc]. exists (n, p). split; [done|]. apply list_elem_of_filter. split; [done|]. by apply elem_of_range_map.
Qed.

Lemma in_ToUpdate expected current n :
  n ∈ ToUpdate (comparePolicies expected current) <-> is_Some (by_name expected !! n) /\ is_Some (by_name current !! n).
Proof.
  cbn [comparePolicies ToUpdate]. rewrite list_elem_of_fmap. split.
  - intros ([n' p] & -> & [Hc Hr%elem_of_range_map]%list_elem_of_filter). by split; [exists p|].
  - intros [[p Hp] Hc]. exists (n, p). split; [done|]. apply list_elem_of_filter. split; [done|]. by apply elem_of_range_map.
Qed.

Lemma in_ToRemove expected current q :
  q ∈ ToRemove (comparePolicies expected current) <->
  by_name current !! Name q = Some q /\ by_name expected !! Name q = None.
Proof.
  cbn [comparePolicies ToRemove]. rewrite list_elem_of_fmap. split.
  - intros ([n' p] & -> & [Hc Hr%elem_of_range_map]%list_elem_of_filter). simpl in *.
    destruct (by_name_name _ _ _ Hr) as [Hn _]. by rewrite Hn.
  - intros [Hq He]. exists (Name q, q). split; [done|]. apply list_elem_of_filter. split; [done|]. by apply elem_of_range_map.
Qed.

Lemma NoDup_fst_filter (P : string * ClusterPolicy -> Prop) `{!forall x, Decision (P x)} (m : gmap string ClusterPolicy) :
  NoDup (filter P (range_map m)).*1.
Proof.
  pose proof (NoDup_fst_range_map m) as Hm. induction (range_map m) as [|x l IH]; [constructor|].
  rewrite fmap_cons, NoDup_cons in Hm. destruct Hm as [Hx Hm]. rewrite filter_cons. case_decide; [|by apply IH].
  rewrite fmap_cons. apply NoDup_cons. split; [|by apply IH]. intros (y & Hy & Hin)%list_elem_of_fmap.
  apply Hx. rewrite Hy. apply list_elem_of_fmap_2. by apply list_elem_of_filter in Hin as [_ ?].
Qed.

Lemma ToRemove_names expected current :
  Name <$> ToRemove (comparePolicies expected current)
  = (filter (fun e => by_name expected !! e.1 = None) (range_map (by_name current))).*1.
Proof.
  cbn [comparePolicies ToRemove]. rewrite <-list_fmap_compose. apply list_fmap_ext. intros i [n p] Hi.
  apply list_elem_of_lookup_2, list_elem_of_filter in Hi as [_ Hr%elem_of_range_map].
  apply (by_name_name _ _ _ Hr).
Qed.

(** No policy is in the plan twice. *)
Lemma plan_NoDup expected current :
  let a := comparePolicies expected current in NoDup (ToApply a ++ ToUpdate a ++ (Name <$> ToRemove a)).
Proof.
  intros a. apply NoDup_app. split_and!; [apply NoDup_fst_filter| |apply NoDup_app; split_and!].
  - intros n [He Hc]%in_ToApply. rewrite elem_of_app. intros [[_ Hu]%in_ToUpdate|(q & -> & Hq)%list_elem_of_fmap].
    + rewrite Hc in Hu. by destruct Hu.
    + apply in_ToRemove in Hq as [Hq _]. congruence.
  - apply NoDup_fst_filter.
  - intros n [He _]%in_ToUpdate (q & -> & [_ Hq]%in_ToRemove)%list_elem_of_fmap. rewrite Hq in He. by destruct He.
  - unfold a. rewrite ToRemove_names. apply NoDup_fst_filter.
Qed.
End plan.

Section execution.
Context {W : Type} `{!PolicyManager W} `{!InsightsClient W} `{!ClusterView W}.
Implicit Types (w : W) (r : PolicySyncResult) (m : gmap string ClusterPolicy).

(** What a loop over the names [l] does to the result: each name ends in [oks]
    or in [fails]; only the latter, with a message each, and [extra oks] are
    recorded. *)
Record tally (l oks fails : list string) (applied removed : list string) r r' : Prop := {
  tally_all : oks ++ fails ≡ₚ l;
  tally_failed : Failed r' = Failed r ++ fails;
  tally_errors : exists es, Errors r' = Errors r ++ es /\ length es = length fails;
  tally_applied : Applied r' = Applied r ++ applied;
  tally_removed : Removed r' = Removed r ++ removed;
  tally_updated : Updated r' = Updated r
}.

Lemma tally_nil r : tally [] [] [] [] [] r r.
Proof. split; rewrite ?app_nil_r; try done. by exists []; rewrite app_nil_r. Qed.

Lemma tally_fail n e l oks fails ap re r r' :
  tally l oks fails ap re (add_failed n e r) r' -> tally (n :: l) oks (n :: fails) ap re r r'.
Proof.
  intros [A F (es & E & L) P R U]. cbn in *. split; try done.
  - rewrite <-A. symmetry. apply Permutation_middle.
  - by rewrite F, <-(assoc_L (++)).
  - exists (e :: es). rewrite E, <-(assoc_L (++)). split; [done|]. simpl. by rewrite L.
Qed.

Lemma tally_ok (record : string -> PolicySyncResult -> PolicySyncResult) (ia ir : list string) n l oks fails ap re r r' :
  Failed (record n r) = Failed r -> Errors (record n r) = Errors r -> Updated (record n r) = Updated r ->
  Applied (record n r) = Applied r ++ ia -> Removed (record n r) = Removed r ++ ir ->
  tally l oks fails ap re (record n r) r' -> tally (n :: l) (n :: oks) fails (ia ++ ap) (ir ++ re) r r'.
Proof.
  intros Hf He Hu Ha Hr [A F (es & E & L) P R U]. split.
  - cbn [app]. by constructor.
  - congruence.
  - exists es. split; [congruence|done].
  - by rewrite P, Ha, <-(assoc_L (++)).
  - by rewrite R, Hr, <-(assoc_L (++)).
  - congruence.
Qed.

(** The policies after the names [l] of [m] were applied, those in [fails] in vain. *)
Definition applied_objects m (l fails : list string) (o o' : gmap (string * string) string) : Prop :=
  forall k n, o' !! (k, n) =
    match m !! n with
    | Some p => if decide (n ∈ l /\ (n ∉ fails) /\ Kind p = k) then Some (YAML p) else o !! (k, n)
    | None => o !! (k, n)
    end.

Lemma apply_loop verb record (inc : string -> list string) m l w r :
  (forall n r, Failed (record n r) = Failed r /\ Errors (record n r) = Errors r /\ Updated (record n r) = Updated r /\
               Applied (record n r) = Applied r ++ inc n /\ Removed (record n r) = Removed r) ->
  NoDup l -> (forall n, n ∈ l -> exists p, m !! n = Some p /\ Name p = n) ->
  exists oks fails, let '(w', r') := foldl (apply_one verb record m) (w, r) l in
    tally l oks fails (oks ≫= inc) [] r r' /\ applied_objects m l fails (objects w) (objects w').
Proof.
  intros Hrec. revert w r. induction l as [|n l IH]; intros w r Hnd Hm.
  - exists [], []. split; [apply tally_nil|]. intros k n. destruct (m !! n); [|done].
    rewrite decide_False; [done|]. by intros [?%not_elem_of_nil _].
  - apply NoDup_cons in Hnd as [Hn Hnd]. destruct (Hm n) as (p & Hp & Hname); [by left|].
    assert (Hm' : forall n, n ∈ l -> exists p, m !! n = Some p /\ Name p = n) by (intros; apply Hm; by right).
    cbn [foldl]. unfold apply_one at 2. rewrite Hp. destruct (applyPolicy w p) as [w1 [err|]] eqn:Hap.
    + set (msg := ("Failed to " +:+ verb +:+ " policy " +:+ n +:+ ": " +:+ err)%string).
      pose proof (status_keeps w1 n "apply" "failed" (YAML p) msg) as Hs.
      destruct (UpdateKyvernoPolicyStatus w1 _ _ _ _ _) as [w2 e2]. cbn [fst] in Hs.
      destruct (IH w2 (add_failed n msg r) Hnd Hm') as (oks & fails & H). exists oks, (n :: fails).
      destruct (foldl _ _ _) as [w' r']. destruct H as [Ht Ho]. split; [by eapply tally_fail|].
      intros k n'. rewrite (Ho k n'), Hs, (apply_fails _ _ _ _ Hap). destruct (m !! n') as [p'|]; [|done].
      destruct (decide (n' = n)) as [->|Hne]; [|apply decide_ext; set_solver].
      rewrite !decide_False; [done|set_solver|set_solver].
    + pose proof (status_keeps w1 n "apply" "success" (YAML p) "") as Hs.
      destruct (UpdateKyvernoPolicyStatus w1 _ _ _ _ _) as [w2 e2]. cbn [fst] in Hs.
      destruct (IH w2 (record n r) Hnd Hm') as (oks & fails & H). exists (n :: oks), fails.
      destruct (foldl _ _ _) as [w' r']. destruct H as [Ht Ho].
      destruct (Hrec n r) as (Hf & He & Hu & Ha & Hr). split.
      * change ([] : list string) with ([] ++ [] : list string). eapply tally_ok; try done. by rewrite app_nil_r.
      * assert (Hnf : n ∉ fails) by (intros Hin; apply Hn; rewrite <-(tally_all _ _ _ _ _ _ _ Ht); set_solver).
        intros k n'. rewrite (Ho k n'), Hs, (apply_ok _ _ _ Hap), Hname. destruct (m !! n') as [p'|] eqn:Hp'.
        -- destruct (decide (n' = n)) as [->|Hne].
           ++ assert (p' = p) as -> by congruence. rewrite decide_False by tauto.
              destruct (decide (Kind p = k)) as [<-|Hk].
              ** rewrite decide_True by set_solver. by rewrite lookup_insert_eq.
              ** rewrite decide_False by tauto. by rewrite lookup_insert_ne by congruence.
           ++ rewrite lookup_insert_ne by congruence. apply decide_ext. set_solver.
        -- rewrite lookup_insert_ne; [done|]. congruence.
Qed.

(** The policies after those in [l] were removed, the ones named in [fails] in vain. *)
Definition removed_objects (l : list ClusterPolicy) (fails : list string) (o o' : gmap (string * string) string) : Prop :=
  forall k n, o' !! (k, n) =
    if decide ((n ∉ fails) /\ Exists (fun q => Name q = n /\ Kind q = k) l) then None else o !! (k, n).

Lemma remove_loop (l : list ClusterPolicy) w r :
  NoDup (Name <$> l) ->
  exists oks fails, let '(w', r') := foldl remove_one (w, r) l in
    tally (Name <$> l) oks fails [] oks r r' /\ removed_objects l fails (objects w) (objects w').
Proof.
  revert w r. induction l as [|q l IH]; intros w r Hnd.
  - exists [], []. split; [apply tally_nil|]. intros k n. rewrite decide_False; [done|]. intros [_ H]. inversion H.
  - rewrite fmap_cons in Hnd. apply NoDup_cons in Hnd as [Hn Hnd].
    cbn [foldl]. unfold remove_one at 2. destruct (removePolicy w q) as [w1 [err|]] eqn:Hrm.
    + set (msg := ("Failed to remove policy " +:+ Name q +:+ ": " +:+ err)%string).
      pose proof (status_keeps w1 (Name q) "delete" "failed" "Failed to remove policy from cluster" msg) as Hs.
      destruct (UpdateKyvernoPolicyStatus w1 _ _ _ _ _) as [w2 e2]. cbn [fst] in Hs.
      destruct (IH w2 (add_failed (Name q) msg r) Hnd) as (oks & fails & H). exists oks, (Name q :: fails).
      destruct (foldl _ _ _) as [w' r']. destruct H as [Ht Ho]. split; [by eapply tally_fail|].
      intros k n. rewrite (Ho k n), Hs, (remove_fails _ _ _ _ Hrm). apply decide_ext.
      rewrite Exists_cons, not_elem_of_cons. split; [|naive_solver].
      intros [Hf He]. split; [|by right]. split; [|done]. intros ->.
      apply Exists_exists in He as (q' & Hq' & Hname & _). apply Hn. rewrite <-Hname. by apply list_elem_of_fmap_2.
    + pose proof (status_keeps w1 (Name q) "delete" "success" "Successfully removed policy from cluster" "") as Hs.
      destruct (UpdateKyvernoPolicyStatus w1 _ _ _ _ _) as [w2 e2]. cbn [fst] in Hs.
      destruct (IH w2 (add_removed (Name q) r) Hnd) as (oks & fails & H). exists (Name q :: oks), fails.
      destruct (foldl _ _ _) as [w' r']. destruct H as [Ht Ho]. split.
      * change (Name q :: oks) with ([Name q] ++ oks) at 2. rewrite fmap_cons.
        eapply (tally_ok add_removed [] [Name q]); try done. cbn. by rewrite app_nil_r.
      * assert (Hnf : Name q ∉ fails) by (intros Hin; apply Hn; rewrite <-(tally_all _ _ _ _ _ _ _ Ht); set_solver).
        intros k n. rewrite (Ho k n), Hs, (remove_ok _ _ _ Hrm).
        destruct (decide (Name q = n /\ Kind q = k)) as [[<- <-]|Hne].
        -- rewrite lookup_delete_eq, (decide_True (P := _ /\ Exists _ (q :: l))) by (split; [done|by left]). by case_decide.
        -- rewrite lookup_delete_ne by (intros [= <- <-]; tauto). apply decide_ext. rewrite Exists_cons. tauto.
Qed.
End execution.

Section outcome.
Context {W : Type} `{!PolicyManager W} `{!InsightsClient W} `{!ClusterView W} `{!RangeOrder string ClusterPolicy}.
Implicit Types (expected current : list ClusterPolicy) (w : W).

(** The run's result before it is summed up. *)
Definition execute_plan w expected current : W * PolicySyncResult :=
  let actions := comparePolicies expected current in
  executeSyncActions w actions expected (set_Actions actions emptyResult).

Lemma bind_nothing (l : list string) : l ≫= (fun _ => []) = ([] : list string).
Proof. by induction l. Qed.

Lemma bind_same (l : list string) : l ≫= (fun n => [n]) = l.
Proof. induction l as [|x l IH]; [done|]. cbn. by f_equal. Qed.

Lemma planned expected (l : list string) :
  (forall n, n ∈ l -> is_Some (by_name expected !! n)) ->
  forall n, n ∈ l -> exists p, by_name expected !! n = Some p /\ Name p = n.
Proof. intros H n Hn. destruct (H n Hn) as [p Hp]. exists p. split; [done|]. by apply by_name_name in Hp as [? _]. Qed.

Lemma execute_spec w expected current :
  let a := comparePolicies expected current in
  exists ok1 f1 ok2 f2 ok3 f3 o1 o2, let '(w', r) := execute_plan w expected current in
    (ok1 ++ f1 ≡ₚ ToApply a /\ ok2 ++ f2 ≡ₚ ToUpdate a /\ ok3 ++ f3 ≡ₚ (Name <$> ToRemove a)) /\
    (applied_objects (by_name expected) (ToApply a) f1 (objects w) o1 /\
     applied_objects (by_name expected) (ToUpdate a) f2 o1 o2 /\
     removed_objects (ToRemove a) f3 o2 (objects w')) /\
    Failed r = f1 ++ f2 ++ f3 /\ length (Errors r) = length (Failed r) /\
    Applied r = ok1 /\ Removed r = ok3 /\ Updated r = [].
Proof.
  intros a. unfold execute_plan, executeSyncActions. fold a.
  pose proof (plan_NoDup expected current) as Hnd. fold a in Hnd. cbv zeta in Hnd.
  apply NoDup_app in Hnd as (N1 & _ & Hnd). apply NoDup_app in Hnd as (N2 & _ & N3).
  assert (P1 : forall n, n ∈ ToApply a -> is_Some (by_name expected !! n)) by (intros n Hn; by apply in_ToApply in Hn as [? _]).
  assert (P2 : forall n, n ∈ ToUpdate a -> is_Some (by_name expected !! n)) by (intros n Hn; by apply in_ToUpdate in Hn as [? _]).
  destruct (apply_loop "apply" add_applied (fun n => [n]) _ _ w (set_Actions a emptyResult) ltac:(done) N1 (planned _ _ P1))
    as (ok1 & f1 & H1). destruct (foldl _ _ (ToApply a)) as [w1 r1]. destruct H1 as [T1 O1].
  destruct (apply_loop "update" (fun _ r => r) (fun _ => []) _ _ w1 r1
    ltac:(intros; rewrite ?app_nil_r; done) N2 (planned _ _ P2))
    as (ok2 & f2 & H2). destruct (foldl _ _ (ToUpdate a)) as [w2 r2]. destruct H2 as [T2 O2].
  destruct (remove_loop (ToRemove a) w2 r2 N3) as (ok3 & f3 & H3). destruct (foldl remove_one _ _) as [w3 r3].
  destruct H3 as [T3 O3]. exists ok1, f1, ok2, f2, ok3, f3, (objects w1), (objects w2).
  destruct T1 as [A1 F1 (e1 & E1 & L1) AP1 R1 U1], T2 as [A2 F2 (e2 & E2 & L2) AP2 R2 U2], T3 as [A3 F3 (e3 & E3 & L3) AP3 R3 U3].
  cbn [set_Actions emptyResult Failed Errors Applied Removed Updated] in *.
  assert (HF : Failed r3 = f1 ++ f2 ++ f3) by (by rewrite F3, F2, F1, <-(assoc_L (++))).
  split_and!; try done.
  - rewrite HF, E3, E2, E1, !length_app. simpl. lia.
  - rewrite AP3, AP2, AP1, !app_nil_r. simpl. by rewrite bind_nothing, app_nil_r, bind_same.
  - by rewrite R3, R2, R1.
  - by rewrite U3, U2, U1.
Qed.


(** Every planned policy ends in exactly one place: applied or removed as the
    result says, failed with one message each, or updated, which is recorded
    nowhere: the list of updates stays empty.  The run is a success exactly
    when nothing failed. *)
Theorem sync_accounts w expected current `{!SyncEnv W} elapsed :
  let a := comparePolicies expected current in
  let r := finish elapsed (execute_plan w expected current).2 in
  NoDup (ToApply a ++ ToUpdate a ++ (Name <$> ToRemove a)) /\
  exists updated, updated ⊆ ToUpdate a /\
    Applied r ++ updated ++ Removed r ++ Failed r ≡ₚ ToApply a ++ ToUpdate a ++ (Name <$> ToRemove a) /\
    Applied r ⊆ ToApply a /\ Removed r ⊆ (Name <$> ToRemove a) /\
    Updated r = [] /\ length (Errors r) = length (Failed r) /\ (Success r = true <-> Failed r = []).
Proof.
  intros a r. split; [apply plan_NoDup|].
  destruct (execute_spec w expected current) as (ok1 & f1 & ok2 & f2 & ok3 & f3 & o1 & o2 & H). unfold r. fold a in H.
  destruct (execute_plan w expected current) as [w' r0].
  destruct H as ((A1 & A2 & A3) & _ & HF & HE & HA & HR & HU). cbn [snd finish Applied Removed Failed Updated Errors Success].
  exists ok2. rewrite HA, HR. split_and!.
  - intros n Hn. rewrite <-A2, elem_of_app. by left.
  - rewrite HF, <-A1, <-A2, <-A3. solve_Permutation.
  - intros n Hn. rewrite <-A1, elem_of_app. by left.
  - intros n Hn. rewrite <-A3, elem_of_app. by left.
  - done.
  - done.
  - rewrite bool_decide_eq_true. destruct (Errors r0), (Failed r0); done.
Qed.
End outcome.

(** ** Dry runs *)
Section dry_run.
Context {W : Type} `{!SyncEnv W} `{!RangeOrder string ClusterPolicy} (realClient : InsightsClient W).

#[local] Instance dry_manager : PolicyManager W := DryRunPolicyManager.
#[local] Instance dry_client : InsightsClient W := DryRunClient realClient.

Lemma dry_apply verb record (m : gmap string ClusterPolicy) l (w : W) r :
  (forall n, n ∈ l -> is_Some (m !! n)) ->
  foldl (apply_one verb record m) (w, r) l = (w, foldl (fun r n => record n r) r l).
Proof.
  revert r. induction l as [|n l IH]; intros r Hl; [done|]. cbn [foldl]. unfold apply_one at 2.
  destruct (Hl n) as [p ->]; [by left|]. cbn. apply IH. intros n' Hn'. apply Hl. by right.
Qed.

Lemma dry_remove l (w : W) r : foldl remove_one (w, r) l = (w, foldl (fun r q => add_removed (Name q) r) r l).
Proof. revert r. induction l as [|q l IH]; intros r; [done|]. cbn. apply IH. Qed.

Lemma dry_results (a : list string) (b : list ClusterPolicy) r :
  let r' := foldl (fun r q => add_removed (Name q) r) (foldl (fun r n => add_applied n r) r a) b in
  Applied r' = Applied r ++ a /\ Removed r' = Removed r ++ (Name <$> b) /\ Failed r' = Failed r /\
  Errors r' = Errors r /\ Actions r' = Actions r.
Proof.
  cbv zeta. revert r. induction a as [|n a IH]; intros r; cbn [foldl].
  - revert r. induction b as [|q b IH]; intros r; cbn [foldl]; [by rewrite !app_nil_r|].
    destruct (IH (add_removed (Name q) r)) as (A & R & F & E & C). rewrite A, R, F, E, C. cbn.
    by rewrite <-(assoc_L (++)).
  - destruct (IH (add_applied n r)) as (A & R & F & E & C). rewrite A, R, F, E, C. cbn. by rewrite <-(assoc_L (++)).
Qed.

Lemma foldl_id {A B} (l : list A) (b : B) : foldl (fun b _ => b) b l = b.
Proof. by induction l. Qed.

Lemma dry_execute (w : W) expected current :
  let a := comparePolicies expected current in
  let '(w', r) := executeSyncActions w a expected (set_Actions a emptyResult) in
  w' = w /\ Applied r = ToApply a /\ Removed r = (Name <$> ToRemove a) /\ Failed r = [] /\ Errors r = [] /\ Actions r = a.
Proof.
  intros a. unfold executeSyncActions.
  rewrite dry_apply by (intros n Hn; by apply in_ToApply in Hn as [? _]).
  rewrite dry_apply by (intros n Hn; by apply in_ToUpdate in Hn as [? _]).
  rewrite foldl_id, dry_remove. split; [done|]. apply (dry_results (ToApply a) (ToRemove a) (set_Actions a emptyResult)).
Qed.

(** A dry run changes nothing: with the dry-run manager and client the world
    after a run is the one before it, or the one after the single read from
    Insights, and a run without error is a success that lists as applied and
    removed exactly what the plan holds. *)
Theorem dry_run_changes_nothing o elapsed (w w' : W) r e :
  SyncPolicies o elapsed w = Ret (w', r, e) ->
  (w' = w \/ w' = (@GetClusterKyvernoPoliciesYAML W realClient w).1) /\
  (e = None ->
    Success r = true /\ Failed r = [] /\ Applied r = ToApply (Actions r) /\ Removed r = (Name <$> ToRemove (Actions r))).
Proof.
  unfold SyncPolicies, RunWithLeaderElection.
  destruct o; [by intros [= <- _ <-]; split; [left|]| |by intros [= <- _ <-]; split; [left|]].
  cut (forall w' r e, syncPoliciesInternal elapsed w = Ret (w', r, e) ->
    w' = (@GetClusterKyvernoPoliciesYAML W realClient w).1 /\
    (e = None -> Success r = true /\ Failed r = [] /\ Applied r = ToApply (Actions r) /\
                 Removed r = (Name <$> ToRemove (Actions r)))).
  { intros Hcut. destruct (syncPoliciesInternal elapsed w) as [[[w1 r1] e1]|]; [|done]. cbn. intros [= <- <- <-].
    destruct (Hcut _ _ _ eq_refl) as [-> H]. split; [by right|done]. }
  clear w' r e. intros w' r e. unfold syncPoliciesInternal. cbn [GetClusterKyvernoPoliciesYAML dry_client DryRunClient].
  destruct (@GetClusterKyvernoPoliciesYAML W realClient w) as [w1 [yaml|err]]; [|by intros [= <- _ <-]]. cbn [fst].
  intros (current & _ & H)%go_bind_ret. destruct current as [current|err]; [|by injection H as <- _ <-].
  apply go_bind_ret in H as (expected & _ & H). destruct expected as [expected|err]; [|by injection H as <- _ <-].
  pose proof (dry_execute w1 expected current) as Hd. cbv zeta in Hd.
  destruct (executeSyncActions _ _ _ _) as [w2 r2]. destruct Hd as (-> & A & R & F & E & C).
  injection H as <- <- <-. split; [done|]. intros _. cbn. rewrite E, C. split_and!; try done. 
Qed.
End dry_run.

(** ** A run on a small cluster

    The world is its policies by kind and name; names that begin with [locked]
    cannot be changed; Insights expects the policy [b]. *)
Definition World : Type := gmap (string * string) string.

Definition refusal (p : ClusterPolicy) : option string :=
  if HasPrefix (Name p) "locked" then Some "refused"%string else None.

#[export] Instance sample_manager : PolicyManager World := {
  applyPolicy := fun w p =>
    match refusal p with Some e => (w, Some e) | None => (<[(Kind p, Name p) := YAML p]> w, None) end;
  removePolicy := fun w p =>
    match refusal p with Some e => (w, Some e) | None => (delete (Kind p, Name p) w, None) end
}.

#[export] Instance sample_client : InsightsClient World := {
  GetClusterKyvernoPoliciesYAML := fun w => (w, Ok "policies"%string);
  UpdateKyvernoPolicyStatus := fun w _ _ _ _ _ => (w, None)
}.

#[export] Instance sample_view : ClusterView World.
Proof.
  refine {| objects := fun w => w |}; cbn; try done; intros w p; destruct (refusal p); intros; simplify_eq; done.
Defined.

Definition sample_document : gmap string any :=
  {["kind" := AnyString "ClusterPolicy"; "metadata" := AnyMap {["name" := AnyString "b"]}; "spec" := AnyMap ∅]}%string.

#[export] Instance sample_env : SyncEnv World := {
  ResourceFor := fun w r => if decide (r = "clusterpolicies"%string) then Ok r else Err "no matches for it"%string;
  List_ := fun w r =>
    Ok ((fun kv : string * string * string =>
           {| i_Kind := kv.1.1; i_Name := kv.1.2; i_Annotations := Some {[owned_by := "Fairwinds Insights"%string]};
              i_Object := {["spec"%string := AnyMap ∅]} |}) <$> map_to_list w);
  yaml_Marshal := fun _ => Ok "yaml"%string;
  yaml_Documents := fun _ => [Ok sample_document; Ok ∅];
  format_Duration := fmt_d
}.

#[local] Existing Instance canonical_order.

Definition sample_world : World := {[("ClusterPolicy", "a") := "old"; ("ClusterPolicy", "locked-c") := "old"]}%string.

(** [a] is removed, [b] applied; [locked-c] stays and makes the run fail. *)
Example sample_sync :
  (fun x => match x with
            | Ret (w, r, e) => Some (map_to_list w, (Applied r, Removed r, Failed r, e), syncKyvernoPolicies (r, e))
            | Panic => None
            end) (SyncPolicies Led 7 sample_world)
  = Some ([(("ClusterPolicy", "b"), "yaml"); (("ClusterPolicy", "locked-c"), "old")],
          (["b"], ["a"], ["locked-c"], None),
          Some "sync failed: [Failed to remove policy locked-c: refused]")%string.
Proof. vm_compute. reflexivity. Qed.

Definition dry_sync : go (World * PolicySyncResult * option string) :=
  SyncPolicies (PolicyManager0 := dry_manager) (InsightsClient0 := dry_client sample_client) Led 7 sample_world.

Definition dry_outcome : World * PolicySyncResult * option string :=
  match dry_sync with
  | Ret x => x
  | Panic => (∅, emptyResult, None)
  end.

(** The same cluster without changes: both operations are listed as done. *)
Example dry_sample :
  match dry_sync with
  | Ret (_, r, e) => Some (Applied r, Removed r, Success r, e)
  | Panic => None
  end = Some (["b"], ["a"; "locked-c"], true, None)%string.
Proof. vm_compute. reflexivity. Qed.

Lemma dry_sync_returns : dry_sync = Ret (dry_outcome.1.1, dry_outcome.1.2, dry_outcome.2).
Proof.
  unfold dry_outcome. destruct dry_sync as [[[w r] e]|] eqn:H; [done|]. pose proof dry_sample as E. by rewrite H in E.
Qed.

Lemma dry_run_changes_nothing_witness :
  (dry_outcome.1.1 = sample_world \/ dry_outcome.1.1 = sample_world) /\
  (dry_outcome.2 = None ->
    Success dry_outcome.1.2 = true /\ Failed dry_outcome.1.2 = [] /\
    Applied dry_outcome.1.2 = ToApply (Actions dry_outcome.1.2) /\
    Removed dry_outcome.1.2 = (Name <$> ToRemove (Actions dry_outcome.1.2))).
Proof.
  apply (dry_run_changes_nothing sample_client Led 7 sample_world dry_outcome.1.1 dry_outcome.1.2 dry_outcome.2).
  exact dry_sync_returns.
Defined.
