(* ===== verification/WorkerPool.v ===== *)
(** * Bounded pools of goroutines

    The pattern by which image-trust processes a list of images concurrently:
    a loop takes a slot of a buffered channel and starts a goroutine for every
    index, the goroutine writes its own element of the slice of results and
    frees the slot, and the caller waits for all of them.  The state is a step
    relation over the schedule; what a goroutine may compute is the relation
    [task]. *)

From stdpp Require Import base decidable list relations.
From Stdlib Require Import Lia.
From S2P Require Import Prelude.

Section pool.
Context {B : Type}.
(** The number of items, the capacity of the semaphore, and the results that the
    goroutine of an index may produce. *)
Context (n cap : nat) (task : nat -> B -> Prop).

(** The index of the next item of the loop, the goroutines that hold a slot and
    the slice of results. *)
Record pool : Type := {
  next : nat;
  running : list nat;
  results : list (option B)
}.

Definition pool_start : pool :=
  {| next := 0; running := []; results := replicate n None |}.

Definition pool_done (p : pool) : Prop := next p = n /\ running p = [].

Inductive pool_step (p : pool) : pool -> Prop :=
| Launch : next p < n -> length (running p) < cap ->
    pool_step p {| next := S (next p); running := running p ++ [next p]; results := results p |}
| Finish i b l k : running p = l ++ i :: k -> task i b ->
    pool_step p {| next := next p; running := l ++ k; results := <[i := Some b]> (results p) |}.

(** A caller whose wait ends with the results [bs]. *)
Definition pool_returns (bs : list B) : Prop :=
  exists p, rtc pool_step pool_start p /\ pool_done p /\ results p = Some <$> bs.

(** ** Invariant *)

Record pool_inv (p : pool) : Prop := {
  inv_next : next p <= n;
  inv_length : length (results p) = n;
  inv_cap : length (running p) <= cap;
  inv_nodup : NoDup (running p);
  inv_running : forall i, i ∈ running p -> i < next p;
  inv_result : forall i b, results p !! i = Some (Some b) -> task i b /\ i < next p /\ i ∉ running p;
  inv_finished : forall i, i < next p -> i ∉ running p -> exists b, results p !! i = Some (Some b)
}.

Lemma pool_start_inv : pool_inv pool_start.
Proof.
  constructor; simpl; try lia.
  - apply length_replicate.
  - constructor.
  - by intros i ?%not_elem_of_nil.
  - intros i b Hb. apply lookup_replicate in Hb as [? _]. done.
Qed.

Lemma pool_step_inv p p' : pool_inv p -> pool_step p p' -> pool_inv p'.
Proof.
  intros [Hn Hl Hc Hnd Hr Hres Hf]. inversion_clear 1 as [Hlt Hcap|i b l k Hrun Ht].
  - constructor; simpl; try done.
    + rewrite length_app. simpl. lia.
    + apply NoDup_app. split_and!; [done| |apply NoDup_singleton].
      intros i Hi. rewrite list_elem_of_singleton. intros ->. specialize (Hr _ Hi). lia.
    + intros i. rewrite elem_of_app, list_elem_of_singleton. intros [Hi| ->]; [|lia].
      specialize (Hr _ Hi). lia.
    + intros i b Hb. destruct (Hres _ _ Hb) as (? & ? & Hi). split_and!; [done|lia|].
      rewrite not_elem_of_app, list_elem_of_singleton. split; [done|lia].
    + intros i Hi. rewrite not_elem_of_app, list_elem_of_singleton. intros [? ?]. apply Hf; [lia|done].
  - assert (i < next p) as Hi by (apply Hr; rewrite Hrun; set_solver).
    rewrite Hrun in Hnd. apply NoDup_app in Hnd as (Hl1 & Hlk & Hk).
    apply NoDup_cons in Hk as [Hik Hk].
    assert (NoDup (l ++ k)) as Hlk'.
    { apply NoDup_app. split_and!; [done| |done]. intros x Hx Hx'. apply (Hlk x); [done|by right]. }
    assert (i ∉ l) as Hil by (intros Hx; apply (Hlk i); [done|by left]).
    constructor; simpl; try done.
    + by rewrite length_insert.
    + rewrite Hrun in Hc. rewrite length_app in *. simpl in *. lia.
    + intros j Hj. apply Hr. rewrite Hrun. set_solver.
    + intros j c Hj. destruct (decide (i = j)) as [<-|Hij].
      * rewrite list_lookup_insert_eq in Hj by lia. simplify_eq. split_and!; [done|done|set_solver].
      * rewrite list_lookup_insert_ne in Hj by done. destruct (Hres _ _ Hj) as (? & ? & Hno).
        split_and!; [done|done|]. rewrite Hrun in Hno. set_solver.
    + intros j Hj Hno. destruct (decide (i = j)) as [<-|Hij].
      * exists b. by rewrite list_lookup_insert_eq by lia.
      * rewrite list_lookup_insert_ne by done. apply Hf; [done|]. rewrite Hrun. set_solver.
Qed.

Lemma pool_reachable_inv p : rtc pool_step pool_start p -> pool_inv p.
Proof.
  intros H. assert (forall q, pool_inv q -> rtc pool_step q p -> pool_inv p) as Hall.
  { intros q Hq Hp. induction Hp as [|q q' p Hs _ IH]; [done|]. by apply IH; [|eapply pool_step_inv].  }
  eapply Hall; [apply pool_start_inv|done].
Qed.

(** ** The schedule does not matter *)

(** At any time at most [cap] goroutines hold a slot. *)
Lemma pool_bounded p : rtc pool_step pool_start p -> length (running p) <= cap.
Proof. intros H. by apply inv_cap, pool_reachable_inv. Qed.

(** The wait ends with a result of the right task at every index. *)
Lemma pool_returns_spec bs :
  pool_returns bs -> length bs = n /\ forall i b, bs !! i = Some b -> task i b.
Proof.
  intros (p & Hreach & [Hn Hrun] & Hres). apply pool_reachable_inv in Hreach as [_ Hl _ _ _ Hr _].
  rewrite Hres in *. rewrite length_fmap in Hl. split; [done|].
  intros i b Hb. apply Hr. rewrite list_lookup_fmap, Hb. done.
Qed.

(** A finished pool has all its results. *)
Lemma pool_done_returns p :
  rtc pool_step pool_start p -> pool_done p -> exists bs, results p = Some <$> bs /\ pool_returns bs.
Proof.
  intros Hreach [Hn Hrun]. assert (exists bs, results p = Some <$> bs) as [bs Hbs].
  { pose proof (pool_reachable_inv _ Hreach) as [_ Hl _ _ _ _ Hf].
    exists (omap id (results p)). apply list_eq. intros i.
    assert (forall l : list (option B),
              (forall i, i < length l -> exists b, l !! i = Some (Some b)) ->
              Some <$> omap id l = l) as Hall.
    { clear. induction l as [|o l IH]; intros H; [done|]. destruct (H 0) as [b Hb]; [simpl; lia|].
      simpl in Hb. injection Hb as ->. simpl. f_equal. apply IH. intros i Hi.
      apply (H (S i)). simpl. lia. }
    rewrite Hall; [done|]. intros j Hj. apply Hf; [lia|]. rewrite Hrun. apply not_elem_of_nil. }
  exists bs. split; [done|]. by exists p.
Qed.

(** ** Termination *)

(** Every step starts or ends a goroutine, so this decreases. *)
Definition pool_measure (p : pool) : nat := 2 * (n - next p) + length (running p).

Lemma pool_step_measure p p' : pool_step p p' -> pool_measure p' < pool_measure p.
Proof.
  inversion_clear 1 as [Hlt _|i b l k Hrun _]; unfold pool_measure; simpl.
  - rewrite length_app. simpl. lia.
  - rewrite Hrun, !length_app. simpl. lia.
Qed.

Lemma pool_steps_bound p p' k : nsteps pool_step k p p' -> k + pool_measure p' <= pool_measure p.
Proof.
  induction 1 as [|k p q p' Hs _ IH]; [lia|]. apply pool_step_measure in Hs. lia.
Qed.

(** A pool with at least one slot, whose tasks all end, is never stuck. *)
Lemma pool_progress p :
  1 <= cap -> (forall i, i < n -> exists b, task i b) -> pool_inv p ->
  pool_done p \/ exists p', pool_step p p'.
Proof.
  intros Hcap Ht [Hn _ _ _ Hr _ _]. destruct (running p) as [|i k] eqn:E.
  - destruct (decide (next p = n)) as [Hd|Hd]; [by left|]. right. eexists. apply Launch; [lia|].
    rewrite E. simpl. lia.
  - right. destruct (Ht i) as [b Hb].
    { assert (i < next p) by (apply Hr; by left). lia. }
    eexists. by apply (Finish _ i b [] k).
Qed.

(** From every reachable state the pool can finish. *)
Lemma pool_finishes p :
  1 <= cap -> (forall i, i < n -> exists b, task i b) -> pool_inv p ->
  exists p', rtc pool_step p p' /\ pool_done p'.
Proof.
  intros Hcap Ht. remember (pool_measure p) as m eqn:Hm. revert p Hm.
  induction (lt_wf m) as [m _ IH]. intros p -> Hinv.
  destruct (pool_progress p Hcap Ht Hinv) as [Hd|[q Hq]]; [by exists p|].
  destruct (IH (pool_measure q) (pool_step_measure _ _ Hq) q eq_refl) as (p' & Hr & Hd).
  { by eapply pool_step_inv. }
  exists p'. split; [|done]. by eapply rtc_l.
Qed.

(** All together: at most [2 * n] steps, never more than [cap] goroutines, the wait
    ends, and then every index holds a result of its own task. *)
Lemma pool_correct :
  1 <= cap -> (forall i, i < n -> exists b, task i b) ->
  (exists bs, pool_returns bs)
  /\ (forall bs, pool_returns bs -> length bs = n /\ forall i b, bs !! i = Some b -> task i b)
  /\ (forall p k, nsteps pool_step k pool_start p -> k <= 2 * n /\ length (running p) <= cap).
Proof.
  intros Hcap Ht. split_and!.
  - destruct (pool_finishes pool_start Hcap Ht pool_start_inv) as (p & Hr & Hd).
    destruct (pool_done_returns p Hr Hd) as (bs & _ & Hbs). by exists bs.
  - apply pool_returns_spec.
  - intros p k Hk. split.
    + apply pool_steps_bound in Hk. unfold pool_measure, pool_start in Hk. simpl in Hk. lia.
    + apply pool_bounded. apply rtc_nsteps. by exists k.
Qed.

End pool.
Arguments pool B : clear implicits.
