(* ===== verification/ImageTrustModels.v ===== *)
(** * image-trust: data, allowlists and the report

    [image-trust/pkg/models/], [pkg/policy/allowlist.go] and
    [pkg/report/builder.go]: the images found in the cluster and the reference
    under which one is verified, the exemptions, and the report that is sent
    to Insights.  A slice whose nil-ness shows in the JSON ([AllowlistPolicy])
    is an [option]. *)

From stdpp Require Import base decidable list strings.
From Stdlib Require Import ZArith QArith Lia Ascii.
From S2P Require Import Prelude GoStrings GoText.

Local Open Scope Z_scope.

(** ** [pkg/models] *)

Record Resource : Type := {
  r_Name : string;
  r_Kind : string;
  r_Namespace : string;
  r_Container : string
}.

#[global] Instance Resource_eq_dec : EqDecision Resource.
Proof. solve_decision. Defined.

Record DiscoveredImage : Type := {
  Name : string;
  ID : string;
  PullRef : string;
  Owners : list Resource;
  DigestResolveError : string
}.

#[global] Instance DiscoveredImage_eq_dec : EqDecision DiscoveredImage.
Proof. solve_decision. Defined.

Definition Digest (i : DiscoveredImage) : string :=
  if decide (ID i = "") then ""
  else match Split (ID i) "@" with
       | _ :: p :: _ => p
       | _ => ID i
       end.

Definition UniqueKey (i : DiscoveredImage) : string :=
  if decide (ID i <> "") then ID i else Name i.

(** An index of [strings.LastIndex] as the [int] the code compares. *)
Definition idx (o : option nat) : Z :=
  match o with
  | Some i => Z.of_nat i
  | None => -1
  end.

(** The last component of a reference without its tag. *)
Definition cut_tag (ref : string) : string :=
  if idx (LastIndex ref "/") <? idx (LastIndex ref ":")
  then slice_to (Z.to_nat (idx (LastIndex ref ":"))) ref
  else ref.

Definition repositoryFromReference (ref : string) : string :=
  if decide (ref = "") then ""
  else match Index ref "@" with
       | Some i => slice_to i ref
       | None => cut_tag ref
       end.

Definition VerificationReference (i : DiscoveredImage) : string :=
  let from_name := if Contains (Name i) "@sha256:" then Name i else "" in
  if Contains (ID i) "@sha256:" then ID i
  else if HasPrefix (ID i) "sha256:" then
    let repo := repositoryFromReference (Name i) in
    if decide (repo <> "") then repo +:+ "@" +:+ ID i else from_name
  else from_name.

Definition Status : Type := string.
Definition StatusVerified : Status := "verified".
Definition StatusUnsigned : Status := "unsigned".
Definition StatusSignedUntrusted : Status := "signed_untrusted".
Definition StatusVerificationError : Status := "verification_error".
Definition StatusUnknown : Status := "unknown".

(** The statuses of [results.schema]. *)
Definition statuses : list Status :=
  [StatusVerified; StatusUnsigned; StatusSignedUntrusted; StatusVerificationError; StatusUnknown].

Record SignerDetails : Type := {
  Issuer : string;
  Subject : string;
  KeyRef : string
}.

#[global] Instance SignerDetails_eq_dec : EqDecision SignerDetails.
Proof. solve_decision. Defined.

Definition no_signer : SignerDetails := {| Issuer := ""; Subject := ""; KeyRef := "" |}.

Record ImageTrustResult : Type := {
  t_Name : string;
  t_ID : string;
  t_PullRef : string;
  t_Status : Status;
  t_Reason : string;
  t_VerificationMode : string;
  t_VerifiedBy : string;
  t_AttestationType : string;
  t_Allowlisted : bool;
  t_AllowlistReason : string;
  t_Owners : list Resource;
  t_Signer : SignerDetails;
  t_CandidateSigners : list SignerDetails;
  t_DigestResolveError : string;
  t_LastCheckedAt : Z
}.

Definition set_allowlisted (reason : string) (r : ImageTrustResult) : ImageTrustResult :=
  {| t_Name := t_Name r; t_ID := t_ID r; t_PullRef := t_PullRef r; t_Status := t_Status r;
     t_Reason := t_Reason r; t_VerificationMode := t_VerificationMode r;
     t_VerifiedBy := t_VerifiedBy r; t_AttestationType := t_AttestationType r;
     t_Allowlisted := true; t_AllowlistReason := reason; t_Owners := t_Owners r;
     t_Signer := t_Signer r; t_CandidateSigners := t_CandidateSigners r;
     t_DigestResolveError := t_DigestResolveError r; t_LastCheckedAt := t_LastCheckedAt r |}.

Definition set_checked_at (now : Z) (r : ImageTrustResult) : ImageTrustResult :=
  {| t_Name := t_Name r; t_ID := t_ID r; t_PullRef := t_PullRef r; t_Status := t_Status r;
     t_Reason := t_Reason r; t_VerificationMode := t_VerificationMode r;
     t_VerifiedBy := t_VerifiedBy r; t_AttestationType := t_AttestationType r;
     t_Allowlisted := t_Allowlisted r; t_AllowlistReason := t_AllowlistReason r;
     t_Owners := t_Owners r; t_Signer := t_Signer r; t_CandidateSigners := t_CandidateSigners r;
     t_DigestResolveError := t_DigestResolveError r; t_LastCheckedAt := now |}.

Record Finding : Type := {
  ResourceNamespace : string;
  ResourceKind : string;
  ResourceName : string;
  ResourceContainer : string;
  Title : string;
  Description : string;
  Remediation : string;
  Severity : Q;
  Category : string
}.

(** [None] is a nil slice, which is written as [null]. *)
Record AllowlistPolicy : Type := {
  p_Images : option (list string);
  p_Registries : option (list string);
  p_Signers : option (list string)
}.

Record ReportPolicy : Type := { Allowlists : AllowlistPolicy }.

Record Summary : Type := {
  s_TotalImages : Z;
  s_Verified : Z;
  s_Unsigned : Z;
  s_SignedUntrusted : Z;
  s_VerificationError : Z;
  s_Unknown : Z;
  s_Allowlisted : Z
}.

Record Report : Type := {
  rep_Images : list ImageTrustResult;
  rep_Summary : Summary;
  rep_Policy : ReportPolicy;
  rep_Findings : list Finding
}.

Definition VerificationMode : Type := string.
Definition VerificationModeCosignKeyless : VerificationMode := "cosign-keyless".
Definition VerificationModeCosignKey : VerificationMode := "cosign-key".
Definition VerificationModeCosignAttestationKeyless : VerificationMode := "cosign-attestation-keyless".
Definition VerificationModeCosignAttestationKey : VerificationMode := "cosign-attestation-key".

Record VerificationObservation : Type := {
  o_Mode : VerificationMode;
  o_VerifiedBy : VerificationMode;
  o_Status : Status;
  o_Reason : string;
  o_AttestationType : string;
  o_Signer : SignerDetails;
  o_Signers : list SignerDetails
}.

(** A composite literal of [VerificationObservation] with the other fields zero. *)
Definition observation (mode : VerificationMode) (status : Status) (reason : string)
    : VerificationObservation :=
  {| o_Mode := mode; o_VerifiedBy := ""; o_Status := status; o_Reason := reason;
     o_AttestationType := ""; o_Signer := no_signer; o_Signers := [] |}.

(** ** [pkg/policy]: allowlists *)

Record AllowlistMatcher : Type := {
  imagePatterns : list string;
  registryPatterns : list string;
  signerPatterns : list string
}.

Definition NewAllowlistMatcher (images registries signers : list string) : AllowlistMatcher :=
  {| imagePatterns := images; registryPatterns := registries; signerPatterns := signers |}.

Definition registryFromReference (ref : string) : string :=
  if decide (ref = "") then ""
  else
    let candidate := cut_tag (before_first ref "@") in
    let firstSegment := before_first candidate "/" in
    if decide (firstSegment = "localhost") then firstSegment
    else if Contains firstSegment "." || Contains firstSegment ":" then firstSegment
    else "docker.io".

Definition imageCandidates (i : DiscoveredImage) : list string :=
  [Name i; ID i; PullRef i; VerificationReference i].

Definition registryCandidates (i : DiscoveredImage) (r : ImageTrustResult) : list string :=
  [registryFromReference (Name i); registryFromReference (VerificationReference i);
   registryFromReference (t_ID r)].

Definition signer_candidates (s : SignerDetails) : list string :=
  (if decide (Issuer s <> "") then [Issuer s] else [])
  ++ (if decide (Subject s <> "") then [Subject s] else [])
  ++ (if decide (Issuer s <> "" \/ Subject s <> "") then [Issuer s +:+ "|" +:+ Subject s] else []).

Definition signerCandidates (r : ImageTrustResult) : list string :=
  mjoin (signer_candidates <$> t_CandidateSigners r)
  ++ (let s := t_Signer r in
      if decide (Issuer s <> "" \/ Subject s <> "")
      then [Issuer s; Subject s; Issuer s +:+ "|" +:+ Subject s] else []).

Inductive AllowlistError : Type :=
| MatchingError (kind pattern e : string)
| LengthMismatch (images results : Z).

Section allowlist.

(** [doublestar.Match]: an error when the pattern is malformed. *)
Context (Match : string -> string -> result string bool).

(** The two nested loops over the patterns and the candidates of one kind. *)
Fixpoint match_candidates (kind pattern : string) (cs : list string)
    : result AllowlistError (option string) :=
  match cs with
  | [] => Ok None
  | c :: cs' =>
      if decide (c = "") then match_candidates kind pattern cs'
      else match Match pattern c with
           | Err e => Err (MatchingError kind pattern e)
           | Ok true => Ok (Some (kind +:+ " allowlist matched: " +:+ pattern))
           | Ok false => match_candidates kind pattern cs'
           end
  end.

Fixpoint match_patterns (kind : string) (ps cs : list string) : result AllowlistError (option string) :=
  match ps with
  | [] => Ok None
  | p :: ps' =>
      match match_candidates kind p cs with
      | Ok None => match_patterns kind ps' cs
      | r => r
      end
  end.

(** [match]: the reason of the first rule that matches, in the order images,
    registries, signers. *)
Definition match_image (m : AllowlistMatcher) (i : DiscoveredImage) (r : ImageTrustResult)
    : result AllowlistError (option string) :=
  match match_patterns "image" (imagePatterns m) (imageCandidates i) with
  | Ok None =>
      match match_patterns "registry" (registryPatterns m) (registryCandidates i r) with
      | Ok None => match_patterns "signer" (signerPatterns m) (signerCandidates r)
      | x => x
      end
  | x => x
  end.

Definition apply_one (reason : option string) (r : ImageTrustResult) : ImageTrustResult :=
  match reason with
  | Some why => set_allowlisted why r
  | None => r
  end.

Fixpoint apply_all (m : AllowlistMatcher) (imgs : list DiscoveredImage)
    (rs : list ImageTrustResult) : result AllowlistError (list ImageTrustResult) :=
  match imgs, rs with
  | i :: imgs', r :: rs' =>
      match match_image m i r with
      | Err e => Err e
      | Ok reason =>
          match apply_all m imgs' rs' with
          | Err e => Err e
          | Ok rs'' => Ok (apply_one reason r :: rs'')
          end
      end
  | _, _ => Ok []
  end.

Definition Apply (m : AllowlistMatcher) (imgs : list DiscoveredImage) (rs : list ImageTrustResult)
    : result AllowlistError (list ImageTrustResult) :=
  if decide (length imgs = length rs) then apply_all m imgs rs
  else Err (LengthMismatch (lenZ imgs) (lenZ rs)).

End allowlist.

(** ** [pkg/report]: the report *)

Definition findingsCategory : string := "ImageTrust".
Definition verificationErrorSeverity : Q := 3 # 10.
Definition nonCompliantSeverity : Q := 7 # 10.

Definition imageReference (r : ImageTrustResult) : string :=
  if decide (t_ID r <> "") then t_ID r
  else if decide (t_Name r <> "") then t_Name r
  else "(unknown image)".

Definition detailsForStatus (r : ImageTrustResult) : string * string * string * Q :=
  let imageRef := imageReference r in
  if decide (t_Status r = StatusUnsigned) then
    ("Container image is unsigned",
     "The image-trust plugin did not find a matching Cosign signature for image " +:+ imageRef +:+ ".",
     "Sign the image in CI with Cosign keyless signing and redeploy the workload using the signed digest reference.",
     nonCompliantSeverity)
  else if decide (t_Status r = StatusSignedUntrusted) then
    ("Container image is signed by an untrusted signer",
     "The image-trust plugin verified a Cosign signature on image " +:+ imageRef +:+ ", but the signer did not match the configured trusted issuer/subject policy.",
     "Update signer trust configuration or publish the image using an approved signing identity.",
     nonCompliantSeverity)
  else if decide (t_Status r = StatusVerificationError) then
    if decide (t_DigestResolveError r <> "") then
      ("Container image digest could not be resolved",
       "The image-trust plugin could not resolve image " +:+ imageRef +:+ " to a digest before signature verification: " +:+ t_DigestResolveError r,
       "Fix registry authentication (IMAGE_TRUST_REGISTRY_AUTHS or REGISTRY_PASSWORD_FILE), network access, and mirror mapping (IMAGE_TRUST_REGISTRY_MIRRORS).",
       verificationErrorSeverity)
    else
      ("Container image trust could not be verified",
       "The image-trust plugin encountered an operational error while verifying image " +:+ imageRef +:+ ": " +:+ t_Reason r,
       "Fix registry access, network connectivity, or verifier configuration and rerun the report.",
       verificationErrorSeverity)
  else if decide (t_Status r = StatusUnknown) then
    ("Container image trust is unknown",
     "The image-trust plugin could not resolve image " +:+ imageRef +:+ " to an immutable digest reference for Cosign verification.",
     "Ensure the workload resolves to a digest-backed image reference or that runtime image metadata is available.",
     verificationErrorSeverity)
  else
    ("Container image trust requires attention",
     "Image trust status for " +:+ imageRef +:+ " requires review.",
     "Review image trust configuration and rerun the report.",
     verificationErrorSeverity).

Definition buildFinding (owner : Resource) (r : ImageTrustResult) : Finding :=
  let '(title, description, remediation, severity) := detailsForStatus r in
  {| ResourceNamespace := r_Namespace owner; ResourceKind := r_Kind owner;
     ResourceName := r_Name owner; ResourceContainer := r_Container owner;
     Title := title; Description := description; Remediation := remediation;
     Severity := severity; Category := findingsCategory |}.

Definition bump (b : bool) (n : Z) : Z := if b then n + 1 else n.

Definition has_status (st : Status) (r : ImageTrustResult) : bool := bool_decide (t_Status r = st).

(** The switch on the status: the constants differ, so the cases exclude each other. *)
Definition incrementSummary (s : Summary) (r : ImageTrustResult) : Summary :=
  {| s_TotalImages := s_TotalImages s;
     s_Verified := bump (has_status StatusVerified r) (s_Verified s);
     s_Unsigned := bump (has_status StatusUnsigned r) (s_Unsigned s);
     s_SignedUntrusted := bump (has_status StatusSignedUntrusted r) (s_SignedUntrusted s);
     s_VerificationError := bump (has_status StatusVerificationError r) (s_VerificationError s);
     s_Unknown := bump (has_status StatusUnknown r) (s_Unknown s);
     s_Allowlisted := bump (t_Allowlisted r) (s_Allowlisted s) |}.

(** One round of the loop of [Build]. *)
Definition build_step (acc : Summary * list Finding) (r : ImageTrustResult) : Summary * list Finding :=
  let '(summary, findings) := acc in
  let summary' := incrementSummary summary r in
  if t_Allowlisted r || has_status StatusVerified r then (summary', findings)
  else (summary', findings ++ ((fun owner => buildFinding owner r) <$> t_Owners r)).

Definition initial_summary (n : Z) : Summary :=
  {| s_TotalImages := n; s_Verified := 0; s_Unsigned := 0; s_SignedUntrusted := 0;
     s_VerificationError := 0; s_Unknown := 0; s_Allowlisted := 0 |}.

Definition Build (results : list ImageTrustResult) (policy : ReportPolicy) : Report :=
  let '(summary, findings) := foldl build_step (initial_summary (lenZ results), []) results in
  {| rep_Images := results; rep_Summary := summary; rep_Policy := policy; rep_Findings := findings |}.

(** [append([]T(nil), xs...)]: nil when there is nothing to append. *)
Definition append_nil {A} (xs : option (list A)) : option (list A) :=
  match xs with
  | Some (x :: xs') => Some (x :: xs')
  | _ => None
  end.

Definition PolicyFromAllowlists (images registries signers : option (list string)) : ReportPolicy :=
  let or_empty (xs : option (list string)) := match xs with None => Some [] | x => x end in
  {| Allowlists :=
       {| p_Images := append_nil (or_empty images);
          p_Registries := append_nil (or_empty registries);
          p_Signers := append_nil (or_empty signers) |} |}.

(** ** The reference under which an image is verified *)

Lemma cut_tag_nil : cut_tag "" = "".
Proof. done. Qed.

(** An image is only ever verified under a reference that pins a digest: the
    verification reference is empty or contains [@sha256:]; and when the
    image id is a bare digest, the reference ends with exactly that id. *)
Theorem VerificationReference_immutable i :
  (VerificationReference i = "" \/ Contains (VerificationReference i) "@sha256:" = true)
  /\ (HasPrefix (ID i) "sha256:" = true -> Contains (ID i) "@sha256:" = false ->
      repositoryFromReference (Name i) <> "" ->
      VerificationReference i = repositoryFromReference (Name i) +:+ "@" +:+ ID i).
Proof.
  unfold VerificationReference. split.
  - destruct (Contains (ID i) "@sha256:") eqn:E1; [by right|].
    destruct (HasPrefix (ID i) "sha256:") eqn:E2.
    + cbv zeta. case_decide as Hr.
      * right. apply HasPrefix_spec in E2 as [t ->]. apply Contains_app_l.
        change (Contains ("@sha256:" +:+ t) "@sha256:" = true). apply Contains_refl.
      * destruct (Contains (Name i) _) eqn:E3; [by right|by left].
    + destruct (Contains (Name i) _) eqn:E3; [by right|by left].
  - intros -> -> Hr. cbv zeta. by rewrite decide_True.
Qed.

(** The repository of a reference has neither a digest. *)
Lemma repositoryFromReference_no_digest ref :
  "@"%char ∉ chars (repositoryFromReference ref) \/ Index ref "@" = None.
Proof.
  unfold repositoryFromReference. case_decide as H; [left; apply not_elem_of_nil|].
  destruct (Index ref "@") as [i|] eqn:E; [left|by right].
  pose proof (before_first_no_sep ref "@") as Hb. unfold before_first in Hb. by rewrite E in Hb.
Qed.

(** ** Allowlists *)

Section allowlist_facts.
Context (Match : string -> string -> result string bool).

(** A rule of the kind [ps] applies to the candidates [cs]. *)
Definition rule_applies (ps cs : list string) : Prop :=
  exists p c, p ∈ ps /\ c ∈ cs /\ c <> "" /\ Match p c = Ok true.

(** The specification of an exemption: some configured pattern matches. *)
Definition exempt (m : AllowlistMatcher) (i : DiscoveredImage) (r : ImageTrustResult) : Prop :=
  rule_applies (imagePatterns m) (imageCandidates i)
  \/ rule_applies (registryPatterns m) (registryCandidates i r)
  \/ rule_applies (signerPatterns m) (signerCandidates r).

Context (well_formed : forall p c, exists b, Match p c = Ok b).

Lemma match_candidates_spec kind p cs :
  exists o, match_candidates Match kind p cs = Ok o
    /\ (o <> None <-> exists c, c ∈ cs /\ c <> "" /\ Match p c = Ok true).
Proof.
  induction cs as [|c cs (o & IH1 & IH2)]; simpl.
  - exists None. split; [done|]. split; [done|]. by intros (c & ?%not_elem_of_nil & _).
  - case_decide as Hc.
    + exists o. split; [done|]. rewrite IH2. split.
      * intros (d & Hd & Hr). exists d. split; [by right|done].
      * intros (d & Hd & Hne & Hr). apply elem_of_cons in Hd as [->|Hd]; [done|]. by exists d.
    + destruct (well_formed p c) as [[] Hm]; rewrite Hm.
      * eexists. split; [done|]. split; [intros _|done]. exists c. split; [by left|done].
      * exists o. split; [done|]. rewrite IH2. split.
        -- intros (d & Hd & Hr). exists d. split; [by right|done].
        -- intros (d & Hd & Hne & Hr). apply elem_of_cons in Hd as [->|Hd]; [congruence|]. by exists d.
Qed.

Lemma match_patterns_spec kind ps cs :
  exists o, match_patterns Match kind ps cs = Ok o /\ (o <> None <-> rule_applies ps cs).
Proof.
  unfold rule_applies. induction ps as [|p ps (o & IH1 & IH2)]; simpl.
  - exists None. split; [done|]. split; [done|]. by intros (p & c & ?%not_elem_of_nil & _).
  - destruct (match_candidates_spec kind p cs) as ([why|] & -> & Ho).
    + exists (Some why). split; [done|]. split; [intros _|done].
      destruct (proj1 Ho ltac:(done)) as (c & ? & ? & ?). exists p, c. split; [by left|done].
    + exists o. split; [done|]. rewrite IH2. split.
      * intros (p' & c & Hp & Hr). exists p', c. split; [by right|done].
      * intros (p' & c & Hp & Hc & Hne & Hm). apply elem_of_cons in Hp as [->|Hp].
        -- exfalso. by apply (proj2 Ho); [exists c|].
        -- by exists p', c.
Qed.

Lemma match_image_spec m i r :
  exists o, match_image Match m i r = Ok o /\ (o <> None <-> exempt m i r).
Proof.
  unfold match_image, exempt.
  destruct (match_patterns_spec "image" (imagePatterns m) (imageCandidates i)) as ([w1|] & -> & H1);
    [exists (Some w1); split; [done|]; rewrite <-H1; intuition congruence|].
  destruct (match_patterns_spec "registry" (registryPatterns m) (registryCandidates i r))
    as ([w2|] & -> & H2); [exists (Some w2); split; [done|]; rewrite <-H2; intuition congruence|].
  destruct (match_patterns_spec "signer" (signerPatterns m) (signerCandidates r)) as (o & -> & H3).
  exists o. split; [done|]. rewrite H3, <-H1, <-H2. intuition congruence.
Qed.

Lemma apply_one_spec o r :
  t_Allowlisted (apply_one o r) = t_Allowlisted r || bool_decide (o <> None)
  /\ (t_Name (apply_one o r), t_ID (apply_one o r), t_Status (apply_one o r),
      t_Reason (apply_one o r), t_Owners (apply_one o r), t_Signer (apply_one o r))
     = (t_Name r, t_ID r, t_Status r, t_Reason r, t_Owners r, t_Signer r).
Proof. destruct o; simpl; [by rewrite orb_true_r|by rewrite orb_false_r]. Qed.

(** How a result is related to the one it was before the allowlists. *)
Definition exempted (m : AllowlistMatcher) (i : DiscoveredImage) (r r' : ImageTrustResult) : Prop :=
  (t_Allowlisted r' = true <-> t_Allowlisted r = true \/ exempt m i r)
  /\ (t_Name r', t_ID r', t_Status r', t_Reason r', t_Owners r', t_Signer r')
     = (t_Name r, t_ID r, t_Status r, t_Reason r, t_Owners r, t_Signer r).

Lemma apply_all_spec m imgs rs :
  length imgs = length rs ->
  exists rs', apply_all Match m imgs rs = Ok rs'
    /\ Forall3 (exempted m) imgs rs rs'.
Proof.
  revert rs. induction imgs as [|i imgs IH]; intros [|r rs] Hlen; simpl; try done.
  - exists []. split; [done|]. constructor.
  - destruct (match_image_spec m i r) as (o & -> & Ho).
    destruct (IH rs ltac:(simpl in Hlen; lia)) as (rs' & -> & Hrs).
    eexists. split; [done|]. constructor; [|done].
    destruct (apply_one_spec o r) as [Ha Hf]. split; [|done].
    rewrite Ha, orb_true_iff, bool_decide_eq_true. by rewrite Ho.
Qed.

End allowlist_facts.

(** With patterns that are well formed the allowlists never fail on a result per
    image, and they mark exactly the results for which some configured
    pattern matches a nonempty name, registry or signer of the image; the
    status, the reason, the owners and the signer of a result are left alone. *)
Theorem Apply_exempts_exactly Match m imgs rs :
  (forall p c, exists b, Match p c = Ok b) -> length imgs = length rs ->
  exists rs', Apply Match m imgs rs = Ok rs' /\ Forall3 (exempted Match m) imgs rs rs'.
Proof.
  intros Hwf Hlen. unfold Apply. rewrite decide_True by done. by apply apply_all_spec.
Qed.

Definition plain_image : DiscoveredImage :=
  {| Name := "ghcr.io/example/api:1.0.0"; ID := "ghcr.io/example/api@sha256:abc"; PullRef := "";
     Owners := []; DigestResolveError := "" |}.

Definition plain_result : ImageTrustResult :=
  {| t_Name := Name plain_image; t_ID := ID plain_image; t_PullRef := ""; t_Status := StatusUnsigned;
     t_Reason := ""; t_VerificationMode := ""; t_VerifiedBy := ""; t_AttestationType := "";
     t_Allowlisted := false; t_AllowlistReason := ""; t_Owners := []; t_Signer := no_signer;
     t_CandidateSigners := []; t_DigestResolveError := ""; t_LastCheckedAt := 0 |}.

(** Patterns without wildcards match themselves. *)
Definition literal_match (p c : string) : result string bool := Ok (bool_decide (p = c)).

Lemma Apply_exempts_exactly_witness :
  exists rs', Apply literal_match (NewAllowlistMatcher [] ["ghcr.io"] []) [plain_image] [plain_result]
    = Ok rs' /\ Forall3 (exempted literal_match (NewAllowlistMatcher [] ["ghcr.io"] []))
                  [plain_image] [plain_result] rs'.
Proof. apply Apply_exempts_exactly; [by eexists|done]. Defined.

Example literal_match_exempts :
  match_image literal_match (NewAllowlistMatcher [] ["ghcr.io"] []) plain_image plain_result
  = Ok (Some "registry allowlist matched: ghcr.io").
Proof. vm_compute. reflexivity. Qed.

(** The registry that is read off a bare digest is Docker Hub. *)
Lemma registryFromReference_bare_digest hex :
  "/"%char ∉ chars hex -> ":"%char ∉ chars hex -> "@"%char ∉ chars hex ->
  registryFromReference ("sha256:" +:+ hex) = "docker.io".
Proof.
  intros Hs Hc Ha. unfold registryFromReference. rewrite decide_False by done.
  assert (forall c, c ∉ chars "sha256:" -> c ∉ chars hex -> c ∉ chars ("sha256:" +:+ hex)) as Hno.
  { intros c H1 H2. by rewrite chars_app, not_elem_of_app. }
  rewrite (before_first_none _ "@") by (apply Hno; [by apply (bool_decide_unpack _)|done]).
  unfold cut_tag. rewrite (LastIndex_none _ "/") by (apply Hno; [by apply (bool_decide_unpack _)|done]).
  change ("sha256:" +:+ hex) with ("sha256" +:+ String ":" hex).
  rewrite LastIndex_split by done. cbn [idx slen].
  change (idx None <? idx (Some (slen "sha256"))) with true. cbv iota.
  unfold slice_to. rewrite chars_app. cbn [idx]. rewrite Nat2Z.id. unfold slen. rewrite take_app_length. done.
Qed.

(** Exempting Docker Hub exempts images of every other registry that the cluster
    reports by a bare digest: when a result's id is [sha256:] and a digest,
    the id counts as a reference to Docker Hub, so the registry rule
    [docker.io] applies to it wherever the image comes from. *)
Theorem registry_allowlist_bare_digest Match m i r hex :
  (forall p c, exists b, Match p c = Ok b) -> Match "docker.io" "docker.io" = Ok true ->
  registryPatterns m = ["docker.io"] -> t_ID r = "sha256:" +:+ hex ->
  "/"%char ∉ chars hex -> ":"%char ∉ chars hex -> "@"%char ∉ chars hex ->
  exists why r', Apply Match m [i] [r] = Ok [r'] /\ match_image Match m i r = Ok (Some why)
    /\ t_Allowlisted r' = true.
Proof.
  intros Hwf Hm Hp Hid Hs Hc Ha.
  destruct (match_image_spec Match Hwf m i r) as (o & Ho & Hex).
  assert (exempt Match m i r) as He.
  { right. left. exists "docker.io", "docker.io". rewrite Hp. split_and!; [by left| |done|done].
    unfold registryCandidates. rewrite Hid, registryFromReference_bare_digest by done.
    right. right. by left. }
  apply Hex in He. destruct o as [why|]; [|done]. exists why, (set_allowlisted why r).
  split_and!; [|done|done]. unfold Apply. rewrite decide_True by done. simpl. by rewrite Ho.
Qed.

Definition bare_image : DiscoveredImage :=
  {| Name := "ghcr.io/example/api:1.0.0"; ID := "sha256:abc"; PullRef := "";
     Owners := []; DigestResolveError := "" |}.

Definition bare_result : ImageTrustResult :=
  {| t_Name := "ghcr.io/example/api:1.0.0"; t_ID := "sha256:abc"; t_PullRef := "";
     t_Status := StatusUnsigned; t_Reason := ""; t_VerificationMode := ""; t_VerifiedBy := "";
     t_AttestationType := ""; t_Allowlisted := false; t_AllowlistReason := ""; t_Owners := [];
     t_Signer := no_signer; t_CandidateSigners := []; t_DigestResolveError := "";
     t_LastCheckedAt := 0 |}.

Lemma registry_allowlist_bare_digest_witness :
  exists why r', Apply literal_match (NewAllowlistMatcher [] ["docker.io"] []) [bare_image] [bare_result]
      = Ok [r']
    /\ match_image literal_match (NewAllowlistMatcher [] ["docker.io"] []) bare_image bare_result
      = Ok (Some why)
    /\ t_Allowlisted r' = true.
Proof.
  apply (registry_allowlist_bare_digest literal_match _ _ _ "abc");
    first [by eexists | done | by apply (bool_decide_unpack _)].
Defined.

(** ** The report *)

(** How many results satisfy [p]. *)
Definition countZ (p : ImageTrustResult -> bool) (rs : list ImageTrustResult) : Z :=
  lenZ (filter (fun r => p r = true) rs).

Definition noncompliant (r : ImageTrustResult) : bool :=
  negb (t_Allowlisted r || has_status StatusVerified r).

(** The findings as a comprehension. *)
Definition findings_of (rs : list ImageTrustResult) : list Finding :=
  rs ≫= fun r => if noncompliant r then (fun owner => buildFinding owner r) <$> t_Owners r else [].

Lemma countZ_cons p r rs : countZ p (r :: rs) = bump (p r) (countZ p rs).
Proof.
  unfold countZ. rewrite filter_cons. destruct (p r) eqn:E; simpl.
  - unfold lenZ. simpl. lia.
  - done.
Qed.

Definition add_counts (rs : list ImageTrustResult) (s : Summary) : Summary :=
  {| s_TotalImages := s_TotalImages s;
     s_Verified := s_Verified s + countZ (has_status StatusVerified) rs;
     s_Unsigned := s_Unsigned s + countZ (has_status StatusUnsigned) rs;
     s_SignedUntrusted := s_SignedUntrusted s + countZ (has_status StatusSignedUntrusted) rs;
     s_VerificationError := s_VerificationError s + countZ (has_status StatusVerificationError) rs;
     s_Unknown := s_Unknown s + countZ (has_status StatusUnknown) rs;
     s_Allowlisted := s_Allowlisted s + countZ t_Allowlisted rs |}.

Lemma bump_add b n k : bump b n + k = n + bump b k.
Proof. destruct b; simpl; lia. Qed.

Lemma build_fold rs s fs :
  foldl build_step (s, fs) rs = (add_counts rs s, fs ++ findings_of rs).
Proof.
  revert s fs. induction rs as [|r rs IH]; intros s fs; cbn [foldl].
  - unfold add_counts, countZ, findings_of. simpl. rewrite app_nil_r. destruct s; simpl.
    unfold lenZ. simpl. by rewrite !Z.add_0_r.
  - unfold build_step at 2. cbv zeta.
    assert (add_counts rs (incrementSummary s r) = add_counts (r :: rs) s) as E.
    { unfold add_counts, incrementSummary. simpl. by rewrite !countZ_cons, !bump_add. }
    unfold findings_of. rewrite bind_cons. unfold noncompliant at 1.
    destruct (t_Allowlisted r || has_status StatusVerified r); simpl; rewrite IH, E; [done|].
    by rewrite <-app_assoc.
Qed.

Lemma Build_eq rs p :
  Build rs p = {| rep_Images := rs;
                  rep_Summary := add_counts rs (initial_summary (lenZ rs));
                  rep_Policy := p; rep_Findings := findings_of rs |}.
Proof. unfold Build. by rewrite build_fold. Qed.

(** Every result counts under exactly one of the statuses. *)
Lemma counts_partition rs :
  Forall (fun r => t_Status r ∈ statuses) rs ->
  countZ (has_status StatusVerified) rs + countZ (has_status StatusUnsigned) rs
  + countZ (has_status StatusSignedUntrusted) rs + countZ (has_status StatusVerificationError) rs
  + countZ (has_status StatusUnknown) rs = lenZ rs.
Proof.
  induction 1 as [|r rs Hr _ IH]; [done|]. rewrite !countZ_cons.
  assert (lenZ (r :: rs) = lenZ rs + 1) as -> by (unfold lenZ; simpl; lia).
  rewrite <-IH. unfold statuses in Hr.
  assert (forall st, has_status st r = bool_decide (t_Status r = st)) as Hh by done. rewrite !Hh.
  rewrite !elem_of_cons, elem_of_nil in Hr.
  destruct Hr as [->|[->|[->|[->|[->|[]]]]]]; simpl; lia.
Qed.

Lemma countZ_bounds p rs : 0 <= countZ p rs <= lenZ rs.
Proof. unfold countZ, lenZ. pose proof (length_filter (fun r => p r = true) rs). lia. Qed.

(** The summary of a report adds up: it counts the images of the report under
    their statuses, when all statuses are among the five the schema knows the
    five counts sum to the number of images, and the exempted are among them. *)
Theorem Build_summary_adds_up rs p :
  Forall (fun r => t_Status r ∈ statuses) rs ->
  let s := rep_Summary (Build rs p) in
  s_TotalImages s = lenZ rs
  /\ s_Verified s + s_Unsigned s + s_SignedUntrusted s + s_VerificationError s + s_Unknown s
     = s_TotalImages s
  /\ s_Verified s = countZ (has_status StatusVerified) rs
  /\ s_Allowlisted s = countZ t_Allowlisted rs
  /\ 0 <= s_Allowlisted s <= s_TotalImages s.
Proof.
  intros Hrs. rewrite Build_eq. simpl. rewrite !Z.add_0_l.
  pose proof (countZ_bounds t_Allowlisted rs). by rewrite counts_partition.
Qed.

Lemma Build_summary_adds_up_witness :
  let s := rep_Summary (Build [plain_result] (PolicyFromAllowlists None None None)) in
  s_TotalImages s = 1
  /\ s_Verified s + s_Unsigned s + s_SignedUntrusted s + s_VerificationError s + s_Unknown s
     = s_TotalImages s
  /\ s_Verified s = countZ (has_status StatusVerified) [plain_result]
  /\ s_Allowlisted s = countZ t_Allowlisted [plain_result]
  /\ 0 <= s_Allowlisted s <= s_TotalImages s.
Proof. apply (Build_summary_adds_up [plain_result]). repeat constructor. Defined.

Lemma length_findings_of rs :
  lenZ (findings_of rs) = sumZ ((fun r => lenZ (t_Owners r)) <$> filter (fun r => noncompliant r = true) rs).
Proof.
  induction rs as [|r rs IH]; [done|]. unfold findings_of. rewrite bind_cons, lenZ_app.
  fold (findings_of rs). rewrite IH, filter_cons. destruct (noncompliant r) eqn:E.
  - rewrite decide_True by done. rewrite fmap_cons, sumZ_cons. f_equal.
    unfold lenZ. by rewrite length_fmap.
  - by rewrite decide_False by done.
Qed.

(** The findings of a report are exactly those of its non-compliant images: there is
    one for every owner of every image that is neither verified nor exempted,
    nothing else, and it is severe exactly when the image is unsigned or
    signed by someone who is not trusted. *)
Theorem Build_findings_exact rs p :
  let fs := rep_Findings (Build rs p) in
  (forall f, f ∈ fs <->
     exists r owner, r ∈ rs /\ t_Allowlisted r = false /\ t_Status r <> StatusVerified
       /\ owner ∈ t_Owners r /\ f = buildFinding owner r)
  /\ lenZ fs = sumZ ((fun r => lenZ (t_Owners r)) <$> filter (fun r => noncompliant r = true) rs)
  /\ (forall r owner, Severity (buildFinding owner r) = nonCompliantSeverity
        <-> t_Status r = StatusUnsigned \/ t_Status r = StatusSignedUntrusted).
Proof.
  cbv zeta. rewrite Build_eq. simpl. split_and!; [|apply length_findings_of|].
  - intros f. unfold findings_of. rewrite list_elem_of_bind. split.
    + intros (r & Hf & Hr). exists r. destruct (noncompliant r) eqn:E; [|by apply not_elem_of_nil in Hf].
      apply list_elem_of_fmap in Hf as (o & -> & Ho). exists o.
      unfold noncompliant, has_status in E. to_prop. done.
    + intros (r & o & Hr & Ha & Hs & Ho & ->). exists r. split; [|done].
      unfold noncompliant, has_status. rewrite Ha, bool_decide_false by done. simpl.
      apply list_elem_of_fmap. by exists o.
  - intros r o. unfold buildFinding, detailsForStatus.
    repeat case_decide; simpl; split; try done; try (by left); try (by right); intros [?|?]; congruence.
Qed.

(** A policy without patterns is written as null: the guards that replace a nil
    slice by an empty one have no effect, because appending nothing to nil is
    nil again, although the schema of the report requires arrays. *)
Theorem PolicyFromAllowlists_empty_is_null images registries signers :
  (p_Images (Allowlists (PolicyFromAllowlists images registries signers)) = None
   <-> default [] images = [])
  /\ (default [] images <> [] ->
      p_Images (Allowlists (PolicyFromAllowlists images registries signers)) = images)
  /\ Allowlists (PolicyFromAllowlists None None None)
     = {| p_Images := None; p_Registries := None; p_Signers := None |}.
Proof. destruct images as [[|x l]|]; simpl; done. Qed.
