(* ===== verification/ImageTrustConfig.v ===== *)
(** * image-trust: configuration

    [image-trust/pkg/config/] and [pkg/sigstore/env.go]: what the plugin reads
    from its environment, from files named there and from the public key
    directory, and the validation of the result.  The operating system is the
    record [OS]; the decoding of the JSON list of registry credentials is a
    parameter. *)

From stdpp Require Import base decidable list gmap strings.
From Stdlib Require Import ZArith Lia Ascii.
From S2P Require Import Prelude GoStrings GoText.

Local Open Scope Z_scope.

(** ** The operating system *)

Record FileInfo : Type := { IsDir : bool; Size : Z }.

Record OS : Type := {
  Getenv : string -> string;
  ReadFile : string -> result string string;
  Stat : string -> result string FileInfo;
  ReadDir : string -> result string (list (string * bool));
  Getwd : string
}.

(** ** Constants *)

Definition ModeCosignKeyless : string := "cosign-keyless".
Definition ModeCosignKey : string := "cosign-key".
Definition ModeCosignAttestationKeyless : string := "cosign-attestation-keyless".
Definition ModeCosignAttestationKey : string := "cosign-attestation-key".
Definition ModePolicyAny : string := "any".
Definition ModePolicyAll : string := "all".

Definition supported_modes : list string :=
  [ModeCosignKeyless; ModeCosignKey; ModeCosignAttestationKeyless; ModeCosignAttestationKey].

Definition DefaultMaxConcurrentScans : Z := 5.
Definition DefaultImageVerifyTimeout : Z := 3 * GoTime.Minute.
Definition MaxTrustedSubjectRegexpLen : nat := 512.
Definition MaxTrustedSubjectRegexpCount : nat := 32.
Definition MaxPublicKeyFiles : nat := 32.
Definition MaxPublicKeyBytes : Z := 64 * 1024.

(** ** Data *)

Record TrustedPublicKey : Type := { k_Ref : string; k_ID : string }.

Record RegistryAuth : Type := { a_Host : string; a_Username : string; a_Password : string }.

Record registrySettings : Type := {
  g_Auths : list RegistryAuth;
  g_Mirrors : option (gmap string string);
  g_CertDirs : option (gmap string string);
  g_User : string;
  g_Password : string;
  g_CertDir : string;
  g_DockerConfigDir : string
}.

Record Config : Type := {
  NamespaceAllowlist : list string;
  NamespaceBlocklist : list string;
  VerificationModes : list string;
  ModePolicy : string;
  TrustedIssuers : list string;
  TrustedSubjects : list string;
  TrustedSubjectREs : list string;
  PublicKeyPaths : list string;
  PublicKeyRefs : list string;
  PublicKeyDir : string;
  TrustedPublicKeys : list TrustedPublicKey;
  IgnoreTlog : bool;
  SignerAllowlist : list string;
  ImageAllowlist : list string;
  RegistryAllowlist : list string;
  MaxConcurrentScans : Z;
  ImageVerifyTimeout : Z;
  ResolveDigests : bool;
  RegistryAuthHost : string;
  Registry : registrySettings;
  AttestationTypes : list string;
  AttestationsEnabled : bool;
  VerifyRetries : Z;
  VerifyRetryBackoff : Z;
  VerifyRetryJitter : bool;
  SigstoreEnvFile : string;
  SigstoreEnv : list string
}.

Inductive ConfigError : Type :=
| NotANumber (name : string)
| TooSmall (name : string)
| ReadingFile (name e : string)
| InvalidJSON (e : string)
| AuthMissingHost (i : nat)
| InvalidPair (pair : string)
| NamespaceOverlap (overlap : list string)
| UnsupportedMode (mode : string)
| UnsupportedPolicy (policy : string)
| MissingTrustPolicy (mode : string)
| MissingPublicKeys (mode : string)
| MissingAttestationTypes
| NoAttestationMode
| TooManyRegexps
| RegexpTooLong
| TooManyPublicKeys
| RefNotURI (ref : string)
| NoPublicKeys
| PublicKeyError (ref : string)
| DockerConfigError (path : string)
| SigstoreError (e : string).

Abbreviation fallible := (result ConfigError).

(** [if cond { return err }]. *)
Definition reject_if (cond : bool) (e : ConfigError) : fallible unit :=
  if cond then Err e else Ok tt.

(** ** Values from the environment *)

Section environment.
Context (os : OS).

Definition is_blank (s : string) : bool := bool_decide (TrimSpace s = "").

(** The comma-separated values that are not blank, trimmed. *)
Definition csv_values (raw : string) : list string :=
  filter (fun v => v <> "") (TrimSpace <$> Split raw ",").

Definition parseCSVEnv (name : string) : list string :=
  if decide (Getenv os name = "") then [] else csv_values (Getenv os name).

Definition parseLowerCSVEnv (name : string) : list string := ToLower <$> parseCSVEnv name.

Definition parseBoolEnvDefault (name : string) (defaultValue : bool) : bool :=
  let raw := TrimSpace (ToLower (Getenv os name)) in
  if decide (raw = "") then defaultValue
  else if decide (raw = "0" \/ raw = "false" \/ raw = "no") then false
  else bool_decide (raw = "1" \/ raw = "true" \/ raw = "yes").

Definition parseBoolEnv (name : string) : bool := parseBoolEnvDefault name false.

(** A number of the environment: [dflt] when the variable is empty, an error
    when it is not a number or below [least]. *)
Definition atoi_env (name : string) (least dflt : Z) (convert : Z -> Z) : fallible Z :=
  if decide (Getenv os name = "") then Ok dflt
  else match ParseInt (Getenv os name) with
       | ParsedOk v => if v <? least then Err (TooSmall name) else Ok (convert v)
       | _ => Err (NotANumber name)
       end.

(** [time.Duration(value) * time.Second]. *)
Definition seconds (v : Z) : Z := GoInt.i64 (v * GoTime.Second).

(** ** Modes *)

(** One round of the loop of [dedupeModes]. *)
Definition dedupe_step (acc : gset string * list string) (mode : string) : gset string * list string :=
  let '(seen, deduped) := acc in
  if decide (mode ∈ seen) then acc else ({[mode]} ∪ seen, deduped ++ [mode]).

Definition dedupeModes (modes : list string) : list string :=
  snd (foldl dedupe_step (∅, []) modes).

Definition modeEnabled (modes : list string) (mode : string) : bool := bool_decide (mode ∈ modes).

Definition wantsAttestations (attestationsEnabled : bool) (types : list string) : bool :=
  attestationsEnabled || negb (bool_decide (types = [])).

(** [ResolveVerificationModes] on the fields it reads; it assigns the modes. *)
Definition ResolveVerificationModes (attestationsEnabled : bool) (types modes0 : list string)
    : list string :=
  if negb (wantsAttestations attestationsEnabled types) then modes0
  else
    let modes := dedupeModes modes0 in
    let modes :=
      if modeEnabled modes0 ModeCosignKeyless && negb (modeEnabled modes ModeCosignAttestationKeyless)
      then modes ++ [ModeCosignAttestationKeyless] else modes in
    let modes :=
      if modeEnabled modes0 ModeCosignKey && negb (modeEnabled modes ModeCosignAttestationKey)
      then modes ++ [ModeCosignAttestationKey] else modes in
    dedupeModes modes.

(** ** Registry settings *)

Context (json_auths : string -> result string (list RegistryAuth)).

Definition envValueOrFile (envKey fileEnvKey : string) : fallible string :=
  let path := TrimSpace (Getenv os fileEnvKey) in
  if decide (path <> "") then
    match ReadFile os path with
    | Err e => Err (ReadingFile fileEnvKey e)
    | Ok data => Ok data
    end
  else Ok (TrimSpace (Getenv os envKey)).

(** The loop over the credentials that looks for one without a host. *)
Fixpoint missing_host (i : nat) (auths : list RegistryAuth) : option nat :=
  match auths with
  | [] => None
  | a :: auths' => if is_blank (a_Host a) then Some i else missing_host (S i) auths'
  end.

Definition parseRegistryAuths (raw : string) : fallible (list RegistryAuth) :=
  let raw := TrimSpace raw in
  if decide (raw = "") then Ok []
  else match json_auths raw with
       | Err e => Err (InvalidJSON e)
       | Ok auths =>
           match missing_host 0 auths with
           | Some i => Err (AuthMissingHost i)
           | None => Ok auths
           end
       end.

Definition loadRegistryAuths : fallible (list RegistryAuth) :=
  envValueOrFile "IMAGE_TRUST_REGISTRY_AUTHS" "IMAGE_TRUST_REGISTRY_AUTHS_FILE" ≫= parseRegistryAuths.

(** The loop over the pairs [key=value]. *)
Fixpoint parse_pairs (m : gmap string string) (pairs : list string) : fallible (gmap string string) :=
  match pairs with
  | [] => Ok m
  | p :: pairs' =>
      let pair := TrimSpace p in
      if decide (pair = "") then parse_pairs m pairs'
      else match Cut pair "=" with
           | None => Err (InvalidPair pair)
           | Some (k, v) =>
               let key := TrimSpace k in
               let value := TrimSpace v in
               if decide (key = "" \/ value = "") then Err (InvalidPair pair)
               else parse_pairs (<[key := value]> m) pairs'
           end
  end.

Definition parseRegistryMirrors (raw : string) : fallible (option (gmap string string)) :=
  let raw := TrimSpace raw in
  if decide (raw = "") then Ok None
  else m ← parse_pairs ∅ (Split raw ","); mret (Some m).

Definition loadRegistryMirrors : fallible (option (gmap string string)) :=
  envValueOrFile "IMAGE_TRUST_REGISTRY_MIRRORS" "IMAGE_TRUST_REGISTRY_MIRRORS_FILE" ≫= parseRegistryMirrors.

Definition parseRegistryCertDirs (raw : string) : fallible (option (gmap string string)) :=
  let raw := TrimSpace raw in
  if decide (raw = "") then Ok None
  else m ← parse_pairs ∅ (Split raw ","); mret (Some m).

Definition loadRegistryCertDirs : fallible (option (gmap string string)) :=
  envValueOrFile "IMAGE_TRUST_REGISTRY_CERT_DIRS" "IMAGE_TRUST_REGISTRY_CERT_DIRS_FILE"
    ≫= parseRegistryCertDirs.

Definition resolveDockerConfigDir (p : string) : fallible string :=
  let path := Clean p in
  match Stat os path with
  | Err _ => Err (DockerConfigError path)
  | Ok info =>
      if IsDir info then
        match Stat os (PathJoin path "config.json") with
        | Err _ => Err (DockerConfigError path)
        | Ok _ => Ok path
        end
      else if decide (Base path <> "config.json") then Err (DockerConfigError path)
      else Ok (Dir path)
  end.

Definition loadRegistryCredentials : fallible (string * string * string * string) :=
  let username := TrimSpace (Getenv os "REGISTRY_USER") in
  let password0 := TrimSpace (Getenv os "REGISTRY_PASSWORD") in
  let certDir := TrimSpace (Getenv os "REGISTRY_CERT_DIR") in
  let passwordFile := TrimSpace (Getenv os "REGISTRY_PASSWORD_FILE") in
  password ←
    (if decide (passwordFile <> "") then
       match ReadFile os passwordFile with
       | Err e => Err (ReadingFile "REGISTRY_PASSWORD_FILE" e)
       | Ok content => Ok (TrimSpace content)
       end
     else Ok password0);
  let dockerConfigPath := TrimSpace (Getenv os "REGISTRY_DOCKER_CONFIG_PATH") in
  dockerConfigDir ←
    (if decide (dockerConfigPath <> "") then resolveDockerConfigDir dockerConfigPath else Ok "");
  mret (username, password, certDir, dockerConfigDir).

Definition loadRegistrySettings : fallible registrySettings :=
  auths ← loadRegistryAuths;
  mirrors ← loadRegistryMirrors;
  certDirs ← loadRegistryCertDirs;
  creds ← loadRegistryCredentials;
  let '(user, password, certDir, dockerConfigDir) := creds in
  mret {| g_Auths := auths; g_Mirrors := mirrors; g_CertDirs := certDirs; g_User := user;
          g_Password := password; g_CertDir := certDir; g_DockerConfigDir := dockerConfigDir |}.

(** ** Sigstore variables *)

Definition wellKnownEnvVars : list string :=
  ["SIGSTORE_ROOT_FILE"; "COSIGN_ROOT"; "SIGSTORE_CT_LOG_PUBLIC_KEY_FILE"; "FULCIO_URL"; "REKOR_URL";
   "TUF_ROOT"; "SIGSTORE_FULCIO_URL"; "SIGSTORE_REKOR_URL"; "SIGSTORE_CT_LOG_PUBLIC_KEY_FILE";
   "SIGSTORE_TUF_ROOT"; "COSIGN_EXPERIMENTAL"; "GOOGLE_APPLICATION_CREDENTIALS"; "AWS_REGION";
   "AWS_DEFAULT_REGION"; "AWS_ROLE_ARN"; "AWS_WEB_IDENTITY_TOKEN_FILE"; "AZURE_CLIENT_ID";
   "AZURE_TENANT_ID"; "AZURE_FEDERATED_TOKEN_FILE"].

(** [appendVar] of [LoadEnv]: the keys seen, and the variables in order as
    pairs; [env_lines] writes them. *)
Definition appendVar (acc : gset string * list (string * string)) (kv : string * string)
    : gset string * list (string * string) :=
  let '(seen, env) := acc in
  if decide (kv.2 = "") then acc
  else if decide (kv.1 ∈ seen) then acc
  else ({[kv.1]} ∪ seen, env ++ [kv]).

Definition env_lines (env : list (string * string)) : list string :=
  (fun kv => kv.1 +:+ "=" +:+ kv.2) <$> env.

(** The lines of a file as [bufio.Scanner] delivers them; a line that fills
    its buffer of 65536 bytes is an error. *)
Definition drop_cr (l : list ascii) : list ascii :=
  match reverse l with
  | c :: l' => if decide (c = byte 13) then reverse l' else l
  | [] => l
  end.

Definition scan_lines (data : string) : result string (list string) :=
  let fields := Split data (byte 10) in
  let fields := match reverse fields with
                | last :: rest => if decide (last = "") then reverse rest else fields
                | [] => fields
                end in
  if decide (Exists (fun f => 65536 <= Z.of_nat (slen f)) fields) then Err "bufio.Scanner: token too long"
  else Ok ((fun f => str (drop_cr (chars f))) <$> fields).

(** The variable a line of the file defines. *)
Definition parse_env_line (l : string) : option (string * string) :=
  let line := TrimSpace l in
  if decide (line = "") then None
  else if HasPrefix line "#" then None
  else match Cut line "=" with
       | None => None
       | Some (k, v) => Some (TrimSpace k, TrimSpace v)
       end.

(** [LoadEnv]: [Vars] is never nil where it is called. *)
Definition load_env_pairs (envFile : string) (vars : gmap string string)
    : fallible (list (string * string)) :=
  let acc := foldl appendVar (∅, []) ((fun k => (k, default "" (vars !! k))) <$> wellKnownEnvVars) in
  let file := TrimSpace envFile in
  if decide (file = "") then Ok acc.2
  else match ReadFile os file with
       | Err e => Err (SigstoreError e)
       | Ok data =>
           match scan_lines data with
           | Err e => Err (SigstoreError e)
           | Ok ls => Ok (foldl appendVar acc (omap parse_env_line ls)).2
           end
       end.

Definition LoadEnv (envFile : string) (vars : gmap string string) : fallible (list string) :=
  env ← load_env_pairs envFile vars; mret (env_lines env).

Definition sigstore_vars : gmap string string :=
  foldl (fun m key => let value := TrimSpace (Getenv os key) in
                      if decide (value <> "") then <[key := value]> m else m) ∅ wellKnownEnvVars.

Definition loadSigstoreSettings : fallible (string * list string) :=
  let envFile := TrimSpace (Getenv os "IMAGE_TRUST_SIGSTORE_ENV_FILE") in
  env ← LoadEnv envFile sigstore_vars; mret (envFile, env).

(** ** Public keys *)

Definition isRemoteKeyRef (ref : string) : bool := Contains ref "://".

Definition ReportKeyRef (k : TrustedPublicKey) : string :=
  if isRemoteKeyRef (k_Ref k) then k_Ref k else k_ID k.

Definition keyID (ref : string) : string :=
  if isRemoteKeyRef ref then after_last ref "/" else Base ref.

(** The state of the closure [addRef]. *)
Record refs_state : Type := { resolved : list string; seen : gset string }.

Definition addRef (st : refs_state) (ref0 : string) : fallible refs_state :=
  let ref := TrimSpace ref0 in
  if decide (ref = "") then Ok st
  else
    let ref := if isRemoteKeyRef ref then ref else Abs (Getwd os) ref in
    if decide (ref ∈ seen st) then Ok st
    else if decide (MaxPublicKeyFiles <= length (resolved st))%nat then Err TooManyPublicKeys
    else Ok {| resolved := resolved st ++ [ref]; seen := {[ref]} ∪ seen st |}.

Fixpoint add_remote_refs (st : refs_state) (refs : list string) : fallible refs_state :=
  match refs with
  | [] => Ok st
  | raw :: refs' =>
      let ref := TrimSpace raw in
      if decide (ref = "") then add_remote_refs st refs'
      else if negb (isRemoteKeyRef ref) then Err (RefNotURI ref)
      else st' ← addRef st ref; add_remote_refs st' refs'
  end.

Fixpoint add_refs (st : refs_state) (refs : list string) : fallible refs_state :=
  match refs with
  | [] => Ok st
  | raw :: refs' => st' ← addRef st raw; add_refs st' refs'
  end.

(** The key files of a directory. *)
Definition key_files (entries : list (string * bool)) : list string :=
  fst <$> filter (fun e => snd e = false
                        /\ HasSuffix (ToLower (fst e)) ".pub" || HasSuffix (ToLower (fst e)) ".pem" = true)
                 entries.

Definition add_dir (st : refs_state) (dir : string) : fallible refs_state :=
  if is_blank dir then Ok st
  else
    let dirAbs := Abs (Getwd os) (TrimSpace dir) in
    match ReadDir os dirAbs with
    | Err e => Err (ReadingFile dirAbs e)
    | Ok entries => add_refs st ((fun name => PathJoin dirAbs name) <$> key_files entries)
    end.

Definition check_key (ref : string) : fallible TrustedPublicKey :=
  let key := {| k_Ref := ref; k_ID := keyID ref |} in
  if isRemoteKeyRef ref then Ok key
  else match Stat os ref with
       | Err _ => Err (PublicKeyError ref)
       | Ok info =>
           if IsDir info then Err (PublicKeyError ref)
           else if MaxPublicKeyBytes <? Size info then Err (PublicKeyError ref)
           else Ok key
       end.

Fixpoint check_keys (refs : list string) : fallible (list TrustedPublicKey) :=
  match refs with
  | [] => Ok []
  | ref :: refs' => k ← check_key ref; ks ← check_keys refs'; mret (k :: ks)
  end.

Definition LoadTrustedPublicKeys (paths refs : list string) (dir : string)
    : fallible (list TrustedPublicKey) :=
  st ← add_remote_refs {| resolved := []; seen := ∅ |} refs;
  st ← add_refs st paths;
  st ← add_dir st dir;
  if decide (resolved st = []) then Err NoPublicKeys else check_keys (resolved st).

(** ** Validation *)

Definition namespace_overlap (allow block : list string) : list string :=
  filter (fun ns => ns ∈ (list_to_set block : gset string)) allow.

Fixpoint check_modes (modes : list string) : fallible unit :=
  match modes with
  | [] => Ok tt
  | m :: modes' => if decide (m ∈ supported_modes) then check_modes modes' else Err (UnsupportedMode m)
  end.

Definition no_trust_policy (c : Config) : bool :=
  bool_decide (TrustedIssuers c = [] /\ TrustedSubjects c = [] /\ TrustedSubjectREs c = []).

Definition no_public_keys (c : Config) : bool :=
  bool_decide (PublicKeyPaths c = [] /\ PublicKeyRefs c = [] /\ PublicKeyDir c = "").

Definition no_types (c : Config) : bool := bool_decide (AttestationTypes c = []).

Definition regexp_too_long (c : Config) : bool :=
  bool_decide (Exists (fun p => (MaxTrustedSubjectRegexpLen < slen p)%nat) (TrustedSubjectREs c)).

Definition Validate (c : Config) : fallible unit :=
  let enabled := modeEnabled (VerificationModes c) in
  let overlap := namespace_overlap (NamespaceAllowlist c) (NamespaceBlocklist c) in
  _ ← reject_if (negb (bool_decide (overlap = []))) (NamespaceOverlap overlap);
  _ ← check_modes (VerificationModes c);
  _ ← reject_if (negb (bool_decide (ModePolicy c = ModePolicyAny \/ ModePolicy c = ModePolicyAll)))
        (UnsupportedPolicy (ModePolicy c));
  _ ← reject_if (enabled ModeCosignKeyless && no_trust_policy c) (MissingTrustPolicy ModeCosignKeyless);
  _ ← reject_if (enabled ModeCosignKey && no_public_keys c) (MissingPublicKeys ModeCosignKey);
  _ ← reject_if ((enabled ModeCosignAttestationKeyless || enabled ModeCosignAttestationKey) && no_types c)
        MissingAttestationTypes;
  _ ← (if wantsAttestations (AttestationsEnabled c) (AttestationTypes c) then
         _ ← reject_if (no_types c) MissingAttestationTypes;
         reject_if (negb (enabled ModeCosignAttestationKeyless) && negb (enabled ModeCosignAttestationKey))
           NoAttestationMode
       else Ok tt);
  _ ← reject_if (enabled ModeCosignAttestationKeyless && no_trust_policy c)
        (MissingTrustPolicy ModeCosignAttestationKeyless);
  _ ← reject_if (enabled ModeCosignAttestationKey && no_public_keys c)
        (MissingPublicKeys ModeCosignAttestationKey);
  _ ← reject_if (bool_decide (MaxTrustedSubjectRegexpCount < length (TrustedSubjectREs c))%nat) TooManyRegexps;
  reject_if (regexp_too_long c) RegexpTooLong.

(** The last step of [LoadFromEnvironment]: the keys, when [cosign-key] is enabled. *)
Definition with_keys (c : Config) (keys : list TrustedPublicKey) : Config :=
  {| NamespaceAllowlist := NamespaceAllowlist c; NamespaceBlocklist := NamespaceBlocklist c;
     VerificationModes := VerificationModes c; ModePolicy := ModePolicy c;
     TrustedIssuers := TrustedIssuers c; TrustedSubjects := TrustedSubjects c;
     TrustedSubjectREs := TrustedSubjectREs c; PublicKeyPaths := PublicKeyPaths c;
     PublicKeyRefs := PublicKeyRefs c; PublicKeyDir := PublicKeyDir c; TrustedPublicKeys := keys;
     IgnoreTlog := IgnoreTlog c; SignerAllowlist := SignerAllowlist c;
     ImageAllowlist := ImageAllowlist c; RegistryAllowlist := RegistryAllowlist c;
     MaxConcurrentScans := MaxConcurrentScans c; ImageVerifyTimeout := ImageVerifyTimeout c;
     ResolveDigests := ResolveDigests c; RegistryAuthHost := RegistryAuthHost c;
     Registry := Registry c; AttestationTypes := AttestationTypes c;
     AttestationsEnabled := AttestationsEnabled c; VerifyRetries := VerifyRetries c;
     VerifyRetryBackoff := VerifyRetryBackoff c; VerifyRetryJitter := VerifyRetryJitter c;
     SigstoreEnvFile := SigstoreEnvFile c; SigstoreEnv := SigstoreEnv c |}.

Definition initial_modes : list string :=
  let modes := parseCSVEnv "IMAGE_TRUST_MODES" in
  dedupeModes (if decide (modes = []) then [ModeCosignKeyless] else modes).

Definition initial_policy : string :=
  let p := ToLower (TrimSpace (Getenv os "IMAGE_TRUST_MODE_POLICY")) in
  if decide (p = "") then ModePolicyAny else p.

Definition LoadFromEnvironment : fallible Config :=
  maxConcurrent ← atoi_env "MAX_CONCURRENT_SCANS" 1 DefaultMaxConcurrentScans id;
  timeout ← atoi_env "IMAGE_VERIFY_TIMEOUT_SECONDS" 1 DefaultImageVerifyTimeout seconds;
  retries ← atoi_env "IMAGE_TRUST_VERIFY_RETRIES" 1 3 id;
  backoff ← atoi_env "IMAGE_TRUST_VERIFY_RETRY_BACKOFF_SECONDS" 0 (2 * GoTime.Second) seconds;
  let types := parseCSVEnv "IMAGE_TRUST_ATTESTATION_TYPES" in
  let attestations := parseBoolEnv "IMAGE_TRUST_ATTESTATIONS_ENABLED" in
  let modes := ResolveVerificationModes attestations types initial_modes in
  registry ← loadRegistrySettings;
  sigstore ← loadSigstoreSettings;
  let cfg :=
    {| NamespaceAllowlist := parseLowerCSVEnv "IMAGE_TRUST_NAMESPACE_ALLOWLIST";
       NamespaceBlocklist := parseLowerCSVEnv "IMAGE_TRUST_NAMESPACE_BLOCKLIST";
       VerificationModes := modes; ModePolicy := initial_policy;
       TrustedIssuers := parseCSVEnv "IMAGE_TRUST_TRUSTED_ISSUERS";
       TrustedSubjects := parseCSVEnv "IMAGE_TRUST_TRUSTED_SUBJECTS";
       TrustedSubjectREs := parseCSVEnv "IMAGE_TRUST_TRUSTED_SUBJECT_REGEXPS";
       PublicKeyPaths := parseCSVEnv "IMAGE_TRUST_PUBLIC_KEY_PATHS";
       PublicKeyRefs := parseCSVEnv "IMAGE_TRUST_PUBLIC_KEY_REFS";
       PublicKeyDir := TrimSpace (Getenv os "IMAGE_TRUST_PUBLIC_KEY_DIR");
       TrustedPublicKeys := [];
       IgnoreTlog := parseBoolEnv "IMAGE_TRUST_IGNORE_TLOG";
       SignerAllowlist := parseCSVEnv "IMAGE_TRUST_SIGNER_ALLOWLIST";
       ImageAllowlist := parseCSVEnv "IMAGE_TRUST_IMAGE_ALLOWLIST";
       RegistryAllowlist := parseCSVEnv "IMAGE_TRUST_REGISTRY_ALLOWLIST";
       MaxConcurrentScans := maxConcurrent; ImageVerifyTimeout := timeout;
       ResolveDigests := parseBoolEnvDefault "IMAGE_TRUST_RESOLVE_DIGESTS" true;
       RegistryAuthHost := TrimSpace (Getenv os "IMAGE_TRUST_REGISTRY_AUTH_HOST");
       Registry := registry; AttestationTypes := types; AttestationsEnabled := attestations;
       VerifyRetries := retries; VerifyRetryBackoff := backoff;
       VerifyRetryJitter := parseBoolEnvDefault "IMAGE_TRUST_VERIFY_RETRY_JITTER" true;
       SigstoreEnvFile := sigstore.1; SigstoreEnv := sigstore.2 |} in
  _ ← Validate cfg;
  if modeEnabled (VerificationModes cfg) ModeCosignKey then
    keys ← LoadTrustedPublicKeys (PublicKeyPaths cfg) (PublicKeyRefs cfg) (PublicKeyDir cfg);
    mret (with_keys cfg keys)
  else mret cfg.

End environment.

(** ** Facts: the error monad *)

Lemma reject_if_ok c e u : reject_if c e = Ok u <-> c = false.
Proof. destruct c, u; done. Qed.

(** Splits a successful run into its successful steps. *)
Ltac fallible_inv :=
  repeat match goal with
  | H : _ ≫= _ = Ok _ |- _ =>
      let a := fresh "a" in let Ha := fresh "Ha" in
      apply result_bind_ok in H as (a & Ha & H)
  | H : reject_if _ _ = Ok _ |- _ => apply reject_if_ok in H
  | H : mret _ = Ok _ |- _ => injection H as H
  | H : Ok _ = Ok _ |- _ => injection H as H
  | H : Err _ = Ok _ |- _ => discriminate H
  end.

(** ** Facts: modes *)

Lemma dedupe_fold modes d :
  NoDup d ->
  exists r, foldl dedupe_step (list_to_set d, d) modes = (list_to_set r, r)
    /\ NoDup r /\ (forall m, m ∈ r <-> m ∈ d \/ m ∈ modes)
    /\ (forall k, NoDup (d ++ k) -> modes = k -> r = d ++ k).
Proof.
  revert d. induction modes as [|m modes IH]; intros d Hd; cbn [foldl].
  - exists d. split_and!; [done|done| |].
    + intros m. rewrite elem_of_nil. tauto.
    + intros k _ <-. by rewrite app_nil_r.
  - unfold dedupe_step at 2. case_decide as Hm; rewrite elem_of_list_to_set in Hm.
    + destruct (IH d Hd) as (r & -> & Hr & Hin & _). exists r. split_and!; [done|done| |].
      * intros x. rewrite Hin, elem_of_cons. split; [tauto|]. by intros [?|[->|?]]; auto.
      * intros k Hk <-. apply NoDup_app in Hk as (_ & Hk & _). exfalso. apply (Hk m); [done|by left].
    + assert (({[m]} ∪ list_to_set d : gset string) = list_to_set (d ++ [m])) as ->.
      { rewrite list_to_set_app_L. simpl. set_solver. }
      destruct (IH (d ++ [m])) as (r & -> & Hr & Hin & Hno).
      { apply NoDup_app. split_and!; [done| |apply NoDup_singleton].
        intros x Hx. rewrite list_elem_of_singleton. by intros ->. }
      exists r. split_and!; [done|done| |].
      * intros x. rewrite Hin, elem_of_app, list_elem_of_singleton, elem_of_cons. tauto.
      * intros k Hk <-. rewrite (Hno modes); [by rewrite <-app_assoc| |done].
        by rewrite <-app_assoc.
Qed.

Lemma dedupeModes_spec modes :
  NoDup (dedupeModes modes) /\ (forall m, m ∈ dedupeModes modes <-> m ∈ modes)
  /\ (NoDup modes -> dedupeModes modes = modes).
Proof.
  unfold dedupeModes. destruct (dedupe_fold modes [] (NoDup_nil_2)) as (r & Hr & Hnd & Hin & Hid).
  rewrite list_to_set_nil in Hr. rewrite Hr. simpl. split_and!; [done| |].
  - intros m. rewrite Hin, elem_of_nil. tauto.
  - intros Hm. by apply (Hid modes).
Qed.

Lemma elem_of_dedupeModes modes m : m ∈ dedupeModes modes <-> m ∈ modes.
Proof. apply dedupeModes_spec. Qed.

Lemma modeEnabled_true modes m : modeEnabled modes m = true <-> m ∈ modes.
Proof. apply bool_decide_eq_true. Qed.

(** Which modes the resolution yields when attestations are wanted. *)
Definition resolved_mode (modes : list string) (m : string) : Prop :=
  m ∈ modes
  \/ (m = ModeCosignAttestationKeyless /\ ModeCosignKeyless ∈ modes)
  \/ (m = ModeCosignAttestationKey /\ ModeCosignKey ∈ modes).

Lemma append_mode_elem modes (b : bool) (new m : string) (P : Prop) :
  (b = true <-> P) ->
  (m ∈ (if b && negb (modeEnabled modes new) then modes ++ [new] else modes)
   <-> m ∈ modes \/ (m = new /\ P)).
Proof.
  intros Hb. destruct b; simpl.
  - assert P as HP by by apply Hb. destruct (modeEnabled modes new) eqn:E; simpl.
    + apply modeEnabled_true in E. split; [tauto|]. by intros [?|[-> _]].
    + rewrite elem_of_app, list_elem_of_singleton. tauto.
  - assert (~ P) by (by intros HP; apply Hb in HP). tauto.
Qed.

(** The resolution of the verification modes: without attestations the configured
    modes are left alone; with them the modes have no duplicates and are the
    configured ones together with the attestation mode of each enabled
    signature mode; resolving again changes nothing. *)
Theorem ResolveVerificationModes_spec enabled types modes :
  let resolved := ResolveVerificationModes enabled types modes in
  if wantsAttestations enabled types then
    NoDup resolved /\ (forall m, m ∈ resolved <-> resolved_mode modes m)
    /\ ResolveVerificationModes enabled types resolved = resolved
  else resolved = modes.
Proof.
  assert (forall ms, wantsAttestations enabled types = true ->
    NoDup (ResolveVerificationModes enabled types ms)
    /\ (forall m, m ∈ ResolveVerificationModes enabled types ms <-> resolved_mode ms m)) as Hspec.
  { intros ms Hw. unfold ResolveVerificationModes. rewrite Hw. cbv zeta. cbn [negb]. split.
    - apply dedupeModes_spec.
    - intros m. rewrite elem_of_dedupeModes.
      rewrite (append_mode_elem _ _ _ _ (ModeCosignKey ∈ ms)) by apply modeEnabled_true.
      rewrite (append_mode_elem _ _ _ _ (ModeCosignKeyless ∈ ms)) by apply modeEnabled_true.
      rewrite elem_of_dedupeModes. unfold resolved_mode. tauto. }
  cbv zeta. destruct (wantsAttestations enabled types) eqn:Hw;
    [|unfold ResolveVerificationModes; by rewrite Hw].
  destruct (Hspec modes eq_refl) as [Hnd Hin]. split_and!; [done|done|].
  set (rs := ResolveVerificationModes enabled types modes) in *.
  unfold ResolveVerificationModes. rewrite Hw. cbv zeta. cbn [negb].
  rewrite (proj2 (proj2 (dedupeModes_spec rs)) Hnd).
  assert (forall a b, (a = ModeCosignKeyless /\ b = ModeCosignAttestationKeyless)
                      \/ (a = ModeCosignKey /\ b = ModeCosignAttestationKey) ->
            modeEnabled rs a && negb (modeEnabled rs b) = false) as Hno.
  { intros a b Hab. destruct (modeEnabled rs a) eqn:Ea; [|done]. simpl.
    apply negb_false_iff, modeEnabled_true, Hin. apply modeEnabled_true, Hin in Ea.
    unfold resolved_mode in *. destruct Hab as [[-> ->]|[-> ->]].
    - right. left. split; [done|]. by destruct Ea as [?|[[? _]|[? _]]].
    - right. right. split; [done|]. by destruct Ea as [?|[[? _]|[? _]]]. }
  rewrite (Hno ModeCosignKeyless) by tauto. rewrite (Hno ModeCosignKey) by tauto.
  by apply dedupeModes_spec.
Qed.

(** ** Facts: validation *)

(** What a configuration has to satisfy. *)
Record valid_config (c : Config) : Prop := {
  valid_namespaces : forall ns, ns ∈ NamespaceAllowlist c -> ns ∈ NamespaceBlocklist c -> False;
  valid_modes : Forall (fun m => m ∈ supported_modes) (VerificationModes c);
  valid_policy : ModePolicy c = ModePolicyAny \/ ModePolicy c = ModePolicyAll;
  valid_keyless : ModeCosignKeyless ∈ VerificationModes c
                  \/ ModeCosignAttestationKeyless ∈ VerificationModes c -> no_trust_policy c = false;
  valid_key : ModeCosignKey ∈ VerificationModes c
              \/ ModeCosignAttestationKey ∈ VerificationModes c -> no_public_keys c = false;
  valid_types : ModeCosignAttestationKeyless ∈ VerificationModes c
                \/ ModeCosignAttestationKey ∈ VerificationModes c
                \/ AttestationsEnabled c = true -> AttestationTypes c <> [];
  valid_attestation : AttestationsEnabled c = true \/ AttestationTypes c <> [] ->
                      ModeCosignAttestationKeyless ∈ VerificationModes c
                      \/ ModeCosignAttestationKey ∈ VerificationModes c;
  valid_regexps : (length (TrustedSubjectREs c) <= MaxTrustedSubjectRegexpCount)%nat
                  /\ Forall (fun p => (slen p <= MaxTrustedSubjectRegexpLen)%nat) (TrustedSubjectREs c)
}.

Lemma check_modes_ok modes u :
  check_modes modes = Ok u <-> Forall (fun m => m ∈ supported_modes) modes.
Proof.
  induction modes as [|m modes IH]; simpl; [by destruct u|].
  rewrite Forall_cons. case_decide; rewrite ?IH; [tauto|]. split; [done|tauto].
Qed.

Lemma namespace_overlap_nil allow block :
  namespace_overlap allow block = [] <-> forall ns, ns ∈ allow -> ns ∈ block -> False.
Proof.
  unfold namespace_overlap. split.
  - intros H ns Ha Hb. assert (ns ∈ @nil string) as Hn; [|by apply not_elem_of_nil in Hn].
    rewrite <-H. apply list_elem_of_filter. by rewrite elem_of_list_to_set.
  - intros H. destruct (filter _ allow) as [|ns l] eqn:E; [done|]. exfalso.
    assert (ns ∈ ns :: l) as Hn by by left. rewrite <-E in Hn.
    apply list_elem_of_filter in Hn as [Hb Ha]. rewrite elem_of_list_to_set in Hb. by apply (H ns).
Qed.

Lemma regexp_too_long_false c :
  regexp_too_long c = false <->
  Forall (fun p => (slen p <= MaxTrustedSubjectRegexpLen)%nat) (TrustedSubjectREs c).
Proof.
  unfold regexp_too_long. rewrite bool_decide_eq_false, <-Forall_Exists_neg.
  rewrite !Forall_forall. split; intros H p Hp; specialize (H p Hp); lia.
Qed.

Lemma no_types_false c : no_types c = false <-> AttestationTypes c <> [].
Proof. apply bool_decide_eq_false. Qed.

Lemma wantsAttestations_true b types : wantsAttestations b types = true <-> b = true \/ types <> [].
Proof. unfold wantsAttestations. by rewrite orb_true_iff, negb_true_iff, bool_decide_eq_false. Qed.

Lemma Validate_ok c : Validate c = Ok tt <-> valid_config c.
Proof.
  unfold Validate. cbv zeta. split.
  - intros H. fallible_inv.
    apply negb_false_iff, bool_decide_eq_true in Ha. apply check_modes_ok in Ha0.
    apply negb_false_iff, bool_decide_eq_true in Ha1. apply bool_decide_eq_false in Ha8.
    constructor; try done.
    + by apply namespace_overlap_nil.
    + intros [Hm|Hm]; apply modeEnabled_true in Hm; [by rewrite Hm in Ha2|by rewrite Hm in Ha6].
    + intros [Hm|Hm]; apply modeEnabled_true in Hm; [by rewrite Hm in Ha3|by rewrite Hm in Ha7].
    + rewrite <-no_types_false. intros Hm.
      destruct Hm as [Hm|[Hm|Hm]]; [apply modeEnabled_true in Hm; by rewrite Hm in Ha4| |].
      * apply modeEnabled_true in Hm. by rewrite Hm, orb_true_r in Ha4.
      * unfold wantsAttestations in Ha5. rewrite Hm in Ha5. simpl in Ha5. by fallible_inv.
    + rewrite <-wantsAttestations_true. intros Hw. rewrite Hw in Ha5. fallible_inv.
      apply andb_false_iff in Ha5. rewrite !negb_false_iff, !modeEnabled_true in Ha5. done.
    + apply regexp_too_long_false in H. split; [lia|done].
  - intros [Hns Hms Hp Hkl Hk Ht Hat [Hn Hl]].
    apply namespace_overlap_nil in Hns. rewrite Hns. simpl.
    assert (check_modes (VerificationModes c) = Ok tt) as -> by by apply check_modes_ok.
    rewrite (bool_decide_true (_ \/ _)) by done. simpl.
    assert (forall m (b : bool), (m ∈ VerificationModes c -> b = false) ->
              modeEnabled (VerificationModes c) m && b = false) as Hen.
    { intros m b Hb. destruct (modeEnabled _ m) eqn:E; [|done]. by apply Hb, modeEnabled_true. }
    rewrite !Hen by tauto. rewrite andb_orb_distrib_l, !Hen by (rewrite no_types_false; tauto). simpl.
    rewrite bool_decide_false by lia. rewrite (proj2 (regexp_too_long_false c)) by done.
    destruct (wantsAttestations _ _) eqn:Hw; [|done]. apply wantsAttestations_true in Hw.
    rewrite (proj2 (no_types_false c)) by tauto. simpl.
    destruct (Hat Hw) as [Hm|Hm]; apply modeEnabled_true in Hm; rewrite Hm; simpl; [done|].
    by rewrite andb_false_r.
Qed.


(** ** Facts: public keys *)

(** The state of [addRef]: no reference twice, at most the limit, and [seen] is
    what was collected. *)
Record refs_inv (st : refs_state) : Prop := {
  refs_nodup : NoDup (resolved st);
  refs_bound : (length (resolved st) <= MaxPublicKeyFiles)%nat;
  refs_seen : forall r, r ∈ seen st <-> r ∈ resolved st
}.

Lemma addRef_inv os st ref st' : refs_inv st -> addRef os st ref = Ok st' -> refs_inv st'.
Proof.
  intros [Hnd Hb Hs]. unfold addRef. cbv zeta. case_decide; [by intros [= <-]|].
  generalize (if isRemoteKeyRef (TrimSpace ref) then TrimSpace ref
              else Abs (Getwd os) (TrimSpace ref)).
  intros r. case_decide as Hr; [by intros [= <-]|]. case_decide as Hlen; [done|].
  intros [= <-]. constructor; simpl.
  - apply NoDup_app. split_and!; [done| |apply NoDup_singleton].
    intros x Hx. rewrite list_elem_of_singleton. intros ->. by apply Hr, Hs.
  - rewrite length_app. simpl. lia.
  - intros x. rewrite elem_of_union, elem_of_singleton, elem_of_app, list_elem_of_singleton, Hs. tauto.
Qed.

Lemma add_remote_refs_inv os refs st st' :
  refs_inv st -> add_remote_refs os st refs = Ok st' -> refs_inv st'.
Proof.
  revert st. induction refs as [|r refs IH]; intros st Hinv; simpl; [by intros [= <-]|].
  case_decide; [by apply IH|]. destruct (isRemoteKeyRef (TrimSpace r)); simpl; [|done].
  intros H1. fallible_inv. by eapply IH, H1; eapply addRef_inv.
Qed.

Lemma add_refs_inv os refs st st' : refs_inv st -> add_refs os st refs = Ok st' -> refs_inv st'.
Proof.
  revert st. induction refs as [|r refs IH]; intros st Hinv; simpl; [by intros [= <-]|].
  intros H1. fallible_inv. by eapply IH, H1; eapply addRef_inv.
Qed.

Lemma add_dir_inv os dir st st' : refs_inv st -> add_dir os st dir = Ok st' -> refs_inv st'.
Proof.
  intros Hinv. unfold add_dir. destruct (is_blank dir); [by intros [= <-]|].
  destruct (ReadDir os _) as [es|e]; [by apply add_refs_inv|done].
Qed.

(** A key that passed the checks. *)
Definition usable_key (os : OS) (k : TrustedPublicKey) : Prop :=
  k_ID k = keyID (k_Ref k)
  /\ (isRemoteKeyRef (k_Ref k) = false ->
      exists info, Stat os (k_Ref k) = Ok info /\ IsDir info = false /\ Size info <= MaxPublicKeyBytes).

Lemma check_key_ok os ref k : check_key os ref = Ok k -> k_Ref k = ref /\ usable_key os k.
Proof.
  unfold check_key, usable_key. cbv zeta. destruct (isRemoteKeyRef ref) eqn:E.
  - intros [= <-]. simpl. by rewrite E.
  - destruct (Stat os ref) as [info|] eqn:Es; [|done]. destruct (IsDir info) eqn:Ed; [done|].
    destruct (Z.ltb_spec MaxPublicKeyBytes (Size info)) as [|Hs]; [done|]. intros [= <-]. simpl.
    split_and!; [done|done|]. intros _. by exists info.
Qed.

Lemma check_keys_ok os refs ks :
  check_keys os refs = Ok ks -> k_Ref <$> ks = refs /\ Forall (usable_key os) ks.
Proof.
  revert ks. induction refs as [|r refs IH]; intros ks; simpl; [by intros [= <-]|].
  intros H. fallible_inv. subst ks. apply check_key_ok in Ha as [<- Hk].
  destruct (IH _ Ha0) as [<- Hks]. split; [done|by constructor].
Qed.

Lemma LoadTrustedPublicKeys_ok os paths refs dir ks :
  LoadTrustedPublicKeys os paths refs dir = Ok ks ->
  (1 <= length ks <= MaxPublicKeyFiles)%nat /\ NoDup (k_Ref <$> ks) /\ Forall (usable_key os) ks.
Proof.
  unfold LoadTrustedPublicKeys. intros H. fallible_inv.
  apply add_remote_refs_inv in Ha; [|constructor; [constructor|simpl; lia|]];
    [|intros r; simpl; by rewrite elem_of_nil; set_solver].
  apply add_refs_inv in Ha0; [|done]. apply add_dir_inv in Ha1 as [Hnd Hb _]; [|done].
  case_decide as Hne; [done|]. apply check_keys_ok in H as [Hr Hk]. rewrite <-Hr in Hnd, Hb, Hne.
  rewrite length_fmap in Hb. split_and!; [|done|done|done]. destruct ks; [done|simpl; lia].
Qed.

(** When public keys load there is at least one and at most 32 of them, no
    reference occurs twice, and every local one is a file, not a directory, of
    at most 64 KiB, whose base name is its identifier. *)
Theorem LoadTrustedPublicKeys_bounds os paths refs dir ks :
  LoadTrustedPublicKeys os paths refs dir = Ok ks ->
  (1 <= length ks <= MaxPublicKeyFiles)%nat /\ NoDup (k_Ref <$> ks) /\ Forall (usable_key os) ks.
Proof. apply LoadTrustedPublicKeys_ok. Qed.

(** ** Facts: Sigstore variables *)

Lemma appendVar_inv acc kv :
  NoDup acc.2.*1 -> (forall k, k ∈ acc.1 <-> k ∈ acc.2.*1) -> Forall (fun kv => kv.2 <> "") acc.2 ->
  NoDup (appendVar acc kv).2.*1 /\ (forall k, k ∈ (appendVar acc kv).1 <-> k ∈ (appendVar acc kv).2.*1)
  /\ Forall (fun kv => kv.2 <> "") (appendVar acc kv).2.
Proof.
  destruct acc as [s env]. simpl. intros Hnd Hs Hv. unfold appendVar.
  case_decide as H1; [done|]. case_decide as H2; [done|]. simpl. rewrite fmap_app. split_and!.
  - apply NoDup_app. split_and!; [done| |apply NoDup_singleton].
    intros x Hx. simpl. rewrite list_elem_of_singleton. intros ->. by apply H2, Hs.
  - intros k. rewrite elem_of_union, elem_of_singleton, elem_of_app, Hs. simpl.
    rewrite list_elem_of_singleton. tauto.
  - apply Forall_app. split; [done|]. by constructor.
Qed.

Lemma appendVar_prefix acc kvs : acc.2 `prefix_of` (foldl appendVar acc kvs).2.
Proof.
  revert acc. induction kvs as [|kv kvs IH]; intros acc; simpl; [done|].
  etrans; [|apply IH]. destruct acc as [s env]. unfold appendVar.
  repeat case_decide; simpl; try done. by apply prefix_app_r.
Qed.

Lemma appendVar_fold acc kvs :
  NoDup acc.2.*1 -> (forall k, k ∈ acc.1 <-> k ∈ acc.2.*1) -> Forall (fun kv => kv.2 <> "") acc.2 ->
  let acc' := foldl appendVar acc kvs in
  NoDup acc'.2.*1 /\ (forall k, k ∈ acc'.1 <-> k ∈ acc'.2.*1) /\ Forall (fun kv => kv.2 <> "") acc'.2.
Proof.
  revert acc. induction kvs as [|kv kvs IH]; intros acc H1 H2 H3; simpl; [done|].
  destruct (appendVar_inv acc kv H1 H2 H3) as (? & ? & ?). by apply IH.
Qed.

(** A key that is offered with a value ends up defined. *)
Lemma appendVar_fold_key acc kvs k v :
  (forall k, k ∈ acc.1 <-> k ∈ acc.2.*1) -> NoDup acc.2.*1 -> Forall (fun kv => kv.2 <> "") acc.2 ->
  (k, v) ∈ kvs -> v <> "" -> k ∈ (foldl appendVar acc kvs).2.*1.
Proof.
  revert acc. induction kvs as [|kv kvs IH]; intros acc H2 H1 H3 Hin Hv; [by apply elem_of_nil in Hin|].
  destruct (appendVar_inv acc kv H1 H2 H3) as (Hnd & Hs & Hf). simpl.
  apply elem_of_cons in Hin as [<-|Hin]; [|by apply IH].
  destruct (appendVar_prefix (appendVar acc (k, v)) kvs) as [rest ->].
  rewrite fmap_app, elem_of_app. left. apply Hs. destruct acc as [s env]. unfold appendVar.
  rewrite decide_False by done. case_decide; [done|]. simpl. set_solver.
Qed.

(** The values that are appended are offered ones. *)
Lemma appendVar_fold_from acc kvs kv :
  kv ∈ (foldl appendVar acc kvs).2 -> kv ∈ acc.2 \/ kv ∈ kvs.
Proof.
  revert acc. induction kvs as [|kv' kvs IH]; intros acc; simpl; [by left|].
  intros [H|H]%IH; [|right; by right]. destruct acc as [s env]. unfold appendVar in H.
  repeat case_decide; simpl in *; [by left|by left|].
  apply elem_of_app in H as [H|H]; [by left|]. right. by apply list_elem_of_singleton in H as ->; left.
Qed.

(** The variables forwarded to cosign: no name is defined twice, no value is
    empty, and a well-known variable of the process keeps its value whatever
    the file of additional variables says. *)
Theorem LoadEnv_wellknown_wins os envFile vars env :
  load_env_pairs os envFile vars = Ok env ->
  NoDup env.*1 /\ Forall (fun kv => kv.2 <> "") env
  /\ LoadEnv os envFile vars = Ok (env_lines env)
  /\ (forall k v, k ∈ wellKnownEnvVars -> vars !! k = Some v -> v <> "" ->
        forall w, (k, w) ∈ env <-> w = v).
Proof.
  intros H. unfold LoadEnv. rewrite H. simpl. unfold load_env_pairs in H.
  set (ks := (fun k => (k, default "" (vars !! k))) <$> wellKnownEnvVars) in H.
  assert (forall k, k ∈ wellKnownEnvVars -> (k, default "" (vars !! k)) ∈ ks) as Hks1
    by (intros k Hk; apply list_elem_of_fmap; by exists k).
  assert (forall k v, (k, v) ∈ ks -> v = default "" (vars !! k)) as Hks2
    by (intros k v (? & [= -> ->] & _)%list_elem_of_fmap; done).
  clearbody ks.
  assert (exists rest, env = (foldl appendVar (foldl appendVar (∅, []) ks) rest).2) as [rest ->].
  { case_decide; [exists []; simpl; congruence|]. destruct (ReadFile os _); [|done].
    destruct (scan_lines _); [|done]. injection H as <-. by eexists. }
  clear H.
  destruct (appendVar_fold (∅, []) ks) as (Hnd & Hs & Hf); [constructor|set_solver|constructor|].
  destruct (appendVar_fold (foldl appendVar (∅, []) ks) rest Hnd Hs Hf) as (Hnd' & Hs' & Hf').
  split_and!; [done|done|done|]. intros k v Hk Hv Hne.
  assert ((k, v) ∈ (foldl appendVar (∅, []) ks).2) as Hin.
  { assert (k ∈ (foldl appendVar (∅, []) ks).2.*1) as Hd.
    { eapply appendVar_fold_key; [set_solver|constructor|constructor| |done].
      specialize (Hks1 k Hk). by rewrite Hv in Hks1. }
    apply list_elem_of_fmap in Hd as ([k' v'] & -> & Hd). simpl in *.
    pose proof Hd as [Hc|Hc]%appendVar_fold_from; [by apply elem_of_nil in Hc|].
    apply Hks2 in Hc as ->. by rewrite Hv in Hd. }
  intros w. destruct (appendVar_prefix (foldl appendVar (∅, []) ks) rest) as [l Hl]. split.
  - intros Hw. assert ((k, v) ∈ (foldl appendVar (foldl appendVar (∅, []) ks) rest).2) as Hin'.
    { rewrite Hl. apply elem_of_app. by left. }
    apply list_elem_of_lookup in Hw as [i Hi]. apply list_elem_of_lookup in Hin' as [j Hj].
    assert (i = j) as ->.
    { eapply NoDup_lookup; [exact Hnd'| |]; rewrite list_lookup_fmap; [by rewrite Hi|by rewrite Hj]. }
    congruence.
  - intros ->. rewrite Hl. apply elem_of_app. by left.
Qed.

(** ** Facts: the whole configuration *)

Lemma atoi_env_ok os name least dflt convert v :
  atoi_env os name least dflt convert = Ok v ->
  v = dflt \/ exists n, ParseInt (Getenv os name) = ParsedOk n /\ least <= n /\ v = convert n.
Proof.
  unfold atoi_env. case_decide; [intros [= ->]; by left|].
  destruct (ParseInt _) as [n| |] eqn:E; try done.
  destruct (Z.ltb_spec n least); [done|]. intros [= <-]. right. by exists n.
Qed.

(** Durations in seconds are exact up to 9223372036 of them; one more overflows. *)
Lemma seconds_exact v : 0 <= v <= 9223372036 -> seconds v = v * GoTime.Second.
Proof. intros H. apply GoInt.i64_id. unfold GoInt.in_i64, GoTime.Second. lia. Qed.

Lemma valid_with_keys c ks : valid_config c -> valid_config (with_keys c ks).
Proof. intros []. by constructor. Qed.

Lemma LoadFromEnvironment_ok os json cfg :
  LoadFromEnvironment os json = Ok cfg ->
  valid_config cfg
  /\ 1 <= MaxConcurrentScans cfg /\ 1 <= VerifyRetries cfg
  /\ GoInt.in_i64 (ImageVerifyTimeout cfg) /\ GoInt.in_i64 (VerifyRetryBackoff cfg)
  /\ (ModeCosignKey ∈ VerificationModes cfg ->
      (1 <= length (TrustedPublicKeys cfg) <= MaxPublicKeyFiles)%nat)
  /\ (ModeCosignKey ∉ VerificationModes cfg -> TrustedPublicKeys cfg = []).
Proof.
  unfold LoadFromEnvironment. intros H.
  apply result_bind_ok in H as (scans & H1 & H). apply result_bind_ok in H as (tmo & H2 & H).
  apply result_bind_ok in H as (retries & H3 & H). apply result_bind_ok in H as (backoff & H4 & H).
  cbv zeta in H. apply result_bind_ok in H as (reg & _ & H).
  apply result_bind_ok in H as (sig & _ & H).
  match type of H with context [Validate ?c] => set (c0 := c) in H end.
  apply result_bind_ok in H as ([] & Hv & H). apply Validate_ok in Hv.
  assert (1 <= MaxConcurrentScans c0 /\ 1 <= VerifyRetries c0
          /\ GoInt.in_i64 (ImageVerifyTimeout c0) /\ GoInt.in_i64 (VerifyRetryBackoff c0)) as (?&?&?&?).
  { subst c0. simpl. split_and!.
    - apply atoi_env_ok in H1 as [->|(n & _ & ? & ->)]; unfold DefaultMaxConcurrentScans, id; lia.
    - apply atoi_env_ok in H3 as [->|(n & _ & ? & ->)]; unfold id; lia.
    - apply atoi_env_ok in H2 as [->|(n & _ & ? & ->)]; [done|apply GoInt.i64_range].
    - apply atoi_env_ok in H4 as [->|(n & _ & ? & ->)]; [done|apply GoInt.i64_range]. }
  destruct (modeEnabled (VerificationModes c0) ModeCosignKey) eqn:E.
  - apply result_bind_ok in H as (ks & Hk & H). injection H as <-.
    apply LoadTrustedPublicKeys_ok in Hk as (Hlen & _). apply modeEnabled_true in E.
    split_and!; try done. by apply valid_with_keys.
  - injection H as <-. apply not_true_iff_false in E. rewrite modeEnabled_true in E.
    by split_and!.
Qed.

(** What loads is valid and usable: validation accepts it, there is room for at
    least one verification at a time and at least one attempt, and the keys are
    there, within their bounds, when [cosign-key] is enabled. *)
Theorem LoadFromEnvironment_usable os json cfg :
  LoadFromEnvironment os json = Ok cfg ->
  valid_config cfg
  /\ 1 <= MaxConcurrentScans cfg /\ 1 <= VerifyRetries cfg
  /\ GoInt.in_i64 (ImageVerifyTimeout cfg) /\ GoInt.in_i64 (VerifyRetryBackoff cfg)
  /\ (ModeCosignKey ∈ VerificationModes cfg ->
      (1 <= length (TrustedPublicKeys cfg) <= MaxPublicKeyFiles)%nat)
  /\ (ModeCosignKey ∉ VerificationModes cfg -> TrustedPublicKeys cfg = []).
Proof. apply LoadFromEnvironment_ok. Qed.

(** An environment for the examples: variables by name, and no files. *)
Definition env_os (vars : list (string * string)) : OS :=
  {| Getenv := fun k => default "" ((list_to_map vars : gmap string string) !! k);
     ReadFile := fun _ => Err "no such file";
     Stat := fun _ => Err "no such file";
     ReadDir := fun _ => Err "no such directory";
     Getwd := "/" |}.

Definition no_json (_ : string) : result string (list RegistryAuth) := Err "not JSON".

(** The successful value of a run, for examples that look at a part of it. *)
Definition ok_of {A} (r : fallible A) : option A :=
  match r with
  | Ok a => Some a
  | Err _ => None
  end.

Definition keyless_vars : list (string * string) :=
  [("IMAGE_TRUST_TRUSTED_ISSUERS", " https://token.actions.githubusercontent.com ,")].

Definition summary_of (c : Config) : list string * string * list string * list string * (Z * Z * Z) :=
  (VerificationModes c, ModePolicy c, TrustedIssuers c, k_Ref <$> TrustedPublicKeys c,
   (MaxConcurrentScans c, VerifyRetries c, ImageVerifyTimeout c)).

Example keyless_loads :
  summary_of <$> ok_of (LoadFromEnvironment (env_os keyless_vars) no_json)
  = Some ([ModeCosignKeyless], "any", ["https://token.actions.githubusercontent.com"], [], (5, 3, 180000000000)).
Proof. vm_compute. reflexivity. Qed.

Lemma keyless_returns : exists cfg, LoadFromEnvironment (env_os keyless_vars) no_json = Ok cfg.
Proof.
  pose proof keyless_loads as H.
  destruct (LoadFromEnvironment _ _) as [cfg|]; [by exists cfg|discriminate H].
Qed.

Lemma LoadFromEnvironment_usable_witness :
  exists cfg, LoadFromEnvironment (env_os keyless_vars) no_json = Ok cfg
    /\ valid_config cfg /\ 1 <= MaxConcurrentScans cfg.
Proof.
  destruct keyless_returns as [cfg H]. exists cfg.
  destruct (LoadFromEnvironment_usable _ _ _ H) as (? & ? & _). by split_and!.
Defined.

Lemma LoadTrustedPublicKeys_bounds_witness :
  exists ks, LoadTrustedPublicKeys (env_os []) [] ["gcpkms://ring/key"; " gcpkms://ring/key "] "" = Ok ks
    /\ (1 <= length ks <= MaxPublicKeyFiles)%nat /\ NoDup (k_Ref <$> ks)
    /\ Forall (usable_key (env_os [])) ks.
Proof.
  eexists. split; [vm_compute; reflexivity|].
  apply (LoadTrustedPublicKeys_bounds (env_os []) [] ["gcpkms://ring/key"; " gcpkms://ring/key "] "").
  vm_compute. reflexivity.
Defined.

(** A file that tries to replace the Rekor server of the process. *)
Definition file_os (data : string) : OS :=
  {| Getenv := fun _ => ""; ReadFile := fun _ => Ok data; Stat := fun _ => Err "no such file";
     ReadDir := fun _ => Err "no such directory"; Getwd := "/" |}.

Definition rekor_vars : gmap string string := {["REKOR_URL" := "https://rekor.internal"]}.

Example LoadEnv_example :
  LoadEnv (file_os ("# comment" +:+ String (byte 10) ("REKOR_URL=http://evil" +:+ String (byte 10) "EXTRA = 1")))
    "/etc/env" rekor_vars
  = Ok ["REKOR_URL=https://rekor.internal"; "EXTRA=1"].
Proof. vm_compute. reflexivity. Qed.

Lemma LoadEnv_wellknown_wins_witness :
  exists env, load_env_pairs (file_os "REKOR_URL=http://evil") "/etc/env" rekor_vars = Ok env
    /\ forall w, ("REKOR_URL", w) ∈ env <-> w = "https://rekor.internal".
Proof.
  eexists. split; [vm_compute; reflexivity|].
  assert (load_env_pairs (file_os "REKOR_URL=http://evil") "/etc/env" rekor_vars
          = Ok [("REKOR_URL", "https://rekor.internal")]) as H by (vm_compute; reflexivity).
  destruct (LoadEnv_wellknown_wins _ _ _ _ H) as (_ & _ & _ & Hwins).
  apply (Hwins "REKOR_URL"); [|reflexivity|done].
  by apply (bool_decide_unpack _).
Defined.

(** [IMAGE_VERIFY_TIMEOUT_SECONDS] is only checked from below: a large value
    overflows into a negative timeout, which every verification exceeds. *)
Example timeout_overflows :
  ImageVerifyTimeout <$>
    ok_of (LoadFromEnvironment (env_os (("IMAGE_VERIFY_TIMEOUT_SECONDS", "9223372037") :: keyless_vars)) no_json)
  = Some (-9223372036709551616).
Proof. vm_compute. reflexivity. Qed.
