(* ===== verification/ImageTrustRegistry.v ===== *)
(** * image-trust: registries

    [image-trust/pkg/registry/] and [pkg/resolve/enrich.go]: credentials and the
    Docker configuration written for cosign, registry mirrors, certificates,
    the lookup of digests, and the concurrent resolution of all images.  Reads
    go through [OS]; the temporary directories are a map from a directory to its
    files, so that what is left behind can be stated.  The registry protocol,
    the parser of references and JSON are parameters. *)

From stdpp Require Import base decidable list gmap stringmap strings.
From Stdlib Require Import ZArith Lia Ascii.
From S2P Require Import Prelude GoStrings GoText ImageTrustModels ImageTrustConfig WorkerPool.

Local Open Scope Z_scope.

Record Credentials : Type := {
  c_Username : string;
  c_Password : string;
  c_CertDir : string;
  c_DockerConfigDir : string;
  c_AuthHost : string;
  c_Auths : list RegistryAuth;
  c_PerRegistryCertDirs : gmap string string;
  c_Mirrors : gmap string string
}.

Definition CredentialsFromConfig (cfg : option Config) : Credentials :=
  match cfg with
  | None =>
      {| c_Username := ""; c_Password := ""; c_CertDir := ""; c_DockerConfigDir := "";
         c_AuthHost := ""; c_Auths := []; c_PerRegistryCertDirs := ∅; c_Mirrors := ∅ |}
  | Some cfg =>
      {| c_Username := g_User (Registry cfg); c_Password := g_Password (Registry cfg);
         c_CertDir := g_CertDir (Registry cfg); c_DockerConfigDir := g_DockerConfigDir (Registry cfg);
         c_AuthHost := RegistryAuthHost cfg; c_Auths := g_Auths (Registry cfg);
         c_PerRegistryCertDirs := default ∅ (g_CertDirs (Registry cfg));
         c_Mirrors := default ∅ (g_Mirrors (Registry cfg)) |}
  end.

Definition Configured (c : Credentials) : bool :=
  bool_decide (c_Username c <> "" \/ c_Password c <> "" \/ c_CertDir c <> "" \/ c_DockerConfigDir c <> ""
               \/ c_PerRegistryCertDirs c <> ∅ \/ c_Auths c <> []).

(** Credentials are never passed on the command line. *)
Definition CosignArgs (c : Credentials) : list string := [].

Definition ExtraEnv (c : Credentials) (extra : list string) : list string :=
  extra
  ++ (if decide (c_CertDir c <> "") then ["SSL_CERT_DIR=" +:+ c_CertDir c] else [])
  ++ (if decide (c_DockerConfigDir c <> "") then ["DOCKER_CONFIG=" +:+ c_DockerConfigDir c] else []).

(** ** Mirrors *)

(** What the body of the loop returns for one mapping, if it returns. *)
Definition remap_one (ref : string) (mu : string * string) : option string :=
  let '(mirror, upstream) := mu in
  if decide (mirror = "" \/ upstream = "") then None
  else if HasPrefix ref (mirror +:+ "/") then Some (upstream +:+ TrimPrefix ref mirror)
  else if decide (ref = mirror) then Some upstream
  else None.

Fixpoint remap_first (ref : string) (mus : list (string * string)) : string :=
  match mus with
  | [] => ref
  | mu :: mus' =>
      match remap_one ref mu with
      | Some r => r
      | None => remap_first ref mus'
      end
  end.

Section mirrors.
Context `{!RangeOrder string string}.

Definition RemapMirror (ref : string) (mirrors : gmap string string) : string :=
  if decide (ref = "" \/ mirrors = ∅) then ref else remap_first ref (range_map mirrors).

Definition creds_VerificationReference (c : Credentials) (ref : string) : string :=
  RemapMirror ref (c_Mirrors c).
End mirrors.

(** ** Docker configuration *)

Record dockerConfigAuth : Type := {
  d_Username : string;
  d_Password : string;
  d_Auth : string;
  d_Identity : string
}.

(** A nil map is [None]. *)
Record dockerConfig : Type := {
  Auths : option (gmap string dockerConfigAuth);
  CredHelpers : option (gmap string string)
}.

Definition zeroDockerConfig : dockerConfig := {| Auths := None; CredHelpers := None |}.

Definition merge_step (merged cfg : dockerConfig) : dockerConfig :=
  {| Auths := Some (default ∅ (Auths cfg) ∪ default ∅ (Auths merged));
     CredHelpers := Some (default ∅ (CredHelpers cfg) ∪ default ∅ (CredHelpers merged)) |}.

Definition mergeDockerConfigs (configs : list dockerConfig) : dockerConfig :=
  foldl merge_step {| Auths := Some ∅; CredHelpers := Some ∅ |} configs.

Definition basic_auth (username password : string) : dockerConfigAuth :=
  {| d_Username := username; d_Password := password;
     d_Auth := EncodeToString (username +:+ ":" +:+ password); d_Identity := "" |}.

Definition withBasicAuth (c : dockerConfig) (host username password : string) : dockerConfig :=
  if decide (username = "" /\ password = "") then c
  else {| Auths := Some (<[host := basic_auth username password]> (default ∅ (Auths c)));
          CredHelpers := CredHelpers c |}.

Definition defaultRegistryAuthHost : string := "https://index.docker.io/v1/".

Definition normalizeAuthHost (host0 : string) : string :=
  let host := TrimSpace host0 in
  if decide (host = "") then host
  else
    let host := if HasPrefix host "http://" || HasPrefix host "https://" then host
                else "https://" +:+ host in
    if HasSuffix host "/v1" || HasSuffix host "/v1/" then host
    else if HasSuffix host "/" then host +:+ "v1/" else host +:+ "/v1/".

Definition registryCandidates (registry0 : string) : list string :=
  let registry := TrimSpace (ToLower registry0) in
  if decide (registry = "") then []
  else
    let candidates :=
      [registry] ++ (if Contains registry "://" then []
                     else ["https://" +:+ registry; "http://" +:+ registry]) in
    let candidates :=
      candidates ++ (candidates ≫= fun c => [c +:+ "/"; c +:+ "/v1/"; c +:+ "/v1"]) in
    if decide (registry = "index.docker.io") then
      candidates ++ ["https://index.docker.io/v1/"; "index.docker.io"]
    else if HasSuffix registry ".docker.io" then
      candidates ++ ["https://index.docker.io/v1/"; "index.docker.io"]
    else candidates.

Inductive Authenticator : Type :=
| Anonymous
| Bearer (token : string)
| Basic (username password : string).

(** [None] is a nil authenticator. *)
Definition authConfigAuthenticator (auth : dockerConfigAuth) : option Authenticator :=
  if decide (d_Identity auth <> "") then Some (Bearer (d_Identity auth))
  else
    let static := (d_Username auth, d_Password auth) in
    let creds :=
      if decide (d_Username auth = "" /\ d_Password auth = "" /\ d_Auth auth <> "") then
        match DecodeString (d_Auth auth) with
        | None => None
        | Some decoded =>
            match Cut decoded ":" with
            | Some up => Some up
            | None => Some static
            end
        end
      else Some static in
    match creds with
    | None => None
    | Some (u, p) => if decide (u = "" /\ p = "") then None else Some (Basic u p)
    end.

Fixpoint first_authenticator (auths : gmap string dockerConfigAuth) (candidates : list string)
    : Authenticator :=
  match candidates with
  | [] => Anonymous
  | c :: candidates' =>
      match auths !! c with
      | None => first_authenticator auths candidates'
      | Some auth =>
          match authConfigAuthenticator auth with
          | Some a => a
          | None => first_authenticator auths candidates'
          end
      end
  end.

Section docker_config.
Context (os : OS).
(** [json.Unmarshal] into a zero configuration, and [json.MarshalIndent]. *)
Context (json_decode : string -> result string dockerConfig) (json_encode : dockerConfig -> string).

Definition parseDockerConfig (data : string) : result string dockerConfig :=
  if decide (data = "") then Ok zeroDockerConfig
  else match json_decode data with
       | Err e => Err ("parsing docker config: " +:+ e)
       | Ok cfg => Ok {| Auths := Some (default ∅ (Auths cfg));
                         CredHelpers := Some (default ∅ (CredHelpers cfg)) |}
       end.

Definition readDockerConfigFile (path : string) : result string dockerConfig :=
  match ReadFile os path with
  | Err e => Err e
  | Ok data => parseDockerConfig data
  end.

Definition config_path (dir : string) : string := TrimRight dir "/" +:+ "/config.json".

Definition readDockerConfigDir (dir : string) : result string dockerConfig :=
  readDockerConfigFile (config_path dir).

(** The keychain of a Docker configuration directory. *)
Definition dockerConfigDir_Resolve (dir registryStr : string) : result string Authenticator :=
  match readDockerConfigDir dir with
  | Err e => Err e
  | Ok cfg => Ok (first_authenticator (default ∅ (Auths cfg)) (registryCandidates (ToLower registryStr)))
  end.

Definition staticBasic_Resolve (username password : string) : Authenticator :=
  if decide (username = "" /\ password = "") then Anonymous else Basic username password.

(** [Keychain]: the chains that are asked in order; none means the default chain. *)
Inductive chain : Type :=
| StaticChain (username password : string)
| DirChain (dir : string).

Definition Keychain (c : Credentials) : list chain :=
  (if decide (c_Username c <> "" \/ c_Password c <> "")
   then [StaticChain (c_Username c) (c_Password c)] else [])
  ++ (if decide (c_DockerConfigDir c <> "") then [DirChain (c_DockerConfigDir c)] else []).

(** ** Temporary directories *)

Definition temps : Type := gmap string (gmap string string).

(** Whether a directory can be made, and a file written. *)
Context (mkdir_ok : temps -> bool) (write_ok : string -> string -> bool).

Definition MkdirTemp (prefix : string) (t : temps) : option (string * temps) :=
  if mkdir_ok t then
    let dir := fresh_string ("/tmp/" +:+ prefix) t in Some (dir, <[dir := ∅]> t)
  else None.

Definition RemoveAll (dir : string) (t : temps) : temps := delete dir t.

Definition WriteFile (dir name data : string) (t : temps) : option temps :=
  if write_ok dir name then Some (<[dir := <[name := data]> (default ∅ (t !! dir))]> t) else None.

Definition writeDockerConfigDir (dir : string) (cfg : dockerConfig) (t : temps) : option temps :=
  WriteFile dir "config.json" (json_encode cfg) t.

(** The state of [PreparedCredentials]: the settings and the directories that
    [Cleanup] removes, latest first. *)
Record PreparedCredentials : Type := {
  Prepared : Credentials;
  cleanups : list string;
  tmp : temps
}.

Definition Cleanup (p : PreparedCredentials) : temps := foldr RemoveAll (tmp p) (reverse (cleanups p)).

Definition set_docker_config (dir : string) (c : Credentials) : Credentials :=
  {| c_Username := ""; c_Password := ""; c_CertDir := c_CertDir c; c_DockerConfigDir := dir;
     c_AuthHost := c_AuthHost c; c_Auths := c_Auths c;
     c_PerRegistryCertDirs := c_PerRegistryCertDirs c; c_Mirrors := c_Mirrors c |}.

Definition set_cert_dir (dir : string) (c : Credentials) : Credentials :=
  {| c_Username := c_Username c; c_Password := c_Password c; c_CertDir := dir;
     c_DockerConfigDir := c_DockerConfigDir c; c_AuthHost := c_AuthHost c; c_Auths := c_Auths c;
     c_PerRegistryCertDirs := c_PerRegistryCertDirs c; c_Mirrors := c_Mirrors c |}.

Definition needsConfig (c : Credentials) : bool :=
  bool_decide (c_DockerConfigDir c <> "" \/ c_Username c <> "" \/ c_Password c <> "" \/ c_Auths c <> []).

(** The configuration of one entry of the list of credentials. *)
Definition auth_config (a : RegistryAuth) : dockerConfig :=
  withBasicAuth zeroDockerConfig (normalizeAuthHost (a_Host a)) (a_Username a) (a_Password a).

(** The host of the single-registry variables. *)
Definition auth_host (c : Credentials) : string :=
  let host := TrimSpace (c_AuthHost c) in
  normalizeAuthHost (if decide (host = "") then defaultRegistryAuthHost else host).

(** The configuration that is written: the existing file, then the list, then
    the single-registry variables. *)
Definition merged_config (existing : list dockerConfig) (c : Credentials) : dockerConfig :=
  let merged := mergeDockerConfigs (existing ++ (auth_config <$> c_Auths c)) in
  if decide (c_Username c <> "" \/ c_Password c <> "")
  then withBasicAuth merged (auth_host c) (c_Username c) (c_Password c)
  else merged.

(** The state after a step, together with its error if there is one. *)
Definition materializeDockerConfig (p : PreparedCredentials) : PreparedCredentials * option string :=
  let creds := Prepared p in
  if negb (needsConfig creds) then (p, None)
  else
    match (if decide (c_DockerConfigDir creds <> "")
           then match readDockerConfigDir (c_DockerConfigDir creds) with
                | Ok cfg => Ok [cfg]
                | Err e => Err e
                end
           else Ok []) with
    | Err e => (p, Some ("reading registry docker config: " +:+ e))
    | Ok existing =>
        match MkdirTemp "image-trust-docker-config-" (tmp p) with
        | None => (p, Some "creating docker config temp dir")
        | Some (dir, t) =>
            match writeDockerConfigDir dir (merged_config existing creds) t with
            | None => ({| Prepared := creds; cleanups := cleanups p; tmp := RemoveAll dir t |},
                       Some "writing docker config")
            | Some t' => ({| Prepared := set_docker_config dir creds;
                             cleanups := cleanups p ++ [dir]; tmp := t' |}, None)
            end
        end
    end.

(** ** Certificates *)

Definition is_cert_file (name0 : string) : bool :=
  let name := ToLower name0 in
  HasSuffix name ".pem" || HasSuffix name ".crt" || HasSuffix name ".cer".

(** The loop over the entries of one directory: the files are numbered. *)
Fixpoint copy_certs (dir target : string) (entries : list (string * bool)) (index : nat) (t : temps)
    : option (nat * temps) * temps :=
  match entries with
  | [] => (Some (index, t), t)
  | (name, isDir) :: entries' =>
      if isDir || negb (is_cert_file name) then copy_certs dir target entries' index t
      else match ReadFile os (PathJoin dir name) with
           | Err _ => (None, t)
           | Ok data =>
               match WriteFile target ("bundle-" +:+ fmt_d (Z.of_nat index) +:+ "-" +:+ name) data t with
               | None => (None, t)
               | Some t' => copy_certs dir target entries' (S index) t'
               end
           end
  end.

Fixpoint copy_dirs (dirs : list string) (target : string) (index : nat) (t : temps) : bool * temps :=
  match dirs with
  | [] => (true, t)
  | dir :: dirs' =>
      match ReadDir os dir with
      | Err _ => (false, t)
      | Ok entries =>
          match copy_certs dir target entries index t with
          | (Some (index', t'), _) => copy_dirs dirs' target index' t'
          | (None, t') => (false, t')
          end
      end
  end.

(** The directories to merge: the global one, then the others without
    duplicates. *)
Definition cert_dirs (globalCertDir : string) (dirs : list string) : list string :=
  (if decide (globalCertDir <> "") then [globalCertDir] else [])
  ++ dedupeModes (filter (fun d => d <> "") dirs).

Context `{!RangeOrder string string}.

Definition MergeRegistryCertDirs (target globalCertDir : string) (perRegistry : gmap string string)
    (t : temps) : bool * temps :=
  copy_dirs (cert_dirs globalCertDir (snd <$> range_map perRegistry)) target 0 t.

Definition materializeCertDir (p : PreparedCredentials) : PreparedCredentials * option string :=
  let creds := Prepared p in
  if decide (c_PerRegistryCertDirs creds = ∅) then (p, None)
  else
    match MkdirTemp "image-trust-registry-certs-" (tmp p) with
    | None => (p, Some "creating certificate temp dir")
    | Some (dir, t) =>
        match MergeRegistryCertDirs dir (c_CertDir creds) (c_PerRegistryCertDirs creds) t with
        | (false, t') => ({| Prepared := creds; cleanups := cleanups p; tmp := RemoveAll dir t' |},
                          Some "merging certificates")
        | (true, t') => ({| Prepared := set_cert_dir dir creds;
                            cleanups := cleanups p ++ [dir]; tmp := t' |}, None)
        end
    end.

(** [Prepare]: on an error what was made so far is cleaned up. *)
Definition Prepare (creds : Credentials) (t : temps) : result string PreparedCredentials * temps :=
  let p0 := {| Prepared := creds; cleanups := []; tmp := t |} in
  match materializeDockerConfig p0 with
  | (p1, Some e) => (Err e, Cleanup p1)
  | (p1, None) =>
      match materializeCertDir p1 with
      | (p2, Some e) => (Err e, Cleanup p2)
      | (p2, None) => (Ok p2, tmp p2)
      end
  end.

Definition registryHostFromReference (ref : string) : string :=
  let candidate := before_first (before_first ref "@") "/" in
  match LastIndex candidate ":" with
  | Some i => slice_to i candidate
  | None => candidate
  end.

Definition certDirForReference (ref globalCertDir : string) (perRegistry : gmap string string) : string :=
  let host := registryHostFromReference ref in
  if decide (host = "") then globalCertDir
  else match perRegistry !! host with
       | Some dir => dir
       | None =>
           match List.find (fun kd => EqualFold (fst kd) host) (range_map perRegistry) with
           | Some (_, dir) => dir
           | None => globalCertDir
           end
       end.

(** [pool.AppendCertsFromPEM]. *)
Context (pem_ok : string -> bool).

Fixpoint append_entries (dir : string) (entries : list (string * bool)) (pool : list string)
    : option (list string) :=
  match entries with
  | [] => Some pool
  | (name, isDir) :: entries' =>
      if isDir || negb (is_cert_file name) then append_entries dir entries' pool
      else match ReadFile os (PathJoin dir name) with
           | Err _ => None
           | Ok data => if pem_ok data then append_entries dir entries' (pool ++ [data]) else None
           end
  end.

Definition appendCertsFromDir (dir : string) (pool : list string) : option (list string) :=
  match ReadDir os dir with
  | Err _ => None
  | Ok entries => append_entries dir entries pool
  end.

Fixpoint append_dirs (dirs : list string) (pool : list string) : option (list string) :=
  match dirs with
  | [] => Some pool
  | d :: dirs' => pool' ← appendCertsFromDir d pool; append_dirs dirs' pool'
  end.

(** The certificates the transport trusts beyond the system's: [Ok None] is the
    default transport. *)
Definition TransportForReference (ref globalCertDir : string) (perRegistry : gmap string string)
    : result unit (option (list string)) :=
  let certDir := certDirForReference ref globalCertDir perRegistry in
  if decide (certDir = "" /\ perRegistry = ∅ /\ globalCertDir = "") then Ok None
  else match append_dirs ((if decide (certDir <> "") then [certDir] else [])
                          ++ (snd <$> range_map perRegistry)) [] with
       | Some pool => Ok (Some pool)
       | None => Err tt
       end.

End docker_config.

(** ** Digests *)

Definition tag_candidate (c0 : string) : option string :=
  let c := TrimSpace c0 in
  if decide (c = "") then None
  else if Contains c "@sha256:" then None
  else if HasPrefix c "sha256:" then None
  else Some c.

Definition tagReference (i : DiscoveredImage) : string :=
  match tag_candidate (Name i) with
  | Some c => c
  | None => default "" (tag_candidate (PullRef i))
  end.

Definition set_digest (digestRef : string) (i : DiscoveredImage) : DiscoveredImage :=
  {| Name := Name i; ID := digestRef;
     PullRef := if decide (PullRef i = "" \/ Contains (PullRef i) "@sha256:" = false)
                then digestRef else PullRef i;
     Owners := Owners i; DigestResolveError := DigestResolveError i |}.

Definition set_digest_error (e : string) (i : DiscoveredImage) : DiscoveredImage :=
  {| Name := Name i; ID := ID i; PullRef := PullRef i; Owners := Owners i; DigestResolveError := e |}.

Section digests.
Context `{!RangeOrder string string} (os : OS) (pem_ok : string -> bool).
(** [name.ParseReference] (the name of the repository), [remote.Head] with a
    keychain and a transport (the digest), and [name.NewDigest]. *)
Context (ParseReference : string -> result string string)
        (Head : list chain -> option (option (list string)) -> string -> result string string)
        (NewDigest : string -> result string string).

Definition ResolveDigest (c : Credentials) (i : DiscoveredImage) : result string string :=
  let ref0 := tagReference i in
  if decide (ref0 = "") then Err ("image " +:+ Quote (Name i) +:+ " is not a tag reference")
  else
    let ref := RemapMirror ref0 (c_Mirrors c) in
    match ParseReference ref with
    | Err e => Err ("parsing reference " +:+ Quote ref +:+ ": " +:+ e)
    | Ok repo =>
        let transport :=
          match TransportForReference os pem_ok ref (c_CertDir c) (c_PerRegistryCertDirs c) with
          | Ok t => Some t
          | Err _ => None
          end in
        match Head (Keychain c) transport ref with
        | Err e => Err e
        | Ok digest => NewDigest (repo +:+ "@" +:+ digest)
        end
    end.

Definition EnrichDigest (c : Credentials) (i : DiscoveredImage) : DiscoveredImage :=
  if decide (VerificationReference i <> "") then i
  else
    let ref := tagReference i in
    if decide (ref = "") then i
    else match ResolveDigest c i with
         | Err e => set_digest_error ("registry digest lookup failed for " +:+ ref +:+ ": " +:+ e) i
         | Ok digestRef => set_digest digestRef i
         end.
End digests.

(** [resolve.Images]: the images that a call may return; the goroutine of an
    index enriches its image at some moment of the run, under the answers the
    registry gives then. *)
Definition Images_returns (enrich : DiscoveredImage -> DiscoveredImage -> Prop)
    (images : list DiscoveredImage) (enabled : bool) (maxConcurrent : Z)
    (out : list DiscoveredImage) : Prop :=
  if negb enabled || bool_decide (images = []) then out = images
  else pool_returns (length images) (Z.to_nat (Z.max 1 maxConcurrent))
         (fun idx b => exists img, images !! idx = Some img /\ enrich img b) out.

(** ** Facts: mirrors *)

Lemma remap_first_spec ref mus :
  (exists mu r, mu ∈ mus /\ remap_one ref mu = Some r /\ remap_first ref mus = r)
  \/ ((forall mu, mu ∈ mus -> remap_one ref mu = None) /\ remap_first ref mus = ref).
Proof.
  induction mus as [|mu mus IH]; simpl.
  - right. split; [|done]. by intros mu ?%not_elem_of_nil.
  - destruct (remap_one ref mu) as [r|] eqn:E.
    + left. exists mu, r. split; [by left|done].
    + destruct IH as [(mu' & r & Hin & Hr & Heq)|[Hno Heq]].
      * left. exists mu', r. split; [by right|done].
      * right. split; [|done]. intros mu' [->|Hin]%elem_of_cons; [done|by apply Hno].
Qed.

(** The order that visits [k] first. *)
Lemma first_order_perm {K V} `{Countable K} (k : K) (m : gmap K V) :
  match m !! k with Some v => (k, v) :: map_to_list (delete k m) | None => map_to_list m end
  ≡ₚ map_to_list m.
Proof.
  destruct (m !! k) as [v|] eqn:E; [|done].
  rewrite <-(insert_delete_id m k v E) at 2. rewrite map_to_list_insert; [done|].
  apply lookup_delete_eq.
Qed.

Definition first_order {K V} `{Countable K} (k : K) : RangeOrder K V :=
  {| range_map := fun m => match m !! k with
                           | Some v => (k, v) :: map_to_list (delete k m)
                           | None => map_to_list m
                           end;
     range_map_perm := first_order_perm k |}.

(** Two mappings that match a reference rewrite it in the same way. *)
Definition mirrors_agree (ref : string) (mirrors : gmap string string) : Prop :=
  forall k1 u1 k2 u2 r1 r2, mirrors !! k1 = Some u1 -> mirrors !! k2 = Some u2 ->
    remap_one ref (k1, u1) = Some r1 -> remap_one ref (k2, u2) = Some r2 -> r1 = r2.

Lemma RemapMirror_first (ref k u r : string) (mirrors : gmap string string) :
  ref <> "" -> mirrors !! k = Some u -> remap_one ref (k, u) = Some r ->
  @RemapMirror (first_order k) ref mirrors = r.
Proof.
  intros Hne Hk Hr. unfold RemapMirror. rewrite decide_False.
  - unfold range_map, first_order. rewrite Hk. cbn [remap_first]. by rewrite Hr.
  - intros [?| ->]; [done|]. by rewrite lookup_empty in Hk.
Qed.

(** Rewriting a reference to its upstream registry is deterministic exactly when
    no two mirrors that match it disagree: with overlapping mirror prefixes the
    registry that is asked for signatures depends on the order in which Go
    happens to visit the map. *)
Theorem RemapMirror_deterministic ref (mirrors : gmap string string) :
  ref <> "" ->
  ((forall O1 O2 : RangeOrder string string, @RemapMirror O1 ref mirrors = @RemapMirror O2 ref mirrors)
   <-> mirrors_agree ref mirrors).
Proof.
  intros Hne. split.
  - intros Hdet k1 u1 k2 u2 r1 r2 H1 H2 Hr1 Hr2.
    rewrite <-(RemapMirror_first ref k1 u1 r1 mirrors), <-(RemapMirror_first ref k2 u2 r2 mirrors) by done.
    apply Hdet.
  - intros Hag O1 O2. unfold RemapMirror. case_decide; [done|].
    destruct (remap_first_spec ref (@range_map _ _ _ _ O1 mirrors)) as [([k1 u1] & r1 & Hin1 & Hr1 & ->)|[Hno1 ->]];
      destruct (remap_first_spec ref (@range_map _ _ _ _ O2 mirrors)) as [([k2 u2] & r2 & Hin2 & Hr2 & ->)|[Hno2 ->]];
      [| | |done].
    + apply elem_of_range_map in Hin1, Hin2. exact (Hag _ _ _ _ _ _ Hin1 Hin2 Hr1 Hr2).
    + apply elem_of_range_map in Hin1. rewrite (Hno2 (k1, u1)) in Hr1; [discriminate Hr1|].
      by apply elem_of_range_map.
    + apply elem_of_range_map in Hin2. rewrite (Hno1 (k2, u2)) in Hr2; [discriminate Hr2|].
      by apply elem_of_range_map.
Qed.

Definition overlapping_mirrors : gmap string string :=
  {["mirror.local" := "docker.io"; "mirror.local/team" := "ghcr.io/team"]}.

Lemma RemapMirror_deterministic_witness :
  "mirror.local/team/api@sha256:abc" <> ""
  /\ ~ (forall O1 O2 : RangeOrder string string,
          @RemapMirror O1 "mirror.local/team/api@sha256:abc" overlapping_mirrors
          = @RemapMirror O2 "mirror.local/team/api@sha256:abc" overlapping_mirrors).
Proof.
  split; [done|]. rewrite RemapMirror_deterministic by done. intros Hag.
  specialize (Hag "mirror.local" "docker.io" "mirror.local/team" "ghcr.io/team"
                "docker.io/team/api@sha256:abc" "ghcr.io/team/api@sha256:abc" eq_refl eq_refl eq_refl eq_refl).
  discriminate Hag.
Defined.

(** Rewriting keeps the digest of a reference, as long as no mirror has one. *)
Lemma remap_one_keeps_digest ref k u r :
  "@"%char ∉ chars k -> Contains ref "@sha256:" = true -> remap_one ref (k, u) = Some r ->
  Contains r "@sha256:" = true.
Proof.
  intros Hk Hc. unfold remap_one. case_decide; [done|].
  destruct (HasPrefix ref _) eqn:Hp.
  - intros [= <-]. apply HasPrefix_spec in Hp as [t ->].
    assert ((k +:+ "/") +:+ t = k +:+ ("/" +:+ t)) as E.
    { apply chars_inj. by rewrite !chars_app, <-app_assoc. }
    rewrite E in *. rewrite TrimPrefix_app. apply Contains_app_l.
    by apply (Contains_app_inv k _ "@") in Hc.
  - case_decide as Hr; [|done]. intros _. exfalso. subst k.
    apply Contains_spec in Hc as (a & b & Hab). apply Hk. rewrite Hab, elem_of_app. right. by left.
Qed.

Lemma RemapMirror_keeps_digest `{!RangeOrder string string} ref (mirrors : gmap string string) :
  map_Forall (fun k _ => "@"%char ∉ chars k) mirrors ->
  Contains ref "@sha256:" = true -> Contains (RemapMirror ref mirrors) "@sha256:" = true.
Proof.
  intros Hm Hc. unfold RemapMirror. case_decide; [done|].
  destruct (remap_first_spec ref (range_map mirrors)) as [([k u] & r & Hin & Hr & ->)|[_ ->]]; [|done].
  eapply remap_one_keeps_digest, Hr; [|done]. apply elem_of_range_map in Hin. by apply (Hm k u).
Qed.

Lemma RemapMirror_nonempty `{!RangeOrder string string} ref (mirrors : gmap string string) :
  RemapMirror ref mirrors = "" -> ref = "".
Proof.
  unfold RemapMirror. case_decide as Hd; [done|]. intros H.
  destruct (remap_first_spec ref (range_map mirrors)) as [([k u] & r & Hin & Hr & Heq)|[_ Heq]];
    [|congruence].
  rewrite Heq in H. subst r. exfalso. unfold remap_one in Hr. case_decide as Hku; [done|].
  apply Hku. right. destruct (HasPrefix ref _).
  - injection Hr as Hr. apply (f_equal chars) in Hr. rewrite chars_app in Hr.
    apply app_nil in Hr as [Hu _]. by rewrite <-(str_chars u), Hu.
  - case_decide; [by injection Hr|discriminate Hr].
Qed.

(** ** Facts: hosts *)

Definition scheme (s : string) : bool := HasPrefix s "http://" || HasPrefix s "https://".
Definition v1_suffix (s : string) : bool := HasSuffix s "/v1" || HasSuffix s "/v1/".

Lemma HasPrefix_app_r s t p : HasPrefix s p = true -> HasPrefix (s +:+ t) p = true.
Proof.
  rewrite !HasPrefix_spec. intros [r ->]. exists (r +:+ t).
  apply chars_inj. by rewrite !chars_app, app_assoc.
Qed.

Lemma HasSuffix_app_l s t p : HasSuffix t p = true -> HasSuffix (s +:+ t) p = true.
Proof.
  rewrite !HasSuffix_spec. intros [r ->]. exists (s +:+ r).
  apply chars_inj. by rewrite !chars_app, app_assoc.
Qed.

Lemma normalizeAuthHost_shape h :
  normalizeAuthHost h = "" \/ (scheme (normalizeAuthHost h) = true /\ v1_suffix (normalizeAuthHost h) = true).
Proof.
  unfold normalizeAuthHost. case_decide as Hne; [by left|]. right. cbv zeta.
  set (h' := if HasPrefix (TrimSpace h) "http://" || HasPrefix (TrimSpace h) "https://"
             then TrimSpace h else "https://" +:+ TrimSpace h).
  assert (scheme h' = true) as Hs.
  { subst h'. fold (scheme (TrimSpace h)). destruct (scheme (TrimSpace h)) eqn:E; [done|].
    apply orb_true_iff. right. apply HasPrefix_spec. by eexists. }
  assert (forall t, scheme (h' +:+ t) = true) as Hst.
  { intros t. apply orb_true_iff in Hs as [Hs|Hs]; apply orb_true_iff; [left|right]; by apply HasPrefix_app_r. }
  clearbody h'. fold (v1_suffix h'). destruct (v1_suffix h') eqn:Ev; [done|].
  destruct (HasSuffix h' "/") eqn:El; (split; [apply Hst|]); apply orb_true_iff; right.
  - apply HasSuffix_spec in El as [t ->]. apply HasSuffix_spec. exists t.
    apply chars_inj. by rewrite !chars_app, <-app_assoc.
  - apply HasSuffix_app_l. done.
Qed.

Lemma TrimSpace_shaped s : scheme s = true -> v1_suffix s = true -> TrimSpace s = s.
Proof.
  intros Hs Hv.
  assert (exists l, chars s = "h"%char :: l) as [l Hl].
  { apply orb_true_iff in Hs as [Hs|Hs]; apply HasPrefix_spec in Hs as [t ->]; by eexists. }
  assert (exists k d, chars s = k ++ [d] /\ (d = "1" \/ d = "/")%char) as (k & d & Hk & Hd).
  { apply orb_true_iff in Hv as [Hv|Hv]; apply HasSuffix_spec in Hv as [t ->]; rewrite chars_app.
    - exists (chars t ++ chars "/v"), "1"%char. rewrite <-app_assoc. split; [done|by left].
    - exists (chars t ++ chars "/v1"), "/"%char. rewrite <-app_assoc. split; [done|by right]. }
  rewrite <-(str_chars s), Hl. apply (TrimSpace_id _ _ d k); [by apply (bool_decide_unpack _)| |congruence].
  destruct Hd as [-> | ->]; by apply (bool_decide_unpack _).
Qed.

(** The key under which credentials are stored is canonical: it is empty, or has a
    scheme and the [/v1] ending, and normalising it again changes nothing. *)
Theorem normalizeAuthHost_idempotent h :
  normalizeAuthHost (normalizeAuthHost h) = normalizeAuthHost h
  /\ (normalizeAuthHost h = ""
      \/ (scheme (normalizeAuthHost h) = true /\ v1_suffix (normalizeAuthHost h) = true)).
Proof.
  split; [|apply normalizeAuthHost_shape].
  destruct (normalizeAuthHost_shape h) as [-> |[Hs Hv]]; [done|].
  unfold normalizeAuthHost at 1. rewrite TrimSpace_shaped by done.
  fold (scheme (normalizeAuthHost h)). rewrite Hs. cbv zeta.
  fold (v1_suffix (normalizeAuthHost h)). rewrite Hv. case_decide; congruence.
Qed.

(** ** Facts: credentials reach the registry client *)

Definition auths_of (c : dockerConfig) : gmap string dockerConfigAuth := default ∅ (Auths c).

Lemma merge_fold_from m l k v :
  auths_of (foldl merge_step m l) !! k = Some v ->
  auths_of m !! k = Some v \/ exists c, c ∈ l /\ auths_of c !! k = Some v.
Proof.
  revert m. induction l as [|c l IH]; intros m; simpl; [by left|].
  intros [H|(c' & Hin & H)]%IH.
  - unfold auths_of in H. simpl in H. apply lookup_union_Some_raw in H as [H|[_ H]]; [|by left].
    right. exists c. split; [by left|done].
  - right. exists c'. split; [by right|done].
Qed.

Lemma merge_fold_keep m l k :
  (forall c, c ∈ l -> auths_of c !! k = None) ->
  auths_of (foldl merge_step m l) !! k = auths_of m !! k.
Proof.
  revert m. induction l as [|c l IH]; intros m H; simpl; [done|].
  rewrite IH by (intros c' Hc; apply H; by right).
  unfold auths_of. simpl. apply lookup_union_r. apply (H c). by left.
Qed.

(** Later configurations override earlier ones. *)
Lemma mergeDockerConfigs_last pre c post k v :
  auths_of c !! k = Some v -> (forall c', c' ∈ post -> auths_of c' !! k = None) ->
  auths_of (mergeDockerConfigs (pre ++ c :: post)) !! k = Some v.
Proof.
  intros Hc Hpost. unfold mergeDockerConfigs. rewrite foldl_app. cbn [foldl].
  rewrite merge_fold_keep by done. unfold auths_of at 1. simpl.
  by apply lookup_union_Some_l.
Qed.

Lemma mergeDockerConfigs_from l k v :
  auths_of (mergeDockerConfigs l) !! k = Some v -> exists c, c ∈ l /\ auths_of c !! k = Some v.
Proof.
  intros [H|H]%merge_fold_from; [|done]. unfold auths_of in H. simpl in H. by rewrite lookup_empty in H.
Qed.

Lemma auth_config_lookup a k v :
  auths_of (auth_config a) !! k = Some v ->
  k = normalizeAuthHost (a_Host a) /\ v = basic_auth (a_Username a) (a_Password a).
Proof.
  unfold auth_config, withBasicAuth, auths_of. case_decide; simpl; [by rewrite lookup_empty|].
  intros [[<- <-]|[_ H']]%lookup_insert_Some; [done|by rewrite lookup_empty in H'].
Qed.

(** A host as a registry client writes it: lower case, without a scheme or a path. *)
Record plain_host (h : string) : Prop := {
  host_nonempty : h <> "";
  host_not_v1 : h <> "v1";
  host_no_slash : "/"%char ∉ chars h;
  host_lower : ToLower h = h;
  host_trimmed : TrimSpace h = h
}.

Lemma no_scheme h t :
  "/"%char ∉ chars h -> (forall t', t <> String "/" t') -> scheme (h +:+ String "/" t) = false.
Proof.
  intros Hh Ht. apply not_true_iff_false. intros H.
  assert (exists p r, "/"%char ∉ p /\ chars h ++ "/"%char :: chars t = p ++ "/"%char :: "/"%char :: r)
    as (p & r & Hp & E).
  { apply orb_true_iff in H as [H|H]; apply HasPrefix_spec in H as [r H];
      apply (f_equal chars) in H; rewrite chars_app in H.
    - exists (chars "http:"), (chars r). split; [by apply (bool_decide_unpack _)|done].
    - exists (chars "https:"), (chars r). split; [by apply (bool_decide_unpack _)|done]. }
  apply sep_split_first in E as [_ E]; [|done|done].
  apply (Ht (str r)). by rewrite <-(str_chars t), E.
Qed.

Lemma no_scheme_plain h : "/"%char ∉ chars h -> scheme h = false.
Proof.
  intros Hh. apply not_true_iff_false. intros H. apply Hh.
  apply orb_true_iff in H as [H|H]; apply HasPrefix_spec in H as [r ->]; rewrite chars_app, elem_of_app;
    left; by apply (bool_decide_unpack _).
Qed.

(** A host after a scheme does not end in [/v1], nor does it before a slash. *)
Lemma no_v1_suffix p h :
  "/"%char ∉ chars h -> h <> "v1" -> h <> "" -> v1_suffix (p +:+ String "/" h) = false.
Proof.
  intros Hh Hv Hne. apply not_true_iff_false. intros H.
  apply orb_true_iff in H as [H|H]; apply HasSuffix_spec in H as [t H];
    apply (f_equal chars) in H; rewrite !chars_app in H.
  - apply (sep_split_last "/"%char) in H as [_ H]; [|done|by apply (bool_decide_unpack _)].
    apply Hv, chars_inj, H.
  - assert (chars t ++ chars "/v1/" = (chars t ++ chars "/v1") ++ ["/"%char]) as E
      by by rewrite <-app_assoc.
    rewrite E in H. apply (sep_split_last "/"%char) in H as [_ H]; [|done|by apply not_elem_of_nil].
    apply Hne, chars_inj, H.
Qed.

Lemma no_v1_suffix_slash p h :
  "/"%char ∉ chars h -> h <> "v1" -> v1_suffix ((p +:+ String "/" h) +:+ "/") = false.
Proof.
  intros Hh Hv. apply not_true_iff_false. intros H.
  apply orb_true_iff in H as [H|H]; apply HasSuffix_spec in H as [t H];
    apply (f_equal chars) in H; rewrite !chars_app in H;
    change (chars "/") with ["/"%char] in H.
  - apply (f_equal last) in H. change (chars "/v1") with (chars "/v" ++ ["1"%char]) in H.
    by rewrite (app_assoc (chars t)), !last_snoc in H.
  - change (chars "/v1/") with (chars "/v1" ++ ["/"%char]) in H.
    rewrite (app_assoc (chars t)) in H. apply app_inj_tail in H as [H _].
    apply (sep_split_last "/"%char) in H as [_ H]; [|done|by apply (bool_decide_unpack _)].
    apply Hv, chars_inj, H.
Qed.

(** The candidates for a plain host, up to the one that credentials are stored under. *)
Lemma registryCandidates_plain h :
  plain_host h ->
  exists before after, registryCandidates h = before ++ ("https://" +:+ h +:+ "/v1/") :: after
    /\ Forall (fun k => k <> "" /\ (scheme k = false \/ v1_suffix k = false)) before.
Proof.
  intros [Hne Hv Hs Hl Ht]. unfold registryCandidates. rewrite Hl, Ht, decide_False by done. cbv zeta.
  assert (Contains h "://" = false) as ->.
  { apply not_true_iff_false. intros (a & b & Hab)%Contains_spec. apply Hs. rewrite Hab, !elem_of_app.
    right. left. by apply (bool_decide_unpack _). }
  exists [h; "https://" +:+ h; "http://" +:+ h; h +:+ "/"; h +:+ "/v1/"; h +:+ "/v1"; "https://" +:+ h +:+ "/"].
  match goal with |- exists after, (if _ then ?a else if _ then ?b else ?c) = _ /\ _ =>
    assert (exists tl, c = [h; "https://" +:+ h; "http://" +:+ h; h +:+ "/"; h +:+ "/v1/"; h +:+ "/v1";
                            "https://" +:+ h +:+ "/"] ++ ("https://" +:+ h +:+ "/v1/") :: tl) as [tl Htl]
      by (eexists; reflexivity)
  end.
  rewrite Htl.
  match goal with |- exists after, ?x = ?l ++ ?k :: _ /\ _ =>
    assert (exists after, x = l ++ k :: after) as [after ->]
      by (case_decide; [|case_match]; rewrite <-?app_assoc; eexists; reflexivity)
  end.
  exists after. split; [done|].
  repeat apply Forall_cons_2; [..|apply Forall_nil_2]; (split; [by destruct h|]).
  - left. by apply no_scheme_plain.
  - right. by apply (no_v1_suffix "https:/").
  - right. by apply (no_v1_suffix "http:/").
  - left. by apply no_scheme.
  - left. by apply no_scheme.
  - left. by apply no_scheme.
  - right. by apply (no_v1_suffix_slash "https:/").
Qed.

Lemma first_authenticator_at auths before k v after :
  Forall (fun k => auths !! k = None) before -> auths !! k = Some v ->
  first_authenticator auths (before ++ k :: after)
  = match authConfigAuthenticator v with
    | Some a => a
    | None => first_authenticator auths after
    end.
Proof.
  intros H Hk. induction H as [|x l Hx _ IH]; simpl; [by rewrite Hk|]. by rewrite Hx.
Qed.

(** Credentials configured for a registry are the ones its client uses: when the
    list of credentials has an entry for a host, later entries are for other
    hosts, and there is nothing else, the keychain of the configuration that is
    written answers that host with the user and the password of the entry. *)
Theorem configured_credentials_are_used c pre a post h :
  plain_host h -> c_Username c = "" -> c_Password c = "" -> c_Auths c = pre ++ a :: post ->
  normalizeAuthHost (a_Host a) = "https://" +:+ h +:+ "/v1/" ->
  (a_Username a <> "" \/ a_Password a <> "") ->
  (forall b, b ∈ post -> normalizeAuthHost (a_Host b) <> "https://" +:+ h +:+ "/v1/") ->
  first_authenticator (auths_of (merged_config [] c)) (registryCandidates h)
  = Basic (a_Username a) (a_Password a).
Proof.
  intros Hh Hu Hp Hc Ha Hne Hpost. unfold merged_config. rewrite decide_False by (rewrite Hu, Hp; tauto).
  destruct (registryCandidates_plain h Hh) as (before & after & -> & Hb). simpl app.
  rewrite Hc, fmap_app, fmap_cons.
  rewrite (first_authenticator_at _ before _ (basic_auth (a_Username a) (a_Password a))).
  - unfold authConfigAuthenticator, basic_auth. simpl.
    rewrite (decide_False (P := a_Username a = "" /\ _)) by tauto.
    by rewrite decide_False by tauto.
  - eapply Forall_impl; [exact Hb|]. intros k [Hk1 Hk2].
    destruct (auths_of _ !! k) as [v|] eqn:E; [|done]. exfalso.
    apply mergeDockerConfigs_from in E as (c' & Hin & E). rewrite <-fmap_cons, <-fmap_app in Hin.
    apply list_elem_of_fmap in Hin as (b & -> & _). apply auth_config_lookup in E as [-> _].
    destruct (normalizeAuthHost_shape (a_Host b)) as [?|[H1 H2]]; [done|].
    destruct Hk2; congruence.
  - apply mergeDockerConfigs_last.
    + unfold auth_config, withBasicAuth, auths_of. rewrite decide_False by tauto. simpl.
      rewrite Ha. apply lookup_insert_eq.
    + intros c' (b & -> & Hb')%list_elem_of_fmap.
      destruct (auths_of (auth_config b) !! _) eqn:E; [|done]. apply auth_config_lookup in E as [E _].
      by destruct (Hpost b Hb').
Qed.

Definition ghcr_creds : Credentials :=
  {| c_Username := ""; c_Password := ""; c_CertDir := ""; c_DockerConfigDir := ""; c_AuthHost := "";
     c_Auths := [{| a_Host := "https://index.docker.io/v1/"; a_Username := "hub"; a_Password := "h" |};
                 {| a_Host := "ghcr.io"; a_Username := "robot"; a_Password := "secret" |}];
     c_PerRegistryCertDirs := ∅; c_Mirrors := ∅ |}.

Lemma ghcr_plain : plain_host "ghcr.io".
Proof. constructor; [done|done|by apply (bool_decide_unpack _)|reflexivity|reflexivity]. Qed.

Lemma configured_credentials_are_used_witness :
  first_authenticator (auths_of (merged_config [] ghcr_creds)) (registryCandidates "ghcr.io")
  = Basic "robot" "secret".
Proof.
  apply (configured_credentials_are_used ghcr_creds
           [{| a_Host := "https://index.docker.io/v1/"; a_Username := "hub"; a_Password := "h" |}]
           {| a_Host := "ghcr.io"; a_Username := "robot"; a_Password := "secret" |} []);
    [apply ghcr_plain|reflexivity|reflexivity|reflexivity|reflexivity|by left|by intros b ?%not_elem_of_nil].
Defined.

(** ** Facts: temporary directories *)

Section prepare_facts.
Context (os : OS) (json_decode : string -> result string dockerConfig)
        (json_encode : dockerConfig -> string) (mkdir_ok : temps -> bool)
        (write_ok : string -> string -> bool) `{!RangeOrder string string}.

(** [p] owns exactly the directories it will remove: removing them leads back to [t]. *)
Definition owns (t : temps) (p : PreparedCredentials) : Prop := Cleanup p = t.

Lemma MkdirTemp_fresh prefix t dir t' :
  MkdirTemp mkdir_ok prefix t = Some (dir, t') -> t !! dir = None /\ delete dir t' = t.
Proof.
  unfold MkdirTemp. destruct (mkdir_ok t); [|done]. intros [= <- <-].
  pose proof (fresh_string_fresh t ("/tmp/" +:+ prefix)) as Hf.
  split; [done|]. by apply delete_insert_id.
Qed.

Lemma WriteFile_delete dir name data t t' :
  WriteFile write_ok dir name data t = Some t' -> delete dir t' = delete dir t.
Proof.
  unfold WriteFile. destruct (write_ok dir name); [|done]. intros [= <-]. apply delete_insert_eq.
Qed.

Lemma copy_certs_delete dir target entries index t :
  let r := copy_certs os write_ok dir target entries index t in
  delete target (snd r) = delete target t
  /\ (forall i t', fst r = Some (i, t') -> t' = snd r).
Proof.
  cbv zeta. revert index t. induction entries as [|[name isDir] entries IH]; intros index t; simpl.
  - split; [done|]. by intros i t' [= _ ->].
  - destruct (isDir || negb (is_cert_file name)); [apply IH|].
    destruct (ReadFile os _) as [data|e]; [|done].
    destruct (WriteFile write_ok _ _ _ _) as [t'|] eqn:E; [|done].
    apply WriteFile_delete in E. destruct (IH (S index) t') as [H1 H2]. by rewrite H1, E.
Qed.

Lemma copy_dirs_delete dirs target index t :
  delete target (snd (copy_dirs os write_ok dirs target index t)) = delete target t.
Proof.
  revert index t. induction dirs as [|d dirs IH]; intros index t; simpl; [done|].
  destruct (ReadDir os d) as [entries|e]; [|done].
  destruct (copy_certs_delete d target entries index t) as [H1 H2].
  destruct (copy_certs _ _ _ _ _ _ _) as [[[i t']|] t'']; simpl in *; [|done].
  rewrite IH, <-H1. by rewrite (H2 i t').
Qed.

(** Adding the directory that was just made keeps the ownership. *)
Lemma owns_add t p dir t1 creds :
  owns t p -> delete dir t1 = tmp p ->
  owns t {| Prepared := creds; cleanups := cleanups p ++ [dir]; tmp := t1 |}.
Proof.
  unfold owns, Cleanup. simpl. intros Hp Hd. rewrite reverse_snoc. simpl.
  assert (forall l : list string, foldr RemoveAll (delete dir t1) l = RemoveAll dir (foldr RemoveAll t1 l))
    as Hcomm.
  { intros l. induction l as [|x l IH]; [done|]. simpl. rewrite IH. unfold RemoveAll. apply delete_delete. }
  by rewrite <-Hcomm, Hd.
Qed.

Lemma materializeDockerConfig_owns t p :
  owns t p ->
  owns t (materializeDockerConfig os json_decode json_encode mkdir_ok write_ok p).1.
Proof.
  intros Hp. unfold materializeDockerConfig. cbv zeta. destruct (negb _); [done|].
  match goal with |- owns _ (match ?x with Ok _ => _ | Err _ => _ end).1 => destruct x as [existing|e]; [|done] end.
  destruct (MkdirTemp mkdir_ok _ (tmp p)) as [[dir t1]|] eqn:E; [|done].
  apply MkdirTemp_fresh in E as [Hfresh Hdel].
  destruct (writeDockerConfigDir _ _ _ _ _) as [t2|] eqn:E2; simpl.
  - apply WriteFile_delete in E2. apply owns_add; [done|]. by rewrite E2.
  - unfold owns, Cleanup, RemoveAll at 2. simpl. by rewrite Hdel.
Qed.

Lemma materializeCertDir_owns t p :
  owns t p -> owns t (materializeCertDir os mkdir_ok write_ok p).1.
Proof.
  intros Hp. unfold materializeCertDir. cbv zeta. case_decide; [done|].
  destruct (MkdirTemp mkdir_ok _ (tmp p)) as [[dir t1]|] eqn:E; [|done].
  apply MkdirTemp_fresh in E as [Hfresh Hdel]. unfold MergeRegistryCertDirs.
  match goal with |- context [copy_dirs ?a ?b ?c ?d ?e ?f] =>
    pose proof (copy_dirs_delete c d e f) as Hc; destruct (copy_dirs a b c d e f) as [[] t2] end; simpl in *.
  - apply owns_add; [done|]. by rewrite Hc.
  - unfold owns, Cleanup, RemoveAll at 2. simpl. by rewrite Hc, Hdel.
Qed.

End prepare_facts.

(** Preparing the credentials leaves no secrets behind: when it fails, the
    temporary directories are those from before; when it succeeds, cleaning up
    removes exactly what was made, and neither the user name nor the password
    is kept beside the configuration file whenever one was needed. *)
Theorem Prepare_leaves_nothing `{!RangeOrder string string} os decode encode mkdir_ok write_ok creds t :
  match Prepare os decode encode mkdir_ok write_ok creds t with
  | (Err _, t') => t' = t
  | (Ok p, t') => t' = tmp p /\ Cleanup p = t
                  /\ (needsConfig creds = true -> c_Username (Prepared p) = "" /\ c_Password (Prepared p) = "")
  end.
Proof.
  unfold Prepare. cbv zeta. set (p0 := {| Prepared := creds; cleanups := []; tmp := t |}).
  assert (owns t p0) as H0 by done.
  pose proof (materializeDockerConfig_owns os decode encode mkdir_ok write_ok t p0 H0) as H1.
  destruct (materializeDockerConfig os decode encode mkdir_ok write_ok p0) as [p1 [e|]] eqn:E1; [done|].
  pose proof (materializeCertDir_owns os mkdir_ok write_ok t p1 H1) as H2.
  destruct (materializeCertDir os mkdir_ok write_ok p1) as [p2 [e|]] eqn:E2; [done|].
  split_and!; [done|done|]. intros Hneed.
  assert (c_Username (Prepared p1) = "" /\ c_Password (Prepared p1) = "") as Hp1.
  { revert E1. unfold materializeDockerConfig. cbv zeta. simpl Prepared. rewrite Hneed. simpl negb. cbv iota.
    match goal with |- match ?x with Ok _ => _ | Err _ => _ end = _ -> _ => destruct x; [|done] end.
    destruct (MkdirTemp _ _ _) as [[dir t1]|]; [|done].
    destruct (writeDockerConfigDir _ _ _ _ _); [|done]. by intros [= <-]. }
  revert E2. unfold materializeCertDir. cbv zeta. case_decide; [by intros [= <-]|].
  destruct (MkdirTemp _ _ _) as [[dir t1]|]; [|done].
  destruct (MergeRegistryCertDirs _ _ _ _ _ _) as [[] t2]; [|done]. by intros [= <-].
Qed.

(** ** Facts: certificates *)

Lemma append_entries_incl os pem_ok dir entries pool pool' :
  append_entries os pem_ok dir entries pool = Some pool' ->
  pool ⊆ pool' /\ forall name data, (name, false) ∈ entries -> is_cert_file name = true ->
    ReadFile os (PathJoin dir name) = Ok data -> data ∈ pool'.
Proof.
  revert pool. induction entries as [|[n d] entries IH]; intros pool; simpl.
  - intros [= <-]. split; [done|]. by intros name data ?%not_elem_of_nil.
  - destruct (d || negb (is_cert_file n)) eqn:Ed.
    + intros [H1 H2]%IH. split; [done|]. intros name data [[= <- <-]|Hin]%elem_of_cons Hc Hr.
      * by rewrite Hc in Ed.
      * by eapply H2.
    + destruct (ReadFile os _) as [data0|] eqn:Er; [|done]. destruct (pem_ok data0); [|done].
      intros [H1 H2]%IH. split; [set_solver|]. intros name data [[= <- <-]|Hin]%elem_of_cons Hc Hr.
      * rewrite Er in Hr. injection Hr as ->. set_solver.
      * by eapply H2.
Qed.

Lemma append_dirs_incl os pem_ok dirs pool pool' :
  append_dirs os pem_ok dirs pool = Some pool' ->
  pool ⊆ pool' /\ forall d entries name data, d ∈ dirs -> ReadDir os d = Ok entries ->
    (name, false) ∈ entries -> is_cert_file name = true -> ReadFile os (PathJoin d name) = Ok data ->
    data ∈ pool'.
Proof.
  revert pool. induction dirs as [|d dirs IH]; intros pool; simpl.
  - intros [= <-]. split; [done|]. by intros ? ? ? ? ?%not_elem_of_nil.
  - unfold appendCertsFromDir. destruct (ReadDir os d) as [entries|] eqn:Ed; [|done]. simpl.
    destruct (append_entries _ _ _ _ _) as [pool1|] eqn:Ea; [|done]. simpl.
    apply append_entries_incl in Ea as [Hp Ha]. intros [H1 H2]%IH. split; [set_solver|].
    intros d' es name data [->|Hin]%elem_of_cons He Hn Hc Hr; [|by eapply H2].
    rewrite Ed in He. injection He as ->. apply H1. by eapply Ha.
Qed.

(** The certificates configured for one registry are trusted for every registry:
    whatever reference a transport is made for, its roots contain each
    certificate of each per-registry directory. *)
Theorem TransportForReference_trusts_all `{!RangeOrder string string} os pem_ok ref global
    (per : gmap string string) pool host dir entries name data :
  TransportForReference os pem_ok ref global per = Ok (Some pool) ->
  per !! host = Some dir -> ReadDir os dir = Ok entries -> (name, false) ∈ entries ->
  is_cert_file name = true -> ReadFile os (PathJoin dir name) = Ok data -> data ∈ pool.
Proof.
  unfold TransportForReference. cbv zeta. intros H Hd. case_decide; [done|].
  destruct (append_dirs _ _ _ _) as [pool'|] eqn:Ea; [|done]. injection H as ->.
  apply append_dirs_incl in Ea as [_ Ha]. intros ????. eapply Ha; try done.
  apply elem_of_app. right. apply list_elem_of_fmap. exists (host, dir).
  split; [done|]. by apply elem_of_range_map.
Qed.

(** Two registries with one certificate each. *)
Definition two_certs_os : OS :=
  {| Getenv := fun _ => "";
     ReadFile := fun p => Ok ("PEM " +:+ p);
     Stat := fun _ => Err "no such file";
     ReadDir := fun d => Ok [("ca.crt", false); ("README", false)];
     Getwd := "/" |}.

Definition two_dirs : gmap string string := {["a.example" := "/certs/a"; "b.example" := "/certs/b"]}.

Lemma two_certs_pool :
  exists pool, @TransportForReference two_certs_os canonical_order (fun _ => true) "a.example/x:1" "" two_dirs
               = Ok (Some pool).
Proof. eexists. vm_compute. reflexivity. Qed.

Lemma TransportForReference_trusts_all_witness :
  exists pool, @TransportForReference two_certs_os canonical_order (fun _ => true) "a.example/x:1" "" two_dirs
               = Ok (Some pool) /\ "PEM /certs/b/ca.crt" ∈ pool.
Proof.
  destruct two_certs_pool as [pool H]. exists pool. split; [exact H|].
  apply (@TransportForReference_trusts_all canonical_order two_certs_os (fun _ => true) "a.example/x:1" ""
           two_dirs pool "b.example" "/certs/b" [("ca.crt", false); ("README", false)] "ca.crt");
    [exact H|reflexivity|reflexivity|by left|reflexivity|reflexivity].
Defined.

(** The directory of a registry with a port is not found for its own references,
    because the port is cut off before the lookup. *)
Example cert_dir_with_port :
  @certDirForReference canonical_order "registry.local:5000/team/api@sha256:abc" "/etc/ssl"
    {["registry.local:5000" := "/certs/local"]} = "/etc/ssl".
Proof. vm_compute. reflexivity. Qed.

(** ** Facts: digests *)

(** After the lookup of digests every image can be verified, has no tag to look up,
    or carries the error of the lookup; an image that had an immutable reference
    is left alone, and one that was resolved is verified under the digest the
    registry answered. *)
Theorem EnrichDigest_verifiable `{!RangeOrder string string} os pem_ok parse head new c i :
  (forall s d, new s = Ok d -> Contains d "@sha256:" = true) ->
  let i' := EnrichDigest os pem_ok parse head new c i in
  (VerificationReference i <> "" -> i' = i)
  /\ (VerificationReference i = "" ->
      (tagReference i = "" /\ i' = i)
      \/ (exists d, ResolveDigest os pem_ok parse head new c i = Ok d /\ VerificationReference i' = d /\ d <> "")
      \/ (DigestResolveError i' <> "" /\ ID i' = ID i))
  /\ Name i' = Name i /\ Owners i' = Owners i.
Proof.
  intros Hnew. unfold EnrichDigest. cbv zeta. case_decide as Hv; [by split_and!|].
  case_decide as Ht; [split_and!; [done|intros _; by left|done|done]|].
  destruct (ResolveDigest os pem_ok parse head new c i) as [d|e] eqn:E.
  - assert (Contains d "@sha256:" = true) as Hd.
    { revert E. unfold ResolveDigest. cbv zeta. rewrite decide_False by done.
      destruct (parse _); [|done]. match goal with |- match head ?a ?b ?r with _ => _ end = _ -> _ =>
        destruct (head a b r); [|done] end. apply Hnew. }
    split_and!; [done| |done|done]. intros _. right. left. exists d. split; [done|].
    unfold VerificationReference, set_digest. simpl. rewrite Hd. split; [done|]. by intros ->.
  - split_and!; [done| |done|done]. intros _. by right; right.
Qed.

Lemma EnrichDigest_verifiable_witness :
  let i := {| Name := "ghcr.io/example/api:1"; ID := ""; PullRef := ""; Owners := []; DigestResolveError := "" |} in
  let i' := @EnrichDigest canonical_order (env_os []) (fun _ => true) (fun _ => Ok "ghcr.io/example/api")
              (fun _ _ _ => Ok "abc") (fun _ => Ok "ghcr.io/example/api@sha256:abc") ghcr_creds i in
  VerificationReference i' = "ghcr.io/example/api@sha256:abc" /\ Name i' = Name i /\ Owners i' = Owners i.
Proof.
  cbv zeta. split; [reflexivity|].
  apply (@EnrichDigest_verifiable canonical_order (env_os []) (fun _ => true)). by intros s d [= <-].
Defined.

(** Every element of the result belongs to the image at its index, under every
    schedule of the goroutines; the call ends, and never runs more lookups at a
    time than it may. *)
Lemma Images_aligned (enrich : DiscoveredImage -> DiscoveredImage -> Prop) images enabled cap :
  (forall img, exists b, enrich img b) ->
  (exists out, Images_returns enrich images enabled cap out)
  /\ forall out, Images_returns enrich images enabled cap out ->
       Forall2 (fun img b => (enabled = false /\ b = img) \/ enrich img b) images out.
Proof.
  intros He. unfold Images_returns.
  destruct (negb enabled || bool_decide (images = [])) eqn:E.
  - split; [by eexists|]. intros out ->. apply orb_true_iff in E as [E|E].
    + apply negb_true_iff in E. apply Forall2_same_length_lookup_2; [done|].
      intros i x y Hx Hy. left. split; [done|congruence].
    + apply bool_decide_eq_true in E as ->. constructor.
  - destruct (pool_correct (length images) (Z.to_nat (Z.max 1 cap))
                (fun idx b => exists img, images !! idx = Some img /\ enrich img b)) as (Hex & Hspec & _);
      [lia| |].
    + intros i [img Hi]%lookup_lt_is_Some_2. destruct (He img) as [b Hb]. by exists b, img.
    + split; [done|]. intros out [Hlen Hout]%Hspec. apply Forall2_same_length_lookup_2; [done|].
      intros i img b Hi Hb. right. destruct (Hout i b Hb) as (img' & Hi' & H). congruence.
Qed.
