(* ===== verification/ImageTrustVerify.v ===== *)
(** * image-trust: verification

    [image-trust/pkg/verify/]: the four cosign verifiers, their composition
    under a policy, the classification of failures, the retries and the
    concurrent verification of all images.  Running cosign, sleeping and drawing
    a random number act on an abstract world that is passed along; the regular
    expression engine and the JSON decoder are parameters. *)

From stdpp Require Import base decidable list gmap strings.
From Stdlib Require Import ZArith Lia Ascii.
From S2P Require Import Prelude GoStrings GoText ImageTrustModels ImageTrustConfig ImageTrustRegistry WorkerPool.

Local Open Scope Z_scope.

(** ** Classification of failures *)

Definition containsHTTPStatus (message : string) (code : Z) : bool :=
  let codeStr := fmt_d code in
  Contains message (" " +:+ codeStr) || Contains message (":" +:+ codeStr)
  || Contains message ("status " +:+ codeStr) || Contains message ("status code: " +:+ codeStr)
  || Contains message ("http " +:+ codeStr).

Definition says_unsigned (m : string) : bool :=
  Contains m "no matching signatures" || Contains m "no signatures found"
  || Contains m "no matching attestations" || Contains m "no attestations found"
  || (Contains m "not found in transparency log" && Contains m "signature").

Definition says_unauthorized (m : string) : bool :=
  Contains m "unauthorized" || Contains m "authentication required" || containsHTTPStatus m 401
  || containsHTTPStatus m 403 || Contains m "access denied" || Contains m "denied: access forbidden"
  || Contains m "forbidden".

Definition says_untrusted (m : string) : bool :=
  Contains m "certificate identity" || Contains m "certificate oidc issuer"
  || Contains m "oidc issuer did not match" || Contains m "expected identities".

Definition classifyCosignFailure (message : string) : Status * string :=
  let normalized := ToLower (TrimSpace message) in
  let reason := if decide (TrimSpace message = "") then "cosign verification failed"
                else TrimSpace message in
  if decide (normalized = "") then (StatusVerificationError, "cosign verification failed")
  else if says_unsigned normalized then (StatusUnsigned, reason)
  else if says_unauthorized normalized then (StatusVerificationError, reason)
  else if says_untrusted normalized then (StatusSignedUntrusted, reason)
  else (StatusVerificationError, reason).

Definition IsTransientFailure (reason : string) : bool :=
  let m := ToLower (TrimSpace reason) in
  Contains m "timeout" || Contains m "temporary failure" || Contains m "connection refused"
  || Contains m "connection reset" || Contains m "i/o timeout" || Contains m "tls handshake timeout"
  || Contains m "no such host" || containsHTTPStatus m 429 || containsHTTPStatus m 502
  || containsHTTPStatus m 503 || containsHTTPStatus m 504 || Contains m "too many requests"
  || Contains m "service unavailable".

(** ** Merging of observations *)

Definition set_verified_by (mode : VerificationMode) (o : VerificationObservation)
    : VerificationObservation :=
  {| o_Mode := o_Mode o; o_VerifiedBy := mode; o_Status := o_Status o; o_Reason := o_Reason o;
     o_AttestationType := o_AttestationType o; o_Signer := o_Signer o; o_Signers := o_Signers o |}.

Definition set_mode (mode : VerificationMode) (o : VerificationObservation) : VerificationObservation :=
  {| o_Mode := mode; o_VerifiedBy := o_VerifiedBy o; o_Status := o_Status o; o_Reason := o_Reason o;
     o_AttestationType := o_AttestationType o; o_Signer := o_Signer o; o_Signers := o_Signers o |}.

(** [if o.VerifiedBy == "" { o.VerifiedBy = o.Mode }]. *)
Definition credit (o : VerificationObservation) : VerificationObservation :=
  if decide (o_VerifiedBy o = "") then set_verified_by (o_Mode o) o else o.

Definition no_result : VerificationObservation :=
  observation "" StatusVerificationError "no verification modes produced a result".

Definition priority : list Status :=
  [StatusSignedUntrusted; StatusUnsigned; StatusVerificationError; StatusUnknown].

Fixpoint first_of_priority (prio : list Status) (attempts : list VerificationObservation)
    : option VerificationObservation :=
  match prio with
  | [] => None
  | st :: prio' =>
      match List.find (fun o => bool_decide (o_Status o = st)) attempts with
      | Some o => Some o
      | None => first_of_priority prio' attempts
      end
  end.

Definition mergeObservations (attempts : list VerificationObservation) : VerificationObservation :=
  match attempts with
  | [] => no_result
  | first :: _ => credit (default first (first_of_priority priority attempts))
  end.

Definition signerIsEmpty (s : SignerDetails) : bool :=
  bool_decide (Issuer s = "" /\ Subject s = "" /\ KeyRef s = "").

Definition isSignatureMode (m : VerificationMode) : bool :=
  bool_decide (m = VerificationModeCosignKeyless \/ m = VerificationModeCosignKey).

Definition isAttestationMode (m : VerificationMode) : bool :=
  bool_decide (m = VerificationModeCosignAttestationKeyless \/ m = VerificationModeCosignAttestationKey).

(** The key under which signers are the same: its parts separated by NUL. *)
Definition signer_key (s : SignerDetails) : string :=
  Issuer s +:+ String zero (Subject s +:+ String zero (KeyRef s)).

Definition dedupe_signer_step (acc : gset string * list SignerDetails) (s : SignerDetails)
    : gset string * list SignerDetails :=
  let '(seen, deduped) := acc in
  if signerIsEmpty s then acc
  else if decide (signer_key s ∈ seen) then acc
  else ({[signer_key s]} ∪ seen, deduped ++ [s]).

Definition dedupeSigners (signers : list SignerDetails) : list SignerDetails :=
  snd (foldl dedupe_signer_step (∅, []) signers).

(** The first signer of an attempt of a kind of mode. *)
Definition first_signer (kind : VerificationMode -> bool) (attempts : list VerificationObservation)
    : option SignerDetails :=
  o_Signer <$> List.find (fun o => kind (o_Mode o) && negb (signerIsEmpty (o_Signer o))) attempts.

Definition last_attestation_type (t0 : string) (attempts : list VerificationObservation) : string :=
  foldl (fun t o => if decide (o_AttestationType o <> "") then o_AttestationType o else t) t0 attempts.

Definition mergeVerifiedObservations (last : VerificationObservation)
    (attempts : list VerificationObservation) : VerificationObservation :=
  let merged := credit last in
  let signer := default (o_Signer merged) (first_signer isSignatureMode attempts) in
  let signer := if signerIsEmpty signer
                then default signer (first_signer isAttestationMode attempts) else signer in
  {| o_Mode := o_Mode merged; o_VerifiedBy := o_VerifiedBy merged; o_Status := o_Status merged;
     o_Reason := "all configured verification modes succeeded";
     o_AttestationType := last_attestation_type (o_AttestationType merged) attempts;
     o_Signer := signer;
     o_Signers := dedupeSigners (attempts ≫= o_Signers) |}.

(** ** Verifiers *)

(** The interface [Verifier]: a verification may change the world. *)
Record Verifier (W : Type) : Type := {
  v_Name : VerificationMode;
  v_Verify : DiscoveredImage -> W -> result string VerificationObservation * W
}.
Arguments v_Name {W}.
Arguments v_Verify {W}.

Section composite.
Context {W : Type}.

Record CompositeVerifier : Type := {
  cv_verifiers : list (Verifier W);
  cv_policy : string
}.

Definition NewCompositeVerifier (policy0 : string) (verifiers : list (Verifier W))
    : result string CompositeVerifier :=
  if decide (verifiers = []) then Err "at least one verifier is required"
  else
    let policy := if decide (policy0 = "") then ModePolicyAny else policy0 in
    if decide (policy <> ModePolicyAny /\ policy <> ModePolicyAll)
    then Err ("unsupported mode policy " +:+ Quote policy)
    else Ok {| cv_verifiers := verifiers; cv_policy := policy |}.

(** The loop of [verifyAny]: it stops at the first mode that verifies. *)
Fixpoint verify_any (vs : list (Verifier W)) (attempts : list VerificationObservation)
    (image : DiscoveredImage) (w : W) : result string VerificationObservation * W :=
  match vs with
  | [] =>
      let merged := mergeObservations attempts in
      (Ok (match attempts with
           | first :: _ =>
               if decide (o_VerifiedBy merged = "" /\ o_Mode merged = "")
               then set_mode (o_Mode first) merged else merged
           | [] => merged
           end), w)
  | v :: vs' =>
      match v_Verify v image w with
      | (Err e, w') => (Err (v_Name v +:+ ": " +:+ e), w')
      | (Ok o, w') =>
          if decide (o_Status o = StatusVerified) then (Ok (credit o), w')
          else verify_any vs' (attempts ++ [o]) image w'
      end
  end.

(** The loop of [verifyAll]: it stops at the first mode that does not. *)
Fixpoint verify_all (vs : list (Verifier W)) (attempts : list VerificationObservation)
    (image : DiscoveredImage) (w : W) : result string VerificationObservation * W :=
  match vs with
  | [] =>
      (Ok (match last attempts with
           | None => no_result
           | Some l => mergeVerifiedObservations l attempts
           end), w)
  | v :: vs' =>
      match v_Verify v image w with
      | (Err e, w') => (Err (v_Name v +:+ ": " +:+ e), w')
      | (Ok o, w') =>
          if decide (o_Status o <> StatusVerified) then (Ok (credit o), w')
          else verify_all vs' (attempts ++ [o]) image w'
      end
  end.

Definition composite_Verify (c : CompositeVerifier) (image : DiscoveredImage) (w : W)
    : result string VerificationObservation * W :=
  if decide (cv_policy c = ModePolicyAny) then verify_any (cv_verifiers c) [] image w
  else if decide (cv_policy c = ModePolicyAll) then verify_all (cv_verifiers c) [] image w
  else (Err ("unsupported mode policy " +:+ Quote (cv_policy c)), w).

(** A composite as a verifier; its constructor never makes an empty one. *)
Definition composite_verifier (c : CompositeVerifier) : Verifier W :=
  {| v_Name := match cv_verifiers c with v :: _ => v_Name v | [] => "" end;
     v_Verify := composite_Verify c |}.

End composite.
Arguments CompositeVerifier : clear implicits.

(** ** Cosign *)

Definition firstNonEmpty (values : list string) : string :=
  default "" (List.find (fun v => bool_decide (TrimSpace v <> "")) values).

(** [optional] of a record: a nil map is [None], a value that is not a string is [None]. *)
Definition optionalString (values : option (gmap string (option string))) (key : string) : string :=
  match values with
  | None => ""
  | Some m => match m !! key with
              | Some (Some s) => s
              | _ => ""
              end
  end.

Definition record_signer (optional : option (gmap string (option string))) : SignerDetails :=
  {| Issuer := optionalString optional "Issuer";
     Subject := optionalString optional "Subject";
     KeyRef := firstNonEmpty [optionalString optional "keyid"; optionalString optional "KeyID";
                              optionalString optional "KeyRef"] |}.

Section cosign.
Context {W Regexp : Type}.
(** [CommandRunner.Run]: standard output, standard error and the error, if any. *)
Context (Run : string -> list string -> W -> (string * string * option string) * W).
(** [regexp.Compile] and [MatchString]. *)
Context (Compile : string -> result string Regexp) (MatchString : Regexp -> string -> bool).
(** [json.Unmarshal] into the records of cosign. *)
Context (json_records : string -> result string (list (option (gmap string (option string))))).
Context `{!RangeOrder string string}.

Definition extractCosignSigners (stdout : string) : result string (list SignerDetails) :=
  if decide (TrimSpace stdout = "") then Ok []
  else match json_records stdout with
       | Err e => Err e
       | Ok records => Ok (filter (fun s => signerIsEmpty s = false) (record_signer <$> records))
       end.

Fixpoint regex_patterns (regexes : list string) : result string (list string) :=
  match regexes with
  | [] => Ok []
  | p :: regexes' =>
      if decide (TrimSpace p = "") then regex_patterns regexes'
      else match Compile p with
           | Err e => Err e
           | Ok _ =>
               match regex_patterns regexes' with
               | Err e => Err e
               | Ok ps => Ok (("(?:" +:+ p +:+ ")") :: ps)
               end
           end
  end.

Definition buildAlternationRegex (exacts regexes : list string) : result string string :=
  let quoted := (fun e => "^" +:+ QuoteMeta e +:+ "$") <$> filter (fun e => TrimSpace e <> "") exacts in
  match regex_patterns regexes with
  | Err e => Err e
  | Ok ps => Ok (Join (quoted ++ ps) "|")
  end.

(** The compiled policy: [None] is a nil matcher. *)
Record trust_policy : Type := {
  trustedIssuerMatcher : option Regexp;
  trustedSubjectMatcher : option Regexp
}.

Definition matcher_of (what re : string) : result string (option Regexp) :=
  if decide (re = "") then Ok None
  else match Compile re with
       | Err e => Err ("compiling " +:+ what +:+ " regex: " +:+ e)
       | Ok r => Ok (Some r)
       end.

(** The common part of the two keyless constructors. *)
Definition new_trust_policy (issuers subjects subjectREs : list string) : result string trust_policy :=
  match buildAlternationRegex issuers [] with
  | Err e => Err ("building issuer regex: " +:+ e)
  | Ok issuerRE =>
      match buildAlternationRegex subjects subjectREs with
      | Err e => Err ("building subject regex: " +:+ e)
      | Ok subjectRE =>
          match matcher_of "issuer" issuerRE with
          | Err e => Err e
          | Ok im =>
              match matcher_of "subject" subjectRE with
              | Err e => Err e
              | Ok sm => Ok {| trustedIssuerMatcher := im; trustedSubjectMatcher := sm |}
              end
          end
      end
  end.

Definition hasTrustPolicy (t : trust_policy) : bool :=
  match trustedIssuerMatcher t, trustedSubjectMatcher t with
  | None, None => false
  | _, _ => true
  end.

Definition matches (m : option Regexp) (s : string) : bool :=
  match m with
  | None => true
  | Some r => MatchString r s
  end.

Definition isTrustedSigner (t : trust_policy) (s : SignerDetails) : bool :=
  matches (trustedIssuerMatcher t) (Issuer s) && matches (trustedSubjectMatcher t) (Subject s).

Context (creds : Credentials).

(** The reference that cosign is asked about. *)
Definition ref_of (image : DiscoveredImage) : string :=
  creds_VerificationReference creds (VerificationReference image).

Definition unresolved (mode : VerificationMode) : VerificationObservation :=
  observation mode StatusUnknown "image could not be resolved to an immutable digest reference".

(** The observation of a command that failed. *)
Definition failure (mode : VerificationMode) (stdout stderr e : string) : VerificationObservation :=
  if Contains e "executable file not found"
  then observation mode StatusVerificationError "cosign binary not available"
  else let '(status, reason) := classifyCosignFailure (firstNonEmpty [stderr; stdout; e]) in
       observation mode status reason.

(** The observation of a keyless command that succeeded: [what] and the texts
    are those of signatures or of attestations. *)
Definition keyless_outcome (mode : VerificationMode) (t : trust_policy) (attType okText untrustedText : string)
    (signers : list SignerDetails) : VerificationObservation :=
  match List.find (isTrustedSigner t) signers with
  | Some s =>
      {| o_Mode := mode; o_VerifiedBy := ""; o_Status := StatusVerified; o_Reason := okText;
         o_AttestationType := attType; o_Signer := s; o_Signers := signers |}
  | None =>
      {| o_Mode := mode; o_VerifiedBy := ""; o_Status := StatusSignedUntrusted;
         o_Reason := untrustedText; o_AttestationType := "";
         o_Signer := default no_signer (head signers); o_Signers := signers |}
  end.

Definition keyless_verify_args (ref : string) : list string :=
  ["verify"; "--output"; "json"; "--certificate-identity-regexp"; ".*";
   "--certificate-oidc-issuer-regexp"; ".*"] ++ CosignArgs creds ++ [ref].

Definition Cosign_Verify (t : trust_policy) (image : DiscoveredImage) (w : W)
    : result string VerificationObservation * W :=
  let mode := VerificationModeCosignKeyless in
  let ref := ref_of image in
  if decide (ref = "") then (Ok (unresolved mode), w)
  else
    let '(stdout, stderr, err, w') := Run "cosign" (keyless_verify_args ref) w in
    match err with
    | Some e => (Ok (failure mode stdout stderr e), w')
    | None =>
        match extractCosignSigners stdout with
        | Err e => (Ok (observation mode StatusVerificationError
                          ("cosign verification succeeded but signer data could not be parsed: " +:+ e)), w')
        | Ok signers =>
            if negb (hasTrustPolicy t) then
              (Ok (observation mode StatusVerificationError
                     "trusted issuer or subject policy is not configured"), w')
            else if decide (signers = []) then
              (Ok (observation mode StatusVerificationError
                     "cosign verification succeeded but signer identity could not be determined"), w')
            else (Ok (keyless_outcome mode t "" "cosign verification succeeded"
                        "signature was verified but no signer matched the configured trust policy"
                        signers), w')
        end
    end.

(** The observation of a keyed command that succeeded. *)
Definition keyed_outcome (mode : VerificationMode) (key : TrustedPublicKey) (attType okText : string)
    (signers : list SignerDetails) : VerificationObservation :=
  {| o_Mode := mode; o_VerifiedBy := ""; o_Status := StatusVerified; o_Reason := okText;
     o_AttestationType := attType;
     o_Signer := {| Issuer := from_ptr "" Issuer (head signers);
                    Subject := from_ptr "" Subject (head signers);
                    KeyRef := ReportKeyRef key |};
     o_Signers := signers |}.

Definition tlog_args (ignoreTlog : bool) : list string :=
  if ignoreTlog then ["--insecure-ignore-tlog"] else [].

Definition key_verify_args (ignoreTlog : bool) (ref : string) (key : TrustedPublicKey) : list string :=
  ["verify"; "--output"; "json"; "--key"; k_Ref key] ++ tlog_args ignoreTlog ++ CosignArgs creds ++ [ref].

Definition key_verifyWithKey (ignoreTlog : bool) (ref : string) (key : TrustedPublicKey) (w : W)
    : VerificationObservation * W :=
  let mode := VerificationModeCosignKey in
  let '(stdout, stderr, err, w') := Run "cosign" (key_verify_args ignoreTlog ref key) w in
  match err with
  | Some e => (failure mode stdout stderr e, w')
  | None =>
      match extractCosignSigners stdout with
      | Err e => (observation mode StatusVerificationError
                    ("cosign verification succeeded but signer data could not be parsed: " +:+ e), w')
      | Ok signers =>
          (keyed_outcome mode key ""
             ("cosign verification succeeded with trusted public key " +:+ ReportKeyRef key) signers, w')
      end
  end.

(** The loops over keys and attestation types: the first attempt that verifies,
    otherwise the merge of all attempts. *)
Fixpoint first_verified {A} (mode : VerificationMode) (attempt : A -> W -> VerificationObservation * W)
    (xs : list A) (attempts : list VerificationObservation) (w : W) : VerificationObservation * W :=
  match xs with
  | [] => (set_mode mode (mergeObservations attempts), w)
  | x :: xs' =>
      let '(o, w') := attempt x w in
      if decide (o_Status o = StatusVerified) then (o, w')
      else first_verified mode attempt xs' (attempts ++ [o]) w'
  end.

Definition CosignKey_Verify (ignoreTlog : bool) (keys : list TrustedPublicKey) (image : DiscoveredImage)
    (w : W) : result string VerificationObservation * W :=
  let mode := VerificationModeCosignKey in
  let ref := ref_of image in
  if decide (ref = "") then (Ok (unresolved mode), w)
  else let '(o, w') := first_verified mode (key_verifyWithKey ignoreTlog ref) keys [] w in (Ok o, w').

Definition attestation_args (ref attestationType : string) : list string :=
  ["verify-attestation"; "--output"; "json"; "--type"; attestationType; "--certificate-identity-regexp";
   ".*"; "--certificate-oidc-issuer-regexp"; ".*"] ++ CosignArgs creds ++ [ref].

Definition attestation_verifyType (t : trust_policy) (ref attestationType : string) (w : W)
    : VerificationObservation * W :=
  let mode := VerificationModeCosignAttestationKeyless in
  let '(stdout, stderr, err, w') := Run "cosign" (attestation_args ref attestationType) w in
  match err with
  | Some e => (failure mode stdout stderr e, w')
  | None =>
      match extractCosignSigners stdout with
      | Err e => (observation mode StatusVerificationError
                    ("cosign attestation verification succeeded but signer data could not be parsed: " +:+ e), w')
      | Ok signers =>
          if decide (signers = []) then
            (observation mode StatusVerificationError
               "cosign attestation verification succeeded but signer identity could not be determined", w')
          else (keyless_outcome mode t attestationType
                  ("cosign attestation verification succeeded for type " +:+ attestationType)
                  ("attestation type " +:+ attestationType
                   +:+ " was verified but no signer matched the configured trust policy") signers, w')
      end
  end.

Definition CosignAttestation_Verify (t : trust_policy) (types : list string) (image : DiscoveredImage)
    (w : W) : result string VerificationObservation * W :=
  let mode := VerificationModeCosignAttestationKeyless in
  let ref := ref_of image in
  if decide (ref = "") then (Ok (unresolved mode), w)
  else if negb (hasTrustPolicy t) then
    (Ok (observation mode StatusVerificationError "trusted issuer or subject policy is not configured"), w)
  else let '(o, w') := first_verified mode (attestation_verifyType t ref) types [] w in (Ok o, w').

Definition attestation_key_args (ignoreTlog : bool) (ref : string) (key : TrustedPublicKey)
    (attestationType : string) : list string :=
  ["verify-attestation"; "--output"; "json"; "--type"; attestationType; "--key"; k_Ref key]
  ++ tlog_args ignoreTlog ++ CosignArgs creds ++ [ref].

Definition attestation_verifyWithKey (ignoreTlog : bool) (ref : string) (kt : TrustedPublicKey * string)
    (w : W) : VerificationObservation * W :=
  let mode := VerificationModeCosignAttestationKey in
  let '(key, attestationType) := kt in
  let '(stdout, stderr, err, w') := Run "cosign" (attestation_key_args ignoreTlog ref key attestationType) w in
  match err with
  | Some e => (failure mode stdout stderr e, w')
  | None =>
      match extractCosignSigners stdout with
      | Err e => (observation mode StatusVerificationError
                    ("cosign attestation verification succeeded but signer data could not be parsed: " +:+ e), w')
      | Ok signers =>
          (keyed_outcome mode key attestationType
             ("cosign attestation verification succeeded with trusted public key " +:+ ReportKeyRef key
              +:+ " for type " +:+ attestationType) signers, w')
      end
  end.

(** The nested loops over keys and types, as one over their pairs. *)
Definition key_types (keys : list TrustedPublicKey) (types : list string)
    : list (TrustedPublicKey * string) := keys ≫= fun k => (fun t => (k, t)) <$> types.

Definition CosignAttestationKey_Verify (ignoreTlog : bool) (keys : list TrustedPublicKey)
    (types : list string) (image : DiscoveredImage) (w : W) : result string VerificationObservation * W :=
  let mode := VerificationModeCosignAttestationKey in
  let ref := ref_of image in
  if decide (ref = "") then (Ok (unresolved mode), w)
  else let '(o, w') := first_verified mode (attestation_verifyWithKey ignoreTlog ref)
                         (key_types keys types) [] w in (Ok o, w').

(** *** Constructors *)

Definition NewCosignVerifier (issuers subjects subjectREs : list string) : result string (Verifier W) :=
  match new_trust_policy issuers subjects subjectREs with
  | Err e => Err e
  | Ok t => Ok {| v_Name := VerificationModeCosignKeyless; v_Verify := Cosign_Verify t |}
  end.

Definition NewCosignKeyVerifier (keys : list TrustedPublicKey) (ignoreTlog : bool)
    : result string (Verifier W) :=
  if decide (length keys = 0)%nat then Err "at least one trusted public key is required"
  else Ok {| v_Name := VerificationModeCosignKey; v_Verify := CosignKey_Verify ignoreTlog keys |}.

Definition NewCosignAttestationVerifier (types issuers subjects subjectREs : list string)
    : result string (Verifier W) :=
  if decide (types = []) then Err "at least one attestation type is required"
  else match new_trust_policy issuers subjects subjectREs with
       | Err e => Err e
       | Ok t => Ok {| v_Name := VerificationModeCosignAttestationKeyless;
                       v_Verify := CosignAttestation_Verify t types |}
       end.

Definition NewCosignAttestationKeyVerifier (keys : list TrustedPublicKey) (types : list string)
    (ignoreTlog : bool) : result string (Verifier W) :=
  if decide (length keys = 0)%nat then Err "at least one trusted public key is required"
  else if decide (types = []) then Err "at least one attestation type is required"
  else Ok {| v_Name := VerificationModeCosignAttestationKey;
             v_Verify := CosignAttestationKey_Verify ignoreTlog keys types |}.

Definition new_mode_verifier (cfg : Config) (mode : string) : result string (Verifier W) :=
  if decide (mode = ModeCosignKeyless) then
    NewCosignVerifier (TrustedIssuers cfg) (TrustedSubjects cfg) (TrustedSubjectREs cfg)
  else if decide (mode = ModeCosignKey) then
    NewCosignKeyVerifier (TrustedPublicKeys cfg) (IgnoreTlog cfg)
  else if decide (mode = ModeCosignAttestationKeyless) then
    NewCosignAttestationVerifier (AttestationTypes cfg) (TrustedIssuers cfg) (TrustedSubjects cfg)
      (TrustedSubjectREs cfg)
  else if decide (mode = ModeCosignAttestationKey) then
    NewCosignAttestationKeyVerifier (TrustedPublicKeys cfg) (AttestationTypes cfg) (IgnoreTlog cfg)
  else Err ("unsupported verification mode " +:+ Quote mode).

Fixpoint new_mode_verifiers (cfg : Config) (modes : list string) : result string (list (Verifier W)) :=
  match modes with
  | [] => Ok []
  | m :: modes' =>
      match new_mode_verifier cfg m with
      | Err e => Err e
      | Ok v =>
          match new_mode_verifiers cfg modes' with
          | Err e => Err e
          | Ok vs => Ok (v :: vs)
          end
      end
  end.

Definition NewVerifier (cfg : Config) : result string (Verifier W) :=
  if decide (VerificationModes cfg = []) then Err "no verification modes configured"
  else match new_mode_verifiers cfg (VerificationModes cfg) with
       | Err e => Err e
       | Ok [v] => Ok v
       | Ok vs =>
           match NewCompositeVerifier (ModePolicy cfg) vs with
           | Err e => Err e
           | Ok c => Ok (composite_verifier c)
           end
       end.

(** ** Preflight and retries *)

Definition Preflight (image : DiscoveredImage) : option VerificationObservation :=
  if decide (ref_of image <> "") then None
  else if decide (DigestResolveError image <> "")
  then Some (observation "" StatusVerificationError (DigestResolveError image))
  else Some (unresolved "").

End cosign.

Section retries.
Context {W : Type} (verifier : Verifier W).
(** [rand.Int63n], and the wait: the error of a context that ends first. *)
Context (Int63n : Z -> W -> Z * W) (sleep : Z -> W -> option string * W).

Definition transient (o : VerificationObservation) : bool :=
  bool_decide (o_Status o = StatusVerificationError) && IsTransientFailure (o_Reason o).

Definition zero_observation : VerificationObservation := observation "" "" "".

(** The attempts that are left; after the last one its observation is returned. *)
Fixpoint retry_loop (left : nat) (last : VerificationObservation) (backoff : Z) (jitter : bool)
    (image : DiscoveredImage) (w : W) : result string VerificationObservation * W :=
  match left with
  | O => (Ok last, w)
  | S left' =>
      match v_Verify verifier image w with
      | (Err e, w1) => (Err e, w1)
      | (Ok o, w1) =>
          if negb (transient o) then (Ok o, w1)
          else match left' with
               | O => (Ok o, w1)
               | S _ =>
                   let '(delay, w2) :=
                     if jitter then let '(r, w') := Int63n backoff w1 in (GoInt.i64 (backoff + r), w')
                     else (backoff, w1) in
                   match sleep delay w2 with
                   | (Some e, w3) => (Err e, w3)
                   | (None, w3) => retry_loop left' o backoff jitter image w3
                   end
               end
      end
  end.

Definition effective_backoff (backoff : Z) : Z := if backoff <=? 0 then 2 * GoTime.Second else backoff.

Definition VerifyWithRetries (image : DiscoveredImage) (retries backoff : Z) (jitter : bool) (w : W)
    : result string VerificationObservation * W :=
  let retries := if retries <? 1 then 1 else retries in
  retry_loop (Z.to_nat retries) zero_observation (effective_backoff backoff) jitter image w.

(** ** All images *)

Definition verificationModeFromObservation (o : VerificationObservation) : string :=
  if decide (o_VerifiedBy o <> "") then o_VerifiedBy o
  else if decide (o_Mode o <> "") then o_Mode o
  else "".

Definition imageTrustResultFromObservation (img : DiscoveredImage) (o : VerificationObservation)
    : ImageTrustResult :=
  {| t_Name := Name img; t_ID := ID img; t_PullRef := PullRef img; t_Status := o_Status o;
     t_Reason := o_Reason o; t_VerificationMode := verificationModeFromObservation o;
     t_VerifiedBy := if decide (o_VerifiedBy o = "") then o_Mode o else o_VerifiedBy o;
     t_AttestationType := o_AttestationType o; t_Allowlisted := false; t_AllowlistReason := "";
     t_Owners := Owners img; t_Signer := o_Signer o; t_CandidateSigners := o_Signers o;
     t_DigestResolveError := DigestResolveError img; t_LastCheckedAt := GoTime.zeroTime |}.

Definition imageTrustResultFromError (img : DiscoveredImage) (e : string) : ImageTrustResult :=
  {| t_Name := Name img; t_ID := ID img; t_PullRef := PullRef img; t_Status := StatusVerificationError;
     t_Reason := if decide (e = "") then "image trust verification failed" else e;
     t_VerificationMode := ""; t_VerifiedBy := ""; t_AttestationType := ""; t_Allowlisted := false;
     t_AllowlistReason := ""; t_Owners := Owners img; t_Signer := no_signer; t_CandidateSigners := [];
     t_DigestResolveError := DigestResolveError img; t_LastCheckedAt := GoTime.zeroTime |}.

Context `{!RangeOrder string string} (creds : Credentials).

(** The body of the goroutine of one image, in the world it runs in; [ctx_err] is
    what the context says when it starts. *)
Definition verify_image (retries backoff : Z) (jitter : bool) (img : DiscoveredImage)
    (ctx_err : option string) (w : W) : ImageTrustResult :=
  match ctx_err with
  | Some e => imageTrustResultFromError img e
  | None =>
      match Preflight creds img with
      | Some o => imageTrustResultFromObservation img o
      | None =>
          match VerifyWithRetries img retries backoff jitter w with
          | (Err e, _) => imageTrustResultFromError img e
          | (Ok o, _) => imageTrustResultFromObservation img o
          end
      end
  end.

(** [VerifyImages]: the results it may return. *)
Definition VerifyImages_returns (images : list DiscoveredImage) (maxConcurrent retries backoff : Z)
    (jitter : bool) (rs : list ImageTrustResult) : Prop :=
  if decide (images = []) then rs = []
  else pool_returns (length images) (Z.to_nat (Z.max 1 maxConcurrent))
         (fun idx r => exists img ctx_err w, images !! idx = Some img
            /\ r = verify_image retries backoff jitter img ctx_err w) rs.

End retries.

(** ** Facts: classification *)

Lemma classify_status m : (classifyCosignFailure m).1 ∈ [StatusVerificationError; StatusUnsigned; StatusSignedUntrusted].
Proof. unfold classifyCosignFailure. cbv zeta. case_decide; [set_solver|]. repeat case_match; set_solver. Qed.

Lemma failure_status mode stdout stderr e :
  o_Status (failure mode stdout stderr e) ∈ [StatusVerificationError; StatusUnsigned; StatusSignedUntrusted].
Proof.
  unfold failure. case_match; [set_solver|].
  pose proof (classify_status (firstNonEmpty [stderr; stdout; e])).
  by destruct (classifyCosignFailure _).
Qed.

Lemma failure_not_verified mode stdout stderr e :
  o_Status (failure mode stdout stderr e) <> StatusVerified
  /\ o_Status (failure mode stdout stderr e) ∈ statuses.
Proof.
  pose proof (failure_status mode stdout stderr e) as H.
  rewrite !elem_of_cons, elem_of_nil in H. unfold statuses.
  destruct H as [->|[->|[->|[]]]]; split; try done; set_solver.
Qed.

(** ** Facts: merging *)

Lemma credit_status o : o_Status (credit o) = o_Status o.
Proof. unfold credit. by case_decide. Qed.

Lemma find_none {A} (f : A -> bool) l : List.find f l = None -> Forall (fun x => f x = false) l.
Proof. intros H. apply Forall_forall. intros x Hx. apply (List.find_none _ _ H). by apply list_elem_of_In. Qed.

Lemma find_some {A} (f : A -> bool) l x : List.find f l = Some x -> x ∈ l /\ f x = true.
Proof. intros [H1 H2]%List.find_some. split; [by apply list_elem_of_In|done]. Qed.

Lemma first_of_priority_spec prio attempts o :
  first_of_priority prio attempts = Some o ->
  o ∈ attempts /\ exists before after, prio = before ++ o_Status o :: after
    /\ Forall (fun st => Forall (fun a => o_Status a <> st) attempts) before.
Proof.
  induction prio as [|st prio IH]; simpl; [done|].
  destruct (List.find _ attempts) as [o'|] eqn:E.
  - intros [= ->]. apply find_some in E as [Hin Hst]. apply bool_decide_eq_true in Hst.
    split; [done|]. exists [], prio. by rewrite Hst.
  - intros (Hin & before & after & -> & Hb)%IH. split; [done|].
    exists (st :: before), after. split; [done|]. constructor; [|done].
    apply find_none in E. eapply Forall_impl; [exact E|]. intros a Ha. by apply bool_decide_eq_false in Ha.
Qed.

Lemma first_of_priority_none prio attempts :
  first_of_priority prio attempts = None -> Forall (fun a => o_Status a ∉ prio) attempts.
Proof.
  induction prio as [|st prio IH]; simpl.
  - intros _. apply Forall_forall. intros a _. apply not_elem_of_nil.
  - destruct (List.find _ attempts) eqn:E; [done|]. intros H%IH. apply find_none in E.
    rewrite Forall_forall in *. intros a Ha. rewrite not_elem_of_cons. split; [|by apply H].
    specialize (E a Ha). by apply bool_decide_eq_false in E.
Qed.

(** A merge of unverified attempts is one of them. *)
Lemma mergeObservations_in attempts :
  attempts <> [] -> exists o, o ∈ attempts /\ mergeObservations attempts = credit o.
Proof.
  destruct attempts as [|first attempts]; [done|]. intros _. cbn [mergeObservations].
  destruct (first_of_priority priority (first :: attempts)) as [o|] eqn:E.
  - apply first_of_priority_spec in E as [Hin _]. by exists o.
  - exists first. split; [by left|done].
Qed.

(** Of several unsuccessful modes the report keeps the most telling: the merged
    observation is one of the attempts, and no attempt has a status that comes
    before it in the order untrusted signer, unsigned, error, unknown. *)
Theorem mergeObservations_priority attempts :
  attempts <> [] -> Forall (fun o => o_Status o ∈ priority) attempts ->
  exists o before after, o ∈ attempts /\ mergeObservations attempts = credit o
    /\ priority = before ++ o_Status o :: after
    /\ Forall (fun a => o_Status a ∈ o_Status o :: after) attempts.
Proof.
  destruct attempts as [|first attempts]; [done|]. intros _ Hall. cbn [mergeObservations].
  destruct (first_of_priority priority (first :: attempts)) as [o|] eqn:E.
  - apply first_of_priority_spec in E as (Hin & before & after & Hp & Hb).
    exists o, before, after. split_and!; [done|done|done|].
    apply Forall_forall. intros a Ha. pose proof (proj1 (Forall_forall _ _) Hall a Ha) as Hst.
    clear Hall. rename Hst into Hall. rewrite Hp in Hall. apply elem_of_app in Hall as [Hx|Hx]; [|done].
    pose proof (proj1 (Forall_forall _ _) (proj1 (Forall_forall _ _) Hb _ Hx) a Ha). done.
  - apply first_of_priority_none in E. apply Forall_cons in E as [E _].
    by apply Forall_cons in Hall as [? _].
Qed.

Lemma mergeObservations_priority_witness :
  let attempts := [observation "cosign-key" StatusVerificationError "timeout";
                   observation "cosign-keyless" StatusUnsigned "no signatures found"] in
  exists o before after, o ∈ attempts /\ mergeObservations attempts = credit o
    /\ priority = before ++ o_Status o :: after
    /\ Forall (fun a => o_Status a ∈ o_Status o :: after) attempts.
Proof.
  apply mergeObservations_priority; [done|].
  repeat constructor; by apply (bool_decide_unpack _).
Defined.

(** *** Signers *)

Definition nul_free (s : SignerDetails) : Prop :=
  zero ∉ chars (Issuer s) /\ zero ∉ chars (Subject s).

Lemma signer_key_inj s t : nul_free s -> nul_free t -> signer_key s = signer_key t -> s = t.
Proof.
  intros [H1 H2] [H3 H4] H. apply (f_equal chars) in H. unfold signer_key in H.
  rewrite !chars_app in H.
  change (chars (String zero ?x)) with (zero :: chars x) in H.
  apply sep_split_first in H as [E1 H]; [|done|done]. rewrite !chars_app in H.
  apply (sep_split_first zero) in H as [E2 E3]; [|done|done].
  apply chars_inj in E1, E2, E3. destruct s, t. simpl in *. congruence.
Qed.

Lemma dedupe_signers_fold signers d :
  NoDup (signer_key <$> d) -> Forall nul_free d -> Forall nul_free signers ->
  exists r, foldl dedupe_signer_step (list_to_set (signer_key <$> d), d) signers
      = (list_to_set (signer_key <$> r), r)
    /\ NoDup (signer_key <$> r)
    /\ forall s, s ∈ r <-> s ∈ d \/ (s ∈ signers /\ signerIsEmpty s = false).
Proof.
  intros Hnd Hd Hs. revert d Hnd Hd. induction Hs as [|s signers Hns _ IH]; intros d Hnd Hd; cbn [foldl].
  - exists d. split_and!; [done|done|]. intros s. rewrite elem_of_nil. tauto.
  - unfold dedupe_signer_step at 2. destruct (signerIsEmpty s) eqn:Ee.
    + destruct (IH d Hnd Hd) as (r & -> & Hr & Hin). exists r. split_and!; [done|done|].
      intros x. rewrite Hin, elem_of_cons. split; [tauto|]. intros [?|[[->|?] ?]]; [tauto|congruence|tauto].
    + case_decide as Hk; rewrite elem_of_list_to_set in Hk.
      * destruct (IH d Hnd Hd) as (r & -> & Hr & Hin). exists r. split_and!; [done|done|].
        intros x. rewrite Hin, elem_of_cons. split; [tauto|]. intros [?|[[->|?] ?]]; [tauto| |tauto].
        left. apply list_elem_of_fmap in Hk as (y & Hy & Hyd).
        rewrite Forall_forall in Hd. by rewrite (signer_key_inj s y Hns (Hd y Hyd) Hy).
      * assert (({[signer_key s]} ∪ list_to_set (signer_key <$> d) : gset string)
                = list_to_set (signer_key <$> (d ++ [s]))) as ->.
        { rewrite fmap_app, list_to_set_app_L. simpl. set_solver. }
        destruct (IH (d ++ [s])) as (r & -> & Hr & Hin).
        { rewrite fmap_app. apply NoDup_app. split_and!; [done| |apply NoDup_singleton].
          intros x Hx. simpl. rewrite list_elem_of_singleton. by intros ->. }
        { apply Forall_app. split; [done|]. by constructor. }
        exists r. split_and!; [done|done|]. intros x.
        rewrite Hin, elem_of_app, list_elem_of_singleton, elem_of_cons.
        split; [intros [[?| ->]|?]; tauto|]. intros [?|[[->|?] ?]]; tauto.
Qed.

(** The signers of a report are the nonempty ones, each once. *)
Lemma dedupeSigners_spec signers :
  Forall nul_free signers ->
  NoDup (dedupeSigners signers)
  /\ forall s, s ∈ dedupeSigners signers <-> s ∈ signers /\ signerIsEmpty s = false.
Proof.
  intros H. destruct (dedupe_signers_fold signers []) as (r & Hr & Hnd & Hin); [constructor|constructor|done|].
  unfold dedupeSigners. change (list_to_set (signer_key <$> [])) with (∅ : gset string) in Hr.
  rewrite Hr. simpl. split; [by eapply NoDup_fmap_1|]. intros s. rewrite Hin, elem_of_nil. tauto.
Qed.

(** ** Facts: a verifier never fails, and verifies only with evidence *)

(** A verifier that always makes an observation with a status of the schema, and
    verifies an image only when [P] holds of it. *)
Definition sound {W} (P : DiscoveredImage -> Prop) (v : Verifier W) : Prop :=
  forall img w, exists o w', v_Verify v img w = (Ok o, w') /\ o_Status o ∈ statuses
    /\ (o_Status o = StatusVerified -> P img).

Section evidence.
Context {W Regexp : Type} (Run : string -> list string -> W -> (string * string * option string) * W)
        (Compile : string -> result string Regexp) (MatchString : Regexp -> string -> bool)
        (json_records : string -> result string (list (option (gmap string (option string)))))
        `{!RangeOrder string string} (creds : Credentials) (cfg : Config).

(** Cosign succeeded on these arguments and printed these signers. *)
Definition cosign_ok (args : list string) (signers : list SignerDetails) : Prop :=
  exists w stdout stderr w', Run "cosign" args w = (stdout, stderr, None, w')
    /\ extractCosignSigners json_records stdout = Ok signers.

(** One of the signers matches the configured policy. *)
Definition trusted_signer (signers : list SignerDetails) : Prop :=
  exists t s, new_trust_policy Compile (TrustedIssuers cfg) (TrustedSubjects cfg) (TrustedSubjectREs cfg) = Ok t
    /\ hasTrustPolicy t = true /\ s ∈ signers /\ isTrustedSigner MatchString t s = true.

(** What it takes for a mode to verify an image. *)
Inductive evidence (img : DiscoveredImage) : string -> Prop :=
| KeylessEvidence signers :
    cosign_ok (keyless_verify_args creds (ref_of creds img)) signers -> trusted_signer signers ->
    evidence img ModeCosignKeyless
| KeyEvidence key signers :
    key ∈ TrustedPublicKeys cfg ->
    cosign_ok (key_verify_args creds (IgnoreTlog cfg) (ref_of creds img) key) signers ->
    evidence img ModeCosignKey
| AttestationEvidence ty signers :
    ty ∈ AttestationTypes cfg -> cosign_ok (attestation_args creds (ref_of creds img) ty) signers ->
    trusted_signer signers -> evidence img ModeCosignAttestationKeyless
| AttestationKeyEvidence key ty signers :
    key ∈ TrustedPublicKeys cfg -> ty ∈ AttestationTypes cfg ->
    cosign_ok (attestation_key_args creds (IgnoreTlog cfg) (ref_of creds img) key ty) signers ->
    evidence img ModeCosignAttestationKey.

Definition mode_evidence (mode : string) (img : DiscoveredImage) : Prop :=
  ref_of creds img <> "" /\ evidence img mode.

Lemma status_error : StatusVerificationError ∈ statuses /\ StatusVerificationError <> StatusVerified.
Proof. split; [by apply (bool_decide_unpack _)|done]. Qed.

Lemma status_unknown : StatusUnknown ∈ statuses /\ StatusUnknown <> StatusVerified.
Proof. split; [by apply (bool_decide_unpack _)|done]. Qed.

Lemma status_verified : StatusVerified ∈ statuses.
Proof. by apply (bool_decide_unpack _). Qed.

Lemma keyless_outcome_sound mode t attType okText untrusted signers :
  o_Status (keyless_outcome MatchString mode t attType okText untrusted signers) ∈ statuses
  /\ (o_Status (keyless_outcome MatchString mode t attType okText untrusted signers) = StatusVerified ->
      exists s, s ∈ signers /\ isTrustedSigner MatchString t s = true).
Proof.
  unfold keyless_outcome. destruct (List.find _ signers) as [s|] eqn:E; simpl.
  - split; [apply status_verified|]. intros _. apply find_some in E. by exists s.
  - split; [by apply (bool_decide_unpack _)|done].
Qed.

(** The attempt of a loop is sound for [Q] when it verifies only under [Q]. *)
Definition sound_attempt {A} (Q : A -> Prop) (attempt : A -> W -> VerificationObservation * W) : Prop :=
  forall x w, o_Status (attempt x w).1 ∈ statuses /\ (o_Status (attempt x w).1 = StatusVerified -> Q x).

Lemma first_verified_sound {A} (Q : A -> Prop) mode attempt xs attempts w :
  sound_attempt Q attempt ->
  Forall (fun o => o_Status o ∈ statuses /\ o_Status o <> StatusVerified) attempts ->
  let o := (first_verified mode attempt xs attempts w).1 in
  o_Status o ∈ statuses /\ (o_Status o = StatusVerified -> exists x, x ∈ xs /\ Q x).
Proof.
  intros Hsound. revert attempts w. induction xs as [|x xs IH]; intros attempts w Hatt; simpl.
  - destruct attempts as [|a0 attempts]; [by split; [apply status_error|]|].
    destruct (mergeObservations_in (a0 :: attempts)) as (o & Hin & ->); [done|]. rewrite credit_status.
    rewrite Forall_forall in Hatt. destruct (Hatt o Hin). done.
  - destruct (Hsound x w) as [Hst Hq]. destruct (attempt x w) as [o w'] eqn:E. simpl in Hst, Hq.
    case_decide as Hv; simpl.
    + split; [done|]. intros _. exists x. split; [by left|by apply Hq].
    + destruct (IH (attempts ++ [o]) w') as [H1 H2].
      { apply Forall_app. split; [done|]. by constructor. }
      split; [done|]. intros H. destruct (H2 H) as (y & Hy & HQ). exists y. split; [by right|done].
Qed.

Lemma keyed_attempt_sound (args : list string) mode key attType okText badText w :
  let r := (let '(stdout, stderr, err, w') := Run "cosign" args w in
            match err with
            | Some e => (failure mode stdout stderr e, w')
            | None =>
                match extractCosignSigners json_records stdout with
                | Err e => (observation mode StatusVerificationError (badText e), w')
                | Ok signers => (keyed_outcome mode key attType okText signers, w')
                end
            end) in
  o_Status r.1 ∈ statuses /\ (o_Status r.1 = StatusVerified -> exists signers, cosign_ok args signers).
Proof.
  cbv zeta. destruct (Run "cosign" args w) as [[[stdout stderr] [e|]] w'] eqn:E.
  - destruct (failure_not_verified mode stdout stderr e). done.
  - destruct (extractCosignSigners _ stdout) as [signers|e] eqn:Es; simpl.
    + split; [apply status_verified|]. intros _. exists signers, w, stdout, stderr, w'. done.
    + by split; [apply status_error|].
Qed.

Lemma Cosign_sound t :
  new_trust_policy Compile (TrustedIssuers cfg) (TrustedSubjects cfg) (TrustedSubjectREs cfg) = Ok t ->
  sound (mode_evidence ModeCosignKeyless)
    {| v_Name := VerificationModeCosignKeyless;
       v_Verify := Cosign_Verify Run MatchString json_records creds t |}.
Proof.
  intros Ht img w. simpl. unfold Cosign_Verify. cbv zeta. case_decide as Href.
  - eexists _, _. split; [done|]. by split; [apply status_unknown|].
  - destruct (Run "cosign" _ w) as [[[stdout stderr] [e|]] w'] eqn:E.
    + eexists _, _. split; [done|].
      destruct (failure_not_verified VerificationModeCosignKeyless stdout stderr e). done.
    + destruct (extractCosignSigners _ stdout) as [signers|e] eqn:Es;
        [|eexists _, _; split; [done|]; by split; [apply status_error|]].
      destruct (hasTrustPolicy t) eqn:Hp; simpl negb; cbv iota;
        [|eexists _, _; split; [done|]; by split; [apply status_error|]].
      case_decide as Hne; [eexists _, _; split; [done|]; by split; [apply status_error|]|].
      eexists _, _. split; [done|].
      match goal with |- o_Status (keyless_outcome _ ?m ?t ?a ?b ?c ?d) ∈ _ /\ _ =>
        destruct (keyless_outcome_sound m t a b c d) as [H1 H2] end.
      split; [done|]. intros (s & Hs & Htr)%H2. split; [done|].
      apply (KeylessEvidence _ signers); [by exists w, stdout, stderr, w'|by exists t, s].
Qed.

Lemma CosignKey_sound :
  sound (mode_evidence ModeCosignKey)
    {| v_Name := VerificationModeCosignKey;
       v_Verify := CosignKey_Verify Run json_records creds (IgnoreTlog cfg) (TrustedPublicKeys cfg) |}.
Proof.
  intros img w. simpl. unfold CosignKey_Verify. cbv zeta. case_decide as Href.
  - eexists _, _. split; [done|]. by split; [apply status_unknown|].
  - match goal with |- context [first_verified ?m ?f ?xs ?a ?w] =>
      destruct (first_verified_sound
                  (fun key => exists signers, cosign_ok (key_verify_args creds (IgnoreTlog cfg) (ref_of creds img) key) signers)
                  m f xs a w) as [H1 H2]; [|constructor|];
      [|destruct (first_verified m f xs a w) as [o w'] eqn:E] end.
    + intros key w0. apply keyed_attempt_sound.
    + eexists _, _. split; [done|]. split; [done|]. intros (key & Hk & signers & Hc)%H2.
      split; [done|]. by apply (KeyEvidence _ key signers).
Qed.

Lemma CosignAttestation_sound t :
  new_trust_policy Compile (TrustedIssuers cfg) (TrustedSubjects cfg) (TrustedSubjectREs cfg) = Ok t ->
  sound (mode_evidence ModeCosignAttestationKeyless)
    {| v_Name := VerificationModeCosignAttestationKeyless;
       v_Verify := CosignAttestation_Verify Run MatchString json_records creds t (AttestationTypes cfg) |}.
Proof.
  intros Ht img w. simpl. unfold CosignAttestation_Verify. cbv zeta. case_decide as Href.
  - eexists _, _. split; [done|]. by split; [apply status_unknown|].
  - destruct (hasTrustPolicy t) eqn:Hp; simpl negb; cbv iota;
      [|eexists _, _; split; [done|]; by split; [apply status_error|]].
    match goal with |- context [first_verified ?m ?f ?xs ?a ?w] =>
      destruct (first_verified_sound
                  (fun ty => exists signers, cosign_ok (attestation_args creds (ref_of creds img) ty) signers
                     /\ trusted_signer signers) m f xs a w) as [H1 H2]; [|constructor|];
      [|destruct (first_verified m f xs a w) as [o w'] eqn:E] end.
    + intros ty w0. unfold attestation_verifyType. cbv zeta.
      destruct (Run "cosign" _ w0) as [[[stdout stderr] [e|]] w'] eqn:E; simpl.
      { destruct (failure_not_verified VerificationModeCosignAttestationKeyless stdout stderr e). done. }
      destruct (extractCosignSigners _ stdout) as [signers|e] eqn:Es; [|by split; [apply status_error|]].
      case_decide; simpl; [by split; [apply status_error|]|].
      match goal with |- o_Status (keyless_outcome _ ?m ?t ?a ?b ?c ?d) ∈ _ /\ _ =>
        destruct (keyless_outcome_sound m t a b c d) as [H3 H4] end.
      split; [done|]. intros (s & Hs & Htr)%H4. exists signers.
      split; [by exists w0, stdout, stderr, w'|by exists t, s].
    + eexists _, _. split; [done|]. split; [done|]. intros (ty & Hty & signers & Hc & Htr)%H2.
      split; [done|]. by apply (AttestationEvidence _ ty signers).
Qed.

Lemma CosignAttestationKey_sound :
  sound (mode_evidence ModeCosignAttestationKey)
    {| v_Name := VerificationModeCosignAttestationKey;
       v_Verify := CosignAttestationKey_Verify Run json_records creds (IgnoreTlog cfg)
                     (TrustedPublicKeys cfg) (AttestationTypes cfg) |}.
Proof.
  intros img w. simpl. unfold CosignAttestationKey_Verify. cbv zeta. case_decide as Href.
  - eexists _, _. split; [done|]. by split; [apply status_unknown|].
  - match goal with |- context [first_verified ?m ?f ?xs ?a ?w] =>
      destruct (first_verified_sound
                  (fun kt => exists signers, cosign_ok
                     (attestation_key_args creds (IgnoreTlog cfg) (ref_of creds img) kt.1 kt.2) signers)
                  m f xs a w) as [H1 H2]; [|constructor|];
      [|destruct (first_verified m f xs a w) as [o w'] eqn:E] end.
    + intros [key ty] w0. apply keyed_attempt_sound.
    + eexists _, _. split; [done|]. split; [done|]. intros ([key ty] & Hk & signers & Hc)%H2.
      unfold key_types in Hk. apply list_elem_of_bind in Hk as (k' & Hk & Hk').
      apply list_elem_of_fmap in Hk as (ty' & [= -> ->] & Hty).
      split; [done|]. by apply (AttestationKeyEvidence _ k' ty' signers).
Qed.

Lemma new_mode_verifier_sound mode v :
  new_mode_verifier Run Compile MatchString json_records creds cfg mode = Ok v ->
  sound (mode_evidence mode) v.
Proof.
  unfold new_mode_verifier, NewCosignVerifier, NewCosignKeyVerifier, NewCosignAttestationVerifier,
    NewCosignAttestationKeyVerifier.
  repeat case_decide; subst; try done;
    try (destruct (new_trust_policy _ _ _ _) as [t|e] eqn:Et; [|done]); intros [= <-].
  - by apply Cosign_sound.
  - apply CosignKey_sound.
  - by apply CosignAttestation_sound.
  - apply CosignAttestationKey_sound.
Qed.

Lemma new_mode_verifiers_sound modes vs :
  new_mode_verifiers Run Compile MatchString json_records creds cfg modes = Ok vs ->
  Forall2 (fun mode v => sound (mode_evidence mode) v) modes vs.
Proof.
  revert vs. induction modes as [|m modes IH]; intros vs; simpl; [intros [= <-]; constructor|].
  destruct (new_mode_verifier _ _ _ _ _ _ m) as [v|e] eqn:E; [|done].
  destruct (new_mode_verifiers _ _ _ _ _ _ modes) as [vs'|e]; [|done]. intros [= <-].
  constructor; [by apply new_mode_verifier_sound|by apply IH].
Qed.

End evidence.

(** ** Facts: composition *)

Section composition.
Context {W : Type}.
Implicit Types (v : Verifier W) (P : string -> DiscoveredImage -> Prop).

Lemma mergeObservations_unverified attempts :
  Forall (fun o => o_Status o ∈ statuses /\ o_Status o <> StatusVerified) attempts ->
  o_Status (mergeObservations attempts) ∈ statuses
  /\ o_Status (mergeObservations attempts) <> StatusVerified.
Proof.
  intros H. destruct attempts as [|a0 attempts]; [apply status_error|].
  destruct (mergeObservations_in (a0 :: attempts)) as (o & Hin & ->); [done|]. rewrite credit_status.
  rewrite Forall_forall in H. by apply H.
Qed.

Lemma verify_any_sound P modes vs attempts :
  Forall2 (fun mode v => sound (P mode) v) modes vs ->
  Forall (fun o => o_Status o ∈ statuses /\ o_Status o <> StatusVerified) attempts ->
  forall img w, exists o w', verify_any vs attempts img w = (Ok o, w') /\ o_Status o ∈ statuses
    /\ (o_Status o = StatusVerified -> exists mode, mode ∈ modes /\ P mode img).
Proof.
  intros Hvs. revert attempts. induction Hvs as [|mode v modes vs Hv _ IH]; intros attempts Hatt img w; simpl.
  - destruct (mergeObservations_unverified attempts Hatt) as [H1 H2].
    eexists _, _. split; [done|].
    destruct attempts; [done|]. case_decide; [|done]. unfold set_mode. simpl. done.
  - destruct (Hv img w) as (o & w' & -> & Hst & Hp). case_decide as Hd.
    + eexists _, _. split; [done|]. rewrite credit_status. split; [done|]. intros _.
      exists mode. split; [by left|by apply Hp].
    + destruct (IH (attempts ++ [o])) with (img := img) (w := w') as (o' & w'' & -> & Hst' & Hp').
      { apply Forall_app. split; [done|]. by constructor. }
      eexists _, _. split; [done|]. split; [done|]. intros (m & Hm & HP)%Hp'. exists m.
      split; [by right|done].
Qed.

Lemma merged_status l attempts :
  o_Status (mergeVerifiedObservations l attempts) = o_Status l.
Proof. unfold mergeVerifiedObservations. simpl. apply credit_status. Qed.

Lemma verify_all_sound P modes vs attempts img :
  Forall2 (fun mode v => sound (P mode) v) modes vs ->
  Forall (fun o => o_Status o = StatusVerified) attempts ->
  forall w, exists o w', verify_all vs attempts img w = (Ok o, w') /\ o_Status o ∈ statuses
    /\ (o_Status o = StatusVerified -> forall mode, mode ∈ modes -> P mode img).
Proof.
  intros Hvs. revert attempts. induction Hvs as [|mode v modes vs Hv _ IH]; intros attempts Hatt w; simpl.
  - eexists _, _. split; [done|]. split; [|by intros _ mode ?%not_elem_of_nil].
    destruct (last attempts) as [l|] eqn:El; [|apply status_error]. rewrite merged_status.
    apply last_Some in El as [l' ->]. apply Forall_app in Hatt as [_ Hl]. apply Forall_cons in Hl as [-> _].
    apply status_verified.
  - destruct (Hv img w) as (o & w' & -> & Hst & Hp). case_decide as Hd.
    + eexists _, _. split; [done|]. rewrite credit_status. done.
    + destruct (IH (attempts ++ [o])) with (w := w') as (o' & w'' & -> & Hst' & Hp').
      { apply Forall_app. split; [done|]. by constructor. }
      eexists _, _. split; [done|]. split; [done|]. intros Hv' m [->|Hm]%elem_of_cons; [by apply Hp|].
      by apply Hp'.
Qed.

(** What a composition needs to verify an image. *)
Definition policy_holds (policy : string) (modes : list string) P (img : DiscoveredImage) : Prop :=
  modes <> []
  /\ if decide (policy = ModePolicyAll) then forall mode, mode ∈ modes -> P mode img
     else exists mode, mode ∈ modes /\ P mode img.

Lemma composite_sound P modes vs policy c :
  modes <> [] -> Forall2 (fun mode v => sound (P mode) v) modes vs ->
  NewCompositeVerifier policy vs = Ok c ->
  sound (policy_holds policy modes P) (composite_verifier c).
Proof.
  intros Hne Hvs. unfold NewCompositeVerifier. case_decide; [done|]. cbv zeta.
  remember (if decide (policy = "") then ModePolicyAny else policy) as p eqn:Hp.
  assert (policy = ModePolicyAll -> p = ModePolicyAll) as Hp1 by (by intros ->).
  assert (p = ModePolicyAll -> policy = ModePolicyAll) as Hp2 by (subst p; by case_decide).
  clear Hp. case_decide as Hpol; [done|]. intros [= <-] img w. simpl. unfold composite_Verify. simpl.
  case_decide as Hany.
  - destruct (verify_any_sound P modes vs [] Hvs ltac:(constructor) img w) as (o & w' & -> & Hst & HP).
    eexists _, _. split; [done|]. split; [done|]. intros Hv%HP. split; [done|].
    rewrite decide_False; [done|]. intros E%Hp1. rewrite E in Hany. discriminate Hany.
  - assert (p = ModePolicyAll) as E by (apply dec_stable; intros Hn; by apply Hpol).
    rewrite decide_True by done. apply Hp2 in E as ->.
    destruct (verify_all_sound P modes vs [] img Hvs ltac:(constructor) w) as (o & w' & -> & Hst & Hp).
    eexists _, _. split; [done|]. split; [done|]. intros Hv. split; [done|].
    rewrite decide_True by done. by apply Hp.
Qed.

End composition.

Section whole.
Context {W Regexp : Type} (Run : string -> list string -> W -> (string * string * option string) * W)
        (Compile : string -> result string Regexp) (MatchString : Regexp -> string -> bool)
        (json_records : string -> result string (list (option (gmap string (option string)))))
        `{!RangeOrder string string} (creds : Credentials) (cfg : Config).

Definition image_evidence (img : DiscoveredImage) : Prop :=
  policy_holds (ModePolicy cfg) (VerificationModes cfg)
    (fun mode => mode_evidence Run Compile MatchString json_records creds cfg mode) img.

Lemma NewVerifier_sound v :
  NewVerifier Run Compile MatchString json_records creds cfg = Ok v -> sound image_evidence v.
Proof.
  unfold NewVerifier. case_decide as Hne; [done|].
  destruct (new_mode_verifiers _ _ _ _ _ _ _) as [vs|e] eqn:Evs; [|done].
  apply new_mode_verifiers_sound in Evs. destruct vs as [|v0 [|v1 vs]].
  - inversion Evs as [He|]. congruence.
  - intros [= <-]. inversion Evs as [|mode v modes vs' Hv Hvs Em E]. subst.
    inversion Hvs. subst modes. intros img w. destruct (Hv img w) as (o & w' & -> & Hst & Hp).
    eexists _, _. split; [done|]. split; [done|]. intros HP%Hp. unfold image_evidence, policy_holds.
    rewrite <-Em. split; [done|]. case_decide.
    + by intros m ->%list_elem_of_singleton.
    + exists mode. split; [by left|done].
  - destruct (NewCompositeVerifier _ _) as [c|e] eqn:Ec; [|done]. intros [= <-].
    by eapply composite_sound.
Qed.

End whole.

(** C38. A verification never fails, its status is one the report knows, and it is
    "verified" only with evidence: the image has an immutable reference, and
    under the configured policy some mode, or every mode, has a run of cosign on
    that reference that succeeded, with a trusted key, or printing a signer that
    matches the trusted issuers and subjects. *)
Theorem verified_needs_evidence {W Regexp} (Run : string -> list string -> W -> (string * string * option string) * W)
    (Compile : string -> result string Regexp) MatchString json_records `{!RangeOrder string string}
    creds cfg v img w :
  NewVerifier Run Compile MatchString json_records creds cfg = Ok v ->
  exists o w', v_Verify v img w = (Ok o, w') /\ o_Status o ∈ statuses
    /\ (o_Status o = StatusVerified -> image_evidence Run Compile MatchString json_records creds cfg img).
Proof. intros H. by apply NewVerifier_sound. Qed.

(** ** Facts: retries *)

Section retry_facts.
Context {W : Type} (verifier : Verifier W) (Int63n : Z -> W -> Z * W) (sleep : Z -> W -> option string * W).
(** [Int63n(n)] is in [0, n). *)
Context (Int63n_range : forall n w, 0 < n -> 0 <= (Int63n n w).1 < n).

(** What is known of the world after [k] attempts. *)
Context (I : nat -> W -> Prop) (backoff : Z).
Context (I_verify : forall k img w, I k w -> I (S k) (v_Verify verifier img w).2).
Context (I_random : forall k n w, I k w -> I k (Int63n n w).2).
Context (I_sleep : forall k d w, backoff <= d < 2 * backoff -> I k w -> I k (sleep d w).2).

Lemma retry_loop_spec left last jitter img k w :
  0 < backoff < 2 ^ 62 -> I k w ->
  let r := retry_loop verifier Int63n sleep (S left) last backoff jitter img w in
  exists n, (1 <= n <= S left)%nat /\ I (k + n) r.2
    /\ (forall o, r.1 = Ok o -> (exists w0 w1, v_Verify verifier img w0 = (Ok o, w1))
                               /\ (transient o = false \/ n = S left)).
Proof.
  intros Hb. revert last k w. induction left as [|left IH]; intros last k w HI; cbn [retry_loop]; cbv zeta.
  - pose proof (I_verify k img w HI) as HI'. exists 1%nat. split; [lia|]. rewrite Nat.add_1_r.
    destruct (v_Verify verifier img w) as [[o|e] w1] eqn:E; simpl in *; [|done].
    assert (forall x : result string VerificationObservation * W,
              x = (Ok o, w1) -> I (S k) x.2 /\ forall o0, x.1 = Ok o0 ->
                (exists w0 w2, v_Verify verifier img w0 = (Ok o0, w2)) /\ (transient o0 = false \/ 1 = 1)%nat) as H.
    { intros x ->. simpl. split; [done|]. intros o0 [= <-]. split; [by eexists _, _|by right]. }
    destruct (transient o); by apply H.
  - pose proof (I_verify k img w HI) as HI'.
    destruct (v_Verify verifier img w) as [[o|e] w1] eqn:E; simpl in HI'.
    2: { exists 1%nat. rewrite Nat.add_1_r. split_and!; [lia|lia|done|done]. }
    destruct (transient o) eqn:Et; simpl negb; cbv iota.
    2: { exists 1%nat. rewrite Nat.add_1_r. split_and!; [lia|lia|done|]. intros o0 [= <-].
         split; [by eexists _, _|by left]. }
    destruct (if jitter then let '(r, w') := Int63n backoff w1 in (GoInt.i64 (backoff + r), w')
              else (backoff, w1)) as [delay w2] eqn:Ed.
    assert (backoff <= delay < 2 * backoff /\ I (S k) w2) as [Hdelay HI2].
    { destruct jitter; [|by injection Ed as <- <-; split; [lia|]].
      pose proof (I_random (S k) backoff w1 HI') as Hr. pose proof (Int63n_range backoff w1 ltac:(lia)) as Hrange.
      destruct (Int63n backoff w1) as [r w']. injection Ed as <- <-. simpl in *.
      rewrite GoInt.i64_id by (unfold GoInt.in_i64; lia). split; [lia|done]. }
    pose proof (I_sleep (S k) delay w2 Hdelay HI2) as HI3.
    destruct (sleep delay w2) as [[e|] w3]; simpl in HI3.
    { exists 1%nat. rewrite Nat.add_1_r. split_and!; [lia|lia|done|done]. }
    destruct (IH o (S k) w3 HI3) as (n & Hn & HIn & Ho). exists (S n).
    split; [lia|]. rewrite Nat.add_succ_r. split; [done|]. intros o0 [Hv Hc]%Ho. split; [done|].
    destruct Hc; [by left|right; lia].
Qed.

End retry_facts.

(** C40. Retries are bounded: whatever the world, a verification makes at least one and
    at most [retries] attempts (one when that is not positive) and waits between
    them for at least the backoff and less than twice it; an observation is
    returned only if the verifier made it, and a transient error only after the
    last attempt.  Here [I k w] is any property of the world after [k] attempts
    that attempts and admissible waits preserve. *)
Theorem VerifyWithRetries_bounded {W} (v : Verifier W) Int63n sleep (I : nat -> W -> Prop)
    img retries backoff jitter w :
  (forall n w, 0 < n -> 0 <= (Int63n n w).1 < n) -> backoff < 2 ^ 62 ->
  (forall k img w, I k w -> I (S k) (v_Verify v img w).2) ->
  (forall k n w, I k w -> I k (Int63n n w).2) ->
  (forall k d w, effective_backoff backoff <= d < 2 * effective_backoff backoff -> I k w -> I k (sleep d w).2) ->
  I 0%nat w ->
  let r := VerifyWithRetries v Int63n sleep img retries backoff jitter w in
  exists n, (1 <= Z.of_nat n <= Z.max 1 retries) /\ I n r.2
    /\ (forall o, r.1 = Ok o -> (exists w0 w1, v_Verify v img w0 = (Ok o, w1))
                               /\ (transient o = false \/ Z.of_nat n = Z.max 1 retries)).
Proof.
  intros Hrange Hb Hv Hr Hs HI. unfold VerifyWithRetries. cbv zeta.
  assert (0 < effective_backoff backoff < 2 ^ 62) as Hb'.
  { unfold effective_backoff, GoTime.Second. destruct (Z.leb_spec backoff 0); lia. }
  assert ((if retries <? 1 then 1 else retries) = Z.max 1 retries) as ->
    by (destruct (Z.ltb_spec retries 1); lia).
  destruct (Z.to_nat (Z.max 1 retries)) as [|m] eqn:Em; [lia|].
  destruct (retry_loop_spec v Int63n sleep Hrange I (effective_backoff backoff) Hv Hr Hs m zero_observation
              jitter img 0 w Hb' HI) as (n & Hn & HIn & Ho).
  exists n. split; [lia|]. split; [done|]. intros o [H1 H2]%Ho. split; [done|].
  destruct H2; [by left|right; lia].
Qed.

(** A world that counts attempts and adds up the time slept. *)
Definition counting_verifier : Verifier (nat * Z) :=
  {| v_Name := "counting";
     v_Verify := fun _ w => (Ok (observation "counting" StatusVerificationError "i/o timeout"), (S w.1, w.2)) |}.

Lemma VerifyWithRetries_bounded_witness :
  let r := VerifyWithRetries counting_verifier (fun n w => (n - 1, w)) (fun d w => (None, (w.1, w.2 + d)))
             plain_image 3 0 true (0%nat, 0) in
  exists n, (1 <= Z.of_nat n <= 3) /\ r.2.1 = n.
Proof.
  destruct (VerifyWithRetries_bounded counting_verifier (fun n w => (n - 1, w))
              (fun d w => (None, (w.1, w.2 + d))) (fun k w => w.1 = k) plain_image 3 0 true (0%nat, 0))
    as (n & Hn & HI & _); try done; [simpl; lia|by intros k img w <-|]. by exists n.
Defined.

Example VerifyWithRetries_three_attempts :
  (VerifyWithRetries counting_verifier (fun n w => (n - 1, w)) (fun d w => (None, (w.1, w.2 + d)))
     plain_image 3 0 true (0%nat, 0)).2 = (3%nat, 2 * (4 * GoTime.Second - 1)).
Proof. reflexivity. Qed.

(** ** Facts: all images *)

Lemma retry_loop_from {W} (v : Verifier W) Int63n sleep left last backoff jitter img w o w' :
  retry_loop v Int63n sleep (S left) last backoff jitter img w = (Ok o, w') ->
  exists w0 w1, v_Verify v img w0 = (Ok o, w1).
Proof.
  revert last w. induction left as [|left IH]; intros last w; cbn [retry_loop];
    destruct (v_Verify v img w) as [[o1|e] w1] eqn:E; try done.
  - destruct (negb (transient o1)); intros [= <- <-]; by eexists _, _.
  - destruct (negb (transient o1)); [intros [= <- <-]; by eexists _, _|].
    destruct (if jitter then _ else _) as [delay w2]. destruct (sleep delay w2) as [[e|] w3]; [done|].
    apply (IH o1).
Qed.

Lemma VerifyWithRetries_from {W} (v : Verifier W) Int63n sleep img retries backoff jitter w o w' :
  VerifyWithRetries v Int63n sleep img retries backoff jitter w = (Ok o, w') ->
  exists w0 w1, v_Verify v img w0 = (Ok o, w1).
Proof.
  unfold VerifyWithRetries. cbv zeta.
  destruct (Z.to_nat (if retries <? 1 then 1 else retries)) as [|m] eqn:Em; [|apply retry_loop_from].
  destruct (Z.ltb_spec retries 1); lia.
Qed.

(** What the report says of an image after its verification. *)
Definition result_for (P : DiscoveredImage -> Prop) (img : DiscoveredImage) (r : ImageTrustResult) : Prop :=
  (t_Name r, t_ID r, t_PullRef r, t_Owners r) = (Name img, ID img, PullRef img, Owners img)
  /\ t_Status r ∈ statuses /\ t_Allowlisted r = false /\ (t_Status r = StatusVerified -> P img).

Lemma verify_image_result {W} (v : Verifier W) Int63n sleep `{!RangeOrder string string} creds
    (P : DiscoveredImage -> Prop) retries backoff jitter img ctx_err w :
  sound P v -> result_for P img (verify_image v Int63n sleep creds retries backoff jitter img ctx_err w).
Proof.
  intros Hv. unfold verify_image.
  assert (forall e, result_for P img (imageTrustResultFromError img e)) as Herr.
  { intros e. split_and!; [done|apply status_error|done|done]. }
  destruct ctx_err as [e|]; [done|]. destruct (Preflight creds img) as [o|] eqn:Ep.
  - assert (o_Status o ∈ statuses /\ o_Status o <> StatusVerified) as [H1 H2].
    { revert Ep. unfold Preflight. repeat case_decide; try done; intros [= <-];
        [apply status_error|apply status_unknown]. }
    by split_and!.
  - destruct (VerifyWithRetries v Int63n sleep img retries backoff jitter w) as [[o|e] w'] eqn:E; [|done].
    apply VerifyWithRetries_from in E as (w0 & w1 & E). destruct (Hv img w0) as (o' & w1' & E' & Hst & Hp).
    rewrite E in E'. injection E' as <- <-. by split_and!.
Qed.


(** ** A configuration that cannot work *)

Lemma new_mode_verifiers_err {W Regexp} (Run : string -> list string -> W -> (string * string * option string) * W)
    (Compile : string -> result string Regexp) MatchString json_records `{!RangeOrder string string}
    creds cfg modes m e :
  m ∈ modes -> new_mode_verifier Run Compile MatchString json_records creds cfg m = Err e ->
  exists e', new_mode_verifiers Run Compile MatchString json_records creds cfg modes = Err e'.
Proof.
  intros Hin He. induction modes as [|m' modes IH]; [by apply elem_of_nil in Hin|]. simpl.
  destruct (new_mode_verifier _ _ _ _ _ _ m') as [v|e'] eqn:E; [|by eexists].
  apply elem_of_cons in Hin as [->|Hin]; [congruence|]. destruct (IH Hin) as [e' ->]. by eexists.
Qed.

(** The mode [cosign-attestation-key] on its own passes the validation of the
    configuration but never works: its public keys are only loaded when
    [cosign-key] is enabled too, so the verifier cannot be made. *)
Theorem attestation_key_alone_fails {W Regexp} (Run : string -> list string -> W -> (string * string * option string) * W)
    (Compile : string -> result string Regexp) MatchString json_records `{!RangeOrder string string}
    creds os json cfg :
  LoadFromEnvironment os json = Ok cfg -> ModeCosignAttestationKey ∈ VerificationModes cfg ->
  ModeCosignKey ∉ VerificationModes cfg ->
  valid_config cfg
  /\ exists e, NewVerifier Run Compile MatchString json_records creds cfg = Err e.
Proof.
  intros Hload Hin Hno. apply LoadFromEnvironment_ok in Hload as (Hvalid & _ & _ & _ & _ & _ & Hkeys).
  split; [done|]. unfold NewVerifier. case_decide as Hne; [by eexists|].
  destruct (new_mode_verifiers_err Run Compile MatchString json_records creds cfg (VerificationModes cfg)
              ModeCosignAttestationKey "at least one trusted public key is required" Hin) as [e ->]; [|by eexists].
  unfold new_mode_verifier. rewrite !decide_False by done. rewrite decide_True by done.
  unfold NewCosignAttestationKeyVerifier. by rewrite (Hkeys Hno).
Qed.

Definition attestation_vars : list (string * string) :=
  [("IMAGE_TRUST_MODES", "cosign-attestation-key"); ("IMAGE_TRUST_ATTESTATION_TYPES", "slsaprovenance1");
   ("IMAGE_TRUST_PUBLIC_KEY_REFS", "gcpkms://ring/key")].

Lemma attestation_loads :
  exists cfg, LoadFromEnvironment (env_os attestation_vars) no_json = Ok cfg
    /\ VerificationModes cfg = [ModeCosignAttestationKey].
Proof.
  assert (VerificationModes <$> ok_of (LoadFromEnvironment (env_os attestation_vars) no_json)
          = Some [ModeCosignAttestationKey]) as H by (vm_compute; reflexivity).
  destruct (LoadFromEnvironment _ _) as [cfg|]; [|discriminate H]. exists cfg. split; [done|].
  simpl in H. by injection H.
Qed.

Definition failing_cosign (_ : string) (_ : list string) (w : unit) : (string * string * option string) * unit :=
  ("", "no signatures found", Some "exit status 1", w).

Lemma attestation_key_alone_fails_witness :
  exists cfg, LoadFromEnvironment (env_os attestation_vars) no_json = Ok cfg /\ valid_config cfg
    /\ exists e, @NewVerifier unit unit failing_cosign (fun _ => Ok tt) (fun _ _ => true) (fun _ => Ok [])
                   canonical_order ghcr_creds cfg = Err e.
Proof.
  destruct attestation_loads as (cfg & Hl & Hm). exists cfg. split; [done|].
  apply (@attestation_key_alone_fails unit unit failing_cosign (fun _ => Ok tt) (fun _ _ => true)
           (fun _ => Ok []) canonical_order ghcr_creds (env_os attestation_vars) no_json cfg);
    [done|rewrite Hm; by left|rewrite Hm; by apply (bool_decide_unpack _)].
Defined.

(** A configuration with the keyless mode, for the examples of the other theorems. *)
Lemma keyless_verifier :
  exists cfg v, LoadFromEnvironment (env_os keyless_vars) no_json = Ok cfg
    /\ @NewVerifier unit unit failing_cosign (fun _ => Ok tt) (fun _ _ => true) (fun _ => Ok [])
         canonical_order ghcr_creds cfg = Ok v.
Proof.
  assert ((fun c => from_ptr false (fun _ => true)
             (match @NewVerifier unit unit failing_cosign (fun _ => Ok tt) (fun _ _ => true) (fun _ => Ok [])
                canonical_order ghcr_creds c with Ok v => Some v | Err _ => None end))
            <$> ok_of (LoadFromEnvironment (env_os keyless_vars) no_json) = Some true) as H
    by (vm_compute; reflexivity).
  destruct (LoadFromEnvironment _ _) as [cfg|]; [|discriminate H]. exists cfg. simpl in H.
  destruct (NewVerifier _ _ _ _ _ _) as [v|]; [by exists v|discriminate H].
Qed.

Lemma verified_needs_evidence_witness :
  exists cfg v o w', @NewVerifier unit unit failing_cosign (fun _ => Ok tt) (fun _ _ => true) (fun _ => Ok [])
      canonical_order ghcr_creds cfg = Ok v
    /\ v_Verify v plain_image tt = (Ok o, w') /\ o_Status o ∈ statuses.
Proof.
  destruct keyless_verifier as (cfg & v & _ & Hv).
  destruct (@verified_needs_evidence unit unit failing_cosign (fun _ => Ok tt) (fun _ _ => true)
              (fun _ => Ok []) canonical_order ghcr_creds cfg v plain_image tt Hv) as (o & w' & H1 & H2 & _).
  by exists cfg, v, o, w'.
Defined.

