(* ===== verification/ImageTrustPlugin.v ===== *)
(** * image-trust: discovery and the whole run

    [image-trust/pkg/discovery/] and [cmd/main.go]: which images of the cluster
    are looked at and who owns them, and the composition of discovery, digest
    lookup, verification, allowlists and report.  The Kubernetes clients are
    parameters. *)

From stdpp Require Import base decidable list gmap strings.
From Stdlib Require Import ZArith Lia Ascii.
From S2P Require Import Prelude GoStrings GoText ImageTrustModels ImageTrustConfig ImageTrustRegistry.
From S2P Require Import WorkerPool ImageTrustVerify.

Local Open Scope Z_scope.

#[global] Instance Resource_countable : Countable Resource.
Proof.
  apply (inj_countable' (fun r => (r_Name r, r_Kind r, r_Namespace r, r_Container r))
           (fun '(a, b, c, d) => {| r_Name := a; r_Kind := b; r_Namespace := c; r_Container := d |})).
  by intros [].
Defined.

(** ** What discovery reads of the cluster *)

Record ContainerStatus : Type := { cs_Name : string; cs_Image : string; cs_ImageID : string }.

(** [OwnerControllers] holds, per owner reference, its [controller] flag. *)
Record Pod : Type := {
  pod_Namespace : string;
  pod_Name : string;
  OwnerControllers : list (option bool);
  Phase : string;
  ContainerStatuses : list ContainerStatus;
  InitContainerStatuses : list ContainerStatus;
  EphemeralContainerStatuses : list ContainerStatus
}.

Record Job (Selector : Type) : Type := {
  job_Namespace : string;
  job_Name : string;
  Active : Z;
  job_Selector : option Selector
}.
Arguments job_Namespace {Selector}.
Arguments job_Name {Selector}.
Arguments Active {Selector}.
Arguments job_Selector {Selector}.

(** A top controller with its pods; [None] is a pod that cannot be converted. *)
Record TopController : Type := {
  top_Namespace : string;
  top_Kind : string;
  top_Name : string;
  top_Pods : list (option Pod)
}.

Record Cluster (Selector : Type) : Type := {
  GetAllTopControllersWithPods : result string (list TopController);
  ListNamespaces : result string (list string);
  ListRunningPods : string -> result string (list Pod);
  ListJobs : string -> result string (list (Job Selector));
  LabelSelectorAsSelector : Selector -> result string string;
  ListPodsBySelector : string -> string -> result string (list Pod)
}.
Arguments GetAllTopControllersWithPods {Selector}.
Arguments ListNamespaces {Selector}.
Arguments ListRunningPods {Selector}.
Arguments ListJobs {Selector}.
Arguments LabelSelectorAsSelector {Selector}.
Arguments ListPodsBySelector {Selector}.

(** The three maps that [ListImages] fills. *)
Record discovery : Type := {
  keyToImage : gmap string DiscoveredImage;
  imageOwners : gmap string (gset Resource);
  seenPods : gset string
}.

Definition no_images : discovery := {| keyToImage := ∅; imageOwners := ∅; seenPods := ∅ |}.

(** ** Scope *)

Definition namespaceIsBlocked (namespace : string) (blocklist allowlist : list string) : bool :=
  if decide (namespace ∈ blocklist) then true
  else if decide (allowlist = []) then false
  else bool_decide (namespace ∉ allowlist).

Definition listScopedNamespaces {S} (cl : Cluster S) (allowlist blocklist : list string)
    : result string (list string) :=
  let in_scope ns := namespaceIsBlocked (ToLower ns) blocklist allowlist = false in
  if decide (allowlist <> []) then Ok (filter in_scope allowlist)
  else match ListNamespaces cl with
       | Err e => Err ("listing namespaces: " +:+ e)
       | Ok items => Ok (filter in_scope items)
       end.

(** ** Recording *)

Definition podKey (namespace name : string) : string := namespace +:+ "/" +:+ name.

Definition markPodSeen (namespace name : string) (st : discovery) : discovery :=
  {| keyToImage := keyToImage st; imageOwners := imageOwners st;
     seenPods := {[podKey namespace name]} ∪ seenPods st |}.

Definition containerStatusesFromPod (p : Pod) : list ContainerStatus :=
  ContainerStatuses p ++ InitContainerStatuses p ++ EphemeralContainerStatuses p.

Definition dockerIOPrefix : string := "index.docker.io/".
Definition dockerPullable : string := "docker-pullable://".

(** The image of a container status, without its owners. *)
Definition status_image (s : ContainerStatus) : DiscoveredImage :=
  let name := if HasPrefix (cs_Image s) "sha256" then TrimPrefix (cs_ImageID s) dockerPullable
              else cs_Image s in
  let id := TrimPrefix (cs_ImageID s) dockerPullable in
  let pullRef := if decide (id = "") then name
                 else if HasPrefix id "sha256:" then name else id in
  {| Name := TrimPrefix name dockerIOPrefix; ID := TrimPrefix id dockerIOPrefix; PullRef := pullRef;
     Owners := []; DigestResolveError := "" |}.

Definition image_key (i : DiscoveredImage) : string := Name i +:+ "/" +:+ ID i.

Definition with_container (c : string) (r : Resource) : Resource :=
  {| r_Name := r_Name r; r_Kind := r_Kind r; r_Namespace := r_Namespace r; r_Container := c |}.

Definition recordContainerImage (s : ContainerStatus) (owner : Resource) (st : discovery) : discovery :=
  let img := status_image s in
  let key := image_key img in
  {| keyToImage := match keyToImage st !! key with
                   | Some _ => keyToImage st
                   | None => <[key := img]> (keyToImage st)
                   end;
     imageOwners := <[key := {[with_container (cs_Name s) owner]} ∪ default ∅ (imageOwners st !! key)]>
                      (imageOwners st);
     seenPods := seenPods st |}.

Definition record_pod (owner : Resource) (p : Pod) (st : discovery) : discovery :=
  foldl (fun st s => recordContainerImage s owner st) (markPodSeen (pod_Namespace p) (pod_Name p) st)
    (containerStatusesFromPod p).

Definition controller_owner (c : TopController) : Resource :=
  {| r_Namespace := top_Namespace c; r_Kind := top_Kind c; r_Name := top_Name c; r_Container := "" |}.

Definition record_controller (blocklist allowlist : list string) (st : discovery) (c : TopController)
    : discovery :=
  if namespaceIsBlocked (ToLower (top_Namespace c)) blocklist allowlist then st
  else foldl (fun st o => match o with
                          | None => st
                          | Some p => record_pod (controller_owner c) p st
                          end) st (top_Pods c).

Definition hasControllerOwner (owners : list (option bool)) : bool :=
  existsb (fun o => bool_decide (o = Some true)) owners.

Definition record_orphan (st : discovery) (p : Pod) : discovery :=
  if decide (podKey (pod_Namespace p) (pod_Name p) ∈ seenPods st) then st
  else if hasControllerOwner (OwnerControllers p) then st
  else record_pod {| r_Namespace := pod_Namespace p; r_Kind := "Pod"; r_Name := pod_Name p;
                     r_Container := "" |} p st.

Fixpoint recordOrphanPods {S} (cl : Cluster S) (namespaces : list string) (st : discovery)
    : result string discovery :=
  match namespaces with
  | [] => Ok st
  | ns :: namespaces' =>
      match ListRunningPods cl ns with
      | Err e => Err ("listing pods in namespace " +:+ ns +:+ ": " +:+ e)
      | Ok pods => recordOrphanPods cl namespaces' (foldl record_orphan st pods)
      end
  end.

Definition jobHasActivePods {S} (j : Job S) : bool := 0 <? Active j.

Fixpoint record_jobs {S} (cl : Cluster S) (ns : string) (jobs : list (Job S)) (st : discovery)
    : result string discovery :=
  match jobs with
  | [] => Ok st
  | j :: jobs' =>
      if negb (jobHasActivePods j) then record_jobs cl ns jobs' st
      else match job_Selector j with
           | None => record_jobs cl ns jobs' st
           | Some sel =>
               match LabelSelectorAsSelector cl sel with
               | Err _ => record_jobs cl ns jobs' st
               | Ok selector =>
                   match ListPodsBySelector cl ns selector with
                   | Err e => Err ("listing job pods in namespace " +:+ ns +:+ ": " +:+ e)
                   | Ok pods =>
                       let owner := {| r_Namespace := job_Namespace j; r_Kind := "Job";
                                       r_Name := job_Name j; r_Container := "" |} in
                       record_jobs cl ns jobs'
                         (foldl (fun st p => if decide (Phase p = "Running") then record_pod owner p st
                                             else st) st pods)
                   end
               end
           end
  end.

Fixpoint recordJobPods {S} (cl : Cluster S) (namespaces : list string) (st : discovery)
    : result string discovery :=
  match namespaces with
  | [] => Ok st
  | ns :: namespaces' =>
      match ListJobs cl ns with
      | Err e => Err ("listing jobs in namespace " +:+ ns +:+ ": " +:+ e)
      | Ok jobs =>
          match record_jobs cl ns jobs st with
          | Err e => Err e
          | Ok st' => recordJobPods cl namespaces' st'
          end
      end
  end.

Definition set_owners (owners : list Resource) (i : DiscoveredImage) : DiscoveredImage :=
  {| Name := Name i; ID := ID i; PullRef := PullRef i; Owners := owners;
     DigestResolveError := DigestResolveError i |}.

(** The images with their owners; [lo.Keys] and [lo.Values] follow the order of
    ranging over the map. *)
Definition with_owners (st : discovery) : gmap string DiscoveredImage :=
  map_imap (fun key img => Some (match imageOwners st !! key with
                                 | Some owners => set_owners (elements owners) img
                                 | None => img
                                 end)) (keyToImage st).

Definition ListImages {S} `{!RangeOrder string DiscoveredImage} (cl : Cluster S)
    (blocklist allowlist : list string) : result string (list DiscoveredImage) :=
  match GetAllTopControllersWithPods cl with
  | Err e => Err ("could not retrieve top controllers with pods: " +:+ e)
  | Ok controllers =>
      let st := foldl (record_controller blocklist allowlist) no_images controllers in
      match listScopedNamespaces cl allowlist blocklist with
      | Err e => Err e
      | Ok namespaces =>
          match recordOrphanPods cl namespaces st with
          | Err e => Err e
          | Ok st =>
              match recordJobPods cl namespaces st with
              | Err e => Err e
              | Ok st => Ok (snd <$> range_map (with_owners st))
              end
          end
      end
  end.

(** ** The run of the plugin *)

Section plugin.
Context {W Regexp : Type}.
(** Running a command in an environment that has these variables in addition. *)
Context (Run : list string -> string -> list string -> W -> (string * string * option string) * W).
Context (Compile : string -> result string Regexp) (MatchString : Regexp -> string -> bool).
Context (json_records : string -> result string (list (option (gmap string (option string))))).
Context (Int63n : Z -> W -> Z * W) (sleep : Z -> W -> option string * W).
Context (Match : string -> string -> result string bool) `{!RangeOrder string string}.

(** [verifyImages] of [main.go]: what it may return. *)
Inductive verifyImages (cfg : Config) (creds : Credentials) (images : list DiscoveredImage) (now : Z)
    : list ImageTrustResult -> Prop :=
| VerifyImagesReturns v rs rs' :
    NewVerifier (Run (ExtraEnv creds (SigstoreEnv cfg))) Compile MatchString json_records creds cfg = Ok v ->
    VerifyImages_returns v Int63n sleep creds images (MaxConcurrentScans cfg) (VerifyRetries cfg)
      (VerifyRetryBackoff cfg) (VerifyRetryJitter cfg) rs ->
    Apply Match (NewAllowlistMatcher (ImageAllowlist cfg) (RegistryAllowlist cfg) (SignerAllowlist cfg))
      images rs = Ok rs' ->
    verifyImages cfg creds images now (set_checked_at now <$> rs').

(** A slice of the configuration: nil when it is empty. *)
Definition nil_if_empty (l : list string) : option (list string) :=
  if decide (l = []) then None else Some l.

(** A run from the discovered images on, with the prepared credentials: the
    report that is written.  [enrich] is the lookup of a digest. *)
Inductive report_of (cfg : Config) (creds : Credentials)
    (enrich : DiscoveredImage -> DiscoveredImage -> Prop) (discovered : list DiscoveredImage) (now : Z)
    : list DiscoveredImage -> Report -> Prop :=
| ReportOf images results :
    Images_returns enrich discovered (ResolveDigests cfg) (MaxConcurrentScans cfg) images ->
    verifyImages cfg creds images now results ->
    report_of cfg creds enrich discovered now images
      (Build results (PolicyFromAllowlists (nil_if_empty (ImageAllowlist cfg))
                        (nil_if_empty (RegistryAllowlist cfg)) (nil_if_empty (SignerAllowlist cfg)))).

End plugin.

(** ** Facts: discovery *)

Section discovery_facts.
Context (allowed : string -> Prop).

(** What the three maps satisfy: an image is stored under its own key, it has at
    least one owner, and every owner is in an allowed namespace. *)
Record discovery_inv (st : discovery) : Prop := {
  inv_key : forall k img, keyToImage st !! k = Some img -> image_key img = k /\ exists s, img = status_image s;
  inv_dom : forall k, is_Some (keyToImage st !! k) <-> is_Some (imageOwners st !! k);
  inv_owners : forall k os, imageOwners st !! k = Some os ->
                 os <> ∅ /\ forall r, r ∈ os -> allowed (r_Namespace r)
}.

(** A container is recorded: its image is known, and the container is an owner. *)
Definition recorded (s : ContainerStatus) (owner : Resource) (st : discovery) : Prop :=
  exists os, imageOwners st !! image_key (status_image s) = Some os
    /\ with_container (cs_Name s) owner ∈ os.

Lemma no_images_inv : discovery_inv no_images.
Proof.
  constructor; simpl.
  - intros k img. by rewrite lookup_empty.
  - intros k. rewrite !lookup_empty. done.
  - intros k os. by rewrite lookup_empty.
Qed.

Lemma recordContainerImage_inv s owner st :
  allowed (r_Namespace owner) -> discovery_inv st -> discovery_inv (recordContainerImage s owner st).
Proof.
  intros Ha [Hk Hd Ho]. unfold recordContainerImage. cbv zeta. constructor; simpl.
  - intros k img. case_match; [apply Hk|]. intros [[<- <-]|[_ H']]%lookup_insert_Some; [|by apply Hk].
    split; [done|by exists s].
  - intros k. destruct (decide (image_key (status_image s) = k)) as [<-|Hne].
    + rewrite lookup_insert_eq. split; [by eexists|]. intros _. case_match eqn:E; [by rewrite E|].
      rewrite lookup_insert_eq. by eexists.
    + rewrite lookup_insert_ne by done. rewrite <-Hd. case_match; [done|].
      by rewrite lookup_insert_ne.
  - intros k os [[<- <-]|[_ H']]%lookup_insert_Some; [|by eapply Ho].
    split; [set_solver|]. intros r [->%elem_of_singleton|Hr]%elem_of_union; [done|].
    destruct (imageOwners st !! _) as [os|] eqn:E; [|by apply elem_of_empty in Hr].
    by apply (Ho _ _ E).
Qed.

Lemma recordContainerImage_recorded s owner st : recorded s owner (recordContainerImage s owner st).
Proof. eexists. simpl. rewrite lookup_insert_eq. split; [done|]. set_solver. Qed.

(** What is recorded stays recorded. *)
Definition grows (f : discovery -> discovery) : Prop :=
  forall st s owner, recorded s owner st -> recorded s owner (f st).

Lemma recordContainerImage_grows s owner : grows (recordContainerImage s owner).
Proof.
  intros st s' owner' (os & Hk & Hin). unfold recorded. simpl.
  destruct (decide (image_key (status_image s) = image_key (status_image s'))) as [E|E].
  - rewrite E, lookup_insert_eq. eexists. split; [done|]. rewrite Hk. simpl. set_solver.
  - rewrite lookup_insert_ne by done. by exists os.
Qed.

Lemma foldl_grows {A} (f : discovery -> A -> discovery) l :
  (forall a, grows (fun st => f st a)) -> grows (fun st => foldl f st l).
Proof.
  intros Hf. induction l as [|a l IH]; intros st s owner H; simpl; [done|].
  apply IH. by apply (Hf a).
Qed.

Lemma record_pod_inv owner p st :
  allowed (r_Namespace owner) -> discovery_inv st -> discovery_inv (record_pod owner p st).
Proof.
  intros Ha Hst. unfold record_pod. apply foldl_inv.
  - by destruct Hst; constructor.
  - intros st' s _. by apply recordContainerImage_inv.
Qed.

Lemma record_pod_grows owner p : grows (record_pod owner p).
Proof.
  intros st s o H. unfold record_pod.
  apply (foldl_grows (fun st s => recordContainerImage s owner st) (containerStatusesFromPod p));
    [|done]. intros a. apply recordContainerImage_grows.
Qed.

Lemma record_pod_recorded owner p st s :
  s ∈ containerStatusesFromPod p -> recorded s owner (record_pod owner p st).
Proof.
  unfold record_pod. generalize (markPodSeen (pod_Namespace p) (pod_Name p) st).
  induction (containerStatusesFromPod p) as [|s' l IH]; intros st0 Hin; [by apply elem_of_nil in Hin|].
  simpl. apply elem_of_cons in Hin as [->|Hin]; [|by apply IH].
  apply (foldl_grows (fun st s => recordContainerImage s owner st) l);
    [intros a; apply recordContainerImage_grows|apply recordContainerImage_recorded].
Qed.

End discovery_facts.

Definition in_scope (blocklist allowlist : list string) (ns : string) : Prop :=
  namespaceIsBlocked (ToLower ns) blocklist allowlist = false.

Lemma record_controller_inv block allow st c :
  discovery_inv (in_scope block allow) st ->
  discovery_inv (in_scope block allow) (record_controller block allow st c).
Proof.
  intros Hst. unfold record_controller. case_match eqn:E; [done|]. apply foldl_inv; [done|].
  intros st' [p|] _ H; [|done]. by apply record_pod_inv.
Qed.

Lemma record_controller_grows block allow c : grows (fun st => record_controller block allow st c).
Proof.
  intros st s o H. unfold record_controller. case_match; [done|].
  apply (foldl_grows (fun st o => match o with None => st | Some p => record_pod (controller_owner c) p st end)
           (top_Pods c)); [|done].
  intros [p|] st' s' o'; [apply record_pod_grows|done].
Qed.

Lemma record_controller_recorded block allow st c p s :
  in_scope block allow (top_Namespace c) -> Some p ∈ top_Pods c -> s ∈ containerStatusesFromPod p ->
  recorded s (controller_owner c) (record_controller block allow st c).
Proof.
  intros Hs Hp Hc. unfold record_controller. rewrite Hs. revert st.
  induction (top_Pods c) as [|o l IH]; intros st; [by apply elem_of_nil in Hp|]. simpl.
  apply elem_of_cons in Hp as [<-|Hp]; [|by apply IH].
  apply (foldl_grows (fun st o => match o with None => st | Some p => record_pod (controller_owner c) p st end) l).
  - intros [p'|] st' s' o'; [apply record_pod_grows|done].
  - by apply record_pod_recorded.
Qed.

(** What the listers promise: a list of a namespace has objects of it only. *)
Class ClusterLaws {S} (cl : Cluster S) : Prop := {
  pods_namespace : forall ns pods, ListRunningPods cl ns = Ok pods ->
                     Forall (fun p => pod_Namespace p = ns) pods;
  jobs_namespace : forall ns jobs, ListJobs cl ns = Ok jobs -> Forall (fun j => job_Namespace j = ns) jobs
}.

Section cluster_facts.
Context {S : Type} (cl : Cluster S) `{!ClusterLaws cl} (block allow : list string).
Abbreviation inv := (discovery_inv (in_scope block allow)).

(** A step that keeps the invariant and loses nothing. *)
Definition safe_step (st st' : discovery) : Prop :=
  (inv st -> inv st') /\ forall s o, recorded s o st -> recorded s o st'.

Lemma safe_refl st : safe_step st st.
Proof. done. Qed.

Lemma safe_trans st1 st2 st3 : safe_step st1 st2 -> safe_step st2 st3 -> safe_step st1 st3.
Proof. intros [H1 H2] [H3 H4]. split; [tauto|]. intros s o H. by apply H4, H2. Qed.

Lemma safe_foldl {A} (f : discovery -> A -> discovery) l st :
  (forall a st', a ∈ l -> safe_step st' (f st' a)) -> safe_step st (foldl f st l).
Proof.
  revert st. induction l as [|a l IH]; intros st H; simpl; [apply safe_refl|].
  eapply safe_trans; [apply H; by left|]. apply IH. intros b st' Hb. apply H. by right.
Qed.

Lemma safe_record_pod owner p st :
  in_scope block allow (r_Namespace owner) -> safe_step st (record_pod owner p st).
Proof. intros H. split; [by apply record_pod_inv|apply record_pod_grows]. Qed.

Lemma recordOrphanPods_safe namespaces st st' :
  Forall (in_scope block allow) namespaces ->
  recordOrphanPods cl namespaces st = Ok st' -> safe_step st st'.
Proof.
  intros Hns. revert st. induction Hns as [|ns namespaces Hns _ IH]; intros st; simpl;
    [intros [= <-]; apply safe_refl|].
  destruct (ListRunningPods cl ns) as [pods|e] eqn:E; [|done]. intros H%IH.
  eapply safe_trans; [|exact H]. apply safe_foldl. intros p st0 Hp. unfold record_orphan.
  case_decide; [apply safe_refl|]. case_match; [apply safe_refl|]. apply safe_record_pod. simpl.
  pose proof (pods_namespace _ _ E) as Hall. rewrite Forall_forall in Hall. by rewrite (Hall p Hp).
Qed.

Lemma record_jobs_safe ns jobs st st' :
  Forall (fun j => in_scope block allow (job_Namespace j)) jobs ->
  record_jobs cl ns jobs st = Ok st' -> safe_step st st'.
Proof.
  intros Hj. revert st. induction Hj as [|j jobs Hns _ IH]; intros st; simpl;
    [intros [= <-]; apply safe_refl|].
  destruct (negb (jobHasActivePods j)); [apply IH|]. destruct (job_Selector j) as [sel|]; [|apply IH].
  destruct (LabelSelectorAsSelector cl sel) as [selector|]; [|apply IH].
  destruct (ListPodsBySelector cl ns selector) as [pods|]; [|done]. intros H%IH.
  eapply safe_trans; [|exact H]. apply safe_foldl. intros p st0 _.
  case_decide; [by apply safe_record_pod|apply safe_refl].
Qed.

Lemma recordJobPods_safe namespaces st st' :
  Forall (in_scope block allow) namespaces ->
  recordJobPods cl namespaces st = Ok st' -> safe_step st st'.
Proof.
  intros Hns. revert st. induction Hns as [|ns namespaces Hns _ IH]; intros st; simpl;
    [intros [= <-]; apply safe_refl|].
  destruct (ListJobs cl ns) as [jobs|e] eqn:E; [|done].
  destruct (record_jobs cl ns jobs st) as [st1|e] eqn:E1; [|done]. intros H%IH.
  eapply safe_trans; [|exact H]. eapply record_jobs_safe; [|exact E1].
  eapply Forall_impl; [by apply (jobs_namespace _ _ E)|]. intros j ->. done.
Qed.

Lemma listScopedNamespaces_scope namespaces :
  listScopedNamespaces cl allow block = Ok namespaces -> Forall (in_scope block allow) namespaces.
Proof.
  unfold listScopedNamespaces. cbv zeta.
  assert (forall l, Forall (in_scope block allow)
                      (filter (fun ns => namespaceIsBlocked (ToLower ns) block allow = false) l)) as H.
  { intros l. apply Forall_forall. intros ns [Hns _]%list_elem_of_filter. done. }
  case_decide; [intros [= <-]; apply H|]. destruct (ListNamespaces cl); [intros [= <-]; apply H|done].
Qed.

(** The final state of a successful discovery. *)
Lemma ListImages_state `{!RangeOrder string DiscoveredImage} imgs :
  ListImages cl block allow = Ok imgs ->
  exists controllers st, GetAllTopControllersWithPods cl = Ok controllers
    /\ safe_step (foldl (record_controller block allow) no_images controllers) st
    /\ inv st /\ imgs = snd <$> range_map (with_owners st).
Proof.
  unfold ListImages. destruct (GetAllTopControllersWithPods cl) as [cs|e]; [|done].
  destruct (listScopedNamespaces cl allow block) as [nss|e] eqn:En; [|done].
  apply listScopedNamespaces_scope in En.
  destruct (recordOrphanPods cl nss _) as [st1|e] eqn:E1; [|done].
  destruct (recordJobPods cl nss st1) as [st2|e] eqn:E2; [|done]. intros [= <-].
  apply recordOrphanPods_safe in E1; [|done]. apply recordJobPods_safe in E2; [|done].
  pose proof (safe_trans _ _ _ E1 E2) as Hsafe. exists cs, st2. split_and!; [done|done| |done].
  apply Hsafe. apply foldl_inv; [apply no_images_inv|]. intros st c _. apply record_controller_inv.
Qed.

Lemma with_owners_lookup st k i :
  inv st -> with_owners st !! k = Some i ->
  image_key i = k /\ exists os, imageOwners st !! k = Some os /\ os <> ∅ /\ Owners i = elements os.
Proof.
  intros [Hk Hd Ho] H. unfold with_owners in H. rewrite map_lookup_imap in H.
  destruct (keyToImage st !! k) as [img|] eqn:E; [|done]. simpl in H.
  destruct (proj1 (Hd k)) as [os Hos]; [by rewrite E|]. rewrite Hos in H. injection H as <-.
  destruct (Hk _ _ E) as [Hkey _]. split; [done|]. exists os. split_and!; [done| |done].
  by apply (Ho _ _ Hos).
Qed.

End cluster_facts.

(** Discovery stays in its scope and forgets nothing that runs under a controller:
    the images it returns are distinct, each has at least one owner, no owner
    twice, and every owner is in a namespace that is not blocked; and for every
    container of every readable pod of a controller in scope the image is there
    with that container among its owners. *)
Theorem ListImages_scope {S} (cl : Cluster S) `{!ClusterLaws cl} `{!RangeOrder string DiscoveredImage}
    block allow imgs :
  ListImages cl block allow = Ok imgs ->
  NoDup (image_key <$> imgs)
  /\ (forall i, i ∈ imgs -> Owners i <> [] /\ NoDup (Owners i)
        /\ forall r, r ∈ Owners i -> in_scope block allow (r_Namespace r))
  /\ (forall controllers c p s, GetAllTopControllersWithPods cl = Ok controllers -> c ∈ controllers ->
        in_scope block allow (top_Namespace c) -> Some p ∈ top_Pods c -> s ∈ containerStatusesFromPod p ->
        exists i, i ∈ imgs /\ image_key i = image_key (status_image s)
          /\ with_container (cs_Name s) (controller_owner c) ∈ Owners i).
Proof.
  intros H. apply (ListImages_state cl) in H as (cs & st & Hcs & [_ Hsafe] & Hinv & ->).
  assert (forall i, i ∈ snd <$> range_map (with_owners st) ->
            exists k, with_owners st !! k = Some i) as Hin.
  { intros i ([k i'] & -> & Hi)%list_elem_of_fmap. exists k. by apply elem_of_range_map in Hi. }
  split_and!.
  - assert (image_key <$> (snd <$> range_map (with_owners st)) = fst <$> range_map (with_owners st)) as ->.
    { rewrite <-list_fmap_compose. apply list_fmap_ext. intros n [k i] Hki. simpl.
      apply list_elem_of_lookup_2, elem_of_range_map in Hki.
      by destruct (with_owners_lookup block allow st k i Hinv Hki). }
    apply NoDup_fst_range_map.
  - intros i (k & Hk)%Hin. destruct (with_owners_lookup block allow st k i Hinv Hk) as (_ & os & Hos & Hne & ->).
    split_and!; [by rewrite elements_empty_iff, leibniz_equiv_iff|apply NoDup_elements|].
    intros r Hr%elem_of_elements. by apply (inv_owners _ _ Hinv _ _ Hos).
  - intros cs' c p s Hcs' Hc Hsc Hp Hs. rewrite Hcs in Hcs'. injection Hcs' as <-.
    assert (recorded s (controller_owner c) st) as (os & Hos & Hrec).
    { apply Hsafe. apply list_elem_of_split in Hc as (l1 & l2 & ->). rewrite foldl_app. simpl.
      apply (foldl_grows (record_controller block allow) l2); [intros a; apply record_controller_grows|].
      by eapply record_controller_recorded. }
    destruct (proj2 (inv_dom _ _ Hinv (image_key (status_image s)))) as [img Himg]; [by rewrite Hos|].
    exists (set_owners (elements os) img). split_and!.
    + apply list_elem_of_fmap. exists (image_key (status_image s), set_owners (elements os) img).
      split; [done|]. apply elem_of_range_map. unfold with_owners. rewrite map_lookup_imap, Himg. simpl.
      by rewrite Hos.
    + by apply (inv_key _ _ Hinv) in Himg as [? _].
    + simpl. by apply elem_of_elements.
Qed.

(** A cluster with one deployment in scope and one that is blocked. *)
Definition demo_pod : Pod :=
  {| pod_Namespace := "shop"; pod_Name := "web-1"; OwnerControllers := [Some true]; Phase := "Running";
     ContainerStatuses := [{| cs_Name := "web"; cs_Image := "index.docker.io/library/nginx:1";
                              cs_ImageID := "docker-pullable://library/nginx@sha256:abc" |}];
     InitContainerStatuses := []; EphemeralContainerStatuses := [] |}.

Definition demo_cluster : Cluster unit :=
  {| GetAllTopControllersWithPods :=
       Ok [{| top_Namespace := "shop"; top_Kind := "Deployment"; top_Name := "web"; top_Pods := [None; Some demo_pod] |};
           {| top_Namespace := "kube-system"; top_Kind := "DaemonSet"; top_Name := "proxy"; top_Pods := [Some demo_pod] |}];
     ListNamespaces := Ok ["shop"; "kube-system"];
     ListRunningPods := fun _ => Ok []; ListJobs := fun _ => Ok [];
     LabelSelectorAsSelector := fun _ => Err ""; ListPodsBySelector := fun _ _ => Ok [] |}.

#[global] Instance demo_cluster_laws : ClusterLaws demo_cluster.
Proof. constructor; intros ns l [= <-]; constructor. Qed.

Lemma demo_cluster_images :
  @ListImages unit canonical_order demo_cluster ["kube-system"] []
  = Ok [{| Name := "library/nginx:1"; ID := "library/nginx@sha256:abc"; PullRef := "library/nginx@sha256:abc";
           Owners := [{| r_Name := "web"; r_Kind := "Deployment"; r_Namespace := "shop"; r_Container := "web" |}];
           DigestResolveError := "" |}].
Proof. vm_compute. reflexivity. Qed.

Lemma ListImages_scope_witness :
  exists imgs, @ListImages unit canonical_order demo_cluster ["kube-system"] [] = Ok imgs
    /\ NoDup (image_key <$> imgs) /\ forall i, i ∈ imgs -> Owners i <> [].
Proof.
  eexists. split; [apply demo_cluster_images|].
  destruct (@ListImages_scope unit demo_cluster _ canonical_order _ _ _ demo_cluster_images) as (H1 & H2 & _).
  split; [done|]. intros i Hi. apply H2, Hi.
Defined.

(** ** Facts: the report of a run *)

Section run_facts.
Context {W Regexp : Type} (Run : list string -> string -> list string -> W -> (string * string * option string) * W)
        (Compile : string -> result string Regexp) (MatchString : Regexp -> string -> bool)
        (json_records : string -> result string (list (option (gmap string (option string)))))
        (Int63n : Z -> W -> Z * W) (sleep : Z -> W -> option string * W)
        (Match : string -> string -> result string bool) `{!RangeOrder string string}.

(** What a report says of an image: who it is, a status of the schema, "verified"
    only with evidence, and a finding for every owner of an image that is
    neither verified nor exempted. *)
Definition reported (cfg : Config) (creds : Credentials) (rep : Report) (img : DiscoveredImage)
    (r : ImageTrustResult) : Prop :=
  (t_Name r, t_ID r, t_Owners r) = (Name img, ID img, Owners img)
  /\ t_Status r ∈ statuses
  /\ (t_Status r = StatusVerified ->
      image_evidence (Run (ExtraEnv creds (SigstoreEnv cfg))) Compile MatchString json_records creds cfg img)
  /\ (t_Status r = StatusVerified \/ t_Allowlisted r = true
      \/ forall owner, owner ∈ Owners img -> buildFinding owner r ∈ rep_Findings rep).

Lemma elem_of_findings r owner rs :
  r ∈ rs -> t_Status r <> StatusVerified -> t_Allowlisted r = false -> owner ∈ t_Owners r ->
  buildFinding owner r ∈ findings_of rs.
Proof.
  intros Hr Hs Ha Ho. unfold findings_of. apply list_elem_of_bind. exists r. split; [|done].
  unfold noncompliant, has_status. rewrite Ha, bool_decide_false by done. simpl.
  apply list_elem_of_fmap. by exists owner.
Qed.

Lemma VerifyImages_result_for creds cfg v images cap retries backoff jitter rs :
  NewVerifier (Run (ExtraEnv creds (SigstoreEnv cfg))) Compile MatchString json_records creds cfg = Ok v ->
  VerifyImages_returns v Int63n sleep creds images cap retries backoff jitter rs ->
  Forall2 (result_for (image_evidence (Run (ExtraEnv creds (SigstoreEnv cfg))) Compile MatchString
                         json_records creds cfg)) images rs.
Proof.
  intros Hv%NewVerifier_sound. unfold VerifyImages_returns. case_decide as Hne.
  - intros ->. subst images. constructor.
  - intros [Hlen Hrs]%pool_returns_spec. apply Forall2_same_length_lookup_2; [done|].
    intros i img r Hi Hr. destruct (Hrs i r Hr) as (img' & ctx_err & w & Hi' & ->).
    assert (img' = img) as -> by congruence. by apply verify_image_result.
Qed.

End run_facts.


(** A run with a verifier ends with a report. *)
Lemma report_exists {W Regexp}
    (Run : list string -> string -> list string -> W -> (string * string * option string) * W)
    (Compile : string -> result string Regexp) MatchString json_records Int63n sleep Match
    `{!RangeOrder string string} cfg creds enrich discovered now v (w : W) :
  (forall p c, exists b, Match p c = Ok b) -> (forall img, exists b, enrich img b) ->
  NewVerifier (Run (ExtraEnv creds (SigstoreEnv cfg))) Compile MatchString json_records creds cfg = Ok v ->
  exists images rep,
    report_of Run Compile MatchString json_records Int63n sleep Match cfg creds enrich discovered now images rep.
Proof.
  intros Hwf Henrich Hv.
  destruct (proj1 (Images_aligned enrich discovered (ResolveDigests cfg) (MaxConcurrentScans cfg) Henrich))
    as [images Himgs].
  assert (exists rs, VerifyImages_returns v Int63n sleep creds images (MaxConcurrentScans cfg)
                       (VerifyRetries cfg) (VerifyRetryBackoff cfg) (VerifyRetryJitter cfg) rs) as [rs Hrs].
  { unfold VerifyImages_returns. case_decide; [by eexists|].
    match goal with |- context [pool_returns ?n ?c ?t] => destruct (pool_correct n c t) as (Hex & _); [lia| |done] end.
    intros i [img Hi]%lookup_lt_is_Some_2. eexists _, img, None, w. split; [done|]. reflexivity. }
  pose proof (VerifyImages_result_for Run Compile MatchString json_records Int63n sleep _ _ _ _ _ _ _ _ _ Hv Hrs)
    as Hlen%Forall2_length.
  destruct (apply_all_spec Match Hwf (NewAllowlistMatcher (ImageAllowlist cfg) (RegistryAllowlist cfg)
              (SignerAllowlist cfg)) images rs Hlen) as (rs' & Happ & _).
  eexists images, _. eapply ReportOf; [done|]. eapply VerifyImagesReturns; [done|done|].
  unfold Apply. by rewrite decide_True.
Qed.

