(* ===== verification/TrivyImages.v ===== *)
(** * trivy: the images of the report

    [trivy/pkg/models/image.go] and [pkg/image/] without the scanner: which
    images are scanned next, which entries of the last report are kept, how the
    new results are merged into it with the details of vulnerabilities factored
    out, and which newer versions are recommended.  Version numbers, the
    registry and JSON are parameters. *)

From stdpp Require Import base decidable list gmap sorting strings.
From Stdlib Require Import ZArith Lia Ascii.
From S2P Require Import Prelude GoStrings GoText.

Local Open Scope Z_scope.

(** ** Data *)

Record Resource : Type := { Kind : string; Namespace : string; ResName : string; Container : string }.

#[global] Instance trivy_Resource_eq_dec : EqDecision Resource.
Proof. solve_decision. Defined.

#[global] Instance trivy_Resource_countable : Countable Resource.
Proof.
  apply (inj_countable' (fun r => (Kind r, Namespace r, ResName r, Container r))
           (fun '(a, b, c, d) => {| Kind := a; Namespace := b; ResName := c; Container := d |})).
  by intros [].
Defined.

Record Image : Type := {
  i_Name : string;
  i_ID : string;
  i_PullRef : string;
  i_Owners : list Resource;
  i_RecommendationOnly : bool
}.

Record Vulnerability : Type := {
  v_Title : string;
  v_Description : string;
  v_InstalledVersion : string;
  v_FixedVersion : string;
  v_PkgName : string;
  v_Severity : string;
  v_VulnerabilityID : string;
  v_References : list string
}.

Record VulnerabilityList : Type := { vl_Target : string; vl_Vulnerabilities : list Vulnerability }.

Record ImageReport : Type := {
  ir_ID : string;
  ir_Name : string;
  ir_OSArch : string;
  ir_PullRef : string;
  ir_Owners : list Resource;
  ir_Reports : list VulnerabilityList;
  ir_RecommendationOnly : bool;
  ir_Error : string
}.

Record TrivyResults : Type := {
  ImageID : string;
  RepoDigests : list string;
  Architecture : string;
  OSName : string;
  Results : list VulnerabilityList
}.

Record VulnerabilityInstance : Type := {
  vi_InstalledVersion : string;
  vi_PkgName : string;
  vi_VulnerabilityID : string;
  vi_FixedVersion : string
}.

Record VulnerabilityRefList : Type := { rl_Target : string; rl_Vulnerabilities : list VulnerabilityInstance }.

Record VulnerabilityDetails : Type := {
  vd_Title : string;
  vd_Description : string;
  vd_Severity : string;
  vd_VulnerabilityID : string;
  vd_References : list string
}.

Record ImageDetailsWithRefs : Type := {
  d_ID : string;
  d_Name : string;
  d_OSArch : string;
  d_Owners : list Resource;
  d_OwnerName : string;
  d_OwnerKind : string;
  d_OwnerContainer : option string;
  d_Namespace : string;
  d_LastScan : option Z;
  d_Report : list VulnerabilityRefList;
  d_RecommendationOnly : bool;
  d_Error : string
}.

(** A nil map of vulnerabilities is [None]. *)
Record MinimizedReport : Type := {
  Images : list ImageDetailsWithRefs;
  Vulnerabilities : option (gmap string VulnerabilityDetails)
}.

Definition set_images (l : list ImageDetailsWithRefs) (r : MinimizedReport) : MinimizedReport :=
  {| Images := l; Vulnerabilities := Vulnerabilities r |}.

Definition getShaFromID (id : string) : string :=
  match Split id "@" with
  | _ :: sha :: _ => sha
  | _ => id
  end.

Definition getUniqueID (name id : string) : string :=
  if decide (id <> "") then getShaFromID id else name +:+ "@".

Definition image_UniqueID (i : Image) : string := getUniqueID (i_Name i) (i_ID i).
Definition details_UniqueID (d : ImageDetailsWithRefs) : string := getUniqueID (d_Name d) (d_ID d).

(** ** Keys *)

Definition knownPreReleases : list string :=
  ["centos-7"; "debian-8"; "debian-9"; "debian-10"; "ol-7"; "ubuntu"; "amd64"; "alpine"; "bullseye"].

Definition GetSpecificToken (tag : string) : string :=
  default "" (List.find (fun v => Contains tag v) knownPreReleases).

Definition GetRecommendationKey (repoName specific : string) : string :=
  if decide (specific = "") then repoName else repoName +:+ "/" +:+ specific.

(** Sets of the code's [map[string]bool]. *)
Definition convertImagesToMap (l : list Image) : gset string := list_to_set (image_UniqueID <$> l).

Definition convertImagesWithRefsToMap (l : list ImageDetailsWithRefs) : gset string :=
  list_to_set (details_UniqueID <$> l).

Definition repository_key (i : Image) : option string :=
  match Split (i_Name i) ":" with
  | [repo; tag] => Some (GetRecommendationKey repo (GetSpecificToken tag))
  | _ => None
  end.

Definition imagesRepositoryMap (l : list Image) : gset string := list_to_set (omap repository_key l).

(** ** Filtering the last report *)

(** The key of a recommendation; [parts[1]] panics when the name has no colon. *)
Definition recommendation_key (name : string) : go string :=
  match Split name ":" with
  | repo :: tag :: _ => Ret (GetRecommendationKey repo (GetSpecificToken tag))
  | _ => Panic
  end.

Definition keep_image (toMatch : list Image) (isRecommendation matching : bool)
    (im : ImageDetailsWithRefs) : go bool :=
  if negb isRecommendation then
    Ret (d_RecommendationOnly im
         || Bool.eqb (bool_decide (details_UniqueID im ∈ convertImagesToMap toMatch)) matching)
  else
    key ← recommendation_key (d_Name im);
    mret (negb (d_RecommendationOnly im)
          || Bool.eqb (bool_decide (key ∈ imagesRepositoryMap toMatch)) matching).

Fixpoint getImages (base : list ImageDetailsWithRefs) (toMatch : list Image)
    (isRecommendation matching : bool) : go (list ImageDetailsWithRefs) :=
  match base with
  | [] => Ret []
  | im :: base' =>
      b ← keep_image toMatch isRecommendation matching im;
      rest ← getImages base' toMatch isRecommendation matching;
      mret (if (b : bool) then im :: rest else rest)
  end.

Definition GetMatchingImages (base : list ImageDetailsWithRefs) (toMatch : list Image)
    (isRecommendation : bool) : go (list ImageDetailsWithRefs) := getImages base toMatch isRecommendation true.

Definition GetUnmatchingImages (base : list ImageDetailsWithRefs) (toMatch : list Image)
    (isRecommendation : bool) : go (list ImageDetailsWithRefs) := getImages base toMatch isRecommendation false.

(** ** What to scan *)

Definition unscanned_step (alreadyScanned : gset string) (acc : gset string * list Image) (img : Image)
    : gset string * list Image :=
  let '(alreadyAdded, imagesToScan) := acc in
  if bool_decide (image_UniqueID img ∈ alreadyScanned) || bool_decide (image_UniqueID img ∈ alreadyAdded)
  then acc
  else ({[image_UniqueID img]} ∪ alreadyAdded, imagesToScan ++ [img]).

(** [imagesToScan[:maxScans]] panics for a negative [maxScans]. *)
Definition GetUnscannedImagesToScan (imagesInCluster : list Image)
    (lastReportImages : list ImageDetailsWithRefs) (maxScans : Z) : go (list Image) :=
  let alreadyScanned := convertImagesWithRefsToMap lastReportImages in
  let imagesToScan := (foldl (unscanned_step alreadyScanned) (∅, []) imagesInCluster).2 in
  if maxScans <? lenZ imagesToScan then
    if maxScans <? 0 then Panic else Ret (take (Z.to_nat maxScans) imagesToScan)
  else Ret imagesToScan.

(** The order by the time of the last scan; images never scanned come first. *)
Definition older (a b : ImageDetailsWithRefs) : Prop :=
  match d_LastScan a, d_LastScan b with
  | None, _ => True
  | Some _, None => False
  | Some x, Some y => x <= y
  end.

(** [sort.Slice] permutes the list.  It promises a sorted one when the comparison
    is a strict weak order, which the code's is when every image has been scanned;
    it does not say how ties are broken. *)
Class SortByScan : Type := {
  sort_images : list ImageDetailsWithRefs -> list ImageDetailsWithRefs;
  sort_images_perm : forall l, sort_images l ≡ₚ l;
  sort_images_sorted : forall l,
    Forall (fun d => is_Some (d_LastScan d)) l -> StronglySorted older (sort_images l)
}.

Section rescan.
Context `{SortByScan}.

(** The image of the cluster that a report entry is about. *)
Definition same_image (r : ImageDetailsWithRefs) (img : Image) : bool :=
  bool_decide (d_Name r = i_Name img /\ details_UniqueID r = image_UniqueID img).

Fixpoint rescan_loop (images : list Image) (reports : list ImageDetailsWithRefs)
    (imagesToScan : list Image) (maxScans : Z) : list Image :=
  match reports with
  | [] => imagesToScan
  | r :: reports' =>
      if d_RecommendationOnly r then rescan_loop images reports' imagesToScan maxScans
      else match List.find (same_image r) images with
           | None => rescan_loop images reports' imagesToScan maxScans
           | Some img =>
               if lenZ imagesToScan <? maxScans
               then rescan_loop images reports' (imagesToScan ++ [img]) maxScans
               else imagesToScan
           end
  end.

(** The report's images are sorted in place, which the caller sees. *)
Definition GetImagesToReScan (images : list Image) (lastReport : MinimizedReport)
    (imagesToScan : list Image) (maxScans : Z) : list Image * MinimizedReport :=
  let sorted := sort_images (Images lastReport) in
  (rescan_loop images sorted imagesToScan maxScans, set_images sorted lastReport).

End rescan.

(** ** Owners and older reports *)

Definition set_d_owners (os : list Resource) (d : ImageDetailsWithRefs) : ImageDetailsWithRefs :=
  {| d_ID := d_ID d; d_Name := d_Name d; d_OSArch := d_OSArch d; d_Owners := os;
     d_OwnerName := d_OwnerName d; d_OwnerKind := d_OwnerKind d; d_OwnerContainer := d_OwnerContainer d;
     d_Namespace := d_Namespace d; d_LastScan := d_LastScan d; d_Report := d_Report d;
     d_RecommendationOnly := d_RecommendationOnly d; d_Error := d_Error d |}.

Definition owners_by_id (clusterImages : list Image) : gmap string (list Resource) :=
  foldl (fun m i => <[image_UniqueID i := i_Owners i]> m) ∅ clusterImages.

Definition update_owners (clusterImages : list Image) (d : ImageDetailsWithRefs) : ImageDetailsWithRefs :=
  match owners_by_id clusterImages !! details_UniqueID d with
  | Some os => set_d_owners os d
  | None => d
  end.

Definition UpdateOwnersReferenceOnMatchingImages (base : list ImageDetailsWithRefs)
    (clusterImages : list Image) : list ImageDetailsWithRefs := update_owners clusterImages <$> base.

Definition hasDeprecatedOwnerFields (d : ImageDetailsWithRefs) : bool :=
  bool_decide (d_OwnerName d <> "" \/ d_OwnerKind d <> "" \/ d_Namespace d <> "").

Definition fix_owner (d : ImageDetailsWithRefs) : ImageDetailsWithRefs :=
  if hasDeprecatedOwnerFields d then
    set_d_owners [{| ResName := d_OwnerName d; Kind := d_OwnerKind d; Namespace := d_Namespace d;
                     Container := default "" (d_OwnerContainer d) |}] d
  else d.

Definition fixOwners (r : MinimizedReport) : MinimizedReport := set_images (fix_owner <$> Images r) r.

Definition DockerIOprefix : string := "docker.io/".

Definition normalize_image (d : ImageDetailsWithRefs) : ImageDetailsWithRefs :=
  {| d_ID := TrimPrefix (d_ID d) DockerIOprefix; d_Name := TrimPrefix (d_Name d) DockerIOprefix;
     d_OSArch := d_OSArch d; d_Owners := d_Owners d; d_OwnerName := d_OwnerName d;
     d_OwnerKind := d_OwnerKind d; d_OwnerContainer := d_OwnerContainer d; d_Namespace := d_Namespace d;
     d_LastScan := d_LastScan d; d_Report := d_Report d; d_RecommendationOnly := d_RecommendationOnly d;
     d_Error := d_Error d |}.

Definition normalizeDockerHubImages (r : MinimizedReport) : MinimizedReport :=
  set_images (normalize_image <$> Images r) r.

Section last_report.
(** [json.Unmarshal]. *)
Context (json_report : string -> result string MinimizedReport).

Definition unmarshalAndFixReport (body : string) : result string MinimizedReport :=
  match json_report body with
  | Err e => Err e
  | Ok r => Ok (normalizeDockerHubImages (fixOwners r))
  end.

(** [FetchLastReport] from the outcome of the request on: the transport error,
    or the status and the body. *)
Definition FetchLastReport (response : result string (Z * result string string))
    : result string MinimizedReport :=
  match response with
  | Err e => Err e
  | Ok (status, body) =>
      if status =? 404 then Ok {| Images := []; Vulnerabilities := Some ∅ |}
      else if negb (status =? 200) then Err ("bad status code on get last report: " +:+ fmt_d status)
      else match body with
           | Err e => Err e
           | Ok b => unmarshalAndFixReport b
           end
  end.
End last_report.

(** ** Merging results into the report *)

Definition vulnerability_ref (v : Vulnerability) : VulnerabilityInstance :=
  {| vi_InstalledVersion := v_InstalledVersion v; vi_PkgName := v_PkgName v;
     vi_VulnerabilityID := v_VulnerabilityID v; vi_FixedVersion := v_FixedVersion v |}.

Definition vulnerability_details (v : Vulnerability) : VulnerabilityDetails :=
  {| vd_Title := v_Title v; vd_Description := v_Description v; vd_Severity := v_Severity v;
     vd_VulnerabilityID := v_VulnerabilityID v; vd_References := v_References v |}.

Definition ref_list (vl : VulnerabilityList) : VulnerabilityRefList :=
  {| rl_Target := vl_Target vl; rl_Vulnerabilities := vulnerability_ref <$> vl_Vulnerabilities vl |}.

Definition image_with_refs (now : Z) (r : ImageReport) : ImageDetailsWithRefs :=
  {| d_ID := ir_ID r; d_Name := ir_Name r; d_OSArch := ir_OSArch r; d_Owners := ir_Owners r;
     d_OwnerName := ""; d_OwnerKind := ""; d_OwnerContainer := None; d_Namespace := "";
     d_LastScan := Some now; d_Report := ref_list <$> ir_Reports r;
     d_RecommendationOnly := ir_RecommendationOnly r; d_Error := ir_Error r |}.

(** The ids that the entries of a report refer to. *)
Definition refs_of (d : ImageDetailsWithRefs) : list string :=
  d_Report d ≫= fun rl => vi_VulnerabilityID <$> rl_Vulnerabilities rl.

Definition report_refs (l : list ImageDetailsWithRefs) : gset string := list_to_set (l ≫= refs_of).

(** Writing the details of one vulnerability: into a nil map it panics. *)
Definition add_vulnerability (vs : option (gmap string VulnerabilityDetails)) (v : Vulnerability)
    : go (option (gmap string VulnerabilityDetails)) :=
  match vs with
  | None => Panic
  | Some m => Ret (Some (<[v_VulnerabilityID v := vulnerability_details v]> m))
  end.

Fixpoint add_vulnerabilities (vs : option (gmap string VulnerabilityDetails)) (l : list Vulnerability)
    : go (option (gmap string VulnerabilityDetails)) :=
  match l with
  | [] => Ret vs
  | v :: l' => vs' ← add_vulnerability vs v; add_vulnerabilities vs' l'
  end.

Definition report_vulnerabilities (r : ImageReport) : list Vulnerability :=
  ir_Reports r ≫= vl_Vulnerabilities.

(** The loop over the new results. *)
Fixpoint minimize_loop (now : Z) (images : list ImageReport) (acc : MinimizedReport) (exists_ : gset string)
    : go (MinimizedReport * gset string) :=
  match images with
  | [] => Ret (acc, exists_)
  | r :: images' =>
      vs ← add_vulnerabilities (Vulnerabilities acc) (report_vulnerabilities r);
      minimize_loop now images' {| Images := Images acc ++ [image_with_refs now r]; Vulnerabilities := vs |}
        (list_to_set (v_VulnerabilityID <$> report_vulnerabilities r) ∪ exists_)
  end.

Definition Minimize (now : Z) (images : list ImageReport) (lastReport : MinimizedReport) : go MinimizedReport :=
  res ← minimize_loop now images lastReport (report_refs (Images lastReport));
  let '(out, exists_) := res in
  mret {| Images := Images out;
          Vulnerabilities := (fun m => filter (fun kv => kv.1 ∈ exists_) m) <$> Vulnerabilities out |}.

(** ** Images of the cluster *)

Definition namespaceIsBlocked (ns : string) (blocklist allowlist : list string) : bool :=
  let norm x := TrimSpace (ToLower x) in
  if decide (ns ∈ (norm <$> blocklist)) then true
  else if decide (allowlist = []) then false
  else bool_decide (ns ∉ (norm <$> allowlist)).

Record ContainerStatus : Type := { st_Name : string; st_Image : string; st_ImageID : string }.

(** A top controller and the container statuses of its pods; a pod that cannot be
    converted has none. *)
Record TopController : Type := {
  tc_Namespace : string;
  tc_Kind : string;
  tc_Name : string;
  tc_Statuses : list ContainerStatus
}.

Definition pullable : string := "docker-pullable://".

Definition status_name (s : ContainerStatus) : string :=
  if HasPrefix (st_Image s) "sha256" then TrimPrefix (st_ImageID s) pullable else st_Image s.

Definition status_key (s : ContainerStatus) : string :=
  status_name s +:+ "/" +:+ TrimPrefix (st_ImageID s) pullable.

Definition status_image (s : ContainerStatus) : Image :=
  let name := status_name s in
  let id := TrimPrefix (st_ImageID s) pullable in
  {| i_ID := TrimPrefix id DockerIOprefix; i_Name := TrimPrefix name DockerIOprefix;
     i_PullRef := if decide (id = "") then name else if HasPrefix id "sha256:" then name else id;
     i_Owners := []; i_RecommendationOnly := false |}.

(** The images by key, and their owners. *)
Definition image_maps : Type := gmap string Image * gmap string (gset Resource).

Definition record_status (c : TopController) (m : image_maps) (s : ContainerStatus) : image_maps :=
  let '(images, owners) := m in
  let key := status_key s in
  let owner := {| Namespace := tc_Namespace c; Kind := tc_Kind c; ResName := tc_Name c;
                  Container := st_Name s |} in
  (match images !! key with
   | Some _ => images
   | None => <[key := status_image s]> images
   end,
   <[key := {[owner]} ∪ default ∅ (owners !! key)]> owners).

Definition record_controller (blocklist allowlist : list string) (m : image_maps) (c : TopController)
    : image_maps :=
  if namespaceIsBlocked (tc_Namespace c) blocklist allowlist then m
  else foldl (record_status c) m (tc_Statuses c).

Definition set_i_owners (os : list Resource) (i : Image) : Image :=
  {| i_Name := i_Name i; i_ID := i_ID i; i_PullRef := i_PullRef i; i_Owners := os;
     i_RecommendationOnly := i_RecommendationOnly i |}.

Definition GetImages `{!RangeOrder string Image} (controllers : result string (list TopController))
    (blocklist allowlist : list string) : result string (list Image) :=
  match controllers with
  | Err e => Err ("could not retrieve top controllers with pods: " +:+ e)
  | Ok cs =>
      let '(images, owners) := foldl (record_controller blocklist allowlist) (∅, ∅) cs in
      Ok (snd <$> range_map (map_imap (fun k i => Some (match owners !! k with
                                                        | Some os => set_i_owners (elements os) i
                                                        | None => i
                                                        end)) images))
  end.

Definition FilterImagesByName (images : list Image) (names : list string) : list Image :=
  filter (fun i => i_Name i ∈ names) images.

(** ** Newer versions *)

Definition MaxNewestVersionsToScan : nat := 1.

Definition isShortShaTag (tag : string) : bool :=
  match ParseInt tag with
  | ParsedOk n => 1000 <? n
  | _ => false
  end.

Section newest.
Context {Version Constraint : Type}.
(** [semver.NewVersion], [NewConstraint], [Validate], [Prerelease], [Original],
    [sort.Sort] by [LessThan]. *)
Context (NewVersion : string -> result string Version) (NewConstraint : string -> result string Constraint)
        (Validate : Constraint -> Version -> bool) (Prerelease Original : Version -> string)
        (SortVersions : list Version -> list Version).

Definition newer_version (cur : Version) (c : Constraint) (tag : string) : option Version :=
  if isShortShaTag tag then None
  else match NewVersion tag with
       | Err _ => None
       | Ok v =>
           let cPre := Prerelease cur in
           let vPre := Prerelease v in
           if decide (cPre <> "" /\ vPre <> "" /\ cPre <> vPre) then None
           else if Validate c v then Some v else None
       end.

Definition filterAndSort (suggestedTags : list string) (curTagStr : string) : result string (list string) :=
  match NewVersion curTagStr with
  | Err _ => Ok []
  | Ok cur =>
      match NewConstraint (">" +:+ curTagStr) with
      | Err e => Err e
      | Ok c => Ok (Original <$> SortVersions (omap (newer_version cur c) suggestedTags))
      end
  end.

(** [fetchTags]: the registry's answer for a repository, given its token. *)
Context `{!RangeOrder string string} (NewRepository : string -> result string string)
        (ListTags : string -> option string -> result string (list string))
        (tokens : gmap string string).

Definition hasOAuth2AccessToken (pullRef : string) : option string :=
  snd <$> List.find (fun rt => Contains pullRef (fst rt)) (range_map tokens).

Definition fetchTags (repo : string) : result string (list string) :=
  match NewRepository repo with
  | Err e => Err e
  | Ok repository => ListTags repository (hasOAuth2AccessToken repo)
  end.

Definition GetNewestVersions (repo tag : string) : result string (list string) :=
  match fetchTags repo with
  | Err e => Err ("error fetching tags for " +:+ repo +:+ ":" +:+ tag +:+ ": " +:+ e)
  | Ok tags =>
      match filterAndSort tags tag with
      | Err e => Err e
      | Ok newest =>
          Ok (if decide (length newest <= MaxNewestVersionsToScan)%nat then newest
              else drop (length newest - MaxNewestVersionsToScan) newest)
      end
  end.

Record NewestVersions : Type := { nv_repo : string; nv_versions : list string; nv_err : option string }.

Definition getNewestVersions (img : ImageReport) : NewestVersions :=
  match Split (ir_Name img) ":" with
  | [repo; tag] =>
      if Contains (ToLower (ir_Name img)) "@sha256:" then
        {| nv_repo := from_ptr "" id (head (Split repo "@")); nv_versions := []; nv_err := None |}
      else match GetNewestVersions repo tag with
           | Err e => {| nv_repo := repo; nv_versions := []; nv_err := Some e |}
           | Ok vs => {| nv_repo := repo; nv_versions := vs; nv_err := None |}
           end
  | _ => {| nv_repo := ""; nv_versions := [];
            nv_err := Some ("cannot find tag while getting newest version for image " +:+ Quote (ir_Name img)) |}
  end.

Definition images_with_vulns (allReports : list ImageReport) (imagesToScan : list Image) : list ImageReport :=
  imagesToScan ≫= fun img =>
    filter (fun r => ir_Name r = i_Name img /\ getShaFromID (ir_ID r) = getShaFromID (i_ID img)
                     /\ ir_Reports r <> []) allReports.

Definition recommended (vc : NewestVersions) : list Image :=
  (fun v => let ref := nv_repo vc +:+ ":" +:+ v in
            {| i_ID := ref; i_Name := ref; i_PullRef := ref; i_Owners := []; i_RecommendationOnly := true |})
    <$> nv_versions vc.

(** The answers of the goroutines arrive in any order. *)
Definition GetNewestVersionsToScan_returns (allReports : list ImageReport) (imagesToScan : list Image)
    (out : list Image) : Prop :=
  exists received, received ≡ₚ getNewestVersions <$> images_with_vulns allReports imagesToScan
    /\ out = received ≫= recommended.

End newest.

(** ** Facts: keys and filters *)

Lemma elem_of_convertImagesToMap x l :
  x ∈ convertImagesToMap l <-> exists i, i ∈ l /\ image_UniqueID i = x.
Proof.
  unfold convertImagesToMap. rewrite elem_of_list_to_set, list_elem_of_fmap.
  split; intros (i & ? & ?); by exists i.
Qed.

Lemma elem_of_convertImagesWithRefsToMap x l :
  x ∈ convertImagesWithRefsToMap l <-> exists d, d ∈ l /\ details_UniqueID d = x.
Proof.
  unfold convertImagesWithRefsToMap. rewrite elem_of_list_to_set, list_elem_of_fmap.
  split; intros (i & ? & ?); by exists i.
Qed.

(** What [keep_image] answers when it answers. *)
Definition kept (toMatch : list Image) (isRecommendation matching : bool) (d : ImageDetailsWithRefs) : Prop :=
  keep_image toMatch isRecommendation matching d = Ret true.

#[global] Instance kept_dec toMatch rec m d : Decision (kept toMatch rec m d).
Proof.
  unfold kept. destruct (keep_image toMatch rec m d) as [[]|]; [left|right|right]; done.
Defined.

Lemma getImages_Ret base toMatch rec m out :
  getImages base toMatch rec m = Ret out <->
  (forall d, d ∈ base -> returns (keep_image toMatch rec m d)) /\ out = filter (kept toMatch rec m) base.
Proof.
  revert out. induction base as [|d base IH]; intros out; simpl.
  - split; [intros [= <-]; split; [by intros ? ?%not_elem_of_nil|done]|by intros [_ ->]].
  - rewrite go_bind_ret. split.
    + intros (b & Hb & H). apply go_bind_ret in H as (rest & Hrest & [= <-]).
      apply IH in Hrest as [Hall ->]. split.
      * intros x [->|Hx]%elem_of_cons; [by exists b|by apply Hall].
      * rewrite filter_cons. destruct b; case_decide as Hk; unfold kept in Hk; congruence.
    + intros [Hall ->]. destruct (Hall d) as [b Hb]; [by left|]. exists b. split; [done|].
      apply go_bind_ret. eexists. split; [apply IH; split; [|done]|].
      * intros x Hx. apply Hall. by right.
      * rewrite filter_cons. destruct b; case_decide as Hk; unfold kept in Hk; simpl in *; try done; congruence.
Qed.

(** Matching by image never panics. *)
Lemma getImages_by_id base toMatch m :
  getImages base toMatch false m = Ret (filter (kept toMatch false m) base).
Proof. apply getImages_Ret. split; [|done]. intros d _. by eexists. Qed.

Lemma kept_by_id toMatch m d :
  kept toMatch false m d <->
  d_RecommendationOnly d = true \/ bool_decide (details_UniqueID d ∈ convertImagesToMap toMatch) = m.
Proof.
  unfold kept, keep_image. simpl. destruct (d_RecommendationOnly d); simpl; [naive_solver|].
  rewrite <-(eqb_true_iff _ m). split; [intros [= ->]; by right|by intros [?| ->]].
Qed.

(** The panic of the recommendation filter. *)
Lemma recommendation_key_panics name :
  recommendation_key name = Panic <-> exists s, Split name ":" = [s].
Proof.
  unfold recommendation_key. pose proof (split_aux_ne ":" [] (chars name)) as Hne.
  fold (Split name ":") in Hne. destruct (Split name ":") as [|a [|b l]]; [done| |].
  - split; [by exists a|done].
  - split; [done|by intros [? ?]].
Qed.

(** Entries that are not recommendations pass the recommendation filter, unless it panics. *)
Lemma kept_by_repository toMatch m d :
  d_RecommendationOnly d = false -> returns (keep_image toMatch true m d) -> kept toMatch true m d.
Proof.
  intros Hrec [b Hb]. unfold kept, keep_image in *. simpl in *.
  destruct (recommendation_key (d_Name d)); [|done]. simpl in *. by rewrite Hrec.
Qed.

(** New owners change nothing else. *)
Lemma update_owners_fields c d :
  details_UniqueID (update_owners c d) = details_UniqueID d /\ d_Name (update_owners c d) = d_Name d
  /\ d_RecommendationOnly (update_owners c d) = d_RecommendationOnly d.
Proof. unfold update_owners. by destruct (owners_by_id c !! details_UniqueID d). Qed.

Lemma owners_by_id_matching c x : x ∈ convertImagesToMap c -> exists i, i ∈ c /\ image_UniqueID i = x
  /\ owners_by_id c !! x = Some (i_Owners i).
Proof.
  unfold owners_by_id. rewrite elem_of_convertImagesToMap. induction c as [|i c IH] using rev_ind; [naive_solver set_solver|].
  intros (j & Hj & Hx). rewrite foldl_app. simpl. destruct (decide (image_UniqueID i = x)) as [He|Hne].
  - exists i. split_and!; [apply elem_of_app; right; by left|done|by rewrite He, lookup_insert_eq].
  - destruct IH as (k & Hk & ? & Ho).
    + exists j. split; [|done]. apply elem_of_app in Hj as [?|Hj]; [done|].
      apply list_elem_of_singleton in Hj as ->. done.
    + exists k. split_and!; [apply elem_of_app; by left|done|by rewrite lookup_insert_ne].
Qed.

(** ** Facts: the queue *)

Section unscanned.
Context (already : gset string).

Record unscanned_inv (seen : list Image) (acc : gset string * list Image) : Prop := {
  un_added : acc.1 = list_to_set (image_UniqueID <$> acc.2);
  un_nodup : NoDup (image_UniqueID <$> acc.2);
  un_sub : forall i, i ∈ acc.2 -> i ∈ seen /\ image_UniqueID i ∉ already;
  un_all : forall i, i ∈ seen -> image_UniqueID i ∉ already -> image_UniqueID i ∈ image_UniqueID <$> acc.2
}.

Lemma unscanned_step_inv seen acc i :
  unscanned_inv seen acc -> unscanned_inv (seen ++ [i]) (unscanned_step already acc i).
Proof.
  destruct acc as [added out]. intros [Ha Hn Hs Hall]. simpl in *. subst added.
  unfold unscanned_step. rewrite <-bool_decide_or.
  case_bool_decide as Hin; constructor; simpl.
  - done.
  - done.
  - intros j Hj. destruct (Hs j Hj). split; [|done]. apply elem_of_app. by left.
  - intros j. rewrite elem_of_app, list_elem_of_singleton. intros [Hj| ->] Hno; [by apply Hall|].
    destruct Hin as [?|Hin]; [done|]. by apply elem_of_list_to_set in Hin.
  - rewrite fmap_app, list_to_set_app_L. simpl. by rewrite (right_id_L ∅ (∪)), (comm_L (∪)).
  - rewrite fmap_app. apply NoDup_app. split_and!; [done| |apply NoDup_singleton].
    intros x Hx. simpl. rewrite list_elem_of_singleton. intros ->. apply Hin. right.
    by apply elem_of_list_to_set.
  - intros j. rewrite !elem_of_app, list_elem_of_singleton. intros [Hj| ->].
    + destruct (Hs j Hj). by split; [left|].
    + split; [by right|tauto].
  - intros j. rewrite fmap_app, !elem_of_app. rewrite list_elem_of_singleton. intros [Hj| ->] Hno.
    + left. by apply Hall.
    + right. by apply list_elem_of_singleton.
Qed.

Lemma unscanned_inv_foldl l :
  unscanned_inv l (foldl (unscanned_step already) (∅, []) l).
Proof.
  induction l as [|i l IH] using rev_ind.
  - constructor; simpl; try done; try (by intros ? ?%not_elem_of_nil). constructor.
  - rewrite foldl_app. simpl. by apply unscanned_step_inv.
Qed.
End unscanned.

(** What is scanned for the first time: for a limit that is not negative,
    [GetUnscannedImagesToScan] returns at most [maxScans] images, no two with the same id, each
    of them an image of the cluster that the last report does not have; when
    it returns fewer than the limit, no unscanned image is left out. *)
Theorem GetUnscannedImagesToScan_spec (cluster : list Image) (last : list ImageDetailsWithRefs) (maxScans : Z) :
  0 <= maxScans ->
  exists out, GetUnscannedImagesToScan cluster last maxScans = Ret out
    /\ lenZ out <= maxScans
    /\ NoDup (image_UniqueID <$> out)
    /\ (forall i, i ∈ out -> i ∈ cluster /\ forall d, d ∈ last -> details_UniqueID d <> image_UniqueID i)
    /\ (lenZ out < maxScans -> forall i, i ∈ cluster ->
          (exists d, d ∈ last /\ details_UniqueID d = image_UniqueID i)
          \/ exists j, j ∈ out /\ image_UniqueID j = image_UniqueID i).
Proof.
  intros Hm. unfold GetUnscannedImagesToScan.
  destruct (unscanned_inv_foldl (convertImagesWithRefsToMap last) cluster) as [_ Hn Hs Hall].
  set (all := (foldl _ _ _).2) in *.
  assert (exists k, (if maxScans <? lenZ all then if maxScans <? 0 then Panic
                     else Ret (take (Z.to_nat maxScans) all) else Ret all) = Ret (take k all)
                    /\ lenZ (take k all) <= maxScans
                    /\ (lenZ (take k all) < maxScans -> take k all = all)) as (k & -> & Hlen & Hfull).
  { destruct (Z.ltb_spec maxScans (lenZ all)).
    - destruct (Z.ltb_spec maxScans 0); [lia|]. exists (Z.to_nat maxScans).
      unfold lenZ in *. rewrite length_take. split; [done|]. split; lia.
    - exists (length all). rewrite firstn_all. done. }
  exists (take k all). split; [done|]. split; [done|]. split_and!.
  - rewrite fmap_take. eapply sublist_NoDup; [exact Hn|apply sublist_take].
  - intros i Hi. destruct (Hs i) as [Hc Hno]; [by apply elem_of_take in Hi as (? & ? & _); eapply list_elem_of_lookup_2|].
    split; [done|]. intros d Hd Heq. apply Hno, elem_of_convertImagesWithRefsToMap. by exists d.
  - intros Hlt i Hi. rewrite (Hfull Hlt).
    destruct (decide (image_UniqueID i ∈ convertImagesWithRefsToMap last)) as [Hin|Hno].
    + left. by apply elem_of_convertImagesWithRefsToMap.
    + right. specialize (Hall i Hi Hno). apply list_elem_of_fmap in Hall as (j & ? & ?). by exists j.
Qed.

Lemma GetUnscannedImagesToScan_sub cluster last maxScans out i :
  GetUnscannedImagesToScan cluster last maxScans = Ret out -> i ∈ out -> i ∈ cluster.
Proof.
  unfold GetUnscannedImagesToScan. intros H Hi.
  destruct (unscanned_inv_foldl (convertImagesWithRefsToMap last) cluster) as [_ _ Hs _].
  apply Hs. destruct (_ <? _); [|by simplify_eq]. destruct (_ <? _); [done|]. simplify_eq.
  by apply elem_of_take in Hi as (? & ? & _); eapply list_elem_of_lookup_2.
Qed.

Section rescan_facts.
Context `{SortByScan}.

(** The image of the cluster that a report entry would re-scan. *)
Definition rescan_candidate (images : list Image) (r : ImageDetailsWithRefs) : option Image :=
  if d_RecommendationOnly r then None else List.find (same_image r) images.

Lemma rescan_loop_eq images l queue maxScans :
  rescan_loop images l queue maxScans
  = queue ++ take (Z.to_nat (maxScans - lenZ queue)) (omap (rescan_candidate images) l).
Proof.
  revert queue. induction l as [|r l IH]; intros queue; simpl; [by rewrite take_nil, app_nil_r|].
  unfold rescan_candidate at 1. destruct (d_RecommendationOnly r); [apply IH|].
  destruct (List.find (same_image r) images) as [i|] eqn:Hf; [|apply IH].
  destruct (Z.ltb_spec (lenZ queue) maxScans) as [Hlt|Hge].
  - rewrite IH, lenZ_app. replace (Z.to_nat (maxScans - lenZ queue))
      with (S (Z.to_nat (maxScans - (lenZ queue + lenZ [i])))) by (unfold lenZ in *; simpl; lia).
    simpl. by rewrite <-app_assoc.
  - replace (Z.to_nat (maxScans - lenZ queue)) with 0%nat by lia. simpl. by rewrite app_nil_r.
Qed.

Lemma GetImagesToReScan_eq images queue report maxScans :
  GetImagesToReScan images report queue maxScans
  = (queue ++ take (Z.to_nat (maxScans - lenZ queue)) (omap (rescan_candidate images) (sort_images (Images report))),
     set_images (sort_images (Images report)) report).
Proof. unfold GetImagesToReScan. by rewrite rescan_loop_eq. Qed.

(** The re-scan queue is what its name says: [GetImagesToReScan] equals the reference
    definition that takes, after the images already queued, the first
    candidates of the report in its scan order until the limit; and when every
    entry has been scanned, that order is oldest first.  It leaves the report's
    images sorted. *)
Theorem GetImagesToReScan_reference (images queue : list Image) (last : MinimizedReport) (maxScans : Z) :
  let out := GetImagesToReScan images last queue maxScans in
  out.1 = queue ++ take (Z.to_nat (maxScans - lenZ queue)) (omap (rescan_candidate images) (Images out.2))
  /\ Images out.2 ≡ₚ Images last /\ Vulnerabilities out.2 = Vulnerabilities last
  /\ (Forall (fun d => is_Some (d_LastScan d)) (Images last) -> StronglySorted older (Images out.2)).
Proof.
  rewrite GetImagesToReScan_eq. simpl.
  split_and!; [done|apply sort_images_perm|done|apply sort_images_sorted].
Qed.

Lemma rescan_candidate_Some images r i :
  rescan_candidate images r = Some i -> i ∈ images /\ d_RecommendationOnly r = false
    /\ d_Name r = i_Name i /\ details_UniqueID r = image_UniqueID i.
Proof.
  unfold rescan_candidate. destruct (d_RecommendationOnly r); [done|]. intros Hf.
  apply find_some in Hf as [Hin Hs]. apply bool_decide_eq_true in Hs as [? ?].
  split; [by apply list_elem_of_In|done].
Qed.
End rescan_facts.

(** ** Facts: merging *)

(** The vulnerabilities found by a list of scans. *)
Definition found (images : list ImageReport) : list Vulnerability := images ≫= report_vulnerabilities.

Definition found_ids (images : list ImageReport) : gset string := list_to_set (v_VulnerabilityID <$> found images).

Lemma refs_of_image_with_refs now r :
  refs_of (image_with_refs now r) = v_VulnerabilityID <$> report_vulnerabilities r.
Proof.
  unfold refs_of, image_with_refs, report_vulnerabilities. cbn [d_Report].
  induction (ir_Reports r) as [|vl l IH]; [done|].
  rewrite fmap_cons, !bind_cons, fmap_app, IH. f_equal. simpl. by rewrite <-list_fmap_compose.
Qed.

Lemma report_refs_app l k : report_refs (l ++ k) = report_refs l ∪ report_refs k.
Proof. unfold report_refs. by rewrite bind_app, list_to_set_app_L. Qed.

Lemma report_refs_found now images :
  report_refs (image_with_refs now <$> images) = found_ids images.
Proof.
  unfold report_refs, found_ids, found. f_equal. induction images as [|r l IH]; [done|].
  by rewrite fmap_cons, !bind_cons, refs_of_image_with_refs, IH, fmap_app.
Qed.

(** [m'] is [m] overwritten with the details of vulnerabilities of [l]. *)
Definition merged (l : list Vulnerability) (m m' : gmap string VulnerabilityDetails) : Prop :=
  forall k, (k ∉ v_VulnerabilityID <$> l -> m' !! k = m !! k)
    /\ (k ∈ v_VulnerabilityID <$> l ->
        exists v, v ∈ l /\ v_VulnerabilityID v = k /\ m' !! k = Some (vulnerability_details v)).

Lemma merged_nil m : merged [] m m.
Proof. intros k. split; [done|]. by intros ?%not_elem_of_nil. Qed.

Lemma merged_app l1 l2 m m1 m2 : merged l1 m m1 -> merged l2 m1 m2 -> merged (l1 ++ l2) m m2.
Proof.
  intros H1 H2 k. destruct (H1 k) as [H1n H1y], (H2 k) as [H2n H2y]. rewrite fmap_app. split.
  - rewrite not_elem_of_app. intros [? ?]. rewrite H2n by done. by apply H1n.
  - rewrite elem_of_app. intros Hk. destruct (decide (k ∈ v_VulnerabilityID <$> l2)) as [Hin|Hno].
    + destruct (H2y Hin) as (v & ? & ? & ?). exists v. split_and!; [|done|done].
      apply elem_of_app. by right.
    + destruct Hk as [Hk|Hk]; [|done]. destruct (H1y Hk) as (v & ? & ? & ?). exists v.
      split_and!; [|done|by rewrite H2n]. apply elem_of_app. by left.
Qed.

Lemma merged_single v m : merged [v] m (<[v_VulnerabilityID v := vulnerability_details v]> m).
Proof.
  intros k. simpl. rewrite list_elem_of_singleton. split.
  - intros Hne. by rewrite lookup_insert_ne.
  - intros ->. exists v. split_and!; [by left|done|by rewrite lookup_insert_eq].
Qed.

Lemma add_vulnerabilities_merged l m :
  exists m', add_vulnerabilities (Some m) l = Ret (Some m') /\ merged l m m'.
Proof.
  revert m. induction l as [|v l IH]; intros m; simpl; [exists m; split; [done|apply merged_nil]|].
  destruct (IH (<[v_VulnerabilityID v := vulnerability_details v]> m)) as (m' & Hm' & Hmerged).
  exists m'. split; [done|]. change (v :: l) with ([v] ++ l). eapply merged_app; [|exact Hmerged].
  apply merged_single.
Qed.

Lemma add_vulnerabilities_nil l : add_vulnerabilities None l = match l with [] => Ret None | _ => Panic end.
Proof. by destruct l. Qed.

Lemma minimize_loop_merged now images acc ex m :
  Vulnerabilities acc = Some m ->
  exists m', merged (found images) m m'
    /\ minimize_loop now images acc ex
       = Ret ({| Images := Images acc ++ (image_with_refs now <$> images); Vulnerabilities := Some m' |},
              found_ids images ∪ ex).
Proof.
  revert acc ex m. induction images as [|r images IH]; intros acc ex m Hm; simpl.
  - exists m. split; [apply merged_nil|]. destruct acc as [ims vs]. simpl in *. subst vs.
    unfold found_ids. simpl. by rewrite app_nil_r, (left_id_L ∅ (∪)).
  - rewrite Hm. destruct (add_vulnerabilities_merged (report_vulnerabilities r) m) as (m1 & -> & H1).
    simpl. destruct (IH {| Images := Images acc ++ [image_with_refs now r]; Vulnerabilities := Some m1 |}
                        (list_to_set (v_VulnerabilityID <$> report_vulnerabilities r) ∪ ex) m1 eq_refl)
      as (m' & Hm' & ->).
    exists m'. split; [by eapply merged_app|]. simpl. rewrite <-app_assoc. do 2 f_equal.
    unfold found_ids, found. simpl. rewrite fmap_app, list_to_set_app_L. set_solver.
Qed.

(** C15. The merged report is self-contained: when the last report has a map of
    details, [Minimize] returns, keeps the remaining entries and adds one for every
    scan; it has details exactly for the ids that are still referred to and that
    have been described, now or before; what was just found is described by the new scan,
    the rest as before.  So when the last report described all it refers to, the new one
    describes exactly what it refers to. *)
Theorem Minimize_self_contained (now : Z) (images : list ImageReport) (last : MinimizedReport)
    (m : gmap string VulnerabilityDetails) :
  Vulnerabilities last = Some m ->
  exists m', let out := {| Images := Images last ++ (image_with_refs now <$> images); Vulnerabilities := Some m' |} in
    Minimize now images last = Ret out
    /\ (forall k, is_Some (m' !! k) <-> k ∈ report_refs (Images out) /\ (k ∈ found_ids images \/ is_Some (m !! k)))
    /\ (forall k d, m' !! k = Some d -> k ∉ found_ids images -> m !! k = Some d)
    /\ (forall k, k ∈ found_ids images -> exists v, v ∈ found images /\ v_VulnerabilityID v = k
          /\ m' !! k = Some (vulnerability_details v))
    /\ (report_refs (Images last) ⊆ dom m -> dom m' = report_refs (Images out)).
Proof.
  intros Hm. destruct (minimize_loop_merged now images last (report_refs (Images last)) m Hm) as (m1 & Hm1 & Hloop).
  set (ex := found_ids images ∪ report_refs (Images last)) in *.
  exists (filter (fun kv => kv.1 ∈ ex) m1). simpl.
  rewrite report_refs_app, report_refs_found, (comm_L (∪) (report_refs _)). fold ex.
  assert (forall k, k ∈ found_ids images <-> k ∈ v_VulnerabilityID <$> found images) as Hids.
  { intros k. unfold found_ids. apply elem_of_list_to_set. }
  assert (forall k, is_Some (filter (fun kv => kv.1 ∈ ex) m1 !! k)
                    <-> k ∈ ex /\ (k ∈ found_ids images \/ is_Some (m !! k))) as Hdom.
  { intros k. destruct (Hm1 k) as [Hno Hyes]. split.
    - intros [d [Hd Hk]%map_lookup_filter_Some]. split; [exact Hk|].
      destruct (decide (k ∈ found_ids images)) as [?|Hn]; [by left|]. right.
      rewrite Hids in Hn. rewrite Hno in Hd by done. by exists d.
    - intros [Hk Hor]. destruct (decide (k ∈ found_ids images)) as [Hin|Hn].
      + destruct Hyes as (v & _ & _ & Hv); [by apply Hids|]. eexists. by apply map_lookup_filter_Some.
      + destruct Hor as [?|[d Hd]]; [done|]. exists d. apply map_lookup_filter_Some.
        split; [|done]. by rewrite Hno by (by rewrite <-Hids). }
  split_and!.
  - unfold Minimize. rewrite Hloop. done.
  - exact Hdom.
  - intros k d [Hd Hk]%map_lookup_filter_Some Hn. rewrite Hids in Hn. destruct (Hm1 k) as [Hno _].
    by rewrite <-Hno.
  - intros k Hk. pose proof Hk as Hk'. rewrite Hids in Hk'. destruct (Hm1 k) as [_ Hyes].
    destruct (Hyes Hk') as (v & ? & ? & Hv). exists v. split_and!; [done|done|].
    apply map_lookup_filter_Some. split; [done|]. simpl. unfold ex. set_solver.
  - intros Hclosed. apply set_eq. intros k. rewrite elem_of_dom, Hdom. split; [by intros [? _]|].
    intros Hk. split; [done|]. unfold ex in Hk. apply elem_of_union in Hk as [Hk|Hk]; [by left|].
    right. apply elem_of_dom. by apply Hclosed.
Qed.

(** The entries of the merged report, whatever the map. *)
Lemma minimize_loop_images now images acc ex out ex' :
  minimize_loop now images acc ex = Ret (out, ex') -> Images out = Images acc ++ (image_with_refs now <$> images).
Proof.
  revert acc ex. induction images as [|r images IH]; intros acc ex; simpl.
  - intros [= <- _]. by rewrite app_nil_r.
  - rewrite go_bind_ret. intros (vs & _ & H). apply IH in H. rewrite H. simpl. by rewrite <-app_assoc.
Qed.

Lemma Minimize_images now images report out :
  Minimize now images report = Ret out -> Images out = Images report ++ (image_with_refs now <$> images).
Proof.
  unfold Minimize. rewrite go_bind_ret. intros ([m ex] & H & [= <-]). by apply minimize_loop_images in H.
Qed.

(** With a nil map of details the first vulnerability found is a panic. *)
Lemma Minimize_nil_map now images last :
  Vulnerabilities last = None -> (Minimize now images last = Panic <-> found images <> []).
Proof.
  intros Hn. unfold Minimize. generalize (report_refs (Images last)). revert last Hn.
  induction images as [|r images IH]; intros last Hn ex; [simpl; done|].
  unfold found. simpl. rewrite Hn, add_vulnerabilities_nil.
  destruct (report_vulnerabilities r) as [|v l] eqn:Hr; simpl; [|done].
  apply (IH {| Images := _; Vulnerabilities := None |}). done.
Qed.

(** ** Witnesses *)

Definition example_image (name sha : string) : Image :=
  {| i_Name := name; i_ID := name +:+ "@" +:+ sha; i_PullRef := name; i_Owners := []; i_RecommendationOnly := false |}.

Lemma GetUnscannedImagesToScan_spec_witness :
  0 <= 1 /\ exists out, GetUnscannedImagesToScan [example_image "a:1" "sha256:1"; example_image "b:1" "sha256:2"] [] 1 = Ret out
    /\ lenZ out <= 1.
Proof.
  split; [lia|].
  destruct (GetUnscannedImagesToScan_spec [example_image "a:1" "sha256:1"; example_image "b:1" "sha256:2"] [] 1)
    as (out & H & Hlen & _); [lia|]. by exists out.
Defined.

Definition example_vulnerability : Vulnerability :=
  {| v_Title := "t"; v_Description := ""; v_InstalledVersion := "1"; v_FixedVersion := "2"; v_PkgName := "p";
     v_Severity := "HIGH"; v_VulnerabilityID := "CVE-1"; v_References := [] |}.

Definition example_scan : ImageReport :=
  {| ir_ID := "a@sha256:1"; ir_Name := "a:1"; ir_OSArch := ""; ir_PullRef := "a:1"; ir_Owners := [];
     ir_Reports := [{| vl_Target := "a"; vl_Vulnerabilities := [example_vulnerability] |}];
     ir_RecommendationOnly := false; ir_Error := "" |}.

Lemma Minimize_self_contained_witness :
  exists m', Minimize 5 [example_scan] {| Images := []; Vulnerabilities := Some ∅ |}
      = Ret {| Images := [image_with_refs 5 example_scan]; Vulnerabilities := Some m' |}
    /\ dom m' = report_refs [image_with_refs 5 example_scan].
Proof.
  destruct (Minimize_self_contained 5 [example_scan] {| Images := []; Vulnerabilities := Some ∅ |} ∅ eq_refl)
    as (m' & H & _ & _ & _ & Hclosed).
  exists m'. split; [exact H|]. apply Hclosed. by apply (bool_decide_unpack _).
Defined.
