(* ===== verification/TrivyScan.v ===== *)
(** * trivy: scanning and the whole run

    [trivy/pkg/image/scan.go] (the pool of scans with its locks and retries,
    the commands that are run, the conversion of the results),
    [pkg/util/util.go], [pkg/config/config.go] and [cmd/trivy/main.go].  The
    commands, files and the environment are the record [Tools]; the goroutines
    of [ScanImages] are a step relation. *)

From stdpp Require Import base decidable list gmap sorting relations strings.
From Stdlib Require Import ZArith Lia Ascii.
From S2P Require Import Prelude GoStrings GoText GoValues TrivyImages.

Local Open Scope Z_scope.

(** ** Sanitising output *)

Definition UnknownOSMessage : string := "Unknown OS".

(** The credentials that follow an option, up to the first [" docker"]. *)
Definition redact (s : string) (index len : Z) (mark : string) : go string :=
  secret ← slice s (index + len) (IndexZ s " docker");
  mret (ReplaceAll s secret mark).

Definition RemoveTokensAndPassword (s : string) : go string :=
  let index := IndexZ s "x-access-token" in
  let index2 := IndexZ s "@github.com" in
  if (0 <? index) && (0 <? index2) then
    secret ← slice s (index + 15) index2;
    mret (ReplaceAll s secret "<TOKEN>")
  else if 0 <? IndexZ s "--src-creds" then redact s (IndexZ s "--src-creds") 12 "<CREDENTIALS>"
  else if 0 <? IndexZ s "--src-registry-token" then redact s (IndexZ s "--src-registry-token") 21 "<TOKEN>"
  else Ret s.

(** ** The outside world *)

Record Tools : Type := {
  Getenv : string -> string;
  (** [exec.Command(name, args...).CombinedOutput()]. *)
  CombinedOutput : string -> list string -> string * option string;
  ReadFile : string -> result string string;
  (** [json.Unmarshal] of a report, and of the annotations of the service account. *)
  json_results : string -> result string TrivyResults;
  json_annotations : string -> result string (gmap string string);
  (** The error texts of [strconv]. *)
  conv_error : string -> string
}.

(** Concurrency, maximum of images and so on. *)
Record config : Type := {
  c_Offline : bool;
  c_MaxConcurrentScans : Z;
  c_MaxImagesToScan : Z;
  c_ExtraFlags : string;
  c_NamespaceBlocklist : list string;
  c_NamespaceAllowlist : list string;
  c_HasGKESAAnnotation : bool;
  c_ImagesToScan : list string;
  c_TrivyServerURL : string
}.

(** The output without surrounding space, or an error; the panic is that of the sanitiser. *)
Definition command_result (message : string) (r : string * option string) : go (result string string) :=
  match r with
  | (output, None) => Ret (Ok (TrimSpace output))
  | (output, Some err) =>
      outputString ← RemoveTokensAndPassword output;
      mret (if Contains outputString UnknownOSMessage then Err UnknownOSMessage
            else Err ("error " +:+ message +:+ ": " +:+ err +:+ String (byte 10) outputString))
  end.

Section tools.
Context (os : Tools).

Definition RunCommand (name : string) (args : list string) (message : string) : go (result string string) :=
  command_result message (CombinedOutput os name args).

Definition requiredEnvVars : list string :=
  ["FAIRWINDS_INSIGHTS_HOST"; "FAIRWINDS_ORG"; "FAIRWINDS_CLUSTER"; "FAIRWINDS_TOKEN"].

Definition CheckRequiredEnvironmentVariables : option string :=
  (fun env => "missing required environment variable: " +:+ env)
    <$> List.find (fun env => bool_decide (Getenv os env = "")) requiredEnvVars.

(** ** Configuration *)

Definition MAX_CONCURRENT_SCANS : Z := 5.
Definition MAX_IMAGES_TO_SCAN : Z := 10.

Definition Atoi_env (name : string) (dflt : Z) : result string Z :=
  if decide (Getenv os name = "") then Ok dflt
  else match ParseInt (Getenv os name) with
       | ParsedOk n => Ok n
       | _ => Err (conv_error os (Getenv os name))
       end.

(** [strconv.ParseBool]. *)
Definition ParseBool (s : string) : option bool :=
  if decide (s ∈ ["1"; "t"; "T"; "true"; "TRUE"; "True"]) then Some true
  else if decide (s ∈ ["0"; "f"; "F"; "false"; "FALSE"; "False"]) then Some false
  else None.

Definition ignore_unfixed : result string string :=
  let s := Getenv os "IGNORE_UNFIXED" in
  if decide (s = "") then Ok ""
  else match ParseBool s with
       | None => Err (conv_error os s)
       | Some b => Ok (if b : bool then "--ignore-unfixed" else "")
       end.

Definition annotations : result string (gmap string string) :=
  let s := Getenv os "SERVICE_ACCOUNT_ANNOTATIONS" in
  if decide (s = "") then Ok ∅ else json_annotations os s.

Definition env_list (name : string) : list string :=
  if decide (Getenv os name = "") then [] else Split (Getenv os name) ",".

Definition LoadFromEnvironment : result string config :=
  match Atoi_env "MAX_CONCURRENT_SCANS" MAX_CONCURRENT_SCANS with
  | Err e => Err e
  | Ok maxConcurrentScans =>
  match Atoi_env "MAX_SCANS" MAX_IMAGES_TO_SCAN with
  | Err e => Err e
  | Ok maxImagesToScan =>
  match ignore_unfixed with
  | Err e => Err e
  | Ok extraFlags =>
  match annotations with
  | Err e => Err e
  | Ok serviceAccountAnnotations =>
      Ok {| c_Offline := bool_decide (Getenv os "OFFLINE" <> "");
            c_MaxConcurrentScans := maxConcurrentScans;
            c_MaxImagesToScan := maxImagesToScan;
            c_ExtraFlags := extraFlags;
            c_NamespaceBlocklist :=
              if decide (Getenv os "NAMESPACE_BLOCKLIST" = "") then env_list "NAMESPACE_BLACKLIST"
              else env_list "NAMESPACE_BLOCKLIST";
            c_NamespaceAllowlist := env_list "NAMESPACE_ALLOWLIST";
            c_HasGKESAAnnotation :=
              bool_decide (is_Some (serviceAccountAnnotations !! "iam.gke.io/gcp-service-account"));
            c_ImagesToScan := env_list "IMAGES_TO_SCAN";
            c_TrivyServerURL := Getenv os "TRIVY_SERVER_URL" |}
  end end end end.

(** ** One scan *)

Definition TempDir : string := "/output/tmp".

(** [init]: the password file takes precedence; when it cannot be read the program panics. *)
Definition registryPassword : go string :=
  let passwordFile := Getenv os "REGISTRY_PASSWORD_FILE" in
  if decide (passwordFile = "") then Ret (Getenv os "REGISTRY_PASSWORD")
  else match ReadFile os passwordFile with
       | Err _ => Panic
       | Ok content => Ret content
       end.

Context (password : string) `{!RangeOrder string string} (tokens : gmap string string).

Definition skopeo_args (pullRef dest : string) : list string :=
  let user := Getenv os "REGISTRY_USER" in
  let certDir := Getenv os "REGISTRY_CERT_DIR" in
  ["copy"]
  ++ (if decide (Getenv os "SKOPEO_ARGS" = "") then [] else Split (Getenv os "SKOPEO_ARGS") ",")
  ++ (if decide (Getenv os "TRIVY_INSECURE" = "") then [] else ["--src-tls-verify=false"; "--dest-tls-verify=false"])
  ++ (match hasOAuth2AccessToken tokens pullRef with
      | Some token => ["--src-creds"; "oauth2accesstoken:" +:+ token]
      | None => []
      end)
  ++ (if decide (user = "" /\ password = "") then [] else ["--src-creds"; user +:+ ":" +:+ password])
  ++ (if decide (certDir = "") then [] else ["--src-cert-dir"; certDir])
  ++ ["docker://" +:+ pullRef; "docker-archive:" +:+ dest].

(** The command is logged, sanitised, before it runs. *)
Definition downloadPullRef (pullRef : string) : go (result string string) :=
  let dest := TempDir +:+ "/" +:+ non_word_to_underscore pullRef in
  let args := skopeo_args pullRef dest in
  _ ← RemoveTokensAndPassword ("Running command: skopeo " +:+ Join args " ");
  r ← RunCommand "skopeo" args ("pulling image " +:+ pullRef);
  mret (match r with
        | Err e => Err ("error pulling " +:+ pullRef +:+ " with skopeo: " +:+ e)
        | Ok _ => Ok dest
        end).

Definition replace_ref (pullRef replacement : string) : string :=
  match Split replacement "," with
  | [old; new] => ReplaceAll pullRef old new
  | _ => pullRef
  end.

Definition replaced_ref (pullRef : string) : string :=
  let refReplacements := Getenv os "PULL_REF_REPLACEMENTS" in
  if decide (refReplacements = "") then pullRef else foldl replace_ref pullRef (Split refReplacements ";").

Definition local_args (extraFlags reportFile : string) : list string :=
  ["-d"; "image"; "--skip-db-update"; "--skip-java-db-update"; "--security-checks"; "vuln"; "-f"; "json"; "-o"; reportFile]
  ++ (if decide (extraFlags = "") then [] else [extraFlags])
  ++ (if decide (Getenv os "OFFLINE" = "") then [] else ["--offline-scan"]).

Definition server_args (trivyServerURL pullRef reportFile : string) : list string :=
  ["-d"; "image"; "--server"; trivyServerURL; "--scanners"; "vuln"; pullRef; "-f"; "json"; "-o"; reportFile].

(** Running trivy and reading its report. *)
Definition run_trivy (args : list string) (pullRef imageID reportFile : string)
    : go (result string TrivyResults) :=
  r ← RunCommand "trivy" args ("scanning " +:+ pullRef);
  mret (match r with
        | Err e => Err ("error scanning " +:+ pullRef +:+ ": " +:+ e)
        | Ok _ =>
            match ReadFile os reportFile with
            | Err e => Err ("error reading report " +:+ imageID +:+ ": " +:+ e)
            | Ok data =>
                match json_results os data with
                | Err e => Err ("error decoding report " +:+ imageID +:+ ": " +:+ e)
                | Ok report => Ok report
                end
            end
        end).

Definition ScanImage (extraFlags pullRef trivyServerURL : string) : go (result string TrivyResults) :=
  let imageID := non_word_to_underscore pullRef in
  let reportFile := TempDir +:+ "/trivy-report-" +:+ imageID +:+ ".json" in
  if decide (trivyServerURL = "") then
    let ref := replaced_ref pullRef in
    r ← downloadPullRef ref;
    match r with
    | Err e => Ret (Err ("error while downloading image: " +:+ e))
    | Ok imageFile => run_trivy (local_args extraFlags reportFile ++ ["--input"; imageFile]) ref imageID reportFile
    end
  else run_trivy (server_args trivyServerURL pullRef reportFile) pullRef imageID reportFile.

(** ** Databases and tokens *)

Definition trivy_db_args : list string :=
  ["image"; "--download-db-only"; "--db-repository";
   "ghcr.io/aquasecurity/trivy-db:2,public.ecr.aws/aquasecurity/trivy-db:2,docker.io/aquasec/trivy-db:2"].

Definition trivy_java_db_args : list string :=
  ["image"; "--download-java-db-only"; "--java-db-repository";
   "ghcr.io/aquasecurity/trivy-java-db:1,public.ecr.aws/aquasecurity/trivy-java-db:1,docker.io/aquasec/trivy-java-db:1"].

Definition updateTrivyDatabases : go (option string) :=
  r ← RunCommand "trivy" trivy_db_args "downloading trivy database";
  match r with
  | Err e => Ret (Some ("downloading trivy database: " +:+ e))
  | Ok _ =>
      r' ← RunCommand "trivy" trivy_java_db_args "downloading trivy java database";
      mret (match r' with
            | Err e => Some ("downloading trivy java database: " +:+ e)
            | Ok _ => None
            end)
  end.

Definition registry_tokens (cfg : config) : go (result string (gmap string string)) :=
  if c_HasGKESAAnnotation cfg then
    r ← RunCommand "gcloud" ["auth"; "print-access-token"] "getting gcloud access token";
    mret (match r with
          | Err e => Err ("could not get gcloud access token: " +:+ e)
          | Ok token => Ok (<["docker.pkg.dev" := token]> {["gcr.io" := token]})
          end)
  else Ret (Ok ∅).

End tools.

Example redact_credentials :
  RemoveTokensAndPassword "skopeo copy --src-creds user:pw docker://alpine:3 docker-archive:/tmp/x"
  = Ret "skopeo copy --src-creds <CREDENTIALS> docker://alpine:3 docker-archive:/tmp/x".
Proof. by vm_compute. Qed.

(** Output that names the option and has no [" docker"] after it is a panic. *)
Example redact_panics : RemoveTokensAndPassword "unknown flag in: --src-creds user:pw" = Panic.
Proof. by vm_compute. Qed.

(** A token at the very start of the output is not replaced. *)
Example redact_misses_head :
  RemoveTokensAndPassword "x-access-token:secret@github.com" = Ret "x-access-token:secret@github.com".
Proof. by vm_compute. Qed.

(** ** Conversion of the results *)

Definition extractLastError (pullRef : string) (trivyErrors : gmap string (list string)) : string :=
  default "" (trivyErrors !! pullRef ≫= last).

Definition getOsArch (r : TrivyResults) : string :=
  if decide (OSName r = "" \/ Architecture r = "") then "" else OSName r +:+ "/" +:+ Architecture r.

Definition scanned_id (i : Image) (r : TrivyResults) : string :=
  let iid := i_Name i +:+ "@" +:+ getShaFromID (i_ID i) in
  if Contains iid "sha256:" then iid
  else match RepoDigests r with
       | d :: _ => d
       | [] => i_Name i +:+ "@" +:+ ImageID r
       end.

Definition failed_report (i : Image) (error : string) : ImageReport :=
  {| ir_ID := i_Name i +:+ "@" +:+ getShaFromID (i_ID i); ir_Name := i_Name i; ir_OSArch := "";
     ir_PullRef := i_PullRef i; ir_Owners := i_Owners i; ir_Reports := [];
     ir_RecommendationOnly := i_RecommendationOnly i; ir_Error := error |}.

Definition scanned_report (i : Image) (r : TrivyResults) : ImageReport :=
  {| ir_ID := scanned_id i r; ir_Name := i_Name i; ir_OSArch := getOsArch r;
     ir_PullRef := i_PullRef i; ir_Owners := i_Owners i; ir_Reports := Results r;
     ir_RecommendationOnly := i_RecommendationOnly i; ir_Error := "" |}.

(** The entry of one image; a nil result is [None], as is a missing one. *)
Definition report_entry (reportResultByRef : gmap string (option TrivyResults))
    (trivyErrors : gmap string (list string)) (i : Image) : option ImageReport :=
  match mjoin (reportResultByRef !! i_PullRef i) with
  | None => if i_RecommendationOnly i then None
            else Some (failed_report i (extractLastError (i_PullRef i) trivyErrors))
  | Some r => Some (scanned_report i r)
  end.

Definition ConvertTrivyResultsToImageReport (images : list Image)
    (reportResultByRef : gmap string (option TrivyResults)) (trivyErrors : gmap string (list string))
    : list ImageReport := omap (report_entry reportResultByRef trivyErrors) images.

(** ** The pool of scans

    A state is: the pull references not started, the goroutines, whether
    [reportByRefLock] is held, and the two maps.  [errorsByRefLock] is only taken
    while the other lock is held and is released before the next step, so it is
    always free when it is asked for.  An outcome of the scanner is a pointer to
    the results, possibly nil, and an error. *)

Definition retryCount : nat := 3.

Inductive phase : Type :=
| Calling (i : nat)
| Waiting (i : nat) (r : option TrivyResults) (err : option string)
| Failed (i : nat) (err : string)
| Leaving.

Record scan_state : Type := {
  todo : list string;
  workers : gmap string phase;
  locked : bool;
  reportByRef : gmap string (option TrivyResults);
  errorsByRef : gmap string (list string)
}.

Definition all_pull_refs (images : list Image) : gset string := list_to_set (i_PullRef <$> images).

Definition set_worker (ref : string) (p : phase) (s : scan_state) : scan_state :=
  {| todo := todo s; workers := <[ref := p]> (workers s); locked := locked s;
     reportByRef := reportByRef s; errorsByRef := errorsByRef s |}.

Definition set_locked (b : bool) (s : scan_state) : scan_state :=
  {| todo := todo s; workers := workers s; locked := b;
     reportByRef := reportByRef s; errorsByRef := errorsByRef s |}.

Definition set_report (ref : string) (r : option TrivyResults) (s : scan_state) : scan_state :=
  {| todo := todo s; workers := workers s; locked := locked s;
     reportByRef := <[ref := r]> (reportByRef s); errorsByRef := errorsByRef s |}.

Definition add_error (ref e : string) (s : scan_state) : scan_state :=
  {| todo := todo s; workers := workers s; locked := locked s; reportByRef := reportByRef s;
     errorsByRef := <[ref := default [] (errorsByRef s !! ref) ++ [e]]> (errorsByRef s) |}.

Definition launch (ref : string) (rest : list string) (s : scan_state) : scan_state :=
  {| todo := rest; workers := <[ref := Calling 0]> (workers s); locked := locked s;
     reportByRef := reportByRef s; errorsByRef := errorsByRef s |}.

Definition leave (ref : string) (s : scan_state) : scan_state :=
  {| todo := todo s; workers := delete ref (workers s); locked := locked s;
     reportByRef := reportByRef s; errorsByRef := errorsByRef s |}.

Section pool.
Context (maxConcurrentScans : nat) (imgScanner : string -> option TrivyResults -> option string -> Prop).

Inductive scan_step (s : scan_state) : scan_state -> Prop :=
| Launch ref rest :
    todo s = ref :: rest -> (size (workers s) < maxConcurrentScans)%nat -> scan_step s (launch ref rest s)
| Call ref i r err :
    workers s !! ref = Some (Calling i) -> imgScanner ref r err ->
    scan_step s (set_worker ref (Waiting i r err) s)
| Succeed ref i r :
    workers s !! ref = Some (Waiting i r None) -> locked s = false ->
    scan_step s (set_worker ref Leaving (set_report ref r s))
| ScanError ref i r e :
    workers s !! ref = Some (Waiting i r (Some e)) -> locked s = false ->
    scan_step s (set_worker ref (Failed i e) (set_locked true (set_report ref r s)))
| KnownError ref i :
    (** [break] with [reportByRefLock] still held *)
    workers s !! ref = Some (Failed i UnknownOSMessage) ->
    scan_step s (set_worker ref Leaving (add_error ref UnknownOSMessage s))
| Retry ref i e :
    workers s !! ref = Some (Failed i e) -> e <> UnknownOSMessage ->
    scan_step s (set_worker ref (if decide (S i < retryCount)%nat then Calling (S i) else Leaving)
                   (set_locked false (add_error ref e s)))
| Leave ref :
    workers s !! ref = Some Leaving -> scan_step s (leave ref s).

(** All started, and the caller could take every slot of the semaphore. *)
Definition scan_done (s : scan_state) : Prop := todo s = [] /\ workers s = ∅.

(** The start, the references in any order of the map. *)
Definition scan_start (images : list Image) (s : scan_state) : Prop :=
  s = {| todo := todo s; workers := ∅; locked := false;
         reportByRef := gset_to_gmap None (all_pull_refs images);
         errorsByRef := gset_to_gmap [] (all_pull_refs images) |}
  /\ todo s ≡ₚ elements (all_pull_refs images).

Definition ScanImages_returns (images : list Image) (out : list ImageReport) : Prop :=
  exists s s', scan_start images s /\ rtc scan_step s s' /\ scan_done s'
    /\ out = ConvertTrivyResultsToImageReport images (reportByRef s') (errorsByRef s').
End pool.

(** [make(chan bool, maxConcurrentScans)] panics for a negative size. *)
Definition semaphore_size (maxConcurrentScans : Z) : go nat :=
  if maxConcurrentScans <? 0 then Panic else Ret (Z.to_nat maxConcurrentScans).

(** The scans of [main]: the goroutines take one of [MaxConcurrentScans] slots. *)
Definition main_scan (imgScanner : string -> option TrivyResults -> option string -> Prop) (cfg : config)
    (images : list Image) (out : list ImageReport) : Prop :=
  exists slots, semaphore_size (c_MaxConcurrentScans cfg) = Ret slots
    /\ ScanImages_returns slots imgScanner images out.

(** ** The run of [main]

    [main_prepare] goes from the last report and the images of the cluster to the
    queue and to the entries that are kept; [main_finish] takes the results of the
    two rounds of scans. *)

Section main.
Context `{SortByScan}.

Definition named_images (cfg : config) (inClusterImages : list Image) : list Image :=
  if decide (c_ImagesToScan cfg = []) then inClusterImages
  else FilterImagesByName inClusterImages (c_ImagesToScan cfg).

Definition scan_queue (cfg : config) (inClusterImages : list Image) (lastReport : MinimizedReport)
    : go (list Image * MinimizedReport) :=
  imagesToScan ← GetUnscannedImagesToScan inClusterImages (Images lastReport) (c_MaxImagesToScan cfg);
  mret (GetImagesToReScan inClusterImages lastReport imagesToScan (c_MaxImagesToScan cfg)).

Definition carry_over (inClusterImages imagesToScan : list Image) (lastReport : MinimizedReport)
    : go MinimizedReport :=
  let base := UpdateOwnersReferenceOnMatchingImages (Images lastReport) inClusterImages in
  l1 ← GetMatchingImages base inClusterImages false;
  l2 ← GetUnmatchingImages l1 imagesToScan false;
  l3 ← GetMatchingImages l2 inClusterImages true;
  mret (set_images l3 lastReport).

Definition main_prepare (cfg : config) (clusterImages : list Image) (lastReport : MinimizedReport)
    : go (list Image * MinimizedReport) :=
  let inClusterImages := named_images cfg clusterImages in
  queue ← scan_queue cfg inClusterImages lastReport;
  kept_report ← carry_over inClusterImages queue.1 queue.2;
  mret (queue.1, kept_report).

Definition main_finish (now : Z) (noRecommendations : string) (allReports : list ImageReport)
    (recommendationsToScan : list Image) (recommendationReport : list ImageReport)
    (lastReport : MinimizedReport) : go MinimizedReport :=
  if decide (noRecommendations = "") then
    l ← GetUnmatchingImages (Images lastReport) recommendationsToScan true;
    Minimize now (allReports ++ recommendationReport) (set_images l lastReport)
  else Minimize now allReports lastReport.

End main.

(** ** Facts: one scan *)

Lemma omap_id_fmap {A B} (f : A -> option B) (l : list A) : omap id (f <$> l) = omap f l.
Proof. induction l as [|x l IH]; csimpl; [done|]. by rewrite IH. Qed.

Lemma run_trivy_error_not_known os args ref imageID reportFile e :
  run_trivy os args ref imageID reportFile = Ret (Err e) -> e <> UnknownOSMessage.
Proof.
  unfold run_trivy. rewrite go_bind_ret. intros (r & _ & H). destruct r; [|by injection H as <-].
  destruct (ReadFile os reportFile) as [data|e']; [|by injection H as <-].
  destruct (json_results os data); [done|by injection H as <-].
Qed.

(** No error of [ScanImage] is the error that [ScanImages] does not retry: the text of
    [RunCommand] is wrapped on the way up. *)
Lemma ScanImage_error_not_known `{!RangeOrder string string} os password tokens extraFlags pullRef url e :
  ScanImage os password tokens extraFlags pullRef url = Ret (Err e) -> e <> UnknownOSMessage.
Proof.
  unfold ScanImage. destruct (decide _); [|apply run_trivy_error_not_known].
  rewrite go_bind_ret. intros (r & _ & H).
  destruct r; [by eapply run_trivy_error_not_known|by injection H as <-].
Qed.

(** The text is there, one level down. *)
Lemma RunCommand_known_error os name args message output err :
  CombinedOutput os name args = (output, Some err) ->
  RemoveTokensAndPassword output = Ret output -> Contains output UnknownOSMessage = true ->
  RunCommand os name args message = Ret (Err UnknownOSMessage).
Proof. intros H1 H2 H3. unfold RunCommand, command_result. rewrite H1, H2. simpl. by rewrite H3. Qed.

(** With a trivy server the extra flags (that is [IGNORE_UNFIXED]) have no effect. *)
Lemma ScanImage_server_ignores_flags `{!RangeOrder string string} os password tokens flags flags' pullRef url :
  url <> "" -> ScanImage os password tokens flags pullRef url = ScanImage os password tokens flags' pullRef url.
Proof. intros H. unfold ScanImage. by destruct (decide _). Qed.

(** ** Facts: termination of the pool

    Every step of a goroutine makes its weight smaller. *)

Definition phase_weight (p : phase) : nat :=
  match p with
  | Calling i => 3 * (retryCount - S i) + 4
  | Waiting i _ _ => 3 * (retryCount - S i) + 3
  | Failed i _ => 3 * (retryCount - S i) + 2
  | Leaving => 1
  end.

Definition total_weight (m : gmap string phase) : nat := map_fold (fun _ p n => phase_weight p + n)%nat 0%nat m.

Lemma total_weight_delete m ref p :
  m !! ref = Some p -> total_weight m = (phase_weight p + total_weight (delete ref m))%nat.
Proof. intros H. unfold total_weight. by rewrite (map_fold_delete_L _ _ ref p) by (done || (intros; lia)). Qed.

Lemma total_weight_fresh m ref p :
  m !! ref = None -> total_weight (<[ref := p]> m) = (phase_weight p + total_weight m)%nat.
Proof. intros H. unfold total_weight. by rewrite map_fold_insert_L by (done || (intros; lia)). Qed.

Lemma total_weight_insert m ref p :
  total_weight (<[ref := p]> m) = (phase_weight p + total_weight (delete ref m))%nat.
Proof. rewrite <-insert_delete_eq. apply total_weight_fresh, lookup_delete_eq. Qed.

Lemma total_weight_delete_le m ref : (total_weight (delete ref m) <= total_weight m)%nat.
Proof.
  destruct (m !! ref) as [p|] eqn:E; [rewrite (total_weight_delete m ref p E); lia|].
  by rewrite delete_id.
Qed.

Definition scan_measure (s : scan_state) : nat := 11 * length (todo s) + total_weight (workers s).

(** ** Facts: the lock *)

Definition is_failed (p : phase) : bool := match p with Failed _ _ => true | _ => false end.

Definition holds_lock (m : gmap string phase) (ref : string) : Prop :=
  exists p, m !! ref = Some p /\ is_failed p = true.

(** The lock is held exactly when one goroutine is in its critical section. *)
Definition lock_ok (b : bool) (m : gmap string phase) : Prop :=
  if b then exists ref, holds_lock m ref /\ forall ref', holds_lock m ref' -> ref' = ref
  else forall ref, ~ holds_lock m ref.

Lemma lock_ok_ext b m m' : (forall ref, holds_lock m ref <-> holds_lock m' ref) -> lock_ok b m -> lock_ok b m'.
Proof.
  intros Hext. destruct b; simpl.
  - intros (ref & H & Hu). exists ref. split; [by apply Hext|]. intros ref' H'. by apply Hu, Hext.
  - intros H ref Hr. by apply (H ref), Hext.
Qed.

Lemma holds_lock_insert m ref q x :
  holds_lock (<[ref := q]> m) x <-> (x = ref /\ is_failed q = true) \/ (x <> ref /\ holds_lock m x).
Proof.
  unfold holds_lock. destruct (decide (x = ref)) as [->|Hne].
  - rewrite lookup_insert_eq. naive_solver.
  - rewrite lookup_insert_ne by done. naive_solver.
Qed.

Lemma holds_lock_at m ref p : m !! ref = Some p -> (holds_lock m ref <-> is_failed p = true).
Proof. unfold holds_lock. intros ->. naive_solver. Qed.

Lemma lock_ok_insert b m ref p q :
  m !! ref = Some p -> is_failed p = false -> is_failed q = false -> lock_ok b m -> lock_ok b (<[ref := q]> m).
Proof.
  intros Hm Hp Hq. apply lock_ok_ext. intros x. rewrite holds_lock_insert, Hq.
  destruct (decide (x = ref)) as [->|?]; [|naive_solver]. rewrite (holds_lock_at _ _ _ Hm), Hp. naive_solver.
Qed.

Lemma lock_ok_acquire m ref i e : lock_ok false m -> lock_ok true (<[ref := Failed i e]> m).
Proof.
  intros H. exists ref. split; [apply holds_lock_insert; by left|]. intros x.
  rewrite holds_lock_insert. intros [[? _]|[_ Hx]]; [done|]. by destruct (H x).
Qed.

Lemma lock_ok_release m ref i e q b :
  m !! ref = Some (Failed i e) -> is_failed q = false -> lock_ok b m -> b = true /\ lock_ok false (<[ref := q]> m).
Proof.
  intros Hm Hq H. assert (holds_lock m ref) as Hr by (rewrite (holds_lock_at _ _ _ Hm); done).
  destruct b; [|by destruct (H ref)]. split; [done|]. destruct H as (x & Hx & Hu). intros y.
  rewrite holds_lock_insert, Hq. intros [[_ ?]|[Hne Hy]]; [done|]. apply Hne. rewrite (Hu y Hy). symmetry. by apply Hu.
Qed.

Section pool_facts.
Context (maxConcurrentScans : nat) (imgScanner : string -> option TrivyResults -> option string -> Prop).

Local Abbreviation step := (scan_step maxConcurrentScans imgScanner).

Lemma scan_step_measure s s' : step s s' -> (scan_measure s' < scan_measure s)%nat.
Proof.
  unfold scan_measure.
  destruct 1 as [ref rest Ht _|ref i r err Hw _|ref i r Hw _|ref i r e Hw _|ref i Hw|ref i e Hw _|ref Hw];
    simpl; try rewrite (total_weight_delete _ _ _ Hw), ?total_weight_insert; simpl; try lia.
  - rewrite Ht, total_weight_insert. simpl. pose proof (total_weight_delete_le (workers s) ref). lia.
  - destruct (decide (S i < retryCount)%nat) as [Hi|Hi]; cbn [phase_weight]; unfold retryCount in *; lia.
Qed.

Lemma scan_steps_bound s s' k : nsteps step k s s' -> (k + scan_measure s' <= scan_measure s)%nat.
Proof. induction 1 as [|k p q p' Hs _ IH]; [lia|]. apply scan_step_measure in Hs. lia. Qed.

(** ** Facts: what a finished goroutine leaves behind *)

(** The failed attempts at a reference, each with what the scanner returned. *)
Definition failed_attempts (ref : string) (h : list (option TrivyResults * string)) : Prop :=
  Forall (fun x => imgScanner ref x.1 (Some x.2)) h.

(** At most three attempts: a success after fewer than three failures, or three failures. *)
Definition scanned (ref : string) (report : option (option TrivyResults)) (errors : option (list string)) : Prop :=
  exists h, failed_attempts ref h /\ errors = Some (h.*2)
    /\ ((length h < retryCount)%nat /\ (exists r, imgScanner ref r None /\ report = Some r)
        \/ length h = retryCount /\ exists x, last h = Some x /\ report = Some (x.1)).

Definition phase_ok (ref : string) (p : phase) (report : option (option TrivyResults))
    (errors : option (list string)) : Prop :=
  match p with
  | Leaving => scanned ref report errors
  | Calling i =>
      exists h, failed_attempts ref h /\ errors = Some (h.*2) /\ length h = i /\ (i < retryCount)%nat
  | Waiting i r err =>
      exists h, failed_attempts ref h /\ errors = Some (h.*2) /\ length h = i /\ (i < retryCount)%nat
        /\ imgScanner ref r err
  | Failed i e =>
      exists h, failed_attempts ref h /\ errors = Some (h.*2) /\ length h = i /\ (i < retryCount)%nat
        /\ exists r, imgScanner ref r (Some e) /\ report = Some r
  end.

Record scan_inv (refs : gset string) (s : scan_state) : Prop := {
  si_nodup : NoDup (todo s);
  si_todo : forall ref, ref ∈ todo s -> ref ∈ refs /\ workers s !! ref = None
    /\ errorsByRef s !! ref = Some [];
  si_workers : forall ref p, workers s !! ref = Some p ->
    ref ∈ refs /\ ref ∉ todo s /\ phase_ok ref p (reportByRef s !! ref) (errorsByRef s !! ref);
  si_finished : forall ref, ref ∈ refs -> ref ∉ todo s -> workers s !! ref = None ->
    scanned ref (reportByRef s !! ref) (errorsByRef s !! ref);
  si_locked : lock_ok (locked s) (workers s);
  si_size : (size (workers s) <= maxConcurrentScans)%nat
}.

Lemma scan_start_inv images s : scan_start images s -> scan_inv (all_pull_refs images) s.
Proof.
  intros [Hs Ht]. rewrite Hs. constructor; simpl.
  - rewrite Ht. apply NoDup_elements.
  - intros ref. rewrite Ht, elem_of_elements. intros Hr. split_and!; [done|apply lookup_empty|].
    by rewrite lookup_gset_to_gmap_Some.
  - intros ref p. by rewrite lookup_empty.
  - intros ref Hr Hno. rewrite Ht in Hno. by destruct Hno; apply elem_of_elements.
  - intros ref (p & Hp & _). by rewrite lookup_empty in Hp.
  - rewrite map_size_empty. lia.
Qed.

(** A goroutine that goes from one phase to the next touches its own reference only. *)
Lemma scan_inv_update refs s s' ref p q :
  scan_inv refs s -> workers s !! ref = Some p ->
  todo s' = todo s -> workers s' = <[ref := q]> (workers s) ->
  (forall x, x <> ref -> reportByRef s' !! x = reportByRef s !! x /\ errorsByRef s' !! x = errorsByRef s !! x) ->
  phase_ok ref q (reportByRef s' !! ref) (errorsByRef s' !! ref) ->
  lock_ok (locked s') (workers s') -> scan_inv refs s'.
Proof.
  intros [Hn Ht Hw Hf Hl Hsz] Hp Et Ew Eo Hq Hlock. destruct (Hw ref p Hp) as (Href & Hnt & _).
  constructor; try rewrite Et; try done.
  - intros x Hx. destruct (Ht x Hx) as (? & Hx2 & Hx3).
    assert (x <> ref) as Hne by (intros ->; congruence).
    destruct (Eo x Hne) as [_ ->]. rewrite Ew, lookup_insert_ne by done. done.
  - intros x px. rewrite Ew. destruct (decide (x = ref)) as [->|Hne].
    + rewrite lookup_insert_eq. by intros [= <-].
    + rewrite lookup_insert_ne by done. destruct (Eo x Hne) as [-> ->]. apply Hw.
  - intros x Hx Hno. rewrite Ew. destruct (decide (x = ref)) as [->|Hne]; [by rewrite lookup_insert_eq|].
    rewrite lookup_insert_ne by done. destruct (Eo x Hne) as [-> ->]. by apply Hf.
  - rewrite Ew, map_size_insert_Some by (by exists p). done.
Qed.

Lemma scan_inv_launch refs s ref rest :
  scan_inv refs s -> todo s = ref :: rest -> (size (workers s) < maxConcurrentScans)%nat ->
  scan_inv refs (launch ref rest s).
Proof.
  intros [Hn Ht Hw Hf Hl Hsz] Et Hlt. rewrite Et in *. apply NoDup_cons in Hn as [Hnr Hn].
  destruct (Ht ref) as (Href & Hnone & He); [by left|]. constructor; simpl.
  - done.
  - intros x Hx. destruct (Ht x) as (? & ? & ?); [by right|].
    rewrite lookup_insert_ne by (intros ->; done). done.
  - intros x p. destruct (decide (x = ref)) as [->|Hne].
    + rewrite lookup_insert_eq. intros [= <-]. split_and!; [done|done|]. exists [].
      split_and!; [constructor|done|done|]. unfold retryCount. lia.
    + rewrite lookup_insert_ne by done. intros Hp. destruct (Hw x p Hp) as (? & Hx & ?).
      split_and!; [done| |done]. intros ?. by apply Hx; right.
  - intros x Hx Hno. destruct (decide (x = ref)) as [->|Hne]; [by rewrite lookup_insert_eq|].
    rewrite lookup_insert_ne by done. apply Hf; [done|]. by intros [->|?]%elem_of_cons.
  - eapply lock_ok_ext; [|exact Hl]. intros x. rewrite holds_lock_insert. unfold holds_lock.
    destruct (decide (x = ref)) as [->|?]; [rewrite Hnone; naive_solver|naive_solver].
  - rewrite map_size_insert_None by done. lia.
Qed.

Lemma scan_inv_leave refs s ref :
  scan_inv refs s -> workers s !! ref = Some Leaving -> scan_inv refs (leave ref s).
Proof.
  intros [Hn Ht Hw Hf Hl Hsz] Hp. destruct (Hw ref _ Hp) as (Href & Hnt & Hok). constructor; simpl.
  - done.
  - intros x Hx. destruct (Ht x Hx) as (? & ? & ?). by rewrite lookup_delete_ne by (intros ->; done).
  - intros x p. destruct (decide (x = ref)) as [->|Hne]; [by rewrite lookup_delete_eq|].
    rewrite lookup_delete_ne by done. apply Hw.
  - intros x Hx Hno. destruct (decide (x = ref)) as [->|Hne]; [done|].
    rewrite lookup_delete_ne by done. by apply Hf.
  - eapply lock_ok_ext; [|exact Hl]. intros x. unfold holds_lock.
    destruct (decide (x = ref)) as [->|Hne]; [rewrite lookup_delete_eq, Hp|by rewrite lookup_delete_ne by done].
    split; intros (p & ? & ?); simplify_eq/=.
  - rewrite map_size_delete_Some by (by exists Leaving). lia.
Qed.

Section retried.
(** No outcome of the scanner is the error that is not retried. *)
Hypothesis no_known_error : forall ref r, ~ imgScanner ref r (Some UnknownOSMessage).

Lemma scan_step_inv refs s s' : scan_inv refs s -> step s s' -> scan_inv refs s'.
Proof.
  intros Hinv. pose proof (si_workers _ _ Hinv) as Hw. pose proof (si_locked _ _ Hinv) as Hl.
  destruct 1 as [ref rest Ht Hlt|ref i r err Hp Ho|ref i r Hp Hlk|ref i r e Hp Hlk|ref i Hp|ref i e Hp Hne|ref Hp].
  - by apply scan_inv_launch.
  - destruct (Hw _ _ Hp) as (_ & _ & h & ? & ? & ? & ?).
    eapply scan_inv_update; [done|exact Hp|done|reflexivity|done|by exists h|by eapply lock_ok_insert].
  - destruct (Hw _ _ Hp) as (_ & _ & h & ? & ? & ? & ? & ?).
    eapply scan_inv_update; [done|exact Hp|done|reflexivity| | |by eapply lock_ok_insert].
    + intros x Hx. simpl. by rewrite lookup_insert_ne by done.
    + simpl. rewrite lookup_insert_eq. exists h. split_and!; [done|done|]. left. subst i. split; [done|by exists r].
  - destruct (Hw _ _ Hp) as (_ & _ & h & ? & ? & ? & ? & ?).
    eapply scan_inv_update; [done|exact Hp|done|reflexivity| | |].
    + intros x Hx. simpl. by rewrite lookup_insert_ne by done.
    + simpl. rewrite lookup_insert_eq. exists h. split_and!; try done. by exists r.
    + simpl. apply lock_ok_acquire. by rewrite <-Hlk.
  - destruct (Hw _ _ Hp) as (_ & _ & h & _ & _ & _ & _ & r & Hr & _). by destruct (no_known_error ref r).
  - destruct (Hw _ _ Hp) as (_ & _ & h & Hh & He & Hlen & Hi & r & Hr & Hrep).
    assert (failed_attempts ref (h ++ [(r, e)])) as Hh'.
    { apply Forall_app. split; [done|]. by repeat constructor. }
    assert (length (h ++ [(r, e)]) = S i) as Hlen' by (rewrite length_app; simpl; lia).
    eapply scan_inv_update; [done|exact Hp|done|reflexivity| | |].
    + intros x Hx. simpl. by rewrite lookup_insert_ne by done.
    + simpl. rewrite lookup_insert_eq, He, Hrep. simpl. case_decide as Hd; exists (h ++ [(r, e)]).
      * split_and!; [done|by rewrite fmap_app|done|done].
      * split_and!; [done|by rewrite fmap_app|]. right. split; [unfold retryCount in *; lia|].
        exists (r, e). by rewrite last_snoc.
    + simpl. refine (proj2 (lock_ok_release _ ref i e _ _ Hp _ Hl)). by case_decide.
  - by apply scan_inv_leave.
Qed.

Lemma scan_reachable_inv refs s s' : scan_inv refs s -> rtc step s s' -> scan_inv refs s'.
Proof. intros Hs Hr. induction Hr as [|s1 s2 s3 Hstep _ IH]; [done|]. apply IH. by eapply scan_step_inv. Qed.

Hypothesis scanner_answers : forall ref, exists r err, imgScanner ref r err.
Hypothesis some_slot : (1 <= maxConcurrentScans)%nat.

Lemma scan_progress refs s : scan_inv refs s -> scan_done s \/ exists s', step s s'.
Proof.
  intros [_ _ Hw _ Hl _]. destruct (decide (workers s = ∅)) as [Hem|Hne].
  - destruct (todo s) as [|ref rest] eqn:Et; [by left|]. right. eexists. eapply Launch; [done|].
    rewrite Hem, map_size_empty. lia.
  - right. destruct (locked s) eqn:Elk.
    + destruct Hl as (ref & ([| |i e|] & Hp & Hf) & _); try done.
      destruct (decide (e = UnknownOSMessage)) as [->|?]; eexists; [by eapply KnownError|by eapply Retry].
    + apply map_choose in Hne as (ref & p & Hp). destruct p as [i|i r err|i e|].
      * destruct (scanner_answers ref) as (r & err & Ho). eexists. by eapply Call.
      * destruct err as [e|]; eexists; [by eapply ScanError|by eapply Succeed].
      * destruct (Hl ref). by exists (Failed i e).
      * eexists. by eapply Leave.
Qed.

Lemma scan_finishes refs s : scan_inv refs s -> exists s', rtc step s s' /\ scan_done s'.
Proof.
  remember (scan_measure s) as n eqn:Hn. revert s Hn. induction (lt_wf n) as [n _ IH]. intros s -> Hinv.
  destruct (scan_progress refs s Hinv) as [Hd|[s1 Hs1]]; [by exists s|].
  destruct (IH _ (scan_step_measure _ _ Hs1) s1 eq_refl) as (s' & Hr & Hd); [by eapply scan_step_inv|].
  exists s'. split; [by eapply rtc_l|done].
Qed.
End retried.
End pool_facts.

(** ** The pool ends *)


Lemma scan_done_scanned maxConcurrentScans imgScanner images s s' i :
  (forall ref r, ~ imgScanner ref r (Some UnknownOSMessage)) ->
  scan_start images s -> rtc (scan_step maxConcurrentScans imgScanner) s s' -> scan_done s' -> i ∈ images ->
  scanned imgScanner (i_PullRef i) (reportByRef s' !! i_PullRef i) (errorsByRef s' !! i_PullRef i).
Proof.
  intros Hno Hs Hr [Htodo Hw] Hi.
  pose proof (scan_reachable_inv _ _ Hno _ _ _ (scan_start_inv _ imgScanner _ _ Hs) Hr) as Hinv.
  apply (si_finished _ _ _ _ Hinv).
  - apply elem_of_list_to_set, list_elem_of_fmap. by exists i.
  - rewrite Htodo. apply not_elem_of_nil.
  - by rewrite Hw, lookup_empty.
Qed.

(** What the scanner of [main] may answer in some state of the outside world. *)
Definition ScanImage_answers `{!RangeOrder string string} (world : Tools -> Prop) (password : string)
    (tokens : gmap string string) (extraFlags trivyServerURL : string)
    (pullRef : string) (r : option TrivyResults) (err : option string) : Prop :=
  exists os, world os /\
    ((exists x, ScanImage os password tokens extraFlags pullRef trivyServerURL = Ret (Ok x) /\ r = Some x /\ err = None)
     \/ (exists e, ScanImage os password tokens extraFlags pullRef trivyServerURL = Ret (Err e) /\ r = None /\ err = Some e)).

Section account.
Context `{!RangeOrder string string} (world : Tools -> Prop) (password : string)
        (tokens : gmap string string) (extraFlags trivyServerURL : string) (maxConcurrentScans : nat).

Local Abbreviation scanner := (ScanImage_answers world password tokens extraFlags trivyServerURL).

Lemma ScanImage_answers_not_known ref r : ~ scanner ref r (Some UnknownOSMessage).
Proof.
  intros (os & _ & [(x & _ & _ & ?)|(e & He & _ & Heq)]); [done|].
  injection Heq as <-. by apply ScanImage_error_not_known in He.
Qed.

(** The outcome of an image and its entry in the report. *)
Definition accounted (i : Image) (entry : option ImageReport) : Prop :=
  (exists r, scanner (i_PullRef i) (Some r) None /\ entry = Some (scanned_report i r))
  \/ (exists e1 e2 e, Forall (fun x => scanner (i_PullRef i) None (Some x)) [e1; e2; e]
        /\ entry = if i_RecommendationOnly i then None else Some (failed_report i e)).

Lemma scanned_accounted images s s' i :
  scan_start images s -> rtc (scan_step maxConcurrentScans scanner) s s' -> scan_done s' -> i ∈ images ->
  accounted i (report_entry (reportByRef s') (errorsByRef s') i).
Proof.
  intros Hs Hr Hd Hi.
  destruct (scan_done_scanned _ _ _ _ _ i ScanImage_answers_not_known Hs Hr Hd Hi) as (h & Hh & He & Hor).
  unfold report_entry, extractLastError. rewrite He. simpl.
  assert (forall x, x ∈ h -> x.1 = None) as Hnil.
  { intros x Hx. unfold failed_attempts in Hh. rewrite Forall_forall in Hh.
    by destruct (Hh x Hx) as (os & _ & [(y & _ & _ & ?)|(e & _ & ? & _)]). }
  destruct Hor as [(_ & r & Hrun & ->)|(Hlen & x & Hlast & ->)]; simpl.
  - left. pose proof Hrun as (os & Hos & [(y & Hy & -> & _)|(e & _ & _ & ?)]); [|done]. by exists y.
  - right. destruct h as [|[r1 e1] [|[r2 e2] [|[r3 e3] [|]]]]; try done. simpl in Hlast. injection Hlast as <-. simpl.
    pose proof (Hnil (r1, e1) ltac:(set_solver)) as H1. pose proof (Hnil (r2, e2) ltac:(set_solver)) as H2.
    pose proof (Hnil (r3, e3) ltac:(set_solver)) as H3. simpl in *. subst r1 r2 r3.
    exists e1, e2, e3. split; [|by destruct (i_RecommendationOnly i)].
    unfold failed_attempts in Hh. rewrite !Forall_cons in *. simpl in Hh. naive_solver.
Qed.

Lemma ScanImages_entries images out :
  ScanImages_returns maxConcurrentScans scanner images out ->
  exists entries, Forall2 accounted images entries /\ out = omap id entries.
Proof.
  intros (s & s' & Hs & Hr & Hd & ->).
  exists (report_entry (reportByRef s') (errorsByRef s') <$> images). split.
  - apply Forall2_fmap_r, Forall_Forall2_diag, Forall_forall. intros i Hi. by eapply scanned_accounted.
  - unfold ConvertTrivyResultsToImageReport. by rewrite omap_id_fmap.
Qed.

End account.

(** ** The lock that is not released *)

(** [reportByRefLock] is held and nobody is going to release it. *)
Definition leaked (s : scan_state) : Prop := locked s = true /\ forall ref, ~ holds_lock (workers s) ref.

(** Someone still has to take it. *)
Definition blocked (s : scan_state) : Prop :=
  todo s <> [] \/ exists ref p, workers s !! ref = Some p /\ p <> Leaving /\ is_failed p = false.

Lemma leaked_step cap scanner s s' :
  scan_step cap scanner s s' -> leaked s -> blocked s -> leaked s' /\ blocked s'.
Proof.
  intros Hstep [Hl Hno] Hb.
  assert (forall ref q, is_failed q = false -> forall x, ~ holds_lock (<[ref := q]> (workers s)) x) as Hins.
  { intros ref q Hq x. rewrite holds_lock_insert, Hq. intros [[_ ?]|[_ Hx]]; [done|]. by apply (Hno x). }
  destruct Hstep as [ref rest Ht Hlt|ref i r err Hp Ho|ref i r Hp Hlk|ref i r e Hp Hlk|ref i Hp|ref i e Hp Hne|ref Hp];
    try congruence.
  - split; [split; [done|by apply Hins]|]. right. exists ref, (Calling 0).
    split; [apply lookup_insert_eq|]. done.
  - split; [split; [done|by apply Hins]|]. right. exists ref, (Waiting i r err).
    split; [apply lookup_insert_eq|]. done.
  - destruct (Hno ref). by exists (Failed i UnknownOSMessage).
  - destruct (Hno ref). by exists (Failed i e).
  - split; [split; [done|]|].
    + intros x (p & Hx & Hf). simpl in Hx. apply lookup_delete_Some in Hx as [_ Hx]. apply (Hno x). by exists p.
    + destruct Hb as [?|(x & p & Hx & Hp' & Hf)]; [by left|]. right. exists x, p. split; [|done].
      simpl. rewrite lookup_delete_ne; [done|]. intros ->. congruence.
Qed.

Lemma leaked_forever cap scanner s s' :
  rtc (scan_step cap scanner) s s' -> leaked s -> blocked s -> ~ scan_done s'.
Proof.
  induction 1 as [s|s1 s2 s3 Hs _ IH]; intros Hl Hb.
  - intros [Ht Hw]. destruct Hb as [?|(ref & p & Hp & _)]; [done|]. by rewrite Hw, lookup_empty in Hp.
  - destruct (leaked_step _ _ _ _ Hs Hl Hb). by apply IH.
Qed.

(** The branch for the known error leaks a lock: with two different pull references and a
    scanner that may answer [UnknownOSMessage], there is a run of the pool into a state from
    which [ScanImages] never returns. *)
Theorem known_error_deadlock (cap : nat) (imgScanner : string -> option TrivyResults -> option string -> Prop)
    (images : list Image) (ref ref' : string) (r : option TrivyResults) :
  (1 <= cap)%nat -> ref ∈ all_pull_refs images -> ref' ∈ all_pull_refs images -> ref <> ref' ->
  imgScanner ref r (Some UnknownOSMessage) ->
  exists s0 s, scan_start images s0 /\ rtc (scan_step cap imgScanner) s0 s
    /\ forall s', rtc (scan_step cap imgScanner) s s' -> ~ scan_done s'.
Proof.
  intros Hcap Hr Hr' Hne Ho. set (refs := all_pull_refs images).
  assert (exists rest, ref :: rest ≡ₚ elements refs) as [rest Hrest].
  { apply elem_of_elements, elem_of_Permutation in Hr as [rest Hp]. by exists rest. }
  assert (ref' ∈ rest) as Hin.
  { apply elem_of_elements in Hr'. fold refs in Hr'. rewrite <-Hrest in Hr'. by apply elem_of_cons in Hr' as [->|?]. }
  set (s0 := {| todo := ref :: rest; workers := ∅; locked := false;
                reportByRef := gset_to_gmap None refs; errorsByRef := gset_to_gmap [] refs |}).
  eexists s0, _. split_and!; [by split| |].
  - eapply rtc_l; [eapply (Launch _ _ s0); [done|simpl; rewrite map_size_empty; lia]|].
    eapply rtc_l; [eapply Call; [apply lookup_insert_eq|exact Ho]|].
    eapply rtc_l; [eapply ScanError; [apply lookup_insert_eq|done]|].
    eapply rtc_l; [eapply KnownError; apply lookup_insert_eq|]. apply rtc_refl.
  - intros s' Hs'. eapply leaked_forever; [exact Hs'| |].
    + split; [done|]. intros x. simpl. rewrite !holds_lock_insert. simpl. unfold holds_lock. set_solver.
    + left. simpl. intros ->. by apply not_elem_of_nil in Hin.
Qed.

(** Without a slot nothing starts. *)
Lemma no_slot_no_step scanner images s s' :
  scan_start images s -> ~ scan_step 0 scanner s s'.
Proof.
  intros [-> _]. destruct 1 as [ref rest Ht Hlt|ref i r err Hp Ho|ref i r Hp Hlk|ref i r e Hp Hlk|ref i Hp|ref i e Hp Hne|ref Hp];
    simpl in *; try lia; by rewrite lookup_empty in Hp.
Qed.

(** ** Facts: the run *)

Lemma GetUnscanned_covers cluster last maxScans out :
  GetUnscannedImagesToScan cluster last maxScans = Ret out ->
  lenZ out <= Z.max 0 maxScans
  /\ (forall i, i ∈ out -> i ∈ cluster /\ image_UniqueID i ∉ convertImagesWithRefsToMap last)
  /\ (lenZ out < maxScans -> forall i, i ∈ cluster ->
        image_UniqueID i ∈ convertImagesWithRefsToMap last \/ image_UniqueID i ∈ convertImagesToMap out).
Proof.
  unfold GetUnscannedImagesToScan.
  destruct (unscanned_inv_foldl (convertImagesWithRefsToMap last) cluster) as [_ _ Hs Hall].
  generalize dependent (foldl (unscanned_step (convertImagesWithRefsToMap last)) (∅, []) cluster).2.
  intros all Hs Hall.
  assert (forall i, i ∈ cluster -> image_UniqueID i ∈ convertImagesWithRefsToMap last
            \/ image_UniqueID i ∈ convertImagesToMap all) as Hcov.
  { intros i Hi. destruct (decide (image_UniqueID i ∈ convertImagesWithRefsToMap last)) as [?|Hno]; [by left|].
    right. apply elem_of_list_to_set. by apply Hall. }
  destruct (Z.ltb_spec maxScans (lenZ all)).
  - destruct (Z.ltb_spec maxScans 0); [done|]. intros [= <-]. unfold lenZ in *. rewrite length_take.
    split_and!; [lia| |lia]. intros i Hi. apply Hs. by apply elem_of_take in Hi as (? & ? & _); eapply list_elem_of_lookup_2.
  - intros [= <-]. split_and!; [lia|done|by intros _].
Qed.

Lemma named_images_sub cfg cluster i : i ∈ named_images cfg cluster -> i ∈ cluster.
Proof. unfold named_images. case_decide; [done|]. unfold FilterImagesByName. by intros [_ ?]%list_elem_of_filter. Qed.

Section run_facts.
Context `{SortByScan}.
Implicit Types (cfg : config) (L K : MinimizedReport) (C Q : list Image).

Lemma scan_queue_spec cfg C L Q L' :
  scan_queue cfg C L = Ret (Q, L') ->
  Images L' ≡ₚ Images L /\ Vulnerabilities L' = Vulnerabilities L
  /\ lenZ Q <= Z.max 0 (c_MaxImagesToScan cfg)
  /\ (forall i, i ∈ Q -> i ∈ C /\ (image_UniqueID i ∉ convertImagesWithRefsToMap (Images L)
        \/ exists d, d ∈ Images L /\ d_RecommendationOnly d = false /\ details_UniqueID d = image_UniqueID i))
  /\ (lenZ Q < c_MaxImagesToScan cfg -> forall i, i ∈ C ->
        image_UniqueID i ∈ convertImagesWithRefsToMap (Images L) \/ image_UniqueID i ∈ convertImagesToMap Q).
Proof.
  unfold scan_queue. rewrite go_bind_ret. intros (new & Hnew & Heq).
  destruct (GetUnscanned_covers _ _ _ _ Hnew) as (Hlen & Hsub & Hcov).
  rewrite GetImagesToReScan_eq in Heq.
  set (rest := take _ (omap (rescan_candidate C) (sort_images (Images L)))) in Heq.
  injection Heq as <- <-. split_and!; [apply sort_images_perm|done| | |].
  - unfold rest. rewrite lenZ_app. unfold lenZ in *. rewrite length_take. lia.
  - intros i [Hi|Hi]%elem_of_app.
    + destruct (Hsub i Hi). by split; [|left].
    + apply elem_of_take in Hi as (n & Hi%list_elem_of_lookup_2 & _).
      apply list_elem_of_omap in Hi as (d & Hd & Hi). apply rescan_candidate_Some in Hi as (? & ? & ? & ?).
      split; [done|]. right. exists d. rewrite sort_images_perm in Hd. done.
  - rewrite lenZ_app. pose proof (lenZ_nonneg rest). intros Hlt i Hi.
    destruct (Hcov ltac:(lia) i Hi) as [?|Hq]; [by left|]. right.
    apply elem_of_convertImagesToMap in Hq as (j & Hj & Hx). apply elem_of_convertImagesToMap.
    exists j. split; [|done]. apply elem_of_app. by left.
Qed.

(** What the three filters leave of the entries that are not recommendations. *)
Lemma carry_over_spec C Q L K :
  carry_over C Q L = Ret K ->
  Vulnerabilities K = Vulnerabilities L
  /\ forall d, d_RecommendationOnly d = false ->
       (d ∈ Images K <-> (exists d0, d0 ∈ Images L /\ d = update_owners C d0)
          /\ details_UniqueID d ∈ convertImagesToMap C /\ details_UniqueID d ∉ convertImagesToMap Q).
Proof.
  unfold carry_over, GetMatchingImages, GetUnmatchingImages. rewrite !getImages_by_id. simpl.
  rewrite getImages_by_id. simpl. rewrite go_bind_ret. intros (l & Hl & [= <-]).
  apply getImages_Ret in Hl as [Hret ->]. split; [done|]. intros d Hd. simpl.
  unfold UpdateOwnersReferenceOnMatchingImages in *.
  rewrite !list_elem_of_filter, !kept_by_id, list_elem_of_fmap, Hd, bool_decide_eq_true, bool_decide_eq_false.
  split.
  - intros (_ & [?|HQ] & [?|HC] & d0 & -> & Hd0); [done..|]. split; [by exists d0|done].
  - intros ((d0 & Hd0 & ->) & HC & HQ).
    assert (update_owners C d0 ∈ filter (kept Q false false) (filter (kept C false true) (update_owners C <$> Images L)))
      as Hin.
    { rewrite !list_elem_of_filter, !kept_by_id, list_elem_of_fmap, bool_decide_eq_true, bool_decide_eq_false.
      split_and!; [by right|by right|by exists d0]. }
    split_and!; [|by right|by right|by exists d0]. apply kept_by_repository; [done|]. by apply Hret.
Qed.

Lemma main_prepare_spec cfg cluster L Q K :
  main_prepare cfg cluster L = Ret (Q, K) ->
  let C := named_images cfg cluster in
  exists L', scan_queue cfg C L = Ret (Q, L') /\ carry_over C Q L' = Ret K.
Proof.
  unfold main_prepare. rewrite go_bind_ret. intros ([Q' L'] & HQ & H0). simpl in H0.
  apply go_bind_ret in H0 as (K' & HK & [= -> ->]). by exists L'.
Qed.

(** Between the reports: when [main] gets from the last report to the scans, the queue
    has at most [c_MaxImagesToScan] images, all of the (named) images of the cluster; an entry that
    is no recommendation is kept exactly when its image is one of them and is not about to be
    scanned, with its owners brought up to date; and every such image of the cluster is
    queued, or its entry is kept, or it is only known as a recommendation, or the queue is full. *)
Theorem main_keeps_and_queues (cfg : config) (cluster : list Image) (L : MinimizedReport) (Q : list Image)
    (K : MinimizedReport) :
  main_prepare cfg cluster L = Ret (Q, K) ->
  let C := named_images cfg cluster in
  lenZ Q <= Z.max 0 (c_MaxImagesToScan cfg)
  /\ (forall i, i ∈ Q -> i ∈ C)
  /\ (forall d, d_RecommendationOnly d = false ->
        (d ∈ Images K <-> (exists d0, d0 ∈ Images L /\ d = update_owners C d0)
           /\ details_UniqueID d ∈ convertImagesToMap C /\ details_UniqueID d ∉ convertImagesToMap Q))
  /\ (forall i, i ∈ C ->
        (exists q, q ∈ Q /\ image_UniqueID q = image_UniqueID i)
        \/ (exists d, d ∈ Images K /\ d_RecommendationOnly d = false /\ details_UniqueID d = image_UniqueID i)
        \/ (exists d, d ∈ Images L /\ d_RecommendationOnly d = true /\ details_UniqueID d = image_UniqueID i)
        \/ c_MaxImagesToScan cfg <= lenZ Q).
Proof.
  intros Hp C. destruct (main_prepare_spec _ _ _ _ _ Hp) as (L' & HQ & HK). fold C in HQ, HK.
  destruct (scan_queue_spec _ _ _ _ _ HQ) as (Hperm & _ & Hlen & Hsub & Hcov).
  destruct (carry_over_spec _ _ _ _ HK) as [_ Hkeep].
  split_and!; [done|intros i Hi; by apply Hsub| |].
  - intros d Hd. rewrite (Hkeep d Hd). by setoid_rewrite Hperm.
  - intros i Hi. destruct (decide (image_UniqueID i ∈ convertImagesToMap Q)) as [HinQ|HnoQ].
    { left. by apply elem_of_convertImagesToMap in HinQ. }
    destruct (Z.lt_ge_cases (lenZ Q) (c_MaxImagesToScan cfg)) as [Hlt|?]; [|by do 3 right].
    destruct (Hcov Hlt i Hi) as [Hin|?]; [|done].
    apply elem_of_convertImagesWithRefsToMap in Hin as (d & Hd & Hid).
    destruct (d_RecommendationOnly d) eqn:Hrec; [by do 2 right; left; exists d|].
    right. left. destruct (update_owners_fields C d) as (Eid & _ & Erec).
    exists (update_owners C d). rewrite Eid, Erec. split_and!; [|done|done].
    apply Hkeep; [by rewrite Erec|]. rewrite Eid, Hid. split_and!; [|by apply elem_of_convertImagesToMap; exists i|done].
    exists d. by rewrite Hperm.
Qed.

(** An image that the last report only has as a recommendation is never scanned: after an
    upgrade to the recommended version the queue does not hold the image, and no entry that is
    kept is about it, other than recommendations. *)
Theorem upgraded_image_not_scanned (cfg : config) (cluster : list Image) (L : MinimizedReport) (Q : list Image)
    (K : MinimizedReport) (i : Image) :
  main_prepare cfg cluster L = Ret (Q, K) ->
  image_UniqueID i ∈ convertImagesWithRefsToMap (Images L) ->
  (forall d, d ∈ Images L -> details_UniqueID d = image_UniqueID i -> d_RecommendationOnly d = true) ->
  image_UniqueID i ∉ convertImagesToMap Q
  /\ forall d, d ∈ Images K -> details_UniqueID d = image_UniqueID i -> d_RecommendationOnly d = true.
Proof.
  intros Hp Hknown Honly. destruct (main_prepare_spec _ _ _ _ _ Hp) as (L' & HQ & HK).
  destruct (scan_queue_spec _ _ _ _ _ HQ) as (Hperm & _ & _ & Hsub & _).
  destruct (carry_over_spec _ _ _ _ HK) as [_ Hkeep]. split.
  - rewrite elem_of_convertImagesToMap. intros (q & Hq & Hid). destruct (Hsub q Hq) as [_ [Hno|(d & Hd & Hrec & Hd')]].
    + by rewrite Hid in Hno.
    + rewrite (Honly d Hd) in Hrec by (by rewrite Hd'). done.
  - intros d Hd Hid. destruct (d_RecommendationOnly d) eqn:Hrec; [done|].
    apply (Hkeep d Hrec) in Hd as [(d0 & Hd0 & ->) _]. destruct (update_owners_fields (named_images cfg cluster) d0) as (Eid & _ & Erec).
    rewrite <-Hrec, Erec. apply Honly; [by rewrite <-Hperm|by rewrite <-Eid].
Qed.

(** An entry without a colon in its name stops the run: [parts[1]] is out of range. *)
Lemma untagged_entry_panics C Q L d0 s :
  d0 ∈ Images L -> d_RecommendationOnly d0 = false -> Split (d_Name d0) ":" = [s] ->
  details_UniqueID d0 ∈ convertImagesToMap C -> details_UniqueID d0 ∉ convertImagesToMap Q ->
  carry_over C Q L = Panic.
Proof.
  intros Hd0 Hrec Hs HC HQ. unfold carry_over, GetMatchingImages, GetUnmatchingImages.
  rewrite !getImages_by_id. simpl. rewrite getImages_by_id. simpl.
  destruct (getImages _ C true true) as [l|] eqn:Hl; [|done]. apply getImages_Ret in Hl as [Hret _].
  destruct (update_owners_fields C d0) as (Eid & En & Erec).
  destruct (Hret (update_owners C d0)) as [b Hb].
  - rewrite !list_elem_of_filter, !kept_by_id, Eid, bool_decide_eq_true, bool_decide_eq_false.
    split_and!; [by right|by right|]. apply list_elem_of_fmap. by exists d0.
  - exfalso. unfold keep_image in Hb. simpl in Hb. rewrite En in Hb.
    assert (recommendation_key (d_Name d0) = Panic) as Hk by (apply recommendation_key_panics; by exists s).
    by rewrite Hk in Hb.
Qed.

Lemma main_finish_images now noRecommendations reports recs recReports K out :
  main_finish now noRecommendations reports recs recReports K = Ret out ->
  exists l extra, Images out = l ++ (image_with_refs now <$> reports ++ extra) /\ extra ⊆ recReports
    /\ forall d, d_RecommendationOnly d = false -> (d ∈ l <-> d ∈ Images K).
Proof.
  unfold main_finish. case_decide as Hno.
  - rewrite go_bind_ret. intros (l & Hl & Hm). apply Minimize_images in Hm. simpl in Hm.
    exists l, recReports. split_and!; [done|done|]. intros d Hd.
    apply getImages_Ret in Hl as [Hret ->]. rewrite list_elem_of_filter. split; [by intros [_ ?]|].
    intros HdK. split; [|done]. apply kept_by_repository; [done|by apply Hret].
  - intros Hm. apply Minimize_images in Hm. exists (Images K), []. rewrite app_nil_r.
    split_and!; [done|set_solver|done].
Qed.

(** C4. The whole run: the entries of the final report that are no recommendations are
    exactly the last report's entries for (named) images of the cluster that were not
    scanned now, and one for each scanned image, with its name and owners, the time of this
    run, and the results of a successful scan or the error of the third failed one. *)
Theorem final_report_is_current `{!RangeOrder string string} (cfg : config) (cluster : list Image)
    (L K : MinimizedReport) (Q : list Image) (world : Tools -> Prop) (password : string)
    (tokens : gmap string string) (now : Z) (noRecommendations : string)
    (reports recReports : list ImageReport) (recs : list Image) (final : MinimizedReport) :
  main_prepare cfg cluster L = Ret (Q, K) ->
  main_scan (ScanImage_answers world password tokens (c_ExtraFlags cfg) (c_TrivyServerURL cfg)) cfg Q reports ->
  main_finish now noRecommendations reports recs recReports K = Ret final ->
  (forall i, i ∈ cluster -> i_RecommendationOnly i = false) ->
  (forall r, r ∈ recReports -> ir_RecommendationOnly r = true) ->
  let C := named_images cfg cluster in
  exists entries,
    Forall2 (fun q e => exists r, e = image_with_refs now r
               /\ accounted world password tokens (c_ExtraFlags cfg) (c_TrivyServerURL cfg) q (Some r)) Q entries
    /\ forall e, d_RecommendationOnly e = false ->
         (e ∈ Images final <->
            ((exists d0, d0 ∈ Images L /\ e = update_owners C d0)
             /\ details_UniqueID e ∈ convertImagesToMap C /\ details_UniqueID e ∉ convertImagesToMap Q)
            \/ e ∈ entries).
Proof.
  intros Hp Hscan Hfin Hclu Hrec C. destruct (main_prepare_spec _ _ _ _ _ Hp) as (L' & HQ & HK). fold C in HQ, HK.
  destruct (scan_queue_spec _ _ _ _ _ HQ) as (Hperm & _ & _ & Hsub & _).
  destruct (carry_over_spec _ _ _ _ HK) as [_ Hkeep].
  destruct (main_finish_images _ _ _ _ _ _ _ Hfin) as (l & extra & -> & Hextra & Hl).
  destruct Hscan as (slots & _ & Hscan).
  destruct (ScanImages_entries _ _ _ _ _ _ _ _ Hscan) as (os & Hacc & ->).
  assert (forall q, q ∈ Q -> i_RecommendationOnly q = false) as HQrec.
  { intros q Hq. apply Hclu. destruct (Hsub q Hq) as [HC _]. by apply (named_images_sub cfg). }
  exists (image_with_refs now <$> omap id os). split.
  - clear -Hacc HQrec. induction Hacc as [|q o Q os Ha _ IH]; csimpl; [constructor|].
    assert (exists r, o = Some r) as [r ->].
    { destruct Ha as [(r & _ & ->)|(e1 & e2 & e & _ & ->)]; [by eexists|].
      rewrite (HQrec q) by (by left). by eexists. }
    csimpl. constructor; [by exists r|]. apply IH. intros q' Hq'. apply HQrec. by right.
  - intros e He. rewrite fmap_app, !elem_of_app, (Hl e He), (Hkeep e He). setoid_rewrite Hperm.
    split; [|naive_solver]. intros [?|[?|Hx]]; [by left|by right|].
    apply list_elem_of_fmap in Hx as (r & -> & Hr). simpl in He. rewrite Hrec in He by (by apply Hextra). done.
Qed.

End run_facts.

(** ** Witnesses *)

#[local] Instance older_dec : RelDecision older.
Proof. intros a b. unfold older. destruct (d_LastScan a), (d_LastScan b); apply _. Defined.

#[local] Instance older_total : Total older.
Proof. intros a b. unfold older. destruct (d_LastScan a), (d_LastScan b); [lia|by right|by left|by left]. Qed.

#[local] Instance older_trans : Transitive older.
Proof. intros a b c. unfold older. destruct (d_LastScan a), (d_LastScan b), (d_LastScan c); try done. lia. Qed.

Definition sort_by_merging : SortByScan :=
  {| sort_images := merge_sort older; sort_images_perm := merge_sort_Permutation older;
     sort_images_sorted := fun l _ => StronglySorted_merge_sort older l |}.

Definition w_image (name sha ref : string) : Image :=
  {| i_Name := name; i_ID := name +:+ "@" +:+ sha; i_PullRef := ref; i_Owners := []; i_RecommendationOnly := false |}.

Definition w_entry (name sha : string) (last : option Z) (recommendation : bool) : ImageDetailsWithRefs :=
  {| d_ID := name +:+ "@" +:+ sha; d_Name := name; d_OSArch := ""; d_Owners := []; d_OwnerName := "";
     d_OwnerKind := ""; d_OwnerContainer := None; d_Namespace := ""; d_LastScan := last; d_Report := [];
     d_RecommendationOnly := recommendation; d_Error := "" |}.

Definition w_config (images : Z) (names : list string) : config :=
  {| c_Offline := false; c_MaxConcurrentScans := 1; c_MaxImagesToScan := images; c_ExtraFlags := "";
     c_NamespaceBlocklist := []; c_NamespaceAllowlist := []; c_HasGKESAAnnotation := false;
     c_ImagesToScan := names; c_TrivyServerURL := "http://trivy" |}.

Definition w_results : TrivyResults :=
  {| ImageID := "sha256:1"; RepoDigests := []; Architecture := "amd64"; OSName := "linux"; Results := [] |}.

Definition w_tools : Tools :=
  {| Getenv := fun _ => ""; CombinedOutput := fun _ _ => ("", None); ReadFile := fun _ => Ok "";
     json_results := fun _ => Ok w_results; json_annotations := fun _ => Ok ∅; conv_error := fun s => s |}.


Lemma known_error_deadlock_witness :
  let scanner (ref : string) (r : option TrivyResults) err := err = Some UnknownOSMessage in
  exists s0 s, scan_start [w_image "a:1" "sha256:1" "a"; w_image "b:1" "sha256:2" "b"] s0
    /\ rtc (scan_step 2 scanner) s0 s /\ forall s', rtc (scan_step 2 scanner) s s' -> ~ scan_done s'.
Proof.
  intros scanner. apply (known_error_deadlock 2 scanner _ "a" "b" None).
  - lia.
  - by apply (bool_decide_unpack _).
  - by apply (bool_decide_unpack _).
  - done.
  - done.
Defined.

Definition w_cluster : list Image := [w_image "a:1" "sha256:1" "a"; w_image "b:1" "sha256:2" "b"].
Definition w_report : MinimizedReport :=
  {| Images := [w_entry "a:1" "sha256:1" (Some 7) false; w_entry "b:1" "sha256:9" (Some 3) false]; Vulnerabilities := Some ∅ |}.

Lemma main_keeps_and_queues_witness :
  let K := {| Images := [w_entry "a:1" "sha256:1" (Some 7) false]; Vulnerabilities := Some ∅ |} in
  let Q := [w_image "b:1" "sha256:2" "b"] in
  @main_prepare sort_by_merging (w_config 1 []) w_cluster w_report = Ret (Q, K) /\ lenZ Q <= 1.
Proof.
  intros K Q. assert (@main_prepare sort_by_merging (w_config 1 []) w_cluster w_report = Ret (Q, K)) as H
    by (vm_compute; reflexivity).
  split; [exact H|]. exact (proj1 (@main_keeps_and_queues sort_by_merging _ _ _ _ _ H)).
Defined.

Lemma upgraded_image_not_scanned_witness :
  let L := {| Images := [w_entry "a:2" "sha256:1" (Some 7) true]; Vulnerabilities := Some ∅ |} in
  let i := w_image "a:2" "sha256:1" "a" in
  @main_prepare sort_by_merging (w_config 10 []) [i] L = Ret ([], L) /\ image_UniqueID i ∉ convertImagesToMap [].
Proof.
  intros L i. assert (@main_prepare sort_by_merging (w_config 10 []) [i] L = Ret ([], L)) as H
    by (vm_compute; reflexivity).
  split; [exact H|]. refine (proj1 (@upgraded_image_not_scanned sort_by_merging _ _ _ _ _ i H _ _)).
  - by apply (bool_decide_unpack _).
  - intros d Hd _. apply list_elem_of_singleton in Hd as ->. reflexivity.
Defined.

Lemma w_scan :
  main_scan (@ScanImage_answers canonical_order (fun os => os = w_tools) "" ∅ "" "http://trivy")
    (w_config 10 []) [w_image "b:1" "sha256:2" "b"] [scanned_report (w_image "b:1" "sha256:2" "b") w_results].
Proof.
  exists 1%nat. split; [done|].
  exists {| todo := ["b"]; workers := ∅; locked := false;
            reportByRef := {["b" := None]}; errorsByRef := {["b" := []]} |}. eexists. split_and!.
  - by split; vm_compute.
  - eapply rtc_l; [eapply (Launch _ _ _ "b" []); [by vm_compute|by vm_compute; lia]|].
    eapply rtc_l; [eapply (Call _ _ _ "b" 0 (Some w_results) None); [by vm_compute|]|].
    { exists w_tools. split; [done|]. left. exists w_results. split; [by vm_compute|done]. }
    eapply rtc_l; [eapply (Succeed _ _ _ "b" 0 (Some w_results)); by vm_compute|].
    eapply rtc_l; [eapply (Leave _ _ _ "b"); by vm_compute|]. apply rtc_refl.
  - by split; vm_compute.
  - by vm_compute.
Qed.

Lemma final_report_is_current_witness :
  let i := w_image "b:1" "sha256:2" "b" in
  let L := {| Images := []; Vulnerabilities := Some ∅ |} in
  let e := image_with_refs 8 (scanned_report i w_results) in
  let final := {| Images := [e]; Vulnerabilities := Some ∅ |} in
  @main_prepare sort_by_merging (w_config 10 []) [i] L = Ret ([i], L)
  /\ main_finish 8 "1" [scanned_report i w_results] [] [] L = Ret final
  /\ exists entries : list ImageDetailsWithRefs, length entries = 1%nat.
Proof.
  intros i L e final.
  assert (@main_prepare sort_by_merging (w_config 10 []) [i] L = Ret ([i], L)) as Hp by (vm_compute; reflexivity).
  assert (main_finish 8 "1" [scanned_report i w_results] [] [] L = Ret final) as Hf by (vm_compute; reflexivity).
  split; [exact Hp|]. split; [exact Hf|].
  edestruct (@final_report_is_current sort_by_merging canonical_order (w_config 10 []) [i] L L [i]
    (fun os => os = w_tools) "" ∅ 8 "1" [scanned_report i w_results] [] [] final Hp w_scan Hf) as (entries & Hall & _).
  - intros j Hj. by apply list_elem_of_singleton in Hj as ->.
  - by intros r Hr%not_elem_of_nil.
  - exists entries. by apply Forall2_length in Hall.
Defined.
