(* ===== verification/PrometheusQueries.v ===== *)
(** * prometheus: queries

    [prometheus/pkg/data/prometheus.go]: the PromQL text of every metric, with
    and without a cluster name, the GKE fallbacks and their labels, and the
    scaling of network counters.  [QueryRange] is a parameter, and floating-point
    arithmetic the class [Float64]. *)

From stdpp Require Import base decidable list gmap strings.
From Stdlib Require Import ZArith Lia Ascii.
From S2P Require Import Prelude GoStrings GoText GoNumbers.

Local Open Scope Z_scope.

(** ** PromQL text

    Queries are written with an apostrophe for each double quote. *)
Definition promql (s : string) : string :=
  str ((fun c => if decide (c = "'"%char) then byte 34 else c) <$> chars s).

Definition nl : string := String (byte 10) "".
Definition tab : string := String (byte 9) "".

(** The filter inside braces that already hold a selector, and the one with braces of its own. *)
Definition clusterFilter (clusterName : string) : string :=
  if decide (clusterName = "") then ""
  else promql ", cluster='" +:+ clusterName +:+ promql "'".

Definition clusterCompleteFilter (clusterName : string) : string :=
  if decide (clusterName = "") then ""
  else promql "{cluster='" +:+ clusterName +:+ promql "'}".

Definition memory_query (c : string) : string :=
  promql "container_memory_usage_bytes{image!='', container!='POD', container!=''" +:+ clusterFilter c +:+ "}".

Definition memory_requests_query (c : string) : string :=
  promql "kube_pod_container_resource_requests{container!='POD', container!='', unit='byte', resource='memory'"
  +:+ clusterFilter c +:+ "}".

Definition cpu_requests_query (c : string) : string :=
  promql "kube_pod_container_resource_requests{container!='POD', container!='', unit='core', resource='cpu'"
  +:+ clusterFilter c +:+ "}".

Definition memory_limits_query (c : string) : string :=
  promql "kube_pod_container_resource_limits{container!='POD', container!='', unit='byte', resource='memory'"
  +:+ clusterFilter c +:+ "}".

Definition cpu_limits_query (c : string) : string :=
  promql "kube_pod_container_resource_limits{container!='POD', container!='', unit='core', resource='cpu'"
  +:+ clusterFilter c +:+ "}".

Definition cpu_query (c : string) : string :=
  promql "rate(container_cpu_usage_seconds_total{image!='', container!='POD', container!=''"
  +:+ clusterFilter c +:+ "}[2m])".

Definition increase_query (metric : string) (minutes : Z) (c : string) : string :=
  "increase(" +:+ metric +:+ promql "{interface='eth0'" +:+ clusterFilter c +:+ "}[" +:+ fmt_d minutes +:+ "m])".

Definition idle_memory_query (c : string) : string :=
  let f := clusterCompleteFilter c in
  "100 * ((SUM(avg_over_time(node_memory_MemAvailable_bytes" +:+ f
  +:+ "[60m])) / SUM(avg_over_time(node_memory_MemTotal_bytes" +:+ f +:+ "[60m]))))".

Definition idle_cpu_query (c : string) : string :=
  promql "avg(rate(node_cpu_seconds_total{mode='idle', mode!='iowait', mode!='steal'"
  +:+ clusterFilter c +:+ "}[5m])) * 100".

Definition overhead_cpu_query (c : string) : string :=
  let f := clusterFilter c in
  let g := clusterCompleteFilter c in
  nl +:+ tab +:+ tab +:+ "100 * (" +:+ nl
  +:+ tab +:+ tab +:+ tab +:+ promql "(1 - avg(rate(node_cpu_seconds_total{mode='idle', mode!='iowait', mode!='steal'"
  +:+ f +:+ "}[5m]))) * SUM(machine_cpu_cores" +:+ g +:+ ") " +:+ nl
  +:+ tab +:+ tab +:+ tab
  +:+ promql "- SUM(rate(container_cpu_usage_seconds_total{image!='', container!='POD', container!=''"
  +:+ f +:+ "}[10m]))" +:+ nl
  +:+ tab +:+ tab +:+ tab +:+ ") " +:+ nl
  +:+ tab +:+ tab +:+ "/ SUM(machine_cpu_cores" +:+ g +:+ ")".

Definition overhead_memory_query (c : string) : string :=
  let f := clusterFilter c in
  let g := clusterCompleteFilter c in
  nl +:+ tab +:+ tab +:+ "100 * " +:+ nl
  +:+ tab +:+ tab +:+ "(" +:+ nl
  +:+ tab +:+ tab +:+ tab +:+ "(1 - (SUM(avg_over_time(node_memory_MemAvailable_bytes" +:+ g
  +:+ "[10m])) / SUM(avg_over_time(node_memory_MemTotal_bytes" +:+ g +:+ "[10m])))) * SUM(machine_memory_bytes"
  +:+ g +:+ ")" +:+ nl
  +:+ tab +:+ tab +:+ tab
  +:+ promql "- SUM(container_memory_usage_bytes{image!='', container!='POD', container!=''" +:+ f +:+ "})" +:+ nl
  +:+ tab +:+ tab +:+ ")" +:+ nl
  +:+ tab +:+ tab +:+ "/ SUM(machine_memory_bytes" +:+ g +:+ ")".

Definition gpuResourcePattern : string :=
  "nvidia_com_gpu|nvidia_com_gpu_shared|k8s_amazonaws_com_vgpu|amd_com_gpu|intel_com_gpu|habana_ai_gaudi|google_com_tpu".

Definition gpu_requests_query (c : string) : string :=
  promql "kube_pod_container_resource_requests{container!='POD', container!='', resource=~'"
  +:+ gpuResourcePattern +:+ promql "'" +:+ clusterFilter c +:+ "}".

Definition gpu_limits_query (c : string) : string :=
  promql "kube_pod_container_resource_limits{container!='POD', container!='', resource=~'"
  +:+ gpuResourcePattern +:+ promql "'" +:+ clusterFilter c +:+ "}".

(** The templates of the GPU exporters; every [%s] is the cluster filter. *)
Definition gpuUtilizationQueries : list string :=
  ["(" +:+ nl
   +:+ "  avg by (namespace, pod) (" +:+ nl
   +:+ "    label_replace(" +:+ nl
   +:+ "      label_replace(" +:+ nl
   +:+ promql "        avg_over_time(DCGM_FI_DEV_GPU_UTIL{exported_namespace=~'.+', exported_pod=~'.+'%s}[2m])," +:+ nl
   +:+ promql "        'namespace', '$1', 'exported_namespace', '(.+)'" +:+ nl
   +:+ "      )," +:+ nl
   +:+ promql "      'pod', '$1', 'exported_pod', '(.+)'" +:+ nl
   +:+ "    )" +:+ nl
   +:+ "  )" +:+ nl
   +:+ "or" +:+ nl
   +:+ "  avg by (namespace, pod) (" +:+ nl
   +:+ promql "    avg_over_time(DCGM_FI_DEV_GPU_UTIL{namespace!='', pod!='', exported_namespace='', exported_pod=''%s}[2m])" +:+ nl
   +:+ "  )" +:+ nl
   +:+ ") / 100";
   promql "avg by (namespace, pod) (GPU_GFX_ACTIVITY{namespace!='', pod!=''%s}) / 100";
   promql "avg by (namespace, pod) (intel_gpu_engine_render_active{namespace!='', pod!=''%s})";
   promql "avg by (namespace, pod) (hl_utilization{namespace!='', pod!=''%s}) / 100"].

Definition gpu_usage_query (template c : string) : string := ReplaceAll template "%s" (clusterFilter c).

(** ** GKE system metrics *)

Definition gkeSystemMetricsPrefix : string := "kubernetes_io:container_".

(** [strings.ContainsAny] of a double quote, a backslash, a line feed and a carriage return. *)
Definition unsafe_chars : list ascii := [byte 34; byte 92; byte 10; byte 13].

Definition validateClusterNameForPromQL (clusterName : string) : option string :=
  if existsb (fun c => bool_decide (c ∈ unsafe_chars)) (chars clusterName)
  then Some "cluster name contains unsafe character for PromQL" else None.

Definition gke_query (clusterName metricName : string) (sumByContainer : bool) : string :=
  let selector := gkeSystemMetricsPrefix +:+ metricName
    +:+ promql "{monitored_resource='k8s_container', cluster_name='" +:+ clusterName +:+ promql "'}" in
  if sumByContainer then "sum by (namespace_name, pod_name, container_name) (" +:+ selector +:+ ")" else selector.

Section queries.
Context `{Float64}.

Record SamplePair : Type := { Timestamp : Z; Value : float }.
Record SampleStream : Type := { Metric : gmap string string; Values : list SamplePair }.

(** [model.Value]: a matrix, or one of the other types, of which only the name is of interest. *)
Inductive QueryValue : Type :=
| MatrixValue (m : list SampleStream)
| OtherValue (type_name : string).

(** [api.QueryRange] over the fixed range. *)
Context (QueryRange : string -> result string QueryValue).

(** [values.(model.Matrix)] panics for another type. *)
Definition queryPrometheus (query : string) : go (result string (list SampleStream)) :=
  if decide (query = "") then Ret (Err "query cannot be empty")
  else match QueryRange query with
       | Err e => Ret (Err e)
       | Ok (MatrixValue m) => Ret (Ok m)
       | Ok (OtherValue _) => Panic
       end.

Definition getMemory (c : string) : go (result string (list SampleStream)) := queryPrometheus (memory_query c).
Definition getMemoryRequests (c : string) : go (result string (list SampleStream)) := queryPrometheus (memory_requests_query c).
Definition getCPURequests (c : string) : go (result string (list SampleStream)) := queryPrometheus (cpu_requests_query c).
Definition getMemoryLimits (c : string) : go (result string (list SampleStream)) := queryPrometheus (memory_limits_query c).
Definition getCPULimits (c : string) : go (result string (list SampleStream)) := queryPrometheus (cpu_limits_query c).
Definition getCPU (c : string) : go (result string (list SampleStream)) := queryPrometheus (cpu_query c).
Definition getGPURequests (c : string) : go (result string (list SampleStream)) := queryPrometheus (gpu_requests_query c).
Definition getGPULimits (c : string) : go (result string (list SampleStream)) := queryPrometheus (gpu_limits_query c).
Definition getNodesIdleMemory (c : string) : go (result string (list SampleStream)) := queryPrometheus (idle_memory_query c).
Definition getNodesIdleCPU (c : string) : go (result string (list SampleStream)) := queryPrometheus (idle_cpu_query c).
Definition getNodesOverheadCPU (c : string) : go (result string (list SampleStream)) := queryPrometheus (overhead_cpu_query c).
Definition getNodesOverheadMemory (c : string) : go (result string (list SampleStream)) := queryPrometheus (overhead_memory_query c).

(** The increase over some minutes, scaled to 30 seconds. *)
Definition scale_pair (minutes : Z) (v : SamplePair) : SamplePair :=
  {| Timestamp := Timestamp v; Value := f_div (Value v) (of_int (2 * minutes)) |}.

Definition scale_stream (minutes : Z) (s : SampleStream) : SampleStream :=
  {| Metric := Metric s; Values := scale_pair minutes <$> Values s |}.

Definition scale_matrix (minutes : Z) (m : list SampleStream) : list SampleStream := scale_stream minutes <$> m.

Definition get30sIncreaseMetric (metric : string) (minutes : Z) (c : string) : go (result string (list SampleStream)) :=
  r ← queryPrometheus (increase_query metric minutes c);
  mret (match r with
        | Err e => Err e
        | Ok values => Ok (scale_matrix minutes values)
        end).

Definition getNetworkReceiveBytesFor30s (minutes : Z) (c : string) : go (result string (list SampleStream)) :=
  get30sIncreaseMetric "container_network_receive_bytes_total" minutes c.

Definition getNetworkTransmitBytesFor30s (minutes : Z) (c : string) : go (result string (list SampleStream)) :=
  get30sIncreaseMetric "container_network_transmit_bytes_total" minutes c.

(** Errors of an exporter are skipped, so the second result of the code is always nil. *)
Fixpoint gpu_usage_loop (c : string) (templates : list string) (allResults : list SampleStream) : go (list SampleStream) :=
  match templates with
  | [] => Ret allResults
  | q :: templates' =>
      r ← queryPrometheus (gpu_usage_query q c);
      gpu_usage_loop c templates' (match r with Err _ => allResults | Ok values => allResults ++ values end)
  end.

Definition getGPUUsage (c : string) : go (list SampleStream) := gpu_usage_loop c gpuUtilizationQueries [].

Definition queryGKEContainerMetric (clusterName metricName : string) (sumByContainer : bool) : result string (list SampleStream) :=
  if decide (clusterName = "") then Err "cluster name required for GKE system metrics query"
  else match validateClusterNameForPromQL clusterName with
       | Some e => Err e
       | None =>
           match QueryRange (gke_query clusterName metricName sumByContainer) with
           | Err e => Err e
           | Ok (MatrixValue m) => Ok m
           | Ok (OtherValue t) => Err ("expected Matrix from QueryRange, got " +:+ t)
           end
       end.

(** One label under its short name: the resource label first, then the short one. *)
Definition short_label (long short : string) (m norm : gmap string string) : gmap string string :=
  match m !! long with
  | Some v => <[short := v]> norm
  | None => match m !! short with
            | Some v => <[short := v]> norm
            | None => norm
            end
  end.

Definition normalize_labels (m : gmap string string) : gmap string string :=
  short_label "container_name" "container" m
    (short_label "pod_name" "pod" m (short_label "namespace_name" "namespace" m m)).

Definition normalizeGKEContainerMatrix (m : list SampleStream) : list SampleStream :=
  (fun s => {| Metric := normalize_labels (Metric s); Values := Values s |}) <$> m.

Definition gke_metric (c metricName : string) (sumByContainer : bool) : result string (list SampleStream) :=
  match queryGKEContainerMetric c metricName sumByContainer with
  | Err e => Err e
  | Ok m => Ok (normalizeGKEContainerMatrix m)
  end.

Definition getMemoryRequestsGKE (c : string) : result string (list SampleStream) := gke_metric c "memory_request_bytes" false.
Definition getMemoryLimitsGKE (c : string) : result string (list SampleStream) := gke_metric c "memory_limit_bytes" false.
Definition getCPURequestsGKE (c : string) : result string (list SampleStream) := gke_metric c "cpu_request_cores" false.
Definition getCPULimitsGKE (c : string) : result string (list SampleStream) := gke_metric c "cpu_limit_cores" false.
Definition getGPURequestsGKE (c : string) : result string (list SampleStream) := gke_metric c "accelerator_request" true.
Definition getGPULimitsGKE (c : string) : result string (list SampleStream) := gke_metric c "accelerator_request" true.

(** ** Nodes *)

Record NodesMetrics : Type := {
  IdleCPU : float;
  IdleMemory : float;
  OverheadCPU : float;
  OverheadMemory : float
}.

Definition first_value (m : list SampleStream) : float :=
  match m with
  | s :: _ => match Values s with
              | v :: _ => Value v
              | [] => of_int 0
              end
  | [] => of_int 0
  end.

(** An error returns; a panic of the query is one of the whole. *)
Definition with_matrix {A} (m : go (result string (list SampleStream))) (k : list SampleStream -> go (result string A)) : go (result string A) :=
  r ← m;
  match r with
  | Err e => Ret (Err e)
  | Ok x => k x
  end.

Definition GetNodesMetrics (c : string) : go (result string NodesMetrics) :=
  with_matrix (getNodesIdleCPU c) (fun idleCPU =>
  with_matrix (getNodesIdleMemory c) (fun idleMemory =>
  with_matrix (getNodesOverheadCPU c) (fun overheadCPU =>
  with_matrix (getNodesOverheadMemory c) (fun overheadMemory =>
  Ret (Ok {| IdleCPU := first_value idleCPU; IdleMemory := first_value idleMemory;
             OverheadCPU := first_value overheadCPU; OverheadMemory := first_value overheadMemory |}))))).

End queries.
