(* ===== verification/PrometheusData.v ===== *)
(** * prometheus: combining the series

    [prometheus/pkg/data/data.go] and [calculate.go], [pkg/models/persistentvolumeclaim.go]:
    the owner of a pod, the storage metrics made from claims, splitting pod metrics over
    containers, merging all series by container and turning them into statistics.
    The cluster's workloads and claims are arguments; quantities are parsed by a parameter. *)

From stdpp Require Import base decidable list gmap strings.
From Stdlib Require Import QArith Qround ZArith Lia Ascii.
From S2P Require Import Prelude GoNumbers GoStrings GoText PrometheusQueries.

Local Open Scope Z_scope.

(** ** Workloads *)

(** A pod; its claims are [None] when its specification cannot be converted. *)
Record Pod : Type := { p_Namespace : string; p_Name : string; p_Claims : option (list string) }.

(** A top controller with its pods; the containers of its pod specification, if it has one. *)
Record Workload : Type := {
  w_Namespace : string;
  w_Kind : string;
  w_Name : string;
  w_Pods : list Pod;
  w_Containers : option (list string)
}.

Record Owner : Type := {
  Container : string;
  PodName : string;
  ControllerNamespace : string;
  ControllerName : string;
  ControllerKind : string
}.

Definition has_pod (podName : string) (w : Workload) : bool :=
  bool_decide (Exists (fun p => p_Name p = podName) (w_Pods w)).

(** The loop; the result so far is a name, a kind and the length of the prefix it matched. *)
Fixpoint controller_loop (podName namespace : string) (ws : list Workload) (best : string * string * nat)
    : string * string :=
  match ws with
  | [] => best.1
  | w :: ws' =>
      if decide (w_Namespace w <> namespace) then controller_loop podName namespace ws' best
      else if has_pod podName w then (w_Name w, w_Kind w)
      else if HasPrefix podName (w_Name w) && (best.2 <? slen (w_Name w))%nat
      then controller_loop podName namespace ws' (w_Name w, w_Kind w, slen (w_Name w))
      else controller_loop podName namespace ws' best
  end.

Definition getController (workloads : list Workload) (podName namespace : string) : string * string :=
  controller_loop podName namespace workloads (podName, "Pod", 0%nat).

(** ** GKE managed Prometheus *)

Section gmp.
(** [url.Parse] followed by [Hostname]. *)
Context (url_hostname : string -> result string string).

Definition IsGMP (prometheusAddress : string) : bool :=
  if decide (prometheusAddress = "") then false
  else match url_hostname (if Contains prometheusAddress "://" then prometheusAddress
                           else "https://" +:+ prometheusAddress) with
       | Err _ => false
       | Ok host => bool_decide (host = "monitoring.googleapis.com")
       end.
End gmp.

(** ** Claims *)

Record persistentVolumeClaim : Type := { pvc_name : string; pvc_capacity : Z; pvc_refs : list string }.

Record StorageInfo : Type := { pvcs : list persistentVolumeClaim; totalCapacityPerPod : gmap string Z }.

(** What a listing tells of one claim: its name and capacity fields; [None] when it
    is absent, an error when it is not a string. *)
Record RawPVC : Type := { raw_name : result string (option string); raw_capacity : result string (option string) }.

Section claims.
(** [resource.ParseQuantity] followed by [AsInt64]. *)
Context (capacityString2Int : string -> result string Z).

Definition pvc_of (r : RawPVC) : option persistentVolumeClaim :=
  match raw_name r with
  | Ok (Some name) =>
      if decide (name = "") then None
      else match raw_capacity r with
           | Ok (Some c) =>
               match capacityString2Int c with
               | Ok n => Some {| pvc_name := name; pvc_capacity := n; pvc_refs := [] |}
               | Err _ => None
               end
           | _ => None
           end
  | _ => None
  end.

Definition NewStorageInfoFromUnstructuredPVCs (l : list RawPVC) : StorageInfo :=
  {| pvcs := omap pvc_of l; totalCapacityPerPod := ∅ |}.
End claims.

Definition NumPVCs (s : StorageInfo) : nat := length (pvcs s).

Definition PVCByName (s : StorageInfo) (name : string) : option persistentVolumeClaim :=
  List.find (fun c => bool_decide (pvc_name c = name)) (pvcs s).

Definition add_ref (podKey : string) (c : persistentVolumeClaim) : persistentVolumeClaim :=
  {| pvc_name := pvc_name c; pvc_capacity := pvc_capacity c; pvc_refs := pvc_refs c ++ [podKey] |}.

(** The claim found is changed in place: the first of that name. *)
Fixpoint add_ref_first (name podKey : string) (l : list persistentVolumeClaim) : list persistentVolumeClaim :=
  match l with
  | [] => []
  | c :: l' => if decide (pvc_name c = name) then add_ref podKey c :: l' else c :: add_ref_first name podKey l'
  end.

Definition AddPVCRef (PVCName podKey : string) (s : StorageInfo) : StorageInfo :=
  if decide (NumPVCs s = 0%nat) then s
  else if decide (PVCName = "" \/ podKey = "") then s
  else match PVCByName s PVCName with
       | None => s
       | Some c =>
           {| pvcs := add_ref_first PVCName podKey (pvcs s);
              totalCapacityPerPod :=
                <[podKey := GoInt.i64 (default 0 (totalCapacityPerPod s !! podKey) + pvc_capacity c)]>
                  (totalCapacityPerPod s) |}
       end.

(** ** Series *)

Section series.
Context `{Float64}.

(** The range of the queries, in milliseconds. *)
Record Range : Type := { Start : Z; End_ : Z; Step : Z }.

Definition timestep : Z := 300000.

Definition getRange (now : Z) : Range :=
  let t := now - now mod timestep in
  {| Start := t - 3 * timestep; End_ := t; Step := 30000 |}.

Definition useThisValueForEveryStepInRange (v : float) (r : Range) : list SamplePair :=
  (fun i => {| Timestamp := Start r + Z.of_nat i * Step r; Value := v |})
    <$> seq 0 (Z.to_nat ((End_ r - Start r) / Step r)).

Definition ref_stream (r : Range) (s : StorageInfo) (ref : string) : option SampleStream :=
  match Split ref "/" with
  | ns :: pod :: _ =>
      Some {| Metric := <["pod" := pod]> {["namespace" := ns]};
              Values := useThisValueForEveryStepInRange (of_int (default 0 (totalCapacityPerPod s !! ref))) r |}
  | _ => None
  end.

Definition ManufactureMetrics (r : Range) (s : StorageInfo) : list SampleStream :=
  pvcs s ≫= fun c => omap (ref_stream r s) (pvc_refs c).

(** ** Splitting pod metrics over containers *)

Definition label (m : gmap string string) (k : string) : string := default "" (m !! k).

Definition pod_key (s : SampleStream) : string :=
  label (Metric s) "namespace" +:+ "/" +:+ label (Metric s) "pod".

Definition set_value (v : float) (p : SamplePair) : SamplePair := {| Timestamp := Timestamp p; Value := v |}.

Definition equal_split (n : Z) (p : SamplePair) : float := f_floor (f_div (Value p) (of_int n)).

Definition first_share (n : Z) (p : SamplePair) : float :=
  let remainder := f_mod (Value p) (of_int n) in
  if f_lt (of_int 0) remainder then f_add (equal_split n p) remainder else equal_split n p.

Definition first_stream (n : Z) (name : string) (s : SampleStream) : SampleStream :=
  {| Metric := <["container" := name]> (Metric s);
     Values := (fun p => set_value (first_share n p) p) <$> Values s |}.

Definition other_stream (n : Z) (s : SampleStream) (name : string) : SampleStream :=
  {| Metric := <["container" := name]> (Metric s);
     Values := (fun p => set_value (equal_split n p) p) <$> Values s |}.

(** The streams of one sample; a workload without a pod specification or without
    containers is a panic ([PodSpec] is nil, or [podContainers[0]] out of range). *)
Definition split_sample (workloadMap : gmap string Workload) (s : SampleStream) : go (list SampleStream) :=
  match workloadMap !! pod_key s with
  | None => Ret []
  | Some w =>
      match w_Containers w with
      | None => Panic
      | Some [] => Panic
      | Some [name] => Ret [{| Metric := <["container" := name]> (Metric s); Values := Values s |}]
      | Some (name :: names) =>
          let n := lenZ (name :: names) in
          Ret (first_stream n name s :: (other_stream n s <$> names))
      end
  end.

Fixpoint adjustMetricsForMultiContainerPods (metrics : list SampleStream) (workloadMap : gmap string Workload)
    : go (list SampleStream) :=
  match metrics with
  | [] => Ret []
  | s :: metrics' =>
      l ← split_sample workloadMap s;
      rest ← adjustMetricsForMultiContainerPods metrics' workloadMap;
      mret (l ++ rest)
  end.

(** ** Merging by container *)

Record CombinedRequest : Type := {
  owner : Owner;
  cpu : list SamplePair;
  memory : list SamplePair;
  memoryRequest : float;
  cpuRequest : float;
  memoryLimit : float;
  cpuLimit : float;
  networkTransmit : list SamplePair;
  networkReceive : list SamplePair;
  storageCapacity : list SamplePair;
  gpu : list SamplePair;
  gpuRequest : float;
  gpuLimit : float
}.

Definition zero_owner : Owner :=
  {| Container := ""; PodName := ""; ControllerNamespace := ""; ControllerName := ""; ControllerKind := "" |}.

Definition zero_request : CombinedRequest :=
  {| owner := zero_owner; cpu := []; memory := []; memoryRequest := of_int 0; cpuRequest := of_int 0;
     memoryLimit := of_int 0; cpuLimit := of_int 0; networkTransmit := []; networkReceive := [];
     storageCapacity := []; gpu := []; gpuRequest := of_int 0; gpuLimit := of_int 0 |}.

Definition getKey (s : SampleStream) : string :=
  label (Metric s) "namespace" +:+ "/" +:+ label (Metric s) "pod" +:+ "/" +:+ label (Metric s) "container".

Definition getOwner (s : SampleStream) : Owner :=
  {| Container := label (Metric s) "container"; PodName := label (Metric s) "pod";
     ControllerNamespace := label (Metric s) "namespace"; ControllerName := ""; ControllerKind := "" |}.

Definition averageSampleValues (values : list SamplePair) : float :=
  match values with
  | [] => of_int 0
  | _ => f_div (foldl f_add (of_int 0) (Value <$> values)) (of_int (lenZ values))
  end.

(** The field that a kind of series fills. *)
Inductive Series : Type :=
| CPU | Memory | CPURequest | MemoryRequest | CPULimit | MemoryLimit | GPURequest | GPULimit
| Storage | Transmit | Receive | GPU.

#[global] Instance Series_eq_dec : EqDecision Series.
Proof. solve_decision. Defined.

(** [request.field = ...; request.Owner = getOwner(sample)]. *)
Definition set_series (k : Series) (s : SampleStream) (r : CombinedRequest) : CombinedRequest :=
  let vs := Values s in
  let avg := averageSampleValues vs in
  {| owner := getOwner s;
     cpu := if decide (k = CPU) then vs else cpu r;
     memory := if decide (k = Memory) then vs else memory r;
     memoryRequest := if decide (k = MemoryRequest) then avg else memoryRequest r;
     cpuRequest := if decide (k = CPURequest) then avg else cpuRequest r;
     memoryLimit := if decide (k = MemoryLimit) then avg else memoryLimit r;
     cpuLimit := if decide (k = CPULimit) then avg else cpuLimit r;
     networkTransmit := if decide (k = Transmit) then vs else networkTransmit r;
     networkReceive := if decide (k = Receive) then vs else networkReceive r;
     storageCapacity := if decide (k = Storage) then vs else storageCapacity r;
     gpu := if decide (k = GPU) then vs else gpu r;
     gpuRequest := if decide (k = GPURequest /\ vs <> []) then avg else gpuRequest r;
     gpuLimit := if decide (k = GPULimit /\ vs <> []) then avg else gpuLimit r |}.

(** Requests and limits of cpu and memory skip a series without values. *)
Definition skips_empty (k : Series) : bool :=
  bool_decide (k ∈ [CPURequest; MemoryRequest; CPULimit; MemoryLimit]).

Definition merge_sample (k : Series) (m : gmap string CombinedRequest) (s : SampleStream)
    : gmap string CombinedRequest :=
  if skips_empty k && bool_decide (Values s = []) then m
  else <[getKey s := set_series k s (default zero_request (m !! getKey s))]> m.

Definition merge_series (k : Series) (l : list SampleStream) (m : gmap string CombinedRequest)
    : gmap string CombinedRequest := foldl (merge_sample k) m l.

(** ** The workloads by pod, and the claims they use *)

Definition pod_ref (p : Pod) : string := p_Namespace p +:+ "/" +:+ p_Name p.

Definition use_claim (podKey : string) (s : StorageInfo) (claim : string) : StorageInfo :=
  if (0 <? NumPVCs s)%nat then AddPVCRef claim podKey s else s.

Definition use_pod (w : Workload) (acc : gmap string Workload * StorageInfo) (p : Pod)
    : gmap string Workload * StorageInfo :=
  (<[pod_ref p := w]> acc.1, foldl (use_claim (pod_ref p)) acc.2 (default [] (p_Claims p))).

Definition use_workload (acc : gmap string Workload * StorageInfo) (w : Workload)
    : gmap string Workload * StorageInfo := foldl (use_pod w) acc (w_Pods w).

(** The controller of an entry: that of its pod, or the best guess. *)
Definition attribute (workloads : list Workload) (workloadMap : gmap string Workload) (r : CombinedRequest)
    : CombinedRequest :=
  let o := owner r in
  let '(name, kind) :=
    match workloadMap !! (ControllerNamespace o +:+ "/" +:+ PodName o) with
    | Some w => (w_Name w, w_Kind w)
    | None => getController workloads (PodName o) (ControllerNamespace o)
    end in
  {| owner := {| Container := Container o; PodName := PodName o; ControllerNamespace := ControllerNamespace o;
                 ControllerName := name; ControllerKind := kind |};
     cpu := cpu r; memory := memory r; memoryRequest := memoryRequest r; cpuRequest := cpuRequest r;
     memoryLimit := memoryLimit r; cpuLimit := cpuLimit r; networkTransmit := networkTransmit r;
     networkReceive := networkReceive r; storageCapacity := storageCapacity r; gpu := gpu r;
     gpuRequest := gpuRequest r; gpuLimit := gpuLimit r |}.

(** ** [GetMetrics] *)

Section GetMetrics.
Context (QueryRange : string -> result string QueryValue) (url_hostname : string -> result string string)
        (capacityString2Int : string -> result string Z) `{!RangeOrder string CombinedRequest}.

Definition fallback (useGKEFallback : bool) (gke : result string (list SampleStream)) (l : list SampleStream)
    : list SampleStream :=
  match l, gke with
  | [], Ok (s :: g) => if useGKEFallback then s :: g else l
  | _, _ => l
  end.

Definition no_data (what where_ : string) : string :=
  "No " +:+ what +:+ " metrics found. It is likely that the data is not being collected correctly. " +:+ where_.

Definition verify_cadvisor : string := "Verify Kubelet/cAdvisor metrics are being collected correctly".
Definition verify_ksm : string :=
  "Verify kube-state-metrics is running and the Prometheus configuration is correct".

(** One of the required queries: its error, its fallback, and the check that it found something. *)
Definition required {A} (m : go (result string (list SampleStream))) (gke : list SampleStream -> list SampleStream)
    (skip : bool) (message : string) (k : list SampleStream -> go (result string A)) : go (result string A) :=
  with_matrix m (fun x =>
    if negb skip && bool_decide (gke x = []) then Ret (Err message) else k (gke x)).

(** An optional query: its error counts as no data. *)
Definition optional {A} (m : go (result string (list SampleStream))) (gke : list SampleStream -> list SampleStream)
    (k : list SampleStream -> go (result string A)) : go (result string A) :=
  r ← m;
  k (gke (match r with Ok x => x | Err _ => [] end)).

Record Queried : Type := {
  q_cpu : list SampleStream;
  q_memory : list SampleStream;
  q_cpuRequest : list SampleStream;
  q_memoryRequest : list SampleStream;
  q_cpuLimits : list SampleStream;
  q_memoryLimits : list SampleStream;
  q_networkTransmit : list SampleStream;
  q_networkReceive : list SampleStream;
  q_gpuUsage : list SampleStream;
  q_gpuRequests : list SampleStream;
  q_gpuLimits : list SampleStream
}.

Definition minutesToCalculateNetworkIncrease : Z := 5.

Definition query_all (c prometheusAddress : string) (skipCAdvisor skipKSM : bool) : go (result string Queried) :=
  let fb := fallback (IsGMP url_hostname prometheusAddress && bool_decide (c <> "")) in
  let q := QueryRange in
  required (getMemory q c) id skipCAdvisor (no_data "memory" verify_cadvisor) (fun memory =>
  required (getCPU q c) id skipCAdvisor (no_data "cpu" verify_cadvisor) (fun cpu =>
  required (getMemoryRequests q c) (fb (getMemoryRequestsGKE q c)) skipKSM
    (no_data "memory request" verify_ksm) (fun memoryRequest =>
  required (getCPURequests q c) (fb (getCPURequestsGKE q c)) skipKSM
    (no_data "cpu request" verify_ksm) (fun cpuRequest =>
  required (getMemoryLimits q c) (fb (getMemoryLimitsGKE q c)) skipKSM
    (no_data "memory limit" verify_ksm) (fun memoryLimits =>
  required (getCPULimits q c) (fb (getCPULimitsGKE q c)) skipKSM
    (no_data "cpu limit" verify_ksm) (fun cpuLimits =>
  with_matrix (getNetworkTransmitBytesFor30s q minutesToCalculateNetworkIncrease c) (fun networkTransmit =>
  with_matrix (getNetworkReceiveBytesFor30s q minutesToCalculateNetworkIncrease c) (fun networkReceive =>
  getGPUUsage q c ≫= fun gpuUsage =>
  optional (getGPURequests q c) (fb (getGPURequestsGKE q c)) (fun gpuRequests =>
  optional (getGPULimits q c) (fb (getGPULimitsGKE q c)) (fun gpuLimits =>
  Ret (Ok {| q_cpu := cpu; q_memory := memory; q_cpuRequest := cpuRequest; q_memoryRequest := memoryRequest;
             q_cpuLimits := cpuLimits; q_memoryLimits := memoryLimits; q_networkTransmit := networkTransmit;
             q_networkReceive := networkReceive; q_gpuUsage := gpuUsage; q_gpuRequests := gpuRequests;
             q_gpuLimits := gpuLimits |}))))))))))).

(** The merge that needs no cluster data. *)
Definition merge_containers (q : Queried) : gmap string CombinedRequest :=
  merge_series GPULimit (q_gpuLimits q)
    (merge_series GPURequest (q_gpuRequests q)
      (merge_series MemoryLimit (q_memoryLimits q)
        (merge_series CPULimit (q_cpuLimits q)
          (merge_series MemoryRequest (q_memoryRequest q)
            (merge_series CPURequest (q_cpuRequest q)
              (merge_series Memory (q_memory q) (merge_series CPU (q_cpu q) ∅))))))).

(** The four pod metrics, split over the containers, in the order of the code. *)
Definition merge_pods (q : Queried) (storageMetrics : list SampleStream) (workloadMap : gmap string Workload)
    (m : gmap string CombinedRequest) : go (gmap string CombinedRequest) :=
  storage ← adjustMetricsForMultiContainerPods storageMetrics workloadMap;
  transmit ← adjustMetricsForMultiContainerPods (q_networkTransmit q) workloadMap;
  receive ← adjustMetricsForMultiContainerPods (q_networkReceive q) workloadMap;
  usage ← adjustMetricsForMultiContainerPods (q_gpuUsage q) workloadMap;
  mret (merge_series GPU usage (merge_series Receive receive (merge_series Transmit transmit (merge_series Storage storage m)))).

Definition combine (now : Z) (q : Queried) (claims : list RawPVC) (workloads : list Workload)
    : go (list CombinedRequest) :=
  let '(workloadMap, storage) :=
    foldl use_workload (∅, NewStorageInfoFromUnstructuredPVCs capacityString2Int claims) workloads in
  m ← merge_pods q (ManufactureMetrics (getRange now) storage) workloadMap (merge_containers q);
  mret (attribute workloads workloadMap <$> (range_map m).*2).

Definition GetMetrics (now : Z) (c prometheusAddress : string) (skipCAdvisor skipKSM : bool)
    (claims : result string (list RawPVC)) (workloads : result string (list Workload))
    : go (result string (list CombinedRequest)) :=
  r ← query_all c prometheusAddress skipCAdvisor skipKSM;
  match r with
  | Err e => Ret (Err e)
  | Ok q =>
      match claims with
      | Err e => Ret (Err e)
      | Ok cs =>
          match workloads with
          | Err e => Ret (Err e)
          | Ok ws => l ← combine now q cs ws; mret (Ok l)
          end
      end
  end.
End GetMetrics.

(** ** Statistics *)

Record Statistics : Type := {
  st_Owner : Owner;
  StartTime : Z;
  st_Metric : string;
  st_Value : Z;
  st_Request : Z;
  LimitValue : Z
}.

(** [time.Unix(int64(t)/1000, 0)], in seconds. *)
Definition seconds (p : SamplePair) : Z := Z.quot (Timestamp p) 1000.

Definition milli (v : float) : Z := to_int64 (f_mul v (of_int 1000)).

Definition cpu_value (v : float) : Z :=
  if f_lt (of_int 0) v && f_lt v f_milli then 1 else milli v.

Definition plain_stat (r : CombinedRequest) (metric : string) (p : SamplePair) : Statistics :=
  {| st_Owner := owner r; StartTime := seconds p; st_Metric := metric; st_Value := to_int64 (Value p);
     st_Request := 0; LimitValue := 0 |}.

Definition memory_stat (r : CombinedRequest) (p : SamplePair) : Statistics :=
  {| st_Owner := owner r; StartTime := seconds p; st_Metric := "Memory"; st_Value := to_int64 (Value p);
     st_Request := to_int64 (memoryRequest r); LimitValue := to_int64 (memoryLimit r) |}.

Definition cpu_stat (r : CombinedRequest) (p : SamplePair) : Statistics :=
  {| st_Owner := owner r; StartTime := seconds p; st_Metric := "CPU"; st_Value := cpu_value (Value p);
     st_Request := milli (cpuRequest r); LimitValue := milli (cpuLimit r) |}.

Definition gpu_stat (r : CombinedRequest) (t v : Z) : Statistics :=
  {| st_Owner := owner r; StartTime := t; st_Metric := "GPU"; st_Value := v;
     st_Request := milli (gpuRequest r); LimitValue := milli (gpuLimit r) |}.

(** Without utilisation, one entry if there is a request or a limit. *)
Definition gpu_stats (now : Z) (r : CombinedRequest) : list Statistics :=
  match gpu r with
  | [] =>
      if f_lt (of_int 0) (gpuRequest r) || f_lt (of_int 0) (gpuLimit r) then
        let t := match cpu r, memory r with
                 | p :: _, _ => seconds p
                 | [], p :: _ => seconds p
                 | [], [] => (now - now mod 60000) / 1000
                 end in
        [gpu_stat r t 0]
      else []
  | l => (fun p => gpu_stat r (seconds p) (to_int64 (f_mul (Value p) (of_int 100)))) <$> l
  end.

Definition request_stats (now : Z) (r : CombinedRequest) : list Statistics :=
  (memory_stat r <$> memory r) ++ (cpu_stat r <$> cpu r)
  ++ (plain_stat r "NetworkTransmit" <$> networkTransmit r)
  ++ (plain_stat r "NetworkReceive" <$> networkReceive r)
  ++ (plain_stat r "StorageCapacity" <$> storageCapacity r)
  ++ gpu_stats now r.

Definition CalculateStatistics (now : Z) (values : list CombinedRequest) : list Statistics :=
  values ≫= request_stats now.

End series.

(** ** Facts: attribution *)

Definition in_namespace (namespace : string) (w : Workload) : bool := bool_decide (w_Namespace w = namespace).

Definition owns_pod (podName namespace : string) (w : Workload) : bool := in_namespace namespace w && has_pod podName w.

Definition prefix_of_pod (podName namespace : string) (w : Workload) : bool :=
  in_namespace namespace w && HasPrefix podName (w_Name w).

Lemma controller_loop_exact podName namespace ws best w :
  List.find (owns_pod podName namespace) ws = Some w ->
  controller_loop podName namespace ws best = (w_Name w, w_Kind w).
Proof.
  revert best. induction ws as [|x ws IH]; intros best; simpl; [done|]. unfold owns_pod at 1, in_namespace.
  case_bool_decide as Hns; simpl.
  - destruct (has_pod podName x); [intros [= ->]; by rewrite decide_False by tauto|].
    rewrite decide_False by tauto. intros Hf. by case_match; apply IH.
  - intros Hf. rewrite decide_True by done. by apply IH.
Qed.

(** What is the best guess after the loop: a candidate at least as long as all, or the start. *)
Definition best_guess (podName namespace : string) (ws : list Workload) (best : string * string * nat)
    (out : string * string) : Prop :=
  (out = best.1 /\ (forall w, w ∈ ws -> prefix_of_pod podName namespace w = true -> (slen (w_Name w) <= best.2)%nat))
  \/ exists w, w ∈ ws /\ prefix_of_pod podName namespace w = true /\ (best.2 < slen (w_Name w))%nat
       /\ out = (w_Name w, w_Kind w)
       /\ forall w', w' ∈ ws -> prefix_of_pod podName namespace w' = true -> (slen (w_Name w') <= slen (w_Name w))%nat.

Lemma controller_loop_guess podName namespace ws best :
  List.find (owns_pod podName namespace) ws = None ->
  best_guess podName namespace ws best (controller_loop podName namespace ws best).
Proof.
  revert best. induction ws as [|x ws IH]; intros best; simpl.
  - intros _. left. split; [done|]. by intros w ?%not_elem_of_nil.
  - destruct (owns_pod podName namespace x) eqn:Ho; [done|]. intros Hf.
    assert (forall b, (prefix_of_pod podName namespace x = true -> (slen (w_Name x) <= b.2)%nat) ->
              best_guess podName namespace ws b (controller_loop podName namespace ws b) ->
              best_guess podName namespace (x :: ws) b (controller_loop podName namespace ws b)) as Hskip.
    { intros b Hb [[-> Hall]|(w & Hw & Hp & Hlt & -> & Hall)].
      - left. split; [done|]. intros w [->|Hw]%elem_of_cons Hp; [by apply Hb|by apply Hall].
      - right. exists w. split_and!; [by right|done|done|done|].
        intros w' [->|Hw']%elem_of_cons Hp'; [specialize (Hb Hp'); lia|by apply Hall]. }
    case_decide as Hns.
    { apply Hskip; [|by apply IH]. unfold prefix_of_pod, in_namespace. by rewrite bool_decide_eq_false_2. }
    unfold owns_pod, in_namespace in Ho. rewrite bool_decide_eq_true_2 in Ho by done.
    simpl in Ho. rewrite Ho. destruct (HasPrefix podName (w_Name x) && (best.2 <? slen (w_Name x))%nat) eqn:Hb.
    + apply andb_true_iff in Hb as [Hp Hlt]. apply Nat.ltb_lt in Hlt. right.
      assert (prefix_of_pod podName namespace x = true) as Hpx.
      { unfold prefix_of_pod, in_namespace. by rewrite bool_decide_eq_true_2. }
      destruct (IH (w_Name x, w_Kind x, slen (w_Name x)) Hf) as [[-> Hall]|(w & Hw & Hpw & Hlt' & -> & Hall)].
      * exists x. split_and!; [by left|done|done|done|]. intros w' [->|Hw']%elem_of_cons Hp'; [done|by apply Hall].
      * exists w. simpl in Hlt'. split_and!; [by right|done|lia|done|].
        intros w' [->|Hw']%elem_of_cons Hp'; [lia|by apply Hall].
    + apply Hskip; [|by apply IH]. unfold prefix_of_pod. rewrite andb_true_iff. intros [_ Hp].
      rewrite Hp in Hb. simpl in Hb. by apply Nat.ltb_ge in Hb.
Qed.

(** The controller of a pod: [getController] names the first workload of the pod's namespace
    that lists the pod; otherwise one of that namespace whose name is a longest non-empty prefix
    of the pod's name; otherwise the pod itself. *)
Theorem getController_spec (workloads : list Workload) (podName namespace : string) :
  match List.find (owns_pod podName namespace) workloads with
  | Some w => getController workloads podName namespace = (w_Name w, w_Kind w)
  | None =>
      (getController workloads podName namespace = (podName, "Pod")
       /\ forall w, w ∈ workloads -> prefix_of_pod podName namespace w = true -> w_Name w = "")
      \/ exists w, w ∈ workloads /\ prefix_of_pod podName namespace w = true /\ w_Name w <> ""
           /\ getController workloads podName namespace = (w_Name w, w_Kind w)
           /\ forall w', w' ∈ workloads -> prefix_of_pod podName namespace w' = true ->
                (slen (w_Name w') <= slen (w_Name w))%nat
  end.
Proof.
  unfold getController. destruct (List.find _ workloads) as [w|] eqn:Hf; [by apply controller_loop_exact|].
  assert (forall s, slen s = 0%nat -> s = "") as Hnil.
  { intros s Hs. apply chars_inj. by destruct (chars s) eqn:E; [|unfold slen in Hs; rewrite E in Hs]. }
  destruct (controller_loop_guess podName namespace workloads (podName, "Pod", 0%nat) Hf)
    as [[-> Hall]|(w & Hw & Hp & Hlt & -> & Hall)]; simpl in *.
  - left. split; [done|]. intros w Hw Hp. apply Hnil. specialize (Hall w Hw Hp). lia.
  - right. exists w. split_and!; [done|done| |done|done]. intros Hn. rewrite Hn in Hlt. simpl in Hlt. unfold slen in Hlt. simpl in Hlt. lia.
Qed.

(** ** Facts: splitting *)

Section split_facts.
Context `{Float64}.

Lemma shares_exact n v p :
  exact v -> exact n -> 0 < n -> Value p = of_int v ->
  equal_split n p = of_int (v / n) /\ first_share n p = of_int (v / n + v mod n).
Proof.
  intros Hv Hn Hpos Hp. pose proof (Z.mod_pos_bound v n Hpos) as Hmod.
  pose proof (Z.div_mod v n ltac:(lia)) as Hdiv. unfold exact in *.
  assert (0 <= v / n) by (apply Z.div_pos; lia). assert (v / n + v mod n <= v) by nia.
  unfold first_share, equal_split. rewrite Hp, f_mod_exact, f_floor_div, f_lt_exact by (unfold exact in *; lia).
  split; [done|]. destruct (Z.ltb_spec 0 (v mod n)).
  - rewrite f_add_exact by (unfold exact in *; lia). done.
  - by replace (v mod n) with 0 by lia; rewrite Z.add_0_r.
Qed.

Lemma sum_shares n v k : 0 < n -> Z.of_nat k = n - 1 -> v / n + v mod n + sumZ (replicate k (v / n)) = v.
Proof.
  intros Hn Hk. assert (forall k x, sumZ (replicate k x) = Z.of_nat k * x) as Hsum.
  { clear. induction k as [|k IH]; intros x; [done|]. cbn [replicate]. rewrite sumZ_cons, IH. lia. }
  rewrite Hsum, Hk. pose proof (Z.div_mod v n ltac:(lia)). lia.
Qed.

Lemma map_const_replicate {A B} (l : list A) (x : B) : (fun _ => x) <$> l = replicate (length l) x.
Proof. induction l as [|a l IH]; csimpl; [done|]. by rewrite IH. Qed.

Definition value_at (i : nat) (s : SampleStream) : option float := Value <$> Values s !! i.

(** C13. Splitting conserves: a sample of a pod whose workload has containers becomes one stream per
    container, in order, that differs from the sample only in the container label and in the values;
    the time stamps stay; and where a value is a whole number below 2^53 the values of the
    streams are whole numbers that add up to it. *)
Theorem split_preserves_total (workloadMap : gmap string Workload) (s : SampleStream) (w : Workload)
    (names : list string) :
  workloadMap !! pod_key s = Some w -> w_Containers w = Some names -> names <> [] -> exact (lenZ names) ->
  exists out, split_sample workloadMap s = Ret out
    /\ Forall2 (fun name st => Metric st = <["container" := name]> (Metric s)
                  /\ Timestamp <$> Values st = Timestamp <$> Values s) names out
    /\ forall i p v, Values s !! i = Some p -> Value p = of_int v -> exact v ->
         exists shares, value_at i <$> out = (fun x => Some (of_int x)) <$> shares /\ sumZ shares = v.
Proof.
  intros Hw Hc Hne Hex. unfold split_sample. rewrite Hw, Hc.
  destruct names as [|name [|name2 names]]; [done| |].
  - eexists. split; [done|]. split; [by repeat constructor|]. intros i p v Hi Hp Hv. exists [v].
    split; [|apply Z.add_0_r]. csimpl. unfold value_at. simpl. by rewrite Hi; simpl; rewrite Hp.
  - set (rest := name2 :: names) in *. set (n := lenZ (name :: rest)) in *.
    assert (0 < n) by (unfold n, lenZ; simpl; lia).
    eexists. split; [done|]. split.
    + constructor.
      * split; [done|]. simpl. by rewrite <-list_fmap_compose.
      * apply Forall2_fmap_r, Forall_Forall2_diag, Forall_forall. intros x _. split; [done|]. simpl.
        by rewrite <-list_fmap_compose.
    + intros i p v Hi Hp Hv. destruct (shares_exact n v p Hv Hex ltac:(done) Hp) as [Heq Hfirst].
      exists (v / n + v mod n :: replicate (length rest) (v / n)). split.
      * rewrite !fmap_cons. f_equal.
        -- unfold value_at, first_stream. simpl. rewrite list_lookup_fmap, Hi. simpl. by rewrite Hfirst.
        -- rewrite <-list_fmap_compose, <-map_const_replicate, <-list_fmap_compose.
           apply list_fmap_ext. intros j x _. unfold compose, value_at, other_stream. simpl.
           rewrite list_lookup_fmap, Hi. simpl. by rewrite Heq.
      * rewrite sumZ_cons. apply sum_shares; [done|]. unfold n, lenZ. simpl. lia.
Qed.

(** A workload whose containers are not known is a panic of the whole run. *)
Lemma split_panics workloadMap s w :
  workloadMap !! pod_key s = Some w -> w_Containers w = None \/ w_Containers w = Some [] ->
  split_sample workloadMap s = Panic.
Proof. unfold split_sample. by intros -> [-> | ->]. Qed.

(** ** Facts: merging *)

Definition owner_key (o : Owner) : string :=
  ControllerNamespace o +:+ "/" +:+ PodName o +:+ "/" +:+ Container o.

(** The key of an entry is that of its owner. *)
Definition keyed (m : gmap string CombinedRequest) : Prop :=
  forall k r, m !! k = Some r -> k = owner_key (owner r).

Lemma merge_sample_keyed k m s : keyed m -> keyed (merge_sample k m s).
Proof.
  intros Hm. unfold merge_sample. case_match; [done|]. intros x r.
  rewrite lookup_insert_Some. intros [[<- <-]|[_ Hr]]; [done|by apply Hm].
Qed.

Lemma merge_series_keyed k l m : keyed m -> keyed (merge_series k l m).
Proof. intros Hm. unfold merge_series. apply foldl_inv; [done|]. intros b a _. apply merge_sample_keyed. Qed.

Lemma merge_series_dom k l m x :
  is_Some (merge_series k l m !! x) <->
  is_Some (m !! x) \/ exists s, s ∈ l /\ getKey s = x /\ (skips_empty k = true -> Values s <> []).
Proof.
  unfold merge_series. revert m. induction l as [|s l IH]; intros m; simpl; [set_solver|].
  rewrite IH. assert (is_Some (merge_sample k m s !! x) <->
    is_Some (m !! x) \/ getKey s = x /\ (skips_empty k = true -> Values s <> [])) as ->.
  { unfold merge_sample. destruct (skips_empty k); simpl.
    - case_bool_decide; [naive_solver|]. rewrite lookup_insert_is_Some'. naive_solver.
    - rewrite lookup_insert_is_Some'. naive_solver. }
  setoid_rewrite elem_of_cons. naive_solver.
Qed.

(** A run that returns had data: unless the checks are switched off, [GetMetrics] only returns
    when the cpu and memory series, and those of requests and limits (after the GKE
    fallback), are not empty. *)
Theorem query_all_not_empty (QueryRange : string -> result string QueryValue)
    (url_hostname : string -> result string string) (c address : string) (skipCAdvisor skipKSM : bool) (q : Queried) :
  query_all QueryRange url_hostname c address skipCAdvisor skipKSM = Ret (Ok q) ->
  (skipCAdvisor = false -> q_memory q <> [] /\ q_cpu q <> [])
  /\ (skipKSM = false -> q_memoryRequest q <> [] /\ q_cpuRequest q <> [] /\ q_memoryLimits q <> [] /\ q_cpuLimits q <> []).
Proof.
  assert (forall (m : go (result string (list SampleStream))) gke skip msg
             (k : list SampleStream -> go (result string Queried)) (x : Queried),
            required m gke skip msg k = Ret (Ok x) ->
            exists l, k l = Ret (Ok x) /\ (skip = false -> l <> [])) as Hreq.
  { intros m gke skip msg k x Hr. unfold required, with_matrix in Hr. apply go_bind_ret in Hr as ([l|e] & _ & Hr); [|done].
    exists (gke l). destruct skip; simpl in Hr; [done|]. by case_bool_decide. }
  assert (forall (m : go (result string (list SampleStream))) (k : list SampleStream -> go (result string Queried)) (x : Queried),
            with_matrix m k = Ret (Ok x) -> exists l, k l = Ret (Ok x)) as Hwith.
  { intros m k x Hr. unfold with_matrix in Hr. apply go_bind_ret in Hr as ([l|e] & _ & Hr); [by exists l|done]. }
  unfold query_all. intros Hq.
  apply Hreq in Hq as (mem & Hq & Hmem). apply Hreq in Hq as (cp & Hq & Hcp).
  apply Hreq in Hq as (mr & Hq & Hmr). apply Hreq in Hq as (cr & Hq & Hcr).
  apply Hreq in Hq as (ml & Hq & Hml). apply Hreq in Hq as (cl & Hq & Hcl).
  apply Hwith in Hq as (nt & Hq). apply Hwith in Hq as (nr & Hq).
  apply go_bind_ret in Hq as (gu & _ & Hq). unfold optional in Hq.
  apply go_bind_ret in Hq as (gr & _ & Hq). apply go_bind_ret in Hq as (gl & _ & [= <-]). simpl. tauto.
Qed.

Context (capacityString2Int : string -> result string Z) `{!RangeOrder string CombinedRequest}.

(** C39. One entry per container: the list that [GetMetrics] returns has no two entries with the same
    namespace, pod and container, and has one for every cpu and memory series and for every series of
    requests and limits that has values. *)
Theorem combine_one_entry_per_container (now : Z) (q : Queried) (claims : list RawPVC)
    (workloads : list Workload) (out : list CombinedRequest) :
  combine capacityString2Int now q claims workloads = Ret out ->
  NoDup ((fun r => (ControllerNamespace (owner r), PodName (owner r), Container (owner r))) <$> out)
  /\ (forall s, s ∈ q_cpu q \/ s ∈ q_memory q
        \/ (Values s <> [] /\ (s ∈ q_cpuRequest q \/ s ∈ q_memoryRequest q \/ s ∈ q_cpuLimits q \/ s ∈ q_memoryLimits q)) ->
        exists r, r ∈ out /\ owner_key (owner r) = getKey s).
Proof.
  unfold combine. destruct (foldl use_workload _ workloads) as [workloadMap storage].
  rewrite go_bind_ret. intros (m & Hm & [= <-]).
  assert (keyed m /\ forall x, is_Some (merge_containers q !! x) -> is_Some (m !! x)) as [Hk Hdom].
  { unfold merge_pods in Hm. apply go_bind_ret in Hm as (l1 & _ & Hm). apply go_bind_ret in Hm as (l2 & _ & Hm).
    apply go_bind_ret in Hm as (l3 & _ & Hm). apply go_bind_ret in Hm as (l4 & _ & [= <-]). split.
    - do 4 apply merge_series_keyed. unfold merge_containers. do 8 apply merge_series_keyed.
      intros x r. by rewrite lookup_empty.
    - intros x Hx. rewrite !merge_series_dom. tauto. }
  assert (forall r, owner_key (owner (attribute workloads workloadMap r)) = owner_key (owner r)) as Hattr.
  { intros r. unfold attribute, owner_key. by case_match. }
  split.
  - apply (NoDup_fmap_1 (fun t => t.1.1 +:+ "/" +:+ t.1.2 +:+ "/" +:+ t.2)).
    rewrite <-!list_fmap_compose.
    assert (forall l : list (string * CombinedRequest), (forall k r, (k, r) ∈ l -> k = owner_key (owner r)) ->
      (fun x => owner_key (owner (attribute workloads workloadMap x.2))) <$> l = l.*1) as Hfst.
    { clear -Hattr. induction l as [|[k r] l IH]; intros Hl; csimpl; [done|]. rewrite Hattr. f_equal.
      - symmetry. apply Hl. by left.
      - apply IH. intros k' r' Hin. apply Hl. by right. }
    eapply eq_ind; [apply NoDup_fst_range_map|]. symmetry. etrans; [|apply (Hfst (range_map m))]; [done|].
    intros k r Hin. apply Hk. by apply elem_of_range_map.
  - intros s Hs. assert (is_Some (m !! getKey s)) as [r Hr].
    { apply Hdom. unfold merge_containers. rewrite !merge_series_dom.
      destruct Hs as [?|[?|[Hv [?|[?|[?|?]]]]]]; repeat (first [right; by exists s | left]). }
    exists (attribute workloads workloadMap r). split.
    + apply list_elem_of_fmap. exists r. split; [done|]. apply list_elem_of_fmap. exists (getKey s, r).
      split; [done|]. by apply elem_of_range_map.
    + rewrite Hattr. symmetry. by apply Hk.
Qed.

End split_facts.

#[local] Existing Instance Q_Float64.

(** ** Concrete runs *)

Definition x_pod (namespace name : string) (claims : list string) : Pod :=
  {| p_Namespace := namespace; p_Name := name; p_Claims := Some claims |}.

Definition x_workload (namespace name : string) (pods : list Pod) (containers : list string) : Workload :=
  {| w_Namespace := namespace; w_Kind := "Deployment"; w_Name := name; w_Pods := pods;
     w_Containers := Some containers |}.

Definition x_stream (values : list Q) : SampleStream :=
  {| Metric := {["namespace" := "default"; "pod" := "testpod"]};
     Values := (fun v => {| Timestamp := 1000; Value := v |}) <$> values |}.

Definition x_workloads : gmap string Workload :=
  {["default/testpod" := x_workload "default" "test" [x_pod "default" "testpod" []] ["c1"; "c2"; "c3"]]}.

(** The values of the comment: 10 becomes 4, 3 and 3; 1.5 stays with the first container. *)
Example split_of_comment :
  match split_sample x_workloads (x_stream [10%Q; (3 # 2)%Q]) with
  | Ret out => (fun s => Qred ∘ Value <$> Values s) <$> out = [[4%Q; (3 # 2)%Q]; [3%Q; 0%Q]; [3%Q; 0%Q]]
  | Panic => False
  end.
Proof. by vm_compute. Qed.

Lemma split_preserves_total_witness :
  exists out, split_sample x_workloads (x_stream [10%Q]) = Ret out
    /\ exists shares, value_at 0 <$> out = (fun x => Some (of_int x)) <$> shares /\ sumZ shares = 10.
Proof.
  destruct (split_preserves_total x_workloads (x_stream [10%Q])
    (x_workload "default" "test" [x_pod "default" "testpod" []] ["c1"; "c2"; "c3"]) ["c1"; "c2"; "c3"])
    as (out & Hout & _ & Hsum); [by vm_compute|done|done|by vm_compute|].
  exists out. split; [exact Hout|]. apply (Hsum 0%nat (@Build_SamplePair Q_Float64 1000 10%Q) 10); [done|done|by vm_compute].
Defined.

(** The capacity that a pod is charged, given the claims of the cluster in listing order. *)
Definition charged (claims : list RawPVC) (workloads : list Workload) (podKey : string) : option Z :=
  totalCapacityPerPod (foldl use_workload
    (∅, NewStorageInfoFromUnstructuredPVCs (fun s => match ParseInt s with ParsedOk n => Ok n | _ => Err s end) claims)
    workloads).2 !! podKey.

Definition x_claim (name capacity : string) : RawPVC :=
  {| raw_name := Ok (Some name); raw_capacity := Ok (Some capacity) |}.

(** Claims are found by name only: the pod of namespace [b] is charged the claim [data] of
    namespace [a], listed first with 5 bytes, and not its own of 7. *)
Example claims_of_other_namespaces :
  charged [x_claim "data" "5"; x_claim "data" "7"]
    [x_workload "a" "db" [x_pod "a" "p" ["data"]] ["c"]; x_workload "b" "db" [x_pod "b" "p" ["data"]] ["c"]] "b/p"
  = Some 5.
Proof. by vm_compute. Qed.

(** A claim that two pods share is charged in full to both. *)
Example shared_claim_in_full :
  charged [x_claim "data" "10"]
    [x_workload "a" "db" [x_pod "a" "p" ["data"]; x_pod "a" "q" ["data"]] ["c"]] "a/p" = Some 10.
Proof. by vm_compute. Qed.

(** The cluster name reaches the queries unchecked: this one ends the selector and adds another. *)
Example cluster_name_unchecked :
  memory_query (promql "x'} or up{job='y")
  = promql "container_memory_usage_bytes{image!='', container!='POD', container!='', cluster='x'} or up{job='y'}"
  /\ is_Some (validateClusterNameForPromQL (promql "x'} or up{job='y")).
Proof. by split; [vm_compute|eexists; vm_compute]. Qed.

Definition x_queried : Queried :=
  {| q_cpu := [{| Metric := {["namespace" := "default"; "pod" := "testpod"; "container" := "c1"]};
                  Values := [{| Timestamp := 1000; Value := 1%Q |}] |}];
     q_memory := []; q_cpuRequest := []; q_memoryRequest := []; q_cpuLimits := []; q_memoryLimits := [];
     q_networkTransmit := [x_stream [10%Q]]; q_networkReceive := []; q_gpuUsage := []; q_gpuRequests := [];
     q_gpuLimits := [] |}.

Definition x_combined : go (list CombinedRequest) :=
  @combine Q_Float64 (fun _ => Err "") canonical_order 0 x_queried []
    [x_workload "default" "test" [x_pod "default" "testpod" []] ["c1"; "c2"; "c3"]].

Definition x_out : list CombinedRequest := match x_combined with Ret out => out | Panic => [] end.

Lemma combine_one_entry_per_container_witness :
  x_combined = Ret x_out /\ length x_out = 3%nat
  /\ NoDup ((fun r => (ControllerNamespace (owner r), PodName (owner r), Container (owner r))) <$> x_out).
Proof.
  assert (x_combined = Ret x_out) as Hout by (vm_cast_no_check (eq_refl x_combined)).
  split; [exact Hout|]. split; [vm_cast_no_check (eq_refl 3%nat)|].
  exact (proj1 (@combine_one_entry_per_container Q_Float64 (fun _ => Err "") canonical_order 0 x_queried []
    [x_workload "default" "test" [x_pod "default" "testpod" []] ["c1"; "c2"; "c3"]] x_out Hout)).
Defined.

Definition x_answer (query : string) : result string QueryValue := Ok (MatrixValue [x_stream [1%Q]]).

Lemma query_all_not_empty_witness :
  exists q, query_all x_answer (fun _ => Err "") "" "" false false = Ret (Ok q) /\ q_memory q <> [].
Proof.
  eexists. split; [reflexivity|].
  refine (proj1 (proj1 (query_all_not_empty x_answer (fun _ => Err "") "" "" false false _ _) eq_refl)).
  reflexivity.
Defined.
