(* ===== verification/EventWatcherModels.v ===== *)
(** * event-watcher: data model

    [event-watcher/pkg/models/models.go], the Go values that an [any] can hold
    there, and timestamps in the format RFC 3339. *)

From stdpp Require Import base decidable list gmap strings.
From Stdlib Require Import ZArith Lia Ascii.
From S2P Require Import Prelude GoStrings GoText GoValues.

(** Policies by name: rule names and messages. *)
Definition policies : Type := nilmap strmap.

Definition one_policy (policy rule message : string) : policies :=
  Some {[ policy := Some {[ rule := message ]} ]}.

(** ** Time: [t.UTC().Format(time.RFC3339)], [t.Unix()] *)

Definition Unix (t : Z) : Z := t / GoTime.Second.

Definition leap (y : Z) : bool := ((y mod 4 =? 0) && negb (y mod 100 =? 0) || (y mod 400 =? 0))%Z.

(** Year, month and day of a number of days since 1970-01-01, counted in eras
    of 400 years that begin on the first of March. *)
Definition civil (days : Z) : Z * Z * Z :=
  (let z := days + 719468 in
   let era := z / 146097 in
   let doe := z mod 146097 in
   let yoe := (doe - doe / 1460 + doe / 36524 - doe / 146096) / 365 in
   let doy := doe - (365 * yoe + yoe / 4 - yoe / 100) in
   let mp := (5 * doy + 2) / 153 in
   let m := if mp <? 10 then mp + 3 else mp - 9 in
   (yoe + era * 400 + (if m <=? 2 then 1 else 0), m, doy - (153 * mp + 2) / 5 + 1))%Z.

Definition pad (width : nat) (z : Z) : string :=
  let s := fmt_d z in str (replicate (width - slen s) "0"%char ++ chars s).

Definition RFC3339 (t : Z) : string :=
  let sec := Unix t in
  let '(y, m, d) := civil (sec / 86400) in
  let r := (sec mod 86400)%Z in
  pad 4 y +:+ "-" +:+ pad 2 m +:+ "-" +:+ pad 2 d +:+ "T" +:+ pad 2 (r / 3600) +:+ ":"
    +:+ pad 2 (r / 60 mod 60) +:+ ":" +:+ pad 2 (r mod 60) +:+ "Z".

Example RFC3339_epoch : RFC3339 0 = "1970-01-01T00:00:00Z".
Proof. by vm_compute. Qed.

Example RFC3339_zero : RFC3339 GoTime.zeroTime = "0001-01-01T00:00:00Z".
Proof. by vm_compute. Qed.

Example RFC3339_leap : RFC3339 (1709210096 * GoTime.Second) = "2024-02-29T12:34:56Z".
Proof. by vm_compute. Qed.

(** ** Audit events *)

Record InsightsConfig := {
  ic_Hostname : string;
  ic_Organization : string;
  ic_Cluster : string;
  ic_Token : string
}.

Record User := { u_Username : string; u_UID : string; u_Groups : list string }.

Record ObjectRef := {
  o_Resource : string;
  o_Namespace : string;
  o_Name : string;
  o_UID : string;
  o_APIGroup : string;
  o_APIVersion : string;
  o_ResourceVersion : string;
  o_SubResource : string
}.

(** The fields of a response status that the plugin reads. *)
Record ResponseStatus := { rs_Code : Z; rs_Status : string; rs_Message : string }.

(** The fields of an audit event that the plugin reads; times are UTC. *)
Record AuditEvent := {
  ae_AuditID : string;
  ae_User : User;
  ae_ObjectRef : ObjectRef;
  ae_ResponseStatus : ResponseStatus;
  ae_Annotations : strmap;
  ae_RequestReceivedTimestamp : Z;
  ae_StageTimestamp : Z
}.

Record PolicyViolationEventModel := {
  pv_Timestamp : Z;
  pv_APIVersion : string;
  pv_APIGroup : string;
  pv_Name : string;
  pv_Namespace : string;
  pv_ResourceType : string;
  pv_User : string;
  pv_Action : string;
  pv_Message : string;
  pv_AuditID : string;
  pv_Policies : policies;
  pv_Annotations : strmap
}.

(** ** Values of type [any]

    One constructor per dynamic type that is stored.  A [types.UID] is a type of
    its own, which the assertion [.(string)] rejects. *)
Inductive any : Type :=
| ANil
| AString (s : string)
| AUID (s : string)
| AInt (z : Z)
| AMap (m : list (string * any))
| AList (l : list any)
| AStrMap (m : strmap)
| APolicies (p : policies)
| AObjectRef (o : ObjectRef)
| AStruct (fields : list (string * string))
| APointer (fields : option (list (string * string))).

(** [x.(string)] with its comma-ok; a missing key reads as nil. *)
Definition as_string (x : option any) : option string :=
  match x with
  | Some (AString s) => Some s
  | _ => None
  end.

Definition as_strmap (x : option any) : option strmap :=
  match x with
  | Some (AStrMap m) => Some m
  | _ => None
  end.

Definition as_list (x : option any) : option (list any) :=
  match x with
  | Some (AList l) => Some l
  | _ => None
  end.

(** [x == nil]. *)
Definition is_nil (x : option any) : bool :=
  match x with
  | None | Some ANil => true
  | _ => false
  end.

(** [x.(string)] without a comma-ok. *)
Definition must_string (x : option any) : go string := deref (as_string x).

(** The entry [m[k]] of a [map[string]any] inside an [any]. *)
Definition field_of (m : list (string * any)) (k : string) : option any :=
  snd <$> List.find (fun e => bool_decide (fst e = k)) m.

(** ** Watched events *)

Inductive EventType : Type := EventTypeAdded | EventTypeModified | EventTypeDeleted | EventTypeError.

Definition EventType_string (t : EventType) : string :=
  match t with
  | EventTypeAdded => "ADDED"
  | EventTypeModified => "MODIFIED"
  | EventTypeDeleted => "DELETED"
  | EventTypeError => "ERROR"
  end.

Record WatchedEvent := {
  we_EventVersion : Z;
  we_Timestamp : Z;
  we_EventTime : string;
  we_EventType : EventType;
  we_Kind : string;
  we_Namespace : string;
  we_Name : string;
  we_UID : string;
  we_Data : nilmap any;
  we_Metadata : nilmap any;
  we_EventSource : string;
  we_Success : bool;
  we_Blocked : bool
}.

Record EventReport := {
  er_EventType : string;
  er_ResourceType : string;
  er_Namespace : string;
  er_Name : string;
  er_UID : string;
  er_Timestamp : Z;
  er_Data : nilmap any;
  er_Metadata : nilmap any
}.

Record PolicyViolationEvent := {
  pe_EventReport : EventReport;
  pe_Policies : policies;
  pe_Message : string;
  pe_Blocked : bool;
  pe_Success : bool;
  pe_EventTime : string
}.

Definition kyvernoResources : list string :=
  ["PolicyReport"; "ClusterPolicyReport"; "Policy"; "ClusterPolicy"; "ValidatingAdmissionPolicy";
   "ValidatingAdmissionPolicyBinding"; "MutatingAdmissionPolicy"; "MutatingAdmissionPolicyBinding";
   "ValidatingPolicy"].

Definition IsKyvernoResource (e : WatchedEvent) : bool := bool_decide (we_Kind e ∈ kyvernoResources).

(** The first result that is a map with a string under [policy]. *)
Definition result_policy (result : any) : option string :=
  match result with
  | AMap m => as_string (field_of m "policy")
  | _ => None
  end.

Definition GetPolicyName (e : WatchedEvent) : string :=
  if negb (IsKyvernoResource e) then ""
  else if bool_decide (we_Kind e = "PolicyReport" \/ we_Kind e = "ClusterPolicyReport") then
    match as_list (map_get (we_Data e) "results") with
    | Some results => default (we_Name e) (head (omap result_policy results))
    | None => we_Name e
    end
  else we_Name e.
