(* ===== verification/EventWatcherMessages.v ===== *)
(** * event-watcher: reading denial messages

    The functions of [event-watcher/pkg/utils/utils.go] that classify the
    response of an audit event and extract the policies and the resource from
    its message.  Slices out of range panic, as in Go.  YAML is a parameter. *)

From stdpp Require Import base decidable list gmap strings.
From Stdlib Require Import ZArith Lia Ascii.
From S2P Require Import Prelude GoStrings GoText GoValues EventWatcherModels.

Definition KyvernoPolicyViolationPrefix : string := "pol-violation".
Definition ValidatingPolicyViolationPrefix : string := "vpol-violation".
Definition NamespacedValidatingPolicyViolationPrefix : string := "nvpol-violation".
Definition ImageValidatingPolicyViolationPrefix : string := "ivpol-violation".
Definition ValidatingAdmissionPolicyViolationPrefix : string := "vap-violation".
Definition AuditOnlyAllowedValidatingAdmissionPolicyPrefix : string := "audit-only-vap".
Definition AuditOnlyClusterPolicyViolationPrefix : string := "audit-only-cp".
Definition AuditOnlyValidatingPolicyViolationPrefix : string := "audit-only-vpol".
Definition AuditOnlyNamespacedValidatingPolicyViolationPrefix : string := "audit-only-nvpol".
Definition AuditOnlyImageValidatingPolicyViolationPrefix : string := "audit-only-ivpol".

(** The character that opens a quoted name. *)
Definition quote : string := String (byte 34) "".

(** ** Classification *)

Definition IsKyvernoPolicyViolation (responseCode : Z) (message : string) : bool :=
  (400 <=? responseCode)%Z && Contains message "kyverno"
  && Contains message "blocked due to the following policies".

Definition IsValidatingPolicyViolation (responseCode : Z) (message : string) : bool :=
  (400 <=? responseCode)%Z && Contains message "kyverno"
  && (Contains message (quote +:+ "vpol.") && negb (Contains message (quote +:+ "nvpol."))
      && negb (Contains message (quote +:+ "ivpol."))).

Definition IsNamespacedValidatingPolicyViolation (responseCode : Z) (message : string) : bool :=
  (400 <=? responseCode)%Z && Contains message "nvpol." && Contains message "kyverno".

Definition IsImageValidatingPolicyViolation (responseCode : Z) (message : string) : bool :=
  (400 <=? responseCode)%Z && Contains message "ivpol." && Contains message "kyverno".

Definition IsValidatingAdmissionPolicyViolation (responseCode : Z) (message : string) : bool :=
  (400 <=? responseCode)%Z && Contains message "ValidatingAdmissionPolicy".

Definition validation_failure_key : string := "validation.policy.admission.k8s.io/validation_failure".

Definition IsValidatingAdmissionPolicyViolationAuditOnlyAllowEvent (annotations : strmap) : bool :=
  let decision := get_string annotations "authorization.k8s.io/decision" in
  let validationFailure := get_string annotations validation_failure_key in
  bool_decide (decision = "allow") && negb (bool_decide (validationFailure = "")).

(** The chain of tests that [CreateBlockedPolicyViolationEvent] and the
    producers share: the first class that the response belongs to. *)
Definition by_class {A} (code : Z) (message : string) (kyverno vpol nvpol ivpol vap : A) : option A :=
  if IsKyvernoPolicyViolation code message then Some kyverno
  else if IsValidatingPolicyViolation code message then Some vpol
  else if IsNamespacedValidatingPolicyViolation code message then Some nvpol
  else if IsImageValidatingPolicyViolation code message then Some ivpol
  else if IsValidatingAdmissionPolicyViolation code message then Some vap
  else None.

Definition is_violation (code : Z) (message : string) : bool :=
  IsKyvernoPolicyViolation code message || IsValidatingPolicyViolation code message
  || IsNamespacedValidatingPolicyViolation code message || IsImageValidatingPolicyViolation code message
  || IsValidatingAdmissionPolicyViolation code message.

(** ** Extraction of policies *)

Definition denied : string := "denied the request:".
Definition denied_policy : string := "denied the request: Policy".

Section yaml.
(** [yaml.Unmarshal] of a document into an empty map of maps. *)
Context (yaml_Unmarshal : string -> result string policies).

Definition ExtractPoliciesFromMessage (message : string) : go policies :=
  allPolicies ←
    (if Contains message "admission webhook" && Contains message denied then
       let expectedText := "due to the following policies" in
       let start := IndexZ message expectedText in
       if (start =? -1)%Z then mret "" else slice_tail message (start + lenS expectedText)
     else mret "");
  mret (match yaml_Unmarshal allPolicies with
        | Ok policies => policies
        | Err _ => Some ∅
        end).
End yaml.

(** The name between the denial and [failed:].  The start is an index plus a
    length, so the test that it is not -1 always holds. *)
Definition name_before_failed (message : string) : go string :=
  let startIndex := (IndexZ message denied_policy + lenS denied_policy)%Z in
  let endIndex := IndexZ message " failed:" in
  if negb (startIndex =? -1)%Z && negb (endIndex =? -1)%Z
  then policyName ← slice message startIndex endIndex; mret (TrimSpace policyName)
  else mret "unknown".

Definition is_vpol_denial (message : string) : bool :=
  Contains message "vpol." && negb (Contains message "nvpol.") && Contains message "kyverno"
  && Contains message denied.

Definition ExtractValidatingPoliciesFromMessage (message : string) : go policies :=
  policyName ← (if is_vpol_denial message then name_before_failed message else mret "unknown");
  mret (one_policy policyName policyName message).

Definition is_nvpol_denial (message : string) : bool :=
  Contains message "nvpol." && Contains message "kyverno" && Contains message denied.

Definition ExtractNamespacedValidatingPoliciesFromMessage (message : string) : go policies :=
  policyName ← (if is_nvpol_denial message then name_before_failed message else mret "unknown");
  mret (one_policy policyName policyName message).

(** The nearest end marker after [startIndex], -1 without one. *)
Definition nearest_marker (message : string) (startIndex endIndex : Z) (marker : string) : Z :=
  (let idx := IndexZ message marker in
   if (startIndex <? idx) && ((endIndex =? -1) || (idx <? endIndex)) then idx else endIndex)%Z.

Definition is_ivpol_denial (message : string) : bool :=
  Contains message "ivpol." && Contains message "kyverno" && Contains message denied.

Definition ExtractImageValidatingPoliciesFromMessage (message : string) : go policies :=
  if negb (is_ivpol_denial message) then mret (one_policy "unknown" "unknown" message) else
  policyName ←
    (if Contains message denied_policy then
       let startIndex := (IndexZ message denied_policy + lenS denied_policy)%Z in
       let endIndex := foldl (nearest_marker message startIndex) (-1)%Z [" error:"; " failed:"] in
       if ((0 <? startIndex) && (startIndex <? endIndex))%Z
       then name ← slice message startIndex endIndex; mret (TrimSpace name)
       else mret "unknown"
     else mret "unknown");
  mret (one_policy policyName policyName message).

Definition ExtractValidatingAdmissionPoliciesFromMessage (message : string) : go policies :=
  if Contains message "ValidatingAdmissionPolicy" && Contains message "denied request:" then
    name ← slice message (IndexZ message "ValidatingAdmissionPolicy" + lenS "ValidatingAdmissionPolicy")
                 (IndexZ message " with binding ");
    let policyName := TrimSpace (ReplaceAll name "'" "") in
    mret (one_policy policyName policyName message)
  else mret (Some ∅).

Definition policy_field : string := quote +:+ "policy" +:+ quote +:+ ":".

Definition ExtractAuditOnlyAllowedValidatingAdmissionPoliciesFromMessage (annotations : strmap) : go policies :=
  let validationFailure := get_string annotations validation_failure_key in
  let startIndex := (IndexZ validationFailure policy_field + lenS policy_field)%Z in
  policyName ←
    (if negb (startIndex =? -1)%Z then
       substring ← slice_tail validationFailure startIndex;
       mret (match Cut substring "," with
             | Some (before, _) => ReplaceAll before quote ""
             | None => "unknown"
             end)
     else mret "unknown");
  mret (one_policy policyName policyName validationFailure).

(** The rule between the first brackets of an event's message.  The four
    functions that use it have the same body. *)
Definition rule_in_brackets (policyName message : string) : go string :=
  let startIndex := IndexZ message "[" in
  let endIndex := IndexZ message "]" in
  if negb (startIndex =? -1)%Z && negb (endIndex =? -1)%Z
  then ruleName ← slice message (startIndex + 1) endIndex; mret (TrimSpace ruleName)
  else mret policyName.

Definition ExtractAuditOnlyClusterPoliciesFromMessage (policyName message : string) : go policies :=
  ruleName ← rule_in_brackets policyName message; mret (one_policy policyName ruleName message).

Definition ExtractAuditOnlyValidatingPoliciesFromMessage (policyName message : string) : go policies :=
  ruleName ← rule_in_brackets policyName message; mret (one_policy policyName ruleName message).

Definition ExtractAuditOnlyNamespacedValidatingPoliciesFromMessage (policyName message : string) : go policies :=
  ruleName ← rule_in_brackets policyName message; mret (one_policy policyName ruleName message).

Definition ExtractAuditOnlyImageValidatingPoliciesFromMessage (policyName message : string) : go policies :=
  ruleName ← rule_in_brackets policyName message; mret (one_policy policyName ruleName message).

(** ** Extraction of the resource

    Resource, namespace and name of the object, read from the message when the
    reference of the audit event has no UID. *)
Definition extractObjectRefFromMessage (policyMessage : string) (objectRef : ObjectRef)
  : go (string * string * string) :=
  let resource := o_Resource objectRef in
  let namespace := o_Namespace objectRef in
  let name := o_Name objectRef in
  if negb (bool_decide (o_UID objectRef = "")) then mret (resource, namespace, name) else
  let index := IndexZ policyMessage denied in
  if (index =? -1)%Z then mret (resource, namespace, name) else
  subText ← slice_tail policyMessage (index + lenS denied);
  let index := IndexZ subText "resource " in
  if (index =? -1)%Z then mret (resource, namespace, name) else
  subText ← slice_tail subText (index + lenS "resource ");
  let index := IndexZ subText "/" in
  if (index =? -1)%Z then mret (resource, namespace, name) else
  resource ← slice subText 0 index;
  subText ← slice_tail subText (index + 1);
  let index := IndexZ subText "/" in
  if (index =? -1)%Z then mret (resource, namespace, name) else
  namespace ← slice subText 0 index;
  let finalIndex := IndexZ subText " was blocked" in
  if (finalIndex =? -1)%Z then mret (resource, namespace, name) else
  name ← slice subText (index + 1) finalIndex;
  mret (resource, namespace, name).

(** ** Classification: theorems *)

Lemma by_class_is_violation {A} code message (a b c d e : A) :
  is_Some (by_class code message a b c d e) <-> is_violation code message = true.
Proof.
  unfold by_class, is_violation. repeat case_match; simpl; split; intros; try done; by eexists.
Qed.

(** A class is only ever given to an error response. *)
Lemma violation_code code message : is_violation code message = true -> (400 <= code)%Z.
Proof.
  unfold is_violation, IsKyvernoPolicyViolation, IsValidatingPolicyViolation,
    IsNamespacedValidatingPolicyViolation, IsImageValidatingPolicyViolation,
    IsValidatingAdmissionPolicyViolation.
  destruct (400 <=? code)%Z eqn:E; [lia|]. done.
Qed.

(** ** When extraction panics *)

Lemma go_bind_panic {A B} (m : go A) (f : A -> go B) :
  m ≫= f = Panic <-> m = Panic \/ exists a, m = Ret a /\ f a = Panic.
Proof.
  destruct m as [a|]; simpl; [|naive_solver]. split; [by eauto|]. by intros [?|(? & [= <-] & ?)].
Qed.

(** An index with its substring ends inside the string; without an occurrence
    it ends before the substring's own length. *)
Lemma IndexZ_end_bounds s sub :
  (-1 <= IndexZ s sub)%Z /\ (Contains s sub = true -> 0 <= IndexZ s sub /\ IndexZ s sub + lenS sub <= lenS s)%Z.
Proof.
  split; [|apply IndexZ_range]. destruct (Contains s sub) eqn:E.
  - apply IndexZ_range in E. lia.
  - apply IndexZ_none in E. lia.
Qed.

Lemma name_before_failed_panics message :
  name_before_failed message = Panic <->
  Contains message " failed:" = true
  /\ (IndexZ message " failed:" < IndexZ message denied_policy + lenS denied_policy)%Z.
Proof.
  unfold name_before_failed.
  destruct (IndexZ_end_bounds message denied_policy) as [Hs _].
  assert (Hl : lenS denied_policy = 26%Z) by done.
  rewrite (proj2 (Z.eqb_neq _ _)) by lia. simpl.
  destruct (Contains message " failed:") eqn:E.
  - destruct (IndexZ_range _ _ E) as [H1 H2]. rewrite (proj2 (Z.eqb_neq (IndexZ _ _) _)) by lia. simpl.
    rewrite go_bind_panic, slice_panics. pose proof (lenS_nonneg " failed:").
    split; [intros [?|(? & _ & ?)]; [split; [done|lia]|done]|intros [_ ?]; left; lia].
  - apply IndexZ_none in E as ->. simpl. split; [done|by intros [? _]].
Qed.

Lemma one_policy_panics (m : go string) (f : string -> policies) :
  (n ← m; mret (f n)) = Panic <-> m = Panic.
Proof. rewrite go_bind_panic. split; [by intros [?|(? & _ & ?)]|by left]. Qed.

(** The names of ValidatingPolicies and NamespacedValidatingPolicies are read
    without panicking except for one kind of message: a denial of the class in
    which the text [failed:] comes before the end of the words that precede a
    policy's name, for which the slice is out of range. *)
Theorem policy_extraction_panics message :
  (ExtractValidatingPoliciesFromMessage message = Panic
   \/ ExtractNamespacedValidatingPoliciesFromMessage message = Panic) <->
  (is_vpol_denial message = true \/ is_nvpol_denial message = true)
  /\ Contains message " failed:" = true
  /\ (IndexZ message " failed:" < IndexZ message denied_policy + lenS denied_policy)%Z.
Proof.
  unfold ExtractValidatingPoliciesFromMessage, ExtractNamespacedValidatingPoliciesFromMessage.
  rewrite !one_policy_panics, <-name_before_failed_panics.
  destruct (is_vpol_denial message), (is_nvpol_denial message); naive_solver.
Qed.

(** Any webhook message may quote the word before the denial. *)
Example vpol_panics :
  ExtractValidatingPoliciesFromMessage
    ("request failed: admission webhook " +:+ quote +:+ "vpol.validate.kyverno.svc" +:+ quote
     +:+ " denied the request: Policy p is violated") = Panic.
Proof. by vm_compute. Qed.

Lemma rule_in_brackets_panics p message :
  rule_in_brackets p message = Panic <->
  Contains message "[" = true /\ Contains message "]" = true
  /\ (IndexZ message "]" < IndexZ message "[")%Z.
Proof.
  unfold rule_in_brackets.
  destruct (Contains message "[") eqn:E1, (Contains message "]") eqn:E2;
    try (apply IndexZ_none in E1 as ->; simpl; naive_solver).
  - destruct (IndexZ_range _ _ E1) as [H1 H2], (IndexZ_range _ _ E2) as [H3 H4].
    assert (Hl : lenS "[" = 1%Z) by done. assert (Hr : lenS "]" = 1%Z) by done.
    rewrite !(proj2 (Z.eqb_neq (IndexZ _ _) _)) by lia. simpl.
    rewrite go_bind_panic, slice_panics.
    assert (Hne : IndexZ message "]" <> IndexZ message "[").
    { intros He. unfold IndexZ, IndexStr in *.
      destruct (index_str_aux (chars "[") 0 _) as [i|] eqn:Ei; [|lia].
      destruct (index_str_aux (chars "]") 0 _) as [j|] eqn:Ej; [|lia].
      apply index_str_aux_Some in Ei as (_ & _ & [k1 Hk1]), Ej as (_ & _ & [k2 Hk2]).
      assert (i = j) as -> by lia. rewrite Hk1 in Hk2. done. }
    split; [intros [?|(? & _ & ?)]; [split_and!; try done; lia|done]|intros (_ & _ & ?); left; lia].
  - apply IndexZ_none in E2 as ->. rewrite andb_false_r. simpl. naive_solver.
Qed.

(** A ValidatingAdmissionPolicy denial without a binding, or with the word before
    the policy, is out of range. *)
Lemma vap_extraction_panics message :
  ExtractValidatingAdmissionPoliciesFromMessage message = Panic <->
  Contains message "ValidatingAdmissionPolicy" = true /\ Contains message "denied request:" = true
  /\ (IndexZ message " with binding "
      < IndexZ message "ValidatingAdmissionPolicy" + lenS "ValidatingAdmissionPolicy")%Z.
Proof.
  unfold ExtractValidatingAdmissionPoliciesFromMessage.
  destruct (Contains message "ValidatingAdmissionPolicy") eqn:E1; [|naive_solver].
  destruct (Contains message "denied request:") eqn:E2; [|naive_solver]. simpl.
  destruct (IndexZ_range _ _ E1) as [H1 H2].
  rewrite go_bind_panic, slice_panics.
  assert (Hb : (IndexZ message " with binding " <= lenS message)%Z).
  { destruct (Contains message " with binding ") eqn:E3.
    - apply IndexZ_range in E3. pose proof (lenS_nonneg " with binding "). lia.
    - apply IndexZ_none in E3 as ->. pose proof (lenS_nonneg message). lia. }
  assert (Hv : lenS "ValidatingAdmissionPolicy" = 25%Z) by done.
  split; [intros [?|(? & _ & ?)]; [split_and!; try done; lia|done]|intros (_ & _ & ?); left; lia].
Qed.

(** A message that mentions the kind and a denied request crashes the watcher. *)
Example vap_without_binding_panics :
  ExtractValidatingAdmissionPoliciesFromMessage
    "ValidatingAdmissionPolicy 'p' denied request: no binding" = Panic.
Proof. by vm_compute. Qed.

(** Images are read safely. *)
Lemma nearest_marker_range message start e marker :
  (e = -1 \/ start < e <= lenS message)%Z ->
  (nearest_marker message start e marker = -1
   \/ start < nearest_marker message start e marker <= lenS message)%Z.
Proof.
  intros He. unfold nearest_marker. destruct (start <? IndexZ message marker)%Z eqn:E; [|done]. simpl.
  destruct (_ || _); [|done]. right. split; [lia|].
  destruct (Contains message marker) eqn:E3.
  - apply IndexZ_range in E3. pose proof (lenS_nonneg marker). lia.
  - apply IndexZ_none in E3 as ->. pose proof (lenS_nonneg message). lia.
Qed.

Lemma ivpol_extraction_returns message : returns (ExtractImageValidatingPoliciesFromMessage message).
Proof.
  unfold ExtractImageValidatingPoliciesFromMessage. destruct (is_ivpol_denial message); [|apply returns_ret].
  simpl. apply returns_bind; [|intros; apply returns_ret].
  destruct (Contains message denied_policy) eqn:E; [|apply returns_ret].
  pose proof (IndexZ_range _ _ E) as [H1 H2].
  set (start := (IndexZ message denied_policy + lenS denied_policy)%Z) in *.
  assert (He : (foldl (nearest_marker message start) (-1) [" error:"; " failed:"] = -1
    \/ start < foldl (nearest_marker message start) (-1) [" error:"; " failed:"] <= lenS message)%Z).
  { simpl. apply nearest_marker_range, nearest_marker_range. by left. }
  cbn [foldl] in *. set (e := nearest_marker _ _ _ " failed:") in *.
  destruct ((0 <? start) && (start <? e))%Z eqn:Eb; [|apply returns_ret].
  apply andb_prop in Eb as [? ?]. apply returns_bind; [|intros; apply returns_ret].
  apply slice_returns; lia.
Qed.

(** ** What extraction reads *)

Lemma append_assoc (a b c : string) : (a +:+ b) +:+ c = a +:+ b +:+ c.
Proof. apply chars_inj. by rewrite !chars_app, <-app_assoc. Qed.

Lemma slice_between pre sub mid post :
  slice (pre +:+ sub +:+ mid +:+ post) (lenS pre + lenS sub) (lenS (pre +:+ sub +:+ mid)) = Ret mid.
Proof.
  rewrite <-append_assoc, <-lenS_app. rewrite <-(append_assoc pre sub mid), (lenS_app (pre +:+ sub)).
  apply slice_middle.
Qed.

Lemma lenS_eqb_neg s z : (0 <= z)%Z -> ((lenS s + z =? -1) = false)%Z.
Proof. intros. apply Z.eqb_neq. pose proof (lenS_nonneg s). lia. Qed.

(** The text between a first marker and a first end marker. *)
Lemma name_before_failed_reads pre name post :
  first_after pre denied_policy = true ->
  first_after (pre +:+ denied_policy +:+ name) " failed:" = true ->
  name_before_failed (pre +:+ denied_policy +:+ name +:+ " failed:" +:+ post) = Ret (TrimSpace name).
Proof.
  intros H1 H2. unfold name_before_failed. rewrite (IndexZ_first pre _ _ H1).
  rewrite lenS_eqb_neg by apply lenS_nonneg.
  assert (E : IndexZ (pre +:+ denied_policy +:+ name +:+ " failed:" +:+ post) " failed:"
              = lenS (pre +:+ denied_policy +:+ name)).
  { rewrite <-(IndexZ_first _ _ post H2). by rewrite !append_assoc. }
  rewrite E. rewrite (proj2 (Z.eqb_neq _ _)) by (pose proof (lenS_nonneg (pre +:+ denied_policy +:+ name)); lia).
  cbn [negb andb]. by rewrite slice_between.
Qed.

(** A denial of the documented form is read back: when the first denial is
    followed by a name and the first [failed:] comes after the name, the policy
    reported for a ValidatingPolicy and for a NamespacedValidatingPolicy is that
    name without the spaces around it, with the whole message under it. *)
Theorem denied_policy_name_read pre name post :
  let message := pre +:+ denied_policy +:+ name +:+ " failed:" +:+ post in
  first_after pre denied_policy = true ->
  first_after (pre +:+ denied_policy +:+ name) " failed:" = true ->
  (is_vpol_denial message = true ->
   ExtractValidatingPoliciesFromMessage message = Ret (one_policy (TrimSpace name) (TrimSpace name) message))
  /\ (is_nvpol_denial message = true ->
      ExtractNamespacedValidatingPoliciesFromMessage message
      = Ret (one_policy (TrimSpace name) (TrimSpace name) message)).
Proof.
  intros message H1 H2.
  unfold ExtractValidatingPoliciesFromMessage, ExtractNamespacedValidatingPoliciesFromMessage.
  split; intros ->; unfold message; by rewrite name_before_failed_reads.
Qed.

Lemma denied_policy_name_read_witness :
  let pre := "admission webhook " +:+ quote +:+ "nvpol.validate.kyverno.svc-fail" +:+ quote +:+ " " in
  let message := pre +:+ denied_policy +:+ " check-deployment-replicas" +:+ " failed:" +:+ " too few" in
  ExtractNamespacedValidatingPoliciesFromMessage message
  = Ret (one_policy "check-deployment-replicas" "check-deployment-replicas" message).
Proof.
  intros pre message.
  exact (proj2 (denied_policy_name_read pre " check-deployment-replicas" " too few" eq_refl eq_refl) eq_refl).
Defined.

Lemma not_elem_of_decide (c : ascii) (l : list ascii) : bool_decide (c ∉ l) = true -> c ∉ l.
Proof. apply bool_decide_eq_true. Qed.

Lemma IndexZ_slash kind rest : "/"%char ∉ chars kind -> IndexZ (kind +:+ "/" +:+ rest) "/" = lenS kind.
Proof.
  intros H. apply IndexZ_first. unfold first_after. simpl. rewrite app_nil_r.
  destruct (contains_aux _ _) eqn:E; [|done]. exfalso. apply contains_aux_spec in E as (a & b & E).
  apply H. rewrite E. simpl. set_solver.
Qed.

(** The resource is read back from a message of the documented form: when the
    reference has no UID, and after the denial the message says
    [resource kind/namespace/name was blocked], with no slash in kind and
    namespace, then kind, namespace and name are the ones extracted. *)
Theorem objectRef_read pre mid kind ns name post o :
  let message := pre +:+ denied +:+ mid +:+ "resource " +:+ kind +:+ "/" +:+ ns +:+ "/" +:+ name
                 +:+ " was blocked" +:+ post in
  o_UID o = "" -> first_after pre denied = true -> first_after mid "resource " = true ->
  "/"%char ∉ chars kind -> "/"%char ∉ chars ns ->
  first_after (ns +:+ "/" +:+ name) " was blocked" = true ->
  extractObjectRefFromMessage message o = Ret (kind, ns, name).
Proof.
  intros message Hu H1 H2 H3 H4 H5. unfold extractObjectRefFromMessage.
  rewrite bool_decide_eq_true_2 by done. unfold message. cbn [negb].
  rewrite (IndexZ_first pre _ _ H1). rewrite (proj2 (Z.eqb_neq (lenS pre) _)) by (pose proof (lenS_nonneg pre); lia).
  rewrite <-append_assoc, <-lenS_app, slice_tail_after. cbn [mbind go_bind].
  rewrite (IndexZ_first mid _ _ H2). rewrite (proj2 (Z.eqb_neq (lenS mid) _)) by (pose proof (lenS_nonneg mid); lia).
  rewrite <-append_assoc, <-lenS_app, slice_tail_after. cbn [mbind go_bind].
  rewrite IndexZ_slash by done. rewrite (proj2 (Z.eqb_neq (lenS kind) _)) by (pose proof (lenS_nonneg kind); lia).
  set (rest := ns +:+ "/" +:+ name +:+ " was blocked" +:+ post).
  assert (Hk : slice (kind +:+ "/" +:+ rest) 0 (lenS kind) = Ret kind) by exact (slice_middle "" kind _).
  rewrite Hk. cbn [mbind go_bind].
  assert (Ht : slice_tail (kind +:+ "/" +:+ rest) (lenS kind + 1) = Ret rest).
  { change 1%Z with (lenS "/"). by rewrite <-append_assoc, <-lenS_app, slice_tail_after. }
  rewrite Ht. cbn [mbind go_bind]. unfold rest. rewrite IndexZ_slash by done.
  rewrite (proj2 (Z.eqb_neq (lenS ns) _)) by (pose proof (lenS_nonneg ns); lia).
  assert (Hn : slice (ns +:+ "/" +:+ name +:+ " was blocked" +:+ post) 0 (lenS ns) = Ret ns)
    by exact (slice_middle "" ns _).
  rewrite Hn. cbn [mbind go_bind].
  assert (Hb : IndexZ (ns +:+ "/" +:+ name +:+ " was blocked" +:+ post) " was blocked" = lenS (ns +:+ "/" +:+ name)).
  { rewrite <-(IndexZ_first _ _ post H5). by rewrite !append_assoc. }
  rewrite Hb, (proj2 (Z.eqb_neq (lenS (ns +:+ "/" +:+ name)) _))
    by (pose proof (lenS_nonneg (ns +:+ "/" +:+ name)); lia).
  change 1%Z with (lenS "/"). by rewrite slice_between.
Qed.

Lemma objectRef_read_witness :
  let o := {| o_Resource := "pods"; o_Namespace := ""; o_Name := ""; o_UID := ""; o_APIGroup := "";
              o_APIVersion := "v1"; o_ResourceVersion := ""; o_SubResource := "" |} in
  extractObjectRefFromMessage
    ("admission webhook denied the request: " +:+ "resource Pod/insights-agent/workloads-vt4pm was blocked due to") o
  = Ret ("Pod", "insights-agent", "workloads-vt4pm").
Proof.
  intros o.
  exact (objectRef_read "admission webhook " " " "Pod" "insights-agent" "workloads-vt4pm" " due to" o
           eq_refl eq_refl eq_refl ltac:(apply not_elem_of_decide; reflexivity)
           ltac:(apply not_elem_of_decide; reflexivity) eq_refl).
Defined.

(** A message that has the words but not the form is out of range. *)
Example objectRef_panics o :
  o_UID o = "" ->
  extractObjectRefFromMessage "denied the request: resource Pod/web was blocked by policy a/b" o = Panic.
Proof. intros H. unfold extractObjectRefFromMessage. by rewrite H. Qed.

(** The rule of an event of a policy in audit mode. *)
Lemma rule_in_brackets_reads p pre rule post :
  first_after pre "[" = true -> first_after (pre +:+ "[" +:+ rule) "]" = true ->
  rule_in_brackets p (pre +:+ "[" +:+ rule +:+ "]" +:+ post) = Ret (TrimSpace rule).
Proof.
  intros H1 H2. unfold rule_in_brackets. rewrite (IndexZ_first pre _ _ H1).
  assert (E : IndexZ (pre +:+ "[" +:+ rule +:+ "]" +:+ post) "]" = lenS (pre +:+ "[" +:+ rule)).
  { rewrite <-(IndexZ_first _ _ post H2). by rewrite !append_assoc. }
  rewrite E. rewrite !(proj2 (Z.eqb_neq (lenS _) _))
    by (pose proof (lenS_nonneg pre); pose proof (lenS_nonneg (pre +:+ "[" +:+ rule)); lia).
  cbn [negb andb]. change 1%Z with (lenS "["). by rewrite slice_between.
Qed.
