(* ===== verification/EventWatcherEvents.v ===== *)
(** * event-watcher: events, their channel, and sending

    The rest of [event-watcher/pkg/utils/utils.go]: violations made from audit
    events, watched events made from violations and offered to the bounded
    channel, and [SendToInsights] with its cache of processed identifiers.  JSON,
    HTTP and the cache are parameters. *)

From stdpp Require Import base decidable list gmap strings.
From Stdlib Require Import ZArith Lia Ascii.
From S2P Require Import Prelude GoStrings GoText GoValues EventWatcherModels EventWatcherMessages.

(** ** The event channel

    A buffered channel and the receivers that wait on it.  A send that does not
    block succeeds while the events in it are fewer than its capacity and the
    waiting receivers together. *)
Record chan := {
  ch_capacity : nat;
  ch_waiting : nat;
  ch_events : list WatchedEvent
}.

Definition ch_room (c : chan) : bool := length (ch_events c) <? ch_capacity c + ch_waiting c.

Definition ch_push (e : WatchedEvent) (c : chan) : chan :=
  {| ch_capacity := ch_capacity c; ch_waiting := ch_waiting c; ch_events := ch_events c ++ [e] |}.

(** [select { case ch <- e: ...; default: ... }]. *)
Definition try_send (e : WatchedEvent) (c : chan) : chan * bool :=
  if ch_room c then (ch_push e c, true) else (c, false).

(** ** Violations from audit events *)

Definition dashed (a b c d : string) : string := a +:+ "-" +:+ b +:+ "-" +:+ c +:+ "-" +:+ d.

Section events.
Context (yaml_Unmarshal : string -> result string policies).

(** The extraction that goes with the class of a response. *)
Definition extract_policies (code : Z) (message : string) : option (go policies) :=
  by_class code message
    (ExtractPoliciesFromMessage yaml_Unmarshal message)
    (ExtractValidatingPoliciesFromMessage message)
    (ExtractNamespacedValidatingPoliciesFromMessage message)
    (ExtractImageValidatingPoliciesFromMessage message)
    (ExtractValidatingAdmissionPoliciesFromMessage message).

Definition violation_prefix (code : Z) (message : string) : option string :=
  by_class code message KyvernoPolicyViolationPrefix ValidatingPolicyViolationPrefix
    NamespacedValidatingPolicyViolationPrefix ImageValidatingPolicyViolationPrefix
    ValidatingAdmissionPolicyViolationPrefix.

Definition ae_Code (ae : AuditEvent) : Z := rs_Code (ae_ResponseStatus ae).
Definition ae_Message (ae : AuditEvent) : string := rs_Message (ae_ResponseStatus ae).

Definition CreateBlockedPolicyViolationEvent (auditEvent : AuditEvent)
  : go (option PolicyViolationEventModel) :=
  let code := ae_Code auditEvent in
  let message := ae_Message auditEvent in
  if negb (is_violation code message) then mret None else
  let objectRef := ae_ObjectRef auditEvent in
  '(resource, namespace, name) ← extractObjectRefFromMessage message objectRef;
  policies ← default (mret (Some ∅)) (extract_policies code message);
  let name := match violation_prefix code message with
              | Some prefix => dashed prefix resource name (ae_AuditID auditEvent)
              | None => name
              end in
  mret (Some {| pv_Timestamp := ae_RequestReceivedTimestamp auditEvent;
                pv_APIVersion := o_APIVersion objectRef;
                pv_APIGroup := o_APIGroup objectRef;
                pv_Name := name;
                pv_Namespace := namespace;
                pv_ResourceType := resource;
                pv_User := u_Username (ae_User auditEvent);
                pv_Action := rs_Status (ae_ResponseStatus auditEvent);
                pv_Message := message;
                pv_AuditID := ae_AuditID auditEvent;
                pv_Policies := policies;
                pv_Annotations := None |}).

(** Here the name is first made with the Kyverno prefix, and for the other
    classes the result is put behind a second prefix. *)
Definition watched_name (code : Z) (message resource name auditID : string) : string :=
  let name := dashed KyvernoPolicyViolationPrefix resource name auditID in
  if IsValidatingPolicyViolation code message
  then dashed ValidatingPolicyViolationPrefix resource name auditID
  else if IsNamespacedValidatingPolicyViolation code message
  then dashed NamespacedValidatingPolicyViolationPrefix resource name auditID
  else if IsImageValidatingPolicyViolation code message
  then dashed ImageValidatingPolicyViolationPrefix resource name auditID
  else if IsValidatingAdmissionPolicyViolation code message
  then dashed ValidatingAdmissionPolicyViolationPrefix resource name auditID
  else name.

Definition CreateBlockedWatchedEventFromAuditEvent (auditEvent : AuditEvent) : go (option WatchedEvent) :=
  let code := ae_Code auditEvent in
  let policyMessage := ae_Message auditEvent in
  if negb (is_violation code policyMessage) then mret None else
  policies ← default (mret (Some ∅)) (extract_policies code policyMessage);
  let objectRef := ae_ObjectRef auditEvent in
  '(resource, namespace, name) ← extractObjectRefFromMessage policyMessage objectRef;
  let reason := if (400 <=? code)%Z then "Blocked" else "Allowed" in
  let name := watched_name code policyMessage resource name (ae_AuditID auditEvent) in
  let stage := ae_StageTimestamp auditEvent in
  mret (Some {| we_EventVersion := 0;
                we_Timestamp := Unix stage;
                we_EventTime := RFC3339 stage;
                we_EventType := EventTypeAdded;
                we_Kind := resource;
                we_Namespace := namespace;
                we_Name := name;
                we_UID := ae_AuditID auditEvent;
                we_Data := Some (list_to_map [
                  ("reason", AString reason); ("message", AString policyMessage);
                  ("source", AMap [("component", AString "cloudwatch")]);
                  ("involvedObject", AObjectRef objectRef);
                  ("firstTimestamp", AString (RFC3339 (ae_RequestReceivedTimestamp auditEvent)));
                  ("lastTimestamp", AString (RFC3339 stage));
                  ("annotations", AStrMap (ae_Annotations auditEvent))]);
                we_Metadata := Some (list_to_map [
                  ("audit_id", AString (ae_AuditID auditEvent)); ("policies", APolicies policies);
                  ("resource_name", AString name); ("namespace", AString namespace);
                  ("action", AString reason); ("message", AString policyMessage);
                  ("timestamp", AString (RFC3339 stage)); ("event_time", AString (RFC3339 stage))]);
                we_EventSource := "";
                we_Success := false;
                we_Blocked := true |}).

(** ** Watched events from violations *)

Definition blocked_watched_event (now : Z) (violation : PolicyViolationEventModel) : WatchedEvent :=
  let ts := if negb (GoTime.IsZero (pv_Timestamp violation)) then now else pv_Timestamp violation in
  let stamp := AString (RFC3339 (pv_Timestamp violation)) in
  {| we_EventVersion := 0;
     we_Timestamp := Unix ts;
     we_EventTime := RFC3339 ts;
     we_EventType := EventTypeAdded;
     we_Kind := pv_ResourceType violation;
     we_Namespace := pv_Namespace violation;
     we_Name := pv_Name violation;
     we_UID := pv_AuditID violation;
     we_Data := Some (list_to_map [
       ("reason", AString (pv_Action violation)); ("type", AString "Warning");
       ("message", AString (pv_Message violation)); ("policies", APolicies (pv_Policies violation));
       ("source", AMap [("component", AString "audit-log-handler")]);
       ("involvedObject", AMap [
          ("apiVersion", AString (pv_APIVersion violation)); ("apiGroup", AString (pv_APIGroup violation));
          ("kind", AString (pv_ResourceType violation)); ("resourceType", AString (pv_ResourceType violation));
          ("name", AString (pv_Name violation)); ("namespace", AString (pv_Namespace violation));
          ("uid", AString (pv_AuditID violation))]);
       ("firstTimestamp", stamp); ("lastTimestamp", stamp); ("count", AInt 1);
       ("annotations", AStrMap (pv_Annotations violation))]);
     we_Metadata := Some (list_to_map [
       ("audit_id", AString (pv_AuditID violation)); ("annotations", AStrMap (pv_Annotations violation));
       ("policies", APolicies (pv_Policies violation)); ("resource_name", AString (pv_Name violation));
       ("namespace", AString (pv_Namespace violation)); ("action", AString (pv_Action violation));
       ("message", AString (pv_Message violation)); ("timestamp", stamp); ("event_time", stamp)]);
     we_EventSource := "";
     we_Success := false;
     we_Blocked := true |}.

Definition CreateBlockedWatchedEventFromPolicyViolationEvent
  (now : Z) (violation : option PolicyViolationEventModel) (eventChannel : chan) : chan * result string unit :=
  match violation with
  | None => (eventChannel, Err "policy violation event is nil")
  | Some violation =>
      let '(eventChannel, sent) := try_send (blocked_watched_event now violation) eventChannel in
      (eventChannel, if sent then Ok tt else Err "event channel full")
  end.

Definition CreateValidatingAdmissionPolicyViolationAuditOnlyAllowEvent (auditEvent : AuditEvent)
  : go (option PolicyViolationEventModel) :=
  if negb (IsValidatingAdmissionPolicyViolationAuditOnlyAllowEvent (ae_Annotations auditEvent)) then mret None else
  policies ← ExtractAuditOnlyAllowedValidatingAdmissionPoliciesFromMessage (ae_Annotations auditEvent);
  let objectRef := ae_ObjectRef auditEvent in
  mret (Some {| pv_Timestamp := ae_RequestReceivedTimestamp auditEvent;
                pv_APIVersion := o_APIVersion objectRef;
                pv_APIGroup := o_APIGroup objectRef;
                pv_Name := o_Name objectRef;
                pv_Namespace := o_Namespace objectRef;
                pv_ResourceType := o_Resource objectRef;
                pv_User := u_Username (ae_User auditEvent);
                pv_Action := rs_Status (ae_ResponseStatus auditEvent);
                pv_Message := rs_Message (ae_ResponseStatus auditEvent);
                pv_AuditID := ae_AuditID auditEvent;
                pv_Policies := policies;
                pv_Annotations := ae_Annotations auditEvent |}).

Definition audit_only_watched_event (pv : PolicyViolationEventModel) : WatchedEvent :=
  let stamp := RFC3339 (pv_Timestamp pv) in
  {| we_EventVersion := 0;
     we_Timestamp := Unix (pv_Timestamp pv);
     we_EventTime := stamp;
     we_EventType := EventTypeAdded;
     we_Kind := pv_ResourceType pv;
     we_Namespace := pv_Namespace pv;
     we_Name := dashed AuditOnlyAllowedValidatingAdmissionPolicyPrefix (pv_ResourceType pv) (pv_Name pv)
                  (pv_AuditID pv);
     we_UID := pv_AuditID pv;
     we_Data := Some (list_to_map [
       ("reason", AString (pv_Action pv)); ("message", AString (pv_Message pv));
       ("source", AMap [("component", AString "cloudwatch")]);
       ("involvedObject", AMap [
          ("apiVersion", AString (pv_APIVersion pv)); ("apiGroup", AString (pv_APIGroup pv));
          ("kind", AString (pv_ResourceType pv)); ("name", AString (pv_Name pv));
          ("namespace", AString (pv_Namespace pv)); ("uid", AString (pv_AuditID pv))]);
       ("firstTimestamp", AString stamp); ("lastTimestamp", AString stamp);
       ("annotations", AStrMap (pv_Annotations pv))]);
     we_Metadata := Some (list_to_map [
       ("audit_id", AString (pv_AuditID pv)); ("policies", APolicies (pv_Policies pv));
       ("resource_type", AString (pv_ResourceType pv)); ("api_group", AString (pv_APIGroup pv));
       ("api_version", AString (pv_APIVersion pv)); ("name", AString (pv_Name pv));
       ("namespace", AString (pv_Namespace pv)); ("action", AString (pv_Action pv));
       ("message", AString (pv_Message pv)); ("timestamp", AString stamp); ("event_time", AString stamp)]);
     we_EventSource := "";
     we_Success := false;
     we_Blocked := false |}.

Definition CreateAuditOnlyAllowWatchedEventFromValidatingAdmissionPolicyViolation
  (policyViolationEvent : option PolicyViolationEventModel) (eventChannel : chan) : chan :=
  match policyViolationEvent with
  | None => eventChannel
  | Some pv => fst (try_send (audit_only_watched_event pv) eventChannel)
  end.
End events.

(** ** The cache of processed identifiers

    What the code uses of [bigcache]: entries may be evicted or expire at any
    time, so [Set] promises no more than that the new entry is there when it
    reports success, and that no other entry appears. *)
Class BigCache (C : Type) := {
  cache_Get : C -> string -> option string;
  cache_Set : C -> string -> string -> C * bool
}.

Class BigCacheLaws (C : Type) `{!BigCache C} : Prop := {
  Get_Set_same c k v : snd (cache_Set c k v) = true -> cache_Get (fst (cache_Set c k v)) k = Some v;
  Get_Set_new c k v j w :
    cache_Get (fst (cache_Set c k v)) j = Some w -> cache_Get c j = Some w \/ (j = k /\ w = v)
}.

(** A cache without a bound. *)
#[export] Instance gmap_BigCache : BigCache (gmap string string) := {
  cache_Get c k := c !! k;
  cache_Set c k v := (<[k := v]> c, true)
}.

#[export] Instance gmap_BigCacheLaws : BigCacheLaws (gmap string string).
Proof.
  split; simpl.
  - intros c k v _. apply lookup_insert_eq.
  - intros c k v j w [[<- <-]|[_ ?]]%lookup_insert_Some; auto.
Qed.

(** ** [SendToInsights] *)

Record request := {
  rq_url : string;
  rq_headers : gmap string string;
  rq_body : string
}.

Inductive send_error : Type :=
| MarshalError
| RequestError
| DoError (msg : string)
| StatusError (code : Z).

(** The world outside: encoding, requests and their answers. *)
Class InsightsAPI (W : Type) := {
  json_Marshal : PolicyViolationEvent -> option string;
  valid_url : string -> bool;
  Do : request -> W -> W * result string Z
}.

Section send.
Context {C W : Type} `{!BigCache C} `{!InsightsAPI W}.
Context (Version : string) (config : InsightsConfig).

Definition IsPolicyViolationAlreadyProcessed (cache : C) (uid : string) : bool :=
  match cache_Get cache uid with
  | Some _ => true
  | None => false
  end.

Definition violations_url : string :=
  ic_Hostname config +:+ "/v0/organizations/" +:+ ic_Organization config +:+ "/clusters/" +:+ ic_Cluster config
    +:+ "/data/watcher/policy-violations".

Definition violation_request (jsonData : string) : request :=
  {| rq_url := violations_url;
     rq_headers := list_to_map [("Content-Type", "application/json");
                                ("Authorization", "Bearer " +:+ ic_Token config);
                                ("X-Fairwinds-Watcher-Version", Version)];
     rq_body := jsonData |}.

Definition SendToInsights (violationEvent : PolicyViolationEvent) (s : C * W) : C * W * result send_error unit :=
  let '(cache, w) := s in
  let uid := er_UID (pe_EventReport violationEvent) in
  if IsPolicyViolationAlreadyProcessed cache uid then (cache, w, Ok tt) else
  match json_Marshal violationEvent with
  | None => (cache, w, Err MarshalError)
  | Some jsonData =>
      if negb (valid_url violations_url) then (cache, w, Err RequestError) else
      match Do (violation_request jsonData) w with
      | (w, Err msg) => (cache, w, Err (DoError msg))
      | (w, Ok code) =>
          if bool_decide (code = 200%Z) then (fst (cache_Set cache uid "true"), w, Ok tt)
          else (cache, w, Err (StatusError code))
      end
  end.

(** ** Theorems *)

(** What is in the cache is not sent, whatever else the event says. *)
Lemma SendToInsights_processed ev cache w :
  IsPolicyViolationAlreadyProcessed cache (er_UID (pe_EventReport ev)) = true ->
  SendToInsights ev (cache, w) = (cache, w, Ok tt).
Proof. intros H. unfold SendToInsights. by rewrite H. Qed.

(** What a call can do to the cache. *)
Lemma SendToInsights_cache `{!BigCacheLaws C} ev cache w cache' w' r uid :
  SendToInsights ev (cache, w) = (cache', w', r) ->
  (forall e, r = Err e -> cache' = cache)
  /\ (IsPolicyViolationAlreadyProcessed cache' uid = true ->
      IsPolicyViolationAlreadyProcessed cache uid = true
      \/ (uid = er_UID (pe_EventReport ev)
          /\ exists json, json_Marshal ev = Some json /\ Do (violation_request json) w = (w', Ok 200%Z))).
Proof.
  unfold SendToInsights. intros H.
  destruct (IsPolicyViolationAlreadyProcessed cache (er_UID (pe_EventReport ev))) eqn:E;
    [injection H as <- <- <-; split; [done|by left]|].
  destruct (json_Marshal ev) as [json|] eqn:Ej; [|injection H as <- <- <-; split; [done|by left]].
  destruct (negb _); [injection H as <- <- <-; split; [done|by left]|].
  destruct (Do _ w) as [w1 [code|msg]] eqn:Ed; [|injection H as <- <- <-; split; [done|by left]].
  case_bool_decide as Hc; [|injection H as <- <- <-; split; [done|by left]].
  subst code. injection H as <- <- <-. split; [done|]. unfold IsPolicyViolationAlreadyProcessed.
  destruct (cache_Get (fst _) uid) as [v|] eqn:Eg; [|done]. intros _.
  apply Get_Set_new in Eg as [->|[-> _]]; [by left|right]. split; [done|]. by exists json.
Qed.

(** An identifier enters the cache exactly when an event that carries it was
    acknowledged: whatever comes into the cache in a call of [SendToInsights]
    is the identifier of its event, for which one request was answered with 200;
    a failed call leaves the cache as it is, so the event can be sent again. *)
Theorem only_sent_is_processed `{!BigCacheLaws C} ev cache w cache' w' r uid :
  SendToInsights ev (cache, w) = (cache', w', r) ->
  (forall e, r = Err e -> cache' = cache)
  /\ (IsPolicyViolationAlreadyProcessed cache' uid = true ->
      IsPolicyViolationAlreadyProcessed cache uid = true
      \/ (uid = er_UID (pe_EventReport ev)
          /\ exists json, json_Marshal ev = Some json /\ Do (violation_request json) w = (w', Ok 200%Z))).
Proof. apply SendToInsights_cache. Qed.

(** Until an entry is evicted nothing with its identifier is sent again. *)
Lemma sent_is_not_repeated `{!BigCacheLaws C} ev ev' cache w w' :
  er_UID (pe_EventReport ev') = er_UID (pe_EventReport ev) ->
  IsPolicyViolationAlreadyProcessed cache (er_UID (pe_EventReport ev)) = false ->
  snd (cache_Set cache (er_UID (pe_EventReport ev)) "true") = true ->
  SendToInsights ev (cache, w) = (fst (cache_Set cache (er_UID (pe_EventReport ev)) "true"), w', Ok tt) ->
  SendToInsights ev' (fst (cache_Set cache (er_UID (pe_EventReport ev)) "true"), w')
  = (fst (cache_Set cache (er_UID (pe_EventReport ev)) "true"), w', Ok tt).
Proof.
  intros Hu Hn Hs _. apply SendToInsights_processed. rewrite Hu.
  unfold IsPolicyViolationAlreadyProcessed. by rewrite (Get_Set_same _ _ _ Hs).
Qed.
End send.

(** *** The channel *)

(** An offer keeps the events in order and within the room, or drops the event. *)
Lemma try_send_spec e c c' sent :
  try_send e c = (c', sent) ->
  ch_events c' = ch_events c ++ (if sent then [e] else []) /\ sent = ch_room c
  /\ (length (ch_events c) <= ch_capacity c + ch_waiting c ->
      length (ch_events c') <= ch_capacity c' + ch_waiting c').
Proof.
  unfold try_send. destruct (ch_room c) eqn:E; intros [= <- <-]; simpl;
    [|by rewrite app_nil_r].
  split_and!; [done|done|].
  - rewrite length_app. unfold ch_room in E. simpl. apply Nat.ltb_lt in E. lia.
Qed.

(** A channel without a buffer drops every event that meets no receiver. *)
Lemma unbuffered_drops e c : ch_capacity c = 0 -> ch_waiting c = 0 -> try_send e c = (c, false).
Proof. intros H1 H2. unfold try_send, ch_room. by rewrite H1, H2. Qed.

(** *** Violations *)

Section violations.
Context (yaml_Unmarshal : string -> result string policies).

Lemma by_class_fmap {A B} (f : A -> B) code message a b c d e :
  f <$> by_class code message a b c d e = by_class code message (f a) (f b) (f c) (f d) (f e).
Proof. unfold by_class. by repeat case_match. Qed.

(** A violation is made from an audit event exactly when its response is of one
    of the five classes; its name is the prefix of the class, the resource, the
    object and the audit identifier, and its policies are those that the
    extraction of the same class reads from the message. *)
Theorem violation_of_class ae r :
  CreateBlockedPolicyViolationEvent yaml_Unmarshal ae = Ret r ->
  (r = None <-> is_violation (ae_Code ae) (ae_Message ae) = false)
  /\ forall pv, r = Some pv ->
     exists prefix policies resource namespace name,
       violation_prefix (ae_Code ae) (ae_Message ae) = Some prefix
       /\ extract_policies yaml_Unmarshal (ae_Code ae) (ae_Message ae) = Some (Ret policies)
       /\ extractObjectRefFromMessage (ae_Message ae) (ae_ObjectRef ae) = Ret (resource, namespace, name)
       /\ pv_Name pv = dashed prefix resource name (ae_AuditID ae)
       /\ pv_Policies pv = policies /\ pv_ResourceType pv = resource /\ pv_Namespace pv = namespace
       /\ pv_AuditID pv = ae_AuditID ae /\ pv_Message pv = ae_Message ae.
Proof.
  unfold CreateBlockedPolicyViolationEvent.
  destruct (is_violation (ae_Code ae) (ae_Message ae)) eqn:E; [|intros [= <-]; by split].
  simpl. intros H. apply go_bind_ret in H as [[[resource namespace] name] [Ho H]].
  apply go_bind_ret in H as [policies [Hp H]]. injection H as <-. split; [by split|]. intros pv [= <-].
  assert (Hc : is_Some (violation_prefix (ae_Code ae) (ae_Message ae))) by (by apply by_class_is_violation).
  destruct Hc as [prefix Hc].
  assert (He : is_Some (extract_policies yaml_Unmarshal (ae_Code ae) (ae_Message ae)))
    by (by apply by_class_is_violation).
  destruct He as [ex He]. rewrite He in Hp. simpl in Hp. subst ex.
  exists prefix, policies, resource, namespace, name. rewrite Hc. by repeat split.
Qed.

(** The other way of making a watched event, which no producer uses, puts the
    Kyverno prefix and the identifier inside the name of every other class. *)
Lemma watched_name_nested code message resource name id :
  IsValidatingPolicyViolation code message = true ->
  watched_name code message resource name id
  = dashed ValidatingPolicyViolationPrefix resource (dashed KyvernoPolicyViolationPrefix resource name id) id.
Proof. intros H. unfold watched_name. by rewrite H. Qed.

(** The clock replaces every timestamp that is set; the one that is missing is
    kept, and the event is dated in the year 1. *)
Lemma blocked_watched_event_time now pv :
  we_Timestamp (blocked_watched_event now pv)
  = if GoTime.IsZero (pv_Timestamp pv) then Unix GoTime.zeroTime else Unix now.
Proof.
  unfold blocked_watched_event. simpl. destruct (GoTime.IsZero (pv_Timestamp pv)) eqn:E; [|done].
  simpl. f_equal. unfold GoTime.IsZero in E. lia.
Qed.
End violations.

(** *** A concrete service *)

Definition x_config : InsightsConfig :=
  {| ic_Hostname := "https://insights"; ic_Organization := "org"; ic_Cluster := "c"; ic_Token := "t" |}.

(** A service that accepts everything and keeps the requests. *)
#[export] Instance list_InsightsAPI : InsightsAPI (list request) := {
  json_Marshal v := Some (pe_Message v);
  valid_url _ := true;
  Do r w := (r :: w, Ok 200%Z)
}.

Definition x_sent : PolicyViolationEvent :=
  {| pe_EventReport := {| er_EventType := "ADDED"; er_ResourceType := ""; er_Namespace := ""; er_Name := "";
                          er_UID := "id-1"; er_Timestamp := 0; er_Data := None; er_Metadata := None |};
     pe_Policies := None; pe_Message := "denied"; pe_Blocked := true; pe_Success := false; pe_EventTime := "" |}.

Lemma only_sent_is_processed_witness :
  let cache' : gmap string string := {["id-1" := "true"]} in
  let w' := [violation_request "1.0" x_config "denied"] in
  SendToInsights "1.0" x_config x_sent (∅ : gmap string string, [] : list request) = (cache', w', Ok tt)
  /\ (IsPolicyViolationAlreadyProcessed cache' "id-1" = true ->
      IsPolicyViolationAlreadyProcessed (∅ : gmap string string) "id-1" = true
      \/ ("id-1" = "id-1" /\ exists json, json_Marshal x_sent = Some json
          /\ Do (violation_request "1.0" x_config json) ([] : list request) = (w', Ok 200%Z))).
Proof.
  intros cache' w'.
  assert (H : SendToInsights "1.0" x_config x_sent (∅ : gmap string string, [] : list request) = (cache', w', Ok tt))
    by reflexivity.
  split; [exact H|].
  exact (proj2 (only_sent_is_processed "1.0" x_config x_sent (∅ : gmap string string) ([] : list request) cache' w'
                  (Ok tt) "id-1" H)).
Defined.
