(* ===== verification/EventWatcherConsumers.v ===== *)
(** * event-watcher: handlers and their factory

    [event-watcher/pkg/consumers/]: one handler per class of event, the console
    handler, and the factory that finds the handler by the prefix of an event's
    name, ranging over a Go map.  Printing is not modelled. *)

From stdpp Require Import base decidable list gmap strings.
From Stdlib Require Import ZArith Lia Ascii.
From S2P Require Import Prelude GoStrings GoText GoValues EventWatcherModels EventWatcherMessages EventWatcherEvents.

(** ** From watched events to violations *)

(** What every handler copies into its report; only some set the resource type. *)
Definition event_report (resourceType : string) (e : WatchedEvent) : EventReport :=
  {| er_EventType := EventType_string (we_EventType e);
     er_ResourceType := resourceType;
     er_Namespace := we_Namespace e;
     er_Name := we_Name e;
     er_UID := we_UID e;
     er_Timestamp := we_Timestamp e;
     er_Data := we_Data e;
     er_Metadata := we_Metadata e |}.

Definition violation_event (resourceType : string) (p : policies) (message : string) (e : WatchedEvent)
  : PolicyViolationEvent :=
  {| pe_EventReport := event_report resourceType e;
     pe_Policies := p;
     pe_Message := message;
     pe_Blocked := we_Blocked e;
     pe_Success := we_Success e;
     pe_EventTime := we_EventTime e |}.

(** The checks of the [extract] methods on the event and its message. *)
Definition data_message (watchedEvent : option WatchedEvent) : result string (WatchedEvent * string) :=
  match watchedEvent with
  | None => Err "watchedEvent is nil"
  | Some e =>
      match we_Data e with
      | None => Err "event data is nil"
      | Some data =>
          match as_string (data !! "message") with
          | Some message => if decide (message = "") then Err "no message field in event or message is empty"
                            else Ok (e, message)
          | None => Err "no message field in event or message is empty"
          end
      end
  end.

Definition extract_with (f : string -> go policies) (resourceType : WatchedEvent -> string)
  (watchedEvent : option WatchedEvent) : go (result string PolicyViolationEvent) :=
  match data_message watchedEvent with
  | Err msg => mret (Err msg)
  | Ok (e, message) => policies ← f message; mret (Ok (violation_event (resourceType e) policies message e))
  end.

Definition no_type (e : WatchedEvent) : string := "".

Section handlers.
Context {C W : Type} `{!BigCache C} `{!InsightsAPI W}.
Context (yaml_Unmarshal : string -> result string policies) (Version : string) (config : InsightsConfig).

Inductive handle_error : Type :=
| ExtractError (msg : string)
| SendError (e : send_error).

Definition handled : Type := C * W * result handle_error unit.

Definition send (v : PolicyViolationEvent) (s : C * W) : handled :=
  let '(s, r) := SendToInsights Version config v s in
  (s, match r with
      | Ok _ => Ok tt
      | Err e => Err (SendError e)
      end).

(** [PolicyViolationHandler]: reads the event before any check, and skips
    what was not blocked. *)
Definition extractPolicyViolation := extract_with (ExtractPoliciesFromMessage yaml_Unmarshal) no_type.

Definition PolicyViolation_Handle (watchedEvent : option WatchedEvent) (s : C * W) : go handled :=
  _ ← deref watchedEvent;
  violationEvent ← extractPolicyViolation watchedEvent;
  mret (match violationEvent with
        | Err msg => (s, Err (ExtractError msg))
        | Ok v => if negb (pe_Blocked v) then (s, Ok tt) else send v s
        end).

(** The other handlers of blocked events send whatever they extract. *)
Definition extract_and_send (extract : option WatchedEvent -> go (result string PolicyViolationEvent))
  (watchedEvent : option WatchedEvent) (s : C * W) : go handled :=
  violationEvent ← extract watchedEvent;
  mret (match violationEvent with
        | Err msg => (s, Err (ExtractError msg))
        | Ok v => send v s
        end).

Definition nil_checked (f : option WatchedEvent -> C * W -> go handled)
  (watchedEvent : option WatchedEvent) (s : C * W) : go handled :=
  match watchedEvent with
  | None => mret (s, Err (ExtractError "watchedEvent is nil"))
  | Some _ => f watchedEvent s
  end.

Definition extractValidatingPolicyViolation := extract_with ExtractValidatingPoliciesFromMessage we_Kind.
Definition ValidatingPolicyViolation_Handle := nil_checked (extract_and_send extractValidatingPolicyViolation).

Definition extractNamespacedValidatingAdmissionPolicyViolation :=
  extract_with ExtractNamespacedValidatingPoliciesFromMessage we_Kind.
Definition NamespacedValidatingAdmissionPolicyViolation_Handle :=
  nil_checked (extract_and_send extractNamespacedValidatingAdmissionPolicyViolation).

Definition extractImageValidatingPolicyViolation := extract_with ExtractImageValidatingPoliciesFromMessage we_Kind.
Definition ImageValidatingPolicyViolation_Handle :=
  nil_checked (extract_and_send extractImageValidatingPolicyViolation).

Definition extractValidatingAdmissionPolicyViolation :=
  extract_with ExtractValidatingAdmissionPoliciesFromMessage no_type.
Definition ValidatingAdmissionPolicyViolation_Handle (watchedEvent : option WatchedEvent) (s : C * W) : go handled :=
  _ ← deref watchedEvent; extract_and_send extractValidatingAdmissionPolicyViolation watchedEvent s.

Definition extractAuditOnlyAllowedValidatingAdmissionPolicy (watchedEvent : option WatchedEvent)
  : go (result string PolicyViolationEvent) :=
  match watchedEvent with
  | None => mret (Err "watchedEvent is nil")
  | Some e =>
      match as_strmap (map_get (we_Data e) "annotations") with
      | None => mret (Err "no annotations field in event or annotations is not a map")
      | Some annotations =>
          policies ← ExtractAuditOnlyAllowedValidatingAdmissionPoliciesFromMessage annotations;
          mret (Ok (violation_event (we_Kind e) policies (get_string annotations validation_failure_key) e))
      end
  end.
Definition AuditOnlyAllowedValidatingAdmissionPolicy_Handle :=
  nil_checked (extract_and_send extractAuditOnlyAllowedValidatingAdmissionPolicy).

(** The handlers of policies in audit mode read the metadata. *)
Definition audit_event (f : string -> string -> go policies) (watchedEvent : option WatchedEvent)
  : go (result string PolicyViolationEvent) :=
  e ← deref watchedEvent;
  if bool_decide (we_Metadata e = None) || is_nil (map_get (we_Metadata e) "message")
  then mret (Err "event metadata is nil or message is nil") else
  match as_string (map_get (we_Metadata e) "message") with
  | None => mret (Err "message is not a string")
  | Some message =>
      match as_string (map_get (we_Metadata e) "policyName") with
      | None => mret (Err "policyName is not a string")
      | Some policyName =>
          policies ← f policyName message; mret (Ok (violation_event "" policies message e))
      end
  end.

Definition ClusterPolicyAudit_Handle := extract_and_send (audit_event ExtractAuditOnlyClusterPoliciesFromMessage).
Definition ValidatingPolicyAudit_Handle :=
  nil_checked (extract_and_send (audit_event ExtractAuditOnlyValidatingPoliciesFromMessage)).
Definition NamespacedValidatingPolicyAudit_Handle :=
  nil_checked (extract_and_send (audit_event ExtractAuditOnlyNamespacedValidatingPoliciesFromMessage)).
Definition ImageValidatingPolicyAudit_Handle :=
  nil_checked (extract_and_send (audit_event ExtractAuditOnlyImageValidatingPoliciesFromMessage)).

(** [ConsoleHandler]: the type assertion on the metadata has no comma-ok. *)
Definition console_extractPolicyViolation (watchedEvent : option WatchedEvent)
  : go (result string PolicyViolationEvent) :=
  match data_message watchedEvent with
  | Err msg => mret (Err msg)
  | Ok (e, message) =>
      policies ← ExtractPoliciesFromMessage yaml_Unmarshal message;
      policyResult ← must_string (map_get (we_Metadata e) "policyResult");
      mret (Ok {| pe_EventReport := event_report "" e;
                  pe_Policies := policies;
                  pe_Message := message;
                  pe_Blocked := bool_decide (policyResult = "fail");
                  pe_Success := false;
                  pe_EventTime := we_EventTime e |})
  end.

Definition Console_Handle (watchedEvent : option WatchedEvent) (s : C * W) : go handled :=
  _ ← deref watchedEvent;
  _ ← console_extractPolicyViolation watchedEvent;
  mret (s, Ok tt).

(** ** The factory *)

Inductive EventHandler : Type :=
| ConsoleHandler
| PolicyViolationHandler
| ValidatingPolicyViolationHandler
| NamespacedValidatingAdmissionPolicyViolationHandler
| ImageValidatingPolicyViolationHandler
| ValidatingAdmissionPolicyViolationHandler
| AuditOnlyAllowedValidatingAdmissionPolicyHandler
| ClusterPolicyAuditHandler
| ValidatingPolicyAuditHandler
| NamespacedValidatingPolicyAuditHandler
| ImageValidatingPolicyAuditHandler.

Definition Handle (h : EventHandler) : option WatchedEvent -> C * W -> go handled :=
  match h with
  | ConsoleHandler => Console_Handle
  | PolicyViolationHandler => PolicyViolation_Handle
  | ValidatingPolicyViolationHandler => ValidatingPolicyViolation_Handle
  | NamespacedValidatingAdmissionPolicyViolationHandler => NamespacedValidatingAdmissionPolicyViolation_Handle
  | ImageValidatingPolicyViolationHandler => ImageValidatingPolicyViolation_Handle
  | ValidatingAdmissionPolicyViolationHandler => ValidatingAdmissionPolicyViolation_Handle
  | AuditOnlyAllowedValidatingAdmissionPolicyHandler => AuditOnlyAllowedValidatingAdmissionPolicy_Handle
  | ClusterPolicyAuditHandler => ClusterPolicyAudit_Handle
  | ValidatingPolicyAuditHandler => ValidatingPolicyAudit_Handle
  | NamespacedValidatingPolicyAuditHandler => NamespacedValidatingPolicyAudit_Handle
  | ImageValidatingPolicyAuditHandler => ImageValidatingPolicyAudit_Handle
  end.

Definition handler_table : list (string * EventHandler) := [
  (KyvernoPolicyViolationPrefix, PolicyViolationHandler);
  (ValidatingPolicyViolationPrefix, ValidatingPolicyViolationHandler);
  (NamespacedValidatingPolicyViolationPrefix, NamespacedValidatingAdmissionPolicyViolationHandler);
  (ImageValidatingPolicyViolationPrefix, ImageValidatingPolicyViolationHandler);
  (ValidatingAdmissionPolicyViolationPrefix, ValidatingAdmissionPolicyViolationHandler);
  (AuditOnlyAllowedValidatingAdmissionPolicyPrefix, AuditOnlyAllowedValidatingAdmissionPolicyHandler);
  (AuditOnlyClusterPolicyViolationPrefix, ClusterPolicyAuditHandler);
  (AuditOnlyValidatingPolicyViolationPrefix, ValidatingPolicyAuditHandler);
  (AuditOnlyNamespacedValidatingPolicyViolationPrefix, NamespacedValidatingPolicyAuditHandler);
  (AuditOnlyImageValidatingPolicyViolationPrefix, ImageValidatingPolicyAuditHandler)].

Definition Register (name : string) (h : EventHandler) (f : gmap string EventHandler) : gmap string EventHandler :=
  <[name := h]> f.

Definition registerDefaultHandlers (consoleMode : bool) (f : gmap string EventHandler) : gmap string EventHandler :=
  foldl (fun f kv => Register (fst kv) (if consoleMode then ConsoleHandler else snd kv) f) f handler_table.

Definition NewEventHandlerFactory (consoleMode : bool) : gmap string EventHandler :=
  registerDefaultHandlers consoleMode ∅.

Section order.
Context `{!RangeOrder string EventHandler}.

Definition getHandlerName (f : gmap string EventHandler) (e : WatchedEvent) : string :=
  match List.find (fun kv => HasPrefix (we_Name e) (fst kv)) (range_map f) with
  | Some (name, _) => name
  | None => ""
  end.

Definition GetHandler (f : gmap string EventHandler) (e : WatchedEvent) : option EventHandler :=
  f !! getHandlerName f e.

Definition ProcessEvent (f : gmap string EventHandler) (watchedEvent : option WatchedEvent) (s : C * W)
  : go handled :=
  e ← deref watchedEvent;
  match GetHandler f e with
  | None => mret (s, Ok tt)
  | Some h => Handle h watchedEvent s
  end.

Definition GetHandlerCount (f : gmap string EventHandler) : Z := Z.of_nat (size f).
Definition GetHandlerNames (f : gmap string EventHandler) : list string := fst <$> range_map f.
End order.
End handlers.

(** ** The prefixes tell the handlers apart *)

Definition prefixes : list string := fst <$> handler_table.

Lemma prefixes_incomparable p q :
  p ∈ prefixes -> q ∈ prefixes -> chars p `prefix_of` chars q -> p = q.
Proof.
  assert (H : Forall (fun p => Forall (fun q => HasPrefix q p = true -> p = q) prefixes) prefixes).
  { apply (bool_decide_eq_true_1 _). by vm_compute. }
  rewrite Forall_forall in H. intros Hp Hq Hpre. specialize (H p Hp). rewrite Forall_forall in H.
  apply (H q Hq). by apply bool_decide_eq_true.
Qed.

Lemma prefix_unique name p q :
  p ∈ prefixes -> q ∈ prefixes -> HasPrefix name p = true -> HasPrefix name q = true -> p = q.
Proof.
  intros Hp Hq H1%bool_decide_eq_true H2%bool_decide_eq_true.
  destruct (prefix_weak_total _ _ _ H1 H2); [by apply prefixes_incomparable|].
  symmetry. by apply prefixes_incomparable.
Qed.

(** The handlers of a factory. *)
Definition factory_handler (consoleMode : bool) (p : string) : option EventHandler :=
  (fun kv => if consoleMode then ConsoleHandler else snd kv)
    <$> List.find (fun kv => bool_decide (fst kv = p)) handler_table.

Lemma list_to_map_find {A B} (f : A -> B) (l : list (string * A)) p :
  (list_to_map (prod_map id f <$> l) : gmap string B) !! p
  = (fun kv => f (snd kv)) <$> List.find (fun kv => bool_decide (fst kv = p)) l.
Proof.
  induction l as [|[k a] l IH]; simpl; [apply lookup_empty|].
  case_bool_decide as H; [subst; by rewrite lookup_insert_eq|by rewrite lookup_insert_ne].
Qed.

Lemma foldl_insert {A B} (f : A -> B) (l : list (string * A)) :
  NoDup (fst <$> l) ->
  foldl (fun m kv => <[fst kv := f (snd kv)]> m) ∅ l = (list_to_map (prod_map id f <$> l) : gmap string B).
Proof.
  induction l as [|[k a] l IH] using rev_ind; [done|]. rewrite foldl_snoc, !fmap_app. intros Hn.
  apply NoDup_app in Hn as (Hn & Hd & _). rewrite IH by done. simpl.
  rewrite list_to_map_snoc; [done|]. rewrite <-list_fmap_compose.
  intros H. apply (Hd k); [|simpl; set_solver].
  erewrite list_fmap_ext; [exact H|]. by intros ? [? ?] ?.
Qed.

Lemma prefixes_NoDup : NoDup prefixes.
Proof. apply (bool_decide_eq_true_1 _). by vm_compute. Qed.

Lemma NewEventHandlerFactory_lookup consoleMode p :
  NewEventHandlerFactory consoleMode !! p = factory_handler consoleMode p.
Proof.
  unfold NewEventHandlerFactory, registerDefaultHandlers, factory_handler, Register.
  rewrite (foldl_insert (fun h => if consoleMode then ConsoleHandler else h)) by apply prefixes_NoDup.
  apply (list_to_map_find (fun h => if consoleMode then ConsoleHandler else h)).
Qed.

Lemma NewEventHandlerFactory_dom consoleMode p h :
  NewEventHandlerFactory consoleMode !! p = Some h -> p ∈ prefixes.
Proof.
  rewrite NewEventHandlerFactory_lookup. unfold factory_handler.
  destruct (List.find _ _) as [[k h']|] eqn:E; [|done]. intros _.
  apply List.find_some in E as [Hin Hk]. apply bool_decide_eq_true in Hk as <-.
  apply list_elem_of_fmap. exists (k, h'). split; [done|]. by apply list_elem_of_In.
Qed.

Section routing.
Context `{!RangeOrder string EventHandler}.

(** The general form of the theorem below. *)
Lemma GetHandler_prefix consoleMode e :
  (forall p, p ∈ prefixes -> HasPrefix (we_Name e) p = true ->
     GetHandler (NewEventHandlerFactory consoleMode) e = factory_handler consoleMode p)
  /\ ((forall p, p ∈ prefixes -> HasPrefix (we_Name e) p = false) ->
      GetHandler (NewEventHandlerFactory consoleMode) e = None).
Proof.
  unfold GetHandler, getHandlerName.
  destruct (List.find _ _) as [[q h]|] eqn:E.
  - apply List.find_some in E as [Hin Hq]. apply list_elem_of_In, elem_of_range_map in Hin.
    apply NewEventHandlerFactory_dom in Hin as Hdom. simpl in Hq. split.
    + intros p Hp Hpre. rewrite (prefix_unique _ _ _ Hp Hdom Hpre Hq). apply NewEventHandlerFactory_lookup.
    + intros Hno. by rewrite Hno in Hq.
  - split; [|intros _; by rewrite NewEventHandlerFactory_lookup].
    intros p Hp Hpre. destruct (factory_handler consoleMode p) as [h|] eqn:Eh.
    + rewrite <-NewEventHandlerFactory_lookup in Eh. apply elem_of_range_map in Eh.
      apply list_elem_of_In in Eh. apply (List.find_none _ _ E) in Eh. simpl in Eh. congruence.
    + unfold factory_handler in Eh. apply fmap_None in Eh. apply list_elem_of_fmap in Hp as ([p' h'] & -> & Hin).
      apply list_elem_of_In in Hin. apply (List.find_none _ _ Eh) in Hin.
      by rewrite bool_decide_eq_true_2 in Hin.
Qed.

(** Events are routed by the prefix of their name, whatever the order in which
    the map of handlers is ranged over: an event whose name begins with a
    registered prefix reaches the handler registered under it, the console
    handler in console mode, and an event with none of the prefixes no handler. *)
Theorem GetHandler_by_prefix consoleMode e :
  (forall p, p ∈ prefixes -> HasPrefix (we_Name e) p = true ->
     GetHandler (NewEventHandlerFactory consoleMode) e = factory_handler consoleMode p)
  /\ ((forall p, p ∈ prefixes -> HasPrefix (we_Name e) p = false) ->
      GetHandler (NewEventHandlerFactory consoleMode) e = None).
Proof. apply GetHandler_prefix. Qed.
End routing.

Lemma HasPrefix_dashed p a b c : HasPrefix (dashed p a b c) p = true.
Proof. apply HasPrefix_spec. by exists ("-" +:+ a +:+ "-" +:+ b +:+ "-" +:+ c). Qed.

Lemma violation_message_nonempty code message : is_violation code message = true -> message <> "".
Proof.
  intros H ->. unfold is_violation, IsKyvernoPolicyViolation, IsValidatingPolicyViolation,
    IsNamespacedValidatingPolicyViolation, IsImageValidatingPolicyViolation, IsValidatingAdmissionPolicyViolation in H.
  assert (Hk : Contains "" "kyverno" = false) by done.
  assert (Hv : Contains "" "ValidatingAdmissionPolicy" = false) by done.
  by rewrite Hk, Hv, !andb_false_r in H.
Qed.

Lemma violation_prefix_in code message p : violation_prefix code message = Some p -> p ∈ prefixes.
Proof.
  unfold violation_prefix, by_class. intros H.
  repeat (case_match; simplify_eq); apply (bool_decide_eq_true_1 _); reflexivity.
Qed.

Section delivery.
Context {C W : Type} `{!BigCache C} `{!InsightsAPI W}.
Context (yaml_Unmarshal : string -> result string policies) (Version : string) (config : InsightsConfig).
Context `{!RangeOrder string EventHandler}.
Implicit Types s : C * W.

Notation process console := (ProcessEvent yaml_Unmarshal Version config (NewEventHandlerFactory console)).

(** An event is handled by the handler of its prefix. *)
Lemma ProcessEvent_prefix console e p s :
  p ∈ prefixes -> HasPrefix (we_Name e) p = true ->
  process console (Some e) s
  = match factory_handler console p with
    | Some h => Handle yaml_Unmarshal Version config h (Some e) s
    | None => Ret (s, Ok tt)
    end.
Proof.
  intros Hp Hpre. unfold ProcessEvent. simpl.
  by rewrite (proj1 (GetHandler_prefix console e) p Hp Hpre).
Qed.

(** The message that [blocked_watched_event] stores is the one that is read. *)
Lemma data_message_blocked now pv :
  pv_Message pv <> "" ->
  data_message (Some (blocked_watched_event now pv)) = Ok (blocked_watched_event now pv, pv_Message pv).
Proof.
  intros H. unfold data_message.
  assert (E : we_Data (blocked_watched_event now pv) ≫= (fun d => as_string (d !! "message"))
              = Some (pv_Message pv)) by reflexivity.
  destruct (we_Data (blocked_watched_event now pv)) as [d|] eqn:Ed; [|done].
  cbn [mbind option_bind] in E. rewrite E. by destruct (decide (pv_Message pv = "")).
Qed.

(** The handlers that set the type of the resource. *)
Definition class_type (prefix : string) (e : WatchedEvent) : string :=
  if bool_decide (prefix ∈ [ValidatingPolicyViolationPrefix; NamespacedValidatingPolicyViolationPrefix;
                            ImageValidatingPolicyViolationPrefix]) then we_Kind e else "".

Lemma extract_and_send_blocked f rt e message ps s :
  data_message (Some e) = Ok (e, message) -> f message = Ret ps ->
  extract_and_send Version config (extract_with f rt) (Some e) s
  = Ret (send Version config (violation_event (rt e) ps message e) s).
Proof. intros Hd Hf. unfold extract_and_send, extract_with. rewrite Hd. simpl. by rewrite Hf. Qed.

(** The handler registered for the class of a response extracts as the class does. *)
Lemma class_handled code message p e ps s :
  violation_prefix code message = Some p -> extract_policies yaml_Unmarshal code message = Some (Ret ps) ->
  data_message (Some e) = Ok (e, message) -> we_Blocked e = true ->
  match factory_handler false p with
  | Some h => Handle yaml_Unmarshal Version config h (Some e) s
  | None => Ret (s, Ok tt)
  end = Ret (send Version config (violation_event (class_type p e) ps message e) s).
Proof.
  unfold violation_prefix, extract_policies, by_class. intros Hp He Hd Hb.
  repeat match type of Hp with
  | (if ?b then _ else _) = _ => destruct b
  end; [| | | | |done]; injection Hp as <-; injection He as He;
    match goal with |- context [factory_handler false ?q] =>
      let h := eval vm_compute in (factory_handler false q) in change (factory_handler false q) with h
    end; cbn [Handle]; [|by apply (extract_and_send_blocked _ _ _ _ _ _ Hd)..].
  unfold PolicyViolation_Handle, extractPolicyViolation, extract_with. cbn [deref mbind go_bind].
  rewrite Hd. cbn [mbind go_bind]. rewrite He. cbn [mbind go_bind mret go_ret violation_event pe_Blocked].
  by rewrite Hb.
Qed.


(** *** An event whose identifier is in the cache is never sent *)

Lemma send_processed v s :
  IsPolicyViolationAlreadyProcessed (fst s) (er_UID (pe_EventReport v)) = true ->
  send Version config v s = (s, Ok tt).
Proof. destruct s as [cache w]. intros H. unfold send. by rewrite SendToInsights_processed. Qed.

(** A handled event leaves the state alone. *)
Definition silent (m : go handled) (s : C * W) : Prop := m = Panic \/ exists r, m = Ret (s, r).

Lemma extract_and_send_silent extract e s :
  (forall v, extract (Some e) = Ret (Ok v) -> er_UID (pe_EventReport v) = we_UID e) ->
  IsPolicyViolationAlreadyProcessed (fst s) (we_UID e) = true ->
  silent (extract_and_send Version config extract (Some e) s) s.
Proof.
  intros Hx Hp. unfold extract_and_send, silent. destruct (extract (Some e)) as [[v|msg]|] eqn:E; [|by eauto|by left].
  right. simpl. rewrite send_processed; [by eauto|]. by rewrite (Hx v eq_refl).
Qed.

Lemma data_message_event e e' message : data_message (Some e) = Ok (e', message) -> e' = e.
Proof. unfold data_message. intros H. by repeat case_match; simplify_eq. Qed.

Lemma extract_with_uid f rt e v :
  extract_with f rt (Some e) = Ret (Ok v) -> er_UID (pe_EventReport v) = we_UID e.
Proof.
  unfold extract_with. destruct (data_message (Some e)) as [[e' message]|msg] eqn:E; [|done].
  apply data_message_event in E as ->. intros (ps & _ & [= <-])%go_bind_ret. done.
Qed.

Lemma audit_event_uid f e v : audit_event f (Some e) = Ret (Ok v) -> er_UID (pe_EventReport v) = we_UID e.
Proof.
  unfold audit_event. cbn [deref mbind go_bind]. intros H.
  destruct (bool_decide (we_Metadata e = None) || _); [done|].
  destruct (as_string _) as [m|]; [|done]. destruct (as_string _) as [p|]; [|done].
  by apply go_bind_ret in H as (ps & _ & [= <-]).
Qed.

Lemma audit_only_allowed_uid e v :
  extractAuditOnlyAllowedValidatingAdmissionPolicy (Some e) = Ret (Ok v) -> er_UID (pe_EventReport v) = we_UID e.
Proof.
  unfold extractAuditOnlyAllowedValidatingAdmissionPolicy. intros H.
  destruct (as_strmap _) as [m|]; [|done]. by apply go_bind_ret in H as (ps & _ & [= <-]).
Qed.

Lemma Handle_silent h e s :
  IsPolicyViolationAlreadyProcessed (fst s) (we_UID e) = true ->
  silent (Handle yaml_Unmarshal Version config h (Some e) s) s.
Proof.
  intros Hp. pose proof (extract_with_uid (ExtractPoliciesFromMessage yaml_Unmarshal) no_type e) as Hx.
  destruct h; cbn [Handle].
  - unfold Console_Handle, silent. cbn [deref mbind go_bind].
    destruct (console_extractPolicyViolation yaml_Unmarshal (Some e)); [right; by eexists|by left].
  - unfold PolicyViolation_Handle, extractPolicyViolation, silent. cbn [deref mbind go_bind].
    destruct (extract_with _ _ _) as [[v|msg]|] eqn:E; [|right; by eexists|by left].
    right. cbn [mbind go_bind]. destruct (negb (pe_Blocked v)); [by eexists|].
    rewrite send_processed; [by eexists|]. by rewrite (Hx v eq_refl).
  - by apply extract_and_send_silent; [apply extract_with_uid|].
  - by apply extract_and_send_silent; [apply extract_with_uid|].
  - by apply extract_and_send_silent; [apply extract_with_uid|].
  - by apply extract_and_send_silent; [apply extract_with_uid|].
  - by apply extract_and_send_silent; [apply audit_only_allowed_uid|].
  - by apply extract_and_send_silent; [apply audit_event_uid|].
  - by apply extract_and_send_silent; [apply audit_event_uid|].
  - by apply extract_and_send_silent; [apply audit_event_uid|].
  - by apply extract_and_send_silent; [apply audit_event_uid|].
Qed.

Lemma ProcessEvent_silent f e s :
  IsPolicyViolationAlreadyProcessed (fst s) (we_UID e) = true ->
  silent (ProcessEvent yaml_Unmarshal Version config f (Some e) s) s.
Proof.
  intros Hp. unfold ProcessEvent. cbn [deref mbind go_bind].
  destruct (GetHandler f e); [by apply Handle_silent|right; by eexists].
Qed.

(** In console mode an event with a message panics unless its metadata has a
    string under [policyResult]. *)
Lemma console_panics e message p s :
  p ∈ prefixes -> HasPrefix (we_Name e) p = true ->
  data_message (Some e) = Ok (e, message) -> as_string (map_get (we_Metadata e) "policyResult") = None ->
  process true (Some e) s = Panic.
Proof.
  intros Hp Hpre Hd Hm. rewrite (ProcessEvent_prefix true _ _ s Hp Hpre).
  assert (Hh : factory_handler true p = Some ConsoleHandler).
  { unfold factory_handler. destruct (List.find _ _) as [kv|] eqn:E; [done|].
    apply list_elem_of_fmap in Hp as ([k h] & -> & Hin%list_elem_of_In).
    apply (List.find_none _ _ E) in Hin. by rewrite bool_decide_eq_true_2 in Hin. }
  rewrite Hh. cbn [Handle]. unfold Console_Handle, console_extractPolicyViolation, must_string.
  cbn [deref mbind go_bind]. rewrite Hd, Hm. by destruct (ExtractPoliciesFromMessage _ _).
Qed.

(** Console mode crashes on the first blocked request: the metadata of the
    watched event never holds the [policyResult] that the console handler asserts
    to be a string. *)
Theorem console_mode_panics now ae pv s :
  CreateBlockedPolicyViolationEvent yaml_Unmarshal ae = Ret (Some pv) ->
  process true (Some (blocked_watched_event now pv)) s = Panic.
Proof.
  intros H. apply violation_of_class in H as [Hn H].
  destruct (H pv eq_refl) as (prefix & ps & resource & namespace & name & Hp & _ & _ & Hname & _ & _ & _ & _ & Hm).
  assert (Hv : is_violation (ae_Code ae) (ae_Message ae) = true)
    by (destruct (is_violation _ _); [done|]; discriminate (proj2 Hn eq_refl)).
  pose proof (violation_message_nonempty _ _ Hv) as Hne. rewrite <-Hm in Hne.
  apply (console_panics _ (pv_Message pv) prefix).
  - by eapply violation_prefix_in.
  - simpl. rewrite Hname. apply HasPrefix_dashed.
  - by apply data_message_blocked.
  - done.
Qed.
End delivery.

(** *** A concrete request *)

Definition x_user : User := {| u_Username := "jane"; u_UID := ""; u_Groups := [] |}.
Definition x_ref : ObjectRef :=
  {| o_Resource := "pods"; o_Namespace := ""; o_Name := ""; o_UID := ""; o_APIGroup := ""; o_APIVersion := "v1";
     o_ResourceVersion := ""; o_SubResource := "" |}.
Definition x_message : string :=
  "admission webhook " +:+ quote +:+ "vpol.validate.kyverno.svc-fail" +:+ quote
    +:+ " denied the request: Policy check-labels failed: labels are required".
Definition x_audit : AuditEvent :=
  {| ae_AuditID := "id-1"; ae_User := x_user; ae_ObjectRef := x_ref;
     ae_ResponseStatus := {| rs_Code := 400; rs_Status := "Failure"; rs_Message := x_message |};
     ae_Annotations := None; ae_RequestReceivedTimestamp := 0; ae_StageTimestamp := 0 |}.
Definition x_yaml (s : string) : result string policies := Err s.
Definition x_violation : PolicyViolationEventModel :=
  {| pv_Timestamp := 0; pv_APIVersion := "v1"; pv_APIGroup := ""; pv_Name := "vpol-violation-pods--id-1";
     pv_Namespace := ""; pv_ResourceType := "pods"; pv_User := "jane"; pv_Action := "Failure";
     pv_Message := x_message; pv_AuditID := "id-1";
     pv_Policies := one_policy "check-labels" "check-labels" x_message; pv_Annotations := None |}.
Example x_created : CreateBlockedPolicyViolationEvent x_yaml x_audit = Ret (Some x_violation).
Proof. vm_compute. reflexivity. Qed.


Lemma console_mode_panics_witness :
  ProcessEvent (RangeOrder0 := canonical_order) x_yaml "1.0" x_config (NewEventHandlerFactory true)
    (Some (blocked_watched_event 0 x_violation)) (∅ : gmap string string, [] : list request) = Panic.
Proof.
  exact (console_mode_panics (RangeOrder0 := canonical_order) x_yaml "1.0" x_config 0 x_audit x_violation
           (∅ : gmap string string, [] : list request) x_created).
Defined.
