(* ===== verification/EventWatcherProducers.v ===== *)
(** * event-watcher: sources of events

    [event-watcher/pkg/producers/]: Kyverno's Kubernetes events, the audit log
    file and CloudWatch.  A pass over a list of entries reads the clock and the
    cache of processed identifiers once.  JSON, YAML, the listing of events and
    the CloudWatch service are parameters. *)

From stdpp Require Import base decidable list gmap strings.
From Stdlib Require Import ZArith Lia Ascii.
From S2P Require Import Prelude GoStrings GoText GoValues EventWatcherModels EventWatcherMessages EventWatcherEvents EventWatcherConsumers.

(** ** Kubernetes events *)

Record ObjectReference := {
  or_Kind : string;
  or_Namespace : string;
  or_Name : string;
  or_UID : string;
  or_fields : list (string * string)
}.

(** The fields of a [v1.Event] that the plugin reads. *)
Record Event := {
  ev_UID : string;
  ev_Annotations : strmap;
  ev_Labels : strmap;
  ev_CreationTimestamp : Z;
  ev_ResourceVersion : string;
  ev_InvolvedObject : ObjectReference;
  ev_Related : option ObjectReference;
  ev_EventTime : Z;
  ev_Message : string;
  ev_Reason : string;
  ev_Action : string;
  ev_Type : string;
  ev_ReportingInstance : string;
  ev_Source : list (string * string)
}.

Definition resource_passed (event : Event) : bool :=
  bool_decide (ev_Reason event = "PolicyViolation") && bool_decide (ev_Action event = "Resource Passed").

Definition IsAuditOnlyClusterPolicyViolation (event : Event) : bool :=
  bool_decide (or_Kind (ev_InvolvedObject event) = "ClusterPolicy" \/ or_Kind (ev_InvolvedObject event) = "Policy")
  && resource_passed event.

Definition IsAuditOnlyValidatingPolicyViolation (event : Event) : bool :=
  bool_decide (or_Kind (ev_InvolvedObject event) = "ValidatingPolicy") && resource_passed event.

Definition IsAuditOnlyNamespacedValidatingPolicyViolation (event : Event) : bool :=
  bool_decide (or_Kind (ev_InvolvedObject event) = "NamespacedValidatingPolicy") && resource_passed event.

Definition IsAuditOnlyImageValidatingPolicyViolation (event : Event) : bool :=
  bool_decide (or_Kind (ev_InvolvedObject event) = "ImageValidatingPolicy") && resource_passed event.

Definition audit_prefix (event : Event) : option string :=
  if IsAuditOnlyClusterPolicyViolation event then Some AuditOnlyClusterPolicyViolationPrefix
  else if IsAuditOnlyValidatingPolicyViolation event then Some AuditOnlyValidatingPolicyViolationPrefix
  else if IsAuditOnlyNamespacedValidatingPolicyViolation event
  then Some AuditOnlyNamespacedValidatingPolicyViolationPrefix
  else if IsAuditOnlyImageValidatingPolicyViolation event then Some AuditOnlyImageValidatingPolicyViolationPrefix
  else None.

(** The identifier under which the source looks an event up. *)
Definition event_key (event : Event) : string :=
  dashed (or_Namespace (ev_InvolvedObject event)) (or_Name (ev_InvolvedObject event))
    (or_Kind (ev_InvolvedObject event)) (ev_UID event).

(** The violating resource, or the policy when the event does not say. *)
Definition event_resource (event : Event) : ObjectReference := default (ev_InvolvedObject event) (ev_Related event).

Definition kyverno_watched_event (prefix : string) (event : Event) : WatchedEvent :=
  let r := event_resource event in
  let policyName := AString (or_Name (ev_InvolvedObject event)) in
  let created := AString (RFC3339 (ev_CreationTimestamp event)) in
  {| we_EventVersion := 1;
     we_Timestamp := Unix (ev_EventTime event);
     we_EventTime := RFC3339 (ev_EventTime event);
     we_EventType := EventTypeAdded;
     we_Kind := or_Kind r;
     we_Namespace := or_Namespace r;
     we_Name := dashed prefix (or_Kind r) (or_Name r) (ev_UID event);
     we_UID := or_UID r;
     we_Data := Some (list_to_map [
       ("message", AString (ev_Message event)); ("policyName", policyName);
       ("annotations", AStrMap (ev_Annotations event)); ("labels", AStrMap (ev_Labels event));
       ("creationTimestamp", created); ("resourceVersion", AString (ev_ResourceVersion event));
       ("uid", AUID (ev_UID event)); ("reason", AString (ev_Reason event))]);
     we_Metadata := Some (list_to_map [
       ("policyName", policyName); ("annotations", AStrMap (ev_Annotations event));
       ("labels", AStrMap (ev_Labels event)); ("creationTimestamp", created);
       ("resourceVersion", AString (ev_ResourceVersion event)); ("uid", AUID (ev_UID event));
       ("reason", AString (ev_Reason event)); ("message", AString (ev_Message event));
       ("related", APointer (or_fields <$> ev_Related event));
       ("reportingInstance", AString (ev_ReportingInstance event)); ("source", AStruct (ev_Source event));
       ("type", AString (ev_Type event))]);
     we_EventSource := "kubernetes_events";
     we_Success := false;
     we_Blocked := false |}.

Section producers.
Context {C : Type} `{!BigCache C}.
Context (yaml_Unmarshal : string -> result string policies).
(** [json.Unmarshal] of a line into an audit event; [None] is an error. *)
Context (json_AuditEvent : string -> option AuditEvent).

(** What the loop over the listed events sends on the channel for one of them. *)
Definition kyverno_event (cache : C) (event : Event) : option WatchedEvent :=
  match audit_prefix event with
  | None => None
  | Some prefix =>
      if IsPolicyViolationAlreadyProcessed cache (event_key event) then None
      else Some (kyverno_watched_event prefix event)
  end.

(** The events of one poll, in order; the sends block until there is room. *)
Definition processKyvernoKubernetesEvents (cache : C) (listing : result string (list Event))
  : result string (list WatchedEvent) :=
  match listing with
  | Err msg => Err ("failed to list latest kubernetes events: " +:+ msg)
  | Ok events => Ok (omap (kyverno_event cache) events)
  end.

(** ** Audit events *)

(** The event that an audit event puts on the channel, for the audit log and
    CloudWatch alike. *)
Definition audit_watched_event (now : Z) (cache : C) (auditEvent : AuditEvent) : go (option WatchedEvent) :=
  if IsPolicyViolationAlreadyProcessed cache (ae_AuditID auditEvent) then mret None else
  if is_violation (ae_Code auditEvent) (ae_Message auditEvent) then
    policyViolationEvent ← CreateBlockedPolicyViolationEvent yaml_Unmarshal auditEvent;
    mret (option_map (blocked_watched_event now) policyViolationEvent)
  else if IsValidatingAdmissionPolicyViolationAuditOnlyAllowEvent (ae_Annotations auditEvent) then
    auditOnlyAllowEvent ← CreateValidatingAdmissionPolicyViolationAuditOnlyAllowEvent auditEvent;
    mret (option_map audit_only_watched_event auditOnlyAllowEvent)
  else mret None.

Definition offer (e : option WatchedEvent) (ch : chan) : chan :=
  match e with
  | None => ch
  | Some e => fst (try_send e ch)
  end.

(** *** The audit log *)

(** The lines of [bufio.Scanner]: split at newlines, without an empty last one;
    a line that does not fit its buffer of 64 KiB ends the scan. *)
Fixpoint scan_pieces (pieces : list string) : list string :=
  match pieces with
  | [] => []
  | [p] => if bool_decide (p = "") || (65535 <? lenS p)%Z then [] else [p]
  | p :: ps => if (65535 <? lenS p)%Z then [] else p :: scan_pieces ps
  end.

Definition newline : ascii := byte 10.

Definition scan_lines (content : string) : list string := scan_pieces (Split content newline).

Definition line_event (now : Z) (cache : C) (line : string) : go (option WatchedEvent) :=
  let line := TrimSpace line in
  if bool_decide (line = "") then mret None else
  match json_AuditEvent line with
  | None => mret None
  | Some auditEvent => audit_watched_event now cache auditEvent
  end.

Fixpoint process_lines (now : Z) (cache : C) (lines : list string) (ch : chan) : go chan :=
  match lines with
  | [] => mret ch
  | line :: lines => e ← line_event now cache line; process_lines now cache lines (offer e ch)
  end.

(** One pass over the whole file; [None] is a file that cannot be opened. *)
Definition processNewAuditLogEntries (now : Z) (cache : C) (file : option string) (ch : chan) : go chan :=
  match file with
  | None => mret ch
  | Some content => process_lines now cache (scan_lines content) ch
  end.

(** *** CloudWatch *)

Definition processLogEvent (now : Z) (cache : C) (message : string) (ch : chan) : go chan :=
  match json_AuditEvent message with
  | None => mret ch
  | Some auditEvent => e ← audit_watched_event now cache auditEvent; mret (offer e ch)
  end.

(** The messages of a batch, which the service gives as pointers. *)
Fixpoint process_messages (now : Z) (cache : C) (messages : list (option string)) (ch : chan) : go chan :=
  match messages with
  | [] => mret ch
  | m :: messages =>
      message ← deref m; ch ← processLogEvent now cache message ch; process_messages now cache messages ch
  end.

Definition retryable_words : list string :=
  ["timeout"; "connection"; "network"; "dial"; "ThrottlingException"; "ServiceUnavailable";
   "InternalServerError"; "TooManyRequestsException"; "rate limit"; "RateExceeded"].

Definition isRetryableError (errStr : string) : bool := existsb (Contains errStr) retryable_words.

Record CloudWatchConfig := {
  cc_LogGroupName : string;
  cc_FilterPattern : string;
  cc_BatchSize : Z
}.

Record LogStream := { ls_LogStreamName : option string; ls_LastIngestionTime : option Z }.

(** The requests of the service, whose start is in milliseconds. *)
Class CloudWatchLogs (W : Type) := {
  DescribeLogStreams : string -> W -> W * result string (list LogStream);
  GetLogEvents : string -> option string -> Z -> Z -> W -> W * result string (list (option string));
  FilterLogEvents : string -> string -> Z -> Z -> W -> W * result string (list (option string))
}.

Section cloudwatch.
Context {W : Type} `{!CloudWatchLogs W} (cfg : CloudWatchConfig).

Definition start_time (now : Z) : Z := (Unix (now - 5 * GoTime.Minute) * 1000)%Z.

Definition processLogStream (now : Z) (cache : C) (stream : LogStream) (s : W * chan)
  : go (W * chan * result string unit) :=
  let '(w, ch) := s in
  match ls_LastIngestionTime stream with
  | None => mret (w, ch, Ok tt)
  | Some _ =>
      let limit := GoInt.i32 (cc_BatchSize cfg) in
      let '(w, answer) :=
        if bool_decide (cc_FilterPattern cfg = "")
        then GetLogEvents (cc_LogGroupName cfg) (ls_LogStreamName stream) (start_time now) limit w
        else FilterLogEvents (cc_LogGroupName cfg) (cc_FilterPattern cfg) (start_time now) limit w in
      match answer with
      | Err msg => mret (w, ch, Err ((if bool_decide (cc_FilterPattern cfg = "") then "failed to get log events: "
                                      else "failed to filter log events: ") +:+ msg))
      | Ok messages => ch ← process_messages now cache messages ch; mret (w, ch, Ok tt)
      end
  end.

(** The retries of [getLogStreamsWithRetry] and [processLogStreamWithRetry]:
    [n] attempts are left; [cancelled] is read while waiting between two. *)
Fixpoint with_retry {S A} (op : S -> go (S * result string A)) (cancelled : nat -> bool) (n : nat) (s : S)
  : go (S * result string A) :=
  match n with
  | 0 => mret (s, Err "failed after all attempts")
  | S n' =>
      '(s, r) ← op s;
      match r with
      | Ok a => mret (s, Ok a)
      | Err msg =>
          if negb (isRetryableError msg) then mret (s, Err ("non-retryable error: " +:+ msg)) else
          match n' with
          | 0 => mret (s, Err "failed after all attempts")
          | _ => if cancelled n' then mret (s, Err "context canceled") else with_retry op cancelled n' s
          end
      end
  end.

Definition getLogStreams (s : W * chan) : go (W * chan * result string (list LogStream)) :=
  let '(w, ch) := s in
  let '(w, r) := DescribeLogStreams (cc_LogGroupName cfg) w in
  mret (w, ch, match r with
               | Ok streams => Ok streams
               | Err msg => Err ("failed to describe log streams: " +:+ msg)
               end).

Definition getLogStreamsWithRetry (cancelled : nat -> bool) (s : W * chan)
  : go (W * chan * result string (list LogStream)) := with_retry getLogStreams cancelled 3 s.

Definition processLogStreamWithRetry (now : Z) (cache : C) (cancelled : nat -> bool) (stream : LogStream)
  (s : W * chan) : go (W * chan * result string unit) :=
  with_retry (processLogStream now cache stream) cancelled 2 s.

(** A stream that fails is only logged, with its name. *)
Fixpoint process_streams (now : Z) (cache : C) (cancelled : nat -> bool) (streams : list LogStream) (s : W * chan)
  : go (W * chan) :=
  match streams with
  | [] => mret s
  | stream :: streams =>
      '(s, r) ← processLogStreamWithRetry now cache cancelled stream s;
      _ ← (match r with
           | Ok _ => mret ""
           | Err _ => deref (ls_LogStreamName stream)
           end);
      process_streams now cache cancelled streams s
  end.

Definition processLogEvents (now : Z) (cache : C) (cancelled : nat -> bool) (s : W * chan)
  : go (W * chan * result string unit) :=
  '(s, r) ← getLogStreamsWithRetry cancelled s;
  match r with
  | Err msg => mret (s, Err ("failed to get log streams after retries: " +:+ msg))
  | Ok streams => s ← process_streams now cache cancelled streams s; mret (s, Ok tt)
  end.
End cloudwatch.

(** *** The loop of [CloudWatchHandler.Start]

    One tick: whether the processing succeeded changes the counter of errors and
    the interval of the ticker. *)
Record poll := { consecutiveErrors : Z; interval : Z }.

Definition maxConsecutiveErrors : Z := 5.

Definition start_poll (pollInterval : Z) : poll := {| consecutiveErrors := 0; interval := pollInterval |}.

Definition poll_tick (pollInterval : Z) (ok : bool) (p : poll) : poll :=
  if ok then
    if (0 <? consecutiveErrors p)%Z then start_poll pollInterval else p
  else
    let n := (consecutiveErrors p + 1)%Z in
    if (maxConsecutiveErrors <=? n)%Z then {| consecutiveErrors := 0; interval := GoInt.i64 (pollInterval * 2) |}
    else {| consecutiveErrors := n; interval := interval p |}.

Definition poll_ticks (pollInterval : Z) (oks : list bool) : poll :=
  foldl (fun p ok => poll_tick pollInterval ok p) (start_poll pollInterval) oks.
End producers.

(** ** Theorems: Kubernetes events *)

Section kubernetes.
Context {C W : Type} `{!BigCache C} `{!InsightsAPI W}.
Context (yaml_Unmarshal : string -> result string policies) (Version : string) (config : InsightsConfig).
Context `{!RangeOrder string EventHandler}.
Implicit Types s : C * W.

Notation process console := (ProcessEvent yaml_Unmarshal Version config (NewEventHandlerFactory console)).

Lemma audit_prefix_in event p : audit_prefix event = Some p -> p ∈ prefixes.
Proof.
  unfold audit_prefix. intros H.
  repeat (case_match; simplify_eq); apply (bool_decide_eq_true_1 _); reflexivity.
Qed.

Lemma audit_event_kyverno f prefix event policies :
  f (or_Name (ev_InvolvedObject event)) (ev_Message event) = Ret policies ->
  audit_event f (Some (kyverno_watched_event prefix event))
  = Ret (Ok (violation_event "" policies (ev_Message event) (kyverno_watched_event prefix event))).
Proof.
  intros H. unfold audit_event. cbn [deref mbind go_bind].
  set (e := kyverno_watched_event prefix event).
  assert (Hm : map_get (we_Metadata e) "message" = Some (AString (ev_Message event))) by reflexivity.
  assert (Hn : map_get (we_Metadata e) "policyName" = Some (AString (or_Name (ev_InvolvedObject event))))
    by reflexivity.
  rewrite Hm, Hn. rewrite bool_decide_eq_false_2 by done. cbn [orb is_nil as_string]. by rewrite H.
Qed.

(** The event of a policy in audit mode is sent by the handler of its class. *)
Lemma kyverno_event_handled prefix event rule s :
  audit_prefix event = Some prefix ->
  rule_in_brackets (or_Name (ev_InvolvedObject event)) (ev_Message event) = Ret rule ->
  process false (Some (kyverno_watched_event prefix event)) s
  = Ret (send Version config
           (violation_event "" (one_policy (or_Name (ev_InvolvedObject event)) rule (ev_Message event))
              (ev_Message event) (kyverno_watched_event prefix event)) s).
Proof.
  intros Hp Hr.
  assert (Hpre : HasPrefix (we_Name (kyverno_watched_event prefix event)) prefix = true) by apply HasPrefix_dashed.
  rewrite (ProcessEvent_prefix _ _ _ false _ _ s (audit_prefix_in _ _ Hp) Hpre).
  assert (Hf : forall f, f (or_Name (ev_InvolvedObject event)) (ev_Message event)
             = Ret (one_policy (or_Name (ev_InvolvedObject event)) rule (ev_Message event)) ->
             extract_and_send Version config (audit_event f) (Some (kyverno_watched_event prefix event)) s
             = Ret (send Version config
                 (violation_event "" (one_policy (or_Name (ev_InvolvedObject event)) rule (ev_Message event))
                    (ev_Message event) (kyverno_watched_event prefix event)) s)).
  { intros f Hf. unfold extract_and_send. by rewrite (audit_event_kyverno f prefix event _ Hf). }
  unfold audit_prefix in Hp.
  repeat match type of Hp with
  | (if ?b then _ else _) = _ => destruct b
  end; [| | | |done]; injection Hp as <-;
    match goal with |- context [factory_handler false ?q] =>
      let h := eval vm_compute in (factory_handler false q) in change (factory_handler false q) with h
    end; cbn [Handle]; apply Hf;
    unfold ExtractAuditOnlyClusterPoliciesFromMessage, ExtractAuditOnlyValidatingPoliciesFromMessage,
      ExtractAuditOnlyNamespacedValidatingPoliciesFromMessage, ExtractAuditOnlyImageValidatingPoliciesFromMessage;
    by rewrite Hr.
Qed.

(** Audit mode, from Kyverno's event to Insights: the event of a policy whose
    violation did not block the resource is sent by the handler of the policy's
    kind, under the policy's name and the rule in brackets (the policy's name
    again when there are none), as not blocked and with the resource's UID. *)
Theorem kyverno_event_sent prefix event rule s :
  audit_prefix event = Some prefix ->
  rule_in_brackets (or_Name (ev_InvolvedObject event)) (ev_Message event) = Ret rule ->
  exists v, process false (Some (kyverno_watched_event prefix event)) s = Ret (send Version config v s)
    /\ pe_Policies v = one_policy (or_Name (ev_InvolvedObject event)) rule (ev_Message event)
    /\ pe_Blocked v = false /\ er_UID (pe_EventReport v) = or_UID (event_resource event).
Proof. intros Hp Hr. eexists. split; [by apply kyverno_event_handled|done]. Qed.

(** A successful send of an unprocessed event puts its identifier in the cache. *)
Lemma send_caches `{!BigCacheLaws C} v cache w cache' w' :
  snd (cache_Set cache (er_UID (pe_EventReport v)) "true") = true ->
  send Version config v (cache, w) = ((cache', w'), Ok tt) ->
  IsPolicyViolationAlreadyProcessed cache' (er_UID (pe_EventReport v)) = true.
Proof.
  intros Hs. unfold send, SendToInsights. intros H.
  destruct (IsPolicyViolationAlreadyProcessed cache _) eqn:E; [by injection H as <- <-|].
  destruct (json_Marshal v) as [json|]; [|done]. destruct (negb _); [done|].
  destruct (Do _ w) as [w1 [code|msg]]; [|done]. case_bool_decide; [|done].
  injection H as <- <-. unfold IsPolicyViolationAlreadyProcessed. by rewrite (Get_Set_same _ _ _ Hs).
Qed.

(** A resource that violates several policies in audit mode is reported for one
    only: once the event of one policy has been sent, the events of all other
    policies for the same resource change nothing and reach nobody, as long as
    the cache keeps the entry, because the identifier under which events are
    remembered is that of the resource. *)
Theorem second_policy_suppressed `{!BigCacheLaws C} p1 p2 ev1 ev2 rule cache w cache' w' :
  audit_prefix ev1 = Some p1 -> audit_prefix ev2 = Some p2 ->
  or_UID (event_resource ev1) = or_UID (event_resource ev2) ->
  rule_in_brackets (or_Name (ev_InvolvedObject ev1)) (ev_Message ev1) = Ret rule ->
  snd (cache_Set cache (or_UID (event_resource ev1)) "true") = true ->
  process false (Some (kyverno_watched_event p1 ev1)) (cache, w) = Ret ((cache', w'), Ok tt) ->
  silent (process false (Some (kyverno_watched_event p2 ev2)) (cache', w')) (cache', w').
Proof.
  intros H1 H2 Hu Hr Hs Hp. rewrite (kyverno_event_handled _ _ _ _ H1 Hr) in Hp. injection Hp as Hp.
  apply send_caches in Hp; [|exact Hs]. apply ProcessEvent_silent. simpl in *. by rewrite <-Hu.
Qed.

(** The key under which a poll looks its events up is not the one under which they
    are remembered: handling the event never puts its key into the cache, unless
    the key happens to be the UID of the resource. *)
Lemma event_key_never_stored `{!BigCacheLaws C} prefix event rule cache w cache' w' r :
  audit_prefix event = Some prefix ->
  rule_in_brackets (or_Name (ev_InvolvedObject event)) (ev_Message event) = Ret rule ->
  event_key event <> or_UID (event_resource event) ->
  process false (Some (kyverno_watched_event prefix event)) (cache, w) = Ret ((cache', w'), r) ->
  IsPolicyViolationAlreadyProcessed cache (event_key event) = false ->
  kyverno_event cache' event = Some (kyverno_watched_event prefix event).
Proof.
  intros Hp Hr Hne H Hk. rewrite (kyverno_event_handled _ _ _ _ Hp Hr) in H. injection H as H.
  unfold kyverno_event. rewrite Hp.
  destruct (IsPolicyViolationAlreadyProcessed cache' (event_key event)) eqn:E; [|done]. exfalso.
  unfold send in H. destruct (SendToInsights _ _ _ _) as [[c1 w1] r1] eqn:Es. injection H as -> -> _.
  apply (SendToInsights_cache _ _ _ _ _ _ _ _ (event_key event)) in Es as [_ Es].
  destruct (Es E) as [Eo|[Eo _]]; [congruence|]. by apply Hne.
Qed.
End kubernetes.

(** *** Two policies, one pod *)

Definition x_object (kind ns name uid : string) : ObjectReference :=
  {| or_Kind := kind; or_Namespace := ns; or_Name := name; or_UID := uid; or_fields := [] |}.

Definition x_event (policy message uid : string) : Event :=
  {| ev_UID := uid; ev_Annotations := None; ev_Labels := None; ev_CreationTimestamp := 0; ev_ResourceVersion := "1";
     ev_InvolvedObject := x_object "ClusterPolicy" "" policy ("uid-of-" +:+ policy);
     ev_Related := Some (x_object "Pod" "default" "web" "uid-of-web"); ev_EventTime := 0; ev_Message := message;
     ev_Reason := "PolicyViolation"; ev_Action := "Resource Passed"; ev_Type := "Warning";
     ev_ReportingInstance := ""; ev_Source := [] |}.

Definition x_event1 : Event := x_event "require-labels" "Pod default/web: [labels] fail; missing" "e1".
Definition x_event2 : Event := x_event "limits" "Pod default/web: [cpu] fail; no limit" "e2".

Definition x_process (e : WatchedEvent) (s : gmap string string * list request) :=
  ProcessEvent (RangeOrder0 := canonical_order) x_yaml "1.0" x_config (NewEventHandlerFactory false) (Some e) s.

Definition x_watched (ev : Event) : WatchedEvent := kyverno_watched_event AuditOnlyClusterPolicyViolationPrefix ev.

Lemma kyverno_event_sent_witness :
  exists v, x_process (x_watched x_event1) (∅, []) = Ret (send "1.0" x_config v (∅, []))
    /\ pe_Policies v = one_policy "require-labels" "labels" (ev_Message x_event1).
Proof.
  destruct (kyverno_event_sent (RangeOrder0 := canonical_order) x_yaml "1.0" x_config
              AuditOnlyClusterPolicyViolationPrefix x_event1 "labels" (∅ : gmap string string, [] : list request)
              eq_refl eq_refl) as (v & H1 & H2 & _).
  exists v. exact (conj H1 H2).
Defined.

(** The state after the first event: one request. *)
Definition x_after : gmap string string * list request :=
  match x_process (x_watched x_event1) (∅, []) with
  | Ret (s, _) => s
  | Panic => (∅, [])
  end.

Lemma x_first : x_process (x_watched x_event1) (∅, []) = Ret (x_after, Ok tt).
Proof. vm_compute. reflexivity. Qed.

Lemma second_policy_suppressed_witness :
  length (snd x_after) = 1 /\ silent (x_process (x_watched x_event2) x_after) x_after.
Proof.
  split; [vm_compute; reflexivity|].
  exact (second_policy_suppressed (RangeOrder0 := canonical_order) x_yaml "1.0" x_config
           AuditOnlyClusterPolicyViolationPrefix AuditOnlyClusterPolicyViolationPrefix x_event1 x_event2 "labels"
           (∅ : gmap string string) ([] : list request) (fst x_after) (snd x_after)
           eq_refl eq_refl eq_refl eq_refl eq_refl x_first).
Defined.

(** ** Theorems: the audit log *)

Section audit_log.
Context {C : Type} `{!BigCache C} (yaml_Unmarshal : string -> result string policies).
Context (json_AuditEvent : string -> option AuditEvent).

Notation line_event := (line_event yaml_Unmarshal json_AuditEvent).
Notation process_lines := (process_lines yaml_Unmarshal json_AuditEvent).

(** Offers to a channel that nobody empties: what fits is appended in order, the
    rest is dropped. *)
Lemma offers_fill es ch :
  length (ch_events ch) <= ch_capacity ch + ch_waiting ch ->
  foldl (fun ch e => offer e ch) ch es
  = {| ch_capacity := ch_capacity ch; ch_waiting := ch_waiting ch;
       ch_events := ch_events ch ++
         take (ch_capacity ch + ch_waiting ch - length (ch_events ch)) (omap id es) |}.
Proof.
  revert ch. induction es as [|[e|] es IH]; intros ch Hr; simpl.
  - rewrite take_nil, app_nil_r. by destruct ch.
  - unfold try_send, ch_room. destruct (length (ch_events ch) <? ch_capacity ch + ch_waiting ch) eqn:E; simpl.
    + apply Nat.ltb_lt in E. rewrite IH by (simpl; rewrite length_app; simpl; lia). simpl. f_equal.
      rewrite <-app_assoc, length_app. simpl. f_equal.
      replace (ch_capacity ch + ch_waiting ch - length (ch_events ch))
        with (S (ch_capacity ch + ch_waiting ch - (length (ch_events ch) + 1))) by lia. done.
    + apply Nat.ltb_ge in E. rewrite IH by done. f_equal. f_equal.
      by replace (ch_capacity ch + ch_waiting ch - length (ch_events ch)) with 0 by lia.
  - by apply IH.
Qed.

Lemma process_lines_offers now cache lines es ch :
  Forall2 (fun line e => line_event now cache line = Ret e) lines es ->
  process_lines now cache lines ch = Ret (foldl (fun ch e => offer e ch) ch es).
Proof.
  intros H. revert ch. induction H as [|line e lines es Hl _ IH]; intros ch; simpl; [done|].
  rewrite Hl. simpl. apply IH.
Qed.

(** One pass over the audit log, while nothing is received: when no line panics,
    the events of the scanned lines are appended to the channel in the order of
    the lines as far as it has room, and the rest is dropped. *)
Theorem audit_pass_fills now cache content es ch :
  length (ch_events ch) <= ch_capacity ch + ch_waiting ch ->
  Forall2 (fun line e => line_event now cache line = Ret e) (scan_lines content) es ->
  processNewAuditLogEntries yaml_Unmarshal json_AuditEvent now cache (Some content) ch
  = Ret {| ch_capacity := ch_capacity ch; ch_waiting := ch_waiting ch;
           ch_events := ch_events ch ++
             take (ch_capacity ch + ch_waiting ch - length (ch_events ch)) (omap id es) |}.
Proof.
  intros Hr H. unfold processNewAuditLogEntries. rewrite (process_lines_offers _ _ _ es) by done.
  by rewrite offers_fill.
Qed.

(** Nothing that has been sent is offered again. *)
Lemma processed_line_not_offered now cache line ae :
  json_AuditEvent (TrimSpace line) = Some ae ->
  IsPolicyViolationAlreadyProcessed cache (ae_AuditID ae) = true ->
  line_event now cache line = Ret None.
Proof.
  intros Hj Hp. unfold EventWatcherProducers.line_event. case_bool_decide; [done|].
  rewrite Hj. unfold audit_watched_event. by rewrite Hp.
Qed.

Lemma scan_pieces_long before long after :
  (65535 < lenS long)%Z -> scan_pieces (before ++ long :: after) = scan_pieces (before ++ [long]).
Proof.
  intros Hl. assert (E : (65535 <? lenS long)%Z = true) by lia.
  induction before as [|p before IH].
  - simpl. rewrite E, orb_true_r. destruct after; by rewrite ?E, ?orb_true_r.
  - cbn [app]. cbn [scan_pieces]. destruct (before ++ long :: after) eqn:E1; [by destruct before|].
    destruct (before ++ [long]) eqn:E2; [by destruct before|]. by rewrite <-E1, <-E2, IH in *.
Qed.
End audit_log.

(** The last piece does not matter when it is not delivered. *)
Lemma scan_pieces_end before p q :
  (p = "" \/ 65535 < lenS p)%Z -> (q = "" \/ 65535 < lenS q)%Z ->
  scan_pieces (before ++ [p]) = scan_pieces (before ++ [q]).
Proof.
  intros Hp Hq.
  assert (E : forall r, (r = "" \/ 65535 < lenS r)%Z -> scan_pieces [r] = []).
  { intros r [->|Hr]; [done|]. simpl. by rewrite (proj2 (Z.ltb_lt _ _) Hr), orb_true_r. }
  induction before as [|x before IH]; [cbn [app]; by rewrite (E p), (E q)|].
  cbn [app]. cbn [scan_pieces]. destruct (before ++ [p]) eqn:E1; [by destruct before|].
  destruct (before ++ [q]) eqn:E2; [by destruct before|]. by rewrite IH.
Qed.

Section long_lines.
Context {C : Type} `{!BigCache C} (yaml_Unmarshal : string -> result string policies).
Context (json_AuditEvent : string -> option AuditEvent).

(** A line of the audit log that is longer than the scanner's buffer hides
    everything after it: the pass does exactly what it would do if the file ended
    before that line, in every pass for as long as the line is there. *)
Theorem long_line_hides_the_rest now cache pre long rest ch :
  newline ∉ chars long -> (65535 < lenS long)%Z ->
  processNewAuditLogEntries yaml_Unmarshal json_AuditEvent now cache
    (Some (pre +:+ String newline (long +:+ String newline rest))) ch
  = processNewAuditLogEntries yaml_Unmarshal json_AuditEvent now cache (Some (pre +:+ String newline "")) ch.
Proof.
  intros Hn Hl. unfold processNewAuditLogEntries. f_equal. unfold scan_lines, Split.
  assert (E1 : chars (pre +:+ String newline (long +:+ String newline rest))
    = chars pre ++ newline :: chars long ++ newline :: chars rest).
  { rewrite chars_app. f_equal. change (chars (String newline (long +:+ String newline rest)))
      with (newline :: chars (long +:+ String newline rest)). by rewrite chars_app. }
  rewrite E1, chars_app, !split_aux_app, (split_aux_whole newline [] (chars long)) by done.
  change (chars (String newline "")) with [newline]. rewrite split_aux_app.
  cbn [reverse rev_append app split_aux]. rewrite str_chars.
  rewrite scan_pieces_long by done. apply scan_pieces_end; [by right|by left].
Qed.
End long_lines.

(** 2^16 characters. *)
Definition x_long : string := str (Nat.iter 16 (fun l => l ++ l) ["a"%char]).

Definition x_json (s : string) : option AuditEvent := if bool_decide (s = "{}") then Some x_audit else None.

Definition x_chan : chan := {| ch_capacity := 10; ch_waiting := 0; ch_events := [] |}.

(** The entry after the long line is never offered. *)
Lemma long_line_hides_the_rest_witness :
  processNewAuditLogEntries x_yaml x_json 0 (∅ : gmap string string)
    (Some ("" +:+ String newline (x_long +:+ String newline "{}"))) x_chan = Ret x_chan
  /\ processNewAuditLogEntries x_yaml x_json 0 (∅ : gmap string string) (Some "{}") x_chan
     = Ret (ch_push (blocked_watched_event 0 x_violation) x_chan).
Proof.
  split; [|vm_compute; reflexivity].
  rewrite (long_line_hides_the_rest x_yaml x_json 0 ∅ "" x_long "{}" x_chan);
    [vm_compute; reflexivity|apply not_elem_of_decide; vm_compute; reflexivity|vm_compute; reflexivity].
Defined.

Lemma audit_pass_fills_witness :
  processNewAuditLogEntries x_yaml x_json 0 (∅ : gmap string string)
    (Some ("{}" +:+ String newline "not json")) x_chan
  = Ret {| ch_capacity := 10; ch_waiting := 0; ch_events := [blocked_watched_event 0 x_violation] |}.
Proof.
  apply (audit_pass_fills x_yaml x_json 0 ∅ ("{}" +:+ String newline "not json")
           [Some (blocked_watched_event 0 x_violation); None] x_chan); [simpl; lia|].
  assert (E : scan_lines ("{}" +:+ String newline "not json") = ["{}"; "not json"]) by reflexivity.
  rewrite E. apply Forall2_cons_2; [vm_compute; reflexivity|].
  apply Forall2_cons_2; [vm_compute; reflexivity|apply Forall2_nil_2].
Defined.

(** ** Theorems: CloudWatch *)

(** An operation with a counter of its calls. *)
Definition counted {S A} (op : S -> go (S * result string A)) (ks : nat * S)
  : go ((nat * S) * result string A) :=
  '(s, r) ← op (snd ks); mret ((Datatypes.S (fst ks), s), r).

Lemma with_retry_counted {S A} (op : S -> go (S * result string A)) cancelled n k s k' s' r :
  with_retry (counted op) cancelled n (k, s) = Ret ((k', s'), r) ->
  with_retry op cancelled n s = Ret (s', r) /\ k <= k' <= k + n /\ (0 < n -> k < k').
Proof.
  revert k s. induction n as [|n IH]; intros k s; simpl; [intros [= <- <- <-]; split; [done|lia]|].
  assert (Hc : counted op (k, s) = match op s with
                                   | Ret (s1, r1) => Ret ((Datatypes.S k, s1), r1)
                                   | Panic => Panic
                                   end) by (unfold counted; simpl; by destruct (op s) as [[? ?]|]).
  rewrite Hc. destruct (op s) as [[s1 r1]|]; cbn [mbind go_bind mret go_ret]; [|done].
  destruct r1 as [a|msg]; [intros [= <- <- <-]; split; [done|lia]|].
  destruct (negb _); [intros [= <- <- <-]; split; [done|lia]|].
  destruct n as [|n]; [intros [= <- <- <-]; split; [done|lia]|].
  destruct (cancelled (Datatypes.S n)); [intros [= <- <- <-]; split; [done|lia]|].
  intros H. apply IH in H as (H & Hk & _). split; [exact H|lia].
Qed.

(** Retries are bounded and stop at the first success: the streams of a log
    group are asked for at least once and at most three times, a stream is read at
    least once and at most twice, and an attempt that succeeds after errors that may
    be retried, while nothing is cancelled, is the result. *)
Theorem retries_bounded {S A} (op : S -> go (S * result string A)) cancelled n s k s' r :
  0 < n ->
  (with_retry (counted op) cancelled n (0, s) = Ret ((k, s'), r) ->
   1 <= k <= n /\ with_retry op cancelled n s = Ret (s', r))
  /\ (forall a s1 s2 msg, op s = Ret (s1, Err msg) -> isRetryableError msg = true ->
        (forall i, cancelled i = false) -> op s1 = Ret (s2, Ok a) -> 2 <= n ->
        with_retry op cancelled n s = Ret (s2, Ok a)).
Proof.
  intros Hn. split.
  - intros H. apply with_retry_counted in H as (H & Hk & Hk'). split; [lia|done].
  - intros a s1 s2 msg H1 He Hc H2 Hn2. destruct n as [|[|n]]; [lia|lia|]. simpl.
    rewrite H1. simpl. rewrite He. simpl. rewrite Hc. by rewrite H2.
Qed.

(** With a filter pattern the request does not name the stream: every stream with
    an ingestion time gives the same answer, the events of the whole group. *)
Lemma filtered_stream_ignored {C W} `{!BigCache C} `{!CloudWatchLogs W} y j cfg now (cache : C) s1 s2 (s : W * chan) :
  cc_FilterPattern cfg <> "" -> is_Some (ls_LastIngestionTime s1) -> is_Some (ls_LastIngestionTime s2) ->
  processLogStream y j cfg now cache s1 s = processLogStream y j cfg now cache s2 s.
Proof.
  intros Hf [t1 H1] [t2 H2]. unfold processLogStream. rewrite H1, H2.
  by rewrite (bool_decide_eq_false_2 (cc_FilterPattern cfg = "")) by done.
Qed.

(** *** The interval of the ticker *)

Lemma poll_tick_range p ok st :
  (0 <= consecutiveErrors st < maxConsecutiveErrors)%Z ->
  interval st = p \/ interval st = GoInt.i64 (p * 2) ->
  (0 <= consecutiveErrors (poll_tick p ok st) < maxConsecutiveErrors)%Z
  /\ (interval (poll_tick p ok st) = p \/ interval (poll_tick p ok st) = GoInt.i64 (p * 2)).
Proof.
  intros Hc Hi. unfold poll_tick, maxConsecutiveErrors in *.
  destruct ok; [destruct (0 <? _)%Z; simpl; auto with lia|].
  destruct (5 <=? _)%Z eqn:E; simpl; [auto with lia|]. apply Z.leb_gt in E. split; [lia|done].
Qed.

Lemma poll_ok_idle p n st : consecutiveErrors st = 0%Z ->
  foldl (fun s ok => poll_tick p ok s) st (replicate n true) = st.
Proof.
  intros H. assert (E : poll_tick p true st = st) by (unfold poll_tick; by rewrite H).
  induction n as [|n IH]; [done|]. cbn [replicate foldl]. by rewrite E.
Qed.

(** The longer interval that five failures in a row cause is not temporary: no
    number of successes afterwards brings the interval back, since the counter that
    the recovery looks at was reset; one more failure followed by a success does.
    At any time the counter is below five and the interval the configured one or
    its double. *)
Theorem doubled_interval_sticks p n oks :
  interval (poll_ticks p (replicate 5 false ++ replicate n true)) = GoInt.i64 (p * 2)
  /\ interval (poll_ticks p (replicate 5 false ++ replicate n true ++ [false; true])) = p
  /\ (0 <= consecutiveErrors (poll_ticks p oks) < maxConsecutiveErrors)%Z
  /\ (interval (poll_ticks p oks) = p \/ interval (poll_ticks p oks) = GoInt.i64 (p * 2)).
Proof.
  assert (H5 : foldl (fun s ok => poll_tick p ok s) (start_poll p) (replicate 5 false)
    = {| consecutiveErrors := 0; interval := GoInt.i64 (p * 2) |}) by reflexivity.
  assert (Hinv : (0 <= consecutiveErrors (poll_ticks p oks) < maxConsecutiveErrors)%Z
    /\ (interval (poll_ticks p oks) = p \/ interval (poll_ticks p oks) = GoInt.i64 (p * 2))).
  { apply (foldl_inv (fun st => (0 <= consecutiveErrors st < maxConsecutiveErrors)%Z
      /\ (interval st = p \/ interval st = GoInt.i64 (p * 2)))); [split; [done|by left]|].
    intros st ok _ [H1 H2]. by apply poll_tick_range. }
  split; [|split; [|exact Hinv]].
  - unfold poll_ticks. by rewrite foldl_app, H5, poll_ok_idle.
  - unfold poll_ticks. by rewrite !foldl_app, H5, poll_ok_idle.
Qed.
