(* ===== verification/EventWatcherWatcher.v ===== *)
(** * event-watcher: metrics, health and the watcher

    [event-watcher/pkg/metrics/metrics.go], [pkg/health/], [pkg/watcher/] and the
    environment read by [cmd/insights-event-watcher/commands/].  The goroutines of
    the watcher (the poll of Kubernetes events, the audit log, the consumer and
    the shutdown in [main]) are the constructors of a step relation, and so is the
    lock of the metrics. *)

From stdpp Require Import base decidable list gmap strings relations.
From Stdlib Require Import ZArith Lia Ascii.
From S2P Require Import Prelude GoNumbers GoStrings GoText PrometheusQueries GoValues EventWatcherModels EventWatcherMessages EventWatcherEvents.

(** ** Metrics

    The counters; the rates per second, which are only logged, are left out. *)
Record Metrics := {
  EventsProcessed : Z;
  EventsDropped : Z;
  EventsInChannel : Z;
  ProcessingDuration : Z;
  ChannelCapacity : Z;
  lastEventTime : Z;
  lastProcessedTime : Z;
  lastDroppedTime : Z;
  startTime : Z
}.

Definition NewMetrics (channelCapacity now : Z) : Metrics :=
  {| EventsProcessed := 0; EventsDropped := 0; EventsInChannel := 0; ProcessingDuration := 0;
     ChannelCapacity := channelCapacity; lastEventTime := now; lastProcessedTime := now;
     lastDroppedTime := now; startTime := now |}.

Definition RecordEventProcessed (now : Z) (m : Metrics) : Metrics :=
  {| EventsProcessed := GoInt.i64 (EventsProcessed m + 1); EventsDropped := EventsDropped m;
     EventsInChannel := EventsInChannel m; ProcessingDuration := ProcessingDuration m;
     ChannelCapacity := ChannelCapacity m; lastEventTime := lastEventTime m; lastProcessedTime := now;
     lastDroppedTime := lastDroppedTime m; startTime := startTime m |}.

Definition RecordEventDropped (now : Z) (m : Metrics) : Metrics :=
  {| EventsProcessed := EventsProcessed m; EventsDropped := GoInt.i64 (EventsDropped m + 1);
     EventsInChannel := EventsInChannel m; ProcessingDuration := ProcessingDuration m;
     ChannelCapacity := ChannelCapacity m; lastEventTime := lastEventTime m;
     lastProcessedTime := lastProcessedTime m; lastDroppedTime := now; startTime := startTime m |}.

Definition set_in_channel (n : Z) (m : Metrics) : Metrics :=
  {| EventsProcessed := EventsProcessed m; EventsDropped := EventsDropped m;
     EventsInChannel := n; ProcessingDuration := ProcessingDuration m;
     ChannelCapacity := ChannelCapacity m; lastEventTime := lastEventTime m;
     lastProcessedTime := lastProcessedTime m; lastDroppedTime := lastDroppedTime m; startTime := startTime m |}.

Definition RecordEventInChannel (now : Z) (m : Metrics) : Metrics :=
  {| EventsProcessed := EventsProcessed m; EventsDropped := EventsDropped m;
     EventsInChannel := GoInt.i64 (EventsInChannel m + 1); ProcessingDuration := ProcessingDuration m;
     ChannelCapacity := ChannelCapacity m; lastEventTime := now; lastProcessedTime := lastProcessedTime m;
     lastDroppedTime := lastDroppedTime m; startTime := startTime m |}.

Definition RecordEventOutChannel (m : Metrics) : Metrics :=
  if (0 <? EventsInChannel m)%Z then set_in_channel (EventsInChannel m - 1) m else m.

Definition RecordProcessingDuration (duration : Z) (m : Metrics) : Metrics :=
  {| EventsProcessed := EventsProcessed m; EventsDropped := EventsDropped m;
     EventsInChannel := EventsInChannel m; ProcessingDuration := duration;
     ChannelCapacity := ChannelCapacity m; lastEventTime := lastEventTime m;
     lastProcessedTime := lastProcessedTime m; lastDroppedTime := lastDroppedTime m; startTime := startTime m |}.

Definition GetTotalEvents (m : Metrics) : Z * Z := (EventsProcessed m, EventsDropped m).

Definition GetUptime (now : Z) (m : Metrics) : Z := GoTime.Sub now (startTime m).

Definition Reset (now : Z) (m : Metrics) : Metrics := NewMetrics (ChannelCapacity m) now.

Section utilization.
Context `{Float64}.

Definition GetChannelUtilization (m : Metrics) : float :=
  if (ChannelCapacity m =? -1)%Z then of_int 0
  else if (ChannelCapacity m =? 0)%Z then of_int 0
  else f_mul (f_div (of_int (EventsInChannel m)) (of_int (ChannelCapacity m))) (of_int 100).

(** ** The health checker *)

Definition minUptime : Z := 5 * GoTime.Second.

Inductive unhealthy : Type :=
| Cancelled
| NoMetrics
| StartingUp (uptime : Z)
| HighDropRate (rate : float) (dropped total : Z)
| HighUtilization (utilization : float).

Definition CheckHealth (min_uptime : Z) (cancelled : bool) (metrics : option Metrics) (now : Z)
  : result unhealthy unit :=
  if cancelled then Err Cancelled else
  match metrics with
  | None => Err NoMetrics
  | Some m =>
      let uptime := GetUptime now m in
      if (uptime <? min_uptime)%Z then Err (StartingUp uptime) else
      let '(processed, dropped) := GetTotalEvents m in
      let total := GoInt.i64 (processed + dropped) in
      let dropRate := f_mul (f_div (of_int dropped) (of_int total)) (of_int 100) in
      if (0 <? processed)%Z && f_lt (of_int 50) dropRate then Err (HighDropRate dropRate dropped total) else
      let utilization := GetChannelUtilization m in
      if f_lt (of_int 90) utilization then Err (HighUtilization utilization) else Ok tt
  end.

(** Without counted drops and events only the uptime decides. *)
Lemma CheckHealth_uncounted min_uptime m now :
  (forall a b, (0 <= a)%Z -> f_lt (of_int a) (f_mul (f_div (of_int 0) (of_int b)) (of_int 100)) = false) ->
  EventsDropped m = 0%Z -> EventsInChannel m = 0%Z ->
  CheckHealth min_uptime false (Some m) now
  = if (GetUptime now m <? min_uptime)%Z then Err (StartingUp (GetUptime now m)) else Ok tt.
Proof.
  intros Hz Hd Hc. unfold CheckHealth, GetTotalEvents, GetChannelUtilization. rewrite Hd, Hc, Hz by lia.
  rewrite andb_false_r. destruct (_ <? _)%Z; [done|].
  assert (H0 : f_lt (of_int 90) (of_int 0) = false) by (rewrite f_lt_exact; [done|unfold exact; lia..]).
  destruct (_ =? -1)%Z; [by rewrite H0|]. destruct (_ =? 0)%Z; [by rewrite H0|]. by rewrite Hz by lia.
Qed.
End utilization.

(** ** The health server *)

Inductive HealthStatus : Type := StatusHealthy | StatusUnhealthy | StatusStarting | StatusStopping.

#[export] Instance HealthStatus_eq_dec : EqDecision HealthStatus.
Proof. solve_decision. Defined.

Definition StatusOK : Z := 200.
Definition StatusServiceUnavailable : Z := 503.

(** The state of the server: its status and its checkers, with their names and
    what they answer now. *)
Record Server := {
  sv_status : HealthStatus;
  sv_checkers : list (string * option string)
}.

Definition NewServer : Server := {| sv_status := StatusStarting; sv_checkers := [] |}.

Definition RegisterChecker (checker : string * option string) (s : Server) : Server :=
  {| sv_status := sv_status s; sv_checkers := sv_checkers s ++ [checker] |}.

Definition SetStatus (status : HealthStatus) (s : Server) : Server :=
  {| sv_status := status; sv_checkers := sv_checkers s |}.

Definition Server_Start (s : Server) : Server := SetStatus StatusHealthy s.
Definition Server_Stop (s : Server) : Server := SetStatus StatusStopping s.

Record HealthResponse := {
  hr_Status : HealthStatus;
  hr_Code : Z;
  hr_Details : gmap string (option string)
}.

Definition livenessHandler (s : Server) : HealthResponse :=
  if decide (sv_status s = StatusStopping)
  then {| hr_Status := StatusStopping; hr_Code := StatusServiceUnavailable; hr_Details := ∅ |}
  else {| hr_Status := sv_status s; hr_Code := StatusOK; hr_Details := ∅ |}.

(** The details hold, under the name of each checker, its error or that it is healthy. *)
Definition checker_details (s : Server) : gmap string (option string) :=
  foldl (fun d c => <[fst c := snd c]> d) ∅ (sv_checkers s).

Definition all_healthy (s : Server) : bool :=
  forallb (fun c => match snd c with None => true | Some _ => false end) (sv_checkers s).

Definition readinessHandler (s : Server) : HealthResponse :=
  if negb (bool_decide (sv_status s = StatusHealthy))
  then {| hr_Status := sv_status s; hr_Code := StatusServiceUnavailable; hr_Details := ∅ |}
  else if all_healthy s
  then {| hr_Status := StatusHealthy; hr_Code := StatusOK; hr_Details := checker_details s |}
  else {| hr_Status := StatusUnhealthy; hr_Code := StatusServiceUnavailable; hr_Details := checker_details s |}.

Definition healthHandler (s : Server) : HealthResponse :=
  {| hr_Status := sv_status s; hr_Code := StatusOK; hr_Details := checker_details s |}.

(** The probes: a ready answer is given exactly while the server is started and
    not stopping and every registered checker is healthy; the process is
    reported alive until the server is stopping, and never afterwards. *)
Theorem probes_spec s :
  (hr_Code (readinessHandler s) = StatusOK <->
   sv_status s = StatusHealthy /\ Forall (fun c => snd c = None) (sv_checkers s))
  /\ (hr_Code (livenessHandler s) = StatusOK <-> sv_status s <> StatusStopping)
  /\ hr_Code (readinessHandler (Server_Stop s)) = StatusServiceUnavailable
  /\ hr_Code (livenessHandler (Server_Stop s)) = StatusServiceUnavailable.
Proof.
  split_and!; [| |done|done].
  - unfold readinessHandler. case_bool_decide as Hs; simpl; [|by naive_solver].
    assert (Hf : all_healthy s = true <-> Forall (fun c => snd c = None) (sv_checkers s)).
    { unfold all_healthy. rewrite List.forallb_forall, Forall_forall.
      split; intros H c Hc; specialize (H c); rewrite list_elem_of_In in *; [|rewrite H by done; done].
      specialize (H Hc). by destruct (snd c). }
    destruct (all_healthy s); simpl; naive_solver.
  - unfold livenessHandler. destruct (decide (sv_status s = StatusStopping)); simpl; naive_solver.
Qed.

(** ** Sources of events *)

Definition EventSourceTypeAuditLog : string := "audit-log".
Definition EventSourceTypeCloudWatch : string := "cloudwatch".
Definition EventSourceTypeKubernetesEvents : string := "kubernetes-events".

(** The configuration of CloudWatch that the factory passes on; its region is
    all that is looked at here. *)
Record EventSourceConfig := {
  sc_Type : string;
  sc_KubeClient : bool;
  sc_AuditLogPath : string;
  sc_CloudWatchRegion : option string;
  sc_EventPollInterval : string
}.

(** The adapters, with what they keep of the configuration. *)
Inductive EventSource : Type :=
| AuditLogEventSource (auditLogPath : string)
| CloudWatchEventSource (region : string)
| KubernetesEventSource (pollInterval : string).

Definition GetName (s : EventSource) : string :=
  match s with
  | AuditLogEventSource _ => "audit-log"
  | CloudWatchEventSource _ => "cloudwatch"
  | KubernetesEventSource _ => "kubernetes-events"
  end.

Definition IsEnabled (s : EventSource) : bool :=
  match s with
  | AuditLogEventSource path => negb (bool_decide (path = ""))
  | _ => true
  end.

Section factory.
(** [config.LoadDefaultConfig] for a region. *)
Context (LoadDefaultConfig : string -> option string).

Definition createAuditLogEventSource (config : EventSourceConfig) : result string EventSource :=
  if bool_decide (sc_AuditLogPath config = "") then Err "audit log path is required for audit log event source"
  else if negb (sc_KubeClient config) then Err "kubernetes client is required for audit log event source"
  else Ok (AuditLogEventSource (sc_AuditLogPath config)).

Definition createCloudWatchEventSource (config : EventSourceConfig) : result string EventSource :=
  match sc_CloudWatchRegion config with
  | None => Err "cloudwatch config is required for cloudwatch event source"
  | Some region =>
      match LoadDefaultConfig region with
      | Some msg => Err ("failed to create AWS config: " +:+ msg)
      | None => Ok (CloudWatchEventSource region)
      end
  end.

Definition createKubernetesEventSource (config : EventSourceConfig) : result string EventSource :=
  if negb (sc_KubeClient config) then Err "kubernetes client is required for kubernetes event source"
  else if bool_decide (sc_EventPollInterval config = "")
  then Err "event poll interval is required for kubernetes event source"
  else Ok (KubernetesEventSource (sc_EventPollInterval config)).

Definition creators : list (string * (EventSourceConfig -> result string EventSource)) :=
  [(EventSourceTypeAuditLog, createAuditLogEventSource);
   (EventSourceTypeCloudWatch, createCloudWatchEventSource);
   (EventSourceTypeKubernetesEvents, createKubernetesEventSource)].

(** A type without a creator gives neither a source nor an error. *)
Definition CreateEventSource (config : EventSourceConfig) : result string (option EventSource) :=
  match List.find (fun c => bool_decide (fst c = sc_Type config)) creators with
  | None => Ok None
  | Some (_, creator) => match creator config with
                         | Ok s => Ok (Some s)
                         | Err msg => Err msg
                         end
  end.

(** The sources in order, or the number of configurations that failed. *)
Fixpoint create_sources (configs : list EventSourceConfig) : list EventSource * nat :=
  match configs with
  | [] => ([], 0)
  | config :: configs =>
      let '(sources, errors) := create_sources configs in
      match CreateEventSource config with
      | Err _ => (sources, S errors)
      | Ok None => (sources, errors)
      | Ok (Some s) => (s :: sources, errors)
      end
  end.

Definition CreateEventSources (configs : list EventSourceConfig) : result nat (list EventSource) :=
  let '(sources, errors) := create_sources configs in
  if 0 <? errors then Err errors else Ok sources.

Definition BuildEventSourceConfigs (kubeClient : bool) (logSource auditLogPath eventPollInterval : string)
  (cloudwatchConfig : option string) : list EventSourceConfig :=
  (if bool_decide (auditLogPath = "") then []
   else [{| sc_Type := EventSourceTypeAuditLog; sc_KubeClient := kubeClient; sc_AuditLogPath := auditLogPath;
            sc_CloudWatchRegion := None; sc_EventPollInterval := eventPollInterval |}])
  ++ (match cloudwatchConfig with
      | Some region =>
          if bool_decide (logSource = "cloudwatch")
          then [{| sc_Type := EventSourceTypeCloudWatch; sc_KubeClient := kubeClient; sc_AuditLogPath := "";
                   sc_CloudWatchRegion := Some region; sc_EventPollInterval := eventPollInterval |}]
          else []
      | None => []
      end)
  ++ [{| sc_Type := EventSourceTypeKubernetesEvents; sc_KubeClient := kubeClient; sc_AuditLogPath := "";
         sc_CloudWatchRegion := None; sc_EventPollInterval := eventPollInterval |}].

Definition AddEventSource (name : string) (s : EventSource) (m : gmap string EventSource) : gmap string EventSource :=
  <[name := s]> m.

(** [NewWatcher] names the i-th source after the i-th configuration. *)
Definition add_sources (configs : list EventSourceConfig) (sources : list EventSource) : gmap string EventSource :=
  foldl (fun m cs => AddEventSource (sc_Type (fst cs)) (snd cs) m) ∅ (zip configs sources).

Definition watcher_sources (logSource auditLogPath eventPollInterval : string) (cloudwatchConfig : option string)
  : result nat (gmap string EventSource) :=
  let configs := BuildEventSourceConfigs true logSource auditLogPath eventPollInterval cloudwatchConfig in
  match CreateEventSources configs with
  | Err n => Err n
  | Ok sources => Ok (add_sources configs sources)
  end.

(** [StartAll] starts the enabled ones. *)
Definition started (m : gmap string EventSource) : gmap string EventSource := filter (fun kv => IsEnabled (snd kv) = true) m.

Lemma create_sources_cons config configs :
  create_sources (config :: configs)
  = match CreateEventSource config with
    | Err _ => (fst (create_sources configs), S (snd (create_sources configs)))
    | Ok None => create_sources configs
    | Ok (Some s) => (s :: fst (create_sources configs), snd (create_sources configs))
    end.
Proof. simpl. destruct (create_sources configs) as [l n]. by destruct (CreateEventSource config) as [[s|]|]. Qed.

(** The three kinds of configuration that are built. *)
Definition created (r : result string EventSource) : result string (option EventSource) :=
  match r with
  | Ok s => Ok (Some s)
  | Err msg => Err msg
  end.

Lemma Create_kubernetes interval :
  CreateEventSource {| sc_Type := EventSourceTypeKubernetesEvents; sc_KubeClient := true; sc_AuditLogPath := "";
                       sc_CloudWatchRegion := None; sc_EventPollInterval := interval |}
  = if decide (interval = "") then Err "event poll interval is required for kubernetes event source"
    else Ok (Some (KubernetesEventSource interval)).
Proof.
  match goal with |- CreateEventSource ?c = _ =>
    change (CreateEventSource c) with (created (createKubernetesEventSource c)) end.
  unfold createKubernetesEventSource. cbn [sc_KubeClient sc_EventPollInterval negb].
  destruct (decide (interval = "")); [by rewrite bool_decide_eq_true_2|by rewrite bool_decide_eq_false_2].
Qed.

Lemma Create_audit path interval :
  path <> "" ->
  CreateEventSource {| sc_Type := EventSourceTypeAuditLog; sc_KubeClient := true; sc_AuditLogPath := path;
                       sc_CloudWatchRegion := None; sc_EventPollInterval := interval |}
  = Ok (Some (AuditLogEventSource path)).
Proof.
  intros H. match goal with |- CreateEventSource ?c = _ =>
    change (CreateEventSource c) with (created (createAuditLogEventSource c)) end.
  unfold createAuditLogEventSource. cbn [sc_KubeClient sc_AuditLogPath negb]. by rewrite bool_decide_eq_false_2.
Qed.

Lemma Create_cloudwatch region interval :
  CreateEventSource {| sc_Type := EventSourceTypeCloudWatch; sc_KubeClient := true; sc_AuditLogPath := "";
                       sc_CloudWatchRegion := Some region; sc_EventPollInterval := interval |}
  = match LoadDefaultConfig region with
    | None => Ok (Some (CloudWatchEventSource region))
    | Some msg => Err ("failed to create AWS config: " +:+ msg)
    end.
Proof.
  match goal with |- CreateEventSource ?c = _ =>
    change (CreateEventSource c) with (created (createCloudWatchEventSource c)) end.
  unfold createCloudWatchEventSource. cbn [sc_CloudWatchRegion]. by destruct (LoadDefaultConfig region).
Qed.

(** The CloudWatch configuration that counts. *)
Definition cloud_region (logSource : string) (cloudwatchConfig : option string) : option string :=
  if bool_decide (logSource = "cloudwatch") then cloudwatchConfig else None.

Definition audit_source (auditLogPath : string) : list EventSource :=
  if decide (auditLogPath = "") then [] else [AuditLogEventSource auditLogPath].

Lemma created_sources logSource auditLogPath interval cloudwatch :
  CreateEventSources (BuildEventSourceConfigs true logSource auditLogPath interval cloudwatch)
  = match cloud_region logSource cloudwatch with
    | Some region =>
        match LoadDefaultConfig region with
        | Some _ => Err (if decide (interval = "") then 2 else 1)
        | None => if decide (interval = "") then Err 1
                  else Ok (audit_source auditLogPath ++ [CloudWatchEventSource region; KubernetesEventSource interval])
        end
    | None => if decide (interval = "") then Err 1
              else Ok (audit_source auditLogPath ++ [KubernetesEventSource interval])
    end.
Proof.
  unfold CreateEventSources, BuildEventSourceConfigs, cloud_region, audit_source.
  destruct (decide (auditLogPath = "")) as [Ha|Ha];
    [rewrite (bool_decide_eq_true_2 (auditLogPath = "")) by done|
     rewrite (bool_decide_eq_false_2 (auditLogPath = "")) by done];
    (destruct (bool_decide (logSource = "cloudwatch")), cloudwatch as [region|]); cbn [app];
    rewrite !create_sources_cons, ?Create_audit, ?Create_cloudwatch, ?Create_kubernetes by done; simpl;
    try destruct (LoadDefaultConfig region); by destruct (decide (interval = "")).
Qed.

(** The watcher's sources: with an interval for polling, Kubernetes events are
    always watched; the audit log when a path is given, CloudWatch when the source
    is cloudwatch and configured, and nothing else; each is named after its type
    and all are started.  Construction fails exactly when AWS cannot be configured
    or the interval is missing. *)
Theorem watcher_sources_spec logSource auditLogPath interval cloudwatch :
  let cloud := cloud_region logSource cloudwatch in
  (interval = "" \/ (exists region, cloud = Some region /\ LoadDefaultConfig region <> None) <->
   exists n, watcher_sources logSource auditLogPath interval cloudwatch = Err n)
  /\ forall m, watcher_sources logSource auditLogPath interval cloudwatch = Ok m ->
      started m = m
      /\ forall name s, m !! name = Some s <->
           name = GetName s /\
           (s = KubernetesEventSource interval
            \/ (auditLogPath <> "" /\ s = AuditLogEventSource auditLogPath)
            \/ (exists region, cloud = Some region /\ s = CloudWatchEventSource region)).
Proof.
  intros cloud. unfold watcher_sources. rewrite created_sources. fold cloud.
  assert (Hconf : BuildEventSourceConfigs true logSource auditLogPath interval cloudwatch
    = BuildEventSourceConfigs true "cloudwatch" auditLogPath interval cloud).
  { unfold BuildEventSourceConfigs, cloud, cloud_region. rewrite (bool_decide_eq_true_2 ("cloudwatch" = "cloudwatch")) by done.
    destruct cloudwatch; by destruct (bool_decide (logSource = "cloudwatch")). }
  rewrite Hconf. clearbody cloud. split.
  - destruct cloud as [region|]; [destruct (LoadDefaultConfig region) eqn:El|]; destruct (decide (interval = ""));
      naive_solver.
  - intros m Hm. assert (H : forall name s, m !! name = Some s <-> name = GetName s /\
      (s = KubernetesEventSource interval \/ (auditLogPath <> "" /\ s = AuditLogEventSource auditLogPath)
       \/ (exists region, cloud = Some region /\ s = CloudWatchEventSource region))).
    { intros name s. unfold audit_source, BuildEventSourceConfigs in Hm.
      destruct (decide (auditLogPath = "")) as [Ha|Ha];
        [rewrite (bool_decide_eq_true_2 (auditLogPath = "")) in Hm by done|
         rewrite (bool_decide_eq_false_2 (auditLogPath = "")) in Hm by done];
        (destruct cloud as [region|]; [destruct (LoadDefaultConfig region); [done|]|]);
        (destruct (decide (interval = "")); [done|]); injection Hm as <-; unfold add_sources, AddEventSource; cbn;
        rewrite ?lookup_insert_Some, lookup_empty; unfold EventSourceTypeAuditLog, EventSourceTypeCloudWatch,
          EventSourceTypeKubernetesEvents; naive_solver. }
    split; [|exact H]. apply map_filter_id. intros name s Hs. apply H in Hs as [_ [->|[[Ha ->]|(region & _ & ->)]]]; [done| |done].
    simpl. by rewrite bool_decide_eq_false_2.
Qed.
End factory.

(** ** The running watcher

    Who does what: the source of Kubernetes events polls and sends each event,
    waiting for room; the pass over the audit log offers events and never waits;
    [processEvents] takes events one at a time; [main] cancels the context on a
    signal and then calls [Stop]. *)
Inductive consumer_phase : Type := CWaiting | CHandling (e : WatchedEvent) | CDone.
Inductive kube_phase : Type := KIdle | KSending (es : list WatchedEvent) | KDone.
Inductive audit_phase : Type := AIdle | AOffering (es : list WatchedEvent) | ADone.
Inductive main_phase : Type := MRunning | MStopping | MClosed.

Record wstate := {
  w_chan : list WatchedEvent;
  w_consumer : consumer_phase;
  w_kube : kube_phase;
  w_audit : audit_phase;
  w_main : main_phase;
  w_cancelled : bool;
  w_crashed : bool;
  w_metrics : Metrics;
  (** what went into the channel, was handled and was dropped, in order *)
  w_accepted : list WatchedEvent;
  w_handled : list WatchedEvent;
  w_dropped : list WatchedEvent
}.

Definition set_consumer (c : consumer_phase) (s : wstate) : wstate :=
  {| w_chan := w_chan s; w_consumer := c; w_kube := w_kube s; w_audit := w_audit s; w_main := w_main s;
     w_cancelled := w_cancelled s; w_crashed := w_crashed s; w_metrics := w_metrics s;
     w_accepted := w_accepted s; w_handled := w_handled s; w_dropped := w_dropped s |}.

Definition set_kube (k : kube_phase) (s : wstate) : wstate :=
  {| w_chan := w_chan s; w_consumer := w_consumer s; w_kube := k; w_audit := w_audit s; w_main := w_main s;
     w_cancelled := w_cancelled s; w_crashed := w_crashed s; w_metrics := w_metrics s;
     w_accepted := w_accepted s; w_handled := w_handled s; w_dropped := w_dropped s |}.

Definition set_audit (a : audit_phase) (s : wstate) : wstate :=
  {| w_chan := w_chan s; w_consumer := w_consumer s; w_kube := w_kube s; w_audit := a; w_main := w_main s;
     w_cancelled := w_cancelled s; w_crashed := w_crashed s; w_metrics := w_metrics s;
     w_accepted := w_accepted s; w_handled := w_handled s; w_dropped := w_dropped s |}.

Definition set_main (m : main_phase) (cancelled crashed : bool) (s : wstate) : wstate :=
  {| w_chan := w_chan s; w_consumer := w_consumer s; w_kube := w_kube s; w_audit := w_audit s; w_main := m;
     w_cancelled := cancelled; w_crashed := crashed; w_metrics := w_metrics s;
     w_accepted := w_accepted s; w_handled := w_handled s; w_dropped := w_dropped s |}.

Definition accept (e : WatchedEvent) (s : wstate) : wstate :=
  {| w_chan := w_chan s ++ [e]; w_consumer := w_consumer s; w_kube := w_kube s; w_audit := w_audit s;
     w_main := w_main s; w_cancelled := w_cancelled s; w_crashed := w_crashed s; w_metrics := w_metrics s;
     w_accepted := w_accepted s ++ [e]; w_handled := w_handled s; w_dropped := w_dropped s |}.

Definition drop_event (e : WatchedEvent) (s : wstate) : wstate :=
  {| w_chan := w_chan s; w_consumer := w_consumer s; w_kube := w_kube s; w_audit := w_audit s;
     w_main := w_main s; w_cancelled := w_cancelled s; w_crashed := w_crashed s; w_metrics := w_metrics s;
     w_accepted := w_accepted s; w_handled := w_handled s; w_dropped := w_dropped s ++ [e] |}.

(** [case watchedEvent, ok := <-w.eventChannel] *)
Definition take_event (e : WatchedEvent) (rest : list WatchedEvent) (s : wstate) : wstate :=
  {| w_chan := rest; w_consumer := CHandling e; w_kube := w_kube s; w_audit := w_audit s;
     w_main := w_main s; w_cancelled := w_cancelled s; w_crashed := w_crashed s;
     w_metrics := RecordEventOutChannel (w_metrics s);
     w_accepted := w_accepted s; w_handled := w_handled s; w_dropped := w_dropped s |}.

Definition finish_event (e : WatchedEvent) (start now : Z) (s : wstate) : wstate :=
  {| w_chan := w_chan s; w_consumer := CWaiting; w_kube := w_kube s; w_audit := w_audit s;
     w_main := w_main s; w_cancelled := w_cancelled s; w_crashed := w_crashed s;
     w_metrics := RecordEventProcessed now (RecordProcessingDuration (GoTime.Sub now start) (w_metrics s));
     w_accepted := w_accepted s; w_handled := w_handled s ++ [e]; w_dropped := w_dropped s |}.

Section pipeline.
(** [eventBufferSize], 0 for an unbuffered channel. *)
Context (cap : nat).

Definition waiting (s : wstate) : nat :=
  match w_consumer s with
  | CWaiting => 1
  | _ => 0
  end.

Definition as_chan (s : wstate) : chan :=
  {| ch_capacity := cap; ch_waiting := waiting s; ch_events := w_chan s |}.

Definition w_start (now : Z) : wstate :=
  {| w_chan := []; w_consumer := CWaiting; w_kube := KIdle; w_audit := AIdle; w_main := MRunning;
     w_cancelled := false; w_crashed := false; w_metrics := NewMetrics (Z.of_nat cap) now;
     w_accepted := []; w_handled := []; w_dropped := [] |}.

Inductive wstep : wstate -> wstate -> Prop :=
| kube_poll s es :
    w_kube s = KIdle -> wstep s (set_kube (KSending es) s)
| kube_send s e es :
    w_kube s = KSending (e :: es) -> w_main s <> MClosed -> ch_room (as_chan s) = true ->
    wstep s (accept e (set_kube (KSending es) s))
| kube_polled s :
    w_kube s = KSending [] -> wstep s (set_kube KIdle s)
| kube_cancelled s :
    w_kube s = KIdle -> w_cancelled s = true -> wstep s (set_kube KDone s)
| audit_poll s es :
    w_audit s = AIdle -> wstep s (set_audit (AOffering es) s)
| audit_offer s e es :
    w_audit s = AOffering (e :: es) -> w_main s <> MClosed ->
    wstep s ((if snd (try_send e (as_chan s)) then accept e else drop_event e) (set_audit (AOffering es) s))
| audit_offer_closed s e es :
    w_audit s = AOffering (e :: es) -> w_main s = MClosed ->
    wstep s (set_main (w_main s) (w_cancelled s) true s)
| audit_polled s :
    w_audit s = AOffering [] -> wstep s (set_audit AIdle s)
| audit_stopped s :
    w_audit s = AIdle -> w_cancelled s = true -> wstep s (set_audit ADone s)
| consume s e rest :
    w_consumer s = CWaiting -> w_chan s = e :: rest -> wstep s (take_event e rest s)
| consumed s e start now :
    w_consumer s = CHandling e -> wstep s (finish_event e start now s)
| consumer_stopped s :
    w_consumer s = CWaiting -> w_main s = MStopping -> wstep s (set_consumer CDone s)
| cancel s :
    wstep s (set_main (w_main s) true (w_crashed s) s)
| stop s :
    w_main s = MRunning -> w_cancelled s = true -> wstep s (set_main MStopping true (w_crashed s) s)
| close_channel s :
    w_main s = MStopping -> w_kube s = KDone -> w_consumer s = CDone ->
    wstep s (set_main MClosed true (w_crashed s) s).

(** *** What always holds *)

Definition in_hand (s : wstate) : list WatchedEvent :=
  match w_consumer s with
  | CHandling e => [e]
  | _ => []
  end.

Record winv (s : wstate) : Prop := {
  inv_fifo : w_accepted s = w_handled s ++ in_hand s ++ w_chan s;
  inv_room : length (w_chan s) <= cap + 1;
  inv_dropped : EventsDropped (w_metrics s) = 0%Z;
  inv_in_channel : EventsInChannel (w_metrics s) = 0%Z;
  inv_processed : EventsProcessed (w_metrics s) = GoInt.i64 (lenZ (w_handled s))
}.

Lemma w_start_inv now : winv (w_start now).
Proof. by split; simpl; try lia. Qed.

Lemma i64_succ z : GoInt.i64 (GoInt.i64 z + 1) = GoInt.i64 (z + 1).
Proof.
  unfold GoInt.i64. f_equal.
  replace ((z + 2 ^ 63) mod 2 ^ 64 - 2 ^ 63 + 1 + 2 ^ 63)%Z with ((z + 2 ^ 63) mod 2 ^ 64 + 1)%Z by lia.
  rewrite Zplus_mod_idemp_l. f_equal. lia.
Qed.

Lemma wstep_inv s s' : winv s -> wstep s s' -> winv s'.
Proof.
  intros [Hf Hr Hd Hc Hp] Hstep. destruct Hstep; try (by split).
  - split; simpl; try done.
    + rewrite Hf. by rewrite <-!app_assoc.
    + unfold ch_room, as_chan in *. simpl in *. apply Nat.ltb_lt in H1. rewrite length_app. simpl.
      unfold waiting in H1. simpl in H1. destruct (w_consumer s); lia.
  - destruct (try_send e (as_chan s)) as [c sent] eqn:E. apply try_send_spec in E as (_ & -> & _). simpl.
    destruct (ch_room (as_chan s)) eqn:Er; [|by split].
    split; simpl; try done.
    + rewrite Hf. by rewrite <-!app_assoc.
    + unfold ch_room, as_chan in Er. simpl in Er. apply Nat.ltb_lt in Er. rewrite length_app. simpl.
      unfold waiting in Er. destruct (w_consumer s); lia.
  - unfold in_hand in Hf. rewrite H, H0 in Hf. rewrite H0 in Hr. simpl in Hr.
    split; simpl; try (unfold RecordEventOutChannel; by rewrite Hc); [done|lia].
  - unfold in_hand in Hf. rewrite H in Hf. split; simpl; try done.
    + by rewrite Hf, <-app_assoc.
    + rewrite Hp, lenZ_app. apply i64_succ.
  - unfold in_hand in Hf. rewrite H in Hf. by split.
Qed.

Lemma winv_reachable now s : rtc wstep (w_start now) s -> winv s.
Proof.
  intros H. assert (Hi : winv (w_start now)) by apply w_start_inv. revert Hi.
  induction H as [|s1 s2 s3 Hs _ IH]; [done|]. intros Hi. by apply IH, (wstep_inv s1).
Qed.


(** *** Shutting down *)

(** The source of Kubernetes events is stuck: the consumer is gone, the channel is
    full, and the rest of the poll waits for room. *)
Definition wedged (s : wstate) : Prop :=
  w_consumer s = CDone /\ cap <= length (w_chan s) /\ w_main s = MStopping
  /\ exists e es, w_kube s = KSending (e :: es).

Lemma wedged_no_room s : wedged s -> ch_room (as_chan s) = false.
Proof.
  intros (Hc & Hl & _). unfold ch_room, as_chan, waiting. simpl. rewrite Hc. apply Nat.ltb_ge. lia.
Qed.

Lemma wedged_step s s' : wedged s -> wstep s s' -> wedged s'.
Proof.
  intros Hw Hstep. pose proof (wedged_no_room s Hw) as Hroom.
  destruct Hw as (Hc & Hl & Hm & e0 & es0 & Hk).
  destruct Hstep; try congruence; try (split_and!; simpl; eauto; fail).
  unfold try_send. rewrite Hroom. simpl. split_and!; simpl; eauto.
Qed.

Lemma wedged_forever s s' : wedged s -> rtc wstep s s' -> wedged s'.
Proof. intros Hw H. induction H as [|s1 s2 s3 Hs _ IH]; [done|]. by apply IH, (wedged_step s1). Qed.

Lemma kube_sends e n l s :
  w_consumer s = CDone -> w_main s = MStopping -> w_kube s = KSending (replicate n e ++ l) ->
  length (w_chan s) + n <= cap ->
  exists s', rtc wstep s s' /\ w_consumer s' = CDone /\ w_main s' = MStopping /\ w_kube s' = KSending l
    /\ length (w_chan s') = length (w_chan s) + n.
Proof.
  revert s. induction n as [|n IH]; intros s Hc Hm Hk Hl; [by exists s; split; [apply rtc_refl|split_and!; try done; lia]|].
  destruct (IH (accept e (set_kube (KSending (replicate n e ++ l)) s))) as (s' & Hs & Hc' & Hm' & Hk' & Hl').
  - done.
  - done.
  - done.
  - simpl. rewrite length_app. simpl. lia.
  - exists s'. split_and!; try done.
    + eapply rtc_l; [|exact Hs]. apply kube_send; [done|by rewrite Hm|].
      unfold ch_room, as_chan, waiting. simpl. rewrite Hc. apply Nat.ltb_lt. lia.
    + rewrite Hl'. simpl. rewrite length_app. simpl. lia.
Qed.

(** Stopping can hang for ever: for every size of the buffer there is a run in
    which one poll of Kubernetes events returns one event more than the buffer
    holds, the signal arrives, the consumer stops, and the poll, which waits for
    room without looking at the context, never ends; whatever happens from then
    on, [main] never gets past waiting for the sources. *)
Theorem shutdown_can_hang (e : WatchedEvent) now :
  exists s, rtc wstep (w_start now) s /\ w_main s = MStopping
    /\ forall s', rtc wstep s s' -> w_main s' = MStopping.
Proof.
  set (s1 := set_consumer CDone (set_main MStopping true false
    (set_main MRunning true false (set_kube (KSending (replicate cap e ++ [e])) (w_start now))))).
  assert (H1 : rtc wstep (w_start now) s1).
  { eapply rtc_l; [by apply (kube_poll _ (replicate cap e ++ [e]))|].
    eapply rtc_l; [by apply cancel|]. eapply rtc_l; [by apply stop|].
    eapply rtc_l; [by apply consumer_stopped|]. apply rtc_refl. }
  destruct (kube_sends e cap [e] s1) as (s2 & H2 & Hc & Hm & Hk & Hl); [done|done|done|simpl; lia|].
  exists s2. split_and!; [by etrans|done|]. intros s' Hs. apply wedged_forever in Hs as (_ & _ & ? & _); [done|].
  split_and!; [done|simpl in Hl; lia|done|]. by exists e, [].
Qed.

(** Stopping can crash: [main] does not wait for the goroutine that reads the
    audit log, so a pass that is still running when the channel is closed sends on
    the closed channel. *)
Theorem shutdown_can_crash (e : WatchedEvent) now :
  exists s, rtc wstep (w_start now) s /\ w_crashed s = true.
Proof.
  eexists. split.
  - eapply rtc_l; [by apply (audit_poll _ [e])|]. eapply rtc_l; [by apply cancel|].
    eapply rtc_l; [by apply stop|]. eapply rtc_l; [by apply consumer_stopped|].
    eapply rtc_l; [by apply kube_cancelled|]. eapply rtc_l; [by apply close_channel|].
    eapply rtc_l; [by apply (audit_offer_closed _ e [])|]. apply rtc_refl.
  - done.
Qed.
End pipeline.

(** *** The lock of the metrics

    A [sync.RWMutex]: a writer that waits keeps new readers out, and enters when
    no reader is left.  [LogMetrics] holds the lock for reading and calls
    [GetChannelUtilization] and [GetUptime], which take it again. *)
Inductive logger_phase : Type :=
| LIdle
| LReading (calls : nat)
| LInner (calls : nat).

Inductive writer_phase : Type := WIdle | WAnnounced | WWriting.

Inductive lock_step : logger_phase * writer_phase -> logger_phase * writer_phase -> Prop :=
| log_start w : w = WIdle -> lock_step (LIdle, w) (LReading 2, w)
| log_call n w : w = WIdle -> lock_step (LReading (S n), w) (LInner n, w)
| log_return n w : lock_step (LInner n, w) (LReading n, w)
| log_end w : lock_step (LReading 0, w) (LIdle, w)
| write_announce l : lock_step (l, WIdle) (l, WAnnounced)
| write_enter : lock_step (LIdle, WAnnounced) (LIdle, WWriting)
| write_leave l : lock_step (l, WWriting) (l, WIdle).

(** The reader and the writer are never inside together, and a state has no
    successor exactly when [LogMetrics] is between its lock and one of its calls
    while a writer waits. *)
Lemma lock_exclusive st : rtc lock_step (LIdle, WIdle) st -> snd st = WWriting -> fst st = LIdle.
Proof.
  intros H. assert (Hg : snd (LIdle, WIdle) = WWriting -> fst (LIdle, WIdle) = LIdle) by done. revert Hg.
  induction H as [|s1 s2 s3 Hs _ IH]; [done|]. intros Hg. apply IH.
  destruct Hs; simpl in *; subst; naive_solver.
Qed.

(** [LogMetrics] can freeze the watcher: an event that is counted while the
    metrics are being logged announces its writer between the lock and the calls
    that take it again; from that state there is no step, so neither the logger nor
    the consumer of events ever continues, and there is no other such state. *)
Theorem metrics_deadlock :
  (exists st, rtc lock_step (LIdle, WIdle) st /\ forall st', ~ lock_step st st')
  /\ forall st, rtc lock_step (LIdle, WIdle) st -> (forall st', ~ lock_step st st') ->
     exists n, st = (LReading (S n), WAnnounced).
Proof.
  split.
  - exists (LReading 2, WAnnounced). split.
    + eapply rtc_l; [by apply log_start|]. eapply rtc_l; [by apply write_announce|]. apply rtc_refl.
    + intros st' H. inversion H; by subst.
  - intros [l w] Hr Hstuck. pose proof (lock_exclusive _ Hr) as He. simpl in He.
    destruct l as [|[|n]|n], w;
      try (exfalso; eapply Hstuck; first [by apply log_start|by apply log_call|by apply log_return|by apply log_end
        |by apply write_announce|by apply write_enter|by apply write_leave]; fail).
    by exists n.
Qed.

(** ** Configuration from the environment

    [runAudit] and [runCloudWatch]; a missing token ends the process. *)
Inductive config_error : Type :=
| MissingVariable (name : string)
| Exit (code : Z).

Definition getInsightsToken (consoleMode : bool) (env : string -> string) : result config_error string :=
  if consoleMode then Ok ""
  else let token := TrimSpace (env "FAIRWINDS_TOKEN") in
       if bool_decide (token = "") then Err (Exit 1) else Ok token.

Definition insights_config (consoleMode : bool) (env : string -> string) : result config_error InsightsConfig :=
  let host := env "FAIRWINDS_HOSTNAME" in
  let insightsHost := if bool_decide (host = "") then "https://insights.fairwinds.com" else host in
  if bool_decide (env "FAIRWINDS_ORGANIZATION" = "") then Err (MissingVariable "FAIRWINDS_ORGANIZATION") else
  if bool_decide (env "FAIRWINDS_CLUSTER" = "") then Err (MissingVariable "FAIRWINDS_CLUSTER") else
  match getInsightsToken consoleMode env with
  | Err e => Err e
  | Ok token => Ok {| ic_Hostname := insightsHost; ic_Organization := env "FAIRWINDS_ORGANIZATION";
                      ic_Cluster := env "FAIRWINDS_CLUSTER"; ic_Token := token |}
  end.

(** What loads names an organization and a cluster, and has a token unless events
    are only printed. *)
Lemma insights_config_usable consoleMode env c :
  insights_config consoleMode env = Ok c ->
  ic_Hostname c <> "" /\ ic_Organization c <> "" /\ ic_Cluster c <> "" /\ (consoleMode = false -> ic_Token c <> "").
Proof.
  unfold insights_config, getInsightsToken. intros H.
  destruct (bool_decide (env "FAIRWINDS_ORGANIZATION" = "")) eqn:Eo; [done|].
  destruct (bool_decide (env "FAIRWINDS_CLUSTER" = "")) eqn:Ec; [done|].
  apply bool_decide_eq_false in Eo, Ec.
  assert (Hh : (if bool_decide (env "FAIRWINDS_HOSTNAME" = "") then "https://insights.fairwinds.com"
                else env "FAIRWINDS_HOSTNAME") <> "").
  { destruct (bool_decide (env "FAIRWINDS_HOSTNAME" = "")) eqn:Eh; [discriminate|]. by apply bool_decide_eq_false in Eh. }
  destruct consoleMode; [injection H as <-; simpl; split; [exact Hh|by split_and!]|].
  destruct (bool_decide (TrimSpace _ = "")) eqn:Et; [done|]. apply bool_decide_eq_false in Et. injection H as <-. simpl. split; [exact Hh|by split_and!].
Qed.

(** *** Concrete runs *)

Definition x_watched_event : WatchedEvent :=
  {| we_EventVersion := 1; we_Timestamp := 0; we_EventTime := ""; we_EventType := EventTypeAdded; we_Kind := "Pod";
     we_Namespace := "default"; we_Name := "web"; we_UID := "u"; we_Data := None; we_Metadata := None;
     we_EventSource := ""; we_Success := false; we_Blocked := false |}.

