(* ===== verification/OnDemandJobs.v ===== *)
(** * on-demand-job-runner

    [on-demand-job-runner/pkg/insights/], [pkg/k8s/], [pkg/ondemandjobs/] and
    [cmd/main.go]: names and environment of the jobs, their creation from a
    CronJob, the wait for their end, and the pool that runs the claimed jobs
    and reports their status.  The cluster is the class [BatchAPI], the HTTP
    client an answer to a request.  Option names are ASCII, where [ToUpper] of
    GoStrings is Go's. *)

From stdpp Require Import base decidable list gmap relations strings.
From Stdlib Require Import ZArith Lia Ascii.
From S2P Require Import Prelude GoStrings GoText GoValues WorkerPool.

Local Open Scope Z_scope.

(** ** Names of environment variables

    The two regular expressions of [ToEnvVarFormat], matched leftmost first and
    without overlaps. *)

Definition lower_or_digit (c : ascii) : bool :=
  is_lower c || match digit_value c with Some _ => true | None => false end.

(** [([a-z0-9])([A-Z])] replaced by [${1}_${2}]. *)
Fixpoint split_words (l : list ascii) : list ascii :=
  match l with
  | c :: ((d :: l'') as l') =>
      if lower_or_digit c && is_upper d then c :: "_"%char :: d :: split_words l''
      else c :: split_words l'
  | _ => l
  end.

(** [[A-Z]+]: the longest run of capitals, and the rest. *)
Fixpoint span_upper (l : list ascii) : list ascii * list ascii :=
  match l with
  | c :: l' => if is_upper c then let '(run, rest) := span_upper l' in (c :: run, rest) else ([], l)
  | [] => ([], [])
  end.

(** A match of [([A-Z]+)([A-Z][a-z])] at the start of [l]: the first group gives
    back one capital of the run, and fewer never match, since a capital is not
    in [[a-z]].  The two groups and the rest. *)
Definition match_acronym (l : list ascii) : option (list ascii * list ascii * list ascii) :=
  let '(run, rest) := span_upper l in
  match rest, reverse run with
  | x :: rest', last :: ((_ :: _) as before) =>
      if is_lower x then Some (reverse before, [last; x], rest') else None
  | _, _ => None
  end.

Fixpoint split_acronyms (fuel : nat) (l : list ascii) : list ascii :=
  match fuel with
  | O => l
  | S fuel' =>
      match match_acronym l with
      | Some (g1, g2, rest) => g1 ++ "_"%char :: g2 ++ split_acronyms fuel' rest
      | None => match l with c :: l' => c :: split_acronyms fuel' l' | [] => [] end
      end
  end.

Definition ToEnvVarFormat (input : string) : string :=
  let s1 := split_words (chars input) in
  let s2 := split_acronyms (length s1) s1 in
  ToUpper (str s2).

(** ** Jobs and their options *)

Inductive OnDemandJobStatus : Type := JobStatusPending | JobStatusRunning | JobStatusCompleted | JobStatusFailed.

Definition status_string (s : OnDemandJobStatus) : string :=
  match s with
  | JobStatusPending => "pending"
  | JobStatusRunning => "running"
  | JobStatusCompleted => "completed"
  | JobStatusFailed => "failed"
  end.

Record OnDemandJob : Type := {
  odj_ID : Z;
  odj_ReportType : string;
  odj_Status : string;
  odj_Options : nilmap string
}.

(** An environment variable: a value, or another source ([ValueFrom]), of which
    the code only carries the name. *)
Record EnvVar : Type := { env_Name : string; env_Value : string; env_ValueFrom : option string }.

#[global] Instance EnvVar_eq_dec : EqDecision EnvVar.
Proof. solve_decision. Defined.

Section env.
Context `{!RangeOrder string string} `{!RangeOrder string EnvVar}.

Definition OptionsToEnvVars (odj : OnDemandJob) : list EnvVar :=
  match odj_Options odj with
  | Some options =>
      (fun '(key, value) => {| env_Name := ToEnvVarFormat key; env_Value := value; env_ValueFrom := None |})
        <$> range_map options
  | None => []
  end.

Definition add_envs (m : gmap string EnvVar) (l : list EnvVar) : gmap string EnvVar :=
  foldl (fun m env => <[env_Name env := env]> m) m l.

Definition mergeEnvs (existing overrides : list EnvVar) : list EnvVar :=
  snd <$> range_map (add_envs (add_envs ∅ existing) overrides).
End env.

(** [random] is the result of [uuid.New().String()]. *)
Definition GenerateJobName (cronJobName : string) (id : Z) (random : string) : go string :=
  random8 ← slice random 0 8;
  let name := ToLower (cronJobName +:+ "-" +:+ fmt_d id +:+ "-" +:+ random8) in
  if 63 <? lenS name then slice name 0 63 else Ret name.

Example envvar_tests :
  ToEnvVarFormat <$> ["jobId"; "imagesToScan"; "HTTPRequest"; "userAPIKey"; "IMAGES_TO_SCAN"; "s3bucket"]
  = ["JOB_ID"; "IMAGES_TO_SCAN"; "HTTP_REQUEST"; "USER_API_KEY"; "IMAGES_TO_SCAN"; "S3BUCKET"].
Proof. vm_compute. reflexivity. Qed.

(** ** Kubernetes jobs

    Of a container, a job specification and a job only what the code reads or
    sets; the rest is carried along in [R]. *)
Section jobs.
Context {R : Type} `{!RangeOrder string string} `{!RangeOrder string EnvVar}.

Record Container : Type := { ct_Env : list EnvVar; ct_rest : R }.

Record JobSpec : Type := {
  js_TTLSecondsAfterFinished : option Z;
  js_BackoffLimit : option Z;
  js_Containers : list Container;
  js_rest : R
}.

Record Job : Type := { j_Name : string; j_Namespace : string; j_Spec : JobSpec }.

Record JobCondition : Type := { jc_Type : string; jc_Status : string; jc_Reason : string }.

(** What a goroutine sees of the cluster and of the clock.  [CronJobs_Get] gives
    the specification in the template of the CronJob, [Jobs_Create] the job that
    was created, [Jobs_Get] the conditions of its status. *)
Class BatchAPI (W : Type) := {
  CronJobs_Get : string -> string -> W -> W * result string JobSpec;
  Jobs_Create : string -> Job -> W -> W * result string Job;
  Jobs_Get : string -> string -> W -> W * result string (list JobCondition);
  Now : W -> Z;
  Sleep : Z -> W -> W
}.

(** Time does not run backwards, and a sleep lasts at least as long as asked. *)
Class BatchAPILaws (W : Type) `{!BatchAPI W} : Prop := {
  Jobs_Get_now : forall ns name w, Now w <= Now (fst (Jobs_Get ns name w));
  Sleep_now : forall d w, 0 <= d -> Now w + d <= Now (Sleep d w)
}.

Inductive job_error : Type :=
| NoNamespace (why : string)
| UnknownReportType (reportType : string) (id : Z)
| GetCronJobError (e : string)
| CreateError (e : string)
| WaitTimeout
| GetJobError (e : string)
| JobFailedError (reason : string).

(** [jobSpec := cronJob.Spec.JobTemplate.Spec] with its fields set. *)
Definition job_spec (spec : JobSpec) (extraEnv : list EnvVar) (backoffLimit : option Z) : JobSpec :=
  {| js_TTLSecondsAfterFinished := Some (10 * 60);
     js_BackoffLimit := backoffLimit;
     js_Containers :=
       (fun c => {| ct_Env := mergeEnvs (ct_Env c) extraEnv; ct_rest := ct_rest c |}) <$> js_Containers spec;
     js_rest := js_rest spec |}.

Section cluster.
Context {W : Type} `{!BatchAPI W}.

Definition CreateJobFromCronJob (namespace cronJobName newJobName : string) (extraEnv : list EnvVar)
    (backoffLimit : option Z) (w : W) : W * result job_error Job :=
  let '(w, r) := CronJobs_Get namespace cronJobName w in
  match r with
  | Err e => (w, Err (GetCronJobError e))
  | Ok spec =>
      let job := {| j_Name := newJobName; j_Namespace := namespace;
                    j_Spec := job_spec spec extraEnv backoffLimit |} in
      let '(w, r) := Jobs_Create namespace job w in
      match r with
      | Err e => (w, Err (CreateError e))
      | Ok job => (w, Ok job)
      end
  end.

(** The conditions of one poll: the first that ends the wait decides. *)
Fixpoint check_conditions (l : list JobCondition) : option (option job_error) :=
  match l with
  | [] => None
  | cond :: l' =>
      if decide (jc_Type cond = "Complete" /\ jc_Status cond = "True")%string then Some None
      else if decide (jc_Type cond = "Failed" /\ jc_Status cond = "True")%string
      then Some (Some (JobFailedError (jc_Reason cond)))
      else check_conditions l'
  end.

(** One round of the loop: the answer, or another round. *)
Definition wait_round (namespace jobName : string) (deadline : Z) (w : W) : W * option (result job_error unit) :=
  if GoTime.After (Now w) deadline then (w, Some (Err WaitTimeout))
  else
    let '(w, r) := Jobs_Get namespace jobName w in
    match r with
    | Err e => (w, Some (Err (GetJobError e)))
    | Ok conditions =>
        match check_conditions conditions with
        | Some None => (w, Some (Ok tt))
        | Some (Some e) => (w, Some (Err e))
        | None => (Sleep (5 * GoTime.Second) w, None)
        end
    end.

(** [None]: the fuel does not reach the end of the wait. *)
Fixpoint wait_loop (fuel : nat) (namespace jobName : string) (deadline : Z) (w : W)
    : option (W * result job_error unit) :=
  match fuel with
  | O => None
  | S fuel' =>
      match wait_round namespace jobName deadline w with
      | (w, Some r) => Some (w, r)
      | (w, None) => wait_loop fuel' namespace jobName deadline w
      end
  end.

(** Polls happen at most every five seconds until the deadline has passed. *)
Definition wait_fuel (timeout : Z) : nat := Z.to_nat (timeout / (5 * GoTime.Second) + 3).

Definition WaitForJobCompletion (namespace jobName : string) (timeout : Z) (w : W)
    : option (W * result job_error unit) :=
  wait_loop (wait_fuel timeout) namespace jobName (Now w + timeout) w.
End cluster.

(** *** The namespace

    The file of the service account: its content, or an error and whether that
    error is [os.IsNotExist]. *)
Definition GetCurrentNamespace (file : result bool string) (NAMESPACE : string) : result job_error string :=
  match file with
  | Ok data => Ok (TrimSpace data)
  | Err true => if decide (NAMESPACE <> "") then Ok NAMESPACE else Err (NoNamespace "NAMESPACE env variable is not set")
  | Err false => Err (NoNamespace "failed to read namespace file")
  end.

(** ** Requests to Insights *)

Record request : Type := { rq_Method : string; rq_URL : string; rq_Body : option (string * string) }.

(** The rest of the outside world of a goroutine: random identifiers, the
    namespace file and variable, and the HTTP client with its retries, which
    answers with a status code and a body or fails. *)
Class RunnerEnv (W : Type) := {
  NewUUID : W -> W * string;
  NamespaceFile : W -> result bool string;
  NAMESPACE : W -> string;
  Do : request -> W -> W * result string (Z * string)
}.

(** [uuid.UUID.String] has 36 characters. *)
Class RunnerEnvLaws (W : Type) `{!RunnerEnv W} : Prop := {
  NewUUID_length : forall w, lenS (snd (NewUUID w)) = 36
}.

Inductive client_error : Type :=
| RequestFailed (e : string)
| ErrorState (code : Z) (body : string)
| UnmarshalFailed (e : string).

(** [resp.IsErrorState()]. *)
Definition IsErrorState (code : Z) : bool := 399 <? code.

Record HTTPClient : Type := { hc_organization : string; hc_cluster : string }.

Definition jobs_url (c : HTTPClient) : string :=
  "/v0/organizations/" +:+ hc_organization c +:+ "/clusters/" +:+ hc_cluster c +:+ "/reports/on-demand-jobs/".

Definition ClaimOnDemandJobs {W} `{!RunnerEnv W} (unmarshal : string -> result string (list OnDemandJob))
    (c : HTTPClient) (limit : Z) (w : W) : W * result client_error (list OnDemandJob) :=
  let url := jobs_url c +:+ "claim?limit=" +:+ fmt_d limit in
  let '(w, resp) := Do {| rq_Method := "POST"; rq_URL := url; rq_Body := None |} w in
  (w, match resp with
      | Err e => Err (RequestFailed e)
      | Ok (code, body) =>
          if IsErrorState code then Err (ErrorState code body)
          else match unmarshal body with
               | Err e => Err (UnmarshalFailed e)
               | Ok jobs => Ok jobs
               end
      end).

Definition status_request (c : HTTPClient) (jobID : Z) (status : OnDemandJobStatus) : request :=
  {| rq_Method := "PATCH"; rq_URL := jobs_url c +:+ fmt_d jobID +:+ "/status";
     rq_Body := Some ("status", status_string status) |}.

Definition UpdateOnDemandJobStatus {W} `{!RunnerEnv W} (c : HTTPClient) (jobID : Z) (status : OnDemandJobStatus)
    (w : W) : W * result client_error unit :=
  let '(w, resp) := Do (status_request c jobID status) w in
  (w, match resp with
      | Err e => Err (RequestFailed e)
      | Ok (code, body) => if IsErrorState code then Err (ErrorState code body) else Ok tt
      end).

(** The client for tests. *)
Definition Mock_ClaimOnDemandJobs (limit : Z) : list OnDemandJob :=
  [{| odj_ID := 1; odj_ReportType := "trivy"; odj_Status := status_string JobStatusPending;
      odj_Options := Some {[ "imagesToScan" :=
        "us-docker.pkg.dev/fairwinds-ops/oss/polaris:v10.2.0,us-docker.pkg.dev/fairwinds-ops/oss/workloads:2.16.3" ]} |}].

(** ** Processing *)

Record JobConfig : Type := { cronJobName : string; timeout : Z; backoffLimit : option Z }.

Definition minutes (name : string) (m : Z) : string * JobConfig :=
  (name, {| cronJobName := name; timeout := m * GoTime.Minute; backoffLimit := None |}).

Definition reportTypeJobConfigMap : list (string * JobConfig) :=
  [ minutes "trivy" 20; minutes "image-trust" 20; minutes "cloudcosts" 5; minutes "falco" 5;
    minutes "nova" 5; minutes "pluto" 5; minutes "polaris" 5; minutes "prometheus-metrics" 5;
    minutes "goldilocks" 5; minutes "rbac-reporter" 5; minutes "right-sizer" 5; minutes "workloads" 5;
    minutes "kube-hunter" 5; minutes "kube-bench" 5; minutes "kyverno" 5;
    ("kyverno-policy-sync",
      {| cronJobName := "kyverno-policy-sync"; timeout := 10 * GoTime.Minute; backoffLimit := Some 0 |});
    minutes "gonogo" 5 ].

Definition job_config (reportType : string) : option JobConfig :=
  snd <$> List.find (fun e => bool_decide (fst e = reportType)) reportTypeJobConfigMap.

Section run.
Context {W : Type} `{!BatchAPI W} `{!RunnerEnv W}.

(** [None] when the wait has run out of fuel. *)
Definition processOnDemandJob (odj : OnDemandJob) (w : W) : go (option (W * result job_error unit)) :=
  match GetCurrentNamespace (NamespaceFile w) (NAMESPACE w) with
  | Err e => Ret (Some (w, Err e))
  | Ok namespace =>
      match job_config (odj_ReportType odj) with
      | None => Ret (Some (w, Err (UnknownReportType (odj_ReportType odj) (odj_ID odj))))
      | Some cfg =>
          let '(w, random) := NewUUID w in
          jobName ← GenerateJobName (cronJobName cfg) (odj_ID odj) random;
          let '(w, r) := CreateJobFromCronJob namespace (cronJobName cfg) jobName
                           (OptionsToEnvVars odj) (backoffLimit cfg) w in
          match r with
          | Err e => Ret (Some (w, Err e))
          | Ok job => Ret (WaitForJobCompletion (j_Namespace job) (j_Name job) (timeout cfg) w)
          end
      end
  end.

(** What a goroutine did: the status it reported and the answer it got. *)
Record outcome : Type := {
  oc_job : Z;
  oc_status : OnDemandJobStatus;
  oc_update : result client_error unit
}.

Definition report (c : HTTPClient) (odj : OnDemandJob) (status : OnDemandJobStatus) (w : W) : W * outcome :=
  let '(w, u) := UpdateOnDemandJobStatus c (odj_ID odj) status w in
  (w, {| oc_job := odj_ID odj; oc_status := status; oc_update := u |}).

Definition run_job (c : HTTPClient) (odj : OnDemandJob) (w : W) : go (option (W * outcome)) :=
  r ← processOnDemandJob odj w;
  mret (match r with
        | None => None
        | Some (w, Err _) => Some (report c odj JobStatusFailed w)
        | Some (w, Ok _) => Some (report c odj JobStatusCompleted w)
        end).

(** The goroutine of a job starts in some view of the world; what the others do
    meanwhile is part of how the world answers. *)
Definition job_task (c : HTTPClient) (jobs : list OnDemandJob) (i : nat) (o : outcome) : Prop :=
  exists odj w w', jobs !! i = Some odj /\ run_job c odj w = Ret (Some (w', o)).

(** The calls that return; [make(chan struct{}, n)] panics for a negative [n]. *)
Definition Fetch_returns (c : HTTPClient) (claimed : result client_error (list OnDemandJob))
    (maxConcurrentJobs : Z) (r : go (result client_error (list outcome))) : Prop :=
  match claimed with
  | Err e => r = Ret (Err e)
  | Ok [] => r = Ret (Ok [])
  | Ok jobs =>
      if maxConcurrentJobs <? 0 then r = Panic
      else exists os, pool_returns (length jobs) (Z.to_nat maxConcurrentJobs) (job_task c jobs) os
                      /\ r = Ret (Ok os)
  end.

Definition FetchAndProcessOnDemandJobs (unmarshal : string -> result string (list OnDemandJob))
    (c : HTTPClient) (maxConcurrentJobs : Z) (w : W) (r : go (result client_error (list outcome))) : Prop :=
  Fetch_returns c (snd (ClaimOnDemandJobs unmarshal c maxConcurrentJobs w)) maxConcurrentJobs r.
End run.
End jobs.

(** ** Configuration and start

    [viper] after its sources are merged: whether a key is set, and its text;
    what it unmarshals to is a parameter. *)
Record Config : Type := {
  Organization : string;
  Cluster : string;
  Token : string;
  Host : string;
  MaxConcurrentJobs : Z;
  DevMode : bool;
  PollInterval : string
}.

Definition requiredKeys : list string := ["organization"; "cluster"; "token"; "host"].

Fixpoint missing_key (IsSet : string -> bool) (GetString : string -> string) (keys : list string) : option string :=
  match keys with
  | [] => None
  | key :: keys' =>
      if negb (IsSet key) || bool_decide (GetString key = "") then Some key
      else missing_key IsSet GetString keys'
  end.

Inductive config_error : Type := RequiredKey (key : string) | UnmarshalConfig (e : string).

Definition loadConfig (IsSet : string -> bool) (GetString : string -> string) (Unmarshal : result string Config)
    : result config_error Config :=
  match missing_key IsSet GetString requiredKeys with
  | Some key => Err (RequiredKey key)
  | None => match Unmarshal with Err e => Err (UnmarshalConfig e) | Ok c => Ok c end
  end.

(** What [main] does before its loop: it exits, panics in [time.NewTicker], or
    starts polling. *)
Inductive started : Type := Exit1 | Polling (c : Config) (every : Z).

Definition main_start (loaded : result config_error Config) (clientset_ok : bool)
    (ParseDuration : string -> result string Z) : go started :=
  match loaded with
  | Err _ => Ret Exit1
  | Ok c =>
      if negb clientset_ok then Ret Exit1
      else match ParseDuration (PollInterval c) with
           | Err _ => Ret Exit1
           | Ok d => if d <=? 0 then Panic else Ret (Polling c d)
           end
  end.

(** * Properties *)

(** ** Names

    A word starts before a capital that follows a lower-case letter or a digit,
    and before a capital that follows a capital and is followed by a lower-case
    letter. *)
Definition word_starts (prev : option ascii) (c : ascii) (next : option ascii) : bool :=
  match prev with
  | None => false
  | Some p => is_upper c && (lower_or_digit p || is_upper p && from_ptr false is_lower next)
  end.

Fixpoint mark_words (prev : option ascii) (l : list ascii) : list ascii :=
  match l with
  | [] => []
  | c :: l' =>
      let rest := c :: mark_words (Some c) l' in
      if word_starts prev c (head l') then "_"%char :: rest else rest
  end.

(** The second expression alone. *)
Definition acronym_ends (prev : option ascii) (c : ascii) (next : option ascii) : bool :=
  from_ptr false is_upper prev && is_upper c && from_ptr false is_lower next.

Fixpoint mark_acronyms (prev : option ascii) (l : list ascii) : list ascii :=
  match l with
  | [] => []
  | c :: l' =>
      let rest := c :: mark_acronyms (Some c) l' in
      if acronym_ends prev c (head l') then "_"%char :: rest else rest
  end.

Lemma upper_not_lower c : is_upper c = true -> lower_or_digit c = false /\ is_lower c = false.
Proof. by destruct c as [[] [] [] [] [] [] [] []]. Qed.

Lemma span_upper_spec l run rest :
  span_upper l = (run, rest) ->
  l = run ++ rest /\ Forall (fun c => is_upper c = true) run /\ from_ptr false is_upper (head rest) = false.
Proof.
  revert run. induction l as [|c l IH]; intros run; simpl; [intros [= <- <-]; done|].
  destruct (is_upper c) eqn:Ec.
  - destruct (span_upper l) as [run' rest'] eqn:E. intros [= <- <-].
    destruct (IH _ eq_refl) as (-> & ? & ?). split_and!; [done|by constructor|done].
  - intros [= <- <-]. split_and!; [done|constructor|done].
Qed.

(** A run of capitals followed by a lower-case letter is marked once. *)
Lemma mark_acronyms_match prev c g u x rest :
  Forall (fun c => is_upper c = true) (c :: g) -> is_upper u = true -> is_lower x = true ->
  mark_acronyms prev (c :: g ++ u :: x :: rest) = c :: g ++ "_"%char :: u :: x :: mark_acronyms (Some x) rest.
Proof.
  intros Hg Hu Hx. revert prev c Hg. induction g as [|d g IH]; intros prev c [Hc Hg]%Forall_cons.
  - pose proof (upper_not_lower u Hu) as [_ Hul].
    assert (is_upper x = false) as Hxu.
    { destruct (is_upper x) eqn:E; [|done]. apply upper_not_lower in E as [_ E]. congruence. }
    cbn [app mark_acronyms head]. unfold acronym_ends. cbn [from_ptr].
    rewrite Hul, Hc, Hu, Hx, Hxu. by rewrite !andb_false_r.
  - pose proof (Forall_inv Hg) as Hd. cbn beta in Hd. pose proof (upper_not_lower d Hd) as [_ Hdl].
    cbn [app]. cbn [app] in IH. cbn [mark_acronyms head]. cbn [mark_acronyms] in IH.
    unfold acronym_ends at 1. cbn [from_ptr]. rewrite Hdl, andb_false_r. cbn zeta. f_equal.
    exact (IH (Some c) d Hg).
Qed.

(** No match can start here or later in the run of capitals that [prev] ends. *)
Definition no_match_inside (prev : option ascii) (l : list ascii) : Prop :=
  from_ptr false is_upper prev = true ->
  let '(run, rest) := span_upper l in run = [] \/ from_ptr false is_lower (head rest) = false.

Lemma match_acronym_Some l g1 g2 rest :
  match_acronym l = Some (g1, g2, rest) ->
  exists c g u x, g1 = c :: g /\ g2 = [u; x] /\ l = c :: g ++ u :: x :: rest
    /\ Forall (fun c => is_upper c = true) (c :: g) /\ is_upper u = true /\ is_lower x = true
    /\ span_upper l = (c :: g ++ [u], x :: rest).
Proof.
  unfold match_acronym. destruct (span_upper l) as [run r] eqn:E.
  apply span_upper_spec in E as (-> & Hrun & _).
  destruct r as [|x r]; [done|]. destruct (reverse run) as [|u [|c k]] eqn:Er; [done..|].
  destruct (is_lower x) eqn:Hx; [|done]. intros [= <- <- <-].
  apply (f_equal reverse) in Er. rewrite reverse_involutive, reverse_cons in Er.
  destruct (reverse (c :: k)) as [|a g] eqn:Eg.
  { apply (f_equal length) in Eg. rewrite length_reverse in Eg. done. }
  subst run. apply Forall_app in Hrun as [Hg Hu]. apply Forall_inv in Hu.
  exists a, g, u, x. split_and!; try done. simpl. by rewrite <-app_assoc.
Qed.

Lemma match_acronym_None c l :
  match_acronym (c :: l) = None -> is_upper c = true -> no_match_inside (Some c) l.
Proof.
  unfold match_acronym, no_match_inside. simpl. intros H Hc _. rewrite Hc in H.
  destruct (span_upper l) as [[|d run] rest]; [by left|]. right.
  destruct rest as [|x rest]; [done|]. simpl.
  destruct (reverse (c :: d :: run)) as [|u [|v k]] eqn:Er.
  1,2: apply (f_equal length) in Er; rewrite length_reverse in Er; done.
  by destruct (is_lower x).
Qed.

Lemma split_acronyms_marks fuel prev l :
  (length l <= fuel)%nat -> no_match_inside prev l -> split_acronyms fuel l = mark_acronyms prev l.
Proof.
  revert prev l. induction fuel as [|fuel IH]; intros prev l Hl Hin; [by destruct l; simpl in *; [|lia]|].
  cbn [split_acronyms]. destruct (match_acronym l) as [[[g1 g2] rest]|] eqn:E.
  - apply match_acronym_Some in E as (c & g & u & x & -> & -> & -> & Hg & Hu & Hx & _).
    rewrite mark_acronyms_match by done. simpl. do 5 f_equal. apply IH.
    + simpl in Hl. rewrite length_app in Hl. simpl in Hl. lia.
    + intros Hux. simpl in Hux. apply upper_not_lower in Hux as [_ ?]. congruence.
  - destruct l as [|c l]; [done|]. simpl in Hl. cbn [mark_acronyms].
    assert (acronym_ends prev c (head l) = false) as ->.
    { unfold acronym_ends. destruct (from_ptr false is_upper prev) eqn:Hp; [|done].
      destruct (is_upper c) eqn:Hc; [|done]. simpl. specialize (Hin Hp). simpl in Hin. rewrite Hc in Hin.
      destruct (span_upper l) as [run rest] eqn:Es. destruct Hin as [|Hin]; [done|].
      apply span_upper_spec in Es as (-> & Hrun & _). destruct run as [|d run]; [done|]. simpl.
      by apply Forall_inv, upper_not_lower in Hrun as [_ ->]. }
    cbn zeta. f_equal. apply IH; [lia|]. destruct (is_upper c) eqn:Hc.
    + by apply match_acronym_None.
    + intros Hu. simpl in Hu. congruence.
Qed.

(** The first expression marks the capitals after lower-case letters and digits. *)
Fixpoint mark_capitals (prev : option ascii) (l : list ascii) : list ascii :=
  match l with
  | [] => []
  | c :: l' =>
      let rest := c :: mark_capitals (Some c) l' in
      if from_ptr false lower_or_digit prev && is_upper c then "_"%char :: rest else rest
  end.

Lemma split_words_marks prev l :
  from_ptr false lower_or_digit prev = false -> split_words l = mark_capitals prev l.
Proof.
  remember (length l) as n eqn:Hn. revert prev l Hn.
  induction (lt_wf n) as [n _ IH]. intros prev l -> Hp.
  destruct l as [|c [|d l]]; [done| |].
  - simpl. by rewrite Hp.
  - cbn [split_words mark_capitals]. rewrite Hp. cbn [from_ptr andb]. cbn zeta.
    destruct (lower_or_digit c && is_upper d) eqn:E.
    + apply andb_true_iff in E as [_ Hd]. apply upper_not_lower in Hd as [Hd _].
      do 3 f_equal. apply (IH (length l)); [simpl; lia|done|done].
    + f_equal. assert (split_words (d :: l) = mark_capitals None (d :: l)) as H
        by (apply (IH (length (d :: l))); [simpl; lia|done|done]). exact H.
Qed.

Lemma head_mark_capitals c l :
  from_ptr false is_lower (head (mark_capitals (Some c) l)) = from_ptr false is_lower (head l).
Proof.
  destruct l as [|d l]; [done|]. cbn [mark_capitals from_ptr].
  destruct (lower_or_digit c && is_upper d) eqn:E; [|done].
  apply andb_true_iff in E as [_ Hd]. apply upper_not_lower in Hd as [_ Hd]. simpl. by rewrite Hd.
Qed.

Lemma marks_compose prev l : mark_acronyms prev (mark_capitals prev l) = mark_words prev l.
Proof.
  revert prev. induction l as [|c l IH]; intros prev; [done|].
  cbn [mark_capitals mark_words]. cbn zeta. destruct (from_ptr false lower_or_digit prev && is_upper c) eqn:E.
  - destruct prev as [p|]; [|done]. simpl in E. cbn [mark_acronyms head from_ptr].
    assert (acronym_ends (Some p) "_" (Some c) = false) as -> by (unfold acronym_ends; by rewrite andb_false_r).
    assert (forall o, acronym_ends (Some "_"%char) c o = false) as H by done.
    rewrite H. apply andb_true_iff in E as [Ep Ec]. unfold word_starts. rewrite Ep, Ec. simpl. by rewrite IH.
  - cbn [mark_acronyms]. rewrite IH. cbn zeta.
    assert (acronym_ends prev c (head (mark_capitals (Some c) l)) = word_starts prev c (head l)) as ->; [|done].
    unfold acronym_ends, word_starts. rewrite head_mark_capitals. destruct prev as [p|]; [|done].
    simpl in *. destruct (is_upper c), (lower_or_digit p), (is_upper p); done.
Qed.

Lemma ToEnvVarFormat_marks s : ToEnvVarFormat s = str (upper <$> mark_words None (chars s)).
Proof.
  unfold ToEnvVarFormat. cbn zeta. rewrite (split_words_marks None) by done.
  rewrite (split_acronyms_marks _ None) by (done || lia). rewrite marks_compose. unfold ToUpper. by rewrite chars_str.
Qed.

(** Capitals, underscores and digits that no capital follows stay as they are. *)
Definition formatted (l : list ascii) : Prop :=
  Forall (fun c => is_lower c = false) l
  /\ forall l1 c d l2, l = l1 ++ c :: d :: l2 -> lower_or_digit c && is_upper d = false.

Lemma mark_words_formatted prev l :
  formatted l -> (forall c, head l = Some c -> from_ptr false lower_or_digit prev && is_upper c = false) ->
  mark_words prev l = l.
Proof.
  revert prev. induction l as [|c l IH]; intros prev [Hl Hd] Hprev; [done|]. cbn [mark_words]. cbn zeta.
  specialize (Hprev c eq_refl). apply Forall_cons in Hl as [Hc Hl].
  assert (word_starts prev c (head l) = false) as ->.
  { unfold word_starts. destruct prev as [p|]; [|done]. simpl in Hprev.
    assert (from_ptr false is_lower (head l) = false) as ->.
    { destruct l as [|x l]; [done|]. by apply Forall_inv in Hl. }
    rewrite andb_false_r, orb_false_r, andb_comm. done. }
  f_equal. apply IH.
  - split; [done|]. intros l1 a b l2 ->. by apply (Hd (c :: l1) a b l2).
  - intros d Hh. destruct l as [|x l]; [done|]. simpl in Hh. injection Hh as ->. by apply (Hd [] c d l).
Qed.

(** The two passes put an underscore exactly where a word starts, and a name that is
    already formatted is left alone; so two option names can become the same
    variable, as [jobId] and [jobID] do. *)
Theorem ToEnvVarFormat_words s :
  ToEnvVarFormat s = str (upper <$> mark_words None (chars s))
  /\ (formatted (chars s) -> ToEnvVarFormat s = s)
  /\ ToEnvVarFormat "jobId" = ToEnvVarFormat "jobID".
Proof.
  split_and!; [apply ToEnvVarFormat_marks| |by vm_compute].
  intros Hf. rewrite ToEnvVarFormat_marks, (mark_words_formatted None) by done.
  rewrite <-(str_chars s) at 2. f_equal. destruct Hf as [Hl _].
  induction Hl as [|c l Hc _ IH]; [done|]. rewrite fmap_cons, IH. unfold upper. by rewrite Hc.
Qed.

(** ** Environment *)
Section env_properties.
Context `{!RangeOrder string EnvVar}.

Lemma add_envs_lookup m l name :
  add_envs m l !! name =
  match last (filter (fun e => env_Name e = name) l) with Some e => Some e | None => m !! name end.
Proof.
  unfold add_envs. revert m. induction l as [|e l IH] using rev_ind; intros m; [done|].
  rewrite foldl_app, filter_app. simpl. rewrite filter_cons, filter_nil. case_decide as He.
  - subst name. by rewrite last_snoc, lookup_insert_eq.
  - by rewrite lookup_insert_ne, app_nil_r.
Qed.

Lemma add_envs_names m l :
  (forall k e, m !! k = Some e -> env_Name e = k) -> forall k e, add_envs m l !! k = Some e -> env_Name e = k.
Proof.
  intros Hm. unfold add_envs. apply (foldl_inv (fun m => forall k e, m !! k = Some e -> env_Name e = k)); [done|].
  intros m' e _ Hm' k e'. rewrite lookup_insert_Some. intros [[? ?]|[_ ?]]; [by subst|by apply Hm'].
Qed.

(** The environment of a container after [mergeEnvs]: one variable per name, the
    last override of that name if there is one, else the last existing one. *)
Lemma mergeEnvs_elem existing overrides e :
  e ∈ mergeEnvs existing overrides <->
  match last (filter (fun x => env_Name x = env_Name e) overrides) with
  | Some x => e = x
  | None => last (filter (fun x => env_Name x = env_Name e) existing) = Some e
  end.
Proof.
  unfold mergeEnvs. set (m := add_envs _ overrides).
  assert (e ∈ snd <$> range_map m <-> m !! env_Name e = Some e) as ->.
  { rewrite list_elem_of_fmap. split.
    - intros ([k e'] & -> & H). apply elem_of_range_map in H. simpl.
      assert (env_Name e' = k) as ->; [|done]. revert H. apply add_envs_names. by apply add_envs_names.
    - intros H. exists (env_Name e, e). split; [done|]. by apply elem_of_range_map. }
  unfold m. rewrite !add_envs_lookup.
  destruct (last (filter _ overrides)) as [x|]; [split; [by intros [= ->]|by intros ->]|].
  destruct (last (filter _ existing)) as [x|]; [done|]. by rewrite lookup_empty.
Qed.

Lemma mergeEnvs_NoDup existing overrides : NoDup (env_Name <$> mergeEnvs existing overrides).
Proof.
  unfold mergeEnvs. set (m := add_envs _ overrides).
  assert (forall k e, m !! k = Some e -> env_Name e = k) as Hm by (apply add_envs_names; by apply add_envs_names).
  assert (env_Name <$> (snd <$> range_map m) = (range_map m).*1) as ->; [|apply NoDup_fst_range_map].
  rewrite <-list_fmap_compose. apply list_fmap_ext. intros i [k e] H. simpl. apply Hm.
  apply elem_of_range_map. by eapply list_elem_of_lookup_2.
Qed.
End env_properties.

(** ** Waiting and processing *)
Section run_properties.
Context {R W : Type} `{!RangeOrder string string} `{!RangeOrder string EnvVar}.
Context `{HB : !BatchAPI (R := R) W} `{HE : !RunnerEnv W} `{HL : !BatchAPILaws W} `{HU : !RunnerEnvLaws W}.

(** The condition that ends a wait: the first that says complete or failed. *)
Lemma check_conditions_None l :
  check_conditions l = None <->
  Forall (fun c => jc_Status c = "True"%string -> jc_Type c <> "Complete"%string /\ jc_Type c <> "Failed"%string) l.
Proof.
  induction l as [|c l IH]; simpl; [by split|].
  rewrite Forall_cons, <-IH. repeat case_decide; naive_solver.
Qed.

Lemma check_conditions_error l e : check_conditions l = Some (Some e) -> exists reason, e = JobFailedError reason.
Proof. induction l as [|c l IH]; simpl; repeat case_decide; naive_solver. Qed.

Lemma check_conditions_complete l :
  check_conditions l = Some None ->
  exists l1 c l2, l = l1 ++ c :: l2 /\ jc_Type c = "Complete"%string /\ jc_Status c = "True"%string
    /\ check_conditions l1 = None.
Proof.
  induction l as [|c l IH]; simpl; [done|]. case_decide as Hc.
  - intros _. exists [], c, l. naive_solver.
  - case_decide as Hf; [done|]. intros (l1 & d & l2 & -> & ? & ? & ?)%IH.
    exists (c :: l1), d, l2. split_and!; [done..|]. simpl. by rewrite !decide_False.
Qed.

Lemma wait_round_now ns name deadline w w' :
  wait_round (R := R) ns name deadline w = (w', None) ->
  Now w <= deadline /\ Now w + 5 * GoTime.Second <= Now w'.
Proof.
  unfold wait_round, GoTime.After. destruct (deadline <? Now w) eqn:E; [done|]. to_prop.
  pose proof (Jobs_Get_now ns name w) as Hg.
  destruct (Jobs_Get ns name w) as [w1 [l|e]]; [|done]. simpl in Hg.
  destruct (check_conditions l) as [[e|]|]; [done..|]. intros [= <-].
  pose proof (Sleep_now (5 * GoTime.Second) w1). unfold GoTime.Second in *. lia.
Qed.

Lemma wait_loop_ends fuel ns name deadline w :
  (deadline - Now w) / (5 * GoTime.Second) + 1 < Z.of_nat fuel -> 0 < Z.of_nat fuel ->
  exists w' r, wait_loop (R := R) fuel ns name deadline w = Some (w', r).
Proof.
  revert w. induction fuel as [|fuel IH]; intros w Hf Hp; [lia|]. cbn [wait_loop].
  destruct (wait_round ns name deadline w) as [w' [r|]] eqn:E; [by eauto|].
  apply wait_round_now in E as [E1 E2].
  assert (0 < 5 * GoTime.Second) as H5 by (unfold GoTime.Second; lia).
  assert (0 <= (deadline - Now w) / (5 * GoTime.Second)) by (apply Z.div_pos; lia).
  apply IH; [|lia].
  assert ((deadline - Now w') / (5 * GoTime.Second) <= (deadline - Now w) / (5 * GoTime.Second) - 1); [|lia].
  replace ((deadline - Now w) / (5 * GoTime.Second) - 1)
    with ((deadline - Now w - 5 * GoTime.Second) / (5 * GoTime.Second)).
  - apply Z.div_le_mono; lia.
  - replace (deadline - Now w - 5 * GoTime.Second) with (deadline - Now w + (-1) * (5 * GoTime.Second)) by lia.
    rewrite Z.div_add by lia. lia.
Qed.

(** The polls that a result is based on. *)
Lemma wait_loop_result fuel ns name deadline w w' r :
  wait_loop (R := R) fuel ns name deadline w = Some (w', r) ->
  match r with
  | Err WaitTimeout => deadline < Now w'
  | Ok _ => exists w1 l, Now w1 <= deadline /\ snd (Jobs_Get ns name w1) = Ok l /\ check_conditions l = Some None
  | Err e => exists w1, Now w1 <= deadline /\
      match snd (Jobs_Get ns name w1) with Ok l => check_conditions l = Some (Some e) | Err x => e = GetJobError x end
  end.
Proof.
  revert w. induction fuel as [|fuel IH]; intros w; [done|]. cbn [wait_loop].
  destruct (wait_round ns name deadline w) as [w1 o] eqn:E. revert E.
  unfold wait_round, GoTime.After. destruct (deadline <? Now w) eqn:Et; to_prop.
  { intros [= -> <-] [= -> <-]. done. }
  destruct (Jobs_Get ns name w) as [w2 [l|x]] eqn:Eg.
  - destruct (check_conditions l) as [[e|]|] eqn:Ec; intros [= <- <-].
    + intros [= <- <-].
      assert (exists w1, Now w1 <= deadline /\
        match snd (Jobs_Get ns name w1) with Ok l => check_conditions l = Some (Some e) | Err x => e = GetJobError x end) as H.
      { exists w. by rewrite Eg. }
      destruct e; try exact H. by apply check_conditions_error in Ec as [? ?].
    + intros [= <- <-]. exists w, l. by rewrite Eg.
    + intros H. by apply IH in H.
  - intros [= <- <-] [= <- <-]. exists w. by rewrite Eg.
Qed.

Lemma WaitForJobCompletion_ends ns name timeout w :
  0 <= timeout -> exists w' r, WaitForJobCompletion (R := R) ns name timeout w = Some (w', r).
Proof.
  intros Ht. apply wait_loop_ends; unfold wait_fuel.
  - replace (Now w + timeout - Now w) with timeout by lia.
    assert (0 <= timeout / (5 * GoTime.Second)) by (apply Z.div_pos; unfold GoTime.Second; lia). lia.
  - assert (0 <= timeout / (5 * GoTime.Second)) by (apply Z.div_pos; unfold GoTime.Second; lia). lia.
Qed.

Lemma job_config_timeout reportType cfg : job_config reportType = Some cfg -> 0 <= timeout cfg.
Proof.
  unfold job_config. destruct (List.find _ _) as [[k c]|] eqn:E; [|done]. intros [= <-].
  apply find_some in E as [Hin _]. apply base.list_elem_of_In in Hin.
  assert (Forall (fun e => 0 <= timeout (snd e)) reportTypeJobConfigMap) as Hall.
  { unfold reportTypeJobConfigMap, minutes, GoTime.Minute, GoTime.Second.
    repeat (constructor; [simpl; lia|]). constructor. }
  rewrite Forall_forall in Hall. exact (Hall _ Hin).
Qed.

Lemma GenerateJobName_returns cron id random :
  lenS random = 36 -> exists name, GenerateJobName cron id random = Ret name /\ lenS name <= 63.
Proof.
  intros Hr. unfold GenerateJobName.
  destruct (slice_returns random 0 8) as [r8 ->]; [lia..|]. simpl.
  case_match eqn:E; to_prop; [|by eexists].
  unfold slice. rewrite decide_True by lia. eexists. split; [done|].
  unfold lenS, slen. rewrite chars_str, length_take. lia.
Qed.

(** Every job is processed: the function returns, within the job's timeout. *)
Lemma run_job_returns c odj w : exists w' o, run_job (R := R) c odj w = Ret (Some (w', o)).
Proof.
  unfold run_job.
  assert (exists w' r, processOnDemandJob (R := R) odj w = Ret (Some (w', r))) as (w1 & r & ->).
  { unfold processOnDemandJob. destruct (GetCurrentNamespace _ _) as [ns|]; [|by eauto].
    destruct (job_config _) as [cfg|] eqn:Ec; [|by eauto].
    pose proof (NewUUID_length w) as Hl. destruct (NewUUID w) as [w1 random]. simpl in Hl.
    destruct (GenerateJobName_returns (cronJobName cfg) (odj_ID odj) random Hl) as (name & -> & _). simpl.
    destruct (CreateJobFromCronJob _ _ _ _ _ _) as [w2 [job|e]]; [|by eauto].
    destruct (WaitForJobCompletion_ends (j_Namespace job) (j_Name job) (timeout cfg) w2) as (w3 & r & ->);
      [by eapply job_config_timeout|]. by eauto. }
  simpl. destruct r as [[]|e]; [destruct (report c odj JobStatusCompleted w1)|destruct (report c odj JobStatusFailed w1)]; by eauto.
Qed.

(** What the report of a job says: completed only when a poll before the deadline
    saw the job complete. *)
Lemma run_job_report c odj w w' o :
  run_job (R := R) c odj w = Ret (Some (w', o)) ->
  oc_job o = odj_ID odj /\
  exists w1 r, processOnDemandJob (R := R) odj w = Ret (Some (w1, r)) /\
    oc_status o = (match r with Ok _ => JobStatusCompleted | Err _ => JobStatusFailed end) /\
    oc_update o = snd (UpdateOnDemandJobStatus c (odj_ID odj) (oc_status o) w1).
Proof.
  unfold run_job. destruct (processOnDemandJob odj w) as [[[w1 r]|]|]; [|done..]. simpl.
  destruct r as [u|e]; unfold report; destruct (UpdateOnDemandJobStatus _ _ _ w1) as [w2 x] eqn:E;
    intros [= <- <-]; (split; [done|]); eexists w1, _; simpl; rewrite E; done.
Qed.

(** Where a completed report comes from: the job that was posted had the options as
    environment, and a poll of the created job saw it complete. *)
Definition job_completed (odj : OnDemandJob) : Prop :=
  exists cfg ns name spec job w1 w2 l,
    job_config (odj_ReportType odj) = Some cfg /\ lenS name <= 63
    /\ snd (Jobs_Create ns {| j_Name := name; j_Namespace := ns;
              j_Spec := job_spec spec (OptionsToEnvVars odj) (backoffLimit cfg) |} w1) = Ok job
    /\ snd (Jobs_Get (j_Namespace job) (j_Name job) w2) = Ok l /\ check_conditions l = Some None.

Lemma processOnDemandJob_Ok odj w w' u :
  processOnDemandJob (R := R) odj w = Ret (Some (w', Ok u)) -> job_completed odj.
Proof.
  unfold processOnDemandJob. destruct (GetCurrentNamespace _ _) as [ns|]; [|done].
  destruct (job_config _) as [cfg|] eqn:Ec; [|done].
  pose proof (NewUUID_length w) as Hl. destruct (NewUUID w) as [w1 random]. simpl in Hl.
  destruct (GenerateJobName_returns (cronJobName cfg) (odj_ID odj) random Hl) as (name & -> & Hname). simpl.
  unfold CreateJobFromCronJob. destruct (CronJobs_Get _ _ w1) as [w2 [spec|e]]; [|done].
  destruct (Jobs_Create _ _ w2) as [w3 [job|e]] eqn:Ej; [|done]. intros [= Hw].
  apply wait_loop_result in Hw as (w4 & l & _ & Hg & Hl').
  exists cfg, ns, name, spec, job, w2, w4, l. by rewrite Ej.
Qed.

(** *** The run *)

(** The calls that return, spelled out for a nonempty list. *)
Lemma Fetch_returns_jobs c jobs max r :
  jobs <> [] ->
  Fetch_returns (R := R) (W := W) c (Ok jobs) max r =
  (if max <? 0 then r = Panic
   else exists os, pool_returns (length jobs) (Z.to_nat max) (job_task c jobs) os /\ r = Ret (Ok os)).
Proof. by destruct jobs. Qed.

Lemma job_task_report c jobs os :
  length os = length jobs -> (forall i o, os !! i = Some o -> job_task (R := R) (W := W) c jobs i o) ->
  oc_job <$> os = odj_ID <$> jobs /\
  forall i o, os !! i = Some o -> oc_status o <> JobStatusFailed ->
    oc_status o = JobStatusCompleted /\ exists odj, jobs !! i = Some odj /\ job_completed odj.
Proof.
  intros Hl Ht. split.
  - apply list_eq. intros i. rewrite !list_lookup_fmap. destruct (os !! i) as [o|] eqn:Eo.
    + destruct (Ht i o Eo) as (odj & w & w' & Hj & Hrun). rewrite Hj. simpl.
      apply run_job_report in Hrun as [-> _]. done.
    + apply lookup_ge_None in Eo. rewrite lookup_ge_None_2; [done|lia].
  - intros i o Ho Hs. destruct (Ht i o Ho) as (odj & w & w' & Hj & Hrun).
    apply run_job_report in Hrun as [_ (w1 & r & Hp & Hst & _)].
    destruct r as [u|e]; [|done]. split; [done|]. exists odj. split; [done|].
    by eapply processOnDemandJob_Ok.
Qed.

Lemma job_task_exists `{!Inhabited W} c jobs i :
  (i < length jobs)%nat -> exists o, job_task (R := R) (W := W) c jobs i o.
Proof.
  intros [odj Hj]%lookup_lt_is_Some.
  destruct (run_job_returns c odj inhabitant) as (w' & o & H). by exists o, odj, inhabitant, w'.
Qed.

End run_properties.

(** *** The environment of a created job *)
Section created_env.
Context {R : Type} `{!RangeOrder string string} `{!RangeOrder string EnvVar}.

Lemma OptionsToEnvVars_elem odj e :
  e ∈ OptionsToEnvVars odj <->
  exists key v, map_get (odj_Options odj) key = Some v
    /\ e = {| env_Name := ToEnvVarFormat key; env_Value := v; env_ValueFrom := None |}.
Proof.
  unfold OptionsToEnvVars, map_get. destruct (odj_Options odj) as [m|].
  - rewrite list_elem_of_fmap. split.
    + intros ([k v] & -> & H). apply elem_of_range_map in H. by exists k, v.
    + intros (k & v & H & ->). exists (k, v). split; [done|]. by apply elem_of_range_map.
  - split; [by intros ?%not_elem_of_nil|naive_solver].
Qed.

(** In every container of the job each name occurs once; each option is set, under
    its formatted name, to the value of one of the options with that name; the
    variables the options do not name keep their last value. *)
Theorem created_job_env (odj : OnDemandJob) (spec : JobSpec (R := R)) limit i c :
  js_Containers (job_spec spec (OptionsToEnvVars odj) limit) !! i = Some c ->
  NoDup (env_Name <$> ct_Env c)
  /\ (forall key v, map_get (odj_Options odj) key = Some v ->
        exists key' v', map_get (odj_Options odj) key' = Some v' /\ ToEnvVarFormat key' = ToEnvVarFormat key /\
          {| env_Name := ToEnvVarFormat key; env_Value := v'; env_ValueFrom := None |} ∈ ct_Env c)
  /\ (forall e, (forall key v, map_get (odj_Options odj) key = Some v -> ToEnvVarFormat key <> env_Name e) ->
        e ∈ ct_Env c <->
        exists c0, js_Containers spec !! i = Some c0 /\
          last (filter (fun x => env_Name x = env_Name e) (ct_Env c0)) = Some e).
Proof.
  simpl. rewrite list_lookup_fmap. destruct (js_Containers spec !! i) as [c0|] eqn:E; [|done].
  intros [= <-]. simpl. split_and!; [apply mergeEnvs_NoDup| |].
  - intros key v Hk.
    set (P := fun x : EnvVar => env_Name x = ToEnvVarFormat key).
    destruct (last (filter P (OptionsToEnvVars odj))) as [x|] eqn:El.
    + apply last_Some_elem_of in El as Hx. apply list_elem_of_filter in Hx as [Hp Hx].
      apply OptionsToEnvVars_elem in Hx as (key' & v' & Hk' & ->). unfold P in Hp. simpl in Hp.
      exists key', v'. split_and!; [done|done|]. rewrite mergeEnvs_elem. simpl. fold P.
      rewrite El. by rewrite Hp.
    + apply last_None in El. exfalso.
      assert ({| env_Name := ToEnvVarFormat key; env_Value := v; env_ValueFrom := None |} ∈ filter P (OptionsToEnvVars odj)) as H.
      { apply list_elem_of_filter. split; [done|]. apply OptionsToEnvVars_elem. by exists key, v. }
      rewrite El in H. by apply not_elem_of_nil in H.
  - intros e He. rewrite mergeEnvs_elem.
    destruct (last (filter _ (OptionsToEnvVars odj))) as [x|] eqn:El.
    + apply last_Some_elem_of, list_elem_of_filter in El as [Hn Hx].
      apply OptionsToEnvVars_elem in Hx as (key & v & Hk & ->). by destruct (He key v Hk).
    + split; [by exists c0|]. by intros (? & [= <-] & ?).
Qed.
End created_env.

(** ** Configuration *)

(** A configuration that is accepted has the four required keys; neither the number
    of jobs nor the interval is checked, and an interval that is not positive
    panics when the ticker is made. *)
Theorem main_start_checks IsSet GetString Unmarshal clientset ParseDuration c :
  loadConfig IsSet GetString Unmarshal = Ok c ->
  (forall key, key ∈ requiredKeys -> IsSet key = true /\ GetString key <> "")
  /\ (forall d, ParseDuration (PollInterval c) = Ok d -> clientset = true ->
        main_start (loadConfig IsSet GetString Unmarshal) clientset ParseDuration
        = if d <=? 0 then Panic else Ret (Polling c d)).
Proof.
  intros Hc. split.
  - unfold loadConfig in Hc. destruct (missing_key _ _ _) eqn:E; [done|]. clear Hc.
    intros key. revert E. induction requiredKeys as [|k l IH]; simpl; [by intros _ ?%not_elem_of_nil|].
    destruct (negb (IsSet k)) eqn:E1; [done|]. case_bool_decide as E2; [done|]. simpl. to_prop.
    intros Hm [->|?]%elem_of_cons; [done|]. by apply IH.
  - intros d Hd ->. rewrite Hc. simpl. by rewrite Hd.
Qed.

(** ** A concrete run

    The world is the clock; the cluster creates what is posted and reports it
    complete at once, Insights accepts everything. *)
Module Witness.

#[local] Instance api : BatchAPI (R := unit) Z := {|
  CronJobs_Get _ _ w :=
    (w, Ok {| js_TTLSecondsAfterFinished := None; js_BackoffLimit := Some 3;
              js_Containers := [{| ct_Env := [{| env_Name := "JOB_ID"; env_Value := "0"; env_ValueFrom := None |}];
                                   ct_rest := tt |}]; js_rest := tt |});
  Jobs_Create _ job w := (w, Ok job);
  Jobs_Get _ _ w := (w, Ok [{| jc_Type := "Complete"; jc_Status := "True"; jc_Reason := "" |}]);
  Now w := w;
  Sleep d w := w + d
|}.

#[local] Instance api_laws : BatchAPILaws (R := unit) Z.
Proof. split; simpl; lia. Qed.

#[local] Instance env : RunnerEnv Z := {|
  NewUUID w := (w, "6ba7b810-9dad-11d1-80b4-00c04fd430c8"%string);
  NamespaceFile _ := Ok "insights-agent"%string;
  NAMESPACE _ := ""%string;
  Do _ w := (w, Ok (200, ""%string))
|}.

#[local] Instance env_laws : RunnerEnvLaws Z.
Proof. split. intros w. vm_compute. reflexivity. Qed.

Definition client : HTTPClient := {| hc_organization := "acme"; hc_cluster := "prod" |}.

Definition claimed : list OnDemandJob :=
  [{| odj_ID := 7; odj_ReportType := "trivy"; odj_Status := "pending"; odj_Options := Some {[ "jobId" := "7" ]} |};
   {| odj_ID := 8; odj_ReportType := "nothing"; odj_Status := "pending"; odj_Options := None |}].

#[local] Instance order_string : RangeOrder string string := canonical_order.
#[local] Instance order_env : RangeOrder string EnvVar := canonical_order.

Definition template : JobSpec (R := unit) :=
  {| js_TTLSecondsAfterFinished := None; js_BackoffLimit := Some 3;
     js_Containers := [{| ct_Env := [{| env_Name := "JOB_ID"; env_Value := "0"; env_ValueFrom := None |};
                                     {| env_Name := "HOME"; env_Value := "/"; env_ValueFrom := None |}];
                          ct_rest := tt |}]; js_rest := tt |}.

Definition job7 : OnDemandJob :=
  {| odj_ID := 7; odj_ReportType := "trivy"; odj_Status := "pending"; odj_Options := Some {[ "jobId" := "7" ]} |}.

Lemma created_job_env_witness :
  let cs := js_Containers (job_spec template (OptionsToEnvVars job7) None) in
  length cs = 1%nat /\ forall c, cs !! 0%nat = Some c ->
    exists v', {| env_Name := "JOB_ID"; env_Value := v'; env_ValueFrom := None |} ∈ ct_Env c.
Proof.
  split; [reflexivity|]. intros c Hc.
  destruct (created_job_env job7 template None 0 c Hc) as (_ & H & _).
  destruct (H "jobId"%string "7"%string ltac:(reflexivity)) as (k & v & _ & _ & Hin). exists v. exact Hin.
Defined.

(** An option with the name of an existing variable replaces it, the rest stays. *)
Example merged_env :
  mergeEnvs (ct_Env (default {| ct_Env := []; ct_rest := tt |} (head (js_Containers template)))) (OptionsToEnvVars job7)
  ≡ₚ [{| env_Name := "JOB_ID"; env_Value := "7"; env_ValueFrom := None |};
      {| env_Name := "HOME"; env_Value := "/"; env_ValueFrom := None |}].
Proof. vm_compute. apply Permutation_swap || reflexivity. Qed.


(** The job of a known type is reported complete, the other one failed. *)
Example run_job_examples :
  (exists w, run_job (R := unit) client job7 0 =
     Ret (Some (w, {| oc_job := 7; oc_status := JobStatusCompleted; oc_update := Ok tt |})))
  /\ processOnDemandJob (R := unit) {| odj_ID := 8; odj_ReportType := "nothing"; odj_Status := "pending"; odj_Options := None |} 0
     = Ret (Some (0, Err (UnknownReportType "nothing" 8))).
Proof. split; [eexists|]; vm_compute; reflexivity. Qed.

Lemma main_start_checks_witness :
  let c := {| Organization := "acme"; Cluster := "prod"; Token := "t"; Host := "h"; MaxConcurrentJobs := 0;
              DevMode := false; PollInterval := "0s" |} in
  main_start (loadConfig (fun _ => true) (fun _ => "x"%string) (Ok c)) true (fun _ => Ok 0) = Panic.
Proof.
  intros c. destruct (main_start_checks (fun _ => true) (fun _ => "x"%string) (Ok c) true (fun _ => Ok 0) c) as [_ H];
    [reflexivity|]. apply (H 0); reflexivity.
Defined.
End Witness.
