(* ===== verification/Opa.v ===== *)
(** * opa: custom checks

    [opa/pkg/opa/] ([types.go], [opa.go]), [pkg/rego/rego.go], [pkg/kube/client.go],
    [pkg/kube/files.go] and [cmd/root.go]: which policies run on which objects,
    what a policy is given, how its output becomes action items, and what the
    report holds.  The policy engine and the cluster are classes. *)

From stdpp Require Import base decidable list gmap strings.
From Stdlib Require Import ZArith Lia Ascii.
From S2P Require Import Prelude GoStrings GoText GoValues.

Local Open Scope Z_scope.

(** ** Severities: [float64], and [json.Number.Float64]. *)
Class Severities (F : Type) := {
  ParseFloat : string -> result string F;
  half : F
}.

(** ** Data *)

Record ActionItem {F : Type} : Type := {
  ai_ResourceNamespace : string;
  ai_ResourceKind : string;
  ai_ResourceName : string;
  ai_Title : string;
  ai_Description : string;
  ai_Remediation : string;
  ai_EventType : string;
  ai_Severity : F;
  ai_Category : string
}.
Arguments ActionItem F : clear implicits.

Record KubeTarget : Type := { kt_APIGroups : list string; kt_Kinds : list string }.

Record KubeResourceTarget : Type := { krt_APIGroups : list string; krt_Resources : list string }.

Record OutputFormat {F : Type} : Type := {
  Title : option string;
  Severity : option F;
  Remediation : option string;
  Category : option string;
  Description : option string
}.
Arguments OutputFormat F : clear implicits.

Record OPACustomCheck {F : Type} : Type := {
  cc_Name : string;
  cc_Version : string;
  cc_Rego : string;
  cc_Title : option string;
  cc_Severity : option F;
  cc_Remediation : option string;
  cc_Category : option string;
  cc_AdditionalKubernetesData : list string;
  cc_IsLibrary : bool;
  cc_RegoVersion : option string
}.
Arguments OPACustomCheck F : clear implicits.

Record CheckSetting {F : Type} : Type := {
  cs_CheckName : string;
  cs_Targets : list string;
  cs_ClusterNames : list string;
  cs_DataName : string;
  cs_Output : OutputFormat F;
  cs_Parameters : nilmap value
}.
Arguments CheckSetting F : clear implicits.

Record CustomCheckInstance {F : Type} : Type := {
  ci_Name : string;
  ci_Parameters : nilmap value;
  ci_Targets : list KubeTarget;
  ci_Output : OutputFormat F;
  ci_CustomCheckName : string
}.
Arguments CustomCheckInstance F : clear implicits.

Record OPACustomLibrary : Type := { lib_Name : string; lib_Rego : string }.

(** ** Output formats *)
Section formats.
Context {F : Type}.

(** [if o.X == nil { o.X = other.X }]. *)
Definition if_nil {A} (o other : option A) : option A :=
  match o with Some _ => o | None => other end.

Definition no_format : OutputFormat F :=
  {| Title := None; Severity := None; Remediation := None; Category := None; Description := None |}.

Definition set_default (o other : OutputFormat F) : OutputFormat F :=
  {| Title := if_nil (Title o) (Title other);
     Severity := if_nil (Severity o) (Severity other);
     Remediation := if_nil (Remediation o) (Remediation other);
     Category := if_nil (Category o) (Category other);
     Description := if_nil (Description o) (Description other) |}.

Definition SetDefaults (o : OutputFormat F) (others : list (OutputFormat F)) : OutputFormat F :=
  foldl set_default o others.

Definition GetOutputFormat (c : OPACustomCheck F) : OutputFormat F :=
  {| Title := cc_Title c; Severity := cc_Severity c; Remediation := cc_Remediation c;
     Category := cc_Category c; Description := None |}.

(** ** Instances and targets *)

(** A target without a slash panics: [splitValues[1]]. *)
Definition target_of (s : string) : go KubeTarget :=
  match Split s "/" with
  | group :: kind :: _ => Ret {| kt_APIGroups := [group]; kt_Kinds := [kind] |}
  | _ => Panic
  end.

Definition GetCustomCheckInstance (s : CheckSetting F) : go (CustomCheckInstance F) :=
  targets ← mapM target_of (cs_Targets s);
  mret {| ci_Name := cs_DataName s; ci_Parameters := cs_Parameters s; ci_Targets := targets;
          ci_Output := cs_Output s; ci_CustomCheckName := cs_CheckName s |}.

Definition MatchesTarget (i : CustomCheckInstance F) (apiGroup kind : string) : bool :=
  existsb (fun target =>
    existsb (fun group =>
      existsb (fun targetKind => bool_decide (apiGroup = group /\ targetKind = kind)) (kt_Kinds target))
    (kt_APIGroups target)) (ci_Targets i).

Definition getGroupKinds (targets : list KubeTarget) : list (string * string) :=
  target ← targets; apiGroup ← kt_APIGroups target; kind ← kt_Kinds target; [(apiGroup, kind)].

Definition getGroupResources (targets : list KubeResourceTarget) : list (string * string) :=
  target ← targets; apiGroup ← krt_APIGroups target; resource ← krt_Resources target; [(apiGroup, resource)].

(** One flag; what follows a second slash is ignored, and no slash panics. *)
Definition cli_target (CLIInput : string) : go KubeResourceTarget :=
  match Split CLIInput "/" with
  | f0 :: f1 :: _ => Ret {| krt_APIGroups := Split f0 ","; krt_Resources := Split f1 "," |}
  | _ => Panic
  end.

Definition keep_target (t : KubeResourceTarget) : bool :=
  (0 <? lenZ (krt_APIGroups t)) || (0 <? lenZ (krt_Resources t)).

(** A nil slice of flags is [None], and so is the nil pointer that it gives. *)
Definition ProcessCLIKubeResourceTargets (CLIInputs : option (list string)) : go (option (list KubeResourceTarget)) :=
  match CLIInputs with
  | None => Ret None
  | Some l => targets ← mapM cli_target l; mret (Some (filter (fun t => keep_target t = true) targets))
  end.

(** ** Checks and libraries *)

Definition is_v1 (regoVersion : option string) : bool := bool_decide (regoVersion = Some "v1").

Definition library_of (lib : OPACustomCheck F) : OPACustomLibrary :=
  {| lib_Name := cc_Name lib; lib_Rego := cc_Rego lib |}.

Definition GetOPACustomChecksAndLibraries (l : list (OPACustomCheck F))
    : list (OPACustomCheck F) * list OPACustomLibrary * list OPACustomLibrary :=
  (filter (fun c => cc_IsLibrary c = false) l,
   library_of <$> filter (fun c => cc_IsLibrary c && negb (is_v1 (cc_RegoVersion c)) = true) l,
   library_of <$> filter (fun c => cc_IsLibrary c && is_v1 (cc_RegoVersion c) = true) l).

Definition toOPACustomLibsMap (l : list OPACustomLibrary) : gmap string string :=
  foldl (fun libs lib => <[lib_Name lib := lib_Rego lib]> libs) ∅ l.
End formats.

(** ** From the output of a policy to action items *)

Inductive result_error : Type :=
| NotAString (key : string)
| NotAFloat (key : string)
| BadNumber (e : string)
| Undecipherable.

Section results.
Context {F : Type} `{!Severities F}.

Definition maybeGetStringField (m : gmap string value) (key : string) : result result_error (option string) :=
  if not_nil (m !! key) then
    match to_string (m !! key) with Some s => Ok (Some s) | None => Err (NotAString key) end
  else Ok None.

Definition maybeGetFloatField (m : gmap string value) (key : string) : result result_error (option F) :=
  if not_nil (m !! key) then
    match m !! key with
    | Some (VNumber n) => match ParseFloat n with Ok f => Ok (Some f) | Err e => Err (BadNumber e) end
    | _ => Err (NotAFloat key)
    end
  else Ok None.

Definition getDetailsFromMap (m : gmap string value) : result result_error (OutputFormat F) :=
  description ← maybeGetStringField m "description";
  title ← maybeGetStringField m "title";
  category ← maybeGetStringField m "category";
  remediation ← maybeGetStringField m "remediation";
  severity ← maybeGetFloatField m "severity";
  mret {| Title := title; Severity := severity; Remediation := remediation; Category := category;
          Description := description |}.

(** The package's default variables. *)
Definition default_format : OutputFormat F :=
  {| Title := Some "Unknown title"%string; Severity := Some half; Remediation := Some ""%string;
     Category := Some "Security"%string; Description := Some ""%string |}.

Definition output_details (output : value) : result result_error (OutputFormat F) :=
  match output with
  | VString s =>
      Ok {| Title := None; Severity := None; Remediation := None; Category := None; Description := Some s |}
  | VMap m => getDetailsFromMap m
  | _ => Err Undecipherable
  end.

(** The item of one output; the pointers are followed. *)
Definition action_item (resourceName resourceKind resourceNamespace name : string) (d : OutputFormat F)
    : go (ActionItem F) :=
  title ← deref (Title d);
  description ← deref (Description d);
  remediation ← deref (Remediation d);
  severity ← deref (Severity d);
  category ← deref (Category d);
  mret {| ai_ResourceNamespace := resourceNamespace; ai_ResourceKind := resourceKind;
          ai_ResourceName := resourceName; ai_Title := title; ai_Description := description;
          ai_Remediation := remediation; ai_EventType := name; ai_Severity := severity;
          ai_Category := category |}.

Fixpoint process_outputs (rName rKind rNamespace : string) (results : list value) (name : string)
    (details : OutputFormat F) (acc : list (ActionItem F)) : go (result result_error (list (ActionItem F))) :=
  match results with
  | [] => Ret (Ok acc)
  | output :: results' =>
      match output_details output with
      | Err e => Ret (Err e)
      | Ok d =>
          ai ← action_item rName rKind rNamespace name (SetDefaults d [details; default_format]);
          process_outputs rName rKind rNamespace results' name details (acc ++ [ai])
      end
  end.

Definition processResults (rName rKind rNamespace : string) (results : list value) (name : string)
    (details : OutputFormat F) : go (result result_error (list (ActionItem F))) :=
  process_outputs rName rKind rNamespace results name details [].
End results.

(** ** Evaluating a policy *)

(** A term of the policy language: a string, or something else. *)
Inductive ast_term : Type := AstString (s : string) | AstOther.

Inductive rego_error : Type :=
| ExpectedString
| UnknownInfo (what : string)
| DataError (group kind e : string)
| ConversionError (e : string)
| PrepareError (e : string)
| EvalError (e : string).

(** What a policy can ask about its run; the admission request is encoded. *)
Record InsightsInfo : Type := {
  InsightsContext : string;
  ii_Cluster : string;
  Repository : string;
  ii_AdmissionRequest : option value
}.

(** A prepared query: its modules by name, the version of the language and the two
    functions that policies can call. *)
Record rego_query {W : Type} : Type := {
  q_Modules : list (string * string);
  q_V1 : bool;
  q_kubernetes : ast_term -> ast_term -> W -> W * result rego_error value;
  q_insightsinfo : ast_term -> result rego_error value
}.
Arguments rego_query W : clear implicits.

(** The engine: errors of preparing a query, and the bindings that an evaluation
    gives; functions called by the policy may use the world. *)
Class RegoEngine (W : Type) := {
  PrepareForEval : rego_query W -> option string;
  Eval : rego_query W -> value -> W -> W * result string (list (gmap string value));
  InterfaceToValue : value -> result string value
}.

(** An object from the cluster with the names its accessors give. *)
Record Unstructured : Type := {
  un_Object : gmap string value;
  un_Name : string;
  un_Kind : string;
  un_Namespace : string
}.

(** Whether there is a client, the mappings of groups to resources, and lists over all
    namespaces. *)
Class KubeClient (W : Type) := {
  GetKubeClient : bool;
  RESTMapping : string -> string -> W -> W * result string string;
  ResourceFor : string -> string -> W -> W * result string string;
  List : string -> W -> W * result string (list Unstructured)
}.

Section rego.
Context {W : Type} `{!RegoEngine W} `{!KubeClient W} `{!RangeOrder string string} `{!RangeOrder string value}.

Definition getStringFromAST (t : ast_term) : result rego_error string :=
  match t with
  | AstString s => Ok (Trim (Quote s) [byte 34])
  | AstOther => Err ExpectedString
  end.

(** [Client.GetData]. *)
Definition GetData (group kind : string) (w : W) : W * result string (list value) :=
  let '(w, mapping) := RESTMapping group kind w in
  match mapping with
  | Err e => (w, Err e)
  | Ok gvr =>
      let '(w, l) := List gvr w in
      match l with
      | Err e => (w, Err e)
      | Ok items => (w, Ok ((fun item => VMap (un_Object item)) <$> items))
      end
  end.

Definition getDataFunction (fn : string -> string -> W -> W * result string (list value))
    (groupAST kindAST : ast_term) (w : W) : W * result rego_error value :=
  match getStringFromAST groupAST, getStringFromAST kindAST with
  | Ok group, Ok kind =>
      let '(w, items) := fn group kind w in
      (w, match items with
          | Err e => Err (DataError group kind e)
          | Ok items =>
              match InterfaceToValue (VArray items) with Ok v => Ok v | Err e => Err (ConversionError e) end
          end)
  | _, _ => (w, Err ExpectedString)
  end.

Definition GetInsightsInfoFunction (info : InsightsInfo) (inf : ast_term) : result rego_error value :=
  match getStringFromAST inf with
  | Err e => Err e
  | Ok reqInfo =>
      let what := ToLower reqInfo in
      let answer (v : value) :=
        match InterfaceToValue v with Ok v => Ok v | Err e => Err (ConversionError e) end in
      if decide (what = "context") then answer (VString (InsightsContext info))
      else if decide (what = "cluster") then answer (VString (ii_Cluster info))
      else if decide (what = "admissionrequest") then answer (default VNil (ii_AdmissionRequest info))
      else Err (UnknownInfo reqInfo)
  end.

Definition GetRegoQuery (body : string) (regoVersion : option string)
    (dataFn : string -> string -> W -> W * result string (list value)) (libs : gmap string string)
    (info : InsightsInfo) : rego_query W :=
  {| q_Modules := ("fairwinds"%string, body) :: range_map libs;
     q_V1 := is_v1 regoVersion;
     q_kubernetes := getDataFunction dataFn;
     q_insightsinfo := GetInsightsInfoFunction info |}.

(** The arrays among the rules of the check's own package. *)
Definition package_outputs (bindings : gmap string value) : list value :=
  e ← range_map bindings;
  if decide (fst e <> "fairwinds"%string) then []
  else match snd e with
       | VMap packMap =>
           r ← range_map packMap;
           match snd r with VArray outputs => outputs | _ => [] end
       | _ => []
       end.

Definition getOutputArray (results : list (gmap string value)) : list value :=
  bindings ← results;
  match to_map (bindings !! "results"%string) with
  | Some b => package_outputs b
  | None => []
  end.

Definition evaluate (q : rego_query W) (input : value) (w : W) : W * result rego_error (list value) :=
  match PrepareForEval q with
  | Some e => (w, Err (PrepareError e))
  | None =>
      let '(w, rs) := Eval q input w in
      (w, match rs with Err e => Err (EvalError e) | Ok rs => Ok (getOutputArray rs) end)
  end.

Definition RunRegoForItemV2 (regoStr : string) (regoVersion : option string) (obj : gmap string value)
    (libsV0 libsV1 : gmap string string) (info : InsightsInfo) (w : W) : W * result rego_error (list value) :=
  let libs := if is_v1 regoVersion then libsV1 else libsV0 in
  evaluate (GetRegoQuery regoStr regoVersion GetData libs info) (VMap obj) w.

(** The first version: the parameters become a field of the object, which is a map
    that the caller still holds; the changed object is returned as well. *)
Definition RunRegoForItem (regoStr : string) (regoVersion : option string) (params : nilmap value)
    (obj : gmap string value) (info : InsightsInfo) (w : W)
    : W * gmap string value * result rego_error (list value) :=
  let q := GetRegoQuery regoStr regoVersion GetData ∅ info in
  match PrepareForEval q with
  | Some e => (w, obj, Err (PrepareError e))
  | None =>
      let obj := <["parameters"%string := VMap (default ∅ params)]> obj in
      let '(w, rs) := Eval q (VMap obj) w in
      (w, obj, match rs with Err e => Err (EvalError e) | Ok rs => Ok (getOutputArray rs) end)
  end.
End rego.

(** ** Running the checks *)

Inductive check_error : Type :=
| RunError (check kind namespace name : string) (e : rego_error)
| ResultsError (e : result_error)
| ResourceError (e : string)
| ListError (e : string).

Section checks.
Context {W F : Type} `{!RegoEngine W} `{!KubeClient W} `{!Severities F}.
Context `{!RangeOrder string string} `{!RangeOrder string value}.

Definition items_result : Type := result check_error (list (ActionItem F)).

(** Without a client the pointer to it is nil, and following it panics. *)
Definition runRegoForItemV2 (body : string) (regoVersion : option string) (obj : gmap string value)
    (libsV0 libsV1 : list OPACustomLibrary) (info : InsightsInfo) (w : W)
    : go (W * result rego_error (list value)) :=
  if GetKubeClient then
    Ret (RunRegoForItemV2 body regoVersion obj (toOPACustomLibsMap libsV0) (toOPACustomLibsMap libsV1) info w)
  else Panic.

Definition ProcessCheckForItemV2 (check : OPACustomCheck F) (obj : gmap string value)
    (resourceName resourceKind resourceNamespace : string) (libsV0 libsV1 : list OPACustomLibrary)
    (info : InsightsInfo) (w : W) : go (W * items_result) :=
  '(w, results) ← runRegoForItemV2 (cc_Rego check) (cc_RegoVersion check) obj libsV0 libsV1 info w;
  match results with
  | Err e => Ret (w, Err (RunError (cc_Name check) resourceKind resourceNamespace resourceName e))
  | Ok results =>
      let aiDetails := SetDefaults no_format [GetOutputFormat check] in
      items ← processResults resourceName resourceKind resourceNamespace results (cc_Name check) aiDetails;
      mret (w, match items with Ok l => Ok l | Err e => Err (ResultsError e) end)
  end.

(** The first object that fails ends the target, without the items found so far. *)
Fixpoint process_objects (check : OPACustomCheck F) (objs : list Unstructured) (libsV0 libsV1 : list OPACustomLibrary)
    (info : InsightsInfo) (acc : list (ActionItem F)) (w : W) : go (W * items_result) :=
  match objs with
  | [] => Ret (w, Ok acc)
  | obj :: objs' =>
      '(w, r) ← ProcessCheckForItemV2 check (un_Object obj) (un_Name obj) (un_Kind obj) (un_Namespace obj)
                 libsV0 libsV1 info w;
      match r with
      | Err e => Ret (w, Err e)
      | Ok newItems => process_objects check objs' libsV0 libsV1 info (acc ++ newItems) w
      end
  end.

(** [cluster] is the variable FAIRWINDS_CLUSTER. *)
Definition agent_info (cluster : string) : InsightsInfo :=
  {| InsightsContext := "Agent"; ii_Cluster := cluster; Repository := ""; ii_AdmissionRequest := None |}.

Definition processCheckTargetV2 (cluster : string) (check : OPACustomCheck F) (gr : string * string)
    (libsV0 libsV1 : list OPACustomLibrary) (w : W) : go (W * items_result) :=
  if negb GetKubeClient then Panic else
  let '(w, gvr) := ResourceFor (fst gr) (snd gr) w in
  match gvr with
  | Err e => Ret (w, Err (ResourceError e))
  | Ok gvr =>
      let '(w, l) := List gvr w in
      match l with
      | Err e => Ret (w, Err (ListError e))
      | Ok objs => process_objects check objs libsV0 libsV1 (agent_info cluster) [] w
      end
  end.

(** One target after the other: the items of those that succeed and the errors of
    the others. *)
Fixpoint process_targets (cluster : string) (check : OPACustomCheck F) (grs : list (string * string))
    (libsV0 libsV1 : list OPACustomLibrary) (items : list (ActionItem F)) (errs : list check_error) (w : W)
    : go (W * list (ActionItem F) * list check_error) :=
  match grs with
  | [] => Ret (w, items, errs)
  | gr :: grs' =>
      '(w, r) ← processCheckTargetV2 cluster check gr libsV0 libsV1 w;
      match r with
      | Ok newAI => process_targets cluster check grs' libsV0 libsV1 (items ++ newAI) errs w
      | Err e => process_targets cluster check grs' libsV0 libsV1 items (errs ++ [e]) w
      end
  end.

(** [CLIKubeTargets] is a pointer, which is followed. *)
Definition processCheckV2 (cluster : string) (targets : option (list KubeResourceTarget)) (check : OPACustomCheck F)
    (libsV0 libsV1 : list OPACustomLibrary) (w : W) : go (W * list (ActionItem F) * list check_error) :=
  ts ← deref targets;
  process_targets cluster check (getGroupResources ts) libsV0 libsV1 [] [] w.

(** The errors of the run: each names its check and holds that check's errors. *)
Fixpoint process_checks (cluster : string) (targets : option (list KubeResourceTarget)) (checks : list (OPACustomCheck F))
    (libsV0 libsV1 : list OPACustomLibrary) (items : list (ActionItem F)) (errs : list (string * list check_error))
    (w : W) : go (W * list (ActionItem F) * list (string * list check_error)) :=
  match checks with
  | [] => Ret (w, items, errs)
  | check :: checks' =>
      '(w, newItems, es) ← processCheckV2 cluster targets check libsV0 libsV1 w;
      process_checks cluster targets checks' libsV0 libsV1 (items ++ newItems)
        (if decide (es = []) then errs else errs ++ [(cc_Name check, es)]) w
  end.

Definition processAllChecks (cluster : string) (targets : option (list KubeResourceTarget))
    (checksAndLibs : list (OPACustomCheck F)) (w : W)
    : go (W * list (ActionItem F) * list (string * list check_error)) :=
  let '(checks, libsV0, libsV1) := GetOPACustomChecksAndLibraries checksAndLibs in
  process_checks cluster targets checks libsV0 libsV1 [] [] w.

(** ** Fetching the checks, the run and the report *)

Inductive run_error : Type :=
| FetchError (e : string)
| StatusCode (code : Z)
| UnmarshalError (e : string)
| ChecksError (errs : list (string * list check_error)).

Record env : Type := { HOST : string; ORG : string; CLUSTER : string; TOKEN : string }.

Definition checks_url (e : env) : string :=
  HOST e +:+ "/v0/organizations/" +:+ ORG e +:+ "/clusters/" +:+ CLUSTER e
  +:+ "/data/opa/customChecks?includeRegoV1=true".

(** [get url token] is the answer to the request: a status code and a body. *)
Definition getInsightsChecks (e : env) (get : string -> string -> W -> W * result string (Z * string))
    (unmarshal : string -> result string (list (OPACustomCheck F) * list (CheckSetting F))) (w : W)
    : W * result run_error (list (OPACustomCheck F) * list (CheckSetting F)) :=
  let '(w, resp) := get (checks_url e) ("Bearer " +:+ TOKEN e) w in
  (w, match resp with
      | Err x => Err (FetchError x)
      | Ok (code, body) =>
          if negb (code =? 200) then Err (StatusCode code)
          else match unmarshal body with Err x => Err (UnmarshalError x) | Ok j => Ok j end
      end).

(** [None] is the nil slice of action items that comes with an error. *)
Definition Run (e : env) (get : string -> string -> W -> W * result string (Z * string))
    (unmarshal : string -> result string (list (OPACustomCheck F) * list (CheckSetting F)))
    (targets : option (list KubeResourceTarget)) (w : W)
    : go (W * option (list (ActionItem F)) * option run_error) :=
  let '(w, j) := getInsightsChecks e get unmarshal w in
  match j with
  | Err x => Ret (w, None, Some x)
  | Ok (checks, _) =>
      '(w, ais, errs) ← processAllChecks (CLUSTER e) targets checks w;
      mret (if decide (errs = []) then (w, Some ais, None) else (w, None, Some (ChecksError errs)))
  end.

(** What [startOPAReporter] leaves behind: the report, if it is written, and the exit
    code.  [write] fails with a panic. *)
Definition startOPAReporter (e : env) (get : string -> string -> W -> W * result string (Z * string))
    (unmarshal : string -> result string (list (OPACustomCheck F) * list (CheckSetting F)))
    (flags : option (list string)) (write_ok : bool) (w : W)
    : go (W * option (list (ActionItem F)) * Z) :=
  targets ← ProcessCLIKubeResourceTargets flags;
  '(w, ais, runError) ← Run e get unmarshal targets w;
  match ais with
  | Some _ => if write_ok then Ret (w, ais, match runError with Some _ => 1 | None => 0 end) else Panic
  | None => Ret (w, None, match runError with Some _ => 1 | None => 0 end)
  end.
End checks.

(** ** The client made from files

    [SetFileClient]: the group, version and kind of each object, by type
    assertions that panic; the scheme, the mapper and the fake client are the
    library's. *)
Record GVK : Type := { Group : string; Version : string; GKind : string }.

Definition split_api_version (apiVersion : string) : string * string :=
  match Split apiVersion "/" with
  | group :: version :: _ => (group, version)
  | [version] => (""%string, version)
  | [] => (""%string, ""%string)
  end.

Definition api_version (obj : gmap string value) : go string := deref (to_string (obj !! "apiVersion"%string)).

(** The versions in the order of their first object. *)
Fixpoint group_versions (found : list string) (objects : list (gmap string value)) : go (list (string * string)) :=
  match objects with
  | [] => Ret []
  | obj :: objects' =>
      apiVersion ← api_version obj;
      if decide (apiVersion ∈ found) then group_versions found objects'
      else rest ← group_versions (apiVersion :: found) objects'; mret (split_api_version apiVersion :: rest)
  end.

Definition object_gvk (obj : gmap string value) : go GVK :=
  apiVersion ← api_version obj;
  kind ← deref (to_string (obj !! "kind"%string));
  let '(group, version) := split_api_version apiVersion in
  mret {| Group := group; Version := version; GKind := kind |}.

Definition object_gvks (objects : list (gmap string value)) : go (list GVK) := mapM object_gvk objects.

(** The namespace that an object is created in. *)
Definition object_namespace (namespace : string) : string :=
  if decide (namespace = "") then "objects" else namespace.

(** ** Messages of several errors *)

Definition maxMultiErrorsToShow : Z := 3.

Definition newline : string := String (byte 10) "".
Definition tab : string := String (byte 9) "".

Definition bullet (e : string) : string := "* " +:+ e.

Definition multierrorListFormatLimiterFunc (debug : bool) (es : list string) : string :=
  match es with
  | [e] => "1 error occurred:" +:+ newline +:+ tab +:+ "* " +:+ e +:+ newline +:+ newline
  | _ =>
      let limited := (maxMultiErrorsToShow <? lenZ es) && negb debug in
      let numToShow := if limited then maxMultiErrorsToShow else lenZ es in
      let extraHeader := if limited then " (only " +:+ fmt_d numToShow +:+ " are shown for brevity)" else "" in
      fmt_d (lenZ es) +:+ " errors occurred" +:+ extraHeader +:+ ":" +:+ newline +:+ tab
      +:+ Join (bullet <$> take (Z.to_nat numToShow) es) (newline +:+ tab) +:+ newline +:+ newline
  end.

(** * Properties *)

Section properties.
Context {W F : Type} `{!RegoEngine W} `{!KubeClient W} `{!Severities F}.
Context `{!RangeOrder string string} `{!RangeOrder string value}.
Implicit Types check : OPACustomCheck F.

(** ** Results *)

(** The item of an output, each field being the first that is set of the output, the
    check and the defaults. *)
Definition item_of (rName rKind rNamespace name : string) (details d : OutputFormat F) : ActionItem F :=
  {| ai_ResourceNamespace := rNamespace; ai_ResourceKind := rKind; ai_ResourceName := rName;
     ai_EventType := name;
     ai_Title := default "Unknown title"%string (if_nil (Title d) (Title details));
     ai_Description := default ""%string (if_nil (Description d) (Description details));
     ai_Remediation := default ""%string (if_nil (Remediation d) (Remediation details));
     ai_Severity := default half (if_nil (Severity d) (Severity details));
     ai_Category := default "Security"%string (if_nil (Category d) (Category details)) |}.

Lemma action_item_defaults rName rKind rNamespace name d details :
  action_item rName rKind rNamespace name (SetDefaults d [details; default_format])
  = Ret (item_of rName rKind rNamespace name details d).
Proof.
  destruct d as [t s r c e], details as [t' s' r' c' e']. unfold item_of, SetDefaults, set_default. simpl.
  destruct t, s, r, c, e, t', s', r', c', e'; reflexivity.
Qed.

Lemma process_outputs_reference rName rKind rNamespace results name details acc :
  process_outputs rName rKind rNamespace results name details acc
  = Ret (ds ← mapM output_details results; mret (acc ++ (item_of rName rKind rNamespace name details <$> ds))).
Proof.
  revert acc. induction results as [|v results IH]; intros acc; cbn [process_outputs mapM]; [simpl; by rewrite app_nil_r|].
  destruct (output_details v) as [d|e]; [|done]. rewrite action_item_defaults. simpl. rewrite IH.
  destruct (mapM output_details results) as [ds|e]; [|done]. simpl. by rewrite <-app_assoc.
Qed.

(** C22. Processing the output of a policy never follows a nil pointer; it gives one item per
    output, in order, or the error of the first output that cannot be read. *)
Theorem processResults_reference rName rKind rNamespace results name details :
  processResults rName rKind rNamespace results name details
  = Ret (ds ← mapM output_details results; mret (item_of rName rKind rNamespace name details <$> ds)).
Proof. unfold processResults. by rewrite process_outputs_reference. Qed.

(** ** What is collected from an evaluation *)

(** Only the arrays that rules of the package "fairwinds" produce are results, whatever
    else the evaluation binds; packages of libraries add nothing. *)
Theorem getOutputArray_elem rs v :
  v ∈ getOutputArray rs <->
  exists bindings b pack rule outputs,
    bindings ∈ rs /\ bindings !! "results"%string = Some (VMap b) /\ b !! "fairwinds"%string = Some (VMap pack)
    /\ pack !! rule = Some (VArray outputs) /\ v ∈ outputs.
Proof.
  unfold getOutputArray, package_outputs. split.
  - intros (bindings & Hv & Hin)%list_elem_of_bind. unfold to_map in Hv.
    destruct (bindings !! "results"%string) as [[]|] eqn:Er; try by apply not_elem_of_nil in Hv.
    apply list_elem_of_bind in Hv as ([k pack] & Hv & Hk). simpl in Hv.
    case_decide as Hf; [by apply not_elem_of_nil in Hv|]. subst k.
    apply elem_of_range_map in Hk. destruct pack; try by apply not_elem_of_nil in Hv.
    apply list_elem_of_bind in Hv as ([rule out] & Hv & Hr). simpl in Hv. apply elem_of_range_map in Hr.
    destruct out; try by apply not_elem_of_nil in Hv. by eexists _, _, _, _, _.
  - intros (bindings & b & pack & rule & outputs & Hin & Hb & Hp & Hr & Hv).
    apply list_elem_of_bind. exists bindings. split; [|done]. rewrite Hb. simpl.
    apply list_elem_of_bind. exists ("fairwinds"%string, VMap pack). split; [|by apply elem_of_range_map].
    cbn [fst snd]. rewrite decide_False by (intros H; by apply H).
    apply list_elem_of_bind. exists (rule, VArray outputs). split; [done|by apply elem_of_range_map].
Qed.

(** ** Targets *)

Lemma getGroupResources_elem ts g r :
  (g, r) ∈ getGroupResources ts <-> exists t, t ∈ ts /\ g ∈ krt_APIGroups t /\ r ∈ krt_Resources t.
Proof.
  unfold getGroupResources. rewrite list_elem_of_bind. split.
  - intros (t & H & Ht). apply list_elem_of_bind in H as (g' & H & Hg).
    apply list_elem_of_bind in H as (r' & H & Hr). apply list_elem_of_singleton in H. injection H as <- <-.
    by exists t.
  - intros (t & Ht & Hg & Hr). exists t. split; [|done]. apply list_elem_of_bind. exists g. split; [|done].
    apply list_elem_of_bind. exists r. split; [|done]. by apply list_elem_of_singleton.
Qed.

(** A flag panics exactly when it has no slash. *)
Lemma cli_target_panics s : cli_target s = Panic <-> "/"%char ∉ chars s.
Proof.
  rewrite <-Split_length. unfold cli_target.
  destruct (Split s "/") as [|a [|b l]]; simpl; split; intros; done || lia.
Qed.

Lemma MatchesTarget_spec (i : CustomCheckInstance F) apiGroup kind :
  MatchesTarget i apiGroup kind = true <->
  exists t, t ∈ ci_Targets i /\ apiGroup ∈ kt_APIGroups t /\ kind ∈ kt_Kinds t.
Proof.
  unfold MatchesTarget. rewrite existsb_exists. split.
  - intros (t & Ht & H). apply existsb_exists in H as (g & Hg & H). apply existsb_exists in H as (k & Hk & H).
    apply bool_decide_eq_true in H as [-> ->]. exists t. by rewrite !list_elem_of_In.
  - intros (t & Ht & Hg & Hk). exists t. rewrite list_elem_of_In in Ht. split; [done|].
    apply existsb_exists. exists apiGroup. rewrite <-list_elem_of_In. split; [done|].
    apply existsb_exists. exists kind. rewrite <-list_elem_of_In. split; [done|].
    by apply bool_decide_eq_true.
Qed.
(** ** Checks and libraries *)

(** Every entry is a check, a library of the old language or one of the new one. *)
Lemma checks_and_libraries_partition (l : list (OPACustomCheck F)) :
  let '(checks, libsV0, libsV1) := GetOPACustomChecksAndLibraries l in
  (length checks + length libsV0 + length libsV1 = length l)%nat
  /\ (forall c, c ∈ checks <-> c ∈ l /\ cc_IsLibrary c = false).
Proof.
  cbn. split.
  - rewrite !length_fmap. induction l as [|c l IH]; [done|]. rewrite !filter_cons. cbn [length].
    destruct (cc_IsLibrary c), (is_v1 (cc_RegoVersion c)); simpl;
      repeat (rewrite decide_True by done || rewrite decide_False by done); cbn [length]; lia.
  - intros c. rewrite list_elem_of_filter. tauto.
Qed.

(** ** The run *)

(** What a check yields for one object and for one target, in some state of the world. *)
Definition object_items (check : OPACustomCheck F) (libsV0 libsV1 : list OPACustomLibrary) (info : InsightsInfo)
    (obj : Unstructured) (items : list (ActionItem F)) : Prop :=
  exists w w' : W, ProcessCheckForItemV2 check (un_Object obj) (un_Name obj) (un_Kind obj) (un_Namespace obj)
                     libsV0 libsV1 info w = Ret (w', Ok items).

Definition target_items (cluster : string) (libsV0 libsV1 : list OPACustomLibrary) (check : OPACustomCheck F)
    (gr : string * string) (items : list (ActionItem F)) : Prop :=
  exists (w w' : W) gvr objs iss, snd (List gvr w) = Ok objs /\ snd (ResourceFor (fst gr) (snd gr) w') = Ok gvr
    /\ Forall2 (object_items check libsV0 libsV1 (agent_info cluster)) objs iss /\ items = mjoin iss.

Lemma process_objects_Ok check objs libsV0 libsV1 info acc w w' items :
  process_objects (W := W) check objs libsV0 libsV1 info acc w = Ret (w', Ok items) ->
  exists iss, Forall2 (object_items check libsV0 libsV1 info) objs iss /\ items = acc ++ mjoin iss.
Proof.
  revert acc w. induction objs as [|obj objs IH]; intros acc w.
  - intros [= _ <-]. exists []. split; [constructor|]. by rewrite app_nil_r.
  - cbn [process_objects]. intros ([w1 r] & Hp & H)%go_bind_ret. destruct r as [new|e]; [|done].
    apply IH in H as (iss & Hf & ->). exists (new :: iss). split; [constructor; [by exists w, w1|done]|].
    simpl. by rewrite app_assoc.
Qed.

Lemma processCheckTargetV2_Ok cluster check gr libsV0 libsV1 w w' items :
  processCheckTargetV2 (W := W) cluster check gr libsV0 libsV1 w = Ret (w', Ok items) ->
  target_items cluster libsV0 libsV1 check gr items.
Proof.
  unfold processCheckTargetV2. destruct GetKubeClient; [|done]. simpl.
  destruct (ResourceFor _ _ w) as [w1 [gvr|e]] eqn:Er; [|done].
  destruct (List gvr w1) as [w2 [objs|e]] eqn:El; [|done].
  intros (iss & Hf & ->)%process_objects_Ok. exists w1, w, gvr, objs, iss. rewrite El, Er. by simpl.
Qed.

Lemma process_targets_Ok cluster check grs libsV0 libsV1 items errs w w' items' errs' :
  process_targets (W := W) cluster check grs libsV0 libsV1 items errs w = Ret (w', items', errs') ->
  (exists es, errs' = errs ++ es) /\
  (errs' = [] -> exists iss, Forall2 (target_items cluster libsV0 libsV1 check) grs iss /\ items' = items ++ mjoin iss).
Proof.
  revert items errs w. induction grs as [|gr grs IH]; intros items errs w.
  - intros [= _ <- <-]. split; [by exists []; rewrite app_nil_r|]. intros _. exists [].
    split; [constructor|by rewrite app_nil_r].
  - cbn [process_targets]. intros ([w1 [new|e]] & Hp & H)%go_bind_ret; apply IH in H as [[es ->] H].
    + split; [by exists es|]. intros He. destruct (H He) as (iss & Hf & ->).
      exists (new :: iss). split; [constructor; [by eapply processCheckTargetV2_Ok|done]|]. simpl. by rewrite app_assoc.
    + split; [exists (e :: es); by rewrite <-app_assoc|]. intros He.
      apply app_nil in He as [He _]. by apply app_nil in He as [_ He].
Qed.

Lemma process_checks_Ok cluster targets checks libsV0 libsV1 items errs w w' items' errs' :
  process_checks (W := W) cluster targets checks libsV0 libsV1 items errs w = Ret (w', items', errs') ->
  (exists es, errs' = errs ++ es) /\
  (errs' = [] -> forall ts, targets = Some ts ->
     exists iss, Forall2 (fun check items => exists its,
                   Forall2 (target_items cluster libsV0 libsV1 check) (getGroupResources ts) its /\ items = mjoin its)
                 checks iss /\ items' = items ++ mjoin iss).
Proof.
  revert items errs w. induction checks as [|check checks IH]; intros items errs w.
  - intros [= _ <- <-]. split; [by exists []; rewrite app_nil_r|]. intros _ ts _. exists [].
    split; [constructor|by rewrite app_nil_r].
  - cbn [process_checks]. intros ([[w1 new] es] & Hp & H)%go_bind_ret. apply IH in H as [[es' ->] H].
    split; [case_decide; [by exists es'|]; rewrite <-app_assoc; by eexists|].
    intros He ts ->. unfold processCheckV2 in Hp. simpl in Hp. apply process_targets_Ok in Hp as [_ Hp].
    case_decide as Hes; [|apply app_nil in He as [He _]; by apply app_nil in He as [_ He]].
    destruct (Hp Hes) as (its & Hf & ->). destruct (H He ts eq_refl) as (iss & Hf' & ->).
    exists (mjoin its :: iss). split; [constructor; [by exists its|done]|]. simpl. by rewrite app_assoc.
Qed.

End properties.

(** ** A concrete run: one check, one target, two objects. *)
Module Witness.

#[local] Instance severities : Severities Z := {| ParseFloat _ := Ok 10; half := 5 |}.

#[local] Instance order_string : RangeOrder string string := canonical_order.
#[local] Instance order_value : RangeOrder string value := canonical_order.

(** The policy complains about every object whose "name" field is not "ok". *)
#[local] Instance engine : RegoEngine unit := {|
  PrepareForEval _ := None;
  Eval q input w :=
    (w, match input with
        | VMap m =>
            Ok [{["results"%string := VMap {["fairwinds"%string := VMap {["deny"%string :=
              VArray (if decide (to_string (m !! "name"%string) = Some "ok"%string) then []
                      else [VString "bad name"])]};
              "library"%string := VMap {["helper"%string := VArray [VString "not a result"]]} ]} ]}]
        | _ => Err "no object"%string
        end);
  InterfaceToValue v := Ok v
|}.

Definition pod (name : string) : Unstructured :=
  {| un_Object := {["name"%string := VString name]}; un_Name := name; un_Kind := "Pod"; un_Namespace := "default" |}.

#[local] Instance cluster : KubeClient unit := {|
  GetKubeClient := true;
  RESTMapping _ _ w := (w, Ok "v1/pods"%string);
  ResourceFor _ _ w := (w, Ok "v1/pods"%string);
  List _ w := (w, Ok [pod "ok"; pod "web"])
|}.

Definition variables : env := {| HOST := "h"; ORG := "acme"; CLUSTER := "prod"; TOKEN := "t" |}.

Definition name_check : OPACustomCheck Z :=
  {| cc_Name := "names"; cc_Version := "2.0"; cc_Rego := "package fairwinds"; cc_Title := Some "Bad name"%string;
     cc_Severity := None; cc_Remediation := None; cc_Category := None; cc_AdditionalKubernetesData := [];
     cc_IsLibrary := false; cc_RegoVersion := None |}.

Definition get (url token : string) (w : unit) : unit * result string (Z * string) := (w, Ok (200, ""%string)).
Definition unmarshal (body : string) : result string (list (OPACustomCheck Z) * list (CheckSetting Z)) :=
  Ok ([name_check], []).

Definition item : ActionItem Z :=
  {| ai_ResourceNamespace := "default"; ai_ResourceKind := "Pod"; ai_ResourceName := "web"; ai_Title := "Bad name";
     ai_Description := "bad name"; ai_Remediation := ""; ai_EventType := "names"; ai_Severity := 5;
     ai_Category := "Security" |}.


(** A severity that is not a number fails the check; nothing is reported. *)
Example no_partial_report :
  (processResults (F := Z) "web" "Pod" "default" [VString "a"; VMap {["severity"%string := VString "high"]}] "names"
     no_format = Ret (Err (NotAFloat "severity")))
  /\ processResults (F := Z) "web" "Pod" "default" [VNumber "1"] "names" no_format = Ret (Err Undecipherable).
Proof. split; vm_compute; reflexivity. Qed.

Example messages :
  multierrorListFormatLimiterFunc false ["a"; "b"; "c"; "d"]%string
  = ("4 errors occurred (only 3 are shown for brevity):" +:+ newline +:+ tab +:+ "* a" +:+ newline +:+ tab +:+ "* b"
     +:+ newline +:+ tab +:+ "* c" +:+ newline +:+ newline)%string.
Proof. vm_compute. reflexivity. Qed.
End Witness.
