(* ===== verification/AdmissionReports.v ===== *)
(** * admission: the reports

    [admission/pkg/models/], [pkg/pluto/], [pkg/polaris/], [pkg/opa/] and
    [pkg/admission/admission.go]: the reports about one object, and what Insights
    answers to them.  Pluto, Polaris, JSON and HTTP are parameters; reading one
    record of CSV is written out. *)

From stdpp Require Import base decidable list gmap strings.
From Stdlib Require Import ZArith Lia Ascii.
From S2P Require Import Prelude GoStrings GoText GoValues Opa.

Local Open Scope Z_scope.

(** ** Data *)

Record ReportInfo : Type := { Report : string; ReportVersion : string; Contents : string }.

Record InsightsConfig : Type := {
  ic_Hostname : string;
  ic_Organization : string;
  ic_Cluster : string;
  ic_Token : string;
  ic_IgnoreUsernames : list string
}.

(** [P] is Polaris's configuration. *)
Record Configuration {F P : Type} : Type := {
  Reports_Polaris : bool;
  Reports_Pluto : bool;
  Reports_OPA : bool;
  OPA_CustomChecks : list (OPACustomCheck F);
  OPA_CustomCheckInstances : list (CheckSetting F);
  Polaris : option P
}.
Arguments Configuration F P : clear implicits.

(** ** [encoding/csv]: the first record *)

(** Lines with their line feed; a carriage return before the line feed or at the
    end of the input is dropped. *)
Definition drop_cr (l : list ascii) : list ascii :=
  match l with
  | c :: l' => if decide (c = byte 13) then l' else l
  | [] => []
  end.

Fixpoint csv_lines (cur l : list ascii) : list (list ascii) :=
  match l with
  | [] => match cur with [] => [] | _ => [reverse (drop_cr cur)] end
  | c :: l' =>
      if decide (c = byte 10) then reverse (byte 10 :: drop_cr cur) :: csv_lines [] l'
      else csv_lines (c :: cur) l'
  end.

(** [lengthNL(line) == len(line)]. *)
Definition at_line_end (line : list ascii) : bool :=
  bool_decide (line = []) || bool_decide (line = [byte 10]).

Definition trim_nl (line : list ascii) : list ascii :=
  match last line with
  | Some c => if decide (c = byte 10) then take (length line - 1) line else line
  | None => line
  end.

(** The fields of a record: [quoted] is the text so far of an open quoted field.
    [None] is an error of the reader; every round consumes input or a line. *)
Fixpoint csv_fields (fuel : nat) (line : list ascii) (more : list (list ascii)) (quoted : option (list ascii))
    (fields : list string) : option (list string) :=
  match fuel with
  | O => None
  | S fuel' =>
      match quoted with
      | None =>
          if decide (head line = Some (byte 34)) then csv_fields fuel' (drop 1 line) more (Some []) fields
          else
            let i := index_aux "," 0 line in
            let field := match i with Some n => take n line | None => trim_nl line end in
            if decide (byte 34 ∈ field) then None
            else
              match i with
              | Some n => csv_fields fuel' (drop (S n) line) more None (fields ++ [str field])
              | None => Some (fields ++ [str field])
              end
      | Some buf =>
          match index_aux (byte 34) 0 line with
          | Some n =>
              let buf := buf ++ take n line in
              let line := drop (S n) line in
              if decide (head line = Some (byte 34)) then
                csv_fields fuel' (drop 1 line) more (Some (buf ++ [byte 34])) fields
              else if decide (head line = Some ","%char) then
                csv_fields fuel' (drop 1 line) more None (fields ++ [str buf])
              else if at_line_end line then Some (fields ++ [str buf])
              else None
          | None =>
              match line, more with
              | _ :: _, next :: more' => csv_fields fuel' next more' (Some (buf ++ line)) fields
              | _, _ => None
              end
          end
      end
  end.

(** Empty lines are skipped; no line is the error [io.EOF]. *)
Fixpoint skip_empty (lines : list (list ascii)) : option (list ascii * list (list ascii)) :=
  match lines with
  | [] => None
  | line :: more => if at_line_end line then skip_empty more else Some (line, more)
  end.

Definition csv_Read (s : string) : option (list string) :=
  match skip_empty (csv_lines [] (chars s)) with
  | Some (line, more) => csv_fields (S (slen s)) line more None []
  | None => None
  end.

(** ** Pluto *)

(** [strings.Count] of one character. *)
Definition count_char (c : ascii) (s : string) : nat := length (filter (fun x => x = c) (chars s)).

Inductive version_error : Type :=
| FormatAsKeyValue (what : string)
| CSVError
| InvalidVersions (keys : list string).

Section pluto.
(** [semver.IsValid] *)
Context (IsValid : string -> bool) `{!RangeOrder string string}.

(** The pairs of the variable: one pair, whose quotes are trimmed, or a record of CSV. *)
Definition version_pairs (vs : string) : result version_error (list string) :=
  match count_char "=" vs with
  | O => Err (FormatAsKeyValue vs)
  | S O => Ok [Trim vs [byte 34]]
  | _ => match csv_Read vs with Some ss => Ok ss | None => Err CSVError end
  end.

Fixpoint add_pairs (ss : list string) (vm : gmap string string) : result version_error (gmap string string) :=
  match ss with
  | [] => Ok vm
  | kv :: ss' =>
      match Cut kv "=" with
      | None => Err (FormatAsKeyValue kv)
      | Some (k, v) => add_pairs ss' (<[k := v]> vm)
      end
  end.

(** A nil map is [None]. *)
Definition ParsePlutoTargetVersions (vs : string) : result version_error (nilmap string) :=
  if decide (vs = "") then Ok None
  else
    ss ← version_pairs vs;
    vm ← add_pairs ss ∅;
    match fst <$> filter (fun e => IsValid (snd e) = false) (range_map vm) with
    | [] => Ok (Some vm)
    | invalid => Err (InvalidVersions invalid)
    end.
End pluto.

(** An instance of the library, and the library: its versions and default targets, the
    scan of an object, the selection of what is deprecated or removed, and JSON. *)
Record PlutoInstance {DV O : Type} : Type := {
  TargetVersions : gmap string string;
  DeprecatedVersions : list DV;
  Components : list string;
  Outputs : list O
}.
Arguments PlutoInstance DV O : clear implicits.

Record PlutoLib {DV O : Type} : Type := {
  GetDefaultVersionList : result string (list DV * gmap string string);
  dv_Component : DV -> string;
  IsVersioned : PlutoInstance DV O -> string -> result string (list O);
  FilterOutput : PlutoInstance DV O -> PlutoInstance DV O;
  MarshalInstance : PlutoInstance DV O -> result string string
}.
Arguments PlutoLib DV O : clear implicits.

Definition plutoVersion : string := "5.23.6".

Definition component_list {DV O} (lib : PlutoLib DV O) (versions : list DV) : list string :=
  foldl (fun l v => if decide (dv_Component lib v ∈ l) then l else l ++ [dv_Component lib v]) [] versions.

(** [maps.Copy]: the versions of the user win. *)
Definition ProcessPluto {DV O} (lib : PlutoLib DV O) (input : string) (userTargetVersions : nilmap string)
    : result string ReportInfo :=
  '(versions, targetVersions) ← GetDefaultVersionList lib;
  let instance outputs :=
    {| TargetVersions := default ∅ userTargetVersions ∪ targetVersions; DeprecatedVersions := versions;
       Components := component_list lib versions; Outputs := outputs |} in
  outputs ← IsVersioned lib (instance []) input;
  contents ← MarshalInstance lib (FilterOutput lib (instance outputs));
  mret {| Report := "pluto"; ReportVersion := plutoVersion; Contents := contents |}.

(** ** Polaris *)

Record PolarisLib {P R A : Type} : Type := {
  PolarisOutputVersion : string;
  NewGenericResourceFromBytes : string -> result string R;
  ApplyAllSchemaChecks : P -> R -> result string A;
  MarshalAudit : string -> list A -> result string string
}.
Arguments PolarisLib P R A : clear implicits.

Definition GetPolarisReport {P R A} (lib : PolarisLib P R A) (config : P) (manifest : string) : result string ReportInfo :=
  controller ← NewGenericResourceFromBytes lib manifest;
  controllerResult ← ApplyAllSchemaChecks lib config controller;
  contents ← MarshalAudit lib (PolarisOutputVersion lib) [controllerResult];
  mret {| Report := "polaris"; ReportVersion := PolarisOutputVersion lib; Contents := contents |}.

(** ** Requests for admission *)

(** What the handlers read of a request; a nil [RequestKind] is [None]. *)
Record Request : Type := {
  rq_Operation : string;
  rq_Username : string;
  rq_Name : string;
  rq_Namespace : string;
  rq_Kind : string;
  rq_RequestKind : option (string * string * string);
  rq_Object : string;
  rq_OldObject : string
}.

(** ** OPA *)
Section opa.
Context {W F : Type} `{!RegoEngine W} `{!KubeClient W} `{!Severities F}.
Context `{!RangeOrder string string} `{!RangeOrder string value}.
Context (opaVersion : string) (marshal_items : list (ActionItem F) -> result string string)
  (request_value : Request -> value).

Inductive opa_error : Type := ChecksFailed (errs : list check_error) | MarshalItems (e : string).

(** Every check runs; the items of those that succeed and the errors of the others are
    kept.  The kind of the request is read through its pointer for each check. *)
Fixpoint process_opa_checks (checks : list (OPACustomCheck F)) (obj : gmap string value) (req : Request)
    (libsV0 libsV1 : list OPACustomLibrary) (info : InsightsInfo) (items : list (ActionItem F))
    (errs : list check_error) (w : W) : go (W * list (ActionItem F) * list check_error) :=
  match checks with
  | [] => Ret (w, items, errs)
  | check :: checks' =>
      '(_, _, kind) ← deref (rq_RequestKind req);
      '(w, r) ← ProcessCheckForItemV2 check obj (rq_Name req) kind (rq_Namespace req) libsV0 libsV1 info w;
      match r with
      | Ok new => process_opa_checks checks' obj req libsV0 libsV1 info (items ++ new) errs w
      | Err e => process_opa_checks checks' obj req libsV0 libsV1 info items (errs ++ [e]) w
      end
  end.

Definition admission_info (cluster : string) (req : Request) : InsightsInfo :=
  {| InsightsContext := "AdmissionController"; ii_Cluster := cluster; Repository := "";
     ii_AdmissionRequest := Some (request_value req) |}.

(** The report comes with an error when a check failed. *)
Definition ProcessOPA {P} (obj : gmap string value) (req : Request) (configuration : Configuration F P)
    (iConfig : InsightsConfig) (w : W) : go (W * ReportInfo * option opa_error) :=
  let '(checks, libsV0, libsV1) := GetOPACustomChecksAndLibraries (OPA_CustomChecks configuration) in
  '(w, items, errs) ← process_opa_checks checks obj req libsV0 libsV1
                        (admission_info (ic_Cluster iConfig) req) [] [] w;
  let report contents := {| Report := "opa"; ReportVersion := opaVersion; Contents := contents |} in
  mret (match marshal_items items with
        | Err e => (w, report "", Some (MarshalItems e))
        | Ok bytes => (w, report bytes, if decide (errs = []) then None else Some (ChecksFailed errs))
        end).
End opa.

(** ** Submitting the reports *)

Record submission : Type := { sub_URL : string; sub_Headers : list (string * string); sub_Files : list (string * string * string) }.

Inductive send_error : Type :=
| PostError (e : string)
| InvalidStatus (code : Z) (body : string)
| AnswerError (e : string).

(** A form with a file per report, and a header with the version of each. *)
Definition submission_of (admissionVersion contentType : string) (c : InsightsConfig) (reports : list ReportInfo) : submission :=
  {| sub_URL := ic_Hostname c +:+ "/v0/organizations/" +:+ ic_Organization c +:+ "/clusters/" +:+ ic_Cluster c
                +:+ "/data/admission/submit";
     sub_Headers := [("Content-Type", contentType); ("Authorization", "Bearer " +:+ ic_Token c);
                     ("X-Fairwinds-Admission-Version", admissionVersion)]%string
                    ++ ((fun r => ("X-Fairwinds-Report-Version-" +:+ Report r, ReportVersion r)) <$> reports);
     sub_Files := (fun r => (Report r, Report r +:+ ".json", Contents r)) <$> reports |}.

(** Type assertions without a comma-ok panic. *)
Definition is_failure (ai : value) : go bool :=
  m ← deref (to_map (Some ai)); deref (to_bool (m !! "Failure"%string)).

Definition item_title (ai : value) : go string :=
  m ← deref (to_map (Some ai)); deref (to_string (m !! "Title"%string)).

(** [lo.Filter] with a predicate that may panic. *)
Fixpoint filterM {A} (f : A -> go bool) (l : list A) : go (list A) :=
  match l with
  | [] => Ret []
  | x :: l' => b ← f x; rest ← filterM f l'; mret (if b : bool then x :: rest else rest)
  end.

(** The verdict in the answer: passed, warnings, errors. *)
Definition read_answer (resultMap : nilmap value) : go (bool * list string * list string) :=
  passed ← deref (to_bool (map_get resultMap "Success"));
  '(warnings, errors) ←
    (if not_nil (map_get resultMap "ActionItems") then
       items ← deref (to_array (map_get resultMap "ActionItems"));
       ws ← filterM (fun ai => b ← is_failure ai; mret (negb b)) items;
       warnings ← mapM item_title ws;
       es ← filterM is_failure items;
       errors ← mapM item_title es;
       mret (warnings, errors)
     else mret ([], []));
  let message := default "" (to_string (map_get resultMap "Message")) in
  mret (passed, if 0 <? lenS message then warnings ++ [message] else warnings, errors).

Section send.
Context {W : Type} (Post : submission -> W -> W * result string (Z * string))
  (unmarshal_map : string -> result string (nilmap value)).
Context (admissionVersion contentType : string).

Definition sendResults (iConfig : InsightsConfig) (reports : list ReportInfo) (w : W)
    : go (W * result send_error (bool * list string * list string)) :=
  let '(w, resp) := Post (submission_of admissionVersion contentType iConfig reports) w in
  match resp with
  | Err e => Ret (w, Err (PostError e))
  | Ok (code, body) =>
      if negb (code =? 200) then Ret (w, Err (InvalidStatus code body))
      else match unmarshal_map body with
           | Err e => Ret (w, Err (AnswerError e))
           | Ok m => r ← read_answer m; mret (w, Ok r)
           end
  end.
End send.

(** * Properties *)

(** ** Records of CSV *)

Lemma index_aux_lt c l n : index_aux c 0 l = Some n -> (n < length l)%nat.
Proof. intros (a & b & -> & _ & ->)%index_aux_Some. rewrite length_app. simpl. lia. Qed.

Lemma head_length (l : list ascii) c : head l = Some c -> (0 < length l)%nat.
Proof. destruct l; simpl; [done|lia]. Qed.

(** The fuel is enough: every round consumes a character or ends. *)
Lemma csv_fields_fuel fuel fuel' line more quoted fields :
  (length line + length (mjoin more) < fuel)%nat -> (fuel <= fuel')%nat ->
  csv_fields fuel' line more quoted fields = csv_fields fuel line more quoted fields.
Proof.
  revert fuel' line more quoted fields. induction fuel as [|fuel IH]; intros fuel' line more quoted fields Hf Hle; [lia|].
  destruct fuel' as [|fuel']; [lia|]. cbn [csv_fields]. destruct quoted as [buf|].
  - destruct (index_aux _ 0 line) as [n|] eqn:E.
    + apply index_aux_lt in E.
      repeat case_decide; [| |done];
        (apply IH; [|lia]; rewrite !length_drop; lia).
    + destruct line as [|c line], more as [|next more]; try done. apply IH; [|lia].
      simpl in Hf. rewrite length_app in Hf. lia.
  - case_decide as Hh; [apply head_length in Hh; apply IH; [|lia]; rewrite length_drop; lia|].
    destruct (index_aux _ 0 line) as [n|] eqn:E; [|done]. apply index_aux_lt in E. case_decide; [done|].
    apply IH; [|lia]. rewrite length_drop. lia.
Qed.

(** A field that needs no quotes. *)
Definition plain (l : list ascii) : Prop :=
  byte 34 ∉ l /\ ","%char ∉ l /\ byte 10 ∉ l /\ byte 13 ∉ l.

Lemma csv_lines_plain cur l :
  byte 10 ∉ l -> byte 13 ∉ cur -> byte 13 ∉ l ->
  csv_lines cur l = if decide (reverse cur ++ l = []) then [] else [reverse cur ++ l].
Proof.
  revert cur. induction l as [|c l IH]; intros cur Hl Hc Hr; simpl.
  - rewrite app_nil_r. destruct cur as [|x cur]; [done|]. simpl.
    rewrite decide_False by (intros ->; apply Hc; left). rewrite decide_False; [done|].
    rewrite reverse_cons. by intros [_ ?]%app_nil.
  - apply not_elem_of_cons in Hl as [Hn Hl]. apply not_elem_of_cons in Hr as [Hcr Hr].
    rewrite decide_False by congruence. rewrite IH; [by rewrite reverse_cons, <-app_assoc|done| |done].
    rewrite not_elem_of_cons. done.
Qed.

Lemma csv_fields_last fuel l more fields :
  byte 34 ∉ l -> ","%char ∉ l -> byte 10 ∉ l ->
  csv_fields (S fuel) l more None fields = Some (fields ++ [str l]).
Proof.
  intros Hq Hc Hn. cbn [csv_fields]. rewrite decide_False by (intros Hh%head_Some_elem_of; done).
  rewrite index_aux_none by done.
  assert (trim_nl l = l) as ->; [|by rewrite decide_False].
  unfold trim_nl. destruct (last l) as [c|] eqn:E; [|done]. apply last_Some_elem_of in E.
  rewrite decide_False; [done|]. by intros ->.
Qed.

Lemma csv_fields_cons fuel l rest more fields :
  byte 34 ∉ l -> ","%char ∉ l ->
  csv_fields (S fuel) (l ++ ","%char :: rest) more None fields = csv_fields fuel rest more None (fields ++ [str l]).
Proof.
  intros Hq Hc. cbn [csv_fields]. rewrite decide_False; cycle 1.
  { destruct l as [|x l]; [done|]. simpl. intros [= ->]. apply Hq. left. }
  rewrite index_aux_split by done. rewrite Nat.add_0_l, take_app_length, decide_False by done.
  f_equal. replace (S (length l)) with (length l + 1)%nat by lia. by rewrite drop_app_add.
Qed.

Lemma csv_fields_join fuel x l fields :
  Forall plain (chars <$> (x :: l)) -> (length (chars (Join (x :: l) ",")) < fuel)%nat ->
  csv_fields fuel (chars (Join (x :: l) ",")) [] None fields = Some (fields ++ x :: l).
Proof.
  revert fuel x fields. induction l as [|y l IH]; intros fuel x fields Hp Hf; (destruct fuel as [|fuel]; [lia|]).
  - apply Forall_inv in Hp as (Hq & Hc & Hn & _). change (Join [x] ",") with x.
    rewrite csv_fields_last by done. by rewrite str_chars.
  - apply Forall_cons in Hp as [(Hq & Hc & _ & _) Hp]. rewrite Join_cons_cons in *.
    rewrite !chars_app in *. change (chars ",") with [","%char] in *. cbn [app] in *.
    rewrite csv_fields_cons by done. rewrite IH; [by rewrite str_chars, <-app_assoc|done|].
    rewrite length_app in Hf. cbn [length] in Hf. lia.
Qed.

Lemma Join_plain_no c x l :
  Forall (fun l => c ∉ l) (chars <$> (x :: l)) -> c <> ","%char -> c ∉ chars (Join (x :: l) ",").
Proof.
  intros H Hc. revert x H. induction l as [|y l IH]; intros x H; apply Forall_cons in H as [Hx H]; [done|].
  rewrite Join_cons_cons, !chars_app, !not_elem_of_app. split; [done|]. split; [|by apply IH].
  change (chars ",") with [","%char]. by rewrite list_elem_of_singleton.
Qed.

(** Reading a record that was joined from plain fields gives the fields back. *)
Lemma csv_Read_join x l :
  Forall plain (chars <$> (x :: l)) -> Join (x :: l) "," <> "" -> csv_Read (Join (x :: l) ",") = Some (x :: l).
Proof.
  intros Hp Hne. unfold csv_Read.
  assert (byte 10 ∉ chars (Join (x :: l) ",")) as Hn.
  { apply Join_plain_no; [|done]. eapply Forall_impl; [exact Hp|]. by intros ? (_ & _ & ? & _). }
  assert (byte 13 ∉ chars (Join (x :: l) ",")) as Hr.
  { apply Join_plain_no; [|done]. eapply Forall_impl; [exact Hp|]. by intros ? (_ & _ & _ & ?). }
  assert (chars (Join (x :: l) ",") <> []) as Hc.
  { intros E. apply Hne. by rewrite <-(str_chars (Join _ _)), E. }
  rewrite csv_lines_plain; [|done|by apply not_elem_of_nil|done]. rewrite reverse_nil, app_nil_l.
  rewrite decide_False by done. cbn [skip_empty].
  assert (at_line_end (chars (Join (x :: l) ",")) = false) as ->.
  { unfold at_line_end. rewrite !bool_decide_eq_false_2; [done| |done]. intros E. apply Hn. rewrite E. left. }
  apply csv_fields_join; [done|]. unfold slen. lia.
Qed.

(** ** Target versions *)

Definition render_pair (e : string * string) : string := fst e +:+ "=" +:+ snd e.

Lemma add_pairs_render kvs m :
  Forall (fun e => "="%char ∉ chars (fst e)) kvs ->
  add_pairs (render_pair <$> kvs) m = Ok (foldl (fun m e => <[fst e := snd e]> m) m kvs).
Proof.
  revert m. induction kvs as [|[k v] kvs IH]; intros m H; [done|]. apply Forall_cons in H as [Hk H].
  cbn [fmap list_fmap add_pairs foldl]. unfold render_pair at 1. simpl in *.
  change ("=" +:+ v) with (String "=" v). rewrite Cut_split by done. by apply IH.
Qed.

Lemma foldl_insert_lookup (kvs : list (string * string)) k v :
  NoDup kvs.*1 -> foldl (fun m e => <[fst e := snd e]> m) (∅ : gmap string string) kvs !! k = Some v <-> (k, v) ∈ kvs.
Proof.
  intros Hnd. assert (foldl (fun m e => <[fst e := snd e]> m) ∅ kvs = (list_to_map (reverse kvs) : gmap string string)) as ->.
  { clear. induction kvs as [|[k v] kvs IH] using rev_ind; [done|].
    rewrite foldl_app, reverse_app. simpl. by rewrite IH. }
  rewrite <-elem_of_list_to_map; [by rewrite elem_of_reverse|]. by rewrite fmap_reverse, reverse_Permutation.
Qed.

Lemma count_char_app c s t : count_char c (s +:+ t) = (count_char c s + count_char c t)%nat.
Proof. unfold count_char. by rewrite chars_app, filter_app, length_app. Qed.

Lemma count_char_elem c s : c ∈ chars s -> (1 <= count_char c s)%nat.
Proof.
  intros (a & b & E)%list_elem_of_split. unfold count_char. rewrite E, filter_app, filter_cons_True by done.
  rewrite length_app. simpl. lia.
Qed.

Lemma Trim_id s c : c ∉ chars s -> Trim s [c] = s.
Proof.
  intros H. unfold Trim, trim_left_seqs. simpl.
  assert (forall l, c ∉ l -> forall n, strip_seqs n [[c]] l = l) as Hs.
  { intros l Hl n. apply strip_seqs_id, Forall_singleton. intros [k ->]. apply Hl. left. }
  rewrite (Hs (chars s)) by done. rewrite Hs by (by rewrite elem_of_reverse).
  by rewrite reverse_involutive, str_chars.
Qed.

Lemma render_pairs_count e kvs : (length (e :: kvs) <= count_char "=" (Join (render_pair <$> e :: kvs) ","))%nat.
Proof.
  revert e. induction kvs as [|e' kvs IH]; intros e.
  - change (Join (render_pair <$> [e]) ",") with (render_pair e).
    apply count_char_elem. unfold render_pair. rewrite chars_app. apply elem_of_app. right. simpl. left.
  - rewrite !fmap_cons, Join_cons_cons, !count_char_app. specialize (IH e'). rewrite fmap_cons in IH.
    assert (1 <= count_char "=" (render_pair e))%nat; [|simpl length in *; lia].
    apply count_char_elem. unfold render_pair. rewrite chars_app. apply elem_of_app. right. simpl. left.
Qed.

(** C20. What is written as [k=v,k=v,...] is read back, if the keys are distinct, the
    values are versions, and no text needs CSV quotes. *)
Theorem ParsePlutoTargetVersions_roundtrip (IsValid : string -> bool) `{!RangeOrder string string} e kvs :
  NoDup (e :: kvs).*1 ->
  Forall (fun e => "="%char ∉ chars (fst e) /\ plain (chars (fst e)) /\ plain (chars (snd e)) /\ IsValid (snd e) = true)
    (e :: kvs) ->
  exists vm, ParsePlutoTargetVersions IsValid (Join (render_pair <$> e :: kvs) ",") = Ok (Some vm)
    /\ forall k v, vm !! k = Some v <-> (k, v) ∈ e :: kvs.
Proof.
  intros Hnd Hall.
  assert (Forall plain (chars <$> (render_pair <$> e :: kvs))) as Hplain.
  { rewrite !Forall_fmap. eapply Forall_impl; [exact Hall|].
    intros [k v] (_ & (? & ? & ? & ?) & (? & ? & ? & ?) & _). simpl in *. unfold plain, render_pair. simpl.
    rewrite !chars_app. simpl. rewrite !not_elem_of_app, !not_elem_of_cons. by split_and!. }
  pose proof (render_pairs_count e kvs) as Hcount.
  set (vs := Join _ ",") in *.
  assert (vs <> "") as Hne by (intros E; rewrite E in Hcount; change (count_char "=" "") with 0%nat in Hcount; simpl in Hcount; lia).
  assert (version_pairs vs = Ok (render_pair <$> e :: kvs)) as Hpairs.
  { unfold version_pairs. destruct (count_char "=" vs) as [|[|n]] eqn:En.
    - simpl in Hcount. lia.
    - destruct kvs as [|e' kvs]; [|simpl in Hcount; lia]. change vs with (render_pair e).
      rewrite Trim_id; [done|]. by apply Forall_inv in Hplain as (? & _).
    - unfold vs. rewrite fmap_cons in *. by rewrite csv_Read_join. }
  unfold ParsePlutoTargetVersions. rewrite decide_False by done. rewrite Hpairs. cbn [mbind result_bind].
  rewrite add_pairs_render by (eapply Forall_impl; [exact Hall|]; by intros ? (? & _)). cbn [mbind result_bind].
  set (vm := foldl _ _ _). assert (forall k v, vm !! k = Some v <-> (k, v) ∈ e :: kvs) as Hvm
    by (intros; by apply foldl_insert_lookup).
  exists vm. split; [|done].
  assert (filter (fun e => IsValid (snd e) = false) (range_map vm) = []) as ->; [|done].
  destruct (filter _ (range_map vm)) as [|[k v] l] eqn:E; [done|]. exfalso.
  assert ((k, v) ∈ filter (fun e => IsValid (snd e) = false) (range_map vm)) as Hin by (rewrite E; left).
  apply list_elem_of_filter in Hin as [Hf Hin]. apply elem_of_range_map, Hvm in Hin.
  rewrite Forall_forall in Hall. destruct (Hall _ Hin) as (_ & _ & _ & Hv). simpl in *. congruence.
Qed.

(** ** The answer of Insights *)

(** An answer of the documented shape: every item has a title and says whether it is a
    failure. *)
Definition answer_item (title : string) (failure : bool) : value :=
  VMap (<["Title" := VString title]> {["Failure" := VBool failure]}).

Lemma filterM_pure {A} (f : A -> go bool) (g : A -> bool) l :
  (forall x, x ∈ l -> f x = Ret (g x)) -> filterM f l = Ret (filter (fun x => g x = true) l).
Proof.
  induction l as [|x l IH]; intros H; [done|]. cbn [filterM]. rewrite H by left. simpl.
  rewrite IH by (intros y Hy; apply H; by right). simpl. rewrite filter_cons. by destruct (g x).
Qed.

Lemma mapM_pure {A B} (f : A -> go B) (g : A -> B) l :
  (forall x, x ∈ l -> f x = Ret (g x)) -> mapM f l = Ret (g <$> l).
Proof.
  induction l as [|x l IH]; intros H; [done|]. cbn [mapM]. rewrite H by left. simpl.
  rewrite IH by (intros y Hy; apply H; by right). done.
Qed.

(** Failures become errors and the rest warnings, in their order; a message is one more
    warning. *)
Theorem read_answer_sorts m passed items message :
  m !! "Success"%string = Some (VBool passed) ->
  m !! "ActionItems"%string = Some (VArray (uncurry answer_item <$> items)) ->
  m !! "Message"%string = Some (VString message) ->
  read_answer (Some m)
  = Ret (passed, (filter (fun i => snd i = false) items).*1 ++ (if decide (message = "") then [] else [message]),
         (filter (fun i => snd i = true) items).*1).
Proof.
  intros Hs Ha Hm. unfold read_answer. simpl map_get. rewrite Hs, Ha, Hm. cbn [to_bool deref mbind go_bind not_nil to_array].
  assert (forall x, x ∈ uncurry answer_item <$> items -> exists t f, x = answer_item t f) as Hshape.
  { intros x ([t f] & -> & _)%list_elem_of_fmap. by exists t, f. }
  set (fails := fun x => default false (to_bool (to_map (Some x) ≫= fun m => m !! "Failure"%string))).
  set (title := fun x => default "" (to_string (to_map (Some x) ≫= fun m => m !! "Title"%string))).
  assert (forall x, x ∈ uncurry answer_item <$> items -> is_failure x = Ret (fails x) /\ item_title x = Ret (title x)) as Hf.
  { intros x (t & f & ->)%Hshape. done. }
  assert (forall b, title <$> filter (fun x => fails x = b) (uncurry answer_item <$> items)
                    = (filter (fun i => snd i = b) items).*1) as Hsort.
  { intros b. clear. induction items as [|[t f] items IH]; [done|]. cbn [fmap list_fmap uncurry].
    rewrite !filter_cons. assert (fails (answer_item t f) = f) as -> by done. cbn [snd].
    case_decide; [|done]. cbn [fmap list_fmap fst]. assert (title (answer_item t f) = t) as -> by done.
    by rewrite <-IH. }
  rewrite (filterM_pure (fun ai => b ← is_failure ai; mret (negb b)) (fun x => negb (fails x))); cycle 1.
  { intros x [-> _]%Hf. done. }
  cbn [mbind go_bind].
  assert (filter (fun x => negb (fails x) = true) (uncurry answer_item <$> items)
          = filter (fun x => fails x = false) (uncurry answer_item <$> items)) as ->.
  { apply list_filter_iff. intros x. by rewrite negb_true_iff. }
  rewrite (mapM_pure _ title); cycle 1.
  { intros x [_ Hx]%list_elem_of_filter. by apply Hf. }
  cbn [mbind go_bind]. rewrite (filterM_pure is_failure fails) by (intros x Hx; by apply Hf). cbn [mbind go_bind].
  rewrite (mapM_pure _ title); cycle 1.
  { intros x [_ Hx]%list_elem_of_filter. by apply Hf. }
  cbn [mbind go_bind]. rewrite !Hsort. cbn [mret go_ret]. do 3 f_equal.
  cbn [to_string default]. destruct message as [|c message]; [by rewrite decide_True, app_nil_r|].
  rewrite decide_False by done. rewrite (proj2 (Z.ltb_lt _ _)); [done|]. unfold lenS, slen. simpl. lia.
Qed.

#[local] Instance order_versions : RangeOrder string string := canonical_order.

(** A version begins with a v. *)
Definition starts_with_v (s : string) : bool := HasPrefix s "v".

Example csv_examples :
  (csv_Read "a,b" = Some ["a"; "b"]) /\ (csv_Read (str (byte 34 :: chars "a,b" ++ byte 34 :: chars ",c")) = Some ["a,b"; "c"])
  /\ (csv_Read (str (chars "a" ++ [byte 34])) = None) /\ (csv_Read "" = None).
Proof. split_and!; vm_compute; reflexivity. Qed.

Lemma ParsePlutoTargetVersions_roundtrip_witness :
  exists vm, ParsePlutoTargetVersions starts_with_v "k8s=v1.23.0,istio=v1.14.0" = Ok (Some vm)
    /\ (vm !! "istio"%string = Some "v1.14.0"%string).
Proof.
  destruct (ParsePlutoTargetVersions_roundtrip starts_with_v ("k8s", "v1.23.0")%string [("istio", "v1.14.0")%string])
    as (vm & Hp & Hvm).
  - apply (bool_decide_unpack _). vm_compute. reflexivity.
  - repeat (constructor; [split_and!; try (apply (bool_decide_unpack _); vm_compute; reflexivity);
      repeat split; apply (bool_decide_unpack _); vm_compute; reflexivity|]). constructor.
  - exists vm. split; [exact Hp|]. apply Hvm. right. left.
Defined.

Lemma read_answer_sorts_witness :
  read_answer (Some (<["Success" := VBool false]> (<["ActionItems" := VArray [answer_item "no limits" true; answer_item "old api" false]]>
     {["Message" := VString "see docs"]})))
  = Ret (false, ["old api"; "see docs"], ["no limits"])%string.
Proof.
  apply (read_answer_sorts _ false [("no limits", true); ("old api", false)]%string "see docs");
    vm_compute; reflexivity.
Defined.
