(* ===== verification/Admission.v ===== *)
(** * admission: the webhooks

    [admission/pkg/admission/validate.go] and [mutate.go], [pkg/kube/client.go] and
    [cmd/admission/main.go]: which requests are let through without a check,
    which reports are made for the others, how the verdict of Insights or an
    error becomes a response, and how the configuration is kept fresh. *)

From stdpp Require Import base decidable list gmap strings.
From Stdlib Require Import ZArith Lia Ascii.
From S2P Require Import Prelude GoStrings GoText GoValues Opa AdmissionReports.

Local Open Scope Z_scope.

(** ** Responses of the library *)

Record Response {Patch : Type} : Type := {
  resp_Allowed : bool;
  resp_Code : Z;
  resp_Message : string;
  resp_Warnings : list string;
  resp_Patches : list Patch
}.
Arguments Response Patch : clear implicits.

Class AdmissionLib (Patch : Type) := {
  Allowed : string -> Response Patch;
  Errored : Z -> string -> Response Patch;
  ValidationResponse : bool -> string -> Response Patch;
  Patched : string -> list Patch -> Response Patch
}.

(** What the library documents of them. *)
Class AdmissionLibLaws (Patch : Type) `{!AdmissionLib Patch} : Prop := {
  Allowed_allowed : forall m, resp_Allowed (Allowed m) = true;
  Errored_code : forall c m, resp_Allowed (Errored c m) = false /\ resp_Code (Errored c m) = c;
  ValidationResponse_allowed : forall b m,
    resp_Allowed (ValidationResponse b m) = b /\ resp_Warnings (ValidationResponse b m) = [];
  ValidationResponse_code : forall b m, resp_Code (ValidationResponse b m) = if b then 200 else 403;
  Patched_patches : forall m ps, resp_Allowed (Patched m ps) = true /\ resp_Patches (Patched m ps) = ps
}.

(** ** The cluster *)

(** A namespace: its kind and version, labels and annotations. *)
Record NamespaceMetadata : Type := {
  nm_Kind : string;
  nm_APIVersion : string;
  nm_Labels : nilmap string;
  nm_Annotations : nilmap string
}.

(** Whether there is a client, its mapper and its objects, and namespaces. *)
Class AdmissionCluster (W : Type) := {
  has_client : bool;
  map_kind : string -> string -> W -> W * result string string;
  get_object : string -> string -> string -> W -> W * result string (gmap string value);
  Namespaces_Get : string -> W -> W * result string NamespaceMetadata
}.

(** ** The validator *)

Inductive webhookFailurePolicy : Type := webhookFailurePolicyIgnore | webhookFailurePolicyFail.

#[global] Instance webhookFailurePolicy_eq_dec : EqDecision webhookFailurePolicy.
Proof. solve_decision. Defined.

Definition policy_String (p : webhookFailurePolicy) : string :=
  match p with webhookFailurePolicyIgnore => "Ignore" | webhookFailurePolicyFail => "Fail" end.

Definition httpStatusMiscPersistentWarning : Z := 299.

Inductive adm_error : Type :=
| UnmarshalObject (e : string)
| NamespaceError (e : string)
| MarshalRequest (e : string)
| PolarisError (e : string)
| OPAError (e : opa_error)
| TargetVersionsError (e : version_error)
| PlutoError (e : string)
| SendError (e : send_error).

Record Validator {F P : Type} : Type := {
  v_iConfig : InsightsConfig;
  v_config : option (Configuration F P);
  v_policy : webhookFailurePolicy
}.
Arguments Validator F P : clear implicits.

Section validator.
Context {W F P R A DV O Patch : Type}.
Context `{!RegoEngine W} `{!KubeClient W} `{!AdmissionCluster W} `{!Severities F} `{!AdmissionLib Patch}.
Context `{!RangeOrder string string} `{!RangeOrder string value}.

(** The libraries that the handler calls. *)
Record Libs : Type := {
  lib_Unmarshal : string -> result string (nilmap value);
  lib_MarshalMetadata : Request -> option NamespaceMetadata -> result string string;
  lib_MarshalItems : list (ActionItem F) -> result string string;
  lib_request_value : Request -> value;
  lib_ControllerMatches : gmap string value -> gmap string value -> option string;
  lib_Polaris : PolarisLib P R A;
  lib_Pluto : PlutoLib DV O;
  lib_semver_IsValid : string -> bool;
  lib_Post : submission -> W -> W * result string (Z * string);
  lib_opaVersion : string;
  lib_admissionVersion : string;
  lib_contentType : string;
  lib_error_text : adm_error -> string
}.
Context (libs : Libs).

Definition NewValidator (iConfig : InsightsConfig) : Validator F P :=
  {| v_iConfig := iConfig; v_config := None; v_policy := webhookFailurePolicyIgnore |}.

(** [None]: the string is not a policy. *)
Definition SetWebhookFailurePolicy (s : string) (v : Validator F P) : option (Validator F P) :=
  let set p := Some {| v_iConfig := v_iConfig v; v_config := v_config v; v_policy := p |} in
  let l := ToLower s in
  if decide (l = "") then set webhookFailurePolicyIgnore
  else if decide (l = "ignore") then set webhookFailurePolicyIgnore
  else if decide (l = "fail") then set webhookFailurePolicyFail
  else None.

Definition InjectConfig (c : Configuration F P) (v : Validator F P) : Validator F P :=
  {| v_iConfig := v_iConfig v; v_config := Some c; v_policy := v_policy v |}.

(** [Client.GetObject]; a nil client panics. *)
Definition GetObject (namespace kind version name : string) (w : W) : go (W * result string (gmap string value)) :=
  if negb has_client then Panic else
  let '(w, mapping) := map_kind version kind w in
  match mapping with
  | Err e => Ret (w, Err e)
  | Ok gvr => Ret (get_object gvr namespace name w)
  end.

(** Whether every owner exists and matches; the first that does not ends the loop. *)
Fixpoint owners_valid (req : Request) (decoded : gmap string value) (owners : list value) (w : W) : go (W * bool) :=
  match owners with
  | [] => Ret (w, true)
  | owner :: owners' =>
      o ← deref (to_map (Some owner));
      kind ← deref (to_string (o !! "kind"%string));
      apiVersion ← deref (to_string (o !! "apiVersion"%string));
      name ← deref (to_string (o !! "name"%string));
      '(w, ctrl) ← GetObject (rq_Namespace req) kind apiVersion name w;
      match ctrl with
      | Err _ => Ret (w, false)
      | Ok ctrl =>
          match lib_ControllerMatches libs decoded ctrl with
          | Some _ => Ret (w, false)
          | None => owners_valid req decoded owners' w
          end
      end
  end.

Definition getNamespaceMetadata (namespace : string) (w : W) : W * result string NamespaceMetadata :=
  Namespaces_Get namespace w.

Definition with_object (raw : string) (req : Request) : Request :=
  {| rq_Operation := rq_Operation req; rq_Username := rq_Username req; rq_Name := rq_Name req;
     rq_Namespace := rq_Namespace req; rq_Kind := rq_Kind req; rq_RequestKind := rq_RequestKind req;
     rq_Object := raw; rq_OldObject := rq_OldObject req |}.

(** A deletion carries its object in [OldObject]. *)
Definition is_delete (req : Request) : bool := bool_decide (rq_Operation req = "DELETE"%string).

Definition getRequestReport (req : Request) (ns : option NamespaceMetadata) : result string ReportInfo :=
  let req := if is_delete req then with_object (rq_OldObject req) req else req in
  contents ← lib_MarshalMetadata libs req ns;
  mret {| Report := "metadata"; ReportVersion := "0.2.0"; Contents := contents |}.

Definition has_object (req : Request) : bool := 0 <? lenS (rq_Object req).

(** The report of Polaris, if one is to be made. *)
Definition polaris_report (config : Configuration F P) (req : Request) : result adm_error (list ReportInfo) :=
  match Polaris config with
  | Some polarisConfig =>
      if Reports_Polaris config && has_object req then
        match GetPolarisReport (lib_Polaris libs) polarisConfig (rq_Object req) with
        | Ok r => Ok [r]
        | Err e => Err (PolarisError e)
        end
      else Ok []
  | None => Ok []
  end.

Definition opa_report (iConfig : InsightsConfig) (config : Configuration F P) (decoded : gmap string value)
    (req : Request) (w : W) : go (W * result adm_error (list ReportInfo)) :=
  if Reports_OPA config then
    '(w, report, err) ← ProcessOPA (lib_opaVersion libs) (lib_MarshalItems libs) (lib_request_value libs)
                          decoded req config iConfig w;
    mret (w, match err with Some e => Err (OPAError e) | None => Ok [report] end)
  else Ret (w, Ok []).

(** [PLUTO_TARGET_VERSIONS] is read from the environment. *)
Definition pluto_report (targets : string) (config : Configuration F P) (req : Request)
    : result adm_error (list ReportInfo) :=
  if Reports_Pluto config && has_object req then
    match ParsePlutoTargetVersions (lib_semver_IsValid libs) targets with
    | Err e => Err (TargetVersionsError e)
    | Ok versions =>
        match ProcessPluto (lib_Pluto libs) (rq_Object req) versions with
        | Ok r => Ok [r]
        | Err e => Err (PlutoError e)
        end
    end
  else Ok [].

Definition verdict : Type := bool * list string * list string.

Definition processInputYAML (iConfig : InsightsConfig) (config : Configuration F P) (targets : string)
    (decoded : gmap string value) (req : Request) (ns : option NamespaceMetadata) (w : W)
    : go (W * result adm_error verdict) :=
  match getRequestReport req ns with Err e => Ret (w, Err (MarshalRequest e)) | Ok metadata =>
  match polaris_report config req with Err e => Ret (w, Err e) | Ok polaris =>
  '(w, opa) ← opa_report iConfig config decoded req w;
  match opa with Err e => Ret (w, Err e) | Ok opa =>
  match pluto_report targets config req with Err e => Ret (w, Err e) | Ok pluto =>
  '(w, r) ← sendResults (lib_Post libs) (lib_Unmarshal libs) (lib_admissionVersion libs) (lib_contentType libs)
              iConfig (metadata :: polaris ++ opa ++ pluto) w;
  mret (w, match r with Ok v => Ok v | Err e => Err (SendError e) end)
  end end end end.

Definition ignoring_message (username : string) : string :=
  "Insights admission controller is ignoring service account " +:+ username +:+ ".".

(** The namespace named by the object's metadata, if there is a nonempty one. *)
Definition object_namespace_name (metadata : gmap string value) : option string :=
  match to_string (metadata !! "namespace"%string) with
  | Some ns => if decide (ns <> "") then Some ns else None
  | None => None
  end.

(** Whether the owners excuse the object from the checks. *)
Definition excused_by_owners (req : Request) (decoded metadata : gmap string value) (w : W) : go (W * bool) :=
  match to_array (metadata !! "ownerReferences"%string) with
  | Some ((_ :: _) as owners) => owners_valid req decoded owners w
  | _ => Ret (w, false)
  end.

Definition run_checks (v : Validator F P) (config : Configuration F P) (targets : string) (decoded metadata : gmap string value)
    (req : Request) (w : W) : go (W * result adm_error verdict) :=
  match object_namespace_name metadata with
  | Some ns =>
      let '(w, r) := getNamespaceMetadata ns w in
      match r with
      | Err e => Ret (w, Err (NamespaceError e))
      | Ok m => processInputYAML (v_iConfig v) config targets decoded req (Some m) w
      end
  | None => processInputYAML (v_iConfig v) config targets decoded req None w
  end.

Definition handleInternal (v : Validator F P) (targets : string) (req : Request) (w : W)
    : go (W * result adm_error verdict) :=
  if bool_decide (rq_Username req ∈ ic_IgnoreUsernames (v_iConfig v)) then
    Ret (w, Ok (true, [ignoring_message (rq_Username req)], []))
  else
    match v_config v with
    | None => Ret (w, Ok (true, [], []))
    | Some config =>
        let rawBytes := if is_delete req then rq_OldObject req else rq_Object req in
        match lib_Unmarshal libs rawBytes with
        | Err e => Ret (w, Err (UnmarshalObject e))
        | Ok m =>
            decoded ← deref m;
            metadata ← deref (to_map (decoded !! "metadata"%string));
            '(w, excused) ← excused_by_owners req decoded metadata w;
            if excused : bool then Ret (w, Ok (true, [], []))
            else run_checks v config targets decoded metadata req w
        end
    end.

(** ** The response *)

Definition fairwindsInsightsIndicator : string := "[Fairwinds Insights]".
Definition blockedIndicator : string := "[Blocked]".

Definition respond (allowed : bool) (warnings errors : list string) : Response Patch :=
  let response := ValidationResponse allowed (Join errors ", ") in
  {| resp_Allowed := resp_Allowed response;
     resp_Code := if 0 <? lenZ warnings then httpStatusMiscPersistentWarning else resp_Code response;
     resp_Message := resp_Message response;
     resp_Warnings :=
       resp_Warnings response
       ++ ((fun w => fairwindsInsightsIndicator +:+ " " +:+ w) <$> warnings)
       ++ ((fun e => fairwindsInsightsIndicator +:+ " " +:+ blockedIndicator +:+ " " +:+ e) <$> errors);
     resp_Patches := resp_Patches response |}.

Definition Handle (v : Validator F P) (targets : string) (req : Request) (w : W) : go (W * Response Patch) :=
  '(w, r) ← handleInternal v targets req w;
  mret (w, match r with
           | Err e =>
               if decide (v_policy v <> webhookFailurePolicyIgnore) then Errored 400 (lib_error_text libs e)
               else respond true [] []
           | Ok (allowed, warnings, errors) => respond allowed warnings errors
           end).

(** ** The mutator

    Its library: the results of Polaris for a request with the original object,
    the mutations they call for, YAML and the difference of two documents. *)
Record MutationLib {Res Mut : Type} : Type := {
  GetValidatedResults : string -> Request -> P -> result string (option (list Res) * string);
  GetMutationsFromResult : list Res -> list Mut;
  JSONToYAML : string -> result string string;
  ApplyAllMutations : string -> list Mut -> result string string;
  YAMLToJSON : string -> result string string;
  CreatePatch : string -> string -> result string (list Patch)
}.
Arguments MutationLib Res Mut : clear implicits.

(** A mutator is its configuration; a nil mutator is [None]. *)
Definition mutate {Res Mut} (lib : MutationLib Res Mut) (m : option (option (Configuration F P))) (req : Request)
    : result string (list Patch) :=
  match m with
  | Some (Some config) =>
      match Polaris config with
      | None => Ok []
      | Some polaris =>
          '(results, original) ← GetValidatedResults lib (rq_Kind req) req polaris;
          match results with
          | None | Some [] => Ok []
          | Some results =>
              match GetMutationsFromResult lib results with
              | [] => Ok []
              | patches =>
                  originalYaml ← JSONToYAML lib original;
                  mutatedYaml ← ApplyAllMutations lib originalYaml patches;
                  mutatedJson ← YAMLToJSON lib mutatedYaml;
                  CreatePatch lib original mutatedJson
              end
          end
      end
  | _ => Ok []
  end.

Definition Mutator_Handle {Res Mut} (lib : MutationLib Res Mut) (m : option (option (Configuration F P))) (req : Request)
    : Response Patch :=
  match m with
  | None => Allowed "Allowed"
  | Some _ =>
      match rq_RequestKind req with
      | None => Allowed "Allowed"
      | Some _ =>
          match mutate lib m req with
          | Err e => Errored 403 e
          | Ok [] => Allowed "Allowed"
          | Ok patches => Patched "" patches
          end
      end
  end.
End validator.
Arguments Libs W F P R A DV O : clear implicits.

(** ** Configuration *)
Section configuration.
Context {F P : Type}.

Inductive refresh_error : Type :=
| RefreshHTTP (e : string)
| RefreshStatus (code : Z) (body : string)
| RefreshUnmarshal (e : string)
| RefreshPolaris (e : string).

Definition configuration_url (c : InsightsConfig) : string :=
  ic_Hostname c +:+ "/v0/organizations/" +:+ ic_Organization c +:+ "/clusters/" +:+ ic_Cluster c
  +:+ "/data/admission/configuration?includeRegoV1=true".

(** The configurations of the two handlers. *)
Record handlers : Type := { h_validator : Validator F P; h_mutator : option (Configuration F P) }.

Definition set_polaris (p : P) (c : Configuration F P) : Configuration F P :=
  {| Reports_Polaris := Reports_Polaris c; Reports_Pluto := Reports_Pluto c; Reports_OPA := Reports_OPA c;
     OPA_CustomChecks := OPA_CustomChecks c; OPA_CustomCheckInstances := OPA_CustomCheckInstances c;
     Polaris := Some p |}.

Definition polaris_config_path : string := "/opt/app/polaris-config.yaml".

(** [resp] is the answer to the request; [stat] tells whether the file of the chart's
    values exists; [MergeConfigAndParseFile] reads it over the default. *)
Definition refreshConfig (resp : result string (Z * string)) (unmarshal : string -> result string (Configuration F P))
    (stat : string -> bool) (MergeConfigAndParseFile : string -> bool -> result string P) (h : handlers)
    : handlers * option refresh_error :=
  match resp with
  | Err e => (h, Some (RefreshHTTP e))
  | Ok (code, body) =>
      if negb (code =? 200) then (h, Some (RefreshStatus code body))
      else
        match unmarshal body with
        | Err e => (h, Some (RefreshUnmarshal e))
        | Ok tempConfig =>
            let configFromValuesPath := if stat polaris_config_path then polaris_config_path else "" in
            let inject c := ({| h_validator := InjectConfig c (h_validator h); h_mutator := Some c |}, None) in
            match Polaris tempConfig with
            | Some _ => inject tempConfig
            | None =>
                match MergeConfigAndParseFile configFromValuesPath true with
                | Err e => (h, Some (RefreshPolaris e))
                | Ok p => inject (set_polaris p tempConfig)
                end
            end
        end
  end.

(** The goroutine that refreshes: the first failure ends the process, as does a ticker
    whose period is not positive; later failures are logged. *)
Inductive refresher : Type := Dead | Running (h : handlers).

Definition ticker_period (interval : Z) : Z := GoInt.i64 (GoTime.Minute * interval).

Definition first_refresh (refresh : handlers -> handlers * option refresh_error) (interval : Z) (h : handlers) : refresher :=
  match refresh h with
  | (_, Some _) => Dead
  | (h, None) => if ticker_period interval <=? 0 then Dead else Running h
  end.

Definition next_refresh (refresh : handlers -> handlers * option refresh_error) (r : refresher) : refresher :=
  match r with
  | Running h => Running (fst (refresh h))
  | Dead => Dead
  end.

Definition keepConfigurationRefreshed (refreshes : list (handlers -> handlers * option refresh_error)) (interval : Z)
    (h : handlers) : refresher :=
  match refreshes with
  | [] => Running h
  | first :: ticks => foldl (fun r refresh => next_refresh refresh r) (first_refresh first interval h) ticks
  end.

Definition getIntervalOrDefault (CONFIGURATION_INTERVAL : string) (fallback : Z) : option Z :=
  if decide (CONFIGURATION_INTERVAL = "") then Some fallback
  else match ParseInt CONFIGURATION_INTERVAL with ParsedOk n => Some n | _ => None end.

(** [None] when the process exits for want of a variable. *)
Definition mustGetInsightsConfigFromEnvVars (Getenv : string -> string) : option InsightsConfig :=
  let hostname := Getenv "FAIRWINDS_HOSTNAME" in
  let organization := Getenv "FAIRWINDS_ORGANIZATION" in
  let cluster := Getenv "FAIRWINDS_CLUSTER" in
  let token := TrimSpace (Getenv "FAIRWINDS_TOKEN") in
  if decide (hostname = "") then None
  else if decide (organization = "") then None
  else if decide (cluster = "") then None
  else if decide (token = "") then None
  else Some {| ic_Hostname := hostname; ic_Organization := organization; ic_Cluster := cluster; ic_Token := token;
               ic_IgnoreUsernames := TrimSpace <$> Split (Getenv "FAIRWINDS_IGNORE_USERNAMES") "," |}.

Definition webhook_port (WEBHOOK_PORT : string) : option Z :=
  let portString := TrimSpace WEBHOOK_PORT in
  if decide (portString = "") then Some 8443
  else match ParseInt portString with ParsedOk n => Some n | _ => None end.

(** What [main] comes to before it serves; [cert] tells whether the certificate exists. *)
Inductive main_outcome : Type :=
| Fatal
| Panicked
| Serving (port interval : Z) (v : Validator F P).

Definition main_start (Getenv : string -> string) (clientset_ok manager_ok cert : bool) : main_outcome :=
  match getIntervalOrDefault (Getenv "CONFIGURATION_INTERVAL") 1 with
  | None => Fatal
  | Some interval =>
      match mustGetInsightsConfigFromEnvVars Getenv with
      | None => Fatal
      | Some iConfig =>
          if negb clientset_ok then Fatal
          else
            match webhook_port (Getenv "WEBHOOK_PORT") with
            | None => Fatal
            | Some port =>
                if negb manager_ok then Fatal
                else
                  match SetWebhookFailurePolicy (Getenv "WEBHOOK_FAILURE_POLICY") (NewValidator iConfig) with
                  | None => Panicked
                  | Some v => if negb cert then Panicked else Serving port interval v
                  end
            end
      end
  end.
End configuration.

(** * Properties *)

(** ** Which reports are submitted *)
Section reports.
Context {W F P R A DV O Patch : Type}.
Context `{!RegoEngine W} `{!KubeClient W} `{!AdmissionCluster W} `{!Severities F} `{!AdmissionLib Patch}.
Context `{!RangeOrder string string} `{!RangeOrder string value} `{HL : !AdmissionLibLaws Patch}.
Context (libs : Libs W F P R A DV O).

(** The reports that the configuration asks for. *)
Definition expected_reports (config : Configuration F P) (req : Request) : list string :=
  ["metadata"%string]
  ++ (if Reports_Polaris config && has_object req && bool_decide (is_Some (Polaris config)) then ["polaris"%string] else [])
  ++ (if Reports_OPA config then ["opa"%string] else [])
  ++ (if Reports_Pluto config && has_object req then ["pluto"%string] else []).

(** The reports were submitted, and Insights answered with the verdict. *)
Definition submitted (iConfig : InsightsConfig) (names : list string) (v : verdict) : Prop :=
  exists reports w w', Report <$> reports = names /\
    sendResults (lib_Post libs) (lib_Unmarshal libs) (lib_admissionVersion libs) (lib_contentType libs)
      iConfig reports w = Ret (w', Ok v).

Lemma getRequestReport_name req ns r : getRequestReport libs req ns = Ok r -> Report r = "metadata"%string.
Proof. unfold getRequestReport. intros (c & _ & [= <-])%result_bind_ok. done. Qed.

Lemma polaris_report_names config req l :
  polaris_report libs config req = Ok l ->
  Report <$> l = if Reports_Polaris config && has_object req && bool_decide (is_Some (Polaris config))
                 then ["polaris"%string] else [].
Proof.
  unfold polaris_report. destruct (Polaris config) as [p|].
  - rewrite bool_decide_eq_true_2 by done. rewrite andb_true_r.
    destruct (_ && _); [|by intros [= <-]]. destruct (GetPolarisReport _ _ _) as [r|e] eqn:E; [|done].
    intros [= <-]. unfold GetPolarisReport in E.
    apply result_bind_ok in E as (? & _ & E). apply result_bind_ok in E as (? & _ & E).
    apply result_bind_ok in E as (? & _ & [= <-]). done.
  - rewrite bool_decide_eq_false_2 by (by intros [? ?]). rewrite andb_false_r. by intros [= <-].
Qed.

Lemma opa_report_names iConfig config decoded req w w' l :
  opa_report libs iConfig config decoded req w = Ret (w', Ok l) ->
  Report <$> l = if Reports_OPA config then ["opa"%string] else [].
Proof.
  unfold opa_report. destruct (Reports_OPA config); [|by intros [= _ <-]].
  intros ([[w1 r] err] & Hp & H)%go_bind_ret. destruct err; [done|]. injection H as <- <-.
  unfold ProcessOPA in Hp. destruct (GetOPACustomChecksAndLibraries _) as [[cs l0] l1].
  apply go_bind_ret in Hp as ([[w2 items] errs] & _ & Hp).
  destruct (lib_MarshalItems libs items); injection Hp as <- <- ?; done.
Qed.

Lemma pluto_report_names targets config req l :
  pluto_report libs targets config req = Ok l ->
  Report <$> l = if Reports_Pluto config && has_object req then ["pluto"%string] else [].
Proof.
  unfold pluto_report. destruct (_ && _); [|by intros [= <-]].
  destruct (ParsePlutoTargetVersions _ _) as [v|e]; [|done].
  destruct (ProcessPluto _ _ _) as [r|e] eqn:E; [|done]. intros [= <-]. unfold ProcessPluto in E.
  apply result_bind_ok in E as ([vs ts] & _ & E). apply result_bind_ok in E as (? & _ & E).
  apply result_bind_ok in E as (? & _ & [= <-]). done.
Qed.

Lemma processInputYAML_Ok iConfig config targets decoded req ns w w' v :
  processInputYAML libs iConfig config targets decoded req ns w = Ret (w', Ok v) ->
  submitted iConfig (expected_reports config req) v.
Proof.
  unfold processInputYAML. destruct (getRequestReport _ _ _) as [metadata|e] eqn:Em; [|done].
  destruct (polaris_report _ _ _) as [polaris|e] eqn:Ep; [|done].
  intros ([w1 [opa|e]] & Ho & H)%go_bind_ret; [|done].
  destruct (pluto_report _ _ _ _) as [pluto|e] eqn:El; [|done].
  apply go_bind_ret in H as ([w2 [v'|e]] & Hs & H); [|done]. injection H as <- <-.
  exists (metadata :: polaris ++ opa ++ pluto), w1, w2. split; [|done].
  rewrite fmap_cons, !fmap_app. erewrite getRequestReport_name, polaris_report_names, opa_report_names, pluto_report_names by done.
  done.
Qed.

(** ** Why a request is let through without a verdict *)

Definition excused (req : Request) : Prop :=
  exists decoded metadata w w', excused_by_owners libs req decoded metadata w = Ret (w', true).

Lemma handleInternal_Ok v targets req w w' r :
  handleInternal libs v targets req w = Ret (w', Ok r) ->
  (rq_Username req ∈ ic_IgnoreUsernames (v_iConfig v) /\ r = (true, [ignoring_message (rq_Username req)], []))
  \/ (v_config v = None /\ r = (true, [], []))
  \/ (excused req /\ r = (true, [], []))
  \/ (exists config, v_config v = Some config /\ submitted (v_iConfig v) (expected_reports config req) r).
Proof.
  unfold handleInternal. case_bool_decide as Hu; [intros [= <- <-]; by left|].
  destruct (v_config v) as [config|]; [|intros [= <- <-]; right; by left].
  destruct (lib_Unmarshal _ _) as [m|e]; [|done]. intros H. right. right.
  apply go_bind_ret in H as (decoded & _ & H). apply go_bind_ret in H as (metadata & _ & H).
  apply go_bind_ret in H as ([w1 exc] & He & H). destruct exc.
  - injection H as <- <-. left. split; [|done]. by exists decoded, metadata, w, w1.
  - right. exists config. split; [done|]. unfold run_checks in H.
    destruct (object_namespace_name metadata) as [ns|]; [|by eapply processInputYAML_Ok].
    destruct (getNamespaceMetadata ns w1) as [w2 [m'|e]]; [|done]. by eapply processInputYAML_Ok.
Qed.

Lemma respond_allowed allowed warnings errors : resp_Allowed (respond (Patch := Patch) allowed warnings errors) = allowed.
Proof. unfold respond. simpl. apply ValidationResponse_allowed. Qed.


(** The warnings of a response: every warning and every error, marked, in their order;
    the code tells of warnings. *)
Lemma respond_warnings allowed warnings errors :
  resp_Warnings (respond (Patch := Patch) allowed warnings errors)
  = ((fun w => "[Fairwinds Insights] " +:+ w) <$> warnings) ++ ((fun e => "[Fairwinds Insights] [Blocked] " +:+ e) <$> errors)
  /\ resp_Code (respond (Patch := Patch) allowed warnings errors)
     = (if decide (warnings = []) then if allowed then 200 else 403 else 299).
Proof.
  unfold respond. simpl. destruct (ValidationResponse_allowed (Patch := Patch) allowed (Join errors ", ")) as [_ ->].
  rewrite ValidationResponse_code. split; [done|]. by destruct warnings.
Qed.
End reports.

(** ** Keeping the configuration fresh *)
Section refreshing.
Context {F P : Type}.
Context (unmarshal : string -> result string (Configuration F P)) (stat : string -> bool)
  (MergeConfigAndParseFile : string -> bool -> result string P).

Notation refresh resp := (refreshConfig resp unmarshal stat MergeConfigAndParseFile).

(** The configuration of an answer, completed with a configuration of Polaris. *)
Definition answered (resp : result string (Z * string)) (c : Configuration F P) : Prop :=
  exists body c0, resp = Ok (200, body) /\ unmarshal body = Ok c0 /\
    (c = c0 /\ is_Some (Polaris c0)
     \/ Polaris c0 = None /\ exists p path, MergeConfigAndParseFile path true = Ok p /\ c = set_polaris p c0).

Lemma refreshConfig_spec resp h :
  match refresh resp h with
  | (h', None) => exists c, answered resp c /\ is_Some (Polaris c)
                    /\ h' = {| h_validator := InjectConfig c (h_validator h); h_mutator := Some c |}
  | (h', Some _) => h' = h
  end.
Proof.
  unfold refreshConfig. destruct resp as [[code body]|e]; [|done].
  destruct (code =? 200) eqn:Ec; [|done]. apply Z.eqb_eq in Ec as ->. simpl.
  destruct (unmarshal body) as [c0|e] eqn:Eu; [|done].
  destruct (Polaris c0) as [p|] eqn:Ep.
  - exists c0. split_and!; [|by eexists|done]. exists body, c0. split_and!; [done|done|]. left. split; [done|by eexists].
  - destruct (MergeConfigAndParseFile _ true) as [p|e] eqn:Em; [|done].
    exists (set_polaris p c0). split_and!; [|by eexists|done]. exists body, c0. split_and!; [done|done|]. right.
    split; [done|]. by eexists p, _.
Qed.

(** Both handlers have the same configuration, one of those that were answered. *)
Definition fresh (resps : list (result string (Z * string))) (v : Validator F P) (h : handlers) : Prop :=
  exists resp c, resp ∈ resps /\ answered resp c /\ is_Some (Polaris c)
    /\ h_mutator h = Some c /\ h_validator h = InjectConfig c v.

Lemma InjectConfig_twice c c' (v : Validator F P) : InjectConfig c' (InjectConfig c v) = InjectConfig c' v.
Proof. done. Qed.

Lemma fresh_step resps resp v h :
  fresh resps v h -> fresh (resps ++ [resp]) v (fst (refresh resp h)).
Proof.
  intros (r & c & Hr & Ha & Hp & Hm & Hv). pose proof (refreshConfig_spec resp h) as H.
  destruct (refresh resp h) as [h' [e|]].
  - subst h'. exists r, c. split_and!; try done. apply elem_of_app. by left.
  - destruct H as (c' & Ha' & Hp' & ->). exists resp, c'. simpl. rewrite Hv. split_and!; try done.
    apply elem_of_app. right. left.
Qed.

End refreshing.

(** ** A concrete webhook *)
Module Witness.

#[local] Instance order_string : RangeOrder string string := canonical_order.
#[local] Instance order_value : RangeOrder string value := canonical_order.
#[local] Instance severities : Severities Z := {| ParseFloat _ := Ok 10; half := 5 |}.

#[local] Instance engine : RegoEngine unit := {|
  PrepareForEval _ := None; Eval _ _ w := (w, Ok []); InterfaceToValue v := Ok v |}.

#[local] Instance opa_cluster : KubeClient unit := {|
  GetKubeClient := true; RESTMapping _ _ w := (w, Err ""%string); ResourceFor _ _ w := (w, Err ""%string);
  List _ w := (w, Ok []) |}.

#[local] Instance cluster : AdmissionCluster unit := {|
  has_client := true; map_kind _ _ w := (w, Err "no owner"%string); get_object _ _ _ w := (w, Err ""%string);
  Namespaces_Get _ w := (w, Ok {| nm_Kind := ""; nm_APIVersion := ""; nm_Labels := None; nm_Annotations := None |}) |}.

#[local] Instance lib : AdmissionLib unit := {|
  Allowed m := {| resp_Allowed := true; resp_Code := 200; resp_Message := m; resp_Warnings := []; resp_Patches := [] |};
  Errored c m := {| resp_Allowed := false; resp_Code := c; resp_Message := m; resp_Warnings := []; resp_Patches := [] |};
  ValidationResponse b m :=
    {| resp_Allowed := b; resp_Code := if b then 200 else 403; resp_Message := m; resp_Warnings := []; resp_Patches := [] |};
  Patched m ps := {| resp_Allowed := true; resp_Code := 200; resp_Message := m; resp_Warnings := []; resp_Patches := ps |}
|}.

#[local] Instance lib_laws : AdmissionLibLaws unit.
Proof. by split. Qed.

(** Documents are names; Insights blocks everything. *)
Definition libs : Libs unit Z unit unit unit unit unit := {|
  lib_Unmarshal s :=
    if decide (s = "verdict"%string)
    then Ok (Some (<["Success"%string := VBool false]>
                   {["ActionItems"%string := VArray [answer_item "no limits" true]]}))
    else Ok (Some {["metadata"%string := VMap {["namespace"%string := VString "web"]}]});
  lib_MarshalMetadata _ _ := Ok "request"%string;
  lib_MarshalItems _ := Ok "items"%string;
  lib_request_value _ := VNil;
  lib_ControllerMatches _ _ := None;
  lib_Polaris := {| PolarisOutputVersion := "1.0"; NewGenericResourceFromBytes _ := Ok tt;
                    ApplyAllSchemaChecks _ _ := Ok tt; MarshalAudit _ _ := Ok "audit"%string |};
  lib_Pluto := {| GetDefaultVersionList := Ok ([], ∅); dv_Component _ := ""; IsVersioned _ _ := Ok [];
                  FilterOutput i := i; MarshalInstance _ := Ok "pluto"%string |};
  lib_semver_IsValid _ := true;
  lib_Post _ w := (w, Ok (200, "verdict"%string));
  lib_opaVersion := "2.0"; lib_admissionVersion := "1.2"; lib_contentType := "multipart/form-data";
  lib_error_text _ := "error"
|}.

Definition config : Configuration Z unit :=
  {| Reports_Polaris := true; Reports_Pluto := true; Reports_OPA := true; OPA_CustomChecks := [];
     OPA_CustomCheckInstances := []; Polaris := Some tt |}.

Definition iConfig : InsightsConfig :=
  {| ic_Hostname := "h"; ic_Organization := "acme"; ic_Cluster := "prod"; ic_Token := "t"; ic_IgnoreUsernames := ["robot"%string] |}.

Definition validator : Validator Z unit := InjectConfig config (NewValidator iConfig).

Definition request : Request :=
  {| rq_Operation := "CREATE"; rq_Username := "alice"; rq_Name := "web"; rq_Namespace := "web"; rq_Kind := "Pod";
     rq_RequestKind := Some (""%string, "v1"%string, "Pod"%string); rq_Object := "{}"; rq_OldObject := "" |}.


(** A deletion reports its metadata and the policies only. *)
Example deletion_reports :
  expected_reports config {| rq_Operation := "DELETE"; rq_Username := "alice"; rq_Name := "web"; rq_Namespace := "web";
    rq_Kind := "Pod"; rq_RequestKind := None; rq_Object := ""; rq_OldObject := "{}" |} = ["metadata"; "opa"]%string.
Proof. vm_compute. reflexivity. Qed.

(** Without a kind in the request a policy check panics; an object without metadata does
    too. *)
Definition one_check : OPACustomCheck Z :=
  {| cc_Name := "c"; cc_Version := "2.0"; cc_Rego := ""; cc_Title := None; cc_Severity := None; cc_Remediation := None;
     cc_Category := None; cc_AdditionalKubernetesData := []; cc_IsLibrary := false; cc_RegoVersion := None |}.

Example missing_kind_panics :
  process_opa_checks (W := unit) [one_check] ∅
    {| rq_Operation := "CREATE"; rq_Username := "alice"; rq_Name := "web"; rq_Namespace := "web"; rq_Kind := "Pod";
       rq_RequestKind := None; rq_Object := "{}"; rq_OldObject := "" |} [] [] (agent_info "prod") [] [] tt = Panic.
Proof. reflexivity. Qed.

(** An empty list of ignored users still contains the empty name. *)
Example empty_username_ignored :
  ic_IgnoreUsernames <$> mustGetInsightsConfigFromEnvVars
    (fun k => if decide (k = "FAIRWINDS_IGNORE_USERNAMES"%string) then ""%string else "x"%string) = Some [""%string].
Proof. vm_compute. reflexivity. Qed.

(** An interval of zero is accepted, and ends the refreshing goroutine with a panic. *)
Example zero_interval : getIntervalOrDefault "0" 1 = Some 0 /\ ticker_period 0 = 0.
Proof. split; reflexivity. Qed.

Definition answer : result string (Z * string) := Ok (200, "config"%string).

End Witness.
