(* ===== verification/CiModels.v ===== *)
(** * ci: data and configuration

    [ci/pkg/models/], [pkg/util/], [pkg/ci/scan-errors.go] and [junit.go]: the
    configuration with its defaults, registry credentials, the errors of a scan
    and how they become items of the scan-errors report, action items and the
    JUnit file.  Parsing JSON and writing XML are parameters. *)

From stdpp Require Import base decidable list gmap strings.
From Stdlib Require Import ZArith Lia Ascii.
From S2P Require Import Prelude GoStrings GoText GoValues GoFiles.

Local Open Scope Z_scope.

(** ** Resources, reports *)

Record Resource : Type := {
  r_Kind : string;
  r_Name : string;
  r_Filename : string;
  r_Namespace : string;
  r_HelmName : string;
  r_Labels : strmap;
  r_Containers : list string;
  r_Annotations : strmap
}.

Record ReportInfo : Type := { Report : string; Version : string; Filename : string }.

Record Container : Type := { c_Image : string; c_Name : string }.

(** ** The configuration *)

Record HelmConfig : Type := {
  h_Name : string;
  h_Path : string;
  h_Repo : string;
  h_Chart : string;
  h_FluxFile : string;
  h_Version : string;
  h_ValuesFile : string;
  h_ValuesFiles : list string;
  h_Values : nilmap value
}.

Definition IsRemote (hc : HelmConfig) : bool := bool_decide (h_Repo hc <> "").
Definition IsLocal (hc : HelmConfig) : bool := bool_decide (h_Path hc <> "").
Definition IsFluxFile (hc : HelmConfig) : bool := bool_decide (h_FluxFile hc <> "").

Record ManifestConfig : Type := { YamlPaths : list string; Helm : list HelmConfig }.
Record TerraformConfig : Type := { Paths : list string }.
Record imageConfig : Type := { FolderName : string; Docker : list string }.

(** The switches are pointers to booleans. *)
Record reportConfig : Type := { Enabled : option bool }.
Record tfSecConfig : Type := { tf_Enabled : option bool; CustomChecksDirectory : option string }.
Record trivyConfig : Type := { t_Enabled : option bool; SkipManifests : option bool }.

Record reportsConfig : Type := {
  Polaris : reportConfig;
  Pluto : reportConfig;
  TFSec : tfSecConfig;
  Trivy : trivyConfig;
  OPA : reportConfig;
  PrometheusMetrics : reportConfig;
  Goldilocks : reportConfig
}.

Record RegistryCredential : Type := { rc_Domain : string; rc_Username : string; rc_Password : string }.

Record optionConfig : Type := {
  SetExitCode : bool;
  BaseBranch : string;
  NewActionItemThreshold : Z;
  SeverityThreshold : string;
  TempFolder : string;
  Hostname : string;
  Organization : string;
  JUnitOutput : string;
  RepositoryName : string;
  RegistryCredentials : list RegistryCredential;
  CIRunner : string
}.

Record Configuration : Type := {
  Images : imageConfig;
  Manifests : ManifestConfig;
  Terraform : TerraformConfig;
  Options : optionConfig;
  Reports : reportsConfig
}.

Definition no_report : reportConfig := {| Enabled := None |}.

Definition empty_configuration : Configuration :=
  {| Images := {| FolderName := ""; Docker := [] |};
     Manifests := {| YamlPaths := []; Helm := [] |};
     Terraform := {| Paths := [] |};
     Options := {| SetExitCode := false; BaseBranch := ""; NewActionItemThreshold := 0; SeverityThreshold := "";
                   TempFolder := ""; Hostname := ""; Organization := ""; JUnitOutput := ""; RepositoryName := "";
                   RegistryCredentials := []; CIRunner := "" |};
     Reports := {| Polaris := no_report; Pluto := no_report;
                   TFSec := {| tf_Enabled := None; CustomChecksDirectory := None |};
                   Trivy := {| t_Enabled := None; SkipManifests := None |};
                   OPA := no_report; PrometheusMetrics := no_report; Goldilocks := no_report |} |}.

(** The runners with a hint; others are plain strings. *)
Definition GithubActions : string := "github-actions".
Definition CircleCI : string := "circle-ci".
Definition Gitlab : string := "gitlab".
Definition Travis : string := "travis".
Definition AzureDevops : string := "azure-devops".

Definition with_folders (tempFolder imagesFolder : string) (c : Configuration) : Configuration :=
  {| Images := {| FolderName := imagesFolder; Docker := Docker (Images c) |};
     Manifests := Manifests c; Terraform := Terraform c;
     Options :=
       let o := Options c in
       {| SetExitCode := SetExitCode o; BaseBranch := BaseBranch o; NewActionItemThreshold := NewActionItemThreshold o;
          SeverityThreshold := SeverityThreshold o; TempFolder := tempFolder; Hostname := Hostname o;
          Organization := Organization o; JUnitOutput := JUnitOutput o; RepositoryName := RepositoryName o;
          RegistryCredentials := RegistryCredentials o; CIRunner := CIRunner o |};
     Reports := Reports c |}.

Definition with_options (o : optionConfig) (r : reportsConfig) (c : Configuration) : Configuration :=
  {| Images := Images c; Manifests := Manifests c; Terraform := Terraform c; Options := o; Reports := r |}.

(** ** Registry credentials *)

(** One star for each character of the password. *)
Definition RegistryCredential_String (rc : RegistryCredential) : string :=
  "domain: " +:+ rc_Domain rc +:+ ", username: " +:+ rc_Username rc +:+ ", password: "
  +:+ str ((fun _ => "*"%char) <$> filter (fun c => is_continuation c = false) (chars (rc_Password rc))).

Definition duplicated_domains : string := "duplicated domains found in registry credentials list".

Definition Validate (rc : list RegistryCredential) : option string :=
  let domains : gset string := list_to_set (rc_Domain <$> rc) in
  if lenZ rc >? Z.of_nat (size domains) then Some duplicated_domains else None.

(** The registry of an image, as the code reads it. *)
Definition image_domain (imageName : string) : string :=
  match Split imageName "/" with
  | [domain; _; _] => domain
  | _ => "docker.io"
  end.

Definition FindCredentialForImage (rc : list RegistryCredential) (imageName : string) : option RegistryCredential :=
  List.find (fun v => bool_decide (rc_Domain v = image_domain imageName)) rc.

(** ** Defaults *)

Definition maybeAddSlash (input : string) : string :=
  if HasSuffix input "/" then input else input +:+ "/".

Definition SetPathDefaults (c : Configuration) : Configuration :=
  let or_default (x d : string) := if decide (x = "") then d else x in
  with_folders (maybeAddSlash (or_default (TempFolder (Options c)) "/tmp/_insightsTemp/"))
    (maybeAddSlash (or_default (FolderName (Images c)) "./_insightsTempImages/")) c.

Definition SetMountedPathDefaults {W} `{!Files W} (basePath : string) (c : Configuration)
    : io W (Configuration * option string) :=
  let tempFolder := PathJoin basePath "tmp/_insightsTemp" in
  let imagesFolder := PathJoin basePath "tmp/_insightsTempImages" in
  let c1 := with_folders tempFolder (FolderName (Images c)) c in
  err ← effect (MkdirAll tempFolder);
  match err with
  | Some e => mret (c1, Some ("SetMountedPathDefaults: " +:+ e))
  | None =>
      let c2 := with_folders (maybeAddSlash tempFolder) imagesFolder c in
      err ← effect (MkdirAll imagesFolder);
      match err with
      | Some e => mret (c2, Some ("SetMountedPathDefaults: " +:+ e))
      | None => mret (with_folders (maybeAddSlash tempFolder) (maybeAddSlash imagesFolder) c, None)
      end
  end.

(** The first of the configuration file, the environment and the default that is set. *)
Definition first_set (fromFile fromEnv dflt : string) : string :=
  if decide (fromFile <> "") then fromFile
  else if decide (TrimSpace fromEnv <> "") then TrimSpace fromEnv
  else dflt.

Definition default_switch (b : bool) (p : option bool) : option bool :=
  match p with Some _ => p | None => Some b end.

Definition default_reports (r : reportsConfig) : reportsConfig :=
  let on p := {| Enabled := default_switch true (Enabled p) |} in
  {| Polaris := on (Polaris r); Pluto := on (Pluto r);
     TFSec := {| tf_Enabled := default_switch false (tf_Enabled (TFSec r));
                 CustomChecksDirectory := CustomChecksDirectory (TFSec r) |};
     Trivy := {| t_Enabled := default_switch true (t_Enabled (Trivy r));
                 SkipManifests := default_switch false (SkipManifests (Trivy r)) |};
     OPA := on (OPA r); PrometheusMetrics := on (PrometheusMetrics r); Goldilocks := on (Goldilocks r) |}.

Section environment.
Context (Getenv : string -> string) (json_credentials : string -> result string (list RegistryCredential)).

Definition default_options (rcs : list RegistryCredential) (o : optionConfig) : optionConfig :=
  {| SetExitCode := SetExitCode o;
     BaseBranch := first_set (BaseBranch o) (Getenv "BASE_BRANCH") "master";
     NewActionItemThreshold := if NewActionItemThreshold o =? 0 then -1 else NewActionItemThreshold o;
     SeverityThreshold := if decide (SeverityThreshold o = "") then "danger" else SeverityThreshold o;
     TempFolder := TempFolder o;
     Hostname := first_set (Hostname o) (Getenv "HOSTNAME") "https://insights.fairwinds.com";
     Organization := first_set (Organization o) (Getenv "ORG_NAME") "";
     JUnitOutput := JUnitOutput o;
     RepositoryName := first_set (RepositoryName o) (Getenv "REPOSITORY_NAME") "";
     RegistryCredentials := rcs;
     CIRunner := TrimSpace (Getenv "CI_RUNNER") |}.

(** Everything else is set before the credentials are read. *)
Definition SetDefaults (c : Configuration) : Configuration * option string :=
  let done rcs := with_options (default_options rcs (Options c)) (default_reports (Reports c)) c in
  let same := done (RegistryCredentials (Options c)) in
  let registryCredentialsJSON := TrimSpace (Getenv "REGISTRY_CREDENTIALS") in
  if decide (registryCredentialsJSON = "") then (same, None)
  else match json_credentials registryCredentialsJSON with
       | Err e => (same, Some ("could not parse registry credentials: " +:+ e))
       | Ok rcs => match Validate rcs with
                   | Some e => (same, Some ("registryCredentials is not valid: " +:+ e))
                   | None => (done rcs, None)
                   end
       end.
End environment.

Definition CheckForErrors (c : Configuration) : option string :=
  if decide (Organization (Options c) = "") then Some "options.organization not set" else None.

(** ** Action items *)

Record K8sResource : Type := { k_Namespace : string; k_Name : string; k_Kind : string; k_Filename : string }.

Record ActionItem {F : Type} : Type := {
  Remediation : string;
  Severity : F;
  Title : string;
  Description : string;
  Notes : string;
  ai_Resource : K8sResource
}.
Arguments ActionItem F : clear implicits.

Record ScanResults {F : Type} : Type := {
  NewActionItems : list (ActionItem F);
  FixedActionItems : list (ActionItem F);
  Pass : bool
}.
Arguments ScanResults F : clear implicits.

Definition GetReadableTitle {F} (ai : ActionItem F) : string :=
  let r := ai_Resource ai in
  (if decide (k_Filename r <> "") then k_Filename r +:+ ": " else "")
  +:+ (if decide (k_Namespace r = "") then k_Kind r +:+ "/" +:+ k_Name r
       else k_Namespace r +:+ "/" +:+ k_Kind r +:+ "/" +:+ k_Name r)
  +:+ " - " +:+ Title ai.

(** *** JUnit *)

Record Failure : Type := { f_Message : string; f_Data : string }.
Record Testcase : Type := { tc_Name : string; tc_Classname : string; tc_Failure : option Failure }.

Definition newline : string := String (byte 10) "".
Definition junitClassname : string := "fairwinds-insights-ci".

Definition junit_failure {F} (ai : ActionItem F) : Testcase :=
  {| tc_Name := GetReadableTitle ai; tc_Classname := junitClassname;
     tc_Failure := Some {| f_Message := Remediation ai;
                           f_Data := "File: " +:+ Notes ai +:+ newline +:+ "Description: " +:+ Description ai |} |}.

Definition junit_fixed {F} (ai : ActionItem F) : Testcase :=
  {| tc_Name := GetReadableTitle ai; tc_Classname := junitClassname; tc_Failure := None |}.

Definition junit_suite {F} (results : ScanResults F) : list Testcase :=
  (junit_failure <$> NewActionItems results) ++ (junit_fixed <$> FixedActionItems results).

(** [write_xml] gives the text of the suite called [CI scan], or fails. *)
Definition SaveJUnitFile {F W} `{!Files W} (write_xml : list Testcase -> result string string)
    (baseFolder : string) (c : Configuration) (results : ScanResults F) : io W (option string) :=
  let jUnitOutputFile := PathJoin baseFolder (JUnitOutput (Options c)) in
  err ← effect (MkdirAll (Dir jUnitOutputFile));
  match err with
  | Some e => mret (Some ("could not create dir: " +:+ e))
  | None =>
      match write_xml (junit_suite results) with
      | Err e => mret (Some e)
      | Ok text =>
          err ← effect (WriteFile jUnitOutputFile text);
          mret ((fun e => "could not save file: " +:+ e) <$> err)
      end
  end.

Definition JUnitEnabled (c : Configuration) : bool := bool_decide (JUnitOutput (Options c) <> "").

(** ** Errors of a scan *)

(** [float64] as far as it is compared with zero. *)
Class FloatZero (F : Type) := { f_zero : F; f_is_zero : F -> bool; f_zero_law : f_is_zero f_zero = true }.

Record ScanErrorsReportResult {F : Type} : Type := {
  se_Kind : string;
  se_ResourceName : string;
  se_ErrorMessage : string;
  se_ErrorContext : string;
  se_Filename : string;
  se_Remediation : string;
  se_Severity : F;
  se_Category : string
}.
Arguments ScanErrorsReportResult F : clear implicits.

(** A Go error: a plain one with its text, one with its context, several. *)
#[warnings="-register-all"]
Inductive ci_error (F : Type) : Type :=
| Plain (text : string)
| ScanError (r : ScanErrorsReportResult F)
| Multi (es : list (ci_error F)).
Arguments Plain {F} text.
Arguments ScanError {F} r.
Arguments Multi {F} es.

Definition ScanErrorsReportVersion : string := "0.0.1".
Definition ScanErrorsReportDefaultKind : string := "CIErrorWithoutContext".
Definition ScanErrorsReportDefaultResourceName : string := "unknown".
Definition ScanErrorsReportDefaultErrorContext : string := "performing an action in CI".

Section scan_errors.
Context {F : Type} `{!FloatZero F}.

Definition or_else (x y : string) : string := if decide (x = "") then y else x.

Definition FillUnsetFields (r f : ScanErrorsReportResult F) : ScanErrorsReportResult F :=
  {| se_Kind := or_else (se_Kind r) (se_Kind f);
     se_ResourceName := or_else (se_ResourceName r) (se_ResourceName f);
     se_ErrorMessage := se_ErrorMessage r;
     se_ErrorContext := or_else (se_ErrorContext r) (se_ErrorContext f);
     se_Filename := or_else (se_Filename r) (se_Filename f);
     se_Remediation := or_else (se_Remediation r) (se_Remediation f);
     se_Severity := if f_is_zero (se_Severity r) then se_Severity f else se_Severity r;
     se_Category := or_else (se_Category r) (se_Category f) |}.

Definition FillUnsetRequiredFieldsWithDefaults (r : ScanErrorsReportResult F) : ScanErrorsReportResult F :=
  {| se_Kind := or_else (se_Kind r) ScanErrorsReportDefaultKind;
     se_ResourceName := or_else (se_ResourceName r) ScanErrorsReportDefaultResourceName;
     se_ErrorMessage := se_ErrorMessage r;
     se_ErrorContext := or_else (se_ErrorContext r) ScanErrorsReportDefaultErrorContext;
     se_Filename := se_Filename r;
     se_Remediation := se_Remediation r;
     se_Severity := se_Severity r;
     se_Category := se_Category r |}.

(** A result with a message and, in this order, context, kind, resource. *)
Definition scan_error (message context kind resource : string) : ScanErrorsReportResult F :=
  {| se_Kind := kind; se_ResourceName := resource; se_ErrorMessage := message; se_ErrorContext := context;
     se_Filename := ""; se_Remediation := ""; se_Severity := f_zero; se_Category := "" |}.

Definition with_file (filename remediation : string) (r : ScanErrorsReportResult F) : ScanErrorsReportResult F :=
  {| se_Kind := se_Kind r; se_ResourceName := se_ResourceName r; se_ErrorMessage := se_ErrorMessage r;
     se_ErrorContext := se_ErrorContext r; se_Filename := filename; se_Remediation := remediation;
     se_Severity := se_Severity r; se_Category := se_Category r |}.

Definition report_item (r : ScanErrorsReportResult F) (missing : list (ScanErrorsReportResult F))
    : ScanErrorsReportResult F :=
  FillUnsetRequiredFieldsWithDefaults (foldl FillUnsetFields r missing).

Fixpoint error_items (e : ci_error F) (missing : list (ScanErrorsReportResult F)) : list (ScanErrorsReportResult F) :=
  match e with
  | Multi es => (fix all es := match es with
                               | [] => []
                               | e :: es' => error_items e missing ++ all es'
                               end) es
  | ScanError r => [report_item r missing]
  | Plain text => [report_item (scan_error text "" "" "") missing]
  end.

(** A nil error adds nothing. *)
Definition AddScanErrorsReportResultFromError (items : list (ScanErrorsReportResult F)) (e : option (ci_error F))
    (missing : list (ScanErrorsReportResult F)) : list (ScanErrorsReportResult F) :=
  match e with
  | Some e => items ++ error_items e missing
  | None => items
  end.

Definition createErrorItemMessage (r : ScanErrorsReportResult F) : string :=
  let slash x := if decide (x <> "") then x +:+ "/" else "" in
  let sb := slash (se_ErrorContext r) +:+ slash (se_Kind r) +:+ se_ResourceName r in
  sb +:+ (if decide (sb <> "") then " - " else "") +:+ se_ErrorMessage r
  +:+ (if decide (se_Filename r <> "") then " (" +:+ se_Filename r +:+ ")" else "").

(** [Error()]; the text of a [multierror] is that library's. *)
Context (multi_text : list string -> string).

Fixpoint error_text (e : ci_error F) : string :=
  match e with
  | Plain t => t
  | ScanError r => se_ErrorMessage r
  | Multi es => multi_text ((fix all es := match es with
                                           | [] => []
                                           | e :: es' => error_text e :: all es'
                                           end) es)
  end.
End scan_errors.

(** ** [pkg/util] *)

(** The entries of a map that are strings; nil when the map is empty or missing. *)
Definition string_entries (x : option value) : strmap :=
  match to_map x with
  | Some m => if decide (m = ∅) then None else Some (omap (fun v => to_string (Some v)) m)
  | None => None
  end.

Record metadata : Type := {
  m_apiVersion : string;
  m_kind : string;
  m_name : string;
  m_namespace : string;
  m_labels : strmap;
  m_annotations : strmap
}.

Definition ExtractMetadata (obj : gmap string value) : metadata :=
  let field (m : gmap string value) k := default "" (to_string (m !! k)) in
  match to_map (obj !! "metadata"%string) with
  | None => {| m_apiVersion := field obj "apiVersion"%string; m_kind := field obj "kind"%string; m_name := ""; m_namespace := "";
               m_labels := None; m_annotations := None |}
  | Some md => {| m_apiVersion := field obj "apiVersion"%string; m_kind := field obj "kind"%string;
                  m_name := field md "name"%string; m_namespace := field md "namespace"%string;
                  m_labels := string_entries (md !! "labels"%string);
                  m_annotations := string_entries (md !! "annotations"%string) |}
  end.

Definition GetRepoDetails (repositoryName : string) : string * string :=
  match Split repositoryName "/" with
  | [owner; repo] => (owner, repo)
  | _ => ("", repositoryName)
  end.

Fixpoint exactly_one (found : bool) (inputs : list bool) : bool :=
  match inputs with
  | [] => found
  | true :: l => if found then false else exactly_one true l
  | false :: l => exactly_one found l
  end.

Definition ExactlyOneOf (inputs : list bool) : bool := exactly_one false inputs.

(** The last name of each value in the order of the range. *)
Definition ReverseMap `{!RangeOrder string string} (m : gmap string string) : gmap string string :=
  foldl (fun n kv => <[kv.2 := kv.1]> n) ∅ (range_map m).

(** * Properties *)

(** ** Credentials *)

Lemma size_list_to_set_le (l : list string) : (size (list_to_set l : gset string) <= length l)%nat.
Proof. induction l as [|x l IH]; [done|]. cbn [list_to_set length]. destruct (decide (x ∈ (list_to_set l : gset string))).
  - rewrite subseteq_union_1_L by set_solver. lia.
  - rewrite size_union, size_singleton by set_solver. lia.
Qed.

Lemma size_list_to_set_NoDup (l : list string) : size (list_to_set l : gset string) = length l <-> NoDup l.
Proof.
  induction l as [|x l IH]; [split; [constructor|done]|]. cbn [list_to_set length].
  pose proof (size_list_to_set_le l) as Hle.
  destruct (decide (x ∈ (list_to_set l : gset string))) as [Hx|Hx].
  - rewrite subseteq_union_1_L by set_solver. split; [lia|].
    inversion 1; subst. by rewrite elem_of_list_to_set in Hx.
  - rewrite size_union, size_singleton by set_solver. rewrite elem_of_list_to_set in Hx.
    rewrite NoDup_cons, <-IH. split; [intros; split; [done|lia]|intros [_ ?]; lia].
Qed.

Lemma Validate_spec rcs : Validate rcs = None <-> NoDup (rc_Domain <$> rcs).
Proof.
  unfold Validate. rewrite <-size_list_to_set_NoDup, length_fmap.
  pose proof (size_list_to_set_le (rc_Domain <$> rcs)) as Hle. rewrite length_fmap in Hle.
  unfold lenZ. destruct (Z.gtb_spec (Z.of_nat (length rcs)) (Z.of_nat (size (list_to_set (rc_Domain <$> rcs) : gset string))));
    split; intros; [done|lia|lia|done].
Qed.

Lemma NoDup_fmap_inj_on {A B} (f : A -> B) (l : list A) x y :
  NoDup (f <$> l) -> x ∈ l -> y ∈ l -> f x = f y -> x = y.
Proof.
  intros Hnd (i & Hi)%list_elem_of_lookup (j & Hj)%list_elem_of_lookup Hf.
  assert (i = j) as ->; [|congruence].
  eapply NoDup_lookup; [done|rewrite list_lookup_fmap, Hi; done|rewrite list_lookup_fmap, Hj; simpl; by rewrite Hf].
Qed.

(** In credentials that were accepted the one used for an image is the only one whose domain is the registry that
    the code reads off the image's name, and there is none exactly when no domain is that registry. *)
Theorem credential_is_of_domain rcs imageName :
  Validate rcs = None ->
  match FindCredentialForImage rcs imageName with
  | Some c => c ∈ rcs /\ forall c', c' ∈ rcs -> rc_Domain c' = image_domain imageName <-> c' = c
  | None => image_domain imageName ∉ rc_Domain <$> rcs
  end.
Proof.
  intros Hv%Validate_spec. unfold FindCredentialForImage. destruct (List.find _ _) as [c|] eqn:E.
  - apply find_some in E as [Hin Hd%bool_decide_eq_true]. apply list_elem_of_In in Hin. split; [done|].
    intros c' Hc'. split; [|by intros ->]. intros Hd'. eapply NoDup_fmap_inj_on; [done..|congruence].
  - intros (c & Hc & Hin)%list_elem_of_fmap. apply list_elem_of_In in Hin.
    pose proof (find_none _ _ E c Hin) as Hn. apply bool_decide_eq_false in Hn. congruence.
Qed.

(** An image that names its registry but no folder there gets the credentials of Docker Hub. *)
Lemma registry_without_folder host app :
  ("/"%char ∉ chars host) -> ("/"%char ∉ chars app) -> image_domain (host +:+ String "/" app) = "docker.io"%string.
Proof. intros Hh Ha. unfold image_domain. by rewrite Split_app, !Split_whole. Qed.

(** Only names of three parts are read by their registry. *)
Lemma three_parts_domain host folder app :
  ("/"%char ∉ chars host) -> ("/"%char ∉ chars folder) -> ("/"%char ∉ chars app) ->
  image_domain (host +:+ String "/" (folder +:+ String "/" app)) = host.
Proof. intros Hh Hf Ha. unfold image_domain. by rewrite !Split_app, !Split_whole. Qed.

(** ** Defaults *)

Section defaults.
Context (Getenv : string -> string) (json_credentials : string -> result string (list RegistryCredential)).
Implicit Types c : Configuration.

Lemma first_set_idem f e d : first_set (first_set f e d) e d = first_set f e d.
Proof. unfold first_set. repeat (case_decide; try done). Qed.

Lemma default_switch_idem b p : default_switch b (default_switch b p) = default_switch b p.
Proof. by destruct p. Qed.

Lemma default_options_idem rcs rcs' o :
  default_options Getenv rcs (default_options Getenv rcs' o) = default_options Getenv rcs o.
Proof.
  unfold default_options; simpl. rewrite !first_set_idem. f_equal.
  - by destruct (Z.eqb_spec (NewActionItemThreshold o) 0) as [|Hn%Z.eqb_neq]; [|rewrite Hn].
  - by repeat case_decide.
Qed.

Lemma default_reports_idem r : default_reports (default_reports r) = default_reports r.
Proof. unfold default_reports; simpl. by rewrite !default_switch_idem. Qed.

(** No switch of a report is nil. *)
Definition switches_set (c : Configuration) : Prop :=
  let r := Reports c in
  is_Some (Enabled (Polaris r)) /\ is_Some (Enabled (Pluto r)) /\ is_Some (Enabled (OPA r))
  /\ is_Some (t_Enabled (Trivy r)) /\ is_Some (SkipManifests (Trivy r)) /\ is_Some (tf_Enabled (TFSec r)).

Lemma default_switch_set b p : is_Some (default_switch b p).
Proof. destruct p; by eexists. Qed.

Lemma SetDefaults_switches c : switches_set (SetDefaults Getenv json_credentials c).1.
Proof.
  assert (H : forall o, switches_set (with_options o (default_reports (Reports c)) c)).
  { intros o. unfold switches_set, with_options, default_reports; simpl. split_and!; apply default_switch_set. }
  unfold SetDefaults. case_decide; [apply H|]. destruct (json_credentials _) as [rcs|e]; [|apply H].
  destruct (Validate rcs); apply H.
Qed.

(** Setting the defaults sets every switch that is not set and leaves the others, gives a base branch, a host, a
    severity and a threshold that are set, with the file before the environment before the default; what fails is only
    the list of credentials, and doing it twice changes nothing. *)
Theorem SetDefaults_complete c :
  let c' := (SetDefaults Getenv json_credentials c).1 in
  (forall get : reportsConfig -> reportConfig,
     get ∈ [Polaris; Pluto; OPA; PrometheusMetrics; Goldilocks] ->
     Enabled (get (Reports c')) = Some (default true (Enabled (get (Reports c)))))
  /\ t_Enabled (Trivy (Reports c')) = Some (default true (t_Enabled (Trivy (Reports c))))
  /\ SkipManifests (Trivy (Reports c')) = Some (default false (SkipManifests (Trivy (Reports c))))
  /\ tf_Enabled (TFSec (Reports c')) = Some (default false (tf_Enabled (TFSec (Reports c))))
  /\ (BaseBranch (Options c') <> "" /\ Hostname (Options c') <> "" /\ SeverityThreshold (Options c') <> "")%string
  /\ NewActionItemThreshold (Options c') <> 0
  /\ (BaseBranch (Options c) <> "" -> BaseBranch (Options c') = BaseBranch (Options c))%string
  /\ (BaseBranch (Options c) = "" -> TrimSpace (Getenv "BASE_BRANCH") <> "" ->
      BaseBranch (Options c') = TrimSpace (Getenv "BASE_BRANCH"))%string
  /\ Images c' = Images c /\ Manifests c' = Manifests c
  /\ SetDefaults Getenv json_credentials c' = (c', (SetDefaults Getenv json_credentials c).2).
Proof.
  set (done rcs := with_options (default_options Getenv rcs (Options c)) (default_reports (Reports c)) c).
  assert (H : exists rcs, (SetDefaults Getenv json_credentials c).1 = done rcs
    /\ SetDefaults Getenv json_credentials (done rcs) = (done rcs, (SetDefaults Getenv json_credentials c).2)).
  { unfold SetDefaults. fold done. case_decide as He.
    - exists (RegistryCredentials (Options c)). split; [done|]. unfold done, with_options; simpl.
      by rewrite default_options_idem, default_reports_idem.
    - destruct (json_credentials _) as [rcs|e] eqn:Hj; [destruct (Validate rcs) eqn:Hv|].
      all: eexists; split; [reflexivity|]; unfold done, with_options; simpl;
        by rewrite default_options_idem, default_reports_idem. }
  destruct H as (rcs & H1 & H2). cbv zeta. rewrite H1, H2. clear H1 H2. simpl. repeat split; try done.
  - intros get Hget. by repeat (apply elem_of_cons in Hget as [->|Hget]; [simpl; by destruct (Enabled _)|]);
      apply elem_of_nil in Hget.
  - by destruct (t_Enabled _).
  - by destruct (SkipManifests _).
  - by destruct (tf_Enabled _).
  - unfold first_set. by repeat case_decide.
  - unfold first_set. by repeat case_decide.
  - by case_decide.
  - destruct (Z.eqb_spec (NewActionItemThreshold (Options c)) 0); [lia|done].
  - intros Hb. unfold first_set. by rewrite decide_True.
  - intros -> He. unfold first_set. by rewrite decide_False, decide_True by tauto.
Qed.
End defaults.

(** ** Errors *)

Section errors.
Context {F : Type} `{!FloatZero F}.

Fixpoint error_leaves (e : ci_error F) : list string :=
  match e with
  | Plain t => [t]
  | ScanError r => [se_ErrorMessage r]
  | Multi es => (fix all es := match es with
                               | [] => []
                               | e :: es' => error_leaves e ++ all es'
                               end) es
  end.

Lemma ci_error_nested_ind (P : ci_error F -> Prop) :
  (forall t, P (Plain t)) -> (forall r, P (ScanError r)) -> (forall es, Forall P es -> P (Multi es)) -> forall e, P e.
Proof.
  intros Hp Hs Hm. fix IH 1. intros [t|r|es]; [apply Hp|apply Hs|]. apply Hm.
  induction es as [|e es IHes]; constructor; [apply IH|exact IHes].
Defined.

Lemma or_else_set x y : y <> ""%string -> or_else x y <> ""%string.
Proof. unfold or_else. by case_decide. Qed.

Lemma foldl_FillUnsetFields_message missing r :
  se_ErrorMessage (foldl FillUnsetFields r missing) = se_ErrorMessage r.
Proof. revert r. induction missing as [|f l IH]; intros r; [done|]. simpl. by rewrite IH. Qed.

Lemma report_item_facts r missing :
  se_ErrorMessage (report_item r missing) = se_ErrorMessage r
  /\ (se_Kind (report_item r missing) <> "" /\ se_ResourceName (report_item r missing) <> ""
      /\ se_ErrorContext (report_item r missing) <> "")%string.
Proof.
  unfold report_item. simpl. rewrite foldl_FillUnsetFields_message. repeat split; by apply or_else_set.
Qed.

Lemma error_items_facts e missing :
  se_ErrorMessage <$> error_items e missing = error_leaves e
  /\ Forall (fun r => se_Kind r <> "" /\ se_ResourceName r <> "" /\ se_ErrorContext r <> "")%string (error_items e missing).
Proof.
  induction e as [t|r|es IH] using ci_error_nested_ind.
  - split; [|constructor; [apply report_item_facts|done]].
    cbn [error_items error_leaves fmap list_fmap]. f_equal. apply report_item_facts.
  - split; [|constructor; [apply report_item_facts|done]].
    cbn [error_items error_leaves fmap list_fmap]. f_equal. apply report_item_facts.
  - simpl. induction IH as [|e es [He1 He2] _ [IHm IHf]]; [done|]. split.
    + by rewrite fmap_app, He1, IHm.
    + by apply Forall_app.
Qed.

(** Adding an error that has a message inside leaves items behind. *)
Lemma added_items_nonempty items e missing :
  items <> [] \/ (exists x, e = Some x /\ error_leaves x <> []) ->
  AddScanErrorsReportResultFromError items e missing <> [].
Proof.
  intros [H|(x & -> & H)]; simpl.
  - destruct e; [|done]. by destruct items.
  - rewrite <-(proj1 (error_items_facts x missing)) in H.
    intros [_ E]%app_nil. by rewrite E in H.
Qed.

(** Every error inside an error becomes one item of the scan-errors report, in order and with its own message, and
    no item lacks a kind, a resource or a context, which the API requires. *)
Theorem errors_are_reported (items : list (ScanErrorsReportResult F)) e missing :
  exists new, AddScanErrorsReportResultFromError items (Some e) missing = items ++ new
    /\ se_ErrorMessage <$> new = error_leaves e
    /\ Forall (fun r => se_Kind r <> "" /\ se_ResourceName r <> "" /\ se_ErrorContext r <> "")%string new.
Proof. exists (error_items e missing). split; [done|]. apply error_items_facts. Qed.

(** The first context that is set wins. *)
Lemma FillUnsetFields_keeps r f :
  (se_Kind r <> "" -> se_Kind (FillUnsetFields r f) = se_Kind r)%string
  /\ (se_ErrorContext r <> "" -> se_ErrorContext (FillUnsetFields r f) = se_ErrorContext r)%string
  /\ (se_ErrorContext r = "" -> se_ErrorContext (FillUnsetFields r f) = se_ErrorContext f)%string.
Proof. unfold FillUnsetFields, or_else; simpl. repeat split; intros; by case_decide. Qed.
End errors.

(** ** Utilities *)

Lemma exactly_one_spec found l :
  exactly_one found l = true <-> length (filter (fun b => b = true) l) = (if found then 0 else 1)%nat.
Proof.
  revert found. induction l as [|[] l IH]; intros found; [by destruct found| |].
  - cbn [exactly_one]. rewrite filter_cons_True by done. destruct found; [split; [done|by simpl]|].
    rewrite IH. cbn [length]. split; lia.
  - cbn [exactly_one]. rewrite filter_cons_False by done. apply IH.
Qed.

(** Exactly one, as the name says; the comment says at least one. *)
Lemma ExactlyOneOf_spec l : ExactlyOneOf l = true <-> length (filter (fun b => b = true) l) = 1%nat.
Proof. apply (exactly_one_spec false). Qed.

Lemma foldl_insert_swap (l : list (string * string)) (n : gmap string string) v k :
  foldl (fun n kv => <[kv.2 := kv.1]> n) n l !! v = Some k -> (k, v) ∈ l \/ n !! v = Some k.
Proof.
  revert n. induction l as [|[k' v'] l IH]; intros n; simpl; [by right|].
  intros [H|H]%IH; [left; by right|].
  destruct (decide (v' = v)) as [->|Hv].
  - rewrite lookup_insert_eq in H. injection H as ->. left. by left.
  - rewrite lookup_insert_ne in H by done. by right.
Qed.

(** A reversed map names, for every value, one of its keys. *)
Lemma ReverseMap_spec `{!RangeOrder string string} (m : gmap string string) v k :
  ReverseMap m !! v = Some k -> m !! k = Some v.
Proof. intros [H|H]%foldl_insert_swap; [by apply elem_of_range_map|by rewrite lookup_empty in H]. Qed.

Lemma foldl_insert_dom (l : list (string * string)) (n : gmap string string) v :
  is_Some (n !! v) \/ v ∈ l.*2 -> is_Some (foldl (fun n kv => <[kv.2 := kv.1]> n) n l !! v).
Proof.
  revert n. induction l as [|[k' v'] l IH]; intros n; simpl.
  - intros [H|H]; [done|by apply elem_of_nil in H].
  - intros H. apply IH. destruct (decide (v' = v)) as [->|Hv]; [left; rewrite lookup_insert_eq; by eexists|].
    rewrite lookup_insert_ne by done. destruct H as [H|H]; [by left|].
    apply elem_of_cons in H as [H|H]; [congruence|by right].
Qed.

Lemma ReverseMap_total `{!RangeOrder string string} (m : gmap string string) k v :
  m !! k = Some v -> is_Some (ReverseMap m !! v).
Proof.
  intros H. apply foldl_insert_dom. right. apply list_elem_of_fmap. exists (k, v). split; [done|].
  by apply elem_of_range_map.
Qed.

(** One test case for each action item, which fails exactly for the new ones. *)
Lemma junit_suite_spec {F} (results : ScanResults F) :
  tc_Name <$> junit_suite results = GetReadableTitle <$> (NewActionItems results ++ FixedActionItems results)
  /\ length (filter (fun t => is_Some (tc_Failure t)) (junit_suite results)) = length (NewActionItems results).
Proof.
  unfold junit_suite. split.
  - by rewrite !fmap_app, <-!list_fmap_compose.
  - rewrite filter_app, length_app.
    assert (filter (fun t => is_Some (tc_Failure t)) (junit_fixed <$> FixedActionItems results) = []) as ->.
    { induction (FixedActionItems results) as [|x l IH]; [done|]. cbn [fmap list_fmap]. rewrite filter_cons_False; [done|].
      simpl. by intros [? [=]]. }
    induction (NewActionItems results) as [|x l IH]; [done|]. cbn [fmap list_fmap].
    rewrite filter_cons_True by by eexists. cbn [length] in *. lia.
Qed.

Lemma credential_is_of_domain_witness :
  let rcs := [{| rc_Domain := "docker.io"; rc_Username := "u"; rc_Password := "p" |};
              {| rc_Domain := "quay.io"; rc_Username := "q"; rc_Password := "s" |}] in
  Validate rcs = None /\ exists c, FindCredentialForImage rcs "quay.io/fedora/httpd:1.0" = Some c
    /\ rc_Username c = "q"%string /\ c ∈ rcs.
Proof.
  intros rcs. split; [vm_compute; reflexivity|]. eexists. split; [vm_compute; reflexivity|]. split; [reflexivity|].
  exact (proj1 (credential_is_of_domain rcs "quay.io/fedora/httpd:1.0" eq_refl)).
Defined.

(** The password of Docker Hub is offered to another registry. *)
Example docker_io_credentials_elsewhere :
  FindCredentialForImage [{| rc_Domain := "docker.io"; rc_Username := "u"; rc_Password := "p" |}] "quay.io/app:1"
  = Some {| rc_Domain := "docker.io"; rc_Username := "u"; rc_Password := "p" |}.
Proof. reflexivity. Qed.

Example readable_title :
  GetReadableTitle {| Remediation := ""; Severity := tt; Title := "CPU limits"; Description := ""; Notes := "";
                      ai_Resource := {| k_Namespace := "ns"; k_Name := "web"; k_Kind := "Deployment"; k_Filename := "a.yaml" |} |}
  = "a.yaml: ns/Deployment/web - CPU limits"%string.
Proof. reflexivity. Qed.
