(* ===== verification/CiManifests.v ===== *)
(** * ci: manifests

    [ci/pkg/ci/ci.go] from a folder of manifests to the images and resources used
    in them, and [auto_detection.go], which finds the manifests and charts of a
    repository without a configuration.  YAML is a parameter: the documents of a
    stream, and single objects. *)

From stdpp Require Import base decidable list gmap strings.
From Stdlib Require Import ZArith Lia Ascii.
From S2P Require Import Prelude GoStrings GoText GoValues GoFiles TrivyImages CiModels.

(** ** Pod specs *)

Definition podSpecFields : list string := ["jobTemplate"; "spec"; "template"].
Definition containerSpecFields : list string := ["containers"; "initContainers"].

Definition first_field (fields : list string) (yaml : gmap string value) : option value :=
  head (omap (fun f => yaml !! f) fields).

(** The first of the fields is followed; one that is not a map panics. *)
Fixpoint get_pod_spec (fuel : nat) (yaml : gmap string value) : option (go (gmap string value)) :=
  match fuel with
  | 0 => None
  | S fuel' =>
      match first_field podSpecFields yaml with
      | Some (VMap child) => get_pod_spec fuel' child
      | Some _ => Some Panic
      | None => Some (Ret yaml)
      end
  end.

(** The depth of the object is fuel enough: [getPodSpec_unfold]. *)
Definition getPodSpec (yaml : gmap string value) : go (gmap string value) :=
  default Panic (get_pod_spec (S (depth (VMap yaml))) yaml).

Definition container_of (container : value) : go Container :=
  match container with
  | VMap m => Ret {| c_Image := default "" (to_string (m !! "image")); c_Name := default "" (to_string (m !! "name")) |}
  | _ => Panic
  end.

Definition field_containers (podSpec : gmap string value) (field : string) : go (list Container) :=
  match to_array (podSpec !! field) with
  | Some containers => mapM container_of containers
  | None => Ret []
  end.

Definition getImages (podSpec : gmap string value) : go (list Container) :=
  l ← mapM (field_containers podSpec) containerSpecFields; mret (mjoin l).

Definition manifest_image (md : metadata) (c : Container) : Image :=
  {| i_Name := c_Image c; i_ID := ""; i_PullRef := "";
     i_Owners := [{| TrivyImages.Kind := m_kind md; TrivyImages.Namespace := m_namespace md;
                     TrivyImages.ResName := m_name md; TrivyImages.Container := c_Name c |}];
     i_RecommendationOnly := false |}.

Definition processYamlNode (yamlNode : gmap string value) : go (list Image * list Container) :=
  let md := ExtractMetadata yamlNode in
  if decide (m_kind md = "" \/ m_name md = "") then Ret ([], [])
  else
    podSpec ← getPodSpec yamlNode;
    images ← getImages podSpec;
    mret ((fmap (M:=list) (manifest_image md) images), images).

(** ** The images and resources of a folder *)

Record collected : Type := {
  co_images : list Image;
  co_resources : list CiModels.Resource;
  co_errors : list string
}.

Definition add_error (e : string) (c : collected) : collected :=
  {| co_images := co_images c; co_resources := co_resources c; co_errors := co_errors c ++ [e] |}.

Definition resource_of (md : metadata) (displayFilename helmName : string) (containers : list Container) : CiModels.Resource :=
  {| r_Kind := m_kind md; r_Name := m_name md; r_Filename := displayFilename; r_Namespace := m_namespace md;
     r_HelmName := helmName; r_Labels := m_labels md; r_Containers := c_Name <$> containers;
     r_Annotations := m_annotations md |}.

(** An object without kind or name is skipped. *)
Definition add_object (displayFilename helmName : string) (obj : gmap string value) (c : collected) : go collected :=
  let md := ExtractMetadata obj in
  if decide (m_kind md = "" \/ m_name md = "") then Ret c
  else
    '(newImages, containers) ← processYamlNode obj;
    mret {| co_images := co_images c ++ newImages;
            co_resources := co_resources c ++ [resource_of md displayFilename helmName containers];
            co_errors := co_errors c |}.

(** An item that is not a map is read as an empty one. *)
Definition add_item (displayFilename helmName : string) (c : go collected) (item : value) : go collected :=
  c ← c; add_object displayFilename helmName (default ∅ (to_map (Some item))) c.

Definition add_document (displayFilename helmName : string) (yamlNode : gmap string value) (c : collected) : go collected :=
  match to_string (yamlNode !! "kind") with
  | None => Ret c
  | Some kind =>
      if decide (kind = "list") then
        nodes ← deref (to_array (yamlNode !! "items"));
        foldl (add_item displayFilename helmName) (Ret c) nodes
      else add_object displayFilename helmName yamlNode c
  end.

(** The documents of a stream up to the first that is not an object, and the error
    of reading the next one, nothing at the end. *)
Fixpoint add_documents (path displayFilename helmName : string) (docs : list (result string (gmap string value)))
    (stop : option string) (c : collected) : go collected :=
  match docs with
  | [] => Ret (match stop with
               | Some e => add_error ("error decoding file " +:+ path +:+ ": " +:+ e) c
               | None => c
               end)
  | Err e :: _ => Ret (add_error ("error decoding document " +:+ path +:+ ": " +:+ e) c)
  | Ok doc :: docs' => add_document displayFilename helmName doc c ≫= add_documents path displayFilename helmName docs' stop
  end.

(** Names of files as the user knows them.  A chart's output is in a folder of its
    name, then one of the chart's. *)
Definition chart_file (helm : HelmConfig) (displayFilename : string) : string :=
  let rest := Join (drop 2 (Split displayFilename "/")) "/" in
  if IsLocal helm then PathJoin (h_Path helm) rest
  else if IsRemote helm then
    if IsFluxFile helm then PathJoin (h_FluxFile helm) rest else PathJoin (h_Chart helm) rest
  else rest.

Definition display_step (acc : string * string) (helm : HelmConfig) : string * string :=
  let '(displayFilename, helmName) := acc in
  if HasPrefix displayFilename (h_Name helm +:+ "/") then (chart_file helm displayFilename, h_Name helm)
  else acc.

Definition getDisplayFilenameAndHelmName (helms : list HelmConfig) (configFolder path : string)
    : result string (string * string) :=
  match Rel configFolder path with
  | Err e => Err ("cannot be made relative to basepath: " +:+ e)
  | Ok displayFilename => Ok (foldl display_step (displayFilename, "") helms)
  end.

Definition is_yaml (name : string) : bool := HasSuffix name ".yaml" || HasSuffix name ".yml".

Section resources.
Context (yaml_documents : string -> list (result string (gmap string value)) * option string).
Context (helms : list HelmConfig) (configFolder : string).

(** Opening a folder succeeds; reading it is the error of the first document. *)
Definition add_file (path : string) (n : node) (c : collected) : go collected :=
  match getDisplayFilenameAndHelmName helms configFolder path with
  | Err e => Ret (add_error ("error getting displayFilename and helmName for file " +:+ path +:+ ": " +:+ e) c)
  | Ok (displayFilename, helmName) =>
      match n with
      | DirNode _ => Ret (add_error ("error decoding file " +:+ path +:+ ": is a directory") c)
      | FileNode (Err e) => Ret (add_error ("error opening file " +:+ path +:+ ": " +:+ pe_Text e) c)
      | FileNode (Ok content) =>
          let '(docs, stop) := yaml_documents content in
          add_documents path displayFilename helmName docs stop c
      end
  end.

Definition resources_step (path name : string) (n : node) (c : collected) : go collected :=
  if is_yaml name then add_file path n c else Ret c.

(** The callback of the walk uses [info] without looking at the error: a folder that
    is not there panics. *)
Definition resources_callback (path name : string) (info : option node) (err : option path_error) (c : collected)
    : go (collected * option (walk_error string)) :=
  n ← deref info; c ← resources_step path name n c; mret (c, None).

Context `{!RangeOrder string Image}.

(** Owners are collected by name; the rest is that of the last image of the name. *)
Definition imageOwnersMap (images : list Image) : gmap string (list TrivyImages.Resource) :=
  foldl (fun m img => <[i_Name img := default [] (m !! i_Name img) ++ i_Owners img]> m) ∅ images.

Definition imagesMap (images : list Image) : gmap string Image :=
  foldl (fun m img => <[i_Name img := img]> m) ∅ images.

Definition set_owners (owners : list TrivyImages.Resource) (i : Image) : Image :=
  {| i_Name := i_Name i; i_ID := i_ID i; i_PullRef := i_PullRef i; i_Owners := owners;
     i_RecommendationOnly := i_RecommendationOnly i |}.

Definition dedupImages (images : list Image) : list Image :=
  (fun kv => set_owners (default [] (imageOwnersMap images !! kv.1)) kv.2) <$> range_map (imagesMap images).

(** The images, the resources and the errors, if there are any. *)
Definition getAllResources (found : result path_error node) : go (option (list Image * list CiModels.Resource) * list string) :=
  '(c, err) ← Walk resources_callback configFolder found {| co_images := []; co_resources := []; co_errors := [] |};
  mret (match err with
        | Some e => (None, co_errors c ++ ["error walking directory " +:+ configFolder +:+ ": " +:+ e])
        | None => (Some (dedupImages (co_images c), co_resources c), co_errors c)
        end).
End resources.

(** ** Finding manifests and charts *)

Definition supportedKubeExtensions : list string := ["yaml"; "yml"; "json"].
Definition supportedExtensions : list string := ["yaml"; "yml"; "json"; "tf"].

Record KubernetesManifest : Type := { km_ApiVersion : option string; km_Kind : option string }.

Section detection.
Context (yaml_manifest : string -> result string KubernetesManifest).
Context (yaml_object : string -> result string (gmap string value)).

Definition getPossibleKubernetesManifest (n : node) : option (string * string) :=
  match read_node n with
  | Err _ => None
  | Ok content =>
      match yaml_manifest content with
      | Ok {| km_ApiVersion := Some apiVersion; km_Kind := Some kind |} => Some (apiVersion, kind)
      | _ => None
      end
  end.

Definition isFluxManifest (n : node) : bool :=
  match getPossibleKubernetesManifest n with
  | Some (apiVersion, _) => Contains apiVersion "toolkit.fluxcd.io"
  | None => false
  end.

Definition isKubernetesManifest (n : node) : bool := bool_decide (is_Some (getPossibleKubernetesManifest n)).

Definition isHelmBaseFolder (path : string) (n : node) : result string bool :=
  match n with
  | DirNode (Ok files) =>
      Ok (existsb (fun file => existsb (fun ext => bool_decide (file.1 = "Chart." +:+ ext)) supportedKubeExtensions) files)
  | DirNode (Err e) => Err ("Could not read dir " +:+ path +:+ ": " +:+ pe_Text e)
  | FileNode _ => Err ("Could not read dir " +:+ path +:+ ": not a directory")
  end.

(** [fileExtension[1:]] of an extension that is not empty drops its dot. *)
Definition supported_file (path : string) : bool :=
  let fileExtension := Ext path in
  bool_decide (fileExtension <> "") && bool_decide (slice_from 1 fileExtension ∈ supportedExtensions).

(** The manifests and the charts found so far. *)
Definition detected : Type := list string * list string.

Definition detect_callback (basePath path name : string) (info : option node) (err : option path_error) (d : detected)
    : go (detected * option (walk_error string)) :=
  match err with
  | Some e => Ret (d, Some (WalkError ("Could not walk into dir: " +:+ pe_Text e)))
  | None =>
      n ← deref info;
      let fail e := Ret (d, Some (WalkError e)) in
      if IsDir n then
        if HasPrefix name "." then Ret (d, Some SkipDir)
        else match isHelmBaseFolder path n with
             | Err e => fail e
             | Ok true =>
                 match Rel basePath path with
                 | Err e => fail e
                 | Ok relPath => Ret ((d.1, d.2 ++ [relPath]), Some SkipDir)
                 end
             | Ok false => Ret (d, None)
             end
      else if supported_file path && negb (isFluxManifest n) && isKubernetesManifest n then
        match Rel basePath path with
        | Err e => fail e
        | Ok relPath => Ret ((d.1 ++ [relPath], d.2), None)
        end
      else Ret (d, None)
  end.

Section world.
Context {W : Type} `{!Files W}.

(** The name in the first chart file that can be read and has one. *)
Definition tryFetchNameFromChartFile (baseFolder chart : string) (w : W) : string :=
  default chart
    (head (omap (fun ext =>
      match ReadPath (PathJoin (PathJoin baseFolder chart) ("Chart." +:+ ext)) w with
      | Err _ => None
      | Ok content =>
          match yaml_object content with
          | Err _ => None
          | Ok s => to_string (s !! "name")
          end
      end) supportedKubeExtensions)).

Definition missing (r : result path_error node) : bool :=
  match r with Err e => pe_NotExist e | Ok _ => false end.

Definition tryDiscoverValuesFile (baseFolder path : string) (w : W) : string :=
  default ""
    (head (omap (fun ext =>
      let possibleValuesFile := PathJoin (PathJoin baseFolder path) ("values." +:+ ext) in
      if missing (Stat possibleValuesFile w) then None
      else Some (match Rel baseFolder possibleValuesFile with Ok r => r | Err _ => "" end)) supportedKubeExtensions)).

Definition helm_config (baseFolder : string) (w : W) (path : string) : HelmConfig :=
  let valuesFilePath := tryDiscoverValuesFile baseFolder path w in
  {| h_Name := tryFetchNameFromChartFile baseFolder path w; h_Path := path; h_Repo := ""; h_Chart := "";
     h_FluxFile := ""; h_Version := ""; h_ValuesFile := valuesFilePath; h_ValuesFiles := [];
     h_Values := if decide (valuesFilePath <> "") then None else Some ∅ |}.

Definition toHelmConfigs (baseFolder : string) (helmPaths : list string) (w : W) : list HelmConfig :=
  helm_config baseFolder w <$> helmPaths.

(** The names that are used again, in order, which are warned about. *)
Fixpoint duplicated_names (visited : gset string) (l : list HelmConfig) : list string :=
  match l with
  | [] => []
  | hc :: l' => if decide (h_Name hc ∈ visited) then h_Name hc :: duplicated_names visited l'
                else duplicated_names ({[h_Name hc]} ∪ visited) l'
  end.

Definition logDuplicatedHelmConfigNames (l : list HelmConfig) : list string := duplicated_names ∅ l.

Definition detected_configuration (basePath : string) (d : detected) (w : W) : Configuration :=
  {| CiModels.Images := CiModels.Images empty_configuration;
     Manifests := {| YamlPaths := d.1; Helm := toHelmConfigs basePath d.2 w |};
     Terraform := Terraform empty_configuration; Options := Options empty_configuration;
     Reports := Reports empty_configuration |}.

Definition ConfigFileAutoDetection (basePath : string) (w : W) : go (result string Configuration) :=
  '(d, err) ← Walk (detect_callback basePath) basePath (Lookup basePath w) ([], []);
  mret (match err with
        | Some e => Err e
        | None => Ok (detected_configuration basePath d w)
        end).
End world.
End detection.

(** * Properties *)

(** ** Pod specs *)

Lemma get_pod_spec_enough fuel yaml : depth (VMap yaml) < fuel -> get_pod_spec fuel yaml <> None.
Proof.
  revert yaml. induction fuel as [|fuel IH]; intros yaml Hd; [lia|]. cbn [get_pod_spec].
  destruct (first_field podSpecFields yaml) as [v|] eqn:E; [|done].
  destruct v as [| | | | |child]; try done. apply IH.
  unfold first_field in E. apply head_Some_elem_of, list_elem_of_omap in E as (f & _ & Hf).
  apply depth_lookup in Hf. lia.
Qed.

Lemma get_pod_spec_mono fuel yaml r : get_pod_spec fuel yaml = Some r -> get_pod_spec (S fuel) yaml = Some r.
Proof.
  revert yaml. induction fuel as [|fuel IH]; intros yaml H; [done|]. cbn [get_pod_spec] in H.
  change (get_pod_spec (S (S fuel)) yaml) with
    (match first_field podSpecFields yaml with
     | Some (VMap child) => get_pod_spec (S fuel) child
     | Some _ => Some Panic
     | None => Some (Ret yaml)
     end).
  destruct (first_field podSpecFields yaml) as [[]|]; try done. by apply IH.
Qed.

Lemma get_pod_spec_le fuel fuel' yaml r :
  fuel <= fuel' -> get_pod_spec fuel yaml = Some r -> get_pod_spec fuel' yaml = Some r.
Proof. induction 1 as [|fuel' _ IH]; [done|]. intros H. by apply get_pod_spec_mono, IH. Qed.

(** The equation of the code's recursion, without fuel. *)
Lemma getPodSpec_unfold yaml :
  getPodSpec yaml = match first_field podSpecFields yaml with
                    | Some (VMap child) => getPodSpec child
                    | Some _ => Panic
                    | None => Ret yaml
                    end.
Proof.
  unfold getPodSpec at 1. cbn [get_pod_spec].
  destruct (first_field podSpecFields yaml) as [v|] eqn:E; [|done].
  destruct v as [| | | | |child]; try done. unfold getPodSpec.
  assert (Hd : depth (VMap child) < depth (VMap yaml)).
  { unfold first_field in E. apply head_Some_elem_of, list_elem_of_omap in E as (f & _ & Hf).
    by apply depth_lookup in Hf. }
  destruct (get_pod_spec (S (depth (VMap child))) child) as [r|] eqn:Hr.
  - apply (get_pod_spec_le _ (depth (VMap yaml))) in Hr; [by rewrite Hr|lia].
  - by apply get_pod_spec_enough in Hr; [|lia].
Qed.

(** A template that is there but empty ends the program. *)
Lemma null_spec_panics yaml :
  yaml !! "jobTemplate" = None -> yaml !! "spec" = Some VNil -> getPodSpec yaml = Panic.
Proof. intros H1 H2. rewrite getPodSpec_unfold. unfold first_field. simpl. by rewrite H1, H2. Qed.

(** ** Images and their owners *)

Lemma imageOwnersMap_lookup images n :
  default [] (imageOwnersMap images !! n) = mjoin (i_Owners <$> filter (fun i => i_Name i = n) images).
Proof.
  unfold imageOwnersMap. induction images as [|img l IH] using rev_ind; [done|].
  rewrite foldl_app, filter_app, fmap_app, join_app, <-IH. cbn [foldl].
  destruct (decide (i_Name img = n)) as [<-|Hn].
  - rewrite lookup_insert_eq, filter_cons_True by done. simpl. by rewrite app_nil_r.
  - rewrite lookup_insert_ne, filter_cons_False by done. simpl. by rewrite app_nil_r.
Qed.

Lemma imagesMap_lookup images n : imagesMap images !! n = last (filter (fun i => i_Name i = n) images).
Proof.
  unfold imagesMap. induction images as [|img l IH] using rev_ind; [done|].
  rewrite foldl_app, filter_app. cbn [foldl]. destruct (decide (i_Name img = n)) as [<-|Hn].
  - rewrite lookup_insert_eq, filter_cons_True by done. cbn [filter list_filter]. by rewrite last_snoc.
  - rewrite lookup_insert_ne, IH, filter_cons_False by done. cbn [filter list_filter]. by rewrite app_nil_r.
Qed.

Section dedup.
Context `{!RangeOrder string Image}.

Lemma dedupImages_names images : NoDup (i_Name <$> dedupImages images).
Proof.
  unfold dedupImages. rewrite <-list_fmap_compose.
  assert (H : forall kv, kv ∈ range_map (imagesMap images) -> i_Name kv.2 = kv.1).
  { intros [k i] Hk%elem_of_range_map. rewrite imagesMap_lookup in Hk. apply last_Some_elem_of in Hk.
    by apply list_elem_of_filter in Hk as [? _]. }
  pose proof (NoDup_fst_range_map (imagesMap images)) as Hnd.
  replace (compose i_Name _ <$> range_map (imagesMap images)) with ((range_map (imagesMap images)).*1); [done|].
  revert H. clear Hnd. induction (range_map (imagesMap images)) as [|kv l IH]; intros H; [done|].
  cbn [fmap list_fmap]. f_equal; [symmetry; apply H; left|]. apply IH. intros kv' Hkv'. apply H. by right.
Qed.

(** An image of the result has every owner of the images of its name, and no other. *)
Lemma dedupImages_owners images n o :
  (exists img, img ∈ dedupImages images /\ i_Name img = n /\ o ∈ i_Owners img)
  <-> exists img, img ∈ images /\ i_Name img = n /\ o ∈ i_Owners img.
Proof.
  assert (Hm : o ∈ mjoin (i_Owners <$> filter (fun i => i_Name i = n) images)
    <-> exists img, img ∈ images /\ i_Name img = n /\ o ∈ i_Owners img).
  { rewrite list_elem_of_join. split.
    - intros (os & Ho & (img & -> & [Hn Hi]%list_elem_of_filter)%list_elem_of_fmap). by exists img.
    - intros (img & Hi & Hn & Ho). exists (i_Owners img). split; [done|]. apply list_elem_of_fmap. exists img.
      split; [done|]. by apply list_elem_of_filter. }
  split.
  - intros (img & Hi & Hn & Ho). unfold dedupImages in Hi.
    apply list_elem_of_fmap in Hi as ([k i] & -> & Hk%elem_of_range_map). simpl in *.
    rewrite imagesMap_lookup in Hk. apply last_Some_elem_of, list_elem_of_filter in Hk as [Hik Hi]. subst k.
    rewrite Hn, imageOwnersMap_lookup in Ho. by apply Hm.
  - intros H. pose proof H as (img & Hi & Hn & _). apply Hm in H.
    destruct (last (filter (fun i => i_Name i = n) images)) as [i|] eqn:El.
    + pose proof El as El'. rewrite <-imagesMap_lookup in El. apply elem_of_range_map in El.
      apply last_Some_elem_of, list_elem_of_filter in El' as [Hin _].
      exists (set_owners (default [] (imageOwnersMap images !! n)) i). split; [|split].
      * unfold dedupImages. apply list_elem_of_fmap. by exists (n, i).
      * done.
      * simpl. by rewrite imageOwnersMap_lookup.
    + apply last_None in El. assert (img ∈ filter (fun i => i_Name i = n) images) as Hf by by apply list_elem_of_filter.
      rewrite El in Hf. by apply elem_of_nil in Hf.
Qed.
End dedup.

(** The owner that an image gets from a container of a resource. *)
Definition container_owner (r : CiModels.Resource) (name : string) : TrivyImages.Resource :=
  {| TrivyImages.Kind := r_Kind r; TrivyImages.Namespace := r_Namespace r; TrivyImages.ResName := r_Name r;
     TrivyImages.Container := name |}.

(** The owners of the images are the containers of the resources. *)
Definition linked (images : list Image) (resources : list CiModels.Resource) : Prop :=
  forall o, (exists img, img ∈ images /\ o ∈ i_Owners img)
            <-> exists r name, r ∈ resources /\ name ∈ r_Containers r /\ o = container_owner r name.

Lemma linked_app i1 i2 r1 r2 : linked i1 r1 -> linked i2 r2 -> linked (i1 ++ i2) (r1 ++ r2).
Proof. unfold linked. intros H1 H2 o. specialize (H1 o). specialize (H2 o). set_solver. Qed.

Lemma foldl_go_inv {A B} (P : A -> Prop) (f : go A -> B -> go A) l c c' :
  (forall b a a', P a -> f (Ret a) b = Ret a' -> P a') -> (forall b, f Panic b = Panic) ->
  P c -> foldl f (Ret c) l = Ret c' -> P c'.
Proof.
  intros Hf Hp. revert c. induction l as [|b l IH]; intros c Hc; simpl; [by intros [= <-]|].
  destruct (f (Ret c) b) as [c1|] eqn:E.
  - apply IH. by eapply Hf.
  - replace (foldl f Panic l) with (@Panic A); [done|]. clear -Hp. induction l; [done|]. simpl. by rewrite Hp.
Qed.

Lemma add_object_linked file helm obj c c' :
  linked (co_images c) (co_resources c) -> add_object file helm obj c = Ret c' ->
  linked (co_images c') (co_resources c').
Proof.
  intros Hc. unfold add_object. case_decide as Hm; [by intros [= <-]|].
  unfold processYamlNode. rewrite decide_False by done.
  intros ([imgs cs] & H & [= <-])%go_bind_ret. simpl.
  apply go_bind_ret in H as (ps & _ & H). apply go_bind_ret in H as (l & _ & [= <- <-]).
  apply linked_app; [done|]. intros o. split.
  - intros (img & (ct & -> & Hct)%list_elem_of_fmap & ->%list_elem_of_singleton).
    exists (resource_of (ExtractMetadata obj) file helm l), (c_Name ct). simpl. split; [by apply list_elem_of_singleton|].
    split; [by apply list_elem_of_fmap_2|done].
  - intros (r & name & ->%list_elem_of_singleton & (ct & -> & Hct)%list_elem_of_fmap & ->).
    exists (manifest_image (ExtractMetadata obj) ct). split; [by apply list_elem_of_fmap_2|by apply list_elem_of_singleton].
Qed.

Lemma add_document_linked file helm doc c c' :
  linked (co_images c) (co_resources c) -> add_document file helm doc c = Ret c' ->
  linked (co_images c') (co_resources c').
Proof.
  intros Hc. unfold add_document. destruct (to_string _) as [kind|]; [|by intros [= <-]].
  case_decide as Hk; [|by apply add_object_linked].
  intros (nodes & _ & H)%go_bind_ret. revert H.
  apply (foldl_go_inv (fun c => linked (co_images c) (co_resources c))); [|done|done].
  intros item a a' Ha. unfold add_item. simpl. by apply add_object_linked.
Qed.

Lemma add_documents_linked path file helm docs stop c c' :
  linked (co_images c) (co_resources c) -> add_documents path file helm docs stop c = Ret c' ->
  linked (co_images c') (co_resources c').
Proof.
  revert c. induction docs as [|[doc|e] docs IH]; intros c Hc; simpl.
  - destruct stop; by intros [= <-].
  - intros (c1 & H1 & H2)%go_bind_ret. eapply IH; [|done]. by eapply add_document_linked.
  - by intros [= <-].
Qed.

(** An invariant of the callback is one of the walk. *)
Lemma walk_inv {S E} (P : S -> Prop) (fn : walk_fn S E) :
  (forall path name n err s s' out, P s -> fn path name n err s = Ret (s', out) -> P s') ->
  forall n path name s s' out, P s -> walk fn path name n s = Ret (s', out) -> P s'.
Proof.
  intros Hfn n. induction n as [c|e|entries IH] using node_entries_ind; intros path name s s' out Hs; cbn [walk].
  - by apply Hfn.
  - by apply Hfn.
  - intros ([s1 out1] & H1 & H)%go_bind_ret. assert (Hs1 : P s1) by by eapply Hfn.
    destruct out1; [by injection H as <- <-|]. clear H1 Hs s. revert s1 Hs1 H.
    induction entries as [|[child n] l IHl]; intros s1 Hs1; [by intros [= <- <-]|].
    inversion IH as [|? ? IHc IHr]; subst. simpl in IHc.
    intros ([s2 out2] & H2 & H)%go_bind_ret. assert (Hs2 : P s2) by by eapply IHc.
    destruct out2 as [[|e]|]; [destruct (IsDir n)| |].
    + by eapply IHl.
    + by injection H as <- <-.
    + by injection H as <- <-.
    + by eapply IHl.
Qed.

Lemma Walk_inv {S E} (P : S -> Prop) (fn : walk_fn S E) root found s s' err :
  (forall path name n err s s' out, P s -> fn path name n err s = Ret (s', out) -> P s') ->
  P s -> Walk fn root found s = Ret (s', err) -> P s'.
Proof.
  intros Hfn Hs. unfold Walk. intros ([s1 out] & H1 & [= <- <-])%go_bind_ret. destruct found as [n|e].
  - by eapply walk_inv.
  - by eapply Hfn.
Qed.

Section properties.
Context (yaml_documents : string -> list (result string (gmap string value)) * option string).
Context (helms : list HelmConfig) (configFolder : string) `{!RangeOrder string Image}.

Lemma resources_callback_ok path name n err c c' out :
  resources_callback yaml_documents helms configFolder path name n err c = Ret (c', out) -> out = None.
Proof.
  unfold resources_callback. intros (m & _ & H)%go_bind_ret. by apply go_bind_ret in H as (c1 & _ & [= _ <-]).
Qed.

Lemma resources_callback_linked path name n err c c' out :
  linked (co_images c) (co_resources c) ->
  resources_callback yaml_documents helms configFolder path name n err c = Ret (c', out) ->
  linked (co_images c') (co_resources c').
Proof.
  intros Hc. unfold resources_callback. intros (m & _ & H)%go_bind_ret.
  apply go_bind_ret in H as (c1 & H & [= <- _]). unfold resources_step in H.
  destruct (is_yaml name); [|by injection H as <-]. unfold add_file in H.
  destruct (getDisplayFilenameAndHelmName _ _ _) as [[file helm]|e]; [|by injection H as <-].
  destruct m as [[content|e]|l]; [|by injection H as <-|by injection H as <-].
  destruct (yaml_documents content) as [docs stop]. by eapply add_documents_linked.
Qed.


(** Every YAML file below a folder that can be listed is read, in the order of the walk. *)
Lemma getAllResources_visits n :
  listable n ->
  getAllResources yaml_documents helms configFolder (Ok n) =
    c ← fold_visits (resources_step yaml_documents helms configFolder)
          (visits (fun _ _ _ => false) configFolder (Base configFolder) n)
          {| co_images := []; co_resources := []; co_errors := [] |};
    mret (Some (dedupImages (co_images c), co_resources c), co_errors c).
Proof.
  intros Hl. unfold getAllResources.
  rewrite (Walk_visits (fun _ _ _ => false) (resources_step yaml_documents helms configFolder)); [|intros|done].
  - by destruct (fold_visits _ _ _).
  - unfold resources_callback. simpl. destruct (resources_step _ _ _ _ _ _ _); simpl; [|done]. by rewrite andb_false_r.
Qed.

(** The configuration folder must be there. *)
Lemma missing_folder_panics e :
  getAllResources yaml_documents helms configFolder (Err e) = Panic.
Proof. done. Qed.

(** A List of Kubernetes has no name of its own: none of its items is seen. *)
Lemma kubernetes_List_ignored file helm doc c :
  to_string (doc !! "kind") = Some "List" -> m_name (ExtractMetadata doc) = "" -> add_document file helm doc c = Ret c.
Proof.
  intros Hk Hn. unfold add_document. rewrite Hk. rewrite decide_False by done. unfold add_object.
  by rewrite decide_True by (by right).
Qed.
End properties.

(** ** Auto-detection *)

Section reference.
Context (yaml_manifest : string -> result string KubernetesManifest).

Definition is_chart (n : node) : bool :=
  match isHelmBaseFolder "" n with Ok b => b | Err _ => false end.

Definition is_manifest (name : string) (n : node) : bool :=
  supported_file name && negb (isFluxManifest yaml_manifest n) && isKubernetesManifest yaml_manifest n.

(** The manifests outside hidden folders and charts, and the charts outside hidden
    folders and other charts, by the names that lead to them. *)
Fixpoint manifests_of (rel : list string) (name : string) (n : node) : list (list string) :=
  match n with
  | FileNode _ => if is_manifest name n then [rel] else []
  | DirNode (Err _) => []
  | DirNode (Ok entries) =>
      if HasPrefix name "." || is_chart n then []
      else mjoin ((fun e => manifests_of (rel ++ [e.1]) e.1 e.2) <$> entries)
  end.

Fixpoint charts_of (rel : list string) (name : string) (n : node) : list (list string) :=
  match n with
  | FileNode _ => []
  | DirNode (Err _) => []
  | DirNode (Ok entries) =>
      if HasPrefix name "." then []
      else if is_chart n then [rel]
      else mjoin ((fun e => charts_of (rel ++ [e.1]) e.1 e.2) <$> entries)
  end.

Definition rel_path (rel : list string) : string :=
  match rel with [] => "." | _ => Join rel "/" end.

Lemma mjoin_fmap_cons {A B} (f : A -> list B) x l : mjoin (f <$> x :: l) = f x ++ mjoin (f <$> l).
Proof. done. Qed.

Lemma walk_detect base n : forall path name rel d,
  listable n -> plain_tree n -> path <> "" ->
  IsAbs path = IsAbs base -> elements path = elements base ++ rel ->
  (IsDir n = true \/ supported_file path = supported_file name) ->
  walk (detect_callback yaml_manifest base) path name n d =
    Ret ((d.1 ++ (rel_path <$> manifests_of rel name n), d.2 ++ (rel_path <$> charts_of rel name n)),
         if IsDir n && (HasPrefix name "." || is_chart n) then Some SkipDir else None).
Proof.
  induction n as [c|e|entries IH] using node_entries_ind; intros path name rel d Hl Hp Hne Ha He Hs; [| done |].
  - destruct Hs as [?|Hs]; [done|]. cbn [walk manifests_of charts_of IsDir andb fmap list_fmap]. rewrite app_nil_r.
    unfold detect_callback. cbn [deref IsDir mbind go_bind]. rewrite Hs. fold (is_manifest name (FileNode c)).
    rewrite (Rel_below base path rel) by done. fold (rel_path rel).
    destruct (is_manifest name (FileNode c)); [done|]. simpl. rewrite app_nil_r. by destruct d.
  - assert (Hcb : detect_callback yaml_manifest base path name (Some (DirNode (Ok entries))) None d =
      if HasPrefix name "." then Ret (d, Some SkipDir)
      else if is_chart (DirNode (Ok entries)) then Ret ((d.1, d.2 ++ [rel_path rel]), Some SkipDir)
      else Ret (d, None)).
    { unfold detect_callback. cbn [deref IsDir mbind go_bind].
      rewrite (Rel_below base path rel) by done. done. }
    cbn [walk manifests_of charts_of IsDir andb]. rewrite Hcb. clear Hcb.
    destruct (HasPrefix name "."); [cbn; rewrite !app_nil_r; by destruct d|].
    destruct (is_chart (DirNode (Ok entries))); cbn [orb]; [cbn; by rewrite app_nil_r|]. cbn [mbind go_bind].
    apply listable_entries in Hl. apply plain_tree_entries in Hp. clear Hs. revert d.
    induction entries as [|[child n] l IHl]; intros d; [cbn; rewrite !app_nil_r; by destruct d|].
    inversion IH as [|? ? IHc IHr]; subst. inversion Hl as [|? ? Hlc Hlr]; subst.
    inversion Hp as [|? ? [Hpn Hpc] Hpr]; subst. cbn [fst snd] in *.
    destruct (PathJoin_facts path child Hne Hpn) as (Hja & Hje & Hjb).
    assert (Hext : forall q, after_last q "/" = child -> supported_file q = supported_file child).
    { intros q Hq. unfold supported_file, Ext. rewrite Hq. destruct Hpn as (_ & _ & _ & Hpn).
      assert (after_last child "/" = child) as Hac; [|by rewrite Hac].
      unfold after_last. by rewrite LastIndex_none. }
    rewrite (IHc (PathJoin path child) child (rel ++ [child])); [|done|done| |by rewrite Hja|by rewrite Hje, He, app_assoc|right; by apply Hext].
    2:{ intros E. rewrite E in Hjb. destruct Hpn as [Hcn _]. by rewrite <-Hjb in Hcn. }
    cbn [mbind go_bind]. rewrite !mjoin_fmap_cons, !fmap_app, !app_assoc. cbn [fst snd].
    destruct (IsDir n && _) eqn:Hd; [apply andb_prop in Hd as [-> _]|]; rewrite IHl by done; done.
Qed.
End reference.

Section detection_properties.
Context (yaml_manifest : string -> result string KubernetesManifest).
Context (yaml_object : string -> result string (gmap string value)).
Context {W : Type} `{!Files W}.

(** C31. Auto-detection of a repository whose folders can be listed returns, and the configuration names exactly the
    manifests that are not below a hidden folder or a chart and are not those of Flux, and exactly the outermost charts
    that are not below a hidden folder, each by its path relative to the repository, in the order of the walk. *)
Theorem auto_detection_reference basePath entries (w : W) :
  basePath <> "" -> Lookup basePath w = Ok (DirNode (Ok entries)) ->
  listable (DirNode (Ok entries)) -> plain_tree (DirNode (Ok entries)) ->
  exists config, ConfigFileAutoDetection yaml_manifest yaml_object basePath w = Ret (Ok config)
    /\ YamlPaths (Manifests config)
       = rel_path <$> manifests_of yaml_manifest [] (Base basePath) (DirNode (Ok entries))
    /\ h_Path <$> Helm (Manifests config) = rel_path <$> charts_of [] (Base basePath) (DirNode (Ok entries))
    /\ Options config = Options empty_configuration /\ Reports config = Reports empty_configuration.
Proof.
  intros Hb Hw Hl Hp. unfold ConfigFileAutoDetection, Walk. rewrite Hw.
  rewrite (walk_detect yaml_manifest basePath _ basePath (Base basePath) []);
    [|done|done|done|done|by rewrite app_nil_r|by left].
  set (n := DirNode (Ok entries)).
  exists (detected_configuration yaml_object basePath
    (rel_path <$> manifests_of yaml_manifest [] (Base basePath) n, rel_path <$> charts_of [] (Base basePath) n) w).
  split; [by destruct (IsDir n && _)|].
  simpl. unfold toHelmConfigs. split_and!; [done| |done|done].
  rewrite <-list_fmap_compose. by rewrite <-(list_fmap_id (rel_path <$> _)) at 2.
Qed.

(** Without a path, as for a repository that is not cloned, nothing can be walked. *)
Theorem auto_detection_of_no_path e (w : W) :
  Lookup "" w = Err e ->
  ConfigFileAutoDetection yaml_manifest yaml_object "" w = Ret (Err ("Could not walk into dir: " +:+ pe_Text e)).
Proof. intros H. unfold ConfigFileAutoDetection, Walk. by rewrite H. Qed.
End detection_properties.

(** A repository with a manifest, a chart and a hidden folder. *)
Module Witness.
Definition manifest (content : string) : result string KubernetesManifest :=
  if decide (content = "deployment") then Ok {| km_ApiVersion := Some "apps/v1"; km_Kind := Some "Deployment" |}
  else if decide (content = "flux") then
    Ok {| km_ApiVersion := Some "helm.toolkit.fluxcd.io/v2"; km_Kind := Some "HelmRelease" |}
  else Err "not a manifest".
Definition object (content : string) : result string (gmap string value) :=
  if decide (content = "chart") then Ok {["name" := VString "shop"]} else Ok ∅.

Definition file (content : string) : node := FileNode (Ok content).

Definition repository : list (string * node) :=
  [(".github", DirNode (Ok [("ci.yaml", file "deployment")]));
   ("README.md", file "text");
   ("chart", DirNode (Ok [("Chart.yaml", file "chart"); ("web.yaml", file "deployment")]));
   ("deploy", DirNode (Ok [("flux.yaml", file "flux"); ("web.yaml", file "deployment")]))].

#[local] Instance files : Files unit := {|
  Lookup p _ := if decide (p = "/app/repo") then Ok (DirNode (Ok repository))
                else if decide (p = "/app/repo/chart/Chart.yaml") then Ok (file "chart")
                else Err {| pe_NotExist := true; pe_Text := "no such file or directory" |};
  WriteFile _ _ w := (w, None); MkdirAll _ w := (w, None); RemoveAll _ w := (w, None); Remove _ w := (w, None)
|}.

Lemma auto_detection_reference_witness :
  manifests_of manifest [] "repo" (DirNode (Ok repository)) = [["deploy"; "web.yaml"]] /\
  exists config, ConfigFileAutoDetection manifest object "/app/repo" tt = Ret (Ok config)
    /\ YamlPaths (Manifests config) = ["deploy/web.yaml"]
    /\ h_Path <$> Helm (Manifests config) = ["chart"].
Proof.
  split; [vm_compute; reflexivity|].
  destruct (auto_detection_reference manifest object "/app/repo" repository tt) as (config & H & Hy & Hh & _).
  - done.
  - reflexivity.
  - cbn. tauto.
  - cbn. unfold plain_name. cbn [fst snd]. repeat split; try discriminate;
      match goal with |- _ ∉ _ => apply (bool_decide_unpack _); vm_compute; exact I | _ => idtac end.
  - exists config. split; [exact H|]. split; [rewrite Hy; vm_compute; reflexivity|rewrite Hh; vm_compute; reflexivity].
Defined.

#[local] Instance images_order : RangeOrder string Image := canonical_order.

(** Two workloads that share an image, in two documents. *)
Definition workload (kind name : string) : gmap string value :=
  {["kind" := VString kind;
    "metadata" := VMap {["name" := VString name]};
    "spec" := VMap {["template" := VMap {["spec" := VMap
      {["containers" := VArray [VMap {["name" := VString "main"; "image" := VString "nginx:1"]}]]}]}]}]}.

Definition documents (content : string) : list (result string (gmap string value)) * option string :=
  ([Ok (workload "Deployment" "a"); Ok (workload "StatefulSet" "b")], None).

Definition manifests : node := DirNode (Ok [("web.yaml", file "")]).


Lemma auto_detection_of_no_path_witness :
  ConfigFileAutoDetection manifest object "" tt = Ret (Err "Could not walk into dir: no such file or directory").
Proof. exact (auto_detection_of_no_path manifest object {| pe_NotExist := true; pe_Text := "no such file or directory" |} tt eq_refl). Defined.
End Witness.
