(* ===== verification/CiCommands.v ===== *)
(** * ci: commands and charts

    [ci/pkg/commands/] and [pkg/ci/helm.go]: running commands, rendering Helm
    charts into the folder of manifests with their values, and copying YAML files
    there.  The commands themselves and YAML are parameters. *)

From stdpp Require Import base decidable list gmap strings.
From Stdlib Require Import ZArith Lia Ascii.
From S2P Require Import Prelude GoStrings GoText GoValues GoFiles TrivyScan CiModels.

(** ** Commands *)

Section commands.
Context {W : Type} `{!Commands W}.

(** [cmd.String()]. *)
Definition cmd_string (name : string) (args : list string) : string := Join (LookPath name :: args) " ".

(** What is logged of a command that failed, with its secrets removed: the removal can
    panic. *)
Definition log_failure (name : string) (args : list string) (err : string) : io W unit :=
  _ ← pure_go (RemoveTokensAndPassword (cmd_string name args));
  _ ← pure_go (RemoveTokensAndPassword err);
  mret tt.

(** Standard output, or both outputs or nothing when the command fails. *)
Definition run_logged (dir : string) (with_output : bool) (name : string) (args : list string)
    : io W (string * option string) :=
  r ← effect (Run dir name args);
  let '(stdout, stderr, err) := r in
  match err with
  | None => mret (stdout, None)
  | Some e =>
      _ ← log_failure name args e;
      mret (if with_output then stdout +:+ newline +:+ stderr else "", Some e)
  end.

Definition ExecInDir (dir name : string) (args : list string) : io W (string * option string) :=
  run_logged dir false name args.

Definition ExecWithMessage (name : string) (args : list string) : io W (string * option string) :=
  run_logged "" true name args.

Definition Exec (name : string) (args : list string) : io W (string * option string) :=
  run_logged "" false name args.
End commands.

(** ** Charts *)

Record helmValuesFile : Type := { vf_path : string; vf_tmp : bool }.

(** What is read of a Flux release: chart, version, values, and how many
    [valuesFrom]. *)
Record HelmReleaseModel : Type := {
  hr_Chart : string;
  hr_Version : string;
  hr_Values : nilmap value;
  hr_ValuesFrom : nat
}.

Definition map_len (m : nilmap value) : nat := from_ptr 0 size m.

Section helm.
Context {W F : Type} `{!Files W} `{!Commands W} `{!FloatZero F}.
Context (yaml_values : gmap string value -> result string string).
Context (yaml_release : string -> result string HelmReleaseModel).

Definition plain (text : string) : option (ci_error F) := Some (Plain text).

(** An error of a chart, with its file and a remediation. *)
Definition chart_error (message context : string) (helm : HelmConfig) (file remediation : string) : option (ci_error F) :=
  Some (ScanError (with_file file remediation (scan_error message context "HelmChart" (h_Name helm)))).

(** Writes values to a file of the temporary folder, when there are any. *)
Definition write_values (values : nilmap value) (tempFolder name : string) : io W (result string (list helmValuesFile)) :=
  match values with
  | None => mret (Ok [])
  | Some m =>
      if decide (m = ∅) then mret (Ok [])
      else
        let path := PathJoin tempFolder name in
        match yaml_values m with
        | Err e => mret (Err e)
        | Ok yaml =>
            err ← effect (WriteFile path yaml);
            mret (match err with
                  | Some e => Err e
                  | None => Ok [{| vf_path := path; vf_tmp := true |}]
                  end)
        end
  end.

(** The values of the Flux release, of the files and of the configuration, the later
    ones overriding the earlier ones. *)
Definition processHelmValues (helm : HelmConfig) (fluxValues : nilmap value) (tempFolder : string)
    : io W (result string (list helmValuesFile)) :=
  flux ← write_values fluxValues tempFolder "flux-helm-values.yaml";
  match flux with
  | Err e => mret (Err e)
  | Ok fluxFiles =>
      let given path := {| vf_path := path; vf_tmp := false |} in
      let files := (if decide (h_ValuesFile helm <> "") then [given (h_ValuesFile helm)] else [])
                   ++ (given <$> h_ValuesFiles helm) in
      inline ← write_values (h_Values helm) tempFolder "fairwinds-insights-helm-values.yaml";
      mret (match inline with
            | Err e => Err e
            | Ok inlineFiles => Ok (fluxFiles ++ files ++ inlineFiles)
            end)
  end.

Definition values_args (repoPath : string) (files : list helmValuesFile) : list string :=
  files ≫= fun vf => ["-f"; if vf_tmp vf then vf_path vf else PathJoin repoPath (vf_path vf)].

Definition doHandleLocalHelmChart (helm : HelmConfig) (repoPath helmPath : string) (helmValuesFiles : list helmValuesFile)
    (configFolder : string) : io W (option (ci_error F)) :=
  let fullHelmPath := PathJoin repoPath helmPath in
  let cleanHelmPath := Clean helmPath in
  '(output, err) ← ExecWithMessage "helm" ["dependency"; "update"; fullHelmPath];
  match err with
  | Some e =>
      mret (chart_error (e +:+ ": " +:+ output) ("updating dependencies for helm chart " +:+ h_Name helm) helm cleanHelmPath
        "Examine the Chart.yaml file for errors in the dependency specification, or invalid dependencies. See also, https://helm.sh/docs/helm/helm_dependency/")
  | None =>
      let params := ["template"; h_Name helm; fullHelmPath; "--output-dir"; configFolder +:+ h_Name helm]
                    ++ values_args repoPath helmValuesFiles in
      '(output, err) ← ExecWithMessage "helm" params;
      match err with
      | Some e =>
          mret (chart_error (e +:+ ": " +:+ output) ("templating helm chart " +:+ h_Name helm) helm cleanHelmPath
            "Examine the Helm template, values files, and any inline values that may be specified in fairwinds-insights.yaml, for syntax errors that cause the `helm template` command to fail.")
      | None => mret None
      end
  end.

Definition handleLocalHelmChart (helm : HelmConfig) (baseRepoFolder tempFolder configFolder : string)
    : io W (option (ci_error F)) :=
  if decide (h_Name helm = "" \/ h_Path helm = "")
  then mret (plain "Parameters 'name' and 'path' are required in helm definition")
  else
    files ← processHelmValues helm None tempFolder;
    match files with
    | Err e => mret (chart_error e "processing helm values files" helm (h_Name helm) "")
    | Ok files => doHandleLocalHelmChart helm baseRepoFolder (h_Path helm) files configFolder
    end.

Definition doHandleRemoteHelmChart (helm : HelmConfig) (chartName chartVersion : string) (fluxValues : nilmap value)
    (tempFolder configFolder : string) : io W (option (ci_error F)) :=
  let repoName := h_Name helm +:+ "-" +:+ chartName +:+ "-repo" in
  '(output, err) ← ExecWithMessage "helm" ["repo"; "add"; repoName; h_Repo helm];
  match err with
  | Some e => mret (chart_error (e +:+ ": " +:+ output) ("adding helm repository " +:+ Quote (h_Repo helm)) helm (h_Name helm)
                      "Verify that the helm repository is valid.")
  | None =>
      let repoDownloadPath := tempFolder +:+ "/downloaded-charts/" +:+ repoName +:+ "/" in
      let params := ["fetch"; repoName +:+ "/" +:+ chartName; "--untar"; "--destination"; repoDownloadPath]
                    ++ (if decide (chartVersion <> "") then ["--version"; chartVersion] else []) in
      let versionDisplay := if decide (chartVersion <> "") then "version " +:+ chartVersion else "the latest version" in
      '(output, err) ← ExecWithMessage "helm" params;
      match err with
      | Some e => mret (chart_error (e +:+ ": " +:+ output)
                          ("fetching " +:+ versionDisplay +:+ " of the helm chart " +:+ chartName +:+ " from " +:+ repoName)
                          helm (h_Name helm)
                          "Verify that this version of the helm chart is available in the helm repository.")
      | None =>
          files ← processHelmValues helm fluxValues tempFolder;
          match files with
          | Err e => mret (chart_error e "processing helm values files" helm (h_Name helm) "")
          | Ok files => doHandleLocalHelmChart helm "" (repoDownloadPath +:+ chartName) files configFolder
          end
      end
  end.

Definition handleRemoteHelmChart (helm : HelmConfig) (tempFolder configFolder : string) : io W (option (ci_error F)) :=
  if decide (h_Name helm = "" \/ h_Chart helm = "" \/ h_Repo helm = "")
  then mret (plain "Parameters 'name', 'repo' and 'chart' are required in helm definition")
  else doHandleRemoteHelmChart helm (h_Chart helm) (h_Version helm) None tempFolder configFolder.

Definition handleFluxHelmChart (helm : HelmConfig) (baseRepoFolder tempFolder configFolder : string)
    : io W (option (ci_error F)) :=
  if decide (h_Name helm = "" \/ h_Repo helm = "")
  then mret (plain "Parameters 'name', 'repo' are required when using fluxFile")
  else
    content ← asks (ReadPath (PathJoin baseRepoFolder (h_FluxFile helm)));
    match content with
    | Err e => mret (plain ("Unable to open file " +:+ h_FluxFile helm +:+ ": " +:+ pe_Text e))
    | Ok content =>
        match yaml_release content with
        | Err e => mret (plain ("Unable to unmarshal file " +:+ h_FluxFile helm +:+ ": " +:+ e))
        | Ok r =>
            if decide (hr_Chart r = "")
            then mret (plain ("Could not find required spec.chart.spec.chart in fluxFile " +:+ h_FluxFile helm))
            else doHandleRemoteHelmChart helm (hr_Chart r) (hr_Version r) (hr_Values r) tempFolder configFolder
        end
    end.

(** One chart of the configuration; a chart both local and remote is reported and
    rendered as a local one. *)
Definition process_chart (repoBaseFolder tempFolder configFolder : string) (helm : HelmConfig)
    (errs : list (ci_error F)) : io W (list (ci_error F)) :=
  let errs :=
    if IsLocal helm && IsRemote helm then
      errs ++ [Plain ("Error in helm definition " +:+ h_Name helm
                      +:+ " - It is not possible to use both 'path' and 'repo' simultaneously")]
    else errs in
  err ← (if IsLocal helm then handleLocalHelmChart helm repoBaseFolder tempFolder configFolder
         else if IsRemote helm then
           if IsFluxFile helm then handleFluxHelmChart helm repoBaseFolder tempFolder configFolder
           else handleRemoteHelmChart helm tempFolder configFolder
         else mret (plain ("Could not determine the type of helm config.: " +:+ h_Name helm)));
  mret (match err with Some e => errs ++ [e] | None => errs end).

(** [multierror.ErrorOrNil]. *)
Definition ErrorOrNil (errs : list (ci_error F)) : option (ci_error F) :=
  match errs with [] => None | _ => Some (Multi errs) end.

Definition ProcessHelmTemplates (c : Configuration) (repoBaseFolder configFolder : string) : io W (option (ci_error F)) :=
  errs ← for_each (process_chart repoBaseFolder (TempFolder (Options c)) configFolder) (Helm (Manifests c)) [];
  mret (ErrorOrNil errs).

(** ** YAML files *)

(** The folder part of [filepath.Split]. *)
Definition split_dir (p : string) : string :=
  match LastIndex p "/" with
  | Some i => slice_to (S i) p
  | None => ""
  end.

Definition createDestinationFolderIfNotExists (configFolder relYamlPath : string) : io W (string * option string) :=
  let targetFolder := PathJoin configFolder (split_dir relYamlPath) in
  '(_, err) ← ExecWithMessage "mkdir" ["-p"; targetFolder];
  mret (targetFolder, err).

Definition count_failure (err : option string) : Z := from_ptr 0%Z (fun _ => 1%Z) err.

(** The copy is tried even when its folder could not be made. *)
Definition copy_file (repoBaseFolder configFolder yamlPath : string) (numFailures : Z) : io W Z :=
  '(destFolder, err) ← createDestinationFolderIfNotExists configFolder yamlPath;
  '(_, err') ← ExecWithMessage "cp" ["-r"; PathJoin repoBaseFolder yamlPath; destFolder];
  mret (numFailures + count_failure err + count_failure err')%Z.

Definition CopyYaml (c : Configuration) (repoBaseFolder configFolder : string) : io W (option string) :=
  let paths := YamlPaths (Manifests c) in
  numFailures ← for_each (copy_file repoBaseFolder configFolder) paths 0%Z;
  mret (if (numFailures =? 0)%Z then None
        else Some (fmt_d numFailures +:+ " of " +:+ fmt_d (lenZ paths)
                   +:+ " yaml files failed to be copied to the config directory, see logs for the individual error messages")).
End helm.

(** * Properties *)

Section properties.
Context {W F : Type} `{!Files W} `{!Commands W} `{!FloatZero F}.
Context (yaml_values : gmap string value -> result string string).

Definition given (path : string) : helmValuesFile := {| vf_path := path; vf_tmp := false |}.

Lemma write_values_spec values tempFolder name (w w' : W) r :
  runs (write_values yaml_values values tempFolder name) w w' r ->
  match r with
  | Ok files => files = if bool_decide (map_len values = 0) then []
                        else [{| vf_path := PathJoin tempFolder name; vf_tmp := true |}]
  | Err _ => map_len values <> 0
  end.
Proof.
  unfold write_values. destruct values as [m|]; [|by intros [_ ->]%runs_ret]. unfold map_len, from_ptr.
  case_decide as Hm; [intros [_ ->]%runs_ret; by rewrite Hm, map_size_empty|].
  assert (size m <> 0) as Hs by (intros E; by apply map_size_empty_inv in E).
  destruct (yaml_values m) as [yaml|e]; [|by intros [_ ->]%runs_ret].
  intros (w1 & [e|] & _ & [_ ->]%runs_ret)%runs_bind; [done|]. by rewrite bool_decide_eq_false_2.
Qed.

(** The files given to Helm, in the order in which they override each other: the values of the Flux release, the one
    file, the list of files, and last the values in the configuration. *)
Lemma processHelmValues_order helm fluxValues tempFolder (w w' : W) files :
  runs (processHelmValues yaml_values helm fluxValues tempFolder) w w' (Ok files) ->
  exists flux inline, files = flux ++ (if decide (h_ValuesFile helm <> "") then [given (h_ValuesFile helm)] else [])
                              ++ (given <$> h_ValuesFiles helm) ++ inline
    /\ length flux <= 1 /\ length inline <= 1
    /\ (inline = [] <-> map_len (h_Values helm) = 0) /\ (flux = [] <-> map_len fluxValues = 0).
Proof.
  unfold processHelmValues. intros (w1 & r1 & H1%write_values_spec & H)%runs_bind.
  destruct r1 as [flux|e]; [|by apply runs_ret in H as [_ ?]].
  apply runs_bind in H as (w2 & r2 & H2%write_values_spec & [_ H]%runs_ret).
  destruct r2 as [inline|e]; [|done]. injection H as ->. exists flux, inline.
  subst. split; [by rewrite <-app_assoc|].
  repeat (case_bool_decide; simpl); repeat split; try done; lia.
Qed.

(** *** Copying *)

Lemma count_failure_nonneg err : (0 <= count_failure err)%Z.
Proof. by destruct err. Qed.

Lemma for_each_nonneg (f : string -> Z -> io W Z) l (w w' : W) s s' :
  (forall x s w w' s', runs (f x s) w w' s' -> (s <= s')%Z) -> runs (for_each f l s) w w' s' -> (s <= s')%Z.
Proof.
  intros Hf. apply (for_each_inv (fun _ s1 _ => (s <= s1)%Z)); [|lia].
  intros _ x s1 w1 s2 w2 H1 H2%Hf. lia.
Qed.

(** A chart that is neither local nor remote is an error, and one that is both is another. *)
Lemma undetermined_chart_reported yaml_release repoBase temp folder helm errs (w : W) :
  IsLocal helm = false -> IsRemote helm = false ->
  runs (process_chart (F := F) yaml_values yaml_release repoBase temp folder helm errs) w w
    (errs ++ [Plain ("Could not determine the type of helm config.: " +:+ h_Name helm)]).
Proof. intros Hl Hr. unfold process_chart. rewrite Hl, Hr. done. Qed.
End properties.

(** Two failures of one file are counted as two files: the message says 2 of 1. *)
Module Witness.
Definition no_chart : HelmConfig :=
  {| h_Name := ""; h_Path := ""; h_Repo := ""; h_Chart := ""; h_FluxFile := ""; h_Version := ""; h_ValuesFile := "";
     h_ValuesFiles := []; h_Values := None |}.

#[local] Instance failing : Commands unit := {|
  LookPath name := name;
  Run _ _ _ w := (w, ("", "No space left on device", Some "exit status 1"));
  RunCombined _ _ w := (w, ("", Some "exit status 1"))
|}.

Example two_of_one :
  CopyYaml {| Images := Images empty_configuration; Manifests := {| YamlPaths := ["web.yaml"]; Helm := [no_chart] |};
              Terraform := Terraform empty_configuration; Options := Options empty_configuration;
              Reports := Reports empty_configuration |} "." "/tmp/configuration/" tt
  = Ret (tt, Some "2 of 1 yaml files failed to be copied to the config directory, see logs for the individual error messages").
Proof. vm_compute. reflexivity. Qed.
End Witness.
