(* ===== verification/CiImages.v ===== *)
(** * ci: images

    [ci/pkg/ci/trivy.go]: the archives of a folder, downloading the images that
    have none, merging archives with the images of manifests, scanning them and
    the report.  Tar archives, JSON and the scanner are parameters. *)

From stdpp Require Import base decidable list gmap strings.
From Stdlib Require Import ZArith Lia Ascii.
From S2P Require Import Prelude GoStrings GoText GoValues GoFiles TrivyImages TrivyScan CiModels CiCommands.

Local Open Scope Z_scope.

Record DockerImage : Type := { di_Name : string; di_PullRef : string }.

(** Runs of other characters become one underscore each. *)
Definition alphanumeric (c : ascii) : bool :=
  is_upper c || is_lower c || bool_decide (c = " "%char) || from_ptr false (fun _ => true) (digit_value c).

Fixpoint clear_runs (inside : bool) (l : list ascii) : list ascii :=
  match l with
  | [] => []
  | c :: l' => if alphanumeric c then c :: clear_runs false l'
               else (if inside then [] else ["_"%char]) ++ clear_runs true l'
  end.

Definition clearString (s : string) : string := str (clear_runs false (chars s)).

Definition set_pull_ref (ref : string) (i : Image) : Image :=
  {| i_Name := i_Name i; i_ID := i_ID i; i_PullRef := ref; i_Owners := i_Owners i;
     i_RecommendationOnly := i_RecommendationOnly i |}.

Definition set_docker_ref (ref : string) (d : DockerImage) : DockerImage :=
  {| di_Name := di_Name d; di_PullRef := ref |}.

(** ** Archives *)

Section archives.
(** The entries of a tar archive with what reading each gives, up to the end or an error; JSON. *)
Context (tar_entries : string -> list (string * result string string) * option string).
Context (json_value : string -> result string value).

(** [json.Unmarshal] into a slice. *)
Definition json_array (text : string) : result string (list value) :=
  match json_value text with
  | Ok (VArray l) => Ok l
  | Ok VNil => Ok []
  | Ok _ => Err "json: cannot unmarshal into Go value of type []interface {}"
  | Err e => Err e
  end.

Definition as_map (v : option value) : go (gmap string value) := deref (to_map v).

(** The first entry with a name that is not nil gives the hash. *)
Fixpoint find_image_sha (configFileName : string) (entries : list (string * result string string)) (stop : option string)
    : go (result string string) :=
  match entries with
  | [] => Ret (match stop with Some e => Err e | None => Ok "" end)
  | (name, content) :: rest =>
      if negb (bool_decide (name = configFileName)) then find_image_sha configFileName rest stop
      else match content with
           | Err e => Ret (Err e)
           | Ok text =>
               match json_value text with
               | Err e => Ret (Err e)
               | Ok jsonBody =>
                   body ← as_map (Some jsonBody);
                   cfg ← as_map (body !! "config"%string);
                   match cfg !! "Image"%string with
                   | None | Some VNil => find_image_sha configFileName rest stop
                   | Some (VString sha) => Ret (Ok sha)
                   | Some _ => Ret (Ok "")
                   end
               end
           end
  end.

Definition getImageSha (content configFileName : string) : go (result string string) :=
  let '(entries, stop) := tar_entries content in find_image_sha configFileName entries stop.

(** The name of the configuration is that of the last definition, empty when it has none. *)
Definition image_definition (acc : string * list string) (imageDef : value) : go (string * list string) :=
  d ← as_map (Some imageDef);
  match to_string (d !! "Config"%string) with
  | None => Ret (""%string, acc.2)
  | Some configFileName =>
      match to_array (d !! "RepoTags"%string) with
      | None => Ret (configFileName, acc.2)
      | Some repoTags =>
          tags ← mapM (fun tag => deref (to_string (Some tag))) repoTags;
          mret (configFileName, acc.2 ++ tags)
      end
  end.

Definition image_definitions (l : list value) : go (string * list string) :=
  foldl (fun acc d => acc ← acc; image_definition acc d) (Ret (""%string, [])) l.

Fixpoint find_manifest (content : string) (entries : list (string * result string string)) (stop : option string)
    : go (result string (string * list string)) :=
  match entries with
  | [] => Ret (match stop with Some e => Err e | None => Ok (""%string, []) end)
  | (name, text) :: rest =>
      if negb (bool_decide (name = "manifest.json"%string)) then find_manifest content rest stop
      else match text with
           | Err e => Ret (Err e)
           | Ok text =>
               match json_array text with
               | Err e => Ret (Err e)
               | Ok defs =>
                   '(configFileName, allRepoTags) ← image_definitions defs;
                   sha ← getImageSha content configFileName;
                   mret (match sha with Err e => Err e | Ok sha => Ok (sha, allRepoTags) end)
               end
           end
  end.

Definition getShaAndRepoTags (n : node) : go (result string (string * list string)) :=
  match read_node n with
  | Err e => Ret (Err (pe_Text e))
  | Ok content => let '(entries, stop) := tar_entries content in find_manifest content entries stop
  end.

(** The callback gets the file's name, the hash and the tags. *)
Definition images_callback {S} (cb : string -> string -> list string -> S -> go S)
    (path name : string) (info : option node) (err : option path_error) (s : S) : go (S * option (walk_error string)) :=
  match err with
  | Some e => Ret (s, Some (WalkError (pe_Text e)))
  | None =>
      n ← deref info;
      if IsDir n then Ret (s, None)
      else
        r ← getShaAndRepoTags n;
        match r with
        | Err e => Ret (s, Some (WalkError e))
        | Ok (sha, repoTags) => s ← cb name sha repoTags s; mret (s, None)
        end
  end.

Definition walkImages {S} (folderPath : string) (found : result path_error node)
    (cb : string -> string -> list string -> S -> go S) (s : S) : go (S * option string) :=
  Walk (images_callback cb) folderPath found s.

(** *** Images that are already there *)

Definition downloaded {A} (name : A -> string) (set : string -> A -> A) (filename : string) (repoTags : list string)
    (l : list A) : list A :=
  (fun i => if decide (name i ∈ repoTags) then set filename i else i) <$> l.

Definition mark_downloaded (filename sha : string) (repoTags : list string) (s : list DockerImage * list Image)
    : go (list DockerImage * list Image) :=
  Ret (downloaded di_Name set_docker_ref filename repoTags s.1, downloaded i_Name set_pull_ref filename repoTags s.2).

Definition updatePullRef (folderPath : string) (found : result path_error node) (dockerImages : list DockerImage)
    (manifestImages : list Image) : go (result string (list DockerImage * list Image)) :=
  '(s, err) ← walkImages folderPath found mark_downloaded (dockerImages, manifestImages);
  mret (match err with Some e => Err e | None => Ok s end).

(** *** Merging

    A copy of a manifest's image shares its owners with it: the first owner's name
    is written through both.  An entry keeps the position of the image that it is a
    copy of, and reads its owners when the walk is over. *)
Record merge_state : Type := { ms_manifest : list Image; ms_all : list (Image * option nat) }.

Fixpoint find_by_ref (filename : string) (i : nat) (l : list Image) : option (nat * Image) :=
  match l with
  | [] => None
  | im :: l' => if decide (i_PullRef im = filename) then Some (i, im) else find_by_ref filename (S i) l'
  end.

Definition determineOwnerName (n : string) (dockerImages : list DockerImage) : string :=
  if existsb (fun di => bool_decide (di_Name di = n)) dockerImages then "fairwinds-insights.yaml"
  else match Split n ":" with
       | repo :: _ :: _ => repo
       | _ => ""
       end.

Definition archive_image (filename : string) (filenameToImageName : gmap string string) (dockerImages : list DockerImage)
    : Image :=
  let '(name, ownerName) :=
    match filenameToImageName !! filename with
    | Some n => (n, determineOwnerName n dockerImages)
    | None => (""%string, ""%string)
    end in
  {| i_Name := name; i_ID := ""; i_PullRef := filename;
     i_Owners := [{| TrivyImages.Kind := "Image"; TrivyImages.Namespace := ""; TrivyImages.ResName := ownerName;
                     TrivyImages.Container := "" |}];
     i_RecommendationOnly := false |}.

(** [owners[0].Name = repo]. *)
Definition rename_first (repo : string) (owners : list TrivyImages.Resource) : go (list TrivyImages.Resource) :=
  match owners with
  | [] => Panic
  | o :: os => Ret ({| TrivyImages.Kind := TrivyImages.Kind o; TrivyImages.Namespace := TrivyImages.Namespace o;
                       TrivyImages.ResName := repo; TrivyImages.Container := TrivyImages.Container o |} :: os)
  end.

Definition with_identity (id name : string) (owners : list TrivyImages.Resource) (i : Image) : Image :=
  {| i_Name := name; i_ID := id; i_PullRef := i_PullRef i; i_Owners := owners;
     i_RecommendationOnly := i_RecommendationOnly i |}.

Definition untagged_id (name sha : string) : string :=
  let name := match Split name ":" with n :: _ :: _ => n | _ => name end in
  if decide (name = "") then sha else name +:+ "@" +:+ sha.

Definition repository (repoAndTag : string) : string := before_first repoAndTag ":".

Definition merge_archive (filenameToImageName : gmap string string) (dockerImages : list DockerImage)
    (filename sha : string) (repoTags : list string) (s : merge_state) : go merge_state :=
  let '(image, source) :=
    match find_by_ref filename 0 (ms_manifest s) with
    | Some (i, im) => (im, Some i)
    | None => (archive_image filename filenameToImageName dockerImages, None)
    end in
  match repoTags with
  | [] =>
      mret {| ms_manifest := ms_manifest s;
              ms_all := ms_all s ++ [(with_identity (untagged_id (i_Name image) sha) (i_Name image) (i_Owners image) image,
                                      source)] |}
  | repoAndTag :: _ =>
      let repo := repository repoAndTag in
      owners ← rename_first repo (i_Owners image);
      mret {| ms_manifest := match source with
                             | Some i => alter (fun im => with_identity (i_ID im) (i_Name im) owners im) i (ms_manifest s)
                             | None => ms_manifest s
                             end;
              ms_all := ms_all s ++ [(with_identity (repo +:+ "@" +:+ sha) repoAndTag owners image, source)] |}
  end.

Definition current_owners (manifest : list Image) (e : Image * option nat) : Image :=
  match e.2 ≫= fun i => manifest !! i with
  | Some im => with_identity (i_ID e.1) (i_Name e.1) (i_Owners im) e.1
  | None => e.1
  end.

Definition mergeImages (folderPath : string) (found : result path_error node) (dockerImages : list DockerImage)
    (manifestImages : list Image) (filenameToImageName : gmap string string) : go (list Image * option string) :=
  '(s, err) ← walkImages folderPath found (merge_archive filenameToImageName dockerImages)
                {| ms_manifest := manifestImages; ms_all := [] |};
  mret (current_owners (ms_manifest s) <$> ms_all s, err).
End archives.

(** ** Downloading *)

Section download.
Context {W F : Type} `{!Files W} `{!Commands W} `{!FloatZero F}.
Context (Getenv : string -> string) (multi_text : list string -> string) `{!RangeOrder string string}.

Definition credential_args (rc : RegistryCredential) : list string :=
  if decide (rc_Username rc = "<token>") then ["--src-registry-token"; rc_Password rc]%string
  else ["--src-creds"%string; if decide (rc_Password rc <> "") then rc_Username rc +:+ ":" +:+ rc_Password rc else rc_Username rc].

(** A copy that fails removes the file of its archive. *)
Definition downloadImageViaSkopeo (folderPath imageName : string) (rc : option RegistryCredential)
    : io W (string * option string) :=
  let archiveFileName := folderPath +:+ clearString imageName in
  let args := ["copy"%string] ++ from_ptr [] credential_args rc
              ++ (if decide (Getenv "SKOPEO_ARGS" <> "") then Split (Getenv "SKOPEO_ARGS") "," else [])
              ++ ["docker://" +:+ imageName; "docker-archive:" +:+ archiveFileName] in
  '(output, err) ← ExecWithMessage "skopeo" args;
  match err with
  | Some e => _ ← effect (Remove archiveFileName); mret (output, Some e)
  | None => mret (output, None)
  end.

Context (credentials : list RegistryCredential).
Context (download : string -> option RegistryCredential -> io W (string * option string)).

(** What the loop keeps: the files by image, and the errors. *)
Definition downloads : Type := gmap string string * list string.

(** One image: its reference, and the state after it. *)
Definition download_missing (name ref : string) (s : downloads) : io W (string * downloads) :=
  if decide (ref <> "") then mret (ref, s)
  else match s.1 !! name with
       | Some ref => mret (ref, s)
       | None =>
           '(output, err) ← download name (FindCredentialForImage credentials name);
           mret (match err with
                 | Some e => (ref, (s.1, s.2 ++ [e +:+ ": " +:+ output]))
                 | None => (clearString name, (<[name := clearString name]> s.1, s.2))
                 end)
       end.

Fixpoint download_all {A} (name ref : A -> string) (set : string -> A -> A) (l : list A) (s : downloads)
    : io W (list A * downloads) :=
  match l with
  | [] => mret ([], s)
  | x :: l' =>
      '(r, s) ← download_missing (name x) (ref x) s;
      '(rest, s) ← download_all name ref set l' s;
      mret (set r x :: rest, s)
  end.

Definition downloadMissingImages (folderPath : string) (dockerImages : list DockerImage) (manifestImages : list Image)
    : io W (gmap string string * list DockerImage * list Image * option (ci_error F)) :=
  '(manifestImages, s) ← download_all i_Name i_PullRef set_pull_ref manifestImages (∅, []);
  '(dockerImages, s) ← download_all di_Name di_PullRef set_docker_ref dockerImages s;
  mret (ReverseMap s.1, dockerImages, manifestImages,
        if decide (s.2 = []) then None
        else Some (ScanError (with_file (Clean folderPath)
               "Please inspect the action item description for signs of why downloading images may have failed."
               (scan_error (multi_text s.2) "downloading missing images to be scanned by trivy" "InternalOperation"
                  "DownloadMissingImages")))).
End download.

(** ** Scanning *)

Section scan.
Context {W F : Type} `{!Files W} `{!Commands W} `{!FloatZero F}.
Context (json_results : string -> result string TrivyResults) (json_report : MinimizedReport -> result string string).
Context (multi_text : list string -> string) (now : Z).

Definition scan_args (extraFlags reportFile imagePath : string) : list string :=
  ["-d"; "image"; "--skip-db-update"; "--skip-java-db-update"]%string
  ++ (if decide (extraFlags <> "") then [extraFlags] else [])
  ++ ["-f"; "json"; "-o"; reportFile; "--input"; imagePath]%string.

(** The report file is removed once the scan has succeeded. *)
Definition ScanImageFile (imagePath imageID tempDir extraFlags : string) : io W (result string TrivyResults) :=
  let reportFile := tempDir +:+ "/trivy-report-" +:+ imageID +:+ ".json" in
  out ← effect (RunCombined "trivy" (scan_args extraFlags reportFile imagePath));
  r ← pure_go (command_result ("scanning " +:+ imageID) out);
  match r with
  | Err e => mret (Err e)
  | Ok _ =>
      data ← asks (ReadPath reportFile);
      _ ← effect (Remove reportFile);
      mret (match data with
            | Err e => Err (pe_Text e)
            | Ok data => json_results data
            end)
  end.

(** [multierror.Append]. *)
Definition append_errors (errs : list (ci_error F)) (e : ci_error F) : list (ci_error F) :=
  match e with
  | Multi es => errs ++ es
  | _ => errs ++ [e]
  end.

Definition append_error (errs : list (ci_error F)) (e : option (ci_error F)) : list (ci_error F) :=
  from_ptr errs (append_errors errs) e.

(** What the loop over images keeps: results, nil for a failed scan, and errors. *)
Record scans : Type := {
  reportByRef : gmap string (option TrivyResults);
  errorsByRef : gmap string (list string);
  scan_errors : list (ci_error F)
}.

Definition no_scans : scans := {| reportByRef := ∅; errorsByRef := ∅; scan_errors := [] |}.

Definition image_scan_error (i : Image) (e : string) : ScanErrorsReportResult F :=
  with_file (i_PullRef i) "" (scan_error e "running trivy to scan image" "Image" (i_Name i)).

Definition scan_image (c : Configuration) (i : Image) (s : scans) : io W scans :=
  let ref := i_PullRef i in
  if decide (is_Some (reportByRef s !! ref)) then mret s
  else
    r ← ScanImageFile (FolderName (CiModels.Images c) +:+ ref) ref (TempFolder (Options c)) "";
    mret (match r with
          | Ok results =>
              {| reportByRef := <[ref := Some results]> (reportByRef s); errorsByRef := errorsByRef s;
                 scan_errors := scan_errors s |}
          | Err e =>
              {| reportByRef := <[ref := None]> (reportByRef s);
                 errorsByRef := <[ref := default [] (errorsByRef s !! ref) ++ [e]]> (errorsByRef s);
                 scan_errors := scan_errors s ++ [ScanError (image_scan_error i e)] |}
          end).

(** [strings.Split(strings.Split(v, "\n")[0], " ")[1]]. *)
Definition trivy_version (output : string) : go string :=
  deref (Split (before_first output (byte 10)) " " !! 1%nat).

Definition db_args : list string :=
  ["image"; "--download-db-only"; "--db-repository";
   "ghcr.io/aquasecurity/trivy-db:2,public.ecr.aws/aquasecurity/trivy-db:2,docker.io/aquasec/trivy-db:2"]%string.

Definition java_db_args : list string :=
  ["image"; "--download-java-db-only"; "--java-db-repository";
   "ghcr.io/aquasecurity/trivy-java-db:1,public.ecr.aws/aquasecurity/trivy-java-db:1,docker.io/aquasec/trivy-java-db:1"]%string.

(** The report, its version, and the errors; there may be both. *)
Definition scanImagesWithTrivy (images : list Image) (c : Configuration)
    : io W (option string * string * option (ci_error F)) :=
  let fail e := mret (None, ""%string, Some (Plain e)) in
  '(version, err) ← Exec "trivy" ["--version"%string];
  match err with
  | Some e => fail ("unable to get trivy version: " +:+ e)
  | None =>
      trivyVersion ← pure_go (trivy_version version);
      '(output, err) ← ExecWithMessage "trivy" db_args;
      match err with
      | Some e => fail ("unable to download trivy database, " +:+ e +:+ ": " +:+ output)
      | None =>
          '(output, err) ← ExecWithMessage "trivy" java_db_args;
          match err with
          | Some e => fail ("unable to download trivy java database, " +:+ e +:+ ": " +:+ output)
          | None =>
              s ← for_each (scan_image c) images no_scans;
              let allReports := ConvertTrivyResultsToImageReport images (reportByRef s) (errorsByRef s) in
              results ← pure_go (Minimize now allReports {| TrivyImages.Images := []; Vulnerabilities := Some ∅ |});
              mret (match json_report results with
                    | Err _ => (None, ""%string, ErrorOrNil (scan_errors s))
                    | Ok text => (Some text, trivyVersion, ErrorOrNil (scan_errors s))
                    end)
          end
      end
  end.

(** ** The report *)

Context (Getenv : string -> string) `{!RangeOrder string string}.
Context (tar_entries : string -> list (string * result string string) * option string).
Context (json_value : string -> result string value).

Definition trivy_report (version : string) : ReportInfo :=
  {| Report := "trivy"; Version := version; Filename := "trivy.json" |}.

Definition GetTrivyReport (c : Configuration) (dockerImages : list DockerImage) (manifestImages : list Image)
    : io W (option ReportInfo * option (ci_error F)) :=
  let folder := FolderName (CiModels.Images c) in
  found ← asks (Lookup folder);
  refs ← pure_go (updatePullRef tar_entries json_value folder found dockerImages manifestImages);
  match refs with
  | Err e => mret (None, Some (Plain e))
  | Ok (dockerImages, manifestImages) =>
      '(filenameToImageName, dockerImages, manifestImages, err) ←
        downloadMissingImages multi_text (RegistryCredentials (Options c)) (downloadImageViaSkopeo Getenv folder) folder
          dockerImages manifestImages;
      let allErrs := append_error [] err in
      found ← asks (Lookup folder);
      '(allImages, err) ← pure_go (mergeImages tar_entries json_value folder found dockerImages manifestImages filenameToImageName);
      let allErrs := append_error allErrs (Plain <$> err) in
      '(trivyResults, trivyVersion, err) ← scanImagesWithTrivy allImages c;
      match err with
      | Some e =>
          mret (None, Some (Multi (append_errors (append_errors allErrs e)
                 (ScanError (scan_error (error_text multi_text e) "running trivy" "" "unknown")))))
      | None =>
          match trivyResults with
          | None => mret (None, ErrorOrNil allErrs)
          | Some text =>
              err ← effect (WriteFile (PathJoin (TempFolder (Options c)) "trivy.json") text);
              mret (match err with
                    | Some e => (None, Some (Multi (append_errors allErrs (Plain e))))
                    | None => (Some (trivy_report trivyVersion), Some (Multi allErrs))
                    end)
          end
      end
  end.
End scan.

(** * Properties *)

(** ** Names of archives *)

Lemma clear_runs_chars inside l : Forall (fun c => alphanumeric c = true \/ c = "_"%char) (clear_runs inside l).
Proof.
  revert inside. induction l as [|c l IH]; intros inside; [constructor|]. cbn [clear_runs].
  destruct (alphanumeric c) eqn:E; [constructor; [by left|apply IH]|].
  apply Forall_app. split; [|apply IH]. destruct inside; [constructor|]. constructor; [by right|constructor].
Qed.

(** An archive is a file of the folder itself, whatever the image is called. *)
Lemma clearString_no_slash s : "/"%char ∉ chars (clearString s).
Proof.
  unfold clearString. rewrite chars_str. intros Hin.
  pose proof (clear_runs_chars false (chars s)) as H. rewrite Forall_forall in H. by destruct (H _ Hin).
Qed.

(** Two tags of an image that share an archive. *)
Example archives_collide : clearString "app:1.0-1" = clearString "app:1.0.1".
Proof. reflexivity. Qed.

(** ** Downloads *)

Section download_properties.
Context {W F : Type} `{!Files W} `{!Commands W} `{!FloatZero F}.
Context (multi_text : list string -> string) `{!RangeOrder string string}.
Context (credentials : list RegistryCredential).
Context (download : string -> option RegistryCredential -> io W (string * option string)).

(** What the map of references holds. *)
Definition refs_ok (s : downloads) : Prop := forall n r, s.1 !! n = Some r -> r = clearString n.

(** An image after the downloads: untouched when it had a reference, else with the archive of its name, or
    untouched too and with an error. *)
Definition download_outcome {A} (name ref : A -> string) (set : string -> A -> A) (failed : Prop) (x x' : A) : Prop :=
  x' = set (ref x) x /\ (ref x <> ""%string \/ failed) \/ x' = set (clearString (name x)) x /\ ref x = ""%string.

Lemma download_missing_spec name ref s (w w' : W) r s' :
  refs_ok s -> runs (download_missing credentials download name ref s) w w' (r, s') ->
  refs_ok s' /\ (s.2 <> [] -> s'.2 <> []) /\ (r = ref /\ (ref <> ""%string \/ s'.2 <> []) \/ r = clearString name /\ ref = ""%string).
Proof.
  intros Hs. unfold download_missing. case_decide as Hr.
  - intros [_ [= -> ->]]%runs_ret. split_and!; auto.
  - destruct (s.1 !! name) as [r1|] eqn:E.
    + intros [_ [= -> ->]]%runs_ret. split_and!; [done|done|]. right. split; [by apply Hs|done].
    + intros (w1 & [output err] & _ & [_ H]%runs_ret)%runs_bind. destruct err as [e|]; injection H as -> ->; simpl.
      * split; [done|]. split; [by destruct (s.2)|]. left. split; [done|]. right. by destruct (s.2).
      * split; [|by eauto]. intros n r1. simpl. destruct (decide (n = name)) as [->|Hn].
        -- by rewrite lookup_insert_eq; intros [= <-].
        -- rewrite lookup_insert_ne by done. apply Hs.
Qed.

Lemma download_all_spec {A} (name ref : A -> string) (set : string -> A -> A) l s (w w' : W) l' s' :
  refs_ok s -> runs (download_all credentials download name ref set l s) w w' (l', s') ->
  refs_ok s' /\ (s.2 <> [] -> s'.2 <> []) /\ Forall2 (download_outcome name ref set (s'.2 <> [])) l l'.
Proof.
  revert s w l' w' s'. induction l as [|x l IH]; intros s w l' w' s' Hs; cbn [download_all].
  - intros [_ [= -> ->]]%runs_ret. split_and!; [done|done|constructor].
  - intros (w1 & [r s1] & (H1 & H2 & H3)%download_missing_spec & H)%runs_bind; [|done].
    apply runs_bind in H as (w2 & [rest s2] & (H4 & H5 & H6)%IH & [_ [= -> ->]]%runs_ret); [|done].
    split; [done|]. split; [by auto|]. constructor; [|done]. unfold download_outcome.
    destruct H3 as [[-> [?|?]]|[-> ?]]; eauto.
Qed.

End download_properties.

(** ** Scans *)

Section scan_properties.
Context {W F : Type} `{!Files W} `{!Commands W} `{!FloatZero F}.
Context (json_results : string -> result string TrivyResults) (json_report : MinimizedReport -> result string string).
Context (multi_text : list string -> string) (now : Z).

(** The images done so far have a result, and a nil one only with an error. *)
Definition scans_inv (images : list Image) (s : scans (F := F)) : Prop :=
  (forall i, i ∈ images -> is_Some (reportByRef s !! i_PullRef i))
  /\ (forall ref, reportByRef s !! ref = Some None -> scan_errors s <> []).

Lemma scan_image_inv c images i s (w w' : W) s' :
  scans_inv images s -> runs (scan_image json_results c i s) w w' s' -> scans_inv (images ++ [i]) s'.
Proof.
  intros [H1 H2]. unfold scan_image. case_decide as Hd.
  - intros [_ ->]%runs_ret. split; [|done]. intros j [Hj| ->%list_elem_of_singleton]%elem_of_app; [by apply H1|done].
  - intros (w1 & r & _ & [_ ->]%runs_ret)%runs_bind. split.
    + intros j [Hj| ->%list_elem_of_singleton]%elem_of_app; destruct r; simpl.
      all: first [rewrite lookup_insert_eq; by eexists | apply lookup_insert_is_Some'; right; by apply H1].
    + intros ref. destruct r; simpl.
      * destruct (decide (i_PullRef i = ref)) as [<-|E]; [by rewrite lookup_insert_eq|].
        rewrite lookup_insert_ne by done. apply H2.
      * intros _. by destruct (scan_errors s).
Qed.

Lemma for_each_scans c images (w w' : W) s :
  runs (for_each (scan_image json_results c) images no_scans) w w' s -> scans_inv images s.
Proof.
  apply (for_each_inv (fun l s _ => scans_inv l s)).
  - intros l i s1 w1 s2 w2. apply scan_image_inv.
  - split; [by intros i ?%elem_of_nil|]. intros ref. simpl. by rewrite lookup_empty.
Qed.

Lemma ErrorOrNil_None (errs : list (ci_error F)) : ErrorOrNil errs = None <-> errs = [].
Proof. by destruct errs. Qed.

(** Without errors, every image has been scanned and is in the report with what was found in it. *)
Lemma scanImagesWithTrivy_ok images c (w w' : W) text version :
  runs (scanImagesWithTrivy (F := F) json_results json_report now images c) w w' (Some text, version, None) ->
  exists (s : scans (F := F)) results,
    (forall i, i ∈ images -> exists r, reportByRef (F := F) s !! i_PullRef i = Some (Some r)
                                       /\ report_entry (reportByRef s) (errorsByRef s) i = Some (scanned_report i r))
    /\ Minimize now (ConvertTrivyResultsToImageReport images (reportByRef s) (errorsByRef s))
         {| TrivyImages.Images := []; Vulnerabilities := Some ∅ |} = Ret results
    /\ json_report results = Ok text.
Proof.
  unfold scanImagesWithTrivy. intros (w1 & [v err1] & _ & H)%runs_bind.
  destruct err1; [by apply runs_ret in H as [_ ?]|].
  apply runs_bind in H as (w2 & tv & _ & H). apply runs_bind in H as (w3 & [o2 err2] & _ & H).
  destruct err2; [by apply runs_ret in H as [_ ?]|].
  apply runs_bind in H as (w4 & [o3 err3] & _ & H). destruct err3; [by apply runs_ret in H as [_ ?]|].
  apply runs_bind in H as (w5 & s & [Hs1 Hs2]%for_each_scans & H).
  apply runs_bind in H as (w6 & results & [_ Hm]%runs_pure & [_ H]%runs_ret).
  destruct (json_report results) as [t|e] eqn:Hj; [|done]. injection H as -> -> He.
  symmetry in He. apply ErrorOrNil_None in He.
  exists s, results. split_and!; [|done|done].
  intros i Hi. destruct (Hs1 i Hi) as [[r|] Hr]; [|by apply Hs2 in Hr].
  exists r. split; [done|]. unfold report_entry. by rewrite Hr.
Qed.

Context (Getenv : string -> string) `{!RangeOrder string string}.
Context (tar_entries : string -> list (string * result string string) * option string).
Context (json_value : string -> result string value).

(** A Trivy report is sent only when every archive that was found has been scanned: the report's file is then the
    results of all of them.  One archive whose scan fails leaves no report at all, though the results of the others are
    there. *)
Theorem report_means_all_scanned c dockerImages manifestImages (w w' : W) report (errs : option (ci_error F)) :
  runs (GetTrivyReport json_results json_report multi_text now Getenv tar_entries json_value c dockerImages manifestImages)
    w w' (Some report, errs) ->
  exists images version text (s : scans (F := F)) results w1,
    report = trivy_report version
    /\ WriteFile (PathJoin (TempFolder (Options c)) "trivy.json") text w1 = (w', None)
    /\ (forall i, i ∈ images -> exists r, reportByRef (F := F) s !! i_PullRef i = Some (Some r)
                                       /\ report_entry (reportByRef s) (errorsByRef s) i = Some (scanned_report i r))
    /\ Minimize now (ConvertTrivyResultsToImageReport images (reportByRef s) (errorsByRef s))
         {| TrivyImages.Images := []; Vulnerabilities := Some ∅ |} = Ret results
    /\ json_report results = Ok text
    /\ exists found ds ms names err, mergeImages tar_entries json_value (FolderName (CiModels.Images c)) found ds ms names
         = Ret (images, err).
Proof.
  unfold GetTrivyReport. intros (w1 & found & _ & H)%runs_bind.
  apply runs_bind in H as (w2 & refs & _ & H). destruct refs as [[ds ms]|e]; [|by apply runs_ret in H as [_ ?]].
  apply runs_bind in H as (w3 & [[[names ds1] ms1] err1] & _ & H). apply runs_bind in H as (w4 & found1 & _ & H).
  apply runs_bind in H as (w5 & [images err2] & [_ Hm]%runs_pure & H).
  apply runs_bind in H as (w6 & [[text version] err3] & Hscan & H).
  destruct err3; [by apply runs_ret in H as [_ ?]|]. destruct text as [text|]; [|by apply runs_ret in H as [_ ?]].
  apply runs_bind in H as (w7 & err4 & Hw%runs_effect & [-> H]%runs_ret).
  destruct err4; [done|]. injection H as -> _.
  apply scanImagesWithTrivy_ok in Hscan as (s & results & H1 & H2 & H3).
  exists images, version, text, s, results, w6. split_and!; eauto 10.
Qed.
End scan_properties.

(** A folder with the archives of two images. *)
Module Witness.
#[local] Instance zero : FloatZero unit := {| f_zero := tt; f_is_zero _ := true; f_zero_law := eq_refl |}.
#[local] Instance order : RangeOrder string string := canonical_order.

Definition archive : node := FileNode (Ok "tar"%string).

#[local] Instance files : Files unit := {|
  Lookup p _ := if decide (p = "/images/"%string) then Ok (DirNode (Ok [("app_1"%string, archive); ("web_2"%string, archive)]))
                else Ok (FileNode (Ok "{}"%string));
  WriteFile _ _ w := (w, None); MkdirAll _ w := (w, None); RemoveAll _ w := (w, None); Remove _ w := (w, None)
|}.

Definition tar (content : string) : list (string * result string string) * option string :=
  ([("manifest.json"%string, Ok "manifest"%string); ("cfg.json"%string, Ok "cfg"%string)], None).

Definition json (text : string) : result string value :=
  Ok (if decide (text = "manifest"%string)
      then VArray [VMap {["Config"%string := VString "cfg.json"; "RepoTags"%string := VArray [VString "app:1"]]}]
      else VMap {["config"%string := VMap {["Image"%string := VString "sha256:aa"]} ]}).

Definition trivy_results (text : string) : result string TrivyResults :=
  Ok {| ImageID := "sha256:aa"; RepoDigests := []; Architecture := "amd64"; OSName := "alpine"; Results := [] |}.

Definition report_text (r : MinimizedReport) : result string string := Ok "report"%string.
Definition texts (l : list string) : string := Join l "; ".

Definition config : Configuration :=
  with_folders "/tmp/" "/images/" empty_configuration.

Section good.
#[local] Instance succeeding : Commands unit := {|
  LookPath name := name;
  Run _ _ _ w := (w, ("Version: 0.50.0"%string, ""%string, None));
  RunCombined _ _ w := (w, (""%string, None))
|}.

Lemma report_means_all_scanned_witness :
  exists (images : list Image) version, version = "0.50.0"%string
    /\ runs (GetTrivyReport (F := unit) trivy_results report_text texts 0 (fun _ => ""%string) tar json config [] [])
         tt tt (Some (trivy_report version), Some (Multi []))
    /\ forall i, i ∈ images -> exists s r, reportByRef (F := unit) s !! i_PullRef i = Some (Some r).
Proof.
  assert (H : runs (GetTrivyReport (F := unit) trivy_results report_text texts 0 (fun _ => ""%string) tar json config [] [])
         tt tt (Some (trivy_report "0.50.0"), Some (Multi []))) by (vm_compute; reflexivity).
  destruct (report_means_all_scanned _ _ _ _ _ _ _ _ _ _ _ _ _ _ H) as (images & v & text & s & res & w1 & _ & _ & Hi & _).
  exists images, "0.50.0"%string. split; [reflexivity|]. split; [exact H|].
  intros i Hin. destruct (Hi i Hin) as (r & Hr & _). exists s, r. exact Hr.
Defined.

(** The name of the workload is replaced by the repository in the owner of a manifest's image, through every copy. *)
Definition manifest_image : Image :=
  {| i_Name := "app:1"; i_ID := ""; i_PullRef := "app_1";
     i_Owners := [{| TrivyImages.Kind := "Deployment"; TrivyImages.Namespace := "shop"; TrivyImages.ResName := "checkout";
                     TrivyImages.Container := "main" |}];
     i_RecommendationOnly := false |}.

Example owner_renamed :
  match mergeImages tar json "/images/" (Lookup "/images/"%string tt) [] [manifest_image] ∅ with
  | Ret (images, None) =>
      ((fun o => (TrivyImages.Kind o, TrivyImages.ResName o)) <$> (images ≫= i_Owners))
      = [("Deployment", "app"); ("Image", "app")]%string
  | _ => False
  end.
Proof. vm_compute. reflexivity. Qed.
End good.

(** One archive of two that cannot be scanned: no report, and its error twice. *)
Section bad.
#[local] Instance failing : Commands unit := {|
  LookPath name := name;
  Run _ _ _ w := (w, ("Version: 0.50.0"%string, ""%string, None));
  RunCombined _ args w := if decide ("/images/web_2"%string ∈ args) then (w, ("bad"%string, Some "exit status 1"%string))
                          else (w, (""%string, None))
|}.

Example one_failure_drops_the_report :
  match GetTrivyReport (F := unit) trivy_results report_text texts 0 (fun _ => ""%string) tar json config [] [] tt with
  | Ret (_, (None, Some (Multi es))) => length es = 2%nat
  | _ => False
  end.
Proof. vm_compute. reflexivity. Qed.

Definition skopeo (name : string) (rc : option RegistryCredential) : io unit (string * option string) :=
  mret (if decide (name = "bad:1"%string) then ("denied"%string, Some "exit status 1"%string) else (""%string, None)).

Definition image (name : string) : Image :=
  {| i_Name := name; i_ID := ""; i_PullRef := ""; i_Owners := []; i_RecommendationOnly := false |}.

End bad.
End Witness.
