(* ===== verification/CiGit.v ===== *)
(** * ci: git

    [ci/pkg/ci/git.go]: what is told about the commit that is scanned, from the
    environment or by git commands, and the repository's name taken from the
    address of its origin. *)

From stdpp Require Import base decidable list gmap strings.
From Stdlib Require Import ZArith Lia Ascii.
From S2P Require Import Prelude GoStrings GoText GoValues GoFiles TrivyScan CiModels CiCommands.

Record gitInfo : Type := {
  origin : string;
  branch : string;
  masterHash : string;
  currentHash : string;
  commitMessage : string;
  repoName : string;
  filesModified : list string
}.

(** The last field between separators. *)
Definition last_field (s : string) (c : ascii) : string := default "" (last (Split s c)).

(** [strings.Split(s, "//")]: the part after the last pair of slashes; pairs are
    counted from the left. *)
Fixpoint after_pairs (fuel : nat) (l : list ascii) : list ascii :=
  match fuel with
  | 0 => l
  | S fuel' =>
      match index_str_aux (chars "//") 0 l with
      | Some i => after_pairs fuel' (drop (i + 2) l)
      | None => l
      end
  end.

Definition extractRepoNameFromOrigin (origin : string) : string :=
  let repoName :=
    if Contains origin "@" then last_field origin "@"
    else if Contains origin "//" then str (after_pairs (slen origin) (chars origin))
    else origin in
  let repoName := if Contains repoName ":" then last_field repoName ":" else repoName in
  TrimSuffix repoName (Ext repoName).

(** The description and the link of the runners that have them. *)
Definition lines (l : list string) : string := Join l newline.
Definition tabs (n : nat) (s : string) : string := str (replicate n (byte 9)) +:+ s.

Definition ciRunnerHintMap (runner : string) : option (string * string) :=
  if decide (runner = GithubActions) then
    Some (lines ["jobs:"; tabs 1 "build:"; tabs 2 "steps:"; tabs 3 "- uses: actions/checkout@v3"; tabs 4 "with:"; tabs 5 "fetch-depth: 0"],
          "https://github.com/actions/checkout#fetch-all-history-for-all-tags-and-branches")
  else if decide (runner = AzureDevops) then
    Some (lines ["variables:"; tabs 2 "Agent.Source.Git.ShallowFetchDepth: 0"],
          "https://learn.microsoft.com/en-us/azure/devops/pipelines/repos/pipeline-options-for-git?view=azure-devops&tabs=yaml#shallow-fetch")
  else if decide (runner = Gitlab) then
    Some (lines ["docker-build:"; tabs 1 "variables:"; "    GIT_STRATEGY: clone"; "    GIT_DEPTH: 0"],
          "https://docs.gitlab.com/ee/ci/pipelines/settings.html#limit-the-number-of-changes-fetched-during-clone")
  else if decide (runner = Travis) then
    Some (lines ["git:"; tabs 1 "depth: false"], "https://docs.travis-ci.com/user/customizing-the-build/#git-clone-depth")
  else None.

(** What is shown when a git command has failed: the hint of the runner, or the advice
    to ask for support. *)
Inductive hint : Type := RunnerHint (runner : string) (text : string * string) | SupportHint (runner : string).

Definition logGitCIRunnerHint (ciRunner : string) : hint :=
  match ciRunnerHintMap ciRunner with
  | Some text => RunnerHint ciRunner text
  | None => SupportHint (if decide (ciRunner <> "") then ciRunner else "unknown")
  end.

Section git.
Context {W : Type} `{!Commands W} (Getenv : string -> string).

(** [cmdExecutor(baseRepoPath, git args...)]. *)
Definition git (dir : string) (args : list string) : io W (string * option string) := ExecInDir dir "git" args.

(** The variable, or what the command prints, and whether the command failed. *)
Definition env_or_git (dir var : string) (args : list string) : io W (string * bool) :=
  if decide (Getenv var <> "") then mret (Getenv var, false)
  else '(out, err) ← git dir args; mret (out, bool_decide (is_Some err)).

(** The first of the branches with a merge base; the flag is that of the last try. *)
Fixpoint merge_base (dir : string) (branches : list string) (acc : string * bool) : io W (string * bool) :=
  match branches with
  | [] => mret acc
  | b :: bs =>
      '(out, err) ← git dir ["merge-base"; "HEAD"; b];
      match err with
      | Some _ => merge_base dir bs (out, true)
      | None => mret (out, false)
      end
  end.

Definition branchStrategies (baseBranch : string) : list string :=
  let baseBranchParsed := TrimPrefix baseBranch "origin/" in
  [baseBranchParsed; "origin/" +:+ baseBranchParsed; "remotes/origin/" +:+ baseBranchParsed].

Definition limit_message (m : string) : string := if decide (100 < slen m) then slice_to 100 m else m.

Definition modified_files (out : string) : list string :=
  filter (fun mf => mf <> "") (TrimSpace <$> Split out (byte 10)).

(** The information and, when a command has failed, the hint that is shown. *)
Definition getGitInfo (ciRunner baseRepoPath repoName baseBranch : string)
    : io W (result string (gitInfo * option hint)) :=
  let repoName := TrimSpace repoName in
  '(_, err) ← git baseRepoPath ["config"; "--global"; "--add"; "safe.directory"; "/insights"];
  match err with
  | Some e => mret (Err e)
  | None =>
      '(currentHash, err) ←
        (if decide (Getenv "CURRENT_HASH" <> "") then mret (Getenv "CURRENT_HASH", None)
         else git baseRepoPath ["rev-parse"; "HEAD"]);
      match err with
      | Some e => mret (Err e)
      | None =>
          '(masterHash, fail1) ←
            (if decide (Getenv "MASTER_HASH" <> "") then mret (Getenv "MASTER_HASH", false)
             else merge_base baseRepoPath (branchStrategies baseBranch) ("", false));
          let masterHash := TrimSpace masterHash in
          '(commitMessage, fail2) ← env_or_git baseRepoPath "COMMIT_MESSAGE" ["log"; "--pretty=format:%s"; "-1"];
          '(branch, fail3) ← env_or_git baseRepoPath "BRANCH_NAME" ["rev-parse"; "--abbrev-ref"; "HEAD"];
          '(filesModifiedStr, err4) ← git baseRepoPath ["diff"; "--name-only"; "HEAD"; masterHash];
          '(origin, fail5) ← env_or_git baseRepoPath "ORIGIN_URL" ["remote"; "get-url"; "origin"];
          let origin := TrimSpace origin in
          _ ← pure_go (RemoveTokensAndPassword origin);
          let gitCommandFail := fail1 || fail2 || fail3 || bool_decide (is_Some err4) || fail5 in
          mret (Ok
            ({| origin := origin;
                branch := TrimSpace branch;
                masterHash := masterHash;
                currentHash := TrimSpace currentHash;
                commitMessage := TrimSpace (limit_message commitMessage);
                repoName := if decide (repoName = "") then extractRepoNameFromOrigin origin else repoName;
                filesModified := modified_files filesModifiedStr |},
             if gitCommandFail then Some (logGitCIRunnerHint ciRunner) else None))
      end
  end.
End git.

(** * Properties *)

(** ** Names of repositories *)

Lemma Contains_char_false s c : c ∉ chars s -> Contains s (String c "") = false.
Proof.
  intros H. apply not_true_is_false. rewrite Contains_spec. intros (a & b & E). apply H.
  rewrite E. apply elem_of_app. right. apply elem_of_app. left. by left.
Qed.

Lemma Contains_char_true s c t : Contains (s +:+ String c t) (String c "") = true.
Proof. apply Contains_spec. exists (chars s), (chars t). by rewrite chars_app. Qed.

Lemma chars_cons c s : chars (String c s) = c :: chars s.
Proof. done. Qed.

(** A character that does not occur in a concatenation: by its parts. *)
Ltac not_in_parts :=
  repeat first [rewrite chars_app in * | rewrite chars_cons in * | rewrite not_elem_of_app in *
               | rewrite not_elem_of_cons in *]; destruct_and?;
  split_and?; try done; try (apply (bool_decide_unpack _); vm_compute; exact I).

Lemma last_field_split s c t : c ∉ chars t -> last_field (s +:+ String c t) c = t.
Proof. intros H. unfold last_field. by rewrite Split_app, (Split_whole t), last_snoc by done. Qed.

Lemma Ext_path dir p q :
  "/"%char ∉ chars p -> "/"%char ∉ chars q -> "."%char ∉ chars q ->
  Ext (dir +:+ String "/" (p +:+ String "." q)) = String "." q.
Proof.
  intros Hp Hq Hd. unfold Ext.
  assert (H : after_last (dir +:+ String "/" (p +:+ String "." q)) "/" = p +:+ String "." q).
  { unfold after_last. rewrite LastIndex_split by not_in_parts.
    unfold slice_from, slen. rewrite chars_app, drop_app_ge by lia.
    replace (S (length (chars dir)) - length (chars dir)) with 1 by lia. apply str_chars. }
  rewrite H, LastIndex_split by done. unfold slice_from, slen. rewrite chars_app, drop_app_length. apply str_chars.
Qed.

(** The name of a repository is read off the address of its origin over SSH: the owner and the name, without the
    user, the host and the suffix of git, for any owner and any name, whatever dots the name has. *)
Theorem ssh_origin_gives_name user host owner name :
  "@"%char ∉ chars (host +:+ owner +:+ name) -> ":"%char ∉ chars (owner +:+ name) ->
  "/"%char ∉ chars name ->
  extractRepoNameFromOrigin (user +:+ "@" +:+ host +:+ ":" +:+ owner +:+ "/" +:+ name +:+ ".git") = owner +:+ "/" +:+ name.
Proof.
  intros Ha Hc Hs.
  assert (Ha1 : "@"%char ∉ chars (host +:+ String ":" (owner +:+ String "/" (name +:+ ".git")))).
  { not_in_parts. }
  assert (Hc1 : ":"%char ∉ chars (owner +:+ String "/" (name +:+ ".git"))).
  { not_in_parts. }
  change (user +:+ "@" +:+ host +:+ ":" +:+ owner +:+ "/" +:+ name +:+ ".git")
    with (user +:+ String "@" (host +:+ String ":" (owner +:+ String "/" (name +:+ ".git")))).
  unfold extractRepoNameFromOrigin.
  rewrite (Contains_char_true user "@"), (last_field_split user "@") by done.
  rewrite (Contains_char_true host ":"), (last_field_split host ":") by done.
  change (owner +:+ String "/" (name +:+ ".git")) with (owner +:+ String "/" (name +:+ String "." "git")) at 2.
  rewrite Ext_path; [|done|by apply (bool_decide_unpack _)..].
  rewrite <-(TrimSuffix_app (owner +:+ "/" +:+ name) ".git"). f_equal.
  apply chars_inj. rewrite !chars_app. cbn. by rewrite !chars_app, <-!app_assoc.
Qed.

(** The address over HTTPS keeps the host in the name. *)
Example https_keeps_host :
  extractRepoNameFromOrigin "https://github.com/acme/shop.git" = "github.com/acme/shop".
Proof. reflexivity. Qed.

(** Without the suffix, what follows the last dot of the name is lost. *)
Example dotted_name_is_cut : extractRepoNameFromOrigin "git@github.com:acme/shop.io" = "acme/shop".
Proof. reflexivity. Qed.

(** ** The information *)

Section git_properties.
Context {W : Type} `{!Commands W} (Getenv : string -> string).

(** The merge base is that of the first branch that has one. *)
Lemma merge_base_spec dir branches acc (w w' : W) out failed :
  runs (merge_base dir branches acc) w w' (out, failed) ->
  (failed = false /\ (branches = [] /\ acc = (out, false) \/
     exists b w1 w2, b ∈ branches /\ runs (git dir ["merge-base"; "HEAD"; b]) w1 w2 (out, None)))
  \/ failed = true.
Proof.
  revert acc w. induction branches as [|b bs IH]; intros acc w; cbn [merge_base].
  - intros [_ E]%runs_ret. subst acc. destruct failed; [by right|]. left. split; [done|]. by left.
  - intros (w1 & [o err] & H1 & H)%runs_bind. destruct err as [e|].
    + apply IH in H as [[-> [[-> [=]]|(b' & w2 & w3 & Hb & H2)]]|H]; [|by right]. left. split; [done|]. right.
      exists b', w2, w3. split; [by right|done].
    + apply runs_ret in H as [-> [= -> ->]]. left. split; [done|]. right. exists b, w, w1. split; [by left|done].
Qed.

Lemma limit_message_length m : slen (limit_message m) <= 100.
Proof.
  unfold limit_message. case_decide as H; [|lia]. unfold slice_to, slen. rewrite chars_str, length_take. lia.
Qed.

Lemma modified_files_nonempty out : Forall (fun f => f <> "") (modified_files out).
Proof. apply Forall_forall. intros f Hf. by apply list_elem_of_filter in Hf as [? _]. Qed.
End git_properties.

Lemma ssh_origin_gives_name_witness :
  ("@"%char ∉ chars ("github.com" +:+ "acme" +:+ "shop.io")) /\
  extractRepoNameFromOrigin "git@github.com:acme/shop.io.git" = "acme/shop.io".
Proof.
  assert (H : "@"%char ∉ chars ("github.com" +:+ "acme" +:+ "shop.io")) by (apply (bool_decide_unpack _); vm_compute; exact I).
  split; [exact H|].
  apply (ssh_origin_gives_name "git" "github.com" "acme" "shop.io"); [exact H|..];
    apply (bool_decide_unpack _); vm_compute; exact I.
Defined.
