(* ===== verification/CiConfig.v ===== *)
(** * ci: configuration

    [ci/pkg/ci/ci.go] from the start of the program to a configured scan: the
    configuration read from the repository or detected in it, its overrides, the
    clone that is scanned, and the folders.  YAML and JSON are parameters. *)

From stdpp Require Import base decidable list gmap strings.
From Stdlib Require Import ZArith Lia Ascii.
From S2P Require Import Prelude GoStrings GoText GoValues GoFiles TrivyImages TrivyScan Opa CiModels CiManifests CiCommands CiImages CiGit.

Local Open Scope Z_scope.

Definition configFileName : string := "fairwinds-insights.yaml".

(** ** The scan *)

Record CIScan : Type := {
  autoScan : bool;
  token : string;
  baseFolder : string;
  repoBaseFolder : string;
  configFolder : string;
  config : Configuration
}.

Definition PolarisEnabled (c : Configuration) : go bool := deref (Enabled (Polaris (Reports c))).
Definition PlutoEnabled (c : Configuration) : go bool := deref (Enabled (Pluto (Reports c))).
Definition OPAEnabled (c : Configuration) : go bool := deref (Enabled (OPA (Reports c))).
Definition TrivyEnabled (c : Configuration) : go bool := deref (t_Enabled (Trivy (Reports c))).
Definition SkipTrivyManifests (c : Configuration) : go bool := deref (SkipManifests (Trivy (Reports c))).
Definition TerraformEnabled (c : Configuration) : go bool := deref (tf_Enabled (TFSec (Reports c))).

(** ** Configuration *)

Record config_error : Type := { ce_NotExist : bool; ce_Text : string }.

(** [enabledOnAutoDiscovery] of the reports by name, each possibly null. *)
Definition report_switches : Type := gmap string (option bool).

Definition overrideReportsEnabled (c : Configuration) (auto : report_switches) : Configuration :=
  let r := Reports c in
  let switch name old := default old (auto !! name) in
  with_options (Options c)
    {| Polaris := {| Enabled := switch "polaris"%string (Enabled (Polaris r)) |};
       Pluto := {| Enabled := switch "pluto"%string (Enabled (Pluto r)) |};
       TFSec := {| tf_Enabled := switch "tfsec"%string (tf_Enabled (TFSec r));
                   CustomChecksDirectory := CustomChecksDirectory (TFSec r) |};
       Trivy := {| t_Enabled := switch "trivy"%string (t_Enabled (Trivy r)); SkipManifests := SkipManifests (Trivy r) |};
       OPA := {| Enabled := switch "opa"%string (Enabled (OPA r)) |};
       PrometheusMetrics := PrometheusMetrics r; Goldilocks := Goldilocks r |} c.

Definition set_exit_code (b : bool) (c : Configuration) : Configuration :=
  let o := Options c in
  with_options
    {| SetExitCode := b; BaseBranch := BaseBranch o; NewActionItemThreshold := NewActionItemThreshold o;
       SeverityThreshold := SeverityThreshold o; TempFolder := TempFolder o; Hostname := Hostname o;
       Organization := Organization o; JUnitOutput := JUnitOutput o; RepositoryName := RepositoryName o;
       RegistryCredentials := RegistryCredentials o; CIRunner := CIRunner o |} (Reports c) c.

Section configuration.
Context {W : Type} `{!Files W} `{!Commands W} (Getenv : string -> string).
Context (yaml_config : string -> result string Configuration) (yaml_text : Configuration -> result string string).
Context (yaml_manifest : string -> result string KubernetesManifest).
Context (yaml_object : string -> result string (gmap string value)).
Context (json_credentials : string -> result string (list RegistryCredential)).
Context (json_switches : string -> result string report_switches).

(** Base folder, folder of the repository, configuration. *)
Definition setup : Type := result string (string * string * Configuration).

Definition readConfigurationFromFile (configFilePath : string) (w : W) : result config_error Configuration :=
  match ReadPath configFilePath w with
  | Err e =>
      if pe_NotExist e
      then Err {| ce_NotExist := true;
                  ce_Text := "Please add fairwinds-insights.yaml to the base of your repository: " +:+ pe_Text e |}
      else Err {| ce_NotExist := false; ce_Text := "Could not open fairwinds-insights.yaml: " +:+ pe_Text e |}
  | Ok configContents =>
      match yaml_config configContents with
      | Err e => Err {| ce_NotExist := false; ce_Text := "Could not parse fairwinds-insights.yaml: " +:+ e |}
      | Ok c => Ok c
      end
  end.

Definition createFileFromConfig (path filename : string) (c : Configuration) : io W (option string) :=
  match yaml_text c with
  | Err e => mret (Some e)
  | Ok text => effect (WriteFile (PathJoin path filename) text)
  end.

Definition unmarshalAndOverrideConfig (c : Configuration) : result string Configuration :=
  match json_switches (Getenv "REPORTS_CONFIG") with
  | Err e => Err ("unable to parse auto-scan reports config: " +:+ e)
  | Ok auto => Ok (overrideReportsEnabled c auto)
  end.

(** The file, or else what is detected below [basePath], changed by [override] and
    written as the file. *)
Definition read_or_detect (configFilePath basePath : string) (override : Configuration -> result string Configuration)
    : io W (result string Configuration) :=
  c ← asks (readConfigurationFromFile configFilePath);
  match c with
  | Ok c => mret (Ok c)
  | Err e =>
      if negb (ce_NotExist e) then mret (Err (ce_Text e))
      else
        c ← (fun w => pure_go (ConfigFileAutoDetection yaml_manifest yaml_object basePath w) w);
        match c with
        | Err e => mret (Err e)
        | Ok c =>
            match override c with
            | Err e => mret (Err e)
            | Ok c =>
                err ← createFileFromConfig basePath configFileName c;
                mret (match err with Some e => Err e | None => Ok c end)
            end
        end
  end.

Definition getDefaultConfiguration : io W setup :=
  c ← read_or_detect ("./" +:+ configFileName) "" (fun c => Ok c);
  mret (match c with
        | Err e => Err e
        | Ok c =>
            let '(c, err) := SetDefaults Getenv json_credentials c in
            match err with
            | Some e => Err e
            | None =>
                let c := SetPathDefaults c in
                match CheckForErrors c with
                | Some e => Err ("Error parsing fairwinds-insights.yaml: " +:+ e)
                | None => Ok (Base "", Base "", c)
                end
            end
        end).

(** The address to clone; private repositories need the token. *)
Definition clone_url (repoFullName : string) : string :=
  let accessToken := TrimSpace (Getenv "GITHUB_ACCESS_TOKEN") in
  if decide (accessToken <> "") then "https://x-access-token:" +:+ accessToken +:+ "@github.com/" +:+ repoFullName
  else "https://@github.com/" +:+ repoFullName.

Definition clone_base_path : string :=
  if decide (Getenv "CI_BASE_PATH" <> "") then Getenv "CI_BASE_PATH" else PathJoin "/app" "repository".

(** What follows once the repository is there. *)
Definition finish_clone (basePath baseRepoPath : string) (c : Configuration) : io W setup :=
  let '(c, err) := SetDefaults Getenv json_credentials c in
  match err with
  | Some e => mret (Err e)
  | None =>
      '(c, err) ← SetMountedPathDefaults basePath c;
      match err with
      | Some e => mret (Err ("Could not set set path defaults correctly: " +:+ e))
      | None =>
          match CheckForErrors c with
          | Some e => mret (Err ("Error parsing fairwinds-insights.yaml: " +:+ e))
          | None =>
              let c := set_exit_code false c in
              let b := BaseBranch (Options c) in
              '(_, err) ← ExecInDir baseRepoPath "git" ["update-ref"; "refs/heads/" +:+ b; "refs/remotes/origin/" +:+ b];
              mret (match err with
                    | Some e => Err ("unable to update ref for branch " +:+ b +:+ ": " +:+ e)
                    | None => Ok (PathJoin baseRepoPath "../", baseRepoPath, c)
                    end)
          end
      end
  end.

Definition getConfigurationForCloneRepo : io W setup :=
  let repoFullName := TrimSpace (Getenv "REPOSITORY_NAME") in
  let branch := TrimSpace (Getenv "BRANCH_NAME") in
  if decide (repoFullName = "") then mret (Err "REPOSITORY_NAME environment variable not set"%string)
  else if decide (branch = "") then mret (Err "BRANCH environment variable not set"%string)
  else if decide (TrimSpace (Getenv "IMAGE_VERSION") = "") then mret (Err "IMAGE_VERSION environment variable not set"%string)
  else
    let basePath := clone_base_path in
    let repoName := (GetRepoDetails repoFullName).2 in
    let baseRepoPath := PathJoin basePath repoName in
    err ← effect (RemoveAll baseRepoPath);
    match err with
    | Some e => mret (Err ("unable to delete existing directory: " +:+ e))
    | None =>
        '(_, err) ← ExecInDir basePath "git" ["clone"; "--branch"; branch; clone_url repoFullName];
        match err with
        | Some e => mret (Err ("unable to clone repository: " +:+ e))
        | None =>
            c ← read_or_detect (PathJoin (PathJoin basePath repoName) configFileName) baseRepoPath
                  (fun c => if decide (TrimSpace (Getenv "REPORTS_CONFIG") <> "") then unmarshalAndOverrideConfig c else Ok c);
            match c with
            | Err e => mret (Err e)
            | Ok c => finish_clone basePath baseRepoPath c
            end
        end
    end.

Definition setupConfiguration (cloneRepo : bool) : io W setup :=
  if cloneRepo then getConfigurationForCloneRepo else getDefaultConfiguration.

Definition NewCIScan (cloneRepo : bool) (token : string) : io W (result string CIScan) :=
  s ← setupConfiguration cloneRepo;
  match s with
  | Err e => mret (Err ("could not get configuration: " +:+ e))
  | Ok (baseFolder, repoBaseFolder, c) =>
      let configFolder := TempFolder (Options c) +:+ "/configuration/" in
      err ← effect (MkdirAll configFolder);
      match err with
      | Some e => mret (Err ("Could not make directory " +:+ configFolder +:+ ": " +:+ e))
      | None =>
          _ ← pure_go (OPAEnabled c); _ ← pure_go (PolarisEnabled c); _ ← pure_go (PlutoEnabled c);
          _ ← pure_go (TrivyEnabled c); _ ← pure_go (TerraformEnabled c);
          mret (Ok {| autoScan := cloneRepo; token := token; baseFolder := baseFolder; repoBaseFolder := repoBaseFolder;
                      configFolder := configFolder; config := c |})
      end
  end.
End configuration.

(** * Properties *)

Section configuration_properties.
Context {W : Type} `{!Files W} `{!Commands W} (Getenv : string -> string).
Context (yaml_config : string -> result string Configuration) (yaml_text : Configuration -> result string string).
Context (yaml_manifest : string -> result string KubernetesManifest).
Context (yaml_object : string -> result string (gmap string value)).
Context (json_credentials : string -> result string (list RegistryCredential)).
Context (json_switches : string -> result string report_switches).

Definition ready (c : Configuration) : Prop := switches_set c /\ Organization (Options c) <> ""%string.

Lemma CheckForErrors_ok c : CheckForErrors c = None -> Organization (Options c) <> ""%string.
Proof. unfold CheckForErrors. by case_decide. Qed.

Lemma SetMountedPathDefaults_switches basePath c (w w' : W) c' err :
  runs (SetMountedPathDefaults basePath c) w w' (c', err) -> switches_set c -> switches_set c'.
Proof.
  unfold SetMountedPathDefaults. intros (w1 & [e|] & _ & H)%runs_bind Hs; [by apply runs_ret in H as [_ [= -> _]]|].
  by apply runs_bind in H as (w2 & [e|] & _ & [_ [= -> _]]%runs_ret).
Qed.

Lemma finish_clone_ready basePath baseRepoPath c (w w' : W) b r c' :
  runs (finish_clone Getenv json_credentials basePath baseRepoPath c) w w' (Ok (b, r, c')) ->
  ready c' /\ SetExitCode (Options c') = false.
Proof.
  unfold finish_clone. pose proof (SetDefaults_switches Getenv json_credentials c) as Hs.
  destruct (SetDefaults Getenv json_credentials c) as [c1 err]. simpl in Hs.
  destruct err; [by intros [_ [=]]%runs_ret|].
  intros (w1 & [c2 err] & H1 & H)%runs_bind. eapply SetMountedPathDefaults_switches in H1; [|done].
  destruct err; [by apply runs_ret in H as [_ ?]|].
  destruct (CheckForErrors c2) eqn:Ec; [by apply runs_ret in H as [_ ?]|].
  apply runs_bind in H as (w2 & [out err] & _ & [_ H]%runs_ret). destruct err; [done|].
  injection H as -> -> ->. split; [split; [done|]|done]. by apply CheckForErrors_ok in Ec.
Qed.

Lemma getConfigurationForCloneRepo_ready (w w' : W) b r c' :
  runs (getConfigurationForCloneRepo Getenv yaml_config yaml_text yaml_manifest yaml_object json_credentials json_switches)
    w w' (Ok (b, r, c')) -> ready c' /\ SetExitCode (Options c') = false.
Proof.
  unfold getConfigurationForCloneRepo. do 3 (case_decide as Hd; [by intros [_ [=]]%runs_ret|clear Hd]).
  intros (w1 & [e|] & _ & H)%runs_bind; [by apply runs_ret in H as [_ ?]|].
  apply runs_bind in H as (w2 & [out [e|]] & _ & H); [by apply runs_ret in H as [_ ?]|].
  apply runs_bind in H as (w3 & [c|e] & _ & H); [|by apply runs_ret in H as [_ ?]].
  by apply finish_clone_ready in H.
Qed.

Lemma getDefaultConfiguration_ready (w w' : W) b r c' :
  runs (getDefaultConfiguration Getenv yaml_config yaml_text yaml_manifest yaml_object json_credentials) w w' (Ok (b, r, c')) ->
  ready c'.
Proof.
  unfold getDefaultConfiguration. intros (w1 & [c|e] & _ & [_ H]%runs_ret)%runs_bind; [|done].
  pose proof (SetDefaults_switches Getenv json_credentials c) as Hs.
  destruct (SetDefaults Getenv json_credentials c) as [c1 err]. simpl in Hs. destruct err; [done|].
  destruct (CheckForErrors _) eqn:Ec; [done|]. injection H as _ _ ->. split; [done|]. by apply CheckForErrors_ok in Ec.
Qed.

(** A scan that starts has every switch of its reports set, whatever its file and the override of the reports leave
    out or set to null, so that none of the pointers it follows is nil; its organization is set; and a scan that clones
    the repository never asks for an exit code, even when the file does. *)
Theorem started_scan_is_configured cloneRepo tok (w w' : W) s :
  runs (NewCIScan Getenv yaml_config yaml_text yaml_manifest yaml_object json_credentials json_switches cloneRepo tok)
    w w' (Ok s) ->
  ready (config s) /\ autoScan s = cloneRepo /\ token s = tok
  /\ (cloneRepo = true -> SetExitCode (Options (config s)) = false)
  /\ configFolder s = TempFolder (Options (config s)) +:+ "/configuration/"
  /\ (exists a b c d e f, PolarisEnabled (config s) = Ret a /\ PlutoEnabled (config s) = Ret b /\ OPAEnabled (config s) = Ret c
        /\ TrivyEnabled (config s) = Ret d /\ SkipTrivyManifests (config s) = Ret e /\ TerraformEnabled (config s) = Ret f).
Proof.
  unfold NewCIScan. intros (w1 & r & H1 & H)%runs_bind. destruct r as [[[b r] c]|e]; [|by apply runs_ret in H as [_ ?]].
  apply runs_bind in H as (w2 & [e|] & _ & H); [by apply runs_ret in H as [_ ?]|].
  repeat (apply runs_bind in H as (? & ? & _ & H)). apply runs_ret in H as [_ [= ->]]. simpl.
  assert (Hr : ready c /\ (cloneRepo = true -> SetExitCode (Options c) = false)).
  { destruct cloneRepo; simpl in H1.
    - by apply getConfigurationForCloneRepo_ready in H1 as [? ?].
    - split; [by eapply getDefaultConfiguration_ready|done]. }
  destruct Hr as [Hr He]. split_and!; try done.
  destruct Hr as [([? E1] & [? E2] & [? E3] & [? E4] & [? E5] & [? E6]) _].
  unfold PolarisEnabled, PlutoEnabled, OPAEnabled, TrivyEnabled, SkipTrivyManifests, TerraformEnabled.
  rewrite E1, E2, E3, E4, E5, E6. by repeat eexists.
Qed.

(** Without a clone and a file there is no scan: nothing is detected below the empty path. *)
Lemma no_file_no_scan tok (w : W) e1 e2 :
  Lookup ("./" +:+ configFileName) w = Err e1 -> pe_NotExist e1 = true -> Lookup ""%string w = Err e2 ->
  runs (NewCIScan Getenv yaml_config yaml_text yaml_manifest yaml_object json_credentials json_switches false tok) w w
    (Err ("could not get configuration: Could not walk into dir: " +:+ pe_Text e2)).
Proof.
  intros H1 H2 H3. unfold NewCIScan, setupConfiguration, getDefaultConfiguration, read_or_detect, runs.
  unfold mbind, io_bind, asks, pure_go, mret, io_ret, readConfigurationFromFile, ReadPath.
  rewrite H1, H2. simpl. unfold ConfigFileAutoDetection, Walk. rewrite H3. done.
Qed.
End configuration_properties.

(** A repository whose file sets nothing, and tools of which Pluto fails. *)
Module Witness.
Definition file (text : string) : result path_error node := Ok (FileNode (Ok text)).

#[local] Instance files : Files unit := {|
  Lookup p _ := if decide (p = "/tmp/_insightsTemp//configuration/"%string)
                then Ok (DirNode (Ok [("pod.yaml"%string, FileNode (Ok "pod"%string))]))
                else if decide (p = "./_insightsTempImages/"%string) then Ok (DirNode (Ok []))
                else file "config";
  WriteFile _ _ w := (w, None); MkdirAll _ w := (w, None); RemoveAll _ w := (w, None); Remove _ w := (w, None)
|}.

#[local] Instance commands : Commands unit := {|
  LookPath name := name;
  GoFiles.Run _ name _ w := if decide (name = "pluto"%string) then (w, (""%string, "no"%string, Some "exit status 1"%string))
                    else (w, ("version: 1.0"%string, ""%string, None));
  RunCombined _ _ w := (w, (""%string, None))
|}.

Definition Getenv (name : string) : string := if decide (name = "ORG_NAME"%string) then "acme" else "".

Definition yaml_config (text : string) : result string Configuration := Ok empty_configuration.
Definition yaml_text (c : Configuration) : result string string := Ok ""%string.
Definition manifest (text : string) : result string KubernetesManifest := Err "none"%string.
Definition object (text : string) : result string (gmap string value) := Err "none"%string.
Definition credentials (text : string) : result string (list RegistryCredential) := Ok [].
Definition switches (text : string) : result string report_switches := Ok ∅.

Lemma started_scan_is_configured_witness :
  exists s, runs (NewCIScan Getenv yaml_config yaml_text manifest object credentials switches false "token") tt tt (Ok s)
    /\ ready (config s) /\ Organization (Options (config s)) = "acme"%string.
Proof.
  destruct (NewCIScan Getenv yaml_config yaml_text manifest object credentials switches false "token" tt)
    as [[[] [s|e]]|] eqn:E; [|vm_compute in E; discriminate..].
  exists s. split; [exact E|].
  destruct (started_scan_is_configured Getenv yaml_config yaml_text manifest object credentials switches false "token" tt tt s E)
    as [Hr _].
  split; [exact Hr|]. vm_compute in E. injection E as <-. reflexivity.
Defined.

Definition configuration : Configuration :=
  SetPathDefaults (SetDefaults Getenv credentials empty_configuration).1.

End Witness.
