(* ===== verification/CiPolicies.v ===== *)
(** * ci: policies

    [ci/pkg/ci/opa.go]: fetching the checks, collecting the objects of the
    manifests, running every check on every object, and the report.  YAML, JSON,
    the policy engine and HTTP are parameters. *)

From stdpp Require Import base decidable list gmap strings.
From Stdlib Require Import ZArith Lia Ascii.
From S2P Require Import Prelude GoStrings GoText GoValues GoFiles TrivyImages TrivyScan Opa CiModels CiManifests CiCommands CiImages CiGit CiConfig.

Local Open Scope Z_scope.

(** ** Requests and the console *)

Record http_request : Type := {
  q_Method : string;
  q_URL : string;
  q_Headers : list (string * string);
  (** The files of a form: field, file name, contents. *)
  q_Form : list (string * string * string)
}.

(** [NewRequest] is the error of making a request; [Do] gives a status code and what
    reading the body gives, without checking certificates when told so. *)
Class Http (W : Type) := {
  NewRequest : string -> option string;
  Do : bool -> http_request -> W -> W * result string (Z * result string string)
}.

(** ** Policies *)

Section opa.
Context {W F : Type} `{!Files W} `{!Http W} `{!RegoEngine W} `{!KubeClient W} `{!Severities F} `{!FloatZero F}.
Context `{!RangeOrder string string} `{!RangeOrder string value}.
Context (Getenv : string -> string).
Context (yaml_documents : string -> list (result string (gmap string value)) * option string).
Context (json_checks : string -> result string (list (OPACustomCheck F) * list (CheckSetting F))).
Context (json_items : list (Opa.ActionItem F) -> result string string).
Context (check_text : check_error -> string) (multi_text : list string -> string) (opa_version : string).
(** What the client's library does with the groups, kinds and objects. *)
Context (install_client : list (string * string) -> list GVK -> list (gmap string value) -> io W unit).

Definition skip_ssl : bool := bool_decide (Getenv "SKIP_SSL_VALIDATION" = "true"%string).

Definition opa_checks_url (c : Configuration) : string :=
  Hostname (Options c) +:+ "/v0/organizations/" +:+ Organization (Options c) +:+ "/ci/opa?includeRegoV1=true".

(** Instances, checks, and the libraries of the two versions of the language. *)
Definition refreshChecks (c : Configuration)
    : io W (result string (list (CheckSetting F) * list (OPACustomCheck F) * list OPACustomLibrary * list OPACustomLibrary)) :=
  let url := opa_checks_url c in
  match NewRequest url with
  | Some e => mret (Err e)
  | None =>
      resp ← effect (Do skip_ssl {| q_Method := "GET"; q_URL := url;
                                    q_Headers := [("Authorization"%string, "Bearer " +:+ TrimSpace (Getenv "FAIRWINDS_TOKEN"))];
                                    q_Form := [] |});
      mret (match resp with
            | Err e => Err e
            | Ok (code, Err e) => Err e
            | Ok (code, Ok body) =>
                if negb (code =? 200) then
                  Err ("Insights returned unexpected HTTP status code: " +:+ fmt_d code +:+ " - " +:+ body)
                else match json_checks body with
                     | Err e => Err e
                     | Ok (l, instances) =>
                         let '(checks, libsV0, libsV1) := GetOPACustomChecksAndLibraries l in
                         Ok (instances, checks, libsV0, libsV1)
                     end
            end)
  end.

(** The objects found, and the file of each document with a kind. *)
Definition objects : Type := list (gmap string value) * list string.

Definition add_opa_document (file : string) (doc : gmap string value) (s : objects) : go objects :=
  match doc !! "kind"%string with
  | None => Ret s
  | Some yamlKind =>
      resourceKind ← deref (to_string (Some yamlKind));
      found ← (if decide (resourceKind = "list"%string) then
                 nodes ← deref (to_array (doc !! "items"%string));
                 mapM (fun node => deref (to_map (Some node))) nodes
               else Ret [doc]);
      mret (s.1 ++ found, s.2 ++ [file])
  end.

(** Any document that cannot be read ends the walk. *)
Fixpoint add_opa_documents (file : string) (docs : list (result string (gmap string value))) (stop : option string) (s : objects)
    : go (objects * option string) :=
  match docs with
  | [] => Ret (s, stop)
  | Err e :: _ => Ret (s, Some e)
  | Ok doc :: docs' => s ← add_opa_document file doc s; add_opa_documents file docs' stop s
  end.

Definition opa_callback (folder path name : string) (info : option node) (err : option path_error) (s : objects)
    : go (objects * option (walk_error string)) :=
  n ← deref info;
  if negb (is_yaml name) then Ret (s, None)
  else match n with
       | DirNode _ => Ret (s, Some (WalkError "is a directory"%string))
       | FileNode (Err e) => Ret (s, Some (WalkError (pe_Text e)))
       | FileNode (Ok content) =>
           let '(docs, stop) := yaml_documents content in
           '(s, err) ← add_opa_documents (TrimPrefix path (Clean folder +:+ "/")) docs stop s;
           Ret (s, fmap (M:=option) WalkError err)
       end.

(** [kube.SetFileClient]. *)
Definition SetFileClient (files : list (gmap string value)) : io W unit :=
  gvs ← pure_go (group_versions [] files);
  gvks ← pure_go (object_gvks files);
  install_client gvs gvks files.

Definition ci_info : InsightsInfo :=
  {| InsightsContext := "CI/CD"; ii_Cluster := ""; Repository := ""; ii_AdmissionRequest := None |}.

(** One check on one object: its items, or one more error. *)
Definition run_check (obj : gmap string value) (libsV0 libsV1 : list OPACustomLibrary) (check : OPACustomCheck F)
    (s : list (Opa.ActionItem F) * list string) : io W (list (Opa.ActionItem F) * list string) :=
  let md := ExtractMetadata obj in
  r ← (fun w => ProcessCheckForItemV2 check obj (m_name md) (m_kind md) (m_namespace md) libsV0 libsV1 ci_info w);
  mret (match r with
        | Ok items => (s.1 ++ items, s.2)
        | Err e => (s.1, s.2 ++ ["error while processing check " +:+ cc_Name check +:+ ": " +:+ check_text e])
        end).

Definition processObject (obj : gmap string value) (checks : list (OPACustomCheck F)) (libsV0 libsV1 : list OPACustomLibrary)
    : io W (list (Opa.ActionItem F) * list string) :=
  for_each (run_check obj libsV0 libsV1) checks ([], []).

(** The error of an object names [fileNames[fileNumber]], which may be out of range. *)
Definition process_file (fileNames : list string) (checks : list (OPACustomCheck F)) (libsV0 libsV1 : list OPACustomLibrary)
    (f : nat * gmap string value) (s : list (Opa.ActionItem F) * list (ci_error F))
    : io W (list (Opa.ActionItem F) * list (ci_error F)) :=
  '(items, errs) ← processObject f.2 checks libsV0 libsV1;
  if decide (errs = []) then mret (s.1 ++ items, s.2)
  else
    file ← pure_go (deref (fileNames !! f.1));
    mret (s.1 ++ items,
          s.2 ++ [ScanError (with_file file "" (scan_error (multi_text errs) "processing OPA checks" "" ""))]).

Definition opa_report : ReportInfo := {| Report := "opa"; CiModels.Version := opa_version; Filename := "opa.json" |}.

Definition numbered {A} (l : list A) : list (nat * A) := imap pair l.

Definition ProcessOPA (c : Configuration) : io W (option ReportInfo * option (ci_error F)) :=
  r ← refreshChecks c;
  match r with
  | Err e => mret (None, Some (Plain e))
  | Ok (_, checks, libsV0, libsV1) =>
      let folder := TempFolder (Options c) +:+ "/configuration/" in
      found ← asks (Lookup folder);
      '(s, err) ← pure_go (Walk (opa_callback folder) folder found ([], []));
      match err with
      | Some e => mret (None, Some (Plain e))
      | None =>
          _ ← SetFileClient s.1;
          '(actionItems, errs) ← for_each (process_file s.2 checks libsV0 libsV1) (numbered s.1) ([], []);
          match json_items actionItems with
          | Err e => mret (None, Some (Multi (errs ++ [Plain e])))
          | Ok text =>
              err ← effect (WriteFile (PathJoin (TempFolder (Options c)) (Filename opa_report)) text);
              mret (match err with
                    | Some e => (None, Some (Multi (errs ++ [Plain e])))
                    | None => (Some opa_report, ErrorOrNil errs)
                    end)
          end
      end
  end.
End opa.

(** * Properties *)

Section opa_properties.
Context {W F : Type} `{!Files W} `{!Http W} `{!RegoEngine W} `{!KubeClient W} `{!Severities F} `{!FloatZero F}.
Context `{!RangeOrder string string} `{!RangeOrder string value}.
Context (Getenv : string -> string).
Context (yaml_documents : string -> list (result string (gmap string value)) * option string).
Context (json_checks : string -> result string (list (OPACustomCheck F) * list (CheckSetting F))).
Context (json_items : list (Opa.ActionItem F) -> result string string).
Context (check_text : check_error -> string) (multi_text : list string -> string) (opa_version : string).
Context (install_client : list (string * string) -> list GVK -> list (gmap string value) -> io W unit).

(** The items that a check finds in an object, at some point of the run. *)
Definition check_items (libsV0 libsV1 : list OPACustomLibrary) (obj : gmap string value) (check : OPACustomCheck F)
    (items : list (Opa.ActionItem F)) : Prop :=
  exists w1 w2 : W, let md := ExtractMetadata obj in
    ProcessCheckForItemV2 check obj (m_name md) (m_kind md) (m_namespace md) libsV0 libsV1 ci_info w1 = Ret (w2, Ok items).

(** Those of every check, in order. *)
Definition object_items (checks : list (OPACustomCheck F)) (libsV0 libsV1 : list OPACustomLibrary) (obj : gmap string value)
    (items : list (Opa.ActionItem F)) : Prop :=
  exists ls, Forall2 (check_items libsV0 libsV1 obj) checks ls /\ items = mjoin ls.

Lemma processObject_items obj checks l0 l1 (w w' : W) s :
  runs (processObject (F := F) check_text obj checks l0 l1) w w' s -> s.2 = [] -> object_items checks l0 l1 obj s.1.
Proof.
  apply (for_each_inv (fun l s _ => s.2 = [] -> object_items l l0 l1 obj s.1)).
  - intros l check s1 w1 s2 w2 H1. unfold run_check. intros (w3 & r & Hr & [_ ->]%runs_ret)%runs_bind.
    destruct r as [items|e]; simpl; [|by intros [_ ?]%app_nil]. intros He. destruct (H1 He) as (ls & Hls & ->).
    exists (ls ++ [items]). split; [|by rewrite join_app; simpl; rewrite app_nil_r].
    apply Forall2_app; [done|]. constructor; [|done]. by exists w1, w3.
  - intros _. by exists [].
Qed.

Lemma process_files_items names checks l0 l1 (fs : list (nat * gmap string value)) (w w' : W) s :
  runs (for_each (process_file (F := F) check_text multi_text names checks l0 l1) fs ([], [])) w w' s -> s.2 = [] ->
  exists iss, Forall2 (fun f => object_items checks l0 l1 f.2) fs iss /\ s.1 = mjoin iss.
Proof.
  apply (for_each_inv (fun l s _ => s.2 = [] -> exists iss, Forall2 (fun f => object_items checks l0 l1 f.2) l iss /\ s.1 = mjoin iss)).
  - intros l f s1 w1 s2 w2 H1. unfold process_file. intros (w3 & [items errs] & Hp & H)%runs_bind.
    case_decide as He.
    + apply runs_ret in H as [_ ->]. simpl. intros Hs. destruct (H1 Hs) as (iss & Hf & ->).
      exists (iss ++ [items]). split; [|by rewrite join_app; simpl; rewrite app_nil_r].
      apply Forall2_app; [done|]. constructor; [|done]. by apply processObject_items in Hp.
    + apply runs_bind in H as (w4 & file & _ & [_ ->]%runs_ret). simpl. by intros [_ ?]%app_nil.
  - intros _. by exists [].
Qed.

Lemma Forall2_numbered {A B} (P : A -> B -> Prop) (l : list A) (k : list B) :
  Forall2 (fun f => P f.2) (numbered l) k -> Forall2 P l k.
Proof.
  unfold numbered. intros H. rewrite Forall2_lookup in H. apply Forall2_lookup. intros i. specialize (H i).
  rewrite list_lookup_imap in H. destruct (l !! i), (k !! i); inversion H; subst; by constructor.
Qed.

Lemma ErrorOrNil_nil (errs : list (ci_error F)) : ErrorOrNil errs = None -> errs = [].
Proof. by destruct errs. Qed.

(** An OPA report without an error is complete: the file that was written holds, in order, every item that every
    check finds in every object of the manifests that were walked. *)
Theorem ci_opa_report_complete c (w w' : W) r :
  runs (ProcessOPA Getenv yaml_documents json_checks json_items check_text multi_text opa_version install_client c) w w'
    (Some r, None) ->
  r = opa_report opa_version
  /\ exists instances checks l0 l1 found objs names iss text w1 w2 w3,
       runs (refreshChecks Getenv json_checks c) w w1 (Ok (instances, checks, l0, l1))
       /\ Walk (opa_callback yaml_documents (TempFolder (Options c) +:+ "/configuration/"))
            (TempFolder (Options c) +:+ "/configuration/") found ([], []) = Ret ((objs, names), None)
       /\ runs (SetFileClient install_client objs) w1 w2 tt
       /\ Forall2 (object_items checks l0 l1) objs iss
       /\ json_items (mjoin iss) = Ok text
       /\ WriteFile (PathJoin (TempFolder (Options c)) "opa.json") text w3 = (w', None).
Proof.
  unfold ProcessOPA. intros (w1 & [[[[i ch] l0] l1]|e] & H1 & H)%runs_bind; [|by apply runs_ret in H as [_ ?]].
  apply runs_bind in H as (w2 & found & [-> ->]%runs_asks & H).
  apply runs_bind in H as (w3 & [[objs names] [e|]] & [-> HW]%runs_pure & H); [by apply runs_ret in H as [_ ?]|].
  apply runs_bind in H as (w4 & [] & Hset & H). apply runs_bind in H as (w5 & [ais errs] & Hf & H).
  destruct (json_items ais) as [text|e] eqn:Hj; [|by apply runs_ret in H as [_ ?]].
  apply runs_bind in H as (w6 & [e|] & Hw%runs_effect & [-> H]%runs_ret); [done|].
  injection H as -> He. symmetry in He. apply ErrorOrNil_nil in He. simpl in He. subst errs.
  apply process_files_items in Hf as (iss & Hiss%Forall2_numbered & Ha); [|done]. simpl in Ha. subst ais.
  split; [done|]. exists i, ch, l0, l1, (Lookup (TempFolder (Options c) +:+ "/configuration/") w1), objs, names, iss, text, w1, w4, w5.
  split_and!; done.
Qed.

(** Without lists, every object is paired with its file. *)
Lemma add_opa_documents_tagged file docs stop s (t : list (string * gmap string value)) s' err :
  (forall doc, Ok doc ∈ docs -> doc !! "kind"%string <> Some (VString "list")) ->
  s = (t.*2, t.*1) -> add_opa_documents file docs stop s = Ret (s', err) ->
  exists t', s' = ((t ++ t').*2, (t ++ t').*1) /\ Forall (fun x => x.1 = file /\ Ok x.2 ∈ docs) t'.
Proof.
  revert s t. induction docs as [|[doc|e] docs IH]; intros s t Hk Hs; simpl.
  - intros [= <- _]. exists []. by rewrite app_nil_r.
  - intros (s1 & H1 & H2)%go_bind_ret. unfold add_opa_document in H1.
    destruct (doc !! "kind"%string) as [k|] eqn:Ek.
    + destruct k as [| | |kind| |]; simpl in H1; try done. rewrite decide_False in H1.
      2:{ intros ->. eapply Hk; [|exact Ek]. by left. }
      injection H1 as <-. apply (IH _ (t ++ [(file, doc)])) in H2.
      * destruct H2 as (t' & -> & Hf). exists ((file, doc) :: t'). rewrite <-app_assoc. split; [done|].
        constructor; [split; [done|by left]|]. eapply Forall_impl; [exact Hf|]. intros x [? ?]. split; [done|by right].
      * intros d Hd. apply Hk. by right.
      * subst s. by rewrite !fmap_app.
    + injection H1 as <-. apply (IH _ t) in H2; [|intros d Hd; apply Hk; by right|done].
      destruct H2 as (t' & -> & Hf). exists t'. split; [done|].
      eapply Forall_impl; [exact Hf|]. intros x [? ?]. split; [done|by right].
  - intros [= <- _]. exists []. by rewrite app_nil_r.
Qed.

(** An object that a list has brought in can be past the last name: its error panics. *)
Lemma unnamed_error_panics names checks l0 l1 i obj s (w w1 : W) items errs :
  runs (processObject (F := F) check_text obj checks l0 l1) w w1 (items, errs) -> errs <> [] -> names !! i = None ->
  process_file check_text multi_text names checks l0 l1 (i, obj) s w = Panic.
Proof.
  intros H He Hn. unfold process_file, mbind, io_bind. unfold runs in H. simpl. rewrite H. rewrite decide_False by done.
  by rewrite Hn.
Qed.

(** An object without a version of its API ends the program. *)
Lemma missing_apiVersion_panics files obj (w : W) :
  obj ∈ files -> obj !! "apiVersion"%string = None -> SetFileClient install_client files w = Panic.
Proof.
  intros Hin Ho. unfold SetFileClient, mbind, io_bind, pure_go.
  assert (H : forall found, group_versions found files = Panic); [|by rewrite H].
  induction files as [|x l IH]; intros found; [by apply elem_of_nil in Hin|].
  apply elem_of_cons in Hin as [<-|Hin]; cbn [group_versions].
  - unfold api_version. by rewrite Ho.
  - destruct (api_version x) as [v|]; simpl; [|done]. case_decide; [by apply IH|]. by rewrite IH.
Qed.
End opa_properties.

(** Two objects of one document, and one name. *)
Example list_misaligns :
  let pod := {["kind"%string := VString "Pod"]} in
  add_opa_document "a.yaml" {["kind"%string := VString "list"; "items"%string := VArray [VMap pod; VMap pod]]} ([], [])
  = Ret ([pod; pod], ["a.yaml"%string]).
Proof. vm_compute. reflexivity. Qed.

(** One manifest and one check. *)
Module Witness.
#[local] Existing Instance CiConfig.Witness.files.
#[local] Instance zero : FloatZero Z := {| f_zero := 0; f_is_zero z := z =? 0; f_zero_law := eq_refl |}.
#[local] Instance severities : Severities Z := {| ParseFloat _ := Err "not a number"%string; half := 5 |}.
#[local] Instance strings_order : RangeOrder string string := canonical_order.
#[local] Instance values_order : RangeOrder string value := canonical_order.
#[local] Instance engine : RegoEngine unit := {|
  PrepareForEval _ := None;
  Eval _ _ w := (w, Ok [{["results"%string := VMap {["fairwinds"%string := VMap {["deny"%string :=
    VArray [VString "bad"]]} ]} ]}]);
  InterfaceToValue v := Ok v
|}.

#[local] Instance client : KubeClient unit := {|
  GetKubeClient := true;
  RESTMapping _ _ w := (w, Ok "v1/pods"%string);
  ResourceFor _ _ w := (w, Ok "v1/pods"%string);
  List _ w := (w, Ok [])
|}.

#[local] Instance http : Http unit := {|
  NewRequest _ := None;
  Do _ _ w := (w, Ok (200, Ok "checks"%string))
|}.

Definition pod : gmap string value :=
  {["kind"%string := VString "Pod"; "apiVersion"%string := VString "v1";
    "metadata"%string := VMap {["name"%string := VString "web"]} ]}.

Definition names_check : OPACustomCheck Z :=
  {| cc_Name := "names"; cc_Version := "2.0"; cc_Rego := "package fairwinds"; cc_Title := Some "Bad name"%string;
     cc_Severity := None; cc_Remediation := None; cc_Category := None; cc_AdditionalKubernetesData := [];
     cc_IsLibrary := false; cc_RegoVersion := None |}.

Definition documents (text : string) : list (result string (gmap string value)) * option string := ([Ok pod], None).
Definition checks (text : string) : result string (list (OPACustomCheck Z) * list (CheckSetting Z)) := Ok ([names_check], []).
Definition item_titles (l : list (Opa.ActionItem Z)) : result string string := Ok (Join (ai_Title <$> l) ",").
Definition install (gvs : list (string * string)) (gvks : list GVK) (objs : list (gmap string value)) : io unit unit := mret tt.

Lemma ci_opa_report_complete_witness :
  runs (ProcessOPA CiConfig.Witness.Getenv documents checks item_titles (fun _ => ""%string) (fun l => Join l ";") "1" install CiConfig.Witness.configuration) tt tt
    (Some (opa_report "1"), None)
  /\ exists objs iss checks l0 l1 text, Forall2 (object_items (W := unit) (F := Z) checks l0 l1) objs iss
       /\ item_titles (mjoin iss) = Ok text.
Proof.
  assert (H : runs (ProcessOPA CiConfig.Witness.Getenv documents checks item_titles (fun _ => ""%string) (fun l => Join l ";") "1" install
    CiConfig.Witness.configuration) tt tt (Some (opa_report "1"), None)) by (vm_compute; reflexivity).
  split; [exact H|].
  destruct (ci_opa_report_complete CiConfig.Witness.Getenv documents checks item_titles (fun _ => ""%string) (fun l => Join l ";") "1" install
    CiConfig.Witness.configuration tt tt _ H) as (_ & i & ch & l0 & l1 & found & objs & names & iss & text & w1 & w2 & w3 & _ & _ & _ & H1 & H2 & _).
  exists objs, iss, ch, l0, l1, text. split; [exact H1|exact H2].
Defined.
End Witness.
