(* ===== verification/CiScan.v ===== *)
(** * ci: the scan

    [ci/pkg/ci/ci.go] from the manifests to the results, [polaris.go], [pluto.go],
    [workload.go], [scan-errors.go] and [cmd/insights-ci/main.go]: the reports of a
    scan, sending them, what is printed, and the exit code.  JSON, XML and HTTP are
    parameters. *)

From stdpp Require Import base decidable list gmap strings.
From Stdlib Require Import ZArith Lia Ascii.
From S2P Require Import Prelude GoStrings GoText GoValues GoFiles TrivyImages TrivyScan Opa CiModels CiManifests CiCommands CiImages CiGit CiConfig CiPolicies.

Local Open Scope Z_scope.

(** ** The console *)

Class Console (W : Type) := { Println : string -> W -> W }.

Definition print_lines {W} `{!Console W} (l : list string) : io W unit :=
  fun w => Ret (foldl (fun w s => Println s w) w l, tt).

Definition filesModifiedFileName : string := "files_modified".
Definition maxLinesForPrint : nat := 8.

(** ** The other reports *)

Section reports.
Context {W F : Type} `{!Files W} `{!Commands W} `{!FloatZero F} (Getenv : string -> string).

Definition GetPolarisReport (s : CIScan) : io W (option ReportInfo * option string) :=
  '(polarisVersion, err) ← Exec "polaris" ["version"%string];
  match err with
  | Some e => mret (None, Some ("unable to get polaris version: " +:+ e +:+ ": " +:+ polarisVersion))
  | None =>
      version ← pure_go (deref (Split polarisVersion ":" !! 1%nat));
      '(output, err) ← ExecWithMessage "polaris"
        ["audit"; "--audit-path"; configFolder s; "--output-file"; PathJoin (TempFolder (Options (config s))) "polaris.json"]%string;
      mret (match err with
            | Some e => (None, Some (e +:+ ": " +:+ output))
            | None => (Some {| Report := "polaris"; CiModels.Version := version; Filename := "polaris.json" |}, None)
            end)
  end.

Definition GetPlutoReport (s : CIScan) : io W (option ReportInfo * option (ci_error F)) :=
  '(plutoResults, err) ← Exec "pluto"
    ["detect-files"; "-d"; configFolder s; "-o"; "json"; "--ignore-deprecations"; "--ignore-removals"]%string;
  match err with
  | Some e => mret (None, Some (Plain e))
  | None =>
      err ← effect (WriteFile (PathJoin (TempFolder (Options (config s))) "pluto.json") plutoResults);
      mret (match err with
            | Some e => (None, Some (Plain e))
            | None => (Some {| Report := "pluto"; CiModels.Version := Getenv "plutoVersion"; Filename := "pluto.json" |}, None)
            end)
  end.

Definition workloadsReportVersion : string := "0.2.0".

Definition GetWorkloadReport (json_resources : list CiModels.Resource -> result string string) (s : CIScan)
    (resources : list CiModels.Resource) : io W (result string ReportInfo) :=
  match json_resources resources with
  | Err e => mret (Err e)
  | Ok text =>
      err ← effect (WriteFile (PathJoin (TempFolder (Options (config s))) "scan-workloads.json") text);
      mret (match err with
            | Some e => Err e
            | None => Ok {| Report := "scan-workloads"; CiModels.Version := workloadsReportVersion;
                            Filename := "scan-workloads.json" |}
            end)
  end.

Definition processScanErrorsReportProperties (json_errors : list (ScanErrorsReportResult F) -> result string string) (s : CIScan)
    (items : list (ScanErrorsReportResult F)) : io W (result string ReportInfo) :=
  match json_errors items with
  | Err e => mret (Err ("while encoding report output: " +:+ e))
  | Ok text =>
      err ← effect (WriteFile (PathJoin (TempFolder (Options (config s))) "scan-errors.json") text);
      mret (match err with
            | Some e => Err ("while writing report output: " +:+ e)
            | None => Ok {| Report := "scan-errors"; CiModels.Version := ScanErrorsReportVersion; Filename := "scan-errors.json" |}
            end)
  end.

(** Images named with a variable are left to the script that runs the scan. *)
Definition hasEnvVar (s : string) : bool := Contains s "$".

Definition getDockerImages (dockerImagesStr : list string) : list DockerImage :=
  (fun n => {| di_Name := n; di_PullRef := "" |}) <$> filter (fun n => hasEnvVar n = false) dockerImagesStr.
End reports.

(** ** A scan

    What is not under the repository's control: the parsers, writers, clocks and
    engines used by the reports. *)
Record CILibs (W F : Type) : Type := {
  l_yaml_values : gmap string value -> result string string;
  l_yaml_release : string -> result string HelmReleaseModel;
  l_yaml_documents : string -> list (result string (gmap string value)) * option string;
  l_tar_entries : string -> list (string * result string string) * option string;
  l_json_value : string -> result string value;
  l_json_results : string -> result string TrivyResults;
  l_json_report : MinimizedReport -> result string string;
  l_json_checks : string -> result string (list (OPACustomCheck F) * list (CheckSetting F));
  l_json_items : list (Opa.ActionItem F) -> result string string;
  l_json_resources : list CiModels.Resource -> result string string;
  l_json_errors : list (ScanErrorsReportResult F) -> result string string;
  l_json_scan : string -> result string (ScanResults F);
  l_write_xml : list Testcase -> result string string;
  l_multi_text : list string -> string;
  l_check_text : check_error -> string;
  l_opa_version : string;
  l_now : Z;
  l_install_client : list (string * string) -> list GVK -> list (gmap string value) -> io W unit
}.
Arguments l_yaml_values {W F}. Arguments l_yaml_release {W F}. Arguments l_yaml_documents {W F}.
Arguments l_tar_entries {W F}. Arguments l_json_value {W F}. Arguments l_json_results {W F}.
Arguments l_json_report {W F}. Arguments l_json_checks {W F}. Arguments l_json_items {W F}.
Arguments l_json_resources {W F}. Arguments l_json_errors {W F}. Arguments l_json_scan {W F}.
Arguments l_write_xml {W F}. Arguments l_multi_text {W F}. Arguments l_check_text {W F}.
Arguments l_opa_version {W F}. Arguments l_now {W F}. Arguments l_install_client {W F}.

Section scan.
Context {W F : Type} `{!Files W} `{!Commands W} `{!Http W} `{!Console W}.
Context `{!RegoEngine W} `{!KubeClient W} `{!Severities F} `{!FloatZero F}.
Context `{!RangeOrder string string} `{!RangeOrder string value} `{!RangeOrder string Image}.
Context (Getenv : string -> string) (lib : CILibs W F).

(** Reports and items of the scan-errors report so far. *)
Definition progress : Type := list ReportInfo * list (ScanErrorsReportResult F).

Definition add_problem (e : option (ci_error F)) (missing : list (ScanErrorsReportResult F)) (p : progress) : progress :=
  (p.1, AddScanErrorsReportResultFromError p.2 e missing).

Definition add_report (r : option ReportInfo) (p : progress) : progress :=
  (p.1 ++ from_ptr [] (fun r => [r]) r, p.2).

(** A report of an operation: its error, with its context, and the report if there is one. *)
Definition internal (message context resource : string) : ScanErrorsReportResult F :=
  scan_error message context "InternalOperation" resource.

Definition outcome (r : option ReportInfo * option (ci_error F)) (context resource : string) (p : progress) : progress :=
  add_report r.1 (add_problem r.2 [internal "" context resource] p).

Definition run_report (enabled : bool) (m : io W (option ReportInfo * option (ci_error F))) (context resource : string)
    (p : progress) : io W progress :=
  if enabled then r ← m; mret (outcome r context resource p) else mret p.

(** Polaris fails with a text. *)
Definition polaris_step (s : CIScan) (enabled : bool) (p : progress) : io W progress :=
  if enabled then
    '(r, err) ← GetPolarisReport s;
    mret (add_report r (add_problem ((fun e : string => ScanError (internal e "running polaris" "GetPolarisReport")) <$> err) [] p))
  else mret p.

Definition trivy_step (s : CIScan) (enabled : bool) (manifestImages : list Image) (p : progress) : io W progress :=
  if enabled then
    skip ← pure_go (SkipTrivyManifests (config s));
    let manifestImagesToScan := if (skip : bool) then [] else manifestImages in
    let dockerImages := getDockerImages (Docker (CiModels.Images (config s))) in
    run_report true
      (GetTrivyReport (l_json_results lib) (l_json_report lib) (l_multi_text lib) (l_now lib) Getenv (l_tar_entries lib)
         (l_json_value lib) (config s) dockerImages manifestImagesToScan)
      "downloading images and running trivy" "GetTrivyReport" p
  else mret p.

Definition opa_step (s : CIScan) (enabled : bool) (p : progress) : io W progress :=
  run_report enabled
    (ProcessOPA Getenv (l_yaml_documents lib) (l_json_checks lib) (l_json_items lib) (l_check_text lib) (l_multi_text lib)
       (l_opa_version lib) (l_install_client lib) (config s))
    "processing OPA policies" "ProcessOPA" p.

Definition pluto_step (s : CIScan) (enabled : bool) (p : progress) : io W progress :=
  run_report enabled (GetPlutoReport Getenv s) "running pluto" "GetPlutoReport" p.

(** The charts and files of the configuration are put where they are scanned; what fails
    is an item. *)
Definition prepare_manifests (s : CIScan) : io W (list (ScanErrorsReportResult F)) :=
  err ← ProcessHelmTemplates (l_yaml_values lib) (l_yaml_release lib) (config s) (repoBaseFolder s) (configFolder s);
  let items := AddScanErrorsReportResultFromError [] err [] in
  err ← CopyYaml (config s) (repoBaseFolder s) (configFolder s);
  mret (AddScanErrorsReportResultFromError items
    ((fun e : string => ScanError (with_file ""
        "Examine the CI logs to determine why yaml files failed to copy to the configuration directory. Perhaps memory or disk space is low."
        (internal e "copying yaml files to configuration directory" "CopyYaml"))) <$> err) []).

(** The images and resources found; an error is an item. *)
Definition find_resources (s : CIScan) (items : list (ScanErrorsReportResult F))
    : io W (list Image * list CiModels.Resource * list (ScanErrorsReportResult F)) :=
  found ← asks (Lookup (configFolder s));
  '(res, errs) ← pure_go (getAllResources (l_yaml_documents lib) (Helm (Manifests (config s))) (configFolder s) found);
  let '(images, resources) := default ([], []) res in
  let err := if decide (errs = []) then None
             else Some (ScanError (internal (l_multi_text lib errs) "getting all resources from manifest files" "GetAllResources")) in
  mret (images, resources, AddScanErrorsReportResultFromError items err []).

(** The reports of the tools, in order, once the workloads are known. *)
Definition run_tools (s : CIScan) (images : list Image) (p : progress) : io W progress :=
  enabled ← pure_go (TrivyEnabled (config s));
  p ← trivy_step s enabled images p;
  enabled ← pure_go (OPAEnabled (config s));
  p ← opa_step s enabled p;
  enabled ← pure_go (PlutoEnabled (config s));
  p ← pluto_step s enabled p;
  _ ← pure_go (TerraformEnabled (config s));
  mret p.

Definition printScanErrors (items : list (ScanErrorsReportResult F)) : io W unit :=
  print_lines ("Scan Errors(these are soft errors that do not prevent the scan from completing):"%string
               :: ((fun r => String (byte 9) ("- " +:+ createErrorItemMessage r)) <$> items)).

(** Every item is printed and sent as one more report. *)
Definition finish_reports (s : CIScan) (p : progress) : io W (result string (list ReportInfo)) :=
  if decide (p.2 = []) then mret (Ok p.1)
  else
    _ ← printScanErrors p.2;
    r ← processScanErrorsReportProperties (l_json_errors lib) s p.2;
    mret (match r with
          | Err e => Err ("unable to process scan errors report items: " +:+ e)
          | Ok r => Ok (p.1 ++ [r])
          end).

Definition ProcessRepository (s : CIScan) : io W (result string (list ReportInfo)) :=
  items ← prepare_manifests s;
  '(manifestImages, resources, items) ← find_resources s items;
  enabled ← pure_go (PolarisEnabled (config s));
  p ← polaris_step s enabled ([], items);
  workloadReport ← GetWorkloadReport (l_json_resources lib) s resources;
  match workloadReport with
  | Err e => mret (Err ("unable to get workloads report, which is depended on by other reports: " +:+ e))
  | Ok workloadReport =>
      p ← run_tools s manifestImages (add_report (Some workloadReport) p);
      finish_reports s p
  end.

(** ** Sending *)

(** [logrus.Fatalf] ends the program where it is. *)
Inductive send_error : Type := FatalExit (e : string) | SendFailed (e : string).

(** The files of the form, read one after the other. *)
Fixpoint form_files (files : list (string * string * string)) (w : W) : result send_error (list (string * string * string)) :=
  match files with
  | [] => Ok []
  | (field, filename, location) :: rest =>
      match ReadPath location w with
      | Err e => Err (FatalExit ("Unable to open file for " +:+ field +:+ ": " +:+ pe_Text e))
      | Ok text => match form_files rest w with
                   | Err e => Err e
                   | Ok l => Ok ((field, filename, text) :: l)
                   end
      end
  end.

Definition report_files (s : CIScan) (reports : list ReportInfo) : list (string * string * string) :=
  ("fairwinds-insights"%string, configFileName, PathJoin (repoBaseFolder s) configFileName)
  :: ((fun r => (Report r, Filename r, PathJoin (TempFolder (Options (config s))) (Filename r))) <$> reports).

Definition result_headers (s : CIScan) (g : gitInfo) (reports : list ReportInfo) : list (string * string) :=
  let o := Options (config s) in
  [("Authorization", "Bearer " +:+ token s); ("X-Commit-Hash", currentHash g); ("X-Commit-Message", commitMessage g);
   ("X-Branch-Name", branch g); ("X-Master-Hash", masterHash g); ("X-Base-Branch", BaseBranch o); ("X-Origin", origin g);
   ("X-Repository-Name", repoName g); ("X-New-AI-Threshold", fmt_d (NewActionItemThreshold o));
   ("X-Severity-Threshold", SeverityThreshold o); ("X-Script-Version", Getenv "SCRIPT_VERSION");
   ("X-Image-Version", Getenv "IMAGE_VERSION"); ("X-CI-Runner", CIRunner o)]%string
  ++ ((fun r => ("X-Fairwinds-Report-Version-" +:+ Report r, TrimSuffix (CiModels.Version r) newline)) <$> reports).

Definition results_url (c : Configuration) : string :=
  Hostname (Options c) +:+ "/v0/organizations/" +:+ Organization (Options c) +:+ "/ci/scan-results".

Definition hint_lines (h : option hint) : list string :=
  match h with
  | Some (RunnerHint _ (description, link)) => [description; link]
  | _ => []
  end.

Definition sendResults (s : CIScan) (reports : list ReportInfo) : io W (result send_error (ScanResults F)) :=
  form ← asks (form_files (report_files s reports));
  match form with
  | Err e => mret (Err e)
  | Ok form =>
      info ← getGitInfo Getenv (CIRunner (Options (config s))) (repoBaseFolder s) (RepositoryName (Options (config s)))
               (BaseBranch (Options (config s)));
      match info with
      | Err e => mret (Err (FatalExit ("Unable to get git details: " +:+ e)))
      | Ok (g, h) =>
          _ ← print_lines (hint_lines h);
          let form := form ++ (if decide (filesModified g = []) then []
                               else [(filesModifiedFileName, filesModifiedFileName, Join (filesModified g) newline)]) in
          match NewRequest (results_url (config s)) with
          | Some e => mret (Err (SendFailed e))
          | None =>
              resp ← effect (Do (skip_ssl Getenv)
                {| q_Method := "POST"; q_URL := results_url (config s); q_Headers := result_headers s g reports; q_Form := form |});
              mret (match resp with
                    | Err e => Err (SendFailed e)
                    | Ok (_, Err e) => Err (SendFailed e)
                    | Ok (code, Ok body) =>
                        if negb (code =? 200) then Err (SendFailed ("Invalid status code: " +:+ fmt_d code +:+ " - " +:+ body))
                        else match l_json_scan lib body with
                             | Err e => Err (SendFailed e)
                             | Ok r => Ok r
                             end
                    end)
          end
      end
  end.

(** *** Printing *)

(** At most nine lines; the ninth is followed by a mark. *)
Definition printMultilineString (title str : string) : list string :=
  let str := if decide (str = ""%string) then "Unspecified"%string else str in
  let lines := Split str (byte 10) in
  ("  " +:+ title +:+ ":")
  :: (((fun line => "    " +:+ line) <$> take (S maxLinesForPrint) lines)
      ++ (if decide (maxLinesForPrint < length lines)%nat then ["    [truncated]"%string] else [])).

Definition printActionItems (ais : list (ActionItem F)) : list string :=
  ais ≫= fun ai => [GetReadableTitle ai] ++ printMultilineString "Description" (Description ai)
                  ++ printMultilineString "Remediation" (Remediation ai) ++ [""%string].

Definition numbered_lines (title : string) (l : list string) : list string :=
  match l with
  | [] => []
  | _ => title :: ((fun ip => String (byte 9) ("[" +:+ fmt_d (Z.of_nat ip.1 + 1) +:+ "/" +:+ fmt_d (lenZ l) +:+ "] - " +:+ ip.2))
                   <$> imap pair l)
  end.

Definition printScannedFilesInfo (c : Configuration) : list string :=
  numbered_lines "Kubernetes files scanned:" (YamlPaths (Manifests c))
  ++ numbered_lines "Helm charts scanned:" ((fun h => h_Path h +:+ "/" +:+ h_Name h) <$> Helm (Manifests c))
  ++ numbered_lines "Terraform files ignored:" (Paths (Terraform c)).

(** What ends a run: nothing, an error, the exit code that was asked for, or the end on
    the spot. *)
Inductive ending : Type := Done | Failed (e : string) | ErrExitCode | Exited.

(** The message of a scan that has not passed prints the error variable, which is nil. *)
Definition failed_lines (c : Configuration) : list string :=
  ["Fairwinds Insights checks failed:"%string; "<nil>"%string;
   "Visit " +:+ Hostname (Options c) +:+ "/orgs/" +:+ Organization (Options c) +:+ "/repositories for more information"].

Definition SendAndPrintResults (s : CIScan) (reports : list ReportInfo) : io W ending :=
  _ ← print_lines (printScannedFilesInfo (config s));
  r ← sendResults s reports;
  match r with
  | Err (FatalExit _) => mret Exited
  | Err (SendFailed e) => mret (Failed ("Error while sending results back to " +:+ Hostname (Options (config s)) +:+ ": " +:+ e))
  | Ok results =>
      _ ← print_lines ((fmt_d (lenZ (NewActionItems results)) +:+ " new Action Items:") :: printActionItems (NewActionItems results));
      _ ← print_lines ((fmt_d (lenZ (FixedActionItems results)) +:+ " fixed Action Items:")
                       :: printActionItems (FixedActionItems results));
      err ← (if JUnitEnabled (config s) then SaveJUnitFile (l_write_xml lib) (baseFolder s) (config s) results else mret None);
      match err with
      | Some e => mret (Failed ("Could not save jUnit results: " +:+ e))
      | None =>
          if Pass results then _ ← print_lines ["Fairwinds Insights checks passed."%string]; mret Done
          else
            _ ← print_lines (failed_lines (config s));
            mret (if SetExitCode (Options (config s)) then ErrExitCode else Done)
      end
  end.

(** ** The program *)

Definition Close (s : CIScan) : io W unit :=
  _ ← effect (RemoveAll (TempFolder (Options (config s))));
  _ ← effect (RemoveAll (FolderName (CiModels.Images (config s))));
  mret tt.

Context (yaml_config : string -> result string Configuration) (yaml_text : Configuration -> result string string).
Context (yaml_manifest : string -> result string KubernetesManifest).
Context (yaml_object : string -> result string (gmap string value)).
Context (json_credentials : string -> result string (list RegistryCredential)).
Context (json_switches : string -> result string report_switches).

(** The temporary folders are removed before an error ends the program, but not when the
    exit code was asked for. *)
Definition exit_after (s : CIScan) (e : ending) : io W Z :=
  match e with
  | Done => _ ← Close s; mret 0
  | Failed _ => _ ← Close s; mret 1
  | ErrExitCode => mret 1
  | Exited => mret 1
  end.

(** The exit code. *)
Definition main : io W Z :=
  let cloneRepo := bool_decide (ToLower (TrimSpace (Getenv "CLONE_REPO")) = "true"%string) in
  let token := TrimSpace (Getenv "FAIRWINDS_TOKEN") in
  if decide (token = ""%string) then mret 1
  else
    s ← NewCIScan Getenv yaml_config yaml_text yaml_manifest yaml_object json_credentials json_switches cloneRepo token;
    match s with
    | Err _ => mret 1
    | Ok s =>
        reports ← ProcessRepository s;
        match reports with
        | Err e => exit_after s (Failed e)
        | Ok reports => e ← SendAndPrintResults s reports; exit_after s e
        end
    end.
End scan.

(** * Properties *)

(** ** Reports *)

Section scan_properties.
Context {W F : Type} `{!Files W} `{!Commands W} `{!Http W} `{!Console W}.
Context `{!RegoEngine W} `{!KubeClient W} `{!Severities F} `{!FloatZero F}.
Context `{!RangeOrder string string} `{!RangeOrder string value} `{!RangeOrder string Image}.
Context (Getenv : string -> string) (lib : CILibs W F).

(** What an operation that makes a report gives: the report with its name, or an error
    with a message inside. *)
Definition report_or_error (name : string) (r : option ReportInfo * option (ci_error F)) : Prop :=
  match r.1 with
  | Some i => Report i = name
  | None => exists e, r.2 = Some e /\ error_leaves e <> []
  end.

Lemma Multi_snoc_leaves (es : list (ci_error F)) e : error_leaves e <> [] -> error_leaves (Multi (es ++ [e])) <> [].
Proof.
  intros He. induction es as [|x es IH]; simpl; [by rewrite app_nil_r|]. intros [_ E]%app_nil. by apply IH.
Qed.

Lemma ProcessOPA_outcome doc checks items ct mt v install c (w w' : W) r :
  runs (ProcessOPA (F := F) Getenv doc checks items ct mt v install c) w w' r -> report_or_error "opa" r.
Proof.
  unfold ProcessOPA. intros (w1 & [[[[i ch] l0] l1]|e] & _ & H)%runs_bind;
    [|apply runs_ret in H as [_ ->]; by eexists].
  apply runs_bind in H as (w2 & found & _ & H). apply runs_bind in H as (w3 & [s [e|]] & _ & H);
    [apply runs_ret in H as [_ ->]; by eexists|].
  apply runs_bind in H as (w4 & [] & _ & H). apply runs_bind in H as (w5 & [ais errs] & _ & H).
  destruct (items ais) as [text|e].
  - apply runs_bind in H as (w6 & [e|] & _ & [_ ->]%runs_ret); [|done].
    eexists. split; [done|]. by apply Multi_snoc_leaves.
  - apply runs_ret in H as [_ ->]. eexists. split; [done|]. by apply Multi_snoc_leaves.
Qed.

Lemma GetPlutoReport_outcome s (w w' : W) r :
  runs (GetPlutoReport (F := F) Getenv s) w w' r -> report_or_error "pluto" r.
Proof.
  unfold GetPlutoReport. intros (w1 & [out [e|]] & _ & H)%runs_bind; [apply runs_ret in H as [_ ->]; by eexists|].
  apply runs_bind in H as (w2 & [e|] & _ & [_ ->]%runs_ret); [by eexists|done].
Qed.

Lemma for_each_scan_leaves jr c images (w w' : W) (s : scans (F := F)) :
  runs (for_each (scan_image jr c) images no_scans) w w' s -> scan_errors s <> [] -> error_leaves (Multi (scan_errors s)) <> [].
Proof.
  apply (for_each_inv (fun _ s _ => scan_errors s <> [] -> error_leaves (Multi (scan_errors s)) <> [])); [|done].
  intros _ i s1 w1 s2 w2 H1. unfold scan_image. case_decide as Hd; [by intros [_ ->]%runs_ret|].
  intros (w3 & [r|e] & _ & [_ ->]%runs_ret)%runs_bind; simpl; [done|]. intros _. by apply Multi_snoc_leaves.
Qed.

Lemma scanImagesWithTrivy_leaves jr jm now images c (w w' : W) r :
  (forall m, exists t, jm m = Ok t) -> runs (scanImagesWithTrivy (F := F) jr jm now images c) w w' r ->
  match r.2 with
  | Some e => error_leaves e <> []
  | None => is_Some r.1.1
  end.
Proof.
  intros Hjm. unfold scanImagesWithTrivy. intros (w1 & [v [e|]] & _ & H)%runs_bind; [by apply runs_ret in H as [_ ->]|].
  apply runs_bind in H as (w2 & tv & _ & H).
  apply runs_bind in H as (w3 & [o [e|]] & _ & H); [by apply runs_ret in H as [_ ->]|].
  apply runs_bind in H as (w4 & [o2 [e|]] & _ & H); [by apply runs_ret in H as [_ ->]|].
  apply runs_bind in H as (w5 & s & Hs & H). apply runs_bind in H as (w6 & results & _ & [_ ->]%runs_ret).
  destruct (Hjm results) as [t ->]. simpl. destruct (scan_errors s) as [|e l] eqn:E; [by eexists|].
  simpl. apply for_each_scan_leaves in Hs; [|by rewrite E]. by rewrite E in Hs.
Qed.

Lemma GetTrivyReport_outcome jr jm mt now tar jv c ds ms (w w' : W) r :
  (forall m, exists t, jm m = Ok t) ->
  runs (GetTrivyReport (F := F) jr jm mt now Getenv tar jv c ds ms) w w' r -> report_or_error "trivy" r.
Proof.
  intros Hjm. unfold GetTrivyReport. intros (w1 & found & _ & H)%runs_bind.
  apply runs_bind in H as (w2 & [[ds1 ms1]|e] & _ & H); [|apply runs_ret in H as [_ ->]; by eexists].
  apply runs_bind in H as (w3 & [[[names ds2] ms2] err1] & _ & H). apply runs_bind in H as (w4 & found1 & _ & H).
  apply runs_bind in H as (w5 & [images err2] & _ & H).
  apply runs_bind in H as (w6 & [[text version] err3] & Hs & H). apply scanImagesWithTrivy_leaves in Hs; [|done]. simpl in Hs.
  destruct err3 as [e|].
  - apply runs_ret in H as [_ ->]. eexists. split; [done|]. by apply Multi_snoc_leaves.
  - destruct Hs as [t ->]. apply runs_bind in H as (w7 & [e|] & _ & [_ ->]%runs_ret); [|done].
    eexists. split; [done|]. by apply Multi_snoc_leaves.
Qed.

(** A report is accounted for by itself or by an item. *)
Definition accounted (name : string) (p : progress (F := F)) : Prop :=
  (exists r, r ∈ p.1 /\ Report r = name) \/ p.2 <> [].

Definition grows (p p' : progress (F := F)) : Prop :=
  (forall r, r ∈ p.1 -> r ∈ p'.1) /\ (p.2 <> [] -> p'.2 <> []).

Lemma accounted_grows name p p' : grows p p' -> accounted name p -> accounted name p'.
Proof. intros [H1 H2] [(r & Hr & Hn)|H]; [left; eauto|right; auto]. Qed.

Lemma outcome_spec name r context resource p :
  report_or_error name r -> grows p (outcome r context resource p) /\ accounted name (outcome r context resource p).
Proof.
  intros H. unfold outcome, add_report, add_problem. split.
  - split; simpl; [intros; apply elem_of_app; by left|]. intros Hp. apply added_items_nonempty. by left.
  - unfold report_or_error in H. destruct r as [[i|] e]; simpl in *.
    + left. exists i. split; [apply elem_of_app; right; by left|done].
    + right. apply added_items_nonempty. by right.
Qed.

Lemma run_report_spec name enabled m context resource p (w w' : W) p' :
  (forall w w' r, runs m w w' r -> report_or_error name r) ->
  runs (run_report enabled m context resource p) w w' p' -> grows p p' /\ (enabled = true -> accounted name p').
Proof.
  intros Hm. unfold run_report. destruct enabled; [|by intros [_ ->]%runs_ret].
  intros (w1 & r & Hr%Hm & [_ ->]%runs_ret)%runs_bind. by apply (outcome_spec _ _ context resource p) in Hr as [? ?].
Qed.

Lemma polaris_step_spec s enabled p (w w' : W) p' :
  runs (polaris_step (F := F) s enabled p) w w' p' -> grows p p' /\ (enabled = true -> accounted "polaris" p').
Proof.
  unfold polaris_step. destruct enabled; [|by intros [_ ->]%runs_ret].
  intros (w1 & [r err] & H & [_ ->]%runs_ret)%runs_bind.
  assert (Hr : match r with Some i => Report i = "polaris"%string | None => is_Some err end).
  { unfold GetPolarisReport in H. apply runs_bind in H as (w2 & [out [e|]] & _ & H);
      [apply runs_ret in H as [_ [= -> ->]]; by eexists|].
    apply runs_bind in H as (w3 & v & _ & H). apply runs_bind in H as (w4 & [o [e|]] & _ & [_ [= -> ->]]%runs_ret);
      [by eexists|done]. }
  unfold add_report, add_problem, grows, accounted; simpl. split_and!.
  - intros. apply elem_of_app. by left.
  - intros Hp. apply added_items_nonempty. by left.
  - intros _. destruct r as [i|].
    + left. exists i. split; [apply elem_of_app; right; by left|done].
    + right. destruct Hr as [e ->]. apply added_items_nonempty. right. by eexists.
Qed.

Lemma grows_refl p : grows p p.
Proof. by split. Qed.

Lemma grows_trans p1 p2 p3 : grows p1 p2 -> grows p2 p3 -> grows p1 p3.
Proof. intros [H1 H2] [H3 H4]. split; auto. Qed.

Hypothesis report_encodes : forall m, exists t, l_json_report lib m = Ok t.

Lemma trivy_step_spec s enabled images p (w w' : W) p' :
  runs (trivy_step Getenv lib s enabled images p) w w' p' -> grows p p' /\ (enabled = true -> accounted "trivy" p').
Proof.
  unfold trivy_step. destruct enabled; [|by intros [_ ->]%runs_ret].
  intros (w1 & skip & _ & H)%runs_bind. eapply run_report_spec in H as [? Ha]; [|intros; by eapply GetTrivyReport_outcome].
  split; [done|]. intros _. by apply Ha.
Qed.

Lemma run_tools_spec s images p (w w' : W) p' :
  runs (run_tools Getenv lib s images p) w w' p' ->
  grows p p' /\ (TrivyEnabled (config s) = Ret true -> accounted "trivy" p')
  /\ (OPAEnabled (config s) = Ret true -> accounted "opa" p') /\ (PlutoEnabled (config s) = Ret true -> accounted "pluto" p').
Proof.
  unfold run_tools. intros (w1 & b1 & [_ E1]%runs_pure & H)%runs_bind.
  apply runs_bind in H as (w2 & p1 & [G1 A1]%trivy_step_spec & H).
  apply runs_bind in H as (w3 & b2 & [_ E2]%runs_pure & H). apply runs_bind in H as (w4 & p2 & H2 & H).
  eapply run_report_spec in H2 as [G2 A2]; [|intros; by eapply ProcessOPA_outcome].
  apply runs_bind in H as (w5 & b3 & [_ E3]%runs_pure & H). apply runs_bind in H as (w6 & p3 & H3 & H).
  eapply run_report_spec in H3 as [G3 A3]; [|intros; by eapply GetPlutoReport_outcome].
  apply runs_bind in H as (w7 & b4 & _ & [_ ->]%runs_ret). split_and!.
  - eauto using grows_trans.
  - rewrite E1. intros [= ->]. eapply accounted_grows; [exact G3|]. eapply accounted_grows; [exact G2|]. by apply A1.
  - rewrite E2. intros [= ->]. eapply accounted_grows; [exact G3|]. by apply A2.
  - rewrite E3. intros [= ->]. by apply A3.
Qed.

End scan_properties.

(** Nine lines are all printed and still called truncated. *)
Example nine_lines_truncated :
  last (printMultilineString "Description" (Join (replicate 9 "x"%string) newline)) = Some "    [truncated]"%string
  /\ length (printMultilineString "Description" (Join (replicate 9 "x"%string) newline)) = 11%nat.
Proof. split; reflexivity. Qed.

Lemma printMultilineString_bound title s : (length (printMultilineString title s) <= 11)%nat.
Proof.
  unfold printMultilineString. cbn [length]. rewrite length_app, length_fmap, length_take. unfold maxLinesForPrint.
  repeat case_decide; cbn [length]; lia.
Qed.

(** ** The end of the program *)

Section ending_properties.
Context {W F : Type} `{!Files W} `{!Commands W} `{!Http W} `{!Console W} `{!FloatZero F}.
Context (Getenv : string -> string) (lib : CILibs W F).

(** The exit code is asked for only by the configuration, for a scan that has not passed. *)
Lemma ErrExitCode_asked s reports (w w' : W) :
  runs (SendAndPrintResults Getenv lib s reports) w w' ErrExitCode ->
  SetExitCode (Options (config s)) = true
  /\ exists w1 w2 results, runs (sendResults Getenv lib s reports) w1 w2 (Ok results) /\ Pass results = false.
Proof.
  unfold SendAndPrintResults. intros (w1 & [] & _ & H)%runs_bind.
  apply runs_bind in H as (w2 & [results|[e|e]] & Hs & H); [|by apply runs_ret in H as [_ ?]..].
  apply runs_bind in H as (w3 & [] & _ & H). apply runs_bind in H as (w4 & [] & _ & H).
  apply runs_bind in H as (w5 & [e|] & _ & H); [by apply runs_ret in H as [_ ?]|].
  destruct (Pass results) eqn:Ep.
  - by apply runs_bind in H as (w6 & [] & _ & [_ ?]%runs_ret).
  - apply runs_bind in H as (w6 & [] & _ & [_ H]%runs_ret).
    destruct (SetExitCode (Options (config s))); [|done]. split; [done|]. by exists w1, w2, results.
Qed.

(** Every other end removes the two temporary folders; that one leaves them. *)
Lemma exit_code_keeps_folders s (w : W) : runs (exit_after s ErrExitCode) w w 1.
Proof. done. Qed.

Lemma other_ends_close s e (w w' : W) code :
  e = Done \/ (exists m, e = Failed m) -> runs (exit_after s e) w w' code ->
  exists w1 r1 r2, RemoveAll (TempFolder (Options (config s))) w = (w1, r1)
    /\ RemoveAll (FolderName (CiModels.Images (config s))) w1 = (w', r2) /\ (code = 0 <-> e = Done).
Proof.
  intros He. unfold exit_after, Close, runs.
  destruct (RemoveAll (TempFolder (Options (config s))) w) as [w1 r1] eqn:E1.
  destruct (RemoveAll (FolderName (CiModels.Images (config s))) w1) as [w2 r2] eqn:E2.
  destruct He as [->|[m ->]]; unfold mbind, io_bind, effect; rewrite E1, E2; intros [= <- <-];
    exists w1, r1, r2; done.
Qed.
End ending_properties.

(** A repository with one manifest, and tools of which Pluto fails. *)
Module Witness.
#[local] Existing Instances CiConfig.Witness.files CiConfig.Witness.commands CiPolicies.Witness.zero CiPolicies.Witness.severities.
#[local] Existing Instances CiPolicies.Witness.strings_order CiPolicies.Witness.values_order CiPolicies.Witness.engine.
#[local] Existing Instances CiPolicies.Witness.client CiPolicies.Witness.http.
#[local] Instance images_order : RangeOrder string Image := canonical_order.
#[local] Instance console : Console unit := {| Println _ w := w |}.
Definition configuration : Configuration := CiConfig.Witness.configuration.
Definition Getenv : string -> string := CiConfig.Witness.Getenv.

Definition scan : CIScan :=
  {| autoScan := false; token := "t"; baseFolder := "."; repoBaseFolder := ".";
     configFolder := TempFolder (Options configuration) +:+ "/configuration/"; config := configuration |}.

Definition lib : CILibs unit Z := {|
  l_yaml_values _ := Ok ""%string;
  l_yaml_release _ := Err "none"%string;
  l_yaml_documents := CiPolicies.Witness.documents;
  l_tar_entries _ := ([], None);
  l_json_value _ := Err "none"%string;
  l_json_results _ := Err "none"%string;
  l_json_report _ := Ok ""%string;
  l_json_checks := CiPolicies.Witness.checks;
  l_json_items := CiPolicies.Witness.item_titles;
  l_json_resources _ := Ok ""%string;
  l_json_errors _ := Ok ""%string;
  l_json_scan _ := Ok {| NewActionItems := []; FixedActionItems := []; Pass := true |};
  l_write_xml _ := Ok ""%string;
  l_multi_text l := Join l "; ";
  l_check_text _ := "check failed"%string;
  l_opa_version := "1";
  l_now := 0;
  l_install_client := CiPolicies.Witness.install
|}.


End Witness.
