(* ===== verification/WorkloadsResources.v ===== *)
(** * workloads: resources

    [workloads/pkg/gpuresources.go], [allocated.go] and [actual.go]: what pods
    request, what the pods of a node request together and which part of its
    capacity that is, and which pods run with resources other than those of the
    template they were made from. *)

From stdpp Require Import base decidable list gmap strings.
From Stdlib Require Import ZArith QArith Qminmax Lia Ascii Sorted.
From S2P Require Import Prelude GoStrings GoText GoValues GoNumbers GoSort GoFiles.

Local Open Scope Z_scope.

(** ** Objects of the API

    The fields that the plugin reads.  A list of resources is a map that may be
    nil; an ephemeral container has the fields of a container. *)
Section data.
Context {Qty : Type}.

Definition ResourceList : Type := nilmap Qty.

Record ResourceRequirements : Type := { Requests : ResourceList; Limits : ResourceList }.

Record Container : Type := { c_Name : string; c_Image : string; c_Resources : ResourceRequirements }.

Record ContainerStatus : Type := {
  cs_Name : string;
  cs_Image : string;
  cs_ImageID : string;
  cs_Resources : option ResourceRequirements
}.

(** The claim of a volume, if it has one. *)
Record Volume : Type := { vol_Name : string; vol_ClaimName : option string }.

Record PodSpec : Type := {
  NodeName : string;
  Containers : list Container;
  InitContainers : list Container;
  EphemeralContainers : list Container;
  Volumes : list Volume
}.

Record OwnerReference : Type := { or_Kind : string; or_Name : string; or_UID : string; or_Controller : option bool }.

(** Type and status. *)
Record PodCondition : Type := { pc_Type : string; pc_Status : string }.

Record Pod : Type := {
  p_Namespace : string;
  p_Name : string;
  p_UID : string;
  p_Labels : strmap;
  p_Annotations : strmap;
  p_OwnerReferences : list OwnerReference;
  p_Spec : PodSpec;
  p_Phase : string;
  p_Conditions : list PodCondition;
  p_ContainerStatuses : list ContainerStatus;
  p_InitContainerStatuses : list ContainerStatus;
  p_EphemeralContainerStatuses : list ContainerStatus
}.

Definition no_requirements : ResourceRequirements := {| Requests := None; Limits := None |}.
End data.
Arguments ResourceList : clear implicits.
Arguments ResourceRequirements : clear implicits.
Arguments Container : clear implicits.
Arguments ContainerStatus : clear implicits.
Arguments PodSpec : clear implicits.
Arguments Pod : clear implicits.

(** Pods as the dynamic client returns them, and their conversions. *)
Class PodObjects (U Qty : Type) := {
  FromUnstructured : U -> result string (Pod Qty);
  GetPodMetadataAndSpec : U -> result string (option (PodSpec Qty))
}.

Definition PodRunning : string := "Running".
Definition PodSucceeded : string := "Succeeded".
Definition PodFailed : string := "Failed".
Definition ResourceCPU : string := "cpu".
Definition ResourceMemory : string := "memory".
Definition ResourcePods : string := "pods".

(** ** Classes of GPUs *)

Definition gpuClassResourceNameSet : gset string :=
  list_to_set ["nvidia.com/gpu"; "nvidia.com/gpu.shared"; "k8s.amazonaws.com/vgpu"; "amd.com/gpu"; "intel.com/gpu";
               "habana.ai/gaudi"; "google.com/tpu"]%string.

Definition isGPUClassResourceName (name : string) : bool := bool_decide (name ∈ gpuClassResourceNameSet).

Section gpu.
Context {Qty : Type} `{!Quantity Qty} `{!RangeOrder string Qty} `{!RangeOrder string unit} `{!GoSort}.

(** Ranging over a nil map visits nothing. *)
Definition range_rl (rl : ResourceList Qty) : list (string * Qty) := from_ptr [] range_map rl.

Definition rl_len (rl : ResourceList Qty) : Z := from_ptr 0 (fun m => Z.of_nat (size m)) rl.

Definition add_gpu_names (seen : gmap string unit) (rl : ResourceList Qty) : gmap string unit :=
  foldl (fun seen e => if isGPUClassResourceName (fst e) then <[fst e := tt]> seen else seen) seen (range_rl rl).

Definition gpuClassResourceNamesInUnion (spec status : option (ResourceRequirements Qty)) : list string :=
  let add seen (r : option (ResourceRequirements Qty)) :=
    match r with
    | Some r => add_gpu_names (add_gpu_names seen (Requests r)) (Limits r)
    | None => seen
    end in
  sort_strings (fst <$> range_map (add (add ∅ spec) status)).

Definition gpuClassResourceNamesInRequirements (req : option (ResourceRequirements Qty)) : list string :=
  match req with
  | None => []
  | Some _ => gpuClassResourceNamesInUnion req None
  end.

Definition resourceQuantityString (rl : ResourceList Qty) (name : string) : string :=
  match map_get rl name with
  | Some q => q_String q
  | None => ""
  end.

(** One name: a missing request is that of the limit. *)
Definition extend_gpu_maps (req : ResourceRequirements Qty) (maps : gmap string string * gmap string string) (n : string)
    : gmap string string * gmap string string :=
  let reqStr := resourceQuantityString (Requests req) n in
  let limStr := resourceQuantityString (Limits req) n in
  let reqStr := if decide (reqStr = "" /\ limStr <> "") then limStr else reqStr in
  (if decide (reqStr <> "") then <[n := reqStr]> maps.1 else maps.1,
   if decide (limStr <> "") then <[n := limStr]> maps.2 else maps.2).

Definition nil_if_empty (m : gmap string string) : strmap := if decide (m = ∅) then None else Some m.

Definition extendedGPUMapsFromResourceRequirements (req : option (ResourceRequirements Qty)) : strmap * strmap :=
  match req with
  | None => (None, None)
  | Some r =>
      if (rl_len (Requests r) =? 0) && (rl_len (Limits r) =? 0) then (None, None)
      else
        let maps := foldl (extend_gpu_maps r) (∅, ∅) (gpuClassResourceNamesInRequirements req) in
        (nil_if_empty maps.1, nil_if_empty maps.2)
  end.
End gpu.

(** ** What pods request *)

Section allocated.
Context {Qty : Type} `{!Quantity Qty} `{!QuantitySums Qty} `{!RangeOrder string Qty}.

Definition add_resource (list : gmap string Qty) (e : string * Qty) : gmap string Qty :=
  match list !! fst e with
  | None => <[fst e := snd e]> list
  | Some value => <[fst e := q_Add value (snd e)]> list
  end.

Definition addResourceList (list : gmap string Qty) (newResourceList : ResourceList Qty) : gmap string Qty :=
  foldl add_resource list (range_rl newResourceList).

Definition max_resource (list : gmap string Qty) (e : string * Qty) : gmap string Qty :=
  match list !! fst e with
  | None => <[fst e := snd e]> list
  | Some value => if 0 <? Cmp (snd e) value then <[fst e := snd e]> list else list
  end.

Definition maxResourceList (list : gmap string Qty) (newResourceList : ResourceList Qty) : gmap string Qty :=
  foldl max_resource list (range_rl newResourceList).

(** The sum over the containers, and at least what each init container asks for. *)
Definition PodRequestsAndLimits (pod : Pod Qty) : result string (gmap string Qty * gmap string Qty) :=
  let sums := foldl (fun s c => (addResourceList s.1 (Requests (c_Resources c)), addResourceList s.2 (Limits (c_Resources c))))
                (∅, ∅) (Containers (p_Spec pod)) in
  Ok (foldl (fun s c => (maxResourceList s.1 (Requests (c_Resources c)), maxResourceList s.2 (Limits (c_Resources c))))
        sums (InitContainers (p_Spec pod))).

(** The pods of a node that still use its resources. *)
Definition uses_node (nodeName : string) (pod : Pod Qty) : bool :=
  bool_decide (NodeName (p_Spec pod) = nodeName)
  && negb (bool_decide (p_Phase pod = PodSucceeded \/ p_Phase pod = PodFailed)).

Definition podsScheduledOnNode (pods : list (Pod Qty)) (nodeName : string) : list (Pod Qty) :=
  List.filter (uses_node nodeName) pods.

Fixpoint sum_pods (pods : list (Pod Qty)) (reqs limits : gmap string Qty)
    : result string (gmap string Qty * gmap string Qty) :=
  match pods with
  | [] => Ok (reqs, limits)
  | pod :: pods' =>
      '(podReqs, podLimits) ← PodRequestsAndLimits pod;
      sum_pods pods' (addResourceList reqs (Some podReqs)) (addResourceList limits (Some podLimits))
  end.

Record NodeAllocatedResources : Type := { na_Requests : gmap string Qty; na_Limits : gmap string Qty }.
End allocated.
Arguments NodeAllocatedResources : clear implicits.

(** ** Shares of the capacity *)

Section utilization.
Context {Qty : Type} `{!Quantity Qty} `{!QuantitySums Qty} `{!RangeOrder string Qty} `{!RangeOrder string unit} `{!GoSort}.
Context `{!Float64}.

Record NodeUtilization : Type := {
  CPURequestsFraction : float;
  CPULimitsFraction : float;
  MemoryRequestsFraction : float;
  MemoryLimitsFraction : float;
  GPURequestsFraction : float;
  GPULimitsFraction : float
}.

(** The variable, filled by ranging over the set and sorting. *)
Definition gpuResourceNames : list string :=
  sort_strings (fst <$> range_map (gset_to_gmap tt gpuClassResourceNameSet)).

Definition zero_float : float := of_int 0.

(** [rl[name]] is the zero quantity when it is missing; [Cpu()] and [Memory()] are
    the zero of a format. *)
Definition index_quantity (rl : ResourceList Qty) (name : string) : Qty := default zeroQuantity (map_get rl name).
Definition Cpu (rl : ResourceList Qty) : Qty := default (q_Empty "DecimalSI") (map_get rl ResourceCPU).
Definition Memory (rl : ResourceList Qty) : Qty := default (q_Empty "BinarySI") (map_get rl ResourceMemory).

Definition fractions (requests limits : Qty) (capacity : Qty) : float * float :=
  let c := of_int (q_MilliValue capacity) in
  if f_lt zero_float c
  then (f_div (of_int (q_MilliValue requests)) c, f_div (of_int (q_MilliValue limits)) c)
  else (zero_float, zero_float).

Definition add_value (m : gmap string Qty) (name : string) (total : float) : float :=
  match m !! name with
  | Some q => f_add total (of_int (q_Value q))
  | None => total
  end.

(** Capacity, requests and limits of all kinds of GPU that the node has. *)
Definition gpu_totals (capacity : ResourceList Qty) (reqs limits : gmap string Qty) : float * float * float :=
  foldl (fun '(c, r, l) name =>
           let q := index_quantity capacity name in
           if q_IsZero q then (c, r, l)
           else (f_add c (of_int (q_Value q)), add_value reqs name r, add_value limits name l))
    (zero_float, zero_float, zero_float) gpuResourceNames.

Definition getNodeAllocatedResources (capacity : ResourceList Qty) (pods : list (Pod Qty))
    : result string (NodeAllocatedResources Qty * NodeUtilization) :=
  '(reqs, limits) ← sum_pods pods ∅ ∅;
  let reqs := <[ResourcePods := q_New (lenZ pods) ""]> reqs in
  let limits := <[ResourcePods := q_New (lenZ pods) ""]> limits in
  let cpu := fractions (index_quantity (Some reqs) ResourceCPU) (index_quantity (Some limits) ResourceCPU) (Cpu capacity) in
  let memory := fractions (index_quantity (Some reqs) ResourceMemory) (index_quantity (Some limits) ResourceMemory)
                  (Memory capacity) in
  let '(totalGPUCapacity, totalGPURequests, totalGPULimits) := gpu_totals capacity reqs limits in
  let gpu := if f_lt zero_float totalGPUCapacity
             then (f_div totalGPURequests totalGPUCapacity, f_div totalGPULimits totalGPUCapacity)
             else (zero_float, zero_float) in
  mret ({| na_Requests := reqs; na_Limits := limits |},
        {| CPURequestsFraction := cpu.1; CPULimitsFraction := cpu.2; MemoryRequestsFraction := memory.1;
           MemoryLimitsFraction := memory.2; GPURequestsFraction := gpu.1; GPULimitsFraction := gpu.2 |}).

(** The same for the pods that the API server selects. *)
Definition pod_selector (nodeName : string) : string :=
  "spec.nodeName=" +:+ nodeName +:+ ",status.phase!=" +:+ PodSucceeded +:+ ",status.phase!=" +:+ PodFailed.

Definition getNodePods {W} (ParseSelector : string -> result string string)
    (list_pods : string -> W -> W * result string (list (Pod Qty))) (nodeName : string)
    : io W (result string (list (Pod Qty))) :=
  match ParseSelector (pod_selector nodeName) with
  | Err e => mret (Err e)
  | Ok fieldSelector => effect (list_pods fieldSelector)
  end.

Definition GetNodeAllocatedResource {W} (ParseSelector : string -> result string string)
    (list_pods : string -> W -> W * result string (list (Pod Qty))) (nodeName : string) (capacity : ResourceList Qty)
    : io W (result string (NodeAllocatedResources Qty * NodeUtilization)) :=
  pods ← getNodePods ParseSelector list_pods nodeName;
  mret (pods ≫= getNodeAllocatedResources capacity).
End utilization.

(** ** Template and running pods *)

Section actual.
Context {Qty : Type} `{!Quantity Qty} `{!QuantitySums Qty} `{!RangeOrder string Qty} `{!RangeOrder string unit} `{!GoSort}.

Record ResourcesInfo : Type := { ri_Memory : string; ri_CPU : string }.

Record AppliedResources : Type := {
  ap_Requests : ResourcesInfo;
  ap_Limits : ResourcesInfo;
  ExtendedRequests : strmap;
  ExtendedLimits : strmap
}.

Record SpecAppliedSkewPod : Type := { sk_Namespace : string; sk_Name : string; sk_UID : string; Applied : AppliedResources }.

Record SpecAppliedStats : Type := { ConvergedCount : Z; SkewPods : list SpecAppliedSkewPod }.

Definition podReady (pod : Pod Qty) : bool :=
  existsb (fun c => bool_decide (pc_Type c = "Ready"%string /\ pc_Status c = "True"%string)) (p_Conditions pod).

Definition findContainerInPodSpec (pod : Pod Qty) (name : string) : option (Container Qty) :=
  List.find (fun c => bool_decide (c_Name c = name)) (Containers (p_Spec pod)).

Definition qtyListEqual (a b : ResourceList Qty) (name : string) : bool :=
  Cmp (index_quantity a name) (index_quantity b name) =? 0.

Definition resourceRequirementsCPUAndMemoryEqual (spec status : option (ResourceRequirements Qty)) : bool :=
  let spec := default no_requirements spec in
  match status with
  | None => false
  | Some status =>
      qtyListEqual (Requests spec) (Requests status) ResourceCPU && qtyListEqual (Requests spec) (Requests status) ResourceMemory
      && qtyListEqual (Limits spec) (Limits status) ResourceCPU && qtyListEqual (Limits spec) (Limits status) ResourceMemory
  end.

Definition resourceRequirementsSpecMatchesApplied (spec status : option (ResourceRequirements Qty)) : bool :=
  let spec := default no_requirements spec in
  match status with
  | None => false
  | Some s =>
      resourceRequirementsCPUAndMemoryEqual (Some spec) status
      && forallb (fun name => qtyListEqual (Requests spec) (Requests s) name && qtyListEqual (Limits spec) (Limits s) name)
           (gpuClassResourceNamesInUnion (Some spec) status)
  end.

Definition resourceRequirementsPopulated (req : option (ResourceRequirements Qty)) : bool :=
  match req with
  | None => false
  | Some r => (0 <? rl_len (Requests r)) || (0 <? rl_len (Limits r))
  end.

(** A request of zero is shown as the limit. *)
Definition appliedResourcesFromRequirements (req : option (ResourceRequirements Qty)) : option AppliedResources :=
  match req with
  | Some r =>
      if negb (resourceRequirementsPopulated req) then None
      else
        let shown name :=
          if q_IsZero (index_quantity (Requests r) name) && negb (q_IsZero (index_quantity (Limits r) name))
          then resourceQuantityString (Limits r) name else resourceQuantityString (Requests r) name in
        let gpu := extendedGPUMapsFromResourceRequirements req in
        Some {| ap_Requests := {| ri_Memory := shown ResourceMemory; ri_CPU := shown ResourceCPU |};
                ap_Limits := {| ri_Memory := resourceQuantityString (Limits r) ResourceMemory;
                                ri_CPU := resourceQuantityString (Limits r) ResourceCPU |};
                ExtendedRequests := gpu.1; ExtendedLimits := gpu.2 |}
  | None => None
  end.

(** What runs of a container, of the pods that say so. *)
Definition applied_status (containerName : string) (pod : Pod Qty) : option (ResourceRequirements Qty) :=
  if negb (bool_decide (p_Phase pod = PodRunning)) || negb (podReady pod) then None
  else
    match findContainerInPodSpec pod containerName with
    | None => None
    | Some _ =>
        cs ← List.find (fun cs => bool_decide (cs_Name cs = containerName)) (p_ContainerStatuses pod);
        r ← cs_Resources cs;
        if resourceRequirementsPopulated (Some r) then Some r else None
    end.

Definition applied_step {U} `{!PodObjects U Qty} (containerName : string) (tpl : ResourceRequirements Qty)
    (out : SpecAppliedStats) (u : U) : SpecAppliedStats :=
  match FromUnstructured u with
  | Err _ => out
  | Ok pod =>
      match applied_status containerName pod with
      | None => out
      | Some r =>
          if resourceRequirementsSpecMatchesApplied (Some tpl) (Some r)
          then {| ConvergedCount := ConvergedCount out + 1; SkewPods := SkewPods out |}
          else match appliedResourcesFromRequirements (Some r) with
               | None => out
               | Some applied =>
                   {| ConvergedCount := ConvergedCount out;
                      SkewPods := SkewPods out ++ [{| sk_Namespace := p_Namespace pod; sk_Name := p_Name pod;
                                                      sk_UID := p_UID pod; Applied := applied |}] |}
               end
      end
  end.

Definition skew_keys (p : SpecAppliedSkewPod) : list string := [sk_Namespace p; sk_Name p].

Definition computeSpecAppliedStats {U} `{!PodObjects U Qty} (containerName : string)
    (templateResources : option (ResourceRequirements Qty)) (podObjs : list U) : SpecAppliedStats :=
  let out := foldl (applied_step containerName (default no_requirements templateResources))
               {| ConvergedCount := 0; SkewPods := [] |} podObjs in
  {| ConvergedCount := ConvergedCount out; SkewPods := sort_slice (by_keys skew_keys) (SkewPods out) |}.
End actual.

(** ** Lists of resources *)

Section amounts.
Context {Qty : Type} `{!Quantity Qty} `{!QuantityLaws Qty} `{!QuantitySums Qty} `{!QuantitySumsLaws Qty}.
Context `{!RangeOrder string Qty}.
Implicit Types (rl : ResourceList Qty) (m : gmap string Qty) (n : string).

Lemma elem_of_range_rl rl n q : (n, q) ∈ range_rl rl <-> map_get rl n = Some q.
Proof. destruct rl as [m|]; simpl; [apply elem_of_range_map|]. split; [by intros ?%elem_of_nil|done]. Qed.

Lemma NoDup_range_rl rl : NoDup (range_rl rl).*1.
Proof. destruct rl as [m|]; simpl; [apply NoDup_fst_range_map|constructor]. Qed.

(** A fold over the entries of a map that writes each entry at its own key. *)
Lemma foldl_entries (step : gmap string Qty -> string * Qty -> gmap string Qty) (f : option Qty -> Qty -> option Qty) l m n :
  (forall m e, step m e !! e.1 = f (m !! e.1) e.2) -> (forall m e k, k <> e.1 -> step m e !! k = m !! k) ->
  NoDup l.*1 ->
  (forall a, (n, a) ∈ l -> foldl step m l !! n = f (m !! n) a) /\ (n ∉ l.*1 -> foldl step m l !! n = m !! n).
Proof.
  intros Hhere Hthere. revert m. induction l as [|[k b] l IH]; intros m Hnd.
  - split; [by intros a ?%elem_of_nil|done].
  - cbn [fmap list_fmap fst] in *. apply NoDup_cons in Hnd as [Hk Hnd]. destruct (IH (step m (k, b)) Hnd) as [IH1 IH2]. split.
    + intros a [[= -> ->]|Ha]%elem_of_cons; simpl.
      * rewrite IH2 by done. apply (Hhere m (k, b)).
      * rewrite (IH1 a Ha), Hthere; [done|]. simpl. intros ->. apply Hk. apply list_elem_of_fmap. by exists (k, a).
    + intros Hn. apply not_elem_of_cons in Hn as [Hnk Hn]. simpl. rewrite IH2 by done. by apply Hthere.
Qed.

Lemma foldl_range_rl (step : gmap string Qty -> string * Qty -> gmap string Qty) (f : option Qty -> Qty -> option Qty) rl m n :
  (forall m e, step m e !! e.1 = f (m !! e.1) e.2) -> (forall m e k, k <> e.1 -> step m e !! k = m !! k) ->
  foldl step m (range_rl rl) !! n = from_ptr (m !! n) (f (m !! n)) (map_get rl n).
Proof.
  intros H1 H2. destruct (foldl_entries step f (range_rl rl) m n H1 H2 (NoDup_range_rl rl)) as [Hin Hout].
  destruct (map_get rl n) as [q|] eqn:E; simpl.
  - apply Hin. by apply elem_of_range_rl.
  - apply Hout. intros ([? q] & -> & Hq)%list_elem_of_fmap. apply elem_of_range_rl in Hq. simpl in E. congruence.
Qed.

Lemma addResourceList_lookup m rl n :
  addResourceList m rl !! n = from_ptr (m !! n) (fun q => Some (from_ptr q (fun v => q_Add v q) (m !! n))) (map_get rl n).
Proof.
  apply (foldl_range_rl add_resource (fun v q => Some (from_ptr q (fun v => q_Add v q) v))); unfold add_resource.
  - intros m' [k q]. simpl. destruct (m' !! k); by rewrite lookup_insert_eq.
  - intros m' [k q] j Hj. simpl in *. destruct (m' !! k); by rewrite lookup_insert_ne.
Qed.

Lemma maxResourceList_lookup m rl n :
  maxResourceList m rl !! n
  = from_ptr (m !! n) (fun q => Some (from_ptr q (fun v => if 0 <? Cmp q v then q else v) (m !! n))) (map_get rl n).
Proof.
  apply (foldl_range_rl max_resource (fun v q => Some (from_ptr q (fun v => if 0 <? Cmp q v then q else v) v)));
    unfold max_resource.
  - intros m' [k q]. simpl. destruct (m' !! k) as [v|] eqn:E; simpl; [|by rewrite lookup_insert_eq].
    destruct (0 <? Cmp q v); [by rewrite lookup_insert_eq|done].
  - intros m' [k q] j Hj. simpl in *. destruct (m' !! k) as [v|]; [destruct (0 <? Cmp q v); [|done]|]; by rewrite lookup_insert_ne.
Qed.

(** What a list asks for of one resource; nothing is zero. *)
Definition amount rl n : Q := from_ptr 0%Q AsDec (map_get rl n).

Definition sumQ (l : list Q) : Q := foldr Qplus 0%Q l.

(** The larger of the sum of the containers and of each init container. *)
Definition pod_need (get : ResourceRequirements Qty -> ResourceList Qty) n (pod : Pod Qty) : Q :=
  foldr Qmax (sumQ ((fun c => amount (get (c_Resources c)) n) <$> Containers (p_Spec pod)))
    (reverse ((fun c => amount (get (c_Resources c)) n) <$> InitContainers (p_Spec pod))).

Definition names_resource (get : ResourceRequirements Qty -> ResourceList Qty) n (pod : Pod Qty) : Prop :=
  exists c, c ∈ Containers (p_Spec pod) ++ InitContainers (p_Spec pod) /\ is_Some (map_get (get (c_Resources c)) n).

Definition nonnegative (get : ResourceRequirements Qty -> ResourceList Qty) (pod : Pod Qty) : Prop :=
  forall c n, c ∈ Containers (p_Spec pod) ++ InitContainers (p_Spec pod) -> (0 <= amount (get (c_Resources c)) n)%Q.

Lemma amount_add m rl n : (amount (Some (addResourceList m rl)) n == amount (Some m) n + amount rl n)%Q.
Proof.
  unfold amount. simpl. rewrite addResourceList_lookup. destruct (map_get rl n) as [q|]; simpl.
  - destruct (m !! n) as [v|]; simpl; [apply AsDec_Add|]. by rewrite Qplus_0_l.
  - by rewrite Qplus_0_r.
Qed.

Lemma amount_max m rl n :
  (0 <= amount (Some m) n)%Q -> (0 <= amount rl n)%Q ->
  (amount (Some (maxResourceList m rl)) n == Qmax (amount rl n) (amount (Some m) n))%Q.
Proof.
  unfold amount. simpl. rewrite maxResourceList_lookup. destruct (map_get rl n) as [q|]; simpl.
  - destruct (m !! n) as [v|]; simpl; intros H1 H2.
    + destruct (0 <? Cmp q v) eqn:E.
      * apply Z.ltb_lt, Cmp_gt in E. rewrite Q.max_l; [done|]. by apply Qlt_le_weak.
      * apply Z.ltb_ge in E. rewrite Q.max_r; [done|]. apply Qnot_lt_le. intros H. apply Cmp_gt in H. lia.
    + by rewrite Q.max_l.
  - intros H1 H2. by rewrite Q.max_r.
Qed.

Lemma is_Some_add m rl n : is_Some (addResourceList m rl !! n) <-> is_Some (m !! n) \/ is_Some (map_get rl n).
Proof.
  rewrite addResourceList_lookup. destruct (map_get rl n); simpl; split; [by right|by eauto|by left|].
  by intros [?|[? ?]].
Qed.

Lemma is_Some_max m rl n : is_Some (maxResourceList m rl !! n) <-> is_Some (m !! n) \/ is_Some (map_get rl n).
Proof.
  rewrite maxResourceList_lookup. destruct (map_get rl n); simpl; split; [by right|by eauto|by left|].
  by intros [?|[? ?]].
Qed.
End amounts.

(** ** The pods of a node *)

Section node_allocation.
Context {Qty : Type} `{!Quantity Qty} `{!QuantityLaws Qty} `{!QuantitySums Qty} `{!QuantitySumsLaws Qty}.
Context `{!RangeOrder string Qty}.
Implicit Types (get : ResourceRequirements Qty -> ResourceList Qty) (pods : list (Pod Qty)) (n : string).

Lemma foldl_pair {A B C} (f : A -> C -> A) (g : B -> C -> B) l a b :
  foldl (fun s c => (f s.1 c, g s.2 c)) (a, b) l = (foldl f a l, foldl g b l).
Proof. revert a b. induction l as [|c l IH]; intros a b; simpl; [done|]. apply IH. Qed.

(** One of the two maps of a pod. *)
Definition pod_sums get (pod : Pod Qty) : gmap string Qty :=
  foldl (fun m c => maxResourceList m (get (c_Resources c)))
    (foldl (fun m c => addResourceList m (get (c_Resources c))) ∅ (Containers (p_Spec pod))) (InitContainers (p_Spec pod)).

Lemma PodRequestsAndLimits_eq (pod : Pod Qty) : PodRequestsAndLimits pod = Ok (pod_sums Requests pod, pod_sums Limits pod).
Proof.
  unfold PodRequestsAndLimits, pod_sums.
  rewrite (foldl_pair (fun m c => addResourceList m (Requests (c_Resources c))) (fun m c => addResourceList m (Limits (c_Resources c)))).
  by rewrite (foldl_pair (fun m c => maxResourceList m (Requests (c_Resources c))) (fun m c => maxResourceList m (Limits (c_Resources c)))).
Qed.

Lemma sum_pods_eq pods reqs limits :
  sum_pods pods reqs limits
  = Ok (foldl (fun m pod => addResourceList m (Some (pod_sums Requests pod))) reqs pods,
        foldl (fun m pod => addResourceList m (Some (pod_sums Limits pod))) limits pods).
Proof.
  revert reqs limits. induction pods as [|pod pods IH]; intros reqs limits; [done|].
  cbn [sum_pods foldl]. rewrite PodRequestsAndLimits_eq. simpl. apply IH.
Qed.

Lemma amount_foldl_add {B} (rl : B -> ResourceList Qty) (l : list B) m n :
  (amount (Some (foldl (fun m b => addResourceList m (rl b)) m l)) n
   == amount (Some m) n + sumQ ((fun b => amount (rl b) n) <$> l))%Q.
Proof.
  revert m. induction l as [|b l IH]; intros m; simpl; [by rewrite Qplus_0_r|].
  rewrite IH, amount_add. by rewrite Qplus_assoc.
Qed.

Lemma is_Some_foldl_add {B} (rl : B -> ResourceList Qty) (l : list B) m n :
  is_Some (foldl (fun m b => addResourceList m (rl b)) m l !! n)
  <-> is_Some (m !! n) \/ exists b, b ∈ l /\ is_Some (map_get (rl b) n).
Proof.
  revert m. induction l as [|b l IH]; intros m; simpl.
  - split; [by left|]. by intros [?|(? & ?%elem_of_nil & _)].
  - rewrite IH, is_Some_add. split.
    + intros [[?|?]|(b' & ? & ?)]; [by left|right; exists b; split; [by left|done]|right; exists b'; split; [by right|done]].
    + intros [?|(b' & [->|Hb]%elem_of_cons & ?)]; [by left; left|by left; right|right; by exists b'].
Qed.

Lemma sumQ_nonneg l : Forall (Qle 0) l -> (0 <= sumQ l)%Q.
Proof.
  induction 1 as [|q l Hq _ IH]; simpl; [apply Qle_refl|].
  rewrite <-(Qplus_0_r 0). by apply Qplus_le_compat.
Qed.

Lemma amount_empty n : amount (Some (∅ : gmap string Qty)) n = 0%Q.
Proof. unfold amount. simpl. by rewrite lookup_empty. Qed.

(** The map of a pod holds what the reference says. *)
Lemma pod_sums_amount get pod n :
  nonnegative get pod -> (amount (Some (pod_sums get pod)) n == pod_need get n pod)%Q.
Proof.
  unfold nonnegative, pod_sums, pod_need. set (m0 := foldl _ ∅ _). intros Hnn.
  assert (H0 : (amount (Some m0) n == sumQ ((fun c => amount (get (c_Resources c)) n) <$> Containers (p_Spec pod)))%Q).
  { unfold m0. rewrite (amount_foldl_add (fun c => get (c_Resources c))), amount_empty. by rewrite Qplus_0_l. }
  assert (Hs : (0 <= sumQ ((fun c => amount (get (c_Resources c)) n) <$> Containers (p_Spec pod)))%Q).
  { apply sumQ_nonneg, Forall_fmap, Forall_forall. intros c Hc. apply Hnn, elem_of_app. by left. }
  assert (Hi : forall c, c ∈ InitContainers (p_Spec pod) -> (0 <= amount (get (c_Resources c)) n)%Q).
  { intros c Hc. apply Hnn, elem_of_app. by right. }
  clear Hnn. clearbody m0. revert Hi.
  assert (forall l, (forall c, c ∈ l -> (0 <= amount (get (c_Resources c)) n)%Q) ->
    (amount (Some (foldl (fun m c => maxResourceList m (get (c_Resources c))) m0 l)) n
     == foldr Qmax (sumQ ((fun c => amount (get (c_Resources c)) n) <$> Containers (p_Spec pod)))
          (reverse ((fun c => amount (get (c_Resources c)) n) <$> l)))%Q
    /\ (0 <= amount (Some (foldl (fun m c => maxResourceList m (get (c_Resources c))) m0 l)) n)%Q) as H.
  { induction l as [|c l IH] using rev_ind; intros Hl; [split; [done|by rewrite H0]|].
    destruct IH as [IH1 IH2]; [intros; apply Hl, elem_of_app; by left|].
    rewrite foldl_app, fmap_app, reverse_app. cbn [foldl fmap list_fmap].
    assert (Hc : (0 <= amount (get (c_Resources c)) n)%Q) by (apply Hl, elem_of_app; right; by left).
    rewrite (amount_max _ _ _ IH2 Hc). split.
    - cbn [reverse rev_append foldr app]. by rewrite IH1.
    - eapply Qle_trans; [exact Hc|]. apply Q.le_max_l. }
  intros Hi. by apply H.
Qed.

Lemma is_Some_pod_sums get pod n : is_Some (pod_sums get pod !! n) <-> names_resource get n pod.
Proof.
  unfold pod_sums, names_resource.
  assert (forall l m, is_Some (foldl (fun m c => maxResourceList m (get (c_Resources c))) m l !! n)
    <-> is_Some (m !! n) \/ exists c, c ∈ l /\ is_Some (map_get (get (c_Resources c)) n)) as Hmax.
  { induction l as [|c l IH]; intros m; simpl.
    - split; [by left|]. by intros [?|(? & ?%elem_of_nil & _)].
    - rewrite IH, is_Some_max. split.
      + intros [[?|?]|(c' & ? & ?)]; [by left|right; exists c; split; [by left|done]|right; exists c'; split; [by right|done]].
      + intros [?|(c' & [->|Hc]%elem_of_cons & ?)]; [by left; left|by left; right|right; by exists c']. }
  rewrite Hmax, (is_Some_foldl_add (fun c => get (c_Resources c))). setoid_rewrite elem_of_app. split.
  - intros [[[? H]|(c & ? & ?)]|(c & ? & ?)]; [by rewrite lookup_empty in H|exists c; by split; [left|]|exists c; by split; [right|]].
  - intros (c & [?|?] & ?); [left; right|right]; by exists c.
Qed.

(** What the pods ask for together. *)
Definition node_need get n pods : Q := sumQ ((fun pod => pod_need get n pod) <$> pods).

Lemma node_sums_amount get pods n :
  Forall (nonnegative get) pods ->
  (amount (Some (foldl (fun m pod => addResourceList m (Some (pod_sums get pod))) ∅ pods)) n == node_need get n pods)%Q.
Proof.
  intros H. rewrite (amount_foldl_add (fun pod => Some (pod_sums get pod))), amount_empty, Qplus_0_l. unfold node_need.
  induction H as [|pod pods Hp _ IH]; simpl; [done|]. by rewrite pod_sums_amount, IH.
Qed.
End node_allocation.

(** ** Allocation and utilization *)

Section utilization_facts.
Context {Qty : Type} `{!Quantity Qty} `{!QuantityLaws Qty} `{!QuantitySums Qty} `{!QuantitySumsLaws Qty}.
Context `{!RangeOrder string Qty} `{!RangeOrder string unit} `{!GoSort} `{!Float64}.


(** A share of something, or zero. *)
Definition share (x : float) : Prop := x = zero_float \/ exists part whole, f_lt zero_float whole = true /\ x = f_div part whole.

Lemma fractions_share requests limits capacity :
  share (fractions (Qty := Qty) requests limits capacity).1 /\ share (fractions requests limits capacity).2.
Proof.
  unfold fractions. destruct (f_lt _ _) eqn:E; [|by split; left].
  split; right; eexists _, _; by split.
Qed.

(** No share divides by zero, whatever the capacity of the node: JSON has no text for the result. *)
Lemma utilization_never_divides_by_zero capacity pods na u :
  getNodeAllocatedResources (Qty := Qty) capacity pods = Ok (na, u) ->
  share (CPURequestsFraction u) /\ share (CPULimitsFraction u) /\ share (MemoryRequestsFraction u)
  /\ share (MemoryLimitsFraction u) /\ share (GPURequestsFraction u) /\ share (GPULimitsFraction u).
Proof.
  unfold getNodeAllocatedResources. rewrite sum_pods_eq. cbn [mbind result_bind].
  destruct (gpu_totals _ _ _) as [[c r] l]. intros [= <- <-]. simpl.
  split; [apply fractions_share|]. split; [apply fractions_share|]. split; [apply fractions_share|].
  split; [apply fractions_share|].
  destruct (f_lt zero_float c) eqn:E; simpl; [|by split; left]. split; right; by eexists _, _.
Qed.

(** A pod is counted for one node at most, and for that one as long as it has not ended. *)
Lemma elem_of_podsScheduledOnNode (pods : list (Pod Qty)) nodeName pod :
  pod ∈ podsScheduledOnNode pods nodeName
  <-> pod ∈ pods /\ NodeName (p_Spec pod) = nodeName /\ p_Phase pod <> PodSucceeded /\ p_Phase pod <> PodFailed.
Proof.
  unfold podsScheduledOnNode. rewrite !list_elem_of_In, filter_In. unfold uses_node.
  rewrite andb_true_iff, negb_true_iff, bool_decide_eq_true, bool_decide_eq_false. tauto.
Qed.

Lemma podsScheduledOnNode_cons (pods : list (Pod Qty)) pod nodeName :
  podsScheduledOnNode (pod :: pods) nodeName
  = if uses_node nodeName pod then pod :: podsScheduledOnNode pods nodeName else podsScheduledOnNode pods nodeName.
Proof. done. Qed.

Definition live_on (nodes : list string) (pod : Pod Qty) : bool :=
  bool_decide (NodeName (p_Spec pod) ∈ nodes) && uses_node (NodeName (p_Spec pod)) pod.

(** Over all nodes, every pod that has not ended is counted exactly once. *)
Lemma node_pods_partition (pods : list (Pod Qty)) (nodes : list string) :
  NoDup nodes -> sumZ ((fun n => lenZ (podsScheduledOnNode pods n)) <$> nodes) = lenZ (List.filter (live_on nodes) pods).
Proof.
  intros Hnd. induction pods as [|pod pods IH].
  - apply sumZ_zero. apply Forall_fmap, Forall_forall. done.
  - assert (forall l, NoDup l ->
      sumZ ((fun n => lenZ (podsScheduledOnNode (pod :: pods) n)) <$> l)
      = sumZ ((fun n => lenZ (podsScheduledOnNode pods n)) <$> l) + (if live_on l pod then 1 else 0)) as Hstep.
    { clear. induction l as [|n l IH]; intros Hl; [done|]. apply NoDup_cons in Hl as [Hn Hl].
      cbn [fmap list_fmap]. rewrite !sumZ_cons, (IH Hl), podsScheduledOnNode_cons. unfold live_on.
      destruct (decide (NodeName (p_Spec pod) = n)) as [<-|Hne].
      - rewrite (bool_decide_eq_false_2 _ Hn). rewrite (bool_decide_eq_true_2 (_ ∈ _ :: _)) by (by left). simpl.
        destruct (uses_node _ pod); unfold lenZ; simpl; lia.
      - assert (uses_node n pod = false) as -> by (unfold uses_node; by rewrite bool_decide_eq_false_2).
        assert (bool_decide (NodeName (p_Spec pod) ∈ n :: l) = bool_decide (NodeName (p_Spec pod) ∈ l)) as ->.
        { apply bool_decide_ext. rewrite elem_of_cons. split; [by intros [?|?]|by right]. }
        lia. }
    rewrite (Hstep nodes Hnd), IH. simpl. destruct (live_on nodes pod); unfold lenZ; simpl; lia.
Qed.
End utilization_facts.

(** ** Template and running pods *)

Section actual_facts.
Context {Qty : Type} `{!Quantity Qty} `{!QuantityLaws Qty} `{!QuantitySums Qty} `{!RangeOrder string Qty}.
Context `{!RangeOrder string unit} `{!GoSort}.
Implicit Types (rl : ResourceList Qty) (r : ResourceRequirements Qty) (n : string).

Lemma add_gpu_names_lookup seen rl n :
  is_Some (add_gpu_names seen rl !! n) <-> is_Some (seen !! n) \/ (isGPUClassResourceName n = true /\ is_Some (map_get rl n)).
Proof.
  assert (forall l, is_Some (foldl (fun seen e => if isGPUClassResourceName (fst e) then <[fst e := tt]> seen else seen) seen l !! n)
    <-> is_Some (seen !! n) \/ (isGPUClassResourceName n = true /\ exists q : Qty, (n, q) ∈ l)) as Hf.
  { induction l as [|[k q] l IH] using rev_ind; [split; [by left|by intros [?|(_ & ? & ?%elem_of_nil)]]|].
    rewrite foldl_app. setoid_rewrite elem_of_app. setoid_rewrite list_elem_of_singleton. simpl.
    destruct (isGPUClassResourceName k) eqn:Ek.
    - destruct (decide (k = n)) as [->|Hne].
      + rewrite lookup_insert_eq. split; [intros _; right; split; [done|]; exists q; by right|by eexists].
      + rewrite lookup_insert_ne by done. rewrite IH.
        split; intros [?|[? [q' Hq]]]; [by left|right; split; [done|exists q'; by left]|by left|].
        destruct Hq as [?|[= -> ->]]; [right; split; [done|by exists q']|done].
    - rewrite IH. split; intros [?|[? [q' Hq]]]; [by left|right; split; [done|exists q'; by left]|by left|].
      destruct Hq as [?|[= -> ->]]; [right; split; [done|by exists q']|congruence]. }
  unfold add_gpu_names. rewrite Hf. setoid_rewrite elem_of_range_rl. done.
Qed.

Lemma elem_of_gpu_union spec r n :
  n ∈ gpuClassResourceNamesInUnion (Some spec) (Some r)
  <-> isGPUClassResourceName n = true
      /\ (is_Some (map_get (Requests spec) n) \/ is_Some (map_get (Limits spec) n)
          \/ is_Some (map_get (Requests r) n) \/ is_Some (map_get (Limits r) n)).
Proof.
  unfold gpuClassResourceNamesInUnion. rewrite elem_of_sort_strings, list_elem_of_fmap.
  trans (is_Some (add_gpu_names (add_gpu_names (add_gpu_names (add_gpu_names ∅ (Requests spec)) (Limits spec)) (Requests r)) (Limits r) !! n)).
  - split.
    + intros ([k []] & -> & Hk). apply elem_of_range_map in Hk. by eexists.
    + intros [[] Hk]. exists (n, tt). split; [done|]. by apply elem_of_range_map.
  - rewrite !add_gpu_names_lookup, lookup_empty. split; [|tauto]. intros [[[[[? ?]|?]|?]|?]|?]; [done|tauto..].
Qed.

Lemma AsDec_index rl n : (AsDec (index_quantity rl n) == amount rl n)%Q.
Proof. unfold index_quantity, amount. destruct (map_get rl n); simpl; [done|]. apply AsDec_zero. Qed.

Lemma qtyListEqual_spec (a b : ResourceList Qty) n : qtyListEqual a b n = true <-> (amount a n == amount b n)%Q.
Proof. unfold qtyListEqual. by rewrite Z.eqb_eq, Cmp_zero, !AsDec_index. Qed.

(** The resources that are compared: CPU, memory and those of the GPU classes. *)
Definition tracked n : Prop := n = ResourceCPU \/ n = ResourceMemory \/ isGPUClassResourceName n = true.

(** Every tracked resource has the same value in both, where nothing is zero. *)
Definition same_resources spec r : Prop :=
  forall n, tracked n -> (amount (Requests spec) n == amount (Requests r) n)%Q /\ (amount (Limits spec) n == amount (Limits r) n)%Q.

Lemma matches_iff spec r : resourceRequirementsSpecMatchesApplied (Some spec) (Some r) = true <-> same_resources spec r.
Proof.
  unfold resourceRequirementsSpecMatchesApplied, resourceRequirementsCPUAndMemoryEqual, same_resources. simpl.
  rewrite !andb_true_iff, forallb_forall, !qtyListEqual_spec. split.
  - intros [[[[H1 H2] H3] H4] Hg] n [->|[->|Hn]]; [done..|].
    destruct (decide (n ∈ gpuClassResourceNamesInUnion (Some spec) (Some r))) as [Hin|Hout].
    + apply list_elem_of_In in Hin. apply Hg in Hin. by rewrite andb_true_iff, !qtyListEqual_spec in Hin.
    + assert (forall rl, rl = Requests spec \/ rl = Limits spec \/ rl = Requests r \/ rl = Limits r -> amount rl n = 0%Q) as Hz.
      { intros rl Hrl. unfold amount. destruct (map_get rl n) as [q|] eqn:E; [|done]. destruct Hout.
        apply elem_of_gpu_union. split; [done|].
        destruct Hrl as [-> | [-> | [-> | ->]]]; rewrite E; eauto 6 using mk_is_Some. }
      rewrite !Hz by tauto. done.
  - intros Hs. split.
    + split; [split; [split|]|]; apply Hs; unfold tracked; tauto.
    + intros n Hn. apply list_elem_of_In, elem_of_gpu_union in Hn as [Hn _]. rewrite andb_true_iff, !qtyListEqual_spec.
      apply Hs. by right; right.
Qed.
End actual_facts.

Section stats_facts.
Context {Qty : Type} `{!Quantity Qty} `{!QuantityLaws Qty} `{!QuantitySums Qty} `{!RangeOrder string Qty}.
Context `{!RangeOrder string unit} `{!GoSort} {U : Type} `{!PodObjects U Qty}.
Implicit Types (tpl r : ResourceRequirements Qty) (name : string) (us : list U).

(** The running and ready pods that have the container and say what it was given. *)
Definition applied_pods name us : list (Pod Qty * ResourceRequirements Qty) :=
  omap (fun u => match FromUnstructured u with
                 | Ok pod => pair pod <$> applied_status name pod
                 | Err _ => None
                 end) us.

Definition converged tpl (pr : Pod Qty * ResourceRequirements Qty) : bool :=
  resourceRequirementsSpecMatchesApplied (Some tpl) (Some pr.2).

Definition skew_pod (pr : Pod Qty * ResourceRequirements Qty) : option SpecAppliedSkewPod :=
  applied ← appliedResourcesFromRequirements (Some pr.2);
  Some {| sk_Namespace := p_Namespace pr.1; sk_Name := p_Name pr.1; sk_UID := p_UID pr.1; Applied := applied |}.

Lemma applied_status_populated name (pod : Pod Qty) r :
  applied_status name pod = Some r -> resourceRequirementsPopulated (Some r) = true.
Proof.
  unfold applied_status. destruct (_ || _); [done|]. destruct (findContainerInPodSpec _ _); [|done].
  destruct (List.find _ _) as [cs|]; [|done]. cbn [mbind option_bind]. destruct (cs_Resources cs) as [r'|]; [|done]. cbn [mbind option_bind].
  destruct (resourceRequirementsPopulated (Some r')) eqn:E; [|done]. intros Hr. by injection Hr as <-.
Qed.

Lemma skew_pod_total name us pr : pr ∈ applied_pods name us -> is_Some (skew_pod pr).
Proof.
  intros (u & _ & Hu)%list_elem_of_omap. destruct (FromUnstructured u) as [pod|]; [|done].
  apply fmap_Some in Hu as (r & Hr & ->). apply applied_status_populated in Hr.
  unfold skew_pod, appliedResourcesFromRequirements. cbn [snd]. rewrite Hr. by eexists.
Qed.

(** The loop over the pods, as a reference. *)
Lemma applied_loop name tpl us out :
  foldl (applied_step name tpl) out us
  = {| ConvergedCount := ConvergedCount out + lenZ (List.filter (converged tpl) (applied_pods name us));
       SkewPods := SkewPods out ++ omap skew_pod (List.filter (negb ∘ converged tpl) (applied_pods name us)) |}.
Proof.
  revert out. induction us as [|u us IH]; intros out.
  - simpl. rewrite app_nil_r. destruct out. unfold lenZ. simpl. f_equal. lia.
  - cbn [foldl]. rewrite IH. unfold applied_pods. cbn [omap list_omap]. unfold applied_step.
    destruct (FromUnstructured u) as [pod|]; [|done].
    destruct (applied_status name pod) as [r|] eqn:Er; [|done]. cbn [fmap option_fmap option_map List.filter compose].
    change (resourceRequirementsSpecMatchesApplied (Some tpl) (Some r)) with (converged tpl (pod, r)).
    destruct (converged tpl (pod, r)); cbn [negb].
    + cbn [ConvergedCount SkewPods]. f_equal. unfold lenZ. cbn [length]. rewrite Nat2Z.inj_succ. lia.
    + cbn [omap list_omap]. pose proof (applied_status_populated _ _ _ Er) as Hp.
      unfold skew_pod at 2, mbind, option_bind. unfold appliedResourcesFromRequirements. cbn [snd]. rewrite Hp. simpl.
      by rewrite <-app_assoc.
Qed.

End stats_facts.

(** ** Concrete nodes *)
Module Witness.
#[local] Existing Instance Q_quantity.
#[local] Existing Instance Q_quantity_laws.
#[local] Existing Instance Q_sums.
#[local] Existing Instance Q_sums_laws.
#[local] Existing Instance Q_Float64.
#[local] Existing Instance merge_go_sort.
#[local] Existing Instance canonical_order.

Definition resources (cpu memory : Q) : ResourceRequirements Q :=
  {| Requests := Some (<[ResourceCPU := cpu]> {[ResourceMemory := memory]}); Limits := None |}.

Definition container (name : string) (r : ResourceRequirements Q) : Container Q :=
  {| c_Name := name; c_Image := "image"; c_Resources := r |}.

Definition pod (name : string) (containers init : list (Container Q)) : Pod Q :=
  {| p_Namespace := "ns"; p_Name := name; p_UID := name; p_Labels := None; p_Annotations := None; p_OwnerReferences := [];
     p_Spec := {| NodeName := "node"; Containers := containers; InitContainers := init; EphemeralContainers := [];
                  Volumes := [] |};
     p_Phase := PodRunning; p_Conditions := [{| pc_Type := "Ready"; pc_Status := "True" |}];
     p_ContainerStatuses := (fun c => {| cs_Name := c_Name c; cs_Image := "image"; cs_ImageID := "id";
                                         cs_Resources := Some (c_Resources c) |}) <$> containers;
     p_InitContainerStatuses := []; p_EphemeralContainerStatuses := [] |}.

(** Two containers that need half a CPU each, and an init container that needs three. *)
Definition first_pod : Pod Q :=
  pod "first" [container "a" (resources (1 # 2) 10); container "b" (resources (1 # 2) 10)] [container "i" (resources 3 5)].
Definition second_pod : Pod Q := pod "second" [container "a" (resources 1 10)] [].

Definition capacity : ResourceList Q := Some {[ResourceCPU := 8%Q]}.

Lemma nonnegative_resources get (p : Pod Q) :
  forallb (fun c => forallb (fun e => Qle_bool 0 e.2) (range_rl (get (c_Resources c))))
    (Containers (p_Spec p) ++ InitContainers (p_Spec p)) = true ->
  nonnegative get p.
Proof.
  intros H c n Hc. rewrite forallb_forall in H. specialize (H c). rewrite forallb_forall in H. unfold amount.
  destruct (map_get (get (c_Resources c)) n) as [q|] eqn:E; simpl; [|apply Qle_refl].
  apply Qle_bool_iff. apply (H ltac:(by apply list_elem_of_In) (n, q)). by apply list_elem_of_In, elem_of_range_rl.
Qed.


#[local] Instance pods_are_pods : PodObjects (Pod Q) Q :=
  {| FromUnstructured := fun p => Ok p; GetPodMetadataAndSpec := fun p => Ok (Some (p_Spec p)) |}.

(** A pod resized in place. *)
Example resized_pod_is_listed :
  let stats := computeSpecAppliedStats "a" (Some (resources 1 10)) [first_pod; second_pod] in
  ConvergedCount stats = 1 /\ sk_Name <$> SkewPods stats = ["first"].
Proof. vm_compute. done. Qed.


(** A container that asks for nothing shows an empty text where its template shows zero. *)
Example unset_is_empty :
  (appliedResourcesFromRequirements (Some {| Requests := Some {[ResourceMemory := 1%Q]}; Limits := None |} : option (ResourceRequirements Q)))
    = Some {| ap_Requests := {| ri_Memory := q_String 1%Q; ri_CPU := "" |}; ap_Limits := {| ri_Memory := ""; ri_CPU := "" |};
              ExtendedRequests := None; ExtendedLimits := None |}.
Proof. vm_compute. done. Qed.
End Witness.
