(* ===== verification/WorkloadsImages.v ===== *)
(** * workloads: images

    [workloads/pkg/discovery/]: the images that run in the cluster, with the
    workloads that run them.  Listing objects of the API is a class; the
    controllers with their pods are those of a library. *)

From stdpp Require Import base decidable list gmap strings.
From Stdlib Require Import ZArith Lia Ascii Sorted.
From S2P Require Import Prelude GoStrings GoText GoValues GoNumbers GoSort GoFiles WorkloadsResources.

Local Open Scope Z_scope.

(** ** Data *)

Record OwnerResult : Type := {
  ow_Namespace : string;
  ow_Kind : string;
  ow_Name : string;
  ow_Container : string;
  ow_Labels : strmap;
  ow_Annotations : strmap;
  ow_PodLabels : strmap;
  ow_PodAnnotations : strmap
}.

Record ImageResult : Type := { im_Name : string; im_ID : string; im_PullRef : string; im_Owners : list OwnerResult }.

(** A top controller, and a workload of it. *)
Record TopObject : Type := {
  to_Kind : string;
  to_Name : string;
  to_Namespace : string;
  to_UID : string;
  to_OwnerReferences : list OwnerReference;
  to_Annotations : strmap;
  to_Labels : strmap;
  to_CreationTimestamp : Z
}.

Record Workload {U Qty : Type} : Type := {
  TopController : TopObject;
  w_Pods : list U;
  w_PodSpec : option (PodSpec Qty);
  w_PodMetadata : option (strmap * strmap);
  RunningPodCount : Z
}.
Arguments Workload : clear implicits.

(** [j_Selector] is the text of the selector, if there is one, or an error of the
    library. *)
Record Job : Type := {
  j_Namespace : string;
  j_Name : string;
  j_Labels : strmap;
  j_Annotations : strmap;
  j_OwnerReferences : list OwnerReference;
  j_Selector : option (result string string);
  j_TemplateLabels : strmap;
  j_TemplateAnnotations : strmap
}.

(** Lists of the API server: of namespaces, of the pods of a namespace by field and by
    label selector, and of jobs.  The namespace [""] is all of them. *)
Class PodLists (W Qty : Type) := {
  Namespace : Type;
  ns_Name : Namespace -> string;
  ListNamespaces : W -> W * result string (list Namespace);
  ListPods : string -> string -> string -> W -> W * result string (list (Pod Qty));
  ListJobs : string -> W -> W * result string (list Job)
}.

(** The three maps of the discovery. *)
Record discovered : Type := {
  seenPods : gset string;
  keyToImage : gmap string ImageResult;
  imageOwners : gmap string (gmap string OwnerResult)
}.

Definition nothing_discovered : discovered := {| seenPods := ∅; keyToImage := ∅; imageOwners := ∅ |}.

Definition dockerIOPrefix : string := "index.docker.io/".

Definition ownerKey (o : OwnerResult) : string :=
  ow_Namespace o +:+ "/" +:+ ow_Kind o +:+ "/" +:+ ow_Name o +:+ "/" +:+ ow_Container o.

Definition podKey (namespace name : string) : string := namespace +:+ "/" +:+ name.

Definition with_container (name : string) (o : OwnerResult) : OwnerResult :=
  {| ow_Namespace := ow_Namespace o; ow_Kind := ow_Kind o; ow_Name := ow_Name o; ow_Container := name;
     ow_Labels := ow_Labels o; ow_Annotations := ow_Annotations o; ow_PodLabels := ow_PodLabels o;
     ow_PodAnnotations := ow_PodAnnotations o |}.

Definition plain_owner (namespace kind name : string) : OwnerResult :=
  {| ow_Namespace := namespace; ow_Kind := kind; ow_Name := name; ow_Container := ""; ow_Labels := None;
     ow_Annotations := None; ow_PodLabels := None; ow_PodAnnotations := None |}.

Section discovery.
Context {Qty : Type}.
Implicit Types (pod : Pod Qty) (status : ContainerStatus Qty).

Definition podPhaseContributesImages (phase ownerKind : string) : bool :=
  bool_decide (phase = PodRunning) || bool_decide (ownerKind = "CronJob" \/ ownerKind = "Job").

Definition markPodSeen (namespace name : string) (s : discovered) : discovered :=
  {| seenPods := {[podKey namespace name]} ∪ seenPods s; keyToImage := keyToImage s; imageOwners := imageOwners s |}.

Definition containerStatusesFromPod pod : list (ContainerStatus Qty) :=
  p_ContainerStatuses pod ++ p_InitContainerStatuses pod ++ p_EphemeralContainerStatuses pod.

(** The image of the first container of that name. *)
Definition containerSpecImage pod (containerName : string) : string :=
  let s := p_Spec pod in
  match List.find (fun c => bool_decide (c_Name c = containerName)) (Containers s ++ InitContainers s ++ EphemeralContainers s) with
  | Some c => c_Image c
  | None => ""
  end.

Definition statusWithPreferredImage pod status : ContainerStatus Qty :=
  let img := containerSpecImage pod (cs_Name status) in
  if decide (img <> "")
  then {| cs_Name := cs_Name status; cs_Image := img; cs_ImageID := cs_ImageID status; cs_Resources := cs_Resources status |}
  else status.

(** Name, identifier and reference of the image of a status. *)
Definition image_identity status : string * string * string :=
  let imageID := TrimPrefix (cs_ImageID status) "docker-pullable://" in
  let imageName := if HasPrefix (cs_Image status) "sha256" then imageID else cs_Image status in
  let imagePullRef := if bool_decide (imageID = "") || HasPrefix imageID "sha256:" then imageName else imageID in
  (TrimPrefix imageName dockerIOPrefix, TrimPrefix imageID dockerIOPrefix, imagePullRef).

Definition image_key (name id : string) : string := name +:+ "/" +:+ id.

Definition recordContainerImage status (owner : OwnerResult) (s : discovered) : discovered :=
  let '(imageName, imageID, imagePullRef) := image_identity status in
  let owner := with_container (cs_Name status) owner in
  if decide (imageID = "") then s
  else
    let key := image_key imageName imageID in
    let owners := <[ownerKey owner := owner]> (default ∅ (imageOwners s !! key)) in
    {| seenPods := seenPods s;
       imageOwners := <[key := owners]> (imageOwners s);
       keyToImage := match keyToImage s !! key with
                     | Some _ => keyToImage s
                     | None => <[key := {| im_Name := imageName; im_ID := imageID; im_PullRef := imagePullRef;
                                           im_Owners := [] |}]> (keyToImage s)
                     end |}.

(** All statuses of a pod, which counts as seen. *)
Definition record_pod (owner : OwnerResult) pod (s : discovered) : discovered :=
  foldl (fun s status => recordContainerImage (statusWithPreferredImage pod status) owner s)
    (markPodSeen (p_Namespace pod) (p_Name pod) s) (containerStatusesFromPod pod).

Definition pod_seen pod (s : discovered) : bool := bool_decide (podKey (p_Namespace pod) (p_Name pod) ∈ seenPods s).

Definition hasControllerOwner (owners : list OwnerReference) : bool :=
  existsb (fun o => match or_Controller o with Some b => b | None => false end) owners.

Definition cronJobOwnerRef (owners : list OwnerReference) : option OwnerReference :=
  List.find (fun o => bool_decide (or_Kind o = "CronJob")) owners.

Definition ownerFromJob (job : Job) : OwnerResult :=
  match cronJobOwnerRef (j_OwnerReferences job) with
  | Some ref => plain_owner (j_Namespace job) "CronJob" (or_Name ref)
  | None =>
      {| ow_Namespace := j_Namespace job; ow_Kind := "Job"; ow_Name := j_Name job; ow_Container := "";
         ow_Labels := j_Labels job; ow_Annotations := j_Annotations job; ow_PodLabels := j_TemplateLabels job;
         ow_PodAnnotations := j_TemplateAnnotations job |}
  end.

Definition orphan_owner pod : OwnerResult :=
  {| ow_Namespace := p_Namespace pod; ow_Kind := "Pod"; ow_Name := p_Name pod; ow_Container := "";
     ow_Labels := p_Labels pod; ow_Annotations := p_Annotations pod; ow_PodLabels := p_Labels pod;
     ow_PodAnnotations := p_Annotations pod |}.

(** *** Pods of controllers *)

Definition ownerFromController {U} (c : Workload U Qty) : OwnerResult :=
  plain_owner (to_Namespace (TopController c)) (to_Kind (TopController c)) (to_Name (TopController c)).

Definition record_controller_pod {U} `{!PodObjects U Qty} (owner : OwnerResult) (s : discovered) (u : U) : discovered :=
  match FromUnstructured u with
  | Err _ => s
  | Ok pod => if podPhaseContributesImages (p_Phase pod) (ow_Kind owner) then record_pod owner pod s else s
  end.

Definition recordControllerPods {U} `{!PodObjects U Qty} (controllers : list (Workload U Qty)) : discovered :=
  foldl (fun s c => foldl (record_controller_pod (ownerFromController c)) s (w_Pods c)) nothing_discovered controllers.

(** *** Pods of nobody, and of jobs *)

Definition record_orphan pod (s : discovered) : discovered :=
  if pod_seen pod s || hasControllerOwner (p_OwnerReferences pod) then s else record_pod (orphan_owner pod) pod s.

Definition record_job_pod (owner : OwnerResult) pod (s : discovered) : discovered :=
  if negb (podPhaseContributesImages (p_Phase pod) (ow_Kind owner)) || pod_seen pod s then s else record_pod owner pod s.

Context {W : Type} `{!PodLists W Qty}.

(** A loop with an error: the first one ends it. *)
Fixpoint each_ok {A S} (f : A -> S -> io W (result string S)) (l : list A) (s : S) : io W (result string S) :=
  match l with
  | [] => mret (Ok s)
  | x :: l' =>
      r ← f x s;
      match r with
      | Ok s' => each_ok f l' s'
      | Err e => mret (Err e)
      end
  end.

Definition recordOrphanPods (namespaces : list string) (s : discovered) : io W (result string discovered) :=
  each_ok (fun namespace s =>
    pods ← effect (ListPods namespace "status.phase=Running" "");
    mret (match pods with
          | Err e => Err ("listing pods in namespace " +:+ namespace +:+ ": " +:+ e)
          | Ok pods => Ok (foldl (fun s pod => record_orphan pod s) s pods)
          end)) namespaces s.

Definition record_job (namespace : string) (job : Job) (s : discovered) : io W (result string discovered) :=
  match j_Selector job with
  | Some (Ok selector) =>
      pods ← effect (ListPods namespace "" selector);
      mret (match pods with
            | Err e => Err ("listing job pods in namespace " +:+ namespace +:+ ": " +:+ e)
            | Ok pods => Ok (foldl (fun s pod => record_job_pod (ownerFromJob job) pod s) s pods)
            end)
  | _ => mret (Ok s)
  end.

Definition recordJobPods (namespaces : list string) (s : discovered) : io W (result string discovered) :=
  each_ok (fun namespace s =>
    jobs ← effect (ListJobs namespace);
    match jobs with
    | Err e => mret (Err ("listing jobs in namespace " +:+ namespace +:+ ": " +:+ e))
    | Ok jobs => each_ok (record_job namespace) jobs s
    end) namespaces s.

Definition listAllNamespaces : io W (result string (list string)) :=
  list ← effect ListNamespaces;
  mret (match list with
        | Err e => Err ("listing namespaces: " +:+ e)
        | Ok items => Ok (ns_Name <$> items)
        end).

(** *** The result *)

Definition owner_keys (o : OwnerResult) : list string := [ow_Namespace o; ow_Kind o; ow_Name o; ow_Container o].
Definition image_keys (i : ImageResult) : list string := [im_Name i; im_ID i].

Context `{!RangeOrder string OwnerResult} `{!RangeOrder string ImageResult} `{!GoSort}.

Definition sortedOwners (owners : gmap string OwnerResult) : list OwnerResult :=
  sort_slice (by_keys owner_keys) (snd <$> range_map owners).

Definition with_image_owners (s : discovered) (key : string) (i : ImageResult) : ImageResult :=
  match imageOwners s !! key with
  | Some owners => {| im_Name := im_Name i; im_ID := im_ID i; im_PullRef := im_PullRef i; im_Owners := sortedOwners owners |}
  | None => i
  end.

Definition finalizeImages (s : discovered) : list ImageResult :=
  sort_slice (by_keys image_keys) ((fun e => with_image_owners s (fst e) (snd e)) <$> range_map (keyToImage s)).

(** [client] is false for a nil client. *)
Definition ListImages {U} `{!PodObjects U Qty} (client : bool) (controllers : list (Workload U Qty))
    : io W (result string (list ImageResult)) :=
  if negb client then mret (Err "kubernetes client is required"%string)
  else
    let s := recordControllerPods controllers in
    namespaces ← listAllNamespaces;
    match namespaces with
    | Err e => mret (Err e)
    | Ok namespaces =>
        r ← recordOrphanPods namespaces s;
        match r with
        | Err e => mret (Err e)
        | Ok s =>
            r ← recordJobPods namespaces s;
            mret (match r with
                  | Err e => Err e
                  | Ok s => Ok (finalizeImages s)
                  end)
        end
    end.
End discovery.

(** ** Where images come from

    The states of the discovery are reached by recording the pods of a source. *)
Section reach.
Context {Qty : Type}.
Implicit Types (pod : Pod Qty) (status : ContainerStatus Qty) (owner : OwnerResult) (s : discovered).

Inductive reach (Src : OwnerResult -> Pod Qty -> Prop) : discovered -> Prop :=
| reach_nothing : reach Src nothing_discovered
| reach_pod owner pod s : Src owner pod -> reach Src s -> reach Src (record_pod owner pod s).

(** What holds at first, when a pod is marked and when a status of a source is recorded
    holds of every state. *)
Lemma reach_inv (Src : OwnerResult -> Pod Qty -> Prop) (P : discovered -> Prop) s :
  P nothing_discovered -> (forall ns n s, P s -> P (markPodSeen ns n s)) ->
  (forall owner pod status s, Src owner pod -> status ∈ containerStatusesFromPod pod ->
     P s -> P (recordContainerImage (statusWithPreferredImage pod status) owner s)) ->
  reach Src s -> P s.
Proof.
  intros H0 Hm Hr. induction 1 as [|owner pod s Hs _ IH]; [done|]. unfold record_pod.
  apply foldl_inv; [by apply Hm|]. intros s' status Hst. by apply Hr.
Qed.

Definition image_of pod status : string * string * string := image_identity (statusWithPreferredImage pod status).

Lemma cs_Name_preferred pod status : cs_Name (statusWithPreferredImage pod status) = cs_Name status.
Proof. unfold statusWithPreferredImage. by case_decide. Qed.

(** What recording a status does to both maps. *)
Lemma recordContainerImage_maps pod status owner s name id ref :
  image_of pod status = (name, id, ref) -> id <> "" ->
  let s' := recordContainerImage (statusWithPreferredImage pod status) owner s in
  let o := with_container (cs_Name status) owner in
  imageOwners s' = <[image_key name id := <[ownerKey o := o]> (default ∅ (imageOwners s !! image_key name id))]> (imageOwners s)
  /\ (keyToImage s' = keyToImage s /\ is_Some (keyToImage s !! image_key name id)
      \/ keyToImage s' = <[image_key name id := {| im_Name := name; im_ID := id; im_PullRef := ref; im_Owners := [] |}]> (keyToImage s)
         /\ keyToImage s !! image_key name id = None).
Proof.
  unfold image_of. intros Hi Hid. unfold recordContainerImage. rewrite Hi, decide_False by done.
  cbn [imageOwners keyToImage]. rewrite cs_Name_preferred. split; [done|].
  destruct (keyToImage s !! image_key name id); [left; by split|by right].
Qed.

Lemma recordContainerImage_skip pod status owner s name ref :
  image_of pod status = (name, "", ref) -> recordContainerImage (statusWithPreferredImage pod status) owner s = s.
Proof. unfold image_of. intros Hi. unfold recordContainerImage. by rewrite Hi, decide_True. Qed.

(** *** Soundness *)

(** Every image is that of a status, and has an entry of owners; the owners are those of statuses
    with the same image, each at its own key. *)
Definition sound (Src : OwnerResult -> Pod Qty -> Prop) s : Prop :=
  (forall k i, keyToImage s !! k = Some i ->
     k = image_key (im_Name i) (im_ID i) /\ im_Owners i = [] /\ is_Some (imageOwners s !! k)
     /\ exists owner pod status, Src owner pod /\ status ∈ containerStatusesFromPod pod
          /\ image_of pod status = (im_Name i, im_ID i, im_PullRef i) /\ im_ID i <> "")
  /\ (forall k os ok o, imageOwners s !! k = Some os -> os !! ok = Some o ->
        ok = ownerKey o
        /\ exists owner pod status name id ref, Src owner pod /\ status ∈ containerStatusesFromPod pod
             /\ image_of pod status = (name, id, ref) /\ id <> "" /\ k = image_key name id
             /\ o = with_container (cs_Name status) owner).

Lemma reach_sound Src s : reach Src s -> sound Src s.
Proof.
  apply reach_inv; [by split|by intros ns n s' H|]. intros owner pod status s0 Hsrc Hst [Hi Ho].
  destruct (image_of pod status) as [[name id] ref] eqn:E. destruct (decide (id = "")) as [->|Hid].
  { by rewrite (recordContainerImage_skip _ _ _ _ _ _ E). }
  destruct (recordContainerImage_maps pod status owner s0 name id ref E Hid) as [Hos Hks]. unfold sound. rewrite Hos.
  assert (forall k, is_Some (imageOwners s0 !! k) ->
    is_Some (<[image_key name id := <[ownerKey (with_container (cs_Name status) owner) := with_container (cs_Name status) owner]>
       (default ∅ (imageOwners s0 !! image_key name id))]> (imageOwners s0) !! k)) as Hmono.
  { intros k Hk. destruct (decide (image_key name id = k)) as [<-|Hne]; [rewrite lookup_insert_eq; by eexists|].
    by rewrite lookup_insert_ne. }
  split.
  - intros k i Hk. destruct Hks as [[Hks _]|[Hks _]]; rewrite Hks in Hk.
    + apply Hi in Hk as (? & ? & ? & ?). split_and!; [done..|by apply Hmono|done].
    + destruct (decide (image_key name id = k)) as [<-|Hne].
      * rewrite lookup_insert_eq in Hk. injection Hk as <-. rewrite lookup_insert_eq. split_and!; [done|done|by eexists|].
        by exists owner, pod, status.
      * rewrite lookup_insert_ne in Hk by done. apply Hi in Hk as (? & ? & ? & ?). split_and!; [done..|by apply Hmono|done].
  - intros k os ok o Hk Hok. destruct (decide (image_key name id = k)) as [<-|Hne].
    + rewrite lookup_insert_eq in Hk. injection Hk as <-.
      destruct (decide (ownerKey (with_container (cs_Name status) owner) = ok)) as [<-|Hok'].
      * rewrite lookup_insert_eq in Hok. injection Hok as <-. split; [done|]. by exists owner, pod, status, name, id, ref.
      * rewrite lookup_insert_ne in Hok by done. destruct (imageOwners s0 !! image_key name id) as [os|] eqn:Eo; simpl in Hok.
        -- by apply (Ho _ os).
        -- by rewrite lookup_empty in Hok.
    + rewrite lookup_insert_ne in Hk by done. by apply (Ho _ os).
Qed.

(** *** Completeness *)

(** The image of a status is there, with the owner. *)
Definition status_reported owner pod status s : Prop :=
  forall name id ref, image_of pod status = (name, id, ref) -> id <> "" ->
  is_Some (keyToImage s !! image_key name id)
  /\ exists os, imageOwners s !! image_key name id = Some os
                /\ is_Some (os !! ownerKey (with_container (cs_Name status) owner)).

Definition pod_reported owner pod s : Prop :=
  forall status, status ∈ containerStatusesFromPod pod -> status_reported owner pod status s.

Lemma status_reported_mono owner pod status owner' pod' status' s :
  status_reported owner pod status s ->
  status_reported owner pod status (recordContainerImage (statusWithPreferredImage pod' status') owner' s).
Proof.
  intros H name id ref E Hid. destruct (H name id ref E Hid) as [Hk (os & Hos & Hok)].
  destruct (image_of pod' status') as [[name' id'] ref'] eqn:E'. destruct (decide (id' = "")) as [->|Hid'].
  { rewrite (recordContainerImage_skip _ _ _ _ _ _ E'). split; [done|]. by exists os. }
  destruct (recordContainerImage_maps pod' status' owner' s name' id' ref' E' Hid') as [-> Hks]. split.
  - destruct Hks as [[-> _]|[-> Hn]]; [done|]. rewrite lookup_insert_ne; [done|]. intros Heq. rewrite Heq in Hn.
    rewrite Hn in Hk. by destruct Hk.
  - destruct (decide (image_key name' id' = image_key name id)) as [->|Hne].
    + rewrite lookup_insert_eq, Hos. eexists. split; [reflexivity|]. simpl.
      destruct (decide (ownerKey (with_container (cs_Name status') owner') = ownerKey (with_container (cs_Name status) owner))) as [->|].
      * rewrite lookup_insert_eq. by eexists.
      * by rewrite lookup_insert_ne.
    + rewrite lookup_insert_ne by done. by exists os.
Qed.

Lemma status_reported_here owner pod status s :
  status_reported owner pod status (recordContainerImage (statusWithPreferredImage pod status) owner s).
Proof.
  intros name id ref E Hid. destruct (recordContainerImage_maps pod status owner s name id ref E Hid) as [-> Hks]. split.
  - destruct Hks as [[-> ?]|[-> _]]; [done|]. rewrite lookup_insert_eq. by eexists.
  - rewrite lookup_insert_eq. eexists. split; [reflexivity|]. rewrite lookup_insert_eq. by eexists.
Qed.

Lemma pod_reported_mono owner pod owner' pod' s :
  pod_reported owner pod s -> pod_reported owner pod (record_pod owner' pod' s).
Proof.
  intros H status Hst. unfold record_pod. apply foldl_inv; [by apply H|]. intros s' status' _. apply status_reported_mono.
Qed.

Lemma pod_reported_here owner pod s : pod_reported owner pod (record_pod owner pod s).
Proof.
  intros status Hst. unfold record_pod. generalize (markPodSeen (p_Namespace pod) (p_Name pod) s). clear s. revert Hst.
  induction (containerStatusesFromPod pod) as [|st l IH]; intros Hst s; [by apply elem_of_nil in Hst|].
  apply elem_of_cons in Hst as [->|Hst]; simpl; [|by apply IH].
  apply foldl_inv; [apply status_reported_here|]. intros s' status' _. apply status_reported_mono.
Qed.

Lemma seenPods_record_pod owner pod s :
  seenPods (record_pod owner pod s) = {[podKey (p_Namespace pod) (p_Name pod)]} ∪ seenPods s.
Proof.
  unfold record_pod. change ({[podKey (p_Namespace pod) (p_Name pod)]} ∪ seenPods s)
    with (seenPods (markPodSeen (p_Namespace pod) (p_Name pod) s)).
  apply (foldl_inv (fun s' => seenPods s' = _)); [done|]. intros s' status _ <-. unfold recordContainerImage.
  destruct (image_identity _) as [[name id] ref]. by case_decide.
Qed.

(** A pod that counts as seen is reported, for the pod with its name in the source. *)
Lemma reach_seen Src s k :
  reach Src s -> k ∈ seenPods s ->
  exists owner pod, Src owner pod /\ podKey (p_Namespace pod) (p_Name pod) = k /\ pod_reported owner pod s.
Proof.
  induction 1 as [|owner pod s Hsrc _ IH]; [by intros ?%elem_of_empty|].
  rewrite seenPods_record_pod, elem_of_union, elem_of_singleton. intros [->|Hk].
  - exists owner, pod. split; [done|]. split; [done|]. apply pod_reported_here.
  - destruct (IH Hk) as (owner' & pod' & ? & ? & ?). exists owner', pod'. split; [done|]. split; [done|].
    by apply pod_reported_mono.
Qed.
End reach.

(** ** A cluster that does not change during the run *)

Class StableLists (W Qty : Type) `{!PodLists W Qty} := {
  v_namespaces : list Namespace;
  v_pods : string -> string -> string -> list (Pod Qty);
  v_jobs : string -> list Job;
  ListNamespaces_stable : forall w, ListNamespaces w = (w, Ok v_namespaces);
  ListPods_stable : forall ns fs ls w, ListPods ns fs ls w = (w, Ok (v_pods ns fs ls));
  ListJobs_stable : forall ns w, ListJobs ns w = (w, Ok (v_jobs ns))
}.

Section stable.
Context {W Qty U : Type} `{!PodLists W Qty} `{!StableLists W Qty} `{!PodObjects U Qty}.
Context (controllers : list (Workload U Qty)).
Implicit Types (pod : Pod Qty) (owner : OwnerResult) (s : discovered).

(** The pods that are found, each with the owner it is found for. *)
Inductive found : OwnerResult -> Pod Qty -> Prop :=
| found_controller c u pod :
    c ∈ controllers -> u ∈ w_Pods c -> FromUnstructured u = Ok pod ->
    podPhaseContributesImages (p_Phase pod) (to_Kind (TopController c)) = true -> found (ownerFromController c) pod
| found_orphan ns pod :
    ns ∈ ns_Name <$> v_namespaces -> pod ∈ v_pods ns "status.phase=Running" "" ->
    hasControllerOwner (p_OwnerReferences pod) = false -> found (orphan_owner pod) pod
| found_job ns job selector pod :
    ns ∈ ns_Name <$> v_namespaces -> job ∈ v_jobs ns -> j_Selector job = Some (Ok selector) -> pod ∈ v_pods ns "" selector ->
    found (ownerFromJob job) pod.

(** A state that has gone through some pods: each of them counts as seen, and those of
    controllers are reported. *)
Definition grown s s' : Prop :=
  (forall Src : OwnerResult -> Pod Qty -> Prop, (forall o p, found o p -> Src o p) -> reach Src s -> reach Src s')
  /\ seenPods s ⊆ seenPods s'
  /\ (forall owner pod, pod_reported owner pod s -> pod_reported owner pod s').

Lemma grown_refl s : grown s s.
Proof. by split_and!. Qed.

Lemma grown_trans s1 s2 s3 : grown s1 s2 -> grown s2 s3 -> grown s1 s3.
Proof. intros (A1 & B1 & C1) (A2 & B2 & C2). split_and!; [auto|set_solver|auto]. Qed.

Lemma grown_record owner pod s : found owner pod -> grown s (record_pod owner pod s).
Proof.
  intros Hf. split_and!.
  - intros Src HS Hr. apply reach_pod; [by apply HS|done].
  - rewrite seenPods_record_pod. set_solver.
  - intros owner' pod'. apply pod_reported_mono.
Qed.

(** A fold whose steps grow the state grows it, and passes each element's step. *)
Lemma foldl_grown {A} (f : discovered -> A -> discovered) l s :
  (forall s x, x ∈ l -> grown s (f s x)) ->
  grown s (foldl f s l) /\ (forall x, x ∈ l -> exists s', grown (f s' x) (foldl f s l)).
Proof.
  revert s. induction l as [|x l IH]; intros s Hf; simpl.
  - split; [apply grown_refl|]. by intros x ?%elem_of_nil.
  - destruct (IH (f s x)) as [H1 H2]; [intros; apply Hf; by right|]. split.
    + eapply grown_trans; [apply Hf; by left|done].
    + intros y [->|Hy]%elem_of_cons; [by exists s|by apply H2].
Qed.

Lemma controller_pods_grown :
  grown nothing_discovered (recordControllerPods controllers)
  /\ (forall c u pod, c ∈ controllers -> u ∈ w_Pods c -> FromUnstructured u = Ok pod ->
        podPhaseContributesImages (p_Phase pod) (to_Kind (TopController c)) = true ->
        pod_reported (ownerFromController c) pod (recordControllerPods controllers)).
Proof.
  assert (Hstep : forall c s u, c ∈ controllers -> u ∈ w_Pods c -> grown s (record_controller_pod (ownerFromController c) s u)).
  { intros c s u Hc Hu. unfold record_controller_pod. destruct (FromUnstructured u) as [pod|] eqn:E; [|apply grown_refl].
    destruct (podPhaseContributesImages _ _) eqn:Ep; [|apply grown_refl]. apply grown_record. by eapply found_controller. }
  assert (Hc : forall c s, c ∈ controllers -> grown s (foldl (record_controller_pod (ownerFromController c)) s (w_Pods c))).
  { intros c s Hc. apply foldl_grown. intros s' u Hu. by apply Hstep. }
  unfold recordControllerPods.
  destruct (foldl_grown (fun s c => foldl (record_controller_pod (ownerFromController c)) s (w_Pods c)) controllers nothing_discovered)
    as [H1 H2]; [by intros; apply Hc|]. split; [done|].
  intros c u pod Hin Hu E Ep. destruct (H2 c Hin) as (s & _ & _ & Hrep). apply Hrep.
  destruct (foldl_grown (record_controller_pod (ownerFromController c)) (w_Pods c) s) as [_ H3]; [intros; by apply Hstep|].
  destruct (H3 u Hu) as (s' & _ & _ & Hrep'). apply Hrep'. unfold record_controller_pod. rewrite E.
  change (ow_Kind (ownerFromController c)) with (to_Kind (TopController c)). rewrite Ep. apply pod_reported_here.
Qed.

(** A loop whose steps succeed and grow the state. *)
Lemma each_ok_grown {A} (f : A -> discovered -> io W (result string discovered)) (P : A -> discovered -> Prop) l s (w w' : W) r :
  (forall x s (w w' : W) r, x ∈ l -> runs (f x s) w w' r -> exists s', r = Ok s' /\ grown s s' /\ P x s') ->
  (forall x s s', grown s s' -> P x s -> P x s') ->
  runs (each_ok f l s) w w' r -> exists s', r = Ok s' /\ grown s s' /\ forall x, x ∈ l -> P x s'.
Proof.
  intros Hf HP. revert s w. induction l as [|x l IH]; intros s w.
  - intros [_ ->]%runs_ret. exists s. split; [done|]. split; [apply grown_refl|]. by intros x ?%elem_of_nil.
  - intros (w1 & r1 & H1 & H2)%runs_bind. apply Hf in H1 as (s1 & -> & Hg & Hp); [|by left].
    apply IH in H2 as (s2 & -> & Hg2 & Hp2); [|intros; eapply Hf; [by right|done]]. exists s2. split; [done|].
    split; [by eapply grown_trans|]. intros y [->|Hy]%elem_of_cons; [by eapply HP|by apply Hp2].
Qed.

(** The pod is seen, by this or an earlier step. *)
Definition seen pod s : Prop := podKey (p_Namespace pod) (p_Name pod) ∈ seenPods s.

Lemma seen_mono pod s s' : grown s s' -> seen pod s -> seen pod s'.
Proof. intros (_ & H & _). unfold seen. set_solver. Qed.

Lemma record_seen owner pod s : seen pod (record_pod owner pod s).
Proof. unfold seen. rewrite seenPods_record_pod. set_solver. Qed.

Lemma orphans_grown s (w w' : W) r :
  runs (recordOrphanPods (ns_Name <$> v_namespaces) s) w w' r ->
  exists s', r = Ok s' /\ grown s s'
  /\ forall ns, ns ∈ ns_Name <$> v_namespaces -> forall pod, pod ∈ v_pods ns "status.phase=Running" "" ->
       hasControllerOwner (p_OwnerReferences pod) = false -> seen pod s'.
Proof.
  apply (each_ok_grown _ (fun ns s => forall pod, pod ∈ v_pods ns "status.phase=Running" "" ->
       hasControllerOwner (p_OwnerReferences pod) = false -> seen pod s)).
  - intros ns s0 w0 w1 r0 Hns (w2 & pods & H1 & H2)%runs_bind. apply runs_effect in H1. rewrite ListPods_stable in H1.
    injection H1 as <- <-. apply runs_ret in H2 as [_ ->]. eexists. split; [reflexivity|].
    destruct (foldl_grown (fun s pod => record_orphan pod s) (v_pods ns "status.phase=Running" "") s0) as [Hg Hs].
    { intros s' pod Hp. unfold record_orphan. destruct (pod_seen pod s'); [apply grown_refl|].
      destruct (hasControllerOwner _) eqn:Eo; [apply grown_refl|]. apply grown_record. by eapply found_orphan. }
    split; [done|]. intros pod Hp Ho. destruct (Hs pod Hp) as (s' & Hg'). eapply seen_mono; [exact Hg'|].
    unfold record_orphan. rewrite Ho, orb_false_r. destruct (pod_seen pod s') eqn:E; [by apply bool_decide_eq_true in E|].
    apply record_seen.
  - intros ns s1 s2 Hg H pod Hp Ho. eapply seen_mono; [exact Hg|]. by apply H.
Qed.

Lemma jobs_grown s (w w' : W) r :
  runs (recordJobPods (ns_Name <$> v_namespaces) s) w w' r ->
  exists s', r = Ok s' /\ grown s s'
  /\ forall ns, ns ∈ ns_Name <$> v_namespaces -> forall job selector pod,
       job ∈ v_jobs ns -> j_Selector job = Some (Ok selector) -> pod ∈ v_pods ns "" selector -> seen pod s'.
Proof.
  apply (each_ok_grown _ (fun ns s => forall job selector pod,
       job ∈ v_jobs ns -> j_Selector job = Some (Ok selector) -> pod ∈ v_pods ns "" selector -> seen pod s)).
  - intros ns s0 w0 w1 r0 Hns (w2 & jobs & H1 & H2)%runs_bind. apply runs_effect in H1. rewrite ListJobs_stable in H1.
    injection H1 as <- <-.
    eapply (each_ok_grown _ (fun job s => forall selector pod, j_Selector job = Some (Ok selector) ->
        pod ∈ v_pods ns "" selector -> seen pod s)) in H2.
    + destruct H2 as (s' & -> & Hg & Hs). exists s'. split; [done|]. split; [done|]. intros; by eapply Hs.
    + intros job s1 w3 w4 r1 Hj. unfold record_job. destruct (j_Selector job) as [[selector|]|] eqn:Es;
        [|intros [_ ->]%runs_ret; exists s1; split; [done|]; by split; [apply grown_refl|intros]..].
      intros (w5 & pods & Ha & Hb)%runs_bind. apply runs_effect in Ha. rewrite ListPods_stable in Ha. injection Ha as <- <-.
      apply runs_ret in Hb as [_ ->]. eexists. split; [reflexivity|].
      assert (Hph : forall pod, podPhaseContributesImages (p_Phase pod) (ow_Kind (ownerFromJob job)) = true).
      { intros pod. unfold podPhaseContributesImages, ownerFromJob. apply orb_true_iff. right. apply bool_decide_eq_true.
        destruct (cronJobOwnerRef _); simpl; tauto. }
      destruct (foldl_grown (fun s pod => record_job_pod (ownerFromJob job) pod s) (v_pods ns "" selector) s1) as [Hg Hs].
      { intros s' pod Hp. unfold record_job_pod. rewrite Hph. simpl. destruct (pod_seen pod s'); [apply grown_refl|].
        apply grown_record. by eapply found_job. }
      split; [done|]. intros sel pod [= <-] Hp. destruct (Hs pod Hp) as (s' & Hg'). eapply seen_mono; [exact Hg'|].
      unfold record_job_pod. rewrite Hph. simpl. destruct (pod_seen pod s') eqn:E; [by apply bool_decide_eq_true in E|].
      apply record_seen.
    + intros job s1 s2 Hg H selector pod Hsel Hp. eapply seen_mono; [exact Hg|]. by eapply H.
  - intros ns s1 s2 Hg H job selector pod Hj Hsel Hp. eapply seen_mono; [exact Hg|]. by eapply H.
Qed.
End stable.

(** ** The result *)

Section result.
Context {W Qty U : Type} `{!PodLists W Qty} `{!PodObjects U Qty}.
Implicit Types (pod : Pod Qty) (owner : OwnerResult) (s : discovered).

(** A loop whose steps return does, and keeps what its steps keep. *)
Lemma each_ok_returns {A S} (f : A -> S -> io W (result string S)) (l : list A) (s : S) (w : W) :
  (forall (x : A) (s : S) (w : W), exists w' r, runs (f x s) w w' r) -> exists w' r, runs (each_ok f l s) w w' r.
Proof.
  intros Hf. revert s w. induction l as [|x l IH]; intros s w; simpl; [exists w, (Ok s); by apply runs_ret|].
  destruct (Hf x s w) as (w1 & [s1|e] & H1).
  - destruct (IH s1 w1) as (w2 & r & H2). exists w2, r. apply runs_bind. by exists w1, (Ok s1).
  - exists w1, (Err e). apply runs_bind. exists w1, (Err e). split; [done|]. by apply runs_ret.
Qed.

Lemma each_ok_inv {A S} (P : S -> Prop) (f : A -> S -> io W (result string S)) (l : list A) (s s' : S) (w w' : W) :
  (forall (x : A) (s s' : S) (w w' : W), P s -> runs (f x s) w w' (Ok s') -> P s') -> P s -> runs (each_ok f l s) w w' (Ok s') -> P s'.
Proof.
  intros Hf. revert s w. induction l as [|x l IH]; intros s w Hs; simpl.
  - by intros [_ [= ->]]%runs_ret.
  - intros (w1 & [s1|e] & H1 & H2)%runs_bind; [|by apply runs_ret in H2 as [_ ?]]. eapply IH; [|done]. by eapply Hf.
Qed.

Lemma runs_effect_total {A} (f : W -> W * A) (w : W) : exists w' a, runs (effect f) w w' a.
Proof. exists (f w).1, (f w).2. apply runs_effect. by destruct (f w). Qed.

Lemma recordOrphanPods_returns nss s (w : W) : exists w' r, runs (recordOrphanPods nss s) w w' r.
Proof.
  apply each_ok_returns. intros ns s1 w1. destruct (runs_effect_total (ListPods ns "status.phase=Running" "") w1) as (w2 & r & H).
  eexists _, _. apply runs_bind. exists w2, r. split; [done|]. by apply runs_ret.
Qed.

Lemma recordJobPods_returns nss s (w : W) : exists w' r, runs (recordJobPods nss s) w w' r.
Proof.
  apply each_ok_returns. intros ns s1 w1. destruct (runs_effect_total (ListJobs ns) w1) as (w2 & [jobs|e] & H).
  - destruct (each_ok_returns (record_job ns) jobs s1 w2) as (w3 & r & H3).
    + intros job s2 w4. unfold record_job.
      destruct (j_Selector job) as [[selector|]|]; [|eexists _, _; by apply runs_ret..].
      destruct (runs_effect_total (ListPods ns "" selector) w4) as (w5 & r & H5).
      eexists _, _. apply runs_bind. exists w5, r. split; [done|]. by apply runs_ret.
    + exists w3, r. apply runs_bind. by exists w2, (Ok jobs).
  - eexists _, _. apply runs_bind. exists w2, (Err e). split; [done|]. by apply runs_ret.
Qed.

(** All states are reached by recording pods. *)
Definition any_source : OwnerResult -> Pod Qty -> Prop := fun _ _ => True.

Lemma reach_foldl {A} (f : discovered -> A -> discovered) l s :
  (forall s x, f s x = s \/ exists owner pod, f s x = record_pod owner pod s) ->
  reach any_source s -> reach any_source (foldl f s l).
Proof.
  intros Hf Hs. apply foldl_inv; [done|]. intros s' x _ Hs'.
  destruct (Hf s' x) as [->|(owner & pod & ->)]; [done|by apply reach_pod].
Qed.

Lemma recordControllerPods_reach (controllers : list (Workload U Qty)) : reach any_source (recordControllerPods controllers).
Proof.
  unfold recordControllerPods. apply foldl_inv; [constructor|]. intros s c _ Hs. apply reach_foldl; [|done].
  intros s' u. unfold record_controller_pod. destruct (FromUnstructured u) as [pod|]; [|by left].
  destruct (podPhaseContributesImages _ _); [|by left]. right. by eexists _, _.
Qed.

Lemma recordOrphanPods_reach nss s s' (w w' : W) :
  reach any_source s -> runs (recordOrphanPods nss s) w w' (Ok s') -> reach any_source s'.
Proof.
  apply each_ok_inv. intros ns s1 s2 w1 w2 Hs (w3 & [pods|e] & _ & [_ [= ->]]%runs_ret)%runs_bind.
  apply reach_foldl; [|done]. intros s3 pod. unfold record_orphan. destruct (_ || _); [by left|]. right. by eexists _, _.
Qed.

Lemma recordJobPods_reach nss s s' (w w' : W) :
  reach any_source s -> runs (recordJobPods nss s) w w' (Ok s') -> reach any_source s'.
Proof.
  apply each_ok_inv. intros ns s1 s2 w1 w2 Hs (w3 & [jobs|e] & _ & H)%runs_bind; [|by apply runs_ret in H as [_ ?]].
  revert H. apply (each_ok_inv (reach any_source)); [|done]. intros job s3 s4 w4 w5 Hs3. unfold record_job.
  destruct (j_Selector job) as [[selector|]|]; [|by intros [_ [= ->]]%runs_ret..].
  intros (w6 & [pods|e] & _ & [_ [= ->]]%runs_ret)%runs_bind. apply reach_foldl; [|done].
  intros s5 pod. unfold record_job_pod. destruct (_ || _); [by left|]. right. by eexists _, _.
Qed.

(** *** Independence of orders *)

Lemma sortedOwners_unique (r1 r2 : RangeOrder string OwnerResult) (s1 s2 : GoSort) (owners : gmap string OwnerResult) :
  (forall k o, owners !! k = Some o -> k = ownerKey o) ->
  @sortedOwners r1 s1 owners = @sortedOwners r2 s2 owners.
Proof.
  intros Hk. unfold sortedOwners. apply (sort_by_keys_unique _ _ owner_keys 4); [done| |].
  - assert (forall o, o ∈ snd <$> @range_map _ _ _ _ r1 owners -> owners !! ownerKey o = Some o) as Hin.
    { intros o ([k o'] & -> & Ho)%list_elem_of_fmap. apply elem_of_range_map in Ho. simpl. by rewrite <-(Hk k o'). }
    intros a b Ha%Hin Hb%Hin Heq. injection Heq as E1 E2 E3 E4.
    assert (ownerKey a = ownerKey b) as E by (unfold ownerKey; congruence). rewrite E in Ha. congruence.
  - by rewrite (@range_map_perm _ _ _ _ r1), (@range_map_perm _ _ _ _ r2).
Qed.

Lemma finalizeImages_unique (r1 r2 : RangeOrder string OwnerResult) (q1 q2 : RangeOrder string ImageResult) (s1 s2 : GoSort)
    (Src : OwnerResult -> Pod Qty -> Prop) s :
  reach Src s -> @finalizeImages r1 q1 s1 s = @finalizeImages r2 q2 s2 s.
Proof.
  intros [Hi Ho]%reach_sound. unfold finalizeImages.
  assert (Hsame : forall k i, @with_image_owners r1 s1 s k i = @with_image_owners r2 s2 s k i).
  { intros k i. unfold with_image_owners. destruct (imageOwners s !! k) as [os|] eqn:E; [|done]. f_equal.
    apply sortedOwners_unique. intros k' o Hk. by apply (Ho k os k' o). }
  rewrite (list_fmap_ext (fun e => @with_image_owners r1 s1 s e.1 e.2) (fun e => @with_image_owners r2 s2 s e.1 e.2)
             (@range_map _ _ _ _ q1 (keyToImage s))) by (intros; apply Hsame).
  apply (sort_by_keys_unique _ _ image_keys 2); [done| |].
  - assert (forall i, i ∈ (fun e => @with_image_owners r2 s2 s e.1 e.2) <$> @range_map _ _ _ _ q1 (keyToImage s) ->
      exists i', keyToImage s !! image_key (im_Name i) (im_ID i) = Some i'
                 /\ i = @with_image_owners r2 s2 s (image_key (im_Name i) (im_ID i)) i') as Hin.
    { intros i ([k i'] & -> & Hk)%list_elem_of_fmap. apply elem_of_range_map in Hk. simpl. exists i'.
      pose proof (proj1 (Hi k i' Hk)) as ->. unfold with_image_owners.
      destruct (imageOwners s !! image_key (im_Name i') (im_ID i')) eqn:E; simpl; by rewrite ?E. }
    intros a b (a' & Ha & Ea)%Hin (b' & Hb & Eb)%Hin Heq. injection Heq as E1 E2. rewrite E1, E2 in Ha, Ea. rewrite Ea, Eb. congruence.
  - by rewrite (@range_map_perm _ _ _ _ q1), (@range_map_perm _ _ _ _ q2).
Qed.

(** The images of the report, their order and that of their owners do not depend on the order of ranging over the maps
    that collect them, nor on how the sort treats elements it does not tell apart. *)
Theorem ListImages_deterministic (r1 r2 : RangeOrder string OwnerResult) (q1 q2 : RangeOrder string ImageResult) (s1 s2 : GoSort)
    client (controllers : list (Workload U Qty)) (w : W) :
  @ListImages Qty W _ r1 q1 s1 U _ client controllers w = @ListImages Qty W _ r2 q2 s2 U _ client controllers w.
Proof.
  unfold ListImages. destruct client; [|done]. simpl. unfold mbind, io_bind.
  destruct (listAllNamespaces w) as [[w1 [nss|e]]|]; [|done..].
  destruct (recordOrphanPods nss _ w1) as [[w2 [st1|e]]|] eqn:E1; [|done..].
  destruct (recordJobPods nss st1 w2) as [[w3 [st2|e]]|] eqn:E2; [|done..].
  unfold mret, io_ret. rewrite (finalizeImages_unique r1 r2 q1 q2 s1 s2 any_source st2); [done|].
  eapply recordJobPods_reach; [|exact E2]. eapply recordOrphanPods_reach; [|exact E1]. apply recordControllerPods_reach.
Qed.
End result.

(** ** The images are those of the pods that are found *)

Section exactness.
Context {W Qty U : Type} `{!PodLists W Qty} `{!StableLists W Qty} `{!PodObjects U Qty}.
Context `{!RangeOrder string OwnerResult} `{!RangeOrder string ImageResult} `{!GoSort}.
Implicit Types (pod : Pod Qty) (owner : OwnerResult) (s : discovered) (controllers : list (Workload U Qty)).

Lemma elem_of_finalizeImages s img :
  img ∈ finalizeImages s <-> exists k i, keyToImage s !! k = Some i /\ img = with_image_owners s k i.
Proof.
  unfold finalizeImages. rewrite elem_of_sort_slice, list_elem_of_fmap. split.
  - intros ([k i] & -> & Hk). apply elem_of_range_map in Hk. by exists k, i.
  - intros (k & i & Hk & ->). exists (k, i). split; [done|]. by apply elem_of_range_map.
Qed.

Lemma elem_of_sortedOwners (owners : gmap string OwnerResult) o :
  o ∈ sortedOwners owners <-> exists k, owners !! k = Some o.
Proof.
  unfold sortedOwners. rewrite elem_of_sort_slice, list_elem_of_fmap. split.
  - intros ([k o'] & -> & Hk). apply elem_of_range_map in Hk. by exists k.
  - intros (k & Hk). exists (k, o). split; [done|]. by apply elem_of_range_map.
Qed.

(** The final state of a run in a stable cluster. *)
Lemma discovery_state controllers (w : W) :
  exists w' s, runs (ListImages true controllers) w w' (Ok (finalizeImages s)) /\ reach (found controllers) s
  /\ (forall owner pod, found controllers owner pod -> (exists owner', pod_reported owner' pod s /\ found controllers owner' pod)
                                                       \/ seen pod s).
Proof.
  destruct (controller_pods_grown controllers) as [Hg0 Hc]. set (s0 := recordControllerPods controllers) in *.
  destruct (recordOrphanPods_returns (ns_Name <$> v_namespaces) s0 w) as (w1 & r1 & H1).
  destruct (orphans_grown controllers s0 w w1 r1 H1) as (s1 & -> & Hg1 & Ho).
  destruct (recordJobPods_returns (ns_Name <$> v_namespaces) s1 w1) as (w2 & r2 & H2).
  destruct (jobs_grown controllers s1 w1 w2 r2 H2) as (s2 & -> & Hg2 & Hj).
  exists w2, s2. split; [|split].
  - unfold ListImages. simpl. apply runs_bind. exists w, (Ok (ns_Name <$> v_namespaces)). split.
    + unfold listAllNamespaces. apply runs_bind. eexists w, _. split; [apply runs_effect, ListNamespaces_stable|]. by apply runs_ret.
    + apply runs_bind. exists w1, (Ok s1). split; [exact H1|]. apply runs_bind. exists w2, (Ok s2). split; [exact H2|].
      by apply runs_ret.
  - destruct Hg0 as [R0 _], Hg1 as [R1 _], Hg2 as [R2 _]. apply R2; [done|]. apply R1; [done|]. apply R0; [done|]. constructor.
  - destruct Hg1 as (_ & _ & M1), Hg2 as (G2 & S2 & M2).
    intros owner pod [c u p Hin Hu E Ep|ns p Hns Hp Hno|ns job selector p Hns Hjob Hs Hp].
    + left. exists (ownerFromController c). split; [|by eapply found_controller]. apply M2, M1. by eapply Hc.
    + right. eapply seen_mono; [by split_and!|]. by eapply Ho.
    + right. by eapply Hj.
Qed.

End exactness.

(** ** A concrete cluster *)
Module Witness.
#[local] Existing Instance merge_go_sort.
#[local] Existing Instance canonical_order.

Definition container (name image : string) : Container unit :=
  {| c_Name := name; c_Image := image; c_Resources := no_requirements |}.

Definition status (name image id : string) : ContainerStatus unit :=
  {| cs_Name := name; cs_Image := image; cs_ImageID := id; cs_Resources := None |}.

Definition pod (name : string) (owners : list OwnerReference) (c : Container unit) (s : ContainerStatus unit) : Pod unit :=
  {| p_Namespace := "ns"; p_Name := name; p_UID := name; p_Labels := None; p_Annotations := None; p_OwnerReferences := owners;
     p_Spec := {| NodeName := "node"; Containers := [c]; InitContainers := []; EphemeralContainers := []; Volumes := [] |};
     p_Phase := PodRunning; p_Conditions := []; p_ContainerStatuses := [s]; p_InitContainerStatuses := [];
     p_EphemeralContainerStatuses := [] |}.

(** A pod of a deployment whose runtime cuts the tag, and one of nobody. *)
Definition web : Pod unit :=
  pod "web-1" [{| or_Kind := "ReplicaSet"; or_Name := "web"; or_UID := "1"; or_Controller := Some true |}]
    (container "web" "index.docker.io/library/web:2.10")
    (status "web" "index.docker.io/library/web:2" "docker-pullable://index.docker.io/library/web@sha256:1").
Definition debug : Pod unit := pod "debug" [] (container "sh" "busybox") (status "sh" "busybox" "sha256:2").

#[local] Instance pods_are_pods : PodObjects (Pod unit) unit :=
  {| FromUnstructured := fun p => Ok p; GetPodMetadataAndSpec := fun p => Ok (Some (p_Spec p)) |}.

Definition pods_of (ns fs ls : string) : list (Pod unit) := if decide (ns = "ns"%string) then [web; debug] else [].

#[local] Instance lists : PodLists unit unit := {|
  Namespace := string;
  ns_Name := fun s => s;
  ListNamespaces := fun w => (w, Ok ["ns"%string]);
  ListPods := fun ns fs ls w => (w, Ok (pods_of ns fs ls));
  ListJobs := fun ns w => (w, Ok [])
|}.

#[local] Instance stable_lists : StableLists unit unit := {|
  v_namespaces := ["ns"%string] : list (@Namespace unit unit lists);
  v_pods := pods_of;
  v_jobs := fun _ => [];
  ListNamespaces_stable := fun _ => eq_refl;
  ListPods_stable := fun _ _ _ _ => eq_refl;
  ListJobs_stable := fun _ _ => eq_refl
|}.

Definition deployment : Workload (Pod unit) unit := {|
  TopController := {| to_Kind := "Deployment"; to_Name := "web"; to_Namespace := "ns"; to_UID := "d"; to_OwnerReferences := [];
                      to_Annotations := None; to_Labels := None; to_CreationTimestamp := 0 |};
  w_Pods := [web]; w_PodSpec := Some (p_Spec web); w_PodMetadata := None; RunningPodCount := 1 |}.

Lemma found_pods o p : found [deployment] o p -> p = web \/ p = debug.
Proof.
  intros [c u q Hc Hu E _|ns q _ Hq _|ns job selector q _ Hj _ _].
  - apply elem_of_cons in Hc as [->|Hc]; [|by apply elem_of_nil in Hc]. apply elem_of_cons in Hu as [->|Hu]; [|by apply elem_of_nil in Hu].
    injection E as <-. by left.
  - change (q ∈ pods_of ns "status.phase=Running" "") in Hq. unfold pods_of in Hq. case_decide.
    + apply elem_of_cons in Hq as [->|Hq]; [by left|]. apply elem_of_cons in Hq as [->|Hq]; [by right|by apply elem_of_nil in Hq].
    + by apply elem_of_nil in Hq.
  - by apply elem_of_nil in Hj.
Qed.


(** Two different images can have one key: the key joins name and identifier with a
    slash that both may contain. *)
Example ambiguous_key : image_key "registry" "app/x" = image_key "registry/app" "x".
Proof. reflexivity. Qed.

(** A pending pod of a job feeds the images too, where that of a deployment does not. *)
Example pending_job : podPhaseContributesImages "Pending" "Job" = true /\ podPhaseContributesImages "Pending" "Deployment" = false.
Proof. done. Qed.
End Witness.
