(* ===== verification/WorkloadsInventory.v ===== *)
(** * workloads: inventories of custom resources

    [workloads/pkg/karpenter.go] and [gateway_api.go]: the objects of Karpenter
    and of the Gateway API, listed page by page and read from their decoded JSON.
    The API server and the accessors of unstructured objects are classes. *)

From stdpp Require Import base decidable list gmap strings.
From Stdlib Require Import ZArith Lia Ascii.
From S2P Require Import Prelude GoStrings GoText GoValues GoSort GoFiles.

Local Open Scope Z_scope.

(** ** Values as texts and numbers *)

(** A decoded number is an [int64] when its literal is one, else a [float64]. *)
Inductive number : Type := Int64 (z : Z) | FloatLiteral (literal : string).

Definition decode_number (literal : string) : number :=
  match ParseInt literal with
  | ParsedOk z => Int64 z
  | _ => FloatLiteral literal
  end.

(** How a [float64] is printed and converted to [int32]. *)
Class FloatTexts := { Sprint_float : string -> string; int32_of_float : string -> Z }.

(** [fmt.Sscan] into an [int32]: white space, a sign, a prefix of the base, and the
    digits that follow; what comes after them is not looked at. *)
Definition accept (set : list ascii) (l : list ascii) : list ascii * list ascii :=
  match l with
  | c :: l' => if decide (c ∈ set) then ([c], l') else ([], l)
  | [] => ([], l)
  end.

Fixpoint accept_all (set : list ascii) (l : list ascii) : list ascii :=
  match l with
  | c :: l' => if decide (c ∈ set) then c :: accept_all set l' else []
  | [] => []
  end.

Definition decimal_digits : list ascii := chars "0123456789".
Definition octal_digits : list ascii := chars "01234567".
Definition hex_digits : list ascii := chars "0123456789aAbBcCdDeEfF".

(** The digits of a number that begins with 0, with the prefix, and the digits allowed. *)
Definition base_prefix (l : list ascii) : list ascii * list ascii * list ascii :=
  match l with
  | c :: l' =>
      if decide (c ∈ chars "bB") then ([c], chars "01", l')
      else if decide (c ∈ chars "oO") then ([c], octal_digits, l')
      else if decide (c ∈ chars "xX") then ([c], hex_digits, l')
      else ([], octal_digits, l)
  | [] => ([], octal_digits, l)
  end.

(** Sign and digits of the token, if it has any. *)
Definition scan_token (l : list ascii) : option (list ascii * list ascii) :=
  let '(sign, l) := accept (chars "+-") l in
  match l with
  | "0"%char :: l' =>
      let '(prefix, digits, l'') := base_prefix l' in
      Some (sign, "0"%char :: prefix ++ accept_all ("_"%char :: digits) l'')
  | c :: _ => if decide (c ∈ "_"%char :: decimal_digits) then Some (sign, accept_all ("_"%char :: decimal_digits) l) else None
  | [] => None
  end.

(** [strconv.ParseInt(s, 0, 64)]. *)
Definition base_of (l : list ascii) : Z * list ascii :=
  match l with
  | "0"%char :: c :: d :: l' =>
      if decide (lower c = "b"%char) then (2, d :: l')
      else if decide (lower c = "o"%char) then (8, d :: l')
      else if decide (lower c = "x"%char) then (16, d :: l')
      else (8, c :: d :: l')
  | "0"%char :: l' => (8, l')
  | _ => (10, l)
  end.

Definition hex_value (c : ascii) : option Z :=
  match digit_value c with
  | Some d => Some d
  | None => let n := Z.of_nat (nat_of_ascii (lower c)) in if (97 <=? n) && (n <=? 102) then Some (n - 87) else None
  end.

Fixpoint base_value (base acc : Z) (l : list ascii) : option Z :=
  match l with
  | [] => Some acc
  | "_"%char :: l' => base_value base acc l'
  | c :: l' =>
      match hex_value c with
      | Some d => if d <? base then base_value base (acc * base + d) l' else None
      | None => None
      end
  end.

(** An underscore stands between digits, or between the prefix and a digit; [prev] says what came
    last: nothing, a digit or the prefix, or an underscore. *)
Fixpoint underscores_ok (prev : ascii) (l : list ascii) : bool :=
  match l with
  | [] => negb (bool_decide (prev = "_"%char))
  | c :: l' =>
      if decide (c = "_"%char) then bool_decide (prev = "0"%char) && underscores_ok "_"%char l'
      else underscores_ok "0"%char l'
  end.

Definition underscoreOK (l : list ascii) : bool :=
  match l with
  | "0"%char :: c :: l' => if decide (lower c ∈ chars "box") then underscores_ok "0"%char l' else underscores_ok "^"%char l
  | _ => underscores_ok "^"%char l
  end.

Definition parse_int_any_base (sign digits : list ascii) : option Z :=
  let '(base, rest) := base_of digits in
  if negb (underscoreOK digits) then None
  else
    match base_value base 0 rest with
    | Some u => let z := if decide (sign = ["-"%char]) then - u else u in
                if (- 2 ^ 63 <=? z) && (z <? 2 ^ 63) then Some z else None
    | None => None
    end.

(** The value that an error leaves is 0. *)
Definition sscan_int32 (s : string) : Z :=
  match scan_token (trim_left_seqs space_seqs (chars s)) with
  | Some (sign, digits) =>
      match parse_int_any_base sign digits with
      | Some z => if GoInt.i32 z =? z then z else 0
      | None => 0
      end
  | None => 0
  end.

Section texts.
Context `{FT : !FloatTexts} `{GS : !GoSort}.

(** [fmt.Sprint]; a map is printed in the order of its keys. *)
Fixpoint Sprint (v : value) : string :=
  match v with
  | VNil => "<nil>"
  | VBool b => if b then "true" else "false"
  | VNumber literal => match decode_number literal with Int64 z => fmt_d z | FloatLiteral f => Sprint_float f end
  | VString s => s
  | VArray l => "[" +:+ Join (Sprint <$> l) " " +:+ "]"
  | VMap m =>
      let entries := map_fold (fun k x es => (k, Sprint x) :: es) [] m in
      "map[" +:+ Join ((fun e => fst e +:+ ":" +:+ snd e) <$> sort_slice (fun a b => string_less (fst a) (fst b)) entries) " " +:+ "]"
  end.

(** [m[k]] is nil when it is missing. *)
Definition asString (v : option value) : string :=
  match v with
  | None | Some VNil => ""
  | Some v => Sprint v
  end.

Definition asInt32 (v : option value) : Z :=
  match v with
  | None | Some VNil => 0
  | Some (VNumber literal) => match decode_number literal with Int64 z => GoInt.i32 z | FloatLiteral f => int32_of_float f end
  | Some _ => sscan_int32 (asString v)
  end.

Definition asInt32Ptr (v : option value) : option Z :=
  match v with
  | None | Some VNil => None
  | Some x =>
      let n := asInt32 v in
      if (n =? 0) && bool_decide (asString v = "" \/ asString v = "0")
      then match x with VNumber _ => Some n | _ => None end
      else Some n
  end.

Definition string_entry (out : gmap string string) (e : string * value) : gmap string string :=
  let s := asString (Some (snd e)) in
  if decide (s = "") then out else <[fst e := s]> out.

Context `{!RangeOrder string value}.

Definition asStringMap (v : option value) : strmap :=
  match to_map v with
  | None => None
  | Some raw =>
      if decide (raw = ∅) then None
      else let out := foldl string_entry ∅ (range_map raw) in if decide (out = ∅) then None else Some out
  end.

(** A slice that is nil when it is empty. *)
Definition nil_if_none {A} (l : list A) : option (list A) := match l with [] => None | _ => Some l end.

Definition asStringSlice (v : option value) : option (list string) :=
  match to_array v with
  | None | Some [] => None
  | Some raw => nil_if_none (foldl (fun out item => let s := asString (Some item) in if decide (s <> "") then out ++ [s] else out) [] raw)
  end.

(** The loops over a list of maps: what is not a map is skipped, and so is what [f] has nothing for. *)
Definition collect {A} (f : gmap string value -> option A) (raw : option (list value)) : option (list A) :=
  match raw with
  | None | Some [] => None
  | Some raw =>
      nil_if_none (foldl (fun out item =>
        match to_map (Some item) with
        | Some m => match f m with Some a => out ++ [a] | None => out end
        | None => out
        end) [] raw)
  end.
End texts.

(** ** Objects *)

(** What the accessors of an unstructured object return. *)
Record Unstructured : Type := {
  u_Object : gmap string value;
  u_APIVersion : string;
  u_Name : string;
  u_Namespace : string;
  u_UID : string;
  u_Labels : strmap;
  u_Annotations : strmap
}.

(** Nested fields: an error for a value of another type, or whether there is one. *)
Class NestedFields := {
  NestedMap : gmap string value -> list string -> result string (option (gmap string value));
  NestedSlice : gmap string value -> list string -> result string (option (list value));
  NestedString : gmap string value -> list string -> result string (option string);
  NestedInt64 : gmap string value -> list string -> result string (option Z);
  NestedStringSlice : gmap string value -> list string -> result string (option (list string))
}.

(** The value, if there was no error. *)
Definition found_value {A} (r : result string (option A)) : option A :=
  match r with
  | Ok v => v
  | Err _ => None
  end.

(** A group, version and resource. *)
Record GVR : Type := { Group : string; Version : string; Resource : string }.

(** An error of a list, and what the library says of it, also when it is wrapped: not found, no
    such resource. *)
Record list_error : Type := { le_Text : string; le_NotFound : bool; le_NoMatch : bool }.

(** A page of a list over all namespaces, with the token of the next page. *)
Class DynamicLists (W : Type) := {
  ListPage : GVR -> string -> W -> W * result list_error (list Unstructured * string)
}.

Section nested.
Context `{FT : !FloatTexts} `{GS : !GoSort} `{!RangeOrder string value} `{NF : !NestedFields}.

Definition nestedMap (obj : gmap string value) (fields : list string) : option (gmap string value) :=
  found_value (NestedMap obj fields).
Definition nestedSlice (obj : gmap string value) (fields : list string) : option (list value) :=
  found_value (NestedSlice obj fields).
Definition nestedString (obj : gmap string value) (fields : list string) : string :=
  default "" (found_value (NestedString obj fields)).
Definition nestedStringMapTolerant (obj : gmap string value) (fields : list string) : strmap :=
  match found_value (NestedMap obj fields) with
  | None => None
  | Some m => if decide (m = ∅) then None else asStringMap (Some (VMap m))
  end.
End nested.

Definition or_version (v d : string) : string := if decide (v = "") then d else v.

(** ** Karpenter *)
Definition KindNodePool : string := "NodePool".
Definition KindNodeClaim : string := "NodeClaim".
Definition KindEC2NodeClass : string := "EC2NodeClass".
Definition karpenterNodePoolLabelKey : string := "karpenter.sh/nodepool".
Definition karpenterAPIVersion : string := "karpenter.sh/v1".
Definition ec2NodeClassAPIVersion : string := "karpenter.k8s.aws/v1".
Definition nodePoolGVR : GVR := {| Group := "karpenter.sh"; Version := "v1"; Resource := "nodepools" |}.
Definition nodeClaimGVR : GVR := {| Group := "karpenter.sh"; Version := "v1"; Resource := "nodeclaims" |}.
Definition ec2NodeClassGVR : GVR := {| Group := "karpenter.k8s.aws"; Version := "v1"; Resource := "ec2nodeclasses" |}.

Record KarpenterNodeClassRef : Type := { nr_Group : string; nr_Kind : string; nr_Name : string }.
Record KarpenterRequirement : Type := { rq_Key : string; rq_Operator : string; rq_Values : option (list string) }.
Record KarpenterDisruptionBudget : Type := { bu_Nodes : string; bu_Schedule : string; bu_Duration : string }.
Record KarpenterDisruption : Type := {
  ConsolidationPolicy : string;
  ConsolidateAfter : string;
  Budgets : list KarpenterDisruptionBudget
}.
Record KarpenterCondition : Type := {
  kc_Type : string; kc_Status : string; kc_Reason : string; kc_Message : string; kc_LastTransitionTime : string
}.
Record KarpenterSelectorTerm : Type := {
  st_ID : string; st_Name : string; st_Alias : string; st_Owner : string; st_Tags : strmap
}.
Record NodePool : Type := {
  np_Kind : string;
  np_Name : string;
  np_UID : string;
  np_APIVersion : string;
  np_Labels : strmap;
  np_Annotations : strmap;
  np_Weight : option Z;
  np_Limits : strmap;
  np_NodeClassRef : option KarpenterNodeClassRef;
  np_Requirements : option (list KarpenterRequirement);
  np_Disruption : option KarpenterDisruption;
  np_Conditions : option (list KarpenterCondition)
}.
Record NodeClaim : Type := {
  nc_Kind : string;
  nc_Name : string;
  nc_UID : string;
  nc_APIVersion : string;
  nc_Labels : strmap;
  nc_Annotations : strmap;
  nc_NodePool : string;
  nc_NodeClassRef : option KarpenterNodeClassRef;
  nc_Requirements : option (list KarpenterRequirement);
  nc_ProviderID : string;
  nc_NodeName : string;
  nc_Conditions : option (list KarpenterCondition)
}.
Record EC2NodeClass : Type := {
  ec_Kind : string;
  ec_Name : string;
  ec_UID : string;
  ec_APIVersion : string;
  ec_Labels : strmap;
  ec_Annotations : strmap;
  ec_Role : string;
  ec_InstanceProfile : string;
  ec_AMIFamily : string;
  ec_Tags : strmap;
  ec_SubnetSelectorTerms : option (list KarpenterSelectorTerm);
  ec_SecurityGroupSelectorTerms : option (list KarpenterSelectorTerm);
  ec_AMISelectorTerms : option (list KarpenterSelectorTerm);
  ec_Conditions : option (list KarpenterCondition)
}.
Record Karpenter : Type := {
  NodePools : list NodePool;
  NodeClaims : list NodeClaim;
  EC2NodeClasses : list EC2NodeClass
}.

Section karpenter.
Context `{FT : !FloatTexts} `{GS : !GoSort} `{!RangeOrder string value} `{NF : !NestedFields}.

Definition formatNodeClassRef (raw : option (gmap string value)) : option KarpenterNodeClassRef :=
  match raw with
  | None => None
  | Some raw =>
      if decide (raw = ∅) then None
      else
        let ref := {| nr_Group := asString (raw !! "group"%string); nr_Kind := asString (raw !! "kind"%string);
                      nr_Name := asString (raw !! "name"%string) |} in
        if decide (nr_Group ref = "" /\ nr_Kind ref = "" /\ nr_Name ref = "") then None else Some ref
  end.

Definition requirement (m : gmap string value) : option KarpenterRequirement :=
  let req := {| rq_Key := asString (m !! "key"%string); rq_Operator := asString (m !! "operator"%string);
                rq_Values := asStringSlice (m !! "values"%string) |} in
  if decide (rq_Key req = "" /\ rq_Operator req = "" /\ rq_Values req = None) then None else Some req.

Definition formatRequirements : option (list value) -> option (list KarpenterRequirement) := collect requirement.

Definition budget (m : gmap string value) : option KarpenterDisruptionBudget :=
  Some {| bu_Nodes := asString (m !! "nodes"%string); bu_Schedule := asString (m !! "schedule"%string);
          bu_Duration := asString (m !! "duration"%string) |}.

Definition formatDisruption (raw : option (gmap string value)) : option KarpenterDisruption :=
  match raw with
  | None => None
  | Some raw =>
      if decide (raw = ∅) then None
      else
        let d := {| ConsolidationPolicy := asString (raw !! "consolidationPolicy"%string);
                    ConsolidateAfter := asString (raw !! "consolidateAfter"%string);
                    Budgets := default [] (collect budget (to_array (raw !! "budgets"%string))) |} in
        if decide (ConsolidationPolicy d = "" /\ ConsolidateAfter d = "" /\ Budgets d = []) then None else Some d
  end.

Definition selector_term (m : gmap string value) : option KarpenterSelectorTerm :=
  let term := {| st_ID := asString (m !! "id"%string); st_Name := asString (m !! "name"%string);
                 st_Alias := asString (m !! "alias"%string); st_Owner := asString (m !! "owner"%string);
                 st_Tags := asStringMap (m !! "tags"%string) |} in
  if decide (st_ID term = "" /\ st_Name term = "" /\ st_Alias term = "" /\ st_Owner term = "" /\ st_Tags term = None)
  then None else Some term.

Definition formatSelectorTerms : option (list value) -> option (list KarpenterSelectorTerm) := collect selector_term.

Definition karpenter_condition (m : gmap string value) : option KarpenterCondition :=
  Some {| kc_Type := asString (m !! "type"%string); kc_Status := asString (m !! "status"%string);
          kc_Reason := asString (m !! "reason"%string); kc_Message := asString (m !! "message"%string);
          kc_LastTransitionTime := asString (m !! "lastTransitionTime"%string) |}.

Definition formatKarpenterConditions : option (list value) -> option (list KarpenterCondition) := collect karpenter_condition.

Definition formatNodePool (item : Unstructured) : NodePool :=
  let o := u_Object item in
  {| np_Kind := KindNodePool; np_Name := u_Name item; np_UID := u_UID item;
     np_APIVersion := or_version (u_APIVersion item) karpenterAPIVersion; np_Labels := u_Labels item;
     np_Annotations := u_Annotations item;
     np_Weight := match NestedInt64 o ["spec"; "weight"]%string with Ok (Some weight) => Some (GoInt.i32 weight) | _ => None end;
     np_Limits := nestedStringMapTolerant o ["spec"; "limits"]%string;
     np_NodeClassRef := formatNodeClassRef (nestedMap o ["spec"; "template"; "spec"; "nodeClassRef"]%string);
     np_Requirements := formatRequirements (nestedSlice o ["spec"; "template"; "spec"; "requirements"]%string);
     np_Disruption := formatDisruption (nestedMap o ["spec"; "disruption"]%string);
     np_Conditions := formatKarpenterConditions (nestedSlice o ["status"; "conditions"]%string) |}.

Definition formatNodeClaim (item : Unstructured) : NodeClaim :=
  let o := u_Object item in
  {| nc_Kind := KindNodeClaim; nc_Name := u_Name item; nc_UID := u_UID item;
     nc_APIVersion := or_version (u_APIVersion item) karpenterAPIVersion; nc_Labels := u_Labels item;
     nc_Annotations := u_Annotations item; nc_NodePool := get_string (u_Labels item) karpenterNodePoolLabelKey;
     nc_NodeClassRef := formatNodeClassRef (nestedMap o ["spec"; "nodeClassRef"]%string);
     nc_Requirements := formatRequirements (nestedSlice o ["spec"; "requirements"]%string);
     nc_ProviderID := nestedString o ["status"; "providerID"]%string;
     nc_NodeName := nestedString o ["status"; "nodeName"]%string;
     nc_Conditions := formatKarpenterConditions (nestedSlice o ["status"; "conditions"]%string) |}.

Definition formatEC2NodeClass (item : Unstructured) : EC2NodeClass :=
  let o := u_Object item in
  {| ec_Kind := KindEC2NodeClass; ec_Name := u_Name item; ec_UID := u_UID item;
     ec_APIVersion := or_version (u_APIVersion item) ec2NodeClassAPIVersion; ec_Labels := u_Labels item;
     ec_Annotations := u_Annotations item; ec_Role := nestedString o ["spec"; "role"]%string;
     ec_InstanceProfile := nestedString o ["spec"; "instanceProfile"]%string;
     ec_AMIFamily := nestedString o ["spec"; "amiFamily"]%string;
     ec_Tags := nestedStringMapTolerant o ["spec"; "tags"]%string;
     ec_SubnetSelectorTerms := formatSelectorTerms (nestedSlice o ["spec"; "subnetSelectorTerms"]%string);
     ec_SecurityGroupSelectorTerms := formatSelectorTerms (nestedSlice o ["spec"; "securityGroupSelectorTerms"]%string);
     ec_AMISelectorTerms := formatSelectorTerms (nestedSlice o ["spec"; "amiSelectorTerms"]%string);
     ec_Conditions := formatKarpenterConditions (nestedSlice o ["status"; "conditions"]%string) |}.
End karpenter.

(** ** Gateway API *)
Definition KindGateway : string := "Gateway".
Definition KindHTTPRoute : string := "HTTPRoute".
Definition gatewayAPIVersion : string := "gateway.networking.k8s.io/v1".
Definition gatewayGVR : GVR := {| Group := "gateway.networking.k8s.io"; Version := "v1"; Resource := "gateways" |}.
Definition httpRouteGVR : GVR := {| Group := "gateway.networking.k8s.io"; Version := "v1"; Resource := "httproutes" |}.

Record GatewayObjectRef : Type := {
  gr_Group : string;
  gr_Kind : string;
  gr_Name : string;
  gr_Namespace : string;
  gr_SectionName : string;
  gr_Port : option Z;
  gr_Weight : option Z
}.
Record GatewayListener : Type := {
  gl_Name : string;
  gl_Protocol : string;
  gl_Port : Z;
  gl_Hostname : string;
  gl_TLSMode : string;
  gl_CertificateRefs : option (list GatewayObjectRef)
}.
Record GatewayAddress : Type := { ga_Type : string; ga_Value : string }.
Record GatewayCondition : Type := {
  gc_Type : string; gc_Status : string; gc_Reason : string; gc_Message : string; gc_LastTransitionTime : string
}.
Record Gateway : Type := {
  gw_Kind : string;
  gw_Name : string;
  gw_Namespace : string;
  gw_Annotations : strmap;
  gw_Labels : strmap;
  gw_UID : string;
  gw_APIVersion : string;
  gw_GatewayClassName : string;
  gw_Listeners : option (list GatewayListener);
  gw_Addresses : option (list GatewayAddress);
  gw_Conditions : option (list GatewayCondition)
}.
Record HTTPRouteMatch : Type := { hm_PathType : string; hm_Path : string }.
Record HTTPRouteRule : Type := {
  hu_Matches : option (list HTTPRouteMatch);
  hu_BackendRefs : option (list GatewayObjectRef)
}.
Record HTTPRoute : Type := {
  ho_Kind : string;
  ho_Name : string;
  ho_Namespace : string;
  ho_Annotations : strmap;
  ho_Labels : strmap;
  ho_UID : string;
  ho_APIVersion : string;
  ho_Hostnames : option (list string);
  ho_ParentRefs : option (list GatewayObjectRef);
  ho_Rules : option (list HTTPRouteRule)
}.
Record GatewayAPI : Type := { Gateways : list Gateway; HTTPRoutes : list HTTPRoute }.

Section gateway.
Context `{FT : !FloatTexts} `{GS : !GoSort} `{!RangeOrder string value} `{NF : !NestedFields}.

Definition object_ref (m : gmap string value) : option GatewayObjectRef :=
  let ref := {| gr_Group := asString (m !! "group"%string); gr_Kind := asString (m !! "kind"%string);
                gr_Name := asString (m !! "name"%string); gr_Namespace := asString (m !! "namespace"%string);
                gr_SectionName := asString (m !! "sectionName"%string); gr_Port := asInt32Ptr (m !! "port"%string);
                gr_Weight := asInt32Ptr (m !! "weight"%string) |} in
  if decide (gr_Group ref = "" /\ gr_Kind ref = "" /\ gr_Name ref = "" /\ gr_Namespace ref = "" /\ gr_SectionName ref = ""
             /\ gr_Port ref = None /\ gr_Weight ref = None)
  then None else Some ref.

Definition formatGatewayObjectRefs : option (list value) -> option (list GatewayObjectRef) := collect object_ref.

Definition listener (m : gmap string value) : option GatewayListener :=
  let tls := to_map (m !! "tls"%string) in
  Some {| gl_Name := asString (m !! "name"%string); gl_Protocol := asString (m !! "protocol"%string);
          gl_Port := asInt32 (m !! "port"%string); gl_Hostname := asString (m !! "hostname"%string);
          gl_TLSMode := from_ptr "" (fun tls => asString (tls !! "mode"%string)) tls;
          gl_CertificateRefs := tls ≫= fun tls => formatGatewayObjectRefs (to_array (tls !! "certificateRefs"%string)) |}.

Definition formatGatewayListeners : option (list value) -> option (list GatewayListener) := collect listener.

Definition address (m : gmap string value) : option GatewayAddress :=
  let addr := {| ga_Type := asString (m !! "type"%string); ga_Value := asString (m !! "value"%string) |} in
  if decide (ga_Type addr = "" /\ ga_Value addr = "") then None else Some addr.

Definition formatGatewayAddresses : option (list value) -> option (list GatewayAddress) := collect address.

Definition gateway_condition (m : gmap string value) : option GatewayCondition :=
  Some {| gc_Type := asString (m !! "type"%string); gc_Status := asString (m !! "status"%string);
          gc_Reason := asString (m !! "reason"%string); gc_Message := asString (m !! "message"%string);
          gc_LastTransitionTime := asString (m !! "lastTransitionTime"%string) |}.

Definition formatGatewayConditions : option (list value) -> option (list GatewayCondition) := collect gateway_condition.

Definition route_match (m : gmap string value) : option HTTPRouteMatch :=
  let path := to_map (m !! "path"%string) in
  let match_ := {| hm_PathType := from_ptr "" (fun path => asString (path !! "type"%string)) path;
                   hm_Path := from_ptr "" (fun path => asString (path !! "value"%string)) path |} in
  if decide (hm_PathType match_ = "" /\ hm_Path match_ = "") then None else Some match_.

Definition formatHTTPRouteMatches : option (list value) -> option (list HTTPRouteMatch) := collect route_match.

Definition route_rule (m : gmap string value) : option HTTPRouteRule :=
  Some {| hu_Matches := formatHTTPRouteMatches (to_array (m !! "matches"%string));
          hu_BackendRefs := formatGatewayObjectRefs (to_array (m !! "backendRefs"%string)) |}.

Definition formatHTTPRouteRules : option (list value) -> option (list HTTPRouteRule) := collect route_rule.

Definition formatGateway (item : Unstructured) : Gateway :=
  let o := u_Object item in
  {| gw_Kind := KindGateway; gw_Name := u_Name item; gw_Namespace := u_Namespace item; gw_Annotations := u_Annotations item;
     gw_Labels := u_Labels item; gw_UID := u_UID item; gw_APIVersion := or_version (u_APIVersion item) gatewayAPIVersion;
     gw_GatewayClassName := nestedString o ["spec"; "gatewayClassName"]%string;
     gw_Listeners := formatGatewayListeners (nestedSlice o ["spec"; "listeners"]%string);
     gw_Addresses := formatGatewayAddresses (nestedSlice o ["status"; "addresses"]%string);
     gw_Conditions := formatGatewayConditions (nestedSlice o ["status"; "conditions"]%string) |}.

Definition formatHTTPRoute (item : Unstructured) : HTTPRoute :=
  let o := u_Object item in
  {| ho_Kind := KindHTTPRoute; ho_Name := u_Name item; ho_Namespace := u_Namespace item; ho_Annotations := u_Annotations item;
     ho_Labels := u_Labels item; ho_UID := u_UID item; ho_APIVersion := or_version (u_APIVersion item) gatewayAPIVersion;
     ho_Hostnames := nil_if_none (default [] (found_value (NestedStringSlice o ["spec"; "hostnames"]%string)));
     ho_ParentRefs := formatGatewayObjectRefs (nestedSlice o ["spec"; "parentRefs"]%string);
     ho_Rules := formatHTTPRouteRules (nestedSlice o ["spec"; "rules"]%string) |}.
End gateway.

(** ** Lists *)

Section lists.
Context {W : Type} `{!DynamicLists W} `{FT : !FloatTexts} `{GS : !GoSort} `{!RangeOrder string value} `{NF : !NestedFields}.

Definition wrap_list (gvr : GVR) (e : list_error) : list_error :=
  {| le_Text := "list " +:+ Resource gvr +:+ ": " +:+ le_Text e; le_NotFound := le_NotFound e; le_NoMatch := le_NoMatch e |}.

Definition listing (A : Type) : Type := result list_error A.

(** The loop over the pages; [None] is a run out of fuel.  A page that fails loses the ones before it. *)
Fixpoint list_pages (fuel : nat) (gvr : GVR) (continueToken : string) (items : list Unstructured)
    : io W (option (listing (list Unstructured))) :=
  match fuel with
  | O => mret None
  | S fuel' =>
      page ← effect (ListPage gvr continueToken);
      match page with
      | Err e => mret (Some (Err (wrap_list gvr e)))
      | Ok (new, token) =>
          let items := items ++ new in
          if decide (token = "") then mret (Some (Ok items)) else list_pages fuel' gvr token items
      end
  end.

(** Karpenter's objects belong to the cluster, those of the Gateway API to namespaces, of which all are listed. *)
Definition listClusterUnstructured (fuel : nat) (gvr : GVR) : io W (option (listing (list Unstructured))) :=
  list_pages fuel gvr "" [].
Definition listNamespacedUnstructured (fuel : nat) (gvr : GVR) : io W (option (listing (list Unstructured))) :=
  list_pages fuel gvr "" [].

Definition formatted {A} (format : Unstructured -> A) (r : option (listing (list Unstructured))) : option (listing (list A)) :=
  match r with
  | None => None
  | Some (Err e) => Some (Err e)
  | Some (Ok items) => Some (Ok (format <$> items))
  end.

Definition listKarpenterNodePools (fuel : nat) : io W (option (listing (list NodePool))) :=
  items ← listClusterUnstructured fuel nodePoolGVR; mret (formatted formatNodePool items).
Definition listKarpenterNodeClaims (fuel : nat) : io W (option (listing (list NodeClaim))) :=
  items ← listClusterUnstructured fuel nodeClaimGVR; mret (formatted formatNodeClaim items).
Definition listEC2NodeClasses (fuel : nat) : io W (option (listing (list EC2NodeClass))) :=
  items ← listClusterUnstructured fuel ec2NodeClassGVR; mret (formatted formatEC2NodeClass items).
Definition listGateways (fuel : nat) : io W (option (listing (list Gateway))) :=
  items ← listNamespacedUnstructured fuel gatewayGVR; mret (formatted formatGateway items).
Definition listHTTPRoutes (fuel : nat) : io W (option (listing (list HTTPRoute))) :=
  items ← listNamespacedUnstructured fuel httpRouteGVR; mret (formatted formatHTTPRoute items).

Definition isKarpenterAbsent (e : list_error) : bool := le_NotFound e || le_NoMatch e.
Definition isGatewayAPIAbsent (e : list_error) : bool := le_NotFound e || le_NoMatch e.

(** Whether a list says that there is no such resource; an unreadable list counts as empty. *)
Definition says_absent {A} (absent : list_error -> bool) (r : listing A) : bool :=
  match r with
  | Err e => absent e
  | Ok _ => false
  end.

Definition or_empty {A} (r : listing (list A)) : list A :=
  match r with
  | Ok l => l
  | Err _ => []
  end.

Definition listKarpenterInventory (fuel : nat) : io W (option (option Karpenter)) :=
  pools ← listKarpenterNodePools fuel;
  match pools with
  | None => mret None
  | Some nodePools =>
      claims ← listKarpenterNodeClaims fuel;
      match claims with
      | None => mret None
      | Some nodeClaims =>
          if says_absent isKarpenterAbsent nodePools && says_absent isKarpenterAbsent nodeClaims then mret (Some None)
          else
            classes ← listEC2NodeClasses fuel;
            mret (match classes with
                  | None => None
                  | Some ec2NodeClasses =>
                      Some (Some {| NodePools := or_empty nodePools; NodeClaims := or_empty nodeClaims;
                                    EC2NodeClasses := or_empty ec2NodeClasses |})
                  end)
      end
  end.

Definition listGatewayAPIInventory (fuel : nat) : io W (option (option GatewayAPI)) :=
  gateways ← listGateways fuel;
  match gateways with
  | None => mret None
  | Some gateways =>
      routes ← listHTTPRoutes fuel;
      mret (match routes with
            | None => None
            | Some httpRoutes =>
                if says_absent isGatewayAPIAbsent gateways && says_absent isGatewayAPIAbsent httpRoutes then Some None
                else Some (Some {| Gateways := or_empty gateways; HTTPRoutes := or_empty httpRoutes |})
            end)
  end.
End lists.

(** ** Lists of maps *)

Section collecting.
Context `{FT : !FloatTexts} `{GS : !GoSort} `{!RangeOrder string value}.

Lemma foldl_omap {A B} (f : A -> option B) l out :
  foldl (fun out x => match f x with Some b => out ++ [b] | None => out end) out l = out ++ omap f l.
Proof.
  revert out. induction l as [|x l IH]; intros out; simpl; [by rewrite app_nil_r|]. rewrite IH.
  destruct (f x); [|done]. by rewrite <-app_assoc.
Qed.

(** The loop keeps, in order, what is a map for which there is something, and is nil when nothing is. *)
Lemma collect_reference {A} (f : gmap string value -> option A) raw :
  collect f raw = nil_if_none (omap (fun item => to_map (Some item) ≫= f) (default [] raw)).
Proof.
  destruct raw as [[|x l]|]; [done| |done]. unfold collect, default, id. f_equal.
  rewrite <-(app_nil_l (omap _ _)), <-foldl_omap. revert x l. enough (forall l out,
    foldl (fun out item => match to_map (Some item) with
                           | Some m => match f m with Some a => out ++ [a] | None => out end
                           | None => out
                           end) out l
    = foldl (fun out item => match to_map (Some item) ≫= f with Some b => out ++ [b] | None => out end) out l) as Hloop
    by (intros; apply Hloop).
  induction l as [|x l IH]; intros out; [done|]. cbn [foldl]. rewrite IH. f_equal. by destruct (to_map (Some x)).
Qed.

(** Entries without a text are left out, whatever the order of ranging over the map. *)
Lemma asStringMap_lookup raw k :
  map_get (asStringMap (Some (VMap raw))) k
  = raw !! k ≫= fun v => if decide (asString (Some v) = "") then None else Some (asString (Some v)).
Proof.
  assert (Hl : forall l out, NoDup l.*1 ->
    foldl string_entry out l !! k
    = match (list_to_map l : gmap string value) !! k with
      | Some v => if decide (asString (Some v) = "") then out !! k else Some (asString (Some v))
      | None => out !! k
      end).
  { induction l as [|[j v] l IH]; intros out Hnd; [done|]. cbn [fmap list_fmap fst] in Hnd. apply NoDup_cons in Hnd as [Hj Hnd].
    cbn [foldl]. rewrite IH by done. cbn [list_to_map foldr]. unfold string_entry. cbn [fst snd].
    destruct (decide (j = k)) as [->|Hne].
    - rewrite lookup_insert_eq. rewrite not_elem_of_list_to_map_1 by done. case_decide; [done|]. by rewrite lookup_insert_eq.
    - rewrite lookup_insert_ne by done. case_decide; [done|]. rewrite lookup_insert_ne by done. done. }
  unfold asStringMap. cbn [to_map]. case_decide as He; [subst; by rewrite lookup_empty|].
  specialize (Hl (range_map raw) ∅ (NoDup_fst_range_map raw)).
  assert ((list_to_map (range_map raw) : gmap string value) = raw) as Hm.
  { rewrite (list_to_map_proper _ (map_to_list raw)); [apply list_to_map_to_list|apply NoDup_fst_range_map|apply range_map_perm]. }
  rewrite Hm, lookup_empty in Hl.
  trans (foldl string_entry ∅ (range_map raw) !! k).
  { case_decide as Hempty; [|done]. simpl. by rewrite Hempty, lookup_empty. }
  rewrite Hl. destruct (raw !! k) as [v|]; [|done]. simpl. by destruct (decide _).
Qed.
End collecting.

(** ** Pages *)

Section pages.
Context {W : Type} `{!DynamicLists W} `{FT : !FloatTexts} `{GS : !GoSort} `{!RangeOrder string value} `{NF : !NestedFields}.

(** What a server answers to a list from a token on: all the objects of its pages, or an error. *)
Inductive pages (gvr : GVR) : string -> W -> W -> listing (list Unstructured) -> Prop :=
| pages_error token w w' e : ListPage gvr token w = (w', Err e) -> pages gvr token w w' (Err (wrap_list gvr e))
| pages_last token w w' items : ListPage gvr token w = (w', Ok (items, ""%string)) -> pages gvr token w w' (Ok items)
| pages_more token w w1 w' items token' r :
    ListPage gvr token w = (w1, Ok (items, token')) -> token' <> ""%string -> pages gvr token' w1 w' r ->
    pages gvr token w w' (match r with Ok l => Ok (items ++ l) | Err e => Err e end).

(** With enough fuel a call gives its result. *)
Definition eventually {A} (m : nat -> io W (option A)) (w w' : W) (a : A) : Prop :=
  exists n, forall fuel, (n <= fuel)%nat -> runs (m fuel) w w' (Some a).

Lemma list_pages_eventually gvr token (w w' : W) r items :
  pages gvr token w w' r ->
  eventually (fun fuel => list_pages fuel gvr token items) w w' (match r with Ok l => Ok (items ++ l) | Err e => Err e end).
Proof.
  intros H. revert items. induction H as [token w w' e H|token w w' l H|token w w1 w' l token' r H Ht _ IH]; intros items.
  - exists 1%nat. intros [|fuel] Hf; [lia|]. simpl. apply runs_bind. exists w', (Err e).
    split; [by apply runs_effect|by apply runs_ret].
  - exists 1%nat. intros [|fuel] Hf; [lia|]. simpl. apply runs_bind. eexists w', _. split; [by apply runs_effect|].
    cbn. by apply runs_ret.
  - destruct (IH (items ++ l)) as [n Hn]. exists (S n). intros [|fuel] Hf; [lia|]. simpl. apply runs_bind. eexists w1, _.
    split; [by apply runs_effect|]. cbn. rewrite decide_False by done. specialize (Hn fuel ltac:(lia)).
    destruct r as [l'|e]; [by rewrite app_assoc|done].
Qed.

(** The fuel does not matter: a result is what the server answers. *)
Lemma list_pages_sound fuel gvr token items (w w' : W) r :
  runs (list_pages fuel gvr token items) w w' (Some r) ->
  exists r', pages gvr token w w' r' /\ r = match r' with Ok l => Ok (items ++ l) | Err e => Err e end.
Proof.
  revert token items w. induction fuel as [|fuel IH]; intros token items w; [by intros [_ ?]%runs_ret|].
  intros (w1 & [[new token']|e] & H1%runs_effect & H2)%runs_bind.
  - destruct (decide (token' = "")) as [->|Hne]; cbn in H2.
    + apply runs_ret in H2 as [-> [= ->]]. exists (Ok new). split; [by apply pages_last|done].
    + apply IH in H2 as (r' & Hp & ->). exists (match r' with Ok l => Ok (new ++ l) | Err e => Err e end).
      split; [by eapply pages_more|]. destruct r'; [by rewrite app_assoc|done].
  - apply runs_ret in H2 as [-> [= ->]]. eexists. split; [by apply pages_error|done].
Qed.

Lemma eventually_bind {A B} (m : nat -> io W (option A)) (k : nat -> option A -> io W (option B)) w w1 w2 a b :
  eventually m w w1 a -> eventually (fun fuel => k fuel (Some a)) w1 w2 b -> eventually (fun fuel => m fuel ≫= k fuel) w w2 b.
Proof.
  intros [n Hn] [n' Hn']. exists (n + n')%nat. intros fuel Hf. apply runs_bind. exists w1, (Some a).
  split; [apply Hn; lia|apply Hn'; lia].
Qed.

Lemma eventually_ret {A} (w : W) (a : A) : eventually (fun _ => mret (Some a)) w w a.
Proof. exists 0%nat. intros fuel _. by apply runs_ret. Qed.

Definition map_listing {A B} (f : A -> B) (r : listing (list A)) : listing (list B) :=
  match r with Ok l => Ok (f <$> l) | Err e => Err e end.

Lemma formatted_eventually {A} (format : Unstructured -> A) gvr (w w' : W) r :
  pages gvr "" w w' r ->
  eventually (fun fuel => items ← list_pages fuel gvr "" []; mret (formatted format items)) w w' (map_listing format r).
Proof.
  intros H. eapply eventually_bind; [exact (list_pages_eventually _ _ _ _ _ [] H)|]. simpl.
  destruct r as [l|e]; apply eventually_ret.
Qed.

Lemma says_absent_map {A B} (f : A -> B) absent (r : listing (list A)) : says_absent absent (map_listing f r) = says_absent absent r.
Proof. by destruct r. Qed.

Lemma or_empty_map {A B} (f : A -> B) (r : listing (list A)) : or_empty (map_listing f r) = f <$> or_empty r.
Proof. by destruct r. Qed.

(** The inventory of Karpenter, by what the server answers. *)
Lemma karpenter_inventory_pages (w w1 w2 : W) pools claims :
  pages nodePoolGVR "" w w1 pools -> pages nodeClaimGVR "" w1 w2 claims ->
  if says_absent isKarpenterAbsent pools && says_absent isKarpenterAbsent claims
  then eventually listKarpenterInventory w w2 None
  else forall w3 classes, pages ec2NodeClassGVR "" w2 w3 classes ->
       eventually listKarpenterInventory w w3
         (Some {| NodePools := formatNodePool <$> or_empty pools; NodeClaims := formatNodeClaim <$> or_empty claims;
                  EC2NodeClasses := formatEC2NodeClass <$> or_empty classes |}).
Proof.
  intros H1 H2. pose proof (formatted_eventually formatNodePool _ _ _ _ H1) as E1.
  pose proof (formatted_eventually formatNodeClaim _ _ _ _ H2) as E2. destruct (_ && _) eqn:Ha.
  - unfold listKarpenterInventory. eapply eventually_bind; [exact E1|]. eapply eventually_bind; [exact E2|].
    rewrite !says_absent_map, Ha. apply eventually_ret.
  - intros w3 classes H3. pose proof (formatted_eventually formatEC2NodeClass _ _ _ _ H3) as E3.
    unfold listKarpenterInventory. eapply eventually_bind; [exact E1|]. eapply eventually_bind; [exact E2|].
    rewrite !says_absent_map, Ha. eapply eventually_bind; [exact E3|]. rewrite !or_empty_map. apply eventually_ret.
Qed.

(** The same for the Gateway API, where both lists are always made. *)
Lemma gateway_inventory_pages (w w1 w2 : W) gateways routes :
  pages gatewayGVR "" w w1 gateways -> pages httpRouteGVR "" w1 w2 routes ->
  eventually listGatewayAPIInventory w w2
    (if says_absent isGatewayAPIAbsent gateways && says_absent isGatewayAPIAbsent routes then None
     else Some {| Gateways := formatGateway <$> or_empty gateways; HTTPRoutes := formatHTTPRoute <$> or_empty routes |}).
Proof.
  intros H1 H2. pose proof (formatted_eventually formatGateway _ _ _ _ H1) as E1.
  pose proof (formatted_eventually formatHTTPRoute _ _ _ _ H2) as E2.
  unfold listGatewayAPIInventory. eapply eventually_bind; [exact E1|]. eapply eventually_bind; [exact E2|].
  rewrite !says_absent_map, !or_empty_map. destruct (_ && _); apply eventually_ret.
Qed.

(** C32. The inventory of Karpenter is nil exactly when its pools and its claims are both reported as not there, and then the
    node classes are not asked for; else it holds every object of every page of every list, formatted and in order, and a
    list that fails, be it at its last page, is empty.  The same holds of the Gateway API with its two lists.  With a server
    whose pages end the loops over them end. *)
Theorem inventories_complete (w w1 w2 v v1 v2 : W) pools claims gateways routes :
  pages nodePoolGVR "" w w1 pools -> pages nodeClaimGVR "" w1 w2 claims ->
  pages gatewayGVR "" v v1 gateways -> pages httpRouteGVR "" v1 v2 routes ->
  (if says_absent isKarpenterAbsent pools && says_absent isKarpenterAbsent claims
   then eventually listKarpenterInventory w w2 None
   else forall w3 classes, pages ec2NodeClassGVR "" w2 w3 classes ->
        eventually listKarpenterInventory w w3
          (Some {| NodePools := formatNodePool <$> or_empty pools; NodeClaims := formatNodeClaim <$> or_empty claims;
                   EC2NodeClasses := formatEC2NodeClass <$> or_empty classes |}))
  /\ eventually listGatewayAPIInventory v v2
       (if says_absent isGatewayAPIAbsent gateways && says_absent isGatewayAPIAbsent routes then None
        else Some {| Gateways := formatGateway <$> or_empty gateways; HTTPRoutes := formatHTTPRoute <$> or_empty routes |}).
Proof.
  intros H1 H2 H3 H4. split; [by apply (karpenter_inventory_pages w w1 w2)|by apply (gateway_inventory_pages v v1 v2)].
Qed.

(** Both end with every server whose pages do. *)
Lemma karpenter_inventory_ends (w : W) :
  (forall gvr w, exists w' r, pages gvr "" w w' r) -> exists w' k, eventually listKarpenterInventory w w' k.
Proof.
  intros H. destruct (H nodePoolGVR w) as (w1 & pools & H1), (H nodeClaimGVR w1) as (w2 & claims & H2),
    (H ec2NodeClassGVR w2) as (w3 & classes & H3).
  pose proof (karpenter_inventory_pages w w1 w2 pools claims H1 H2) as Hk. destruct (_ && _); [by eexists _, _|].
  eexists _, _. by apply (Hk w3 classes).
Qed.

Lemma gateway_inventory_ends (w : W) :
  (forall gvr w, exists w' r, pages gvr "" w w' r) -> exists w' k, eventually listGatewayAPIInventory w w' k.
Proof.
  intros H. destruct (H gatewayGVR w) as (w1 & gateways & H1), (H httpRouteGVR w1) as (w2 & routes & H2).
  eexists _, _. by apply (gateway_inventory_pages w w1 w2).
Qed.

(** A server that always names a next page is asked for ever. *)
Lemma endless_pages gvr token items fuel (w : W) :
  (forall t w, exists w' l t', ListPage gvr t w = (w', Ok (l, t')) /\ t' <> ""%string) ->
  exists w', runs (list_pages fuel gvr token items) w w' None.
Proof.
  intros H. revert token items w. induction fuel as [|fuel IH]; intros token items w; [exists w; by apply runs_ret|].
  destruct (H token w) as (w1 & l & t & E & Ht). destruct (IH t (items ++ l) w1) as [w2 H2]. exists w2.
  apply runs_bind. eexists w1, _. split; [by apply runs_effect|]. cbn. by rewrite decide_False.
Qed.
End pages.

(** ** Concrete objects *)
Module Witness.
#[local] Existing Instance merge_go_sort.
#[local] Existing Instance canonical_order.
#[local] Instance no_floats : FloatTexts := {| Sprint_float := fun s => s; int32_of_float := fun _ => 0 |}.

(** Fields found by descending through maps. *)
Fixpoint descend (obj : gmap string value) (fields : list string) : option value :=
  match fields with
  | [] => Some (VMap obj)
  | [k] => obj !! k
  | k :: ks => match obj !! k with Some (VMap m) => descend m ks | _ => None end
  end.

Definition of_type {A} (v : option value) (get : option value -> option A) : result string (option A) :=
  match v, get v with
  | None, _ => Ok None
  | Some _, Some a => Ok (Some a)
  | Some _, None => Err "type"%string
  end.

#[local] Instance descending : NestedFields := {|
  NestedMap := fun o fs => of_type (descend o fs) to_map;
  NestedSlice := fun o fs => of_type (descend o fs) to_array;
  NestedString := fun o fs => of_type (descend o fs) to_string;
  NestedInt64 := fun o fs => of_type (descend o fs) (fun v => match v with
                   | Some (VNumber l) => match decode_number l with Int64 z => Some z | _ => None end
                   | _ => None end);
  NestedStringSlice := fun o fs => of_type (descend o fs) (fun v => match to_array v with
                   | Some l => Some (omap (fun x => to_string (Some x)) l) | None => None end)
|}.

Definition object (name : string) (o : gmap string value) : Unstructured :=
  {| u_Object := o; u_APIVersion := ""; u_Name := name; u_Namespace := ""; u_UID := name; u_Labels := None; u_Annotations := None |}.

Definition pool (name : string) (weight : string) : Unstructured :=
  object name {["spec" := VMap {["weight" := VNumber weight;
    "template" := VMap {["spec" := VMap {["requirements" := VArray [VMap {["key" := VString "zone"; "values" := VArray [VString "a"; VNumber "2"]]}; VNil]]}]}]}]}.

(** Two pages of pools, no claims, and node classes that must not be read. *)
#[local] Instance server : DynamicLists unit := {|
  ListPage := fun gvr token w =>
    (w, if decide (Resource gvr = "nodepools"%string)
        then if decide (token = ""%string) then Ok ([pool "a" "10"], "next"%string) else Ok ([pool "b" "20"], ""%string)
        else if decide (Resource gvr = "nodeclaims"%string)
        then Err {| le_Text := "no claims"; le_NotFound := true; le_NoMatch := false |}
        else Err {| le_Text := "forbidden"; le_NotFound := false; le_NoMatch := false |})
|}.

Lemma inventories_complete_witness :
  exists k, eventually listKarpenterInventory tt tt (Some k)
  /\ (fun p => (np_Name p, np_Weight p)) <$> NodePools k = [("a"%string, Some 10); ("b"%string, Some 20)]
  /\ rq_Values <$> (default [] (head (NodePools k) ≫= np_Requirements)) = [Some ["a"; "2"]%string]
  /\ NodeClaims k = [] /\ EC2NodeClasses k = [].
Proof.
  eexists. split.
  - refine (proj1 (inventories_complete tt tt tt tt tt tt (Ok ([pool "a" "10"] ++ [pool "b" "20"])) (Err _) (Err _) (Err _) _ _ _ _)
              tt (Err _) _).
    + eapply (pages_more nodePoolGVR "" tt tt tt [pool "a" "10"] "next" (Ok [pool "b" "20"])); [reflexivity|discriminate|].
      apply pages_last. reflexivity.
    + apply pages_error. reflexivity.
    + apply pages_error. reflexivity.
    + apply pages_error. reflexivity.
    + apply pages_error. reflexivity.
  - vm_compute. done.
Defined.

(** Numbers in texts. *)
Example texts_as_numbers :
  sscan_int32 "8080" = 8080 /\ sscan_int32 " 80/tcp" = 80 /\ sscan_int32 "-0x1F" = -31 /\ sscan_int32 "1_000" = 1000
  /\ sscan_int32 "1__0" = 0 /\ sscan_int32 "4294967376" = 0 /\ sscan_int32 "http" = 0 /\ sscan_int32 "0b12" = 1.
Proof. by vm_compute. Qed.

(** A number past 32 bits is cut, and a weight that is no number is the weight 0. *)
Example number_is_cut : asInt32 (Some (VNumber "4294967376")) = 80.
Proof. reflexivity. Qed.
Example word_is_zero : asInt32Ptr (Some (VString "heavy")) = Some 0 /\ asInt32Ptr (Some (VString "0")) = None.
Proof. by vm_compute. Qed.

Example printed_map : Sprint (VMap {["b" := VArray [VNumber "1"; VNil]; "a" := VBool true]}) = "map[a:true b:[1 <nil>]]"%string.
Proof. reflexivity. Qed.
End Witness.
