(* ===== verification/Workloads.v ===== *)
(** * workloads: the report

    [workloads/pkg/info.go] and [cmd/main.go]: controllers, nodes, ingresses,
    services, claims and counts per namespace, put together with the images and
    the inventories of custom resources.  Lists of the API server are classes. *)

From stdpp Require Import base decidable list gmap strings.
From Stdlib Require Import ZArith QArith Lia Ascii Sorted.
From S2P Require Import Prelude GoStrings GoText GoValues GoNumbers GoSort GoFiles WorkloadsResources WorkloadsImages WorkloadsInventory.

Local Open Scope Z_scope.

(** ** Objects of the API *)

Record ObjectMeta : Type := {
  om_Name : string;
  om_Namespace : string;
  om_UID : string;
  om_Annotations : strmap;
  om_Labels : strmap
}.

Record ServiceBackendPort : Type := { sbp_Name : string; sbp_Number : Z }.
(** Name and port of a service. *)
Record IngressServiceBackend : Type := { isb_Name : string; isb_Port : ServiceBackendPort }.
Record TypedLocalObjectReference : Type := { tr_APIGroup : option string; tr_Kind : string; tr_Name : string }.
Record IngressBackend : Type := {
  ib_Service : option IngressServiceBackend;
  ib_Resource : option TypedLocalObjectReference
}.
Record HTTPIngressPath : Type := { hp_Path : string; hp_PathType : option string; hp_Backend : IngressBackend }.
Record IngressRule : Type := { ir_Host : string; ir_HTTP : option (list HTTPIngressPath) }.
Record IngressTLS : Type := { it_Hosts : list string; it_SecretName : string }.
Record LoadBalancerIngress : Type := { lb_IP : string; lb_Hostname : string }.
Record APIIngress : Type := {
  ai_Meta : ObjectMeta;
  ai_APIVersion : string;
  ai_IngressClassName : option string;
  ai_Rules : list IngressRule;
  ai_TLS : list IngressTLS;
  ai_DefaultBackend : option IngressBackend;
  ai_LoadBalancer : list LoadBalancerIngress
}.

Inductive IntOrString : Type := IsInt (z : Z) | IsString (s : string).
Record ServicePort : Type := {
  sp_Name : string; sp_Protocol : string; sp_Port : Z; sp_TargetPort : IntOrString; sp_NodePort : Z
}.
Record APIService : Type := {
  as_Meta : ObjectMeta;
  as_APIVersion : string;
  as_Type : string;
  as_ClusterIP : string;
  as_ClusterIPs : list string;
  as_ExternalName : string;
  as_ExternalIPs : list string;
  as_Selector : strmap;
  as_Ports : list ServicePort;
  as_LoadBalancer : list LoadBalancerIngress
}.

Record APIClaim {Qty : Type} : Type := {
  ac_Meta : ObjectMeta;
  ac_APIVersion : string;
  ac_StorageClassName : option string;
  ac_AccessModes : list string;
  ac_VolumeMode : option string;
  ac_VolumeName : string;
  ac_Requests : ResourceList Qty;
  ac_Capacity : ResourceList Qty;
  ac_Phase : string
}.
Arguments APIClaim : clear implicits.

Record NodeCondition : Type := {
  nd_Type : string; nd_Status : string; nd_Reason : string; nd_Message : string; nd_LastTransitionTime : Z
}.
Record Taint : Type := { tt_Key : string; tt_Value : string; tt_Effect : string }.
Record NodeAddress : Type := { na_Type : string; na_Address : string }.
Record NodeSystemInfo : Type := {
  si_Architecture : string;
  si_OperatingSystem : string;
  si_OSImage : string;
  si_ContainerRuntimeVersion : string;
  si_KernelVersion : string;
  si_KubeletVersion : string;
  si_KubeProxyVersion : string
}.
Record Node {Qty : Type} : Type := {
  n_Meta : ObjectMeta;
  n_CreationTimestamp : Z;
  n_Capacity : ResourceList Qty;
  n_Allocatable : ResourceList Qty;
  n_Conditions : list NodeCondition;
  n_Taints : list Taint;
  n_Unschedulable : bool;
  n_Addresses : list NodeAddress;
  n_ProviderID : string;
  n_NodeInfo : NodeSystemInfo
}.
Arguments Node : clear implicits.

(** The lists that the report needs besides pods, namespaces and custom resources; of
    three of them only the namespace of each object. *)
Class ClusterLists (W U Qty : Type) := {
  ServerVersion : W -> W * result string (string * string);
  GetAllTopControllersWithPods : W -> W * result string (list (Workload U Qty));
  ListNodes : W -> W * result string (list (Node Qty));
  ListIngresses : W -> W * result string (list APIIngress);
  ListServices : W -> W * result string (list APIService);
  ListClaims : W -> W * result string (list (APIClaim Qty));
  ListResourceQuotas : W -> W * result string (list string);
  ListLimitRanges : W -> W * result string (list string);
  ListNetworkPolicies : W -> W * result string (list string);
  Now : W -> Z
}.

(** ** Data of the report *)

Definition KindIngress : string := "Ingress".
Definition KindService : string := "Service".
Definition KindPersistentVolumeClaim : string := "PersistentVolumeClaim".
Definition networkingIngressAPIVersion : string := "networking.k8s.io/v1".
Definition coreAPIVersion : string := "v1".

Record VolumeClaimRef : Type := { vc_Name : string; vc_ClaimName : string }.

Record IngressBackendSummary : Type := {
  bs_ServiceName : string; bs_ServicePort : string; bs_API : string; bs_Kind : string; bs_Name : string
}.
Record IngressPathSummary : Type := { ps_Path : string; ps_PathType : string; ps_Backend : IngressBackendSummary }.
Record IngressRuleSummary : Type := { rs_Host : string; rs_Paths : list IngressPathSummary }.
Record IngressTLSSummary : Type := { ts_Hosts : list string; ts_SecretName : string }.
Record IngressLoadBalancerEntry : Type := { le_IP : string; le_Hostname : string }.
Record Ingress : Type := {
  ig_Kind : string;
  ig_Name : string;
  ig_Namespace : string;
  ig_Annotations : strmap;
  ig_Labels : strmap;
  ig_UID : string;
  ig_APIVersion : string;
  ig_IngressClassName : option string;
  ig_Rules : option (list IngressRuleSummary);
  ig_TLS : option (list IngressTLSSummary);
  ig_DefaultBackend : option IngressBackendSummary;
  ig_LoadBalancer : option (list IngressLoadBalancerEntry)
}.
Record ServicePortSummary : Type := {
  su_Name : string; su_Protocol : string; su_Port : Z; su_TargetPort : string; su_NodePort : Z
}.
Record Service : Type := {
  sv_Kind : string;
  sv_Name : string;
  sv_Namespace : string;
  sv_Annotations : strmap;
  sv_Labels : strmap;
  sv_UID : string;
  sv_APIVersion : string;
  sv_Type : string;
  sv_ClusterIP : string;
  sv_ClusterIPs : list string;
  sv_ExternalName : string;
  sv_ExternalIPs : list string;
  sv_Selector : strmap;
  sv_Ports : option (list ServicePortSummary);
  sv_LoadBalancer : option (list IngressLoadBalancerEntry)
}.
Record PersistentVolumeClaim : Type := {
  pv_Kind : string;
  pv_Name : string;
  pv_Namespace : string;
  pv_Annotations : strmap;
  pv_Labels : strmap;
  pv_UID : string;
  pv_APIVersion : string;
  pv_StorageClassName : option string;
  pv_AccessModes : option (list string);
  pv_VolumeMode : string;
  pv_VolumeName : string;
  pv_RequestStorage : string;
  pv_CapacityStorage : string;
  pv_Phase : string
}.
Record ResourceResult : Type := {
  rr_Requests : ResourcesInfo;
  rr_Limits : ResourcesInfo;
  GPURequests : strmap;
  GPULimits : strmap;
  SpecAppliedConvergedCount : Z;
  SpecAppliedSkewPods : option (list SpecAppliedSkewPod)
}.
Record ContainerResult : Type := {
  cr_Name : string; cr_Image : string; cr_ImageID : string; cr_CreationTime : Z; cr_Resource : ResourceResult
}.
Record NodeConditionSummary : Type := {
  cs_Type : string; cs_Status : string; cs_Reason : string; cs_Message : string; cs_LastTransitionTime : Z
}.
Record NodeTaintSummary : Type := { ns_Key : string; ns_Value : string; ns_Effect : string }.
Record NodeAddressSummary : Type := { as_AddressType : string; as_Address : string }.
Record NodeInfoSummary : Type := {
  Architecture : string;
  OperatingSystem : string;
  OSImage : string;
  ContainerRuntimeVersion : string;
  KernelVersion : string;
  KubeletVersion : string
}.
Record NamespaceCounts : Type := {
  co_Name : string;
  ResourceQuotaCount : Z;
  LimitRangeCount : Z;
  NetworkPolicyCount : Z;
  PodCount : Z;
  ServiceCount : Z;
  IngressCount : Z
}.

Section report_data.
Context {Qty : Type} `{F64 : !Float64}.

Record ControllerResult : Type := {
  ct_Kind : string;
  ct_Name : string;
  ct_Namespace : string;
  ct_Annotations : strmap;
  ct_Labels : strmap;
  ct_PodLabels : strmap;
  ct_PodAnnotations : strmap;
  ct_UID : string;
  ct_ParentUID : string;
  ct_PodCount : float;
  ct_Containers : list ContainerResult;
  ct_VolumeClaims : option (list VolumeClaimRef);
  ct_NodeNames : option (list string)
}.
Record NodeSummary : Type := {
  no_Name : string;
  no_UID : string;
  no_Labels : strmap;
  no_Annotations : strmap;
  no_CreationTimestamp : Z;
  no_Capacity : ResourceList Qty;
  no_Allocatable : ResourceList Qty;
  no_AllocatedLimits : gmap string Qty;
  no_AllocatedRequests : gmap string Qty;
  no_Utilization : NodeUtilization;
  no_KubeletVersion : string;
  no_KubeProxyVersion : string;
  no_IsControlPlaneNode : bool;
  no_Conditions : option (list NodeConditionSummary);
  no_Taints : option (list NodeTaintSummary);
  no_Unschedulable : bool;
  no_Addresses : option (list NodeAddressSummary);
  no_ProviderID : string;
  no_NodeInfo : NodeInfoSummary
}.
Record ClusterWorkloadReport {NS : Type} : Type := {
  rp_ServerVersion : string;
  rp_CreationTime : Z;
  rp_SourceName : string;
  rp_SourceType : string;
  rp_Nodes : list NodeSummary;
  rp_Namespaces : list NS;
  rp_NamespaceCounts : list NamespaceCounts;
  rp_Controllers : list ControllerResult;
  rp_Ingresses : list Ingress;
  rp_Services : list Service;
  rp_PersistentVolumeClaims : list PersistentVolumeClaim;
  rp_Images : list ImageResult;
  rp_Karpenter : option Karpenter;
  rp_GatewayAPI : option GatewayAPI
}.
End report_data.

(** ** Controllers *)

Definition getOwnerUID (ownerReferences : list OwnerReference) : string := from_ptr "" or_UID (head ownerReferences).

Definition volume_step (acc : gset string * list VolumeClaimRef) (v : Volume) : gset string * list VolumeClaimRef :=
  match vol_ClaimName v with
  | None => acc
  | Some claimName =>
      if decide (claimName = "") then acc
      else
        let key := vol_Name v +:+ "/" +:+ claimName in
        if decide (key ∈ acc.1) then acc
        else ({[key]} ∪ acc.1, acc.2 ++ [{| vc_Name := vol_Name v; vc_ClaimName := claimName |}])
  end.

Definition formatVolumeClaimsFromVolumes (volumes : list Volume) : option (list VolumeClaimRef) :=
  nil_if_none (foldl volume_step (∅, []) volumes).2.

Section controllers.
Context {U Qty : Type} `{QQ : !Quantity Qty} `{QS : !QuantitySums Qty} `{RO : !RangeOrder string Qty} `{RU : !RangeOrder string unit}.
Context `{GS : !GoSort} `{F64 : !Float64} `{PO : !PodObjects U Qty}.

Definition formatControllers (kind name namespace uid : string) (ownerReferences : list OwnerReference)
    (containers : list ContainerResult) (annotations labels podLabels podAnnotations : strmap) : ControllerResult :=
  {| ct_Kind := kind; ct_Name := name; ct_Namespace := namespace; ct_Annotations := annotations; ct_Labels := labels;
     ct_PodLabels := podLabels; ct_PodAnnotations := podAnnotations; ct_UID := uid; ct_ParentUID := getOwnerUID ownerReferences;
     ct_PodCount := of_int (if decide (kind = "Pod") then 1 else 0); ct_Containers := containers; ct_VolumeClaims := None;
     ct_NodeNames := None |}.

(** The volumes of the template and of the live pods. *)
Definition collectControllerVolumeClaims (podSpec : option (PodSpec Qty)) (pods : list U) : option (list VolumeClaimRef) :=
  formatVolumeClaimsFromVolumes
    (from_ptr [] Volumes podSpec
     ++ mjoin ((fun u => match GetPodMetadataAndSpec u with
                         | Ok (Some spec) => Volumes spec
                         | _ => []
                         end) <$> pods)).

Definition node_name_step (acc : gset string * list string) (u : U) : gset string * list string :=
  match FromUnstructured u with
  | Err _ => acc
  | Ok pod =>
      let name := NodeName (p_Spec pod) in
      if decide (p_Phase pod <> PodRunning) then acc
      else if decide (name = "") then acc
      else if decide (name ∈ acc.1) then acc
      else ({[name]} ∪ acc.1, acc.2 ++ [name])
  end.

Definition collectControllerNodeNames (pods : list U) : option (list string) :=
  match (foldl node_name_step (∅, []) pods).2 with
  | [] => None
  | out => Some (sort_strings out)
  end.

(** A request that is not set is shown as the limit. *)
Definition resourcesFromContainerSpec (c : Container Qty) : ResourceResult :=
  let requests := Requests (c_Resources c) in
  let limits := Limits (c_Resources c) in
  let shown (q : ResourceList Qty -> Qty) :=
    if q_IsZero (q requests) && negb (q_IsZero (q limits)) then q_String (q limits) else q_String (q requests) in
  let gpu := extendedGPUMapsFromResourceRequirements (Some (c_Resources c)) in
  {| rr_Requests := {| ri_Memory := shown Memory; ri_CPU := shown Cpu |};
     rr_Limits := {| ri_Memory := q_String (Memory limits); ri_CPU := q_String (Cpu limits) |};
     GPURequests := gpu.1; GPULimits := gpu.2; SpecAppliedConvergedCount := 0; SpecAppliedSkewPods := None |}.

Definition formatContainer (c : Container Qty) (imageID : string) (time : Z) (specApplied : SpecAppliedStats) : ContainerResult :=
  let r := resourcesFromContainerSpec c in
  {| cr_Name := c_Name c; cr_Image := c_Image c; cr_ImageID := imageID; cr_CreationTime := time;
     cr_Resource := {| rr_Requests := rr_Requests r; rr_Limits := rr_Limits r; GPURequests := GPURequests r;
                       GPULimits := GPULimits r; SpecAppliedConvergedCount := ConvergedCount specApplied;
                       SpecAppliedSkewPods := nil_if_none (SkewPods specApplied) |} |}.

(** The entry of one workload. *)
Definition controller_result (workload : Workload U Qty) : ControllerResult :=
  let top := TopController workload in
  let containers : list ContainerResult :=
    match w_PodSpec workload with
    | Some spec => (fun ctn => formatContainer ctn "" (to_CreationTimestamp top)
                                 (computeSpecAppliedStats (c_Name ctn) (Some (c_Resources ctn)) (w_Pods workload))) <$> Containers spec
    | None => []
    end in
  let c := formatControllers (to_Kind top) (to_Name top) (to_Namespace top) (to_UID top) (to_OwnerReferences top) containers
             (to_Annotations top) (to_Labels top) (from_ptr None fst (w_PodMetadata workload))
             (from_ptr None snd (w_PodMetadata workload)) in
  {| ct_Kind := ct_Kind c; ct_Name := ct_Name c; ct_Namespace := ct_Namespace c; ct_Annotations := ct_Annotations c;
     ct_Labels := ct_Labels c; ct_PodLabels := ct_PodLabels c; ct_PodAnnotations := ct_PodAnnotations c; ct_UID := ct_UID c;
     ct_ParentUID := ct_ParentUID c; ct_PodCount := of_int (RunningPodCount workload); ct_Containers := ct_Containers c;
     ct_VolumeClaims := collectControllerVolumeClaims (w_PodSpec workload) (w_Pods workload);
     ct_NodeNames := collectControllerNodeNames (w_Pods workload) |}.
End controllers.

(** ** Nodes, ingresses, services and claims *)

Definition formatNodeConditions (conditions : list NodeCondition) : option (list NodeConditionSummary) :=
  nil_if_none ((fun c => {| cs_Type := nd_Type c; cs_Status := nd_Status c; cs_Reason := nd_Reason c; cs_Message := nd_Message c;
                            cs_LastTransitionTime := nd_LastTransitionTime c |}) <$> conditions).

Definition formatNodeTaints (taints : list Taint) : option (list NodeTaintSummary) :=
  nil_if_none ((fun t => {| ns_Key := tt_Key t; ns_Value := tt_Value t; ns_Effect := tt_Effect t |}) <$> taints).

Definition formatNodeAddresses (addresses : list NodeAddress) : option (list NodeAddressSummary) :=
  nil_if_none ((fun a => {| as_AddressType := na_Type a; as_Address := na_Address a |}) <$> addresses).

Definition formatNodeInfo (info : NodeSystemInfo) : NodeInfoSummary :=
  {| Architecture := si_Architecture info; OperatingSystem := si_OperatingSystem info; OSImage := si_OSImage info;
     ContainerRuntimeVersion := si_ContainerRuntimeVersion info; KernelVersion := si_KernelVersion info;
     KubeletVersion := si_KubeletVersion info |}.

Definition serviceBackendPortString (port : ServiceBackendPort) : string :=
  if decide (sbp_Name port <> "") then sbp_Name port
  else if negb (sbp_Number port =? 0) then fmt_d (sbp_Number port) else "".

Definition formatIngressBackend (backend : option IngressBackend) : option IngressBackendSummary :=
  match backend with
  | None => None
  | Some b =>
      Some {| bs_ServiceName := from_ptr "" isb_Name (ib_Service b);
              bs_ServicePort := from_ptr "" (fun s => serviceBackendPortString (isb_Port s)) (ib_Service b);
              bs_API := from_ptr "" (fun r => default "" (tr_APIGroup r)) (ib_Resource b);
              bs_Kind := from_ptr "" tr_Kind (ib_Resource b);
              bs_Name := from_ptr "" tr_Name (ib_Resource b) |}
  end.

Definition no_backend : IngressBackendSummary :=
  {| bs_ServiceName := ""; bs_ServicePort := ""; bs_API := ""; bs_Kind := ""; bs_Name := "" |}.

Definition formatIngressRules (rules : list IngressRule) : option (list IngressRuleSummary) :=
  nil_if_none ((fun rule =>
    {| rs_Host := ir_Host rule;
       rs_Paths := (fun p => {| ps_Path := hp_Path p; ps_PathType := default "" (hp_PathType p);
                                ps_Backend := default no_backend (formatIngressBackend (Some (hp_Backend p))) |})
                   <$> default [] (ir_HTTP rule) |}) <$> rules).

Definition formatIngressTLS (tls : list IngressTLS) : option (list IngressTLSSummary) :=
  nil_if_none ((fun t => {| ts_Hosts := it_Hosts t; ts_SecretName := it_SecretName t |}) <$> tls).

Definition load_balancer_entries (status : list LoadBalancerIngress) : option (list IngressLoadBalancerEntry) :=
  nil_if_none ((fun lb => {| le_IP := lb_IP lb; le_Hostname := lb_Hostname lb |}) <$> status).

Definition formatIngressLoadBalancer (status : list LoadBalancerIngress) : option (list IngressLoadBalancerEntry) :=
  load_balancer_entries status.

Definition resolveIngressAPIVersion (item : APIIngress) : string :=
  if decide (ai_APIVersion item <> "") then ai_APIVersion item else networkingIngressAPIVersion.

Definition formatIngress (item : APIIngress) : Ingress :=
  let m := ai_Meta item in
  {| ig_Kind := KindIngress; ig_Name := om_Name m; ig_Namespace := om_Namespace m; ig_Annotations := om_Annotations m;
     ig_Labels := om_Labels m; ig_UID := om_UID m; ig_APIVersion := resolveIngressAPIVersion item;
     ig_IngressClassName := ai_IngressClassName item; ig_Rules := formatIngressRules (ai_Rules item);
     ig_TLS := formatIngressTLS (ai_TLS item); ig_DefaultBackend := formatIngressBackend (ai_DefaultBackend item);
     ig_LoadBalancer := formatIngressLoadBalancer (ai_LoadBalancer item) |}.

Definition resolveCoreAPIVersion (apiVersion : string) : string := if decide (apiVersion <> "") then apiVersion else coreAPIVersion.

Definition intOrStringString (value : IntOrString) : string :=
  match value with
  | IsString s => s
  | IsInt z => if z =? 0 then "" else fmt_d z
  end.

Definition formatServicePorts (ports : list ServicePort) : option (list ServicePortSummary) :=
  nil_if_none ((fun p => {| su_Name := sp_Name p; su_Protocol := sp_Protocol p; su_Port := sp_Port p;
                            su_TargetPort := intOrStringString (sp_TargetPort p); su_NodePort := sp_NodePort p |}) <$> ports).

Definition formatServiceLoadBalancer (status : list LoadBalancerIngress) : option (list IngressLoadBalancerEntry) :=
  load_balancer_entries status.

Definition formatService (item : APIService) : Service :=
  let m := as_Meta item in
  {| sv_Kind := KindService; sv_Name := om_Name m; sv_Namespace := om_Namespace m; sv_Annotations := om_Annotations m;
     sv_Labels := om_Labels m; sv_UID := om_UID m; sv_APIVersion := resolveCoreAPIVersion (as_APIVersion item);
     sv_Type := as_Type item; sv_ClusterIP := as_ClusterIP item; sv_ClusterIPs := as_ClusterIPs item;
     sv_ExternalName := as_ExternalName item; sv_ExternalIPs := as_ExternalIPs item; sv_Selector := as_Selector item;
     sv_Ports := formatServicePorts (as_Ports item); sv_LoadBalancer := formatServiceLoadBalancer (as_LoadBalancer item) |}.

Definition formatAccessModes (modes : list string) : option (list string) := nil_if_none modes.

Definition checkIfNodeIsControlPlane (labels : strmap) : bool :=
  bool_decide (is_Some (map_get labels "node-role.kubernetes.io/control-plane"))
  || bool_decide (is_Some (map_get labels "node-role.kubernetes.io/master")).

(** *** Counts per namespace *)

Definition no_counts (name : string) : NamespaceCounts :=
  {| co_Name := name; ResourceQuotaCount := 0; LimitRangeCount := 0; NetworkPolicyCount := 0; PodCount := 0; ServiceCount := 0;
     IngressCount := 0 |}.

Definition count_pod (c : NamespaceCounts) : NamespaceCounts :=
  {| co_Name := co_Name c; ResourceQuotaCount := ResourceQuotaCount c; LimitRangeCount := LimitRangeCount c;
     NetworkPolicyCount := NetworkPolicyCount c; PodCount := PodCount c + 1; ServiceCount := ServiceCount c;
     IngressCount := IngressCount c |}.
Definition count_service (c : NamespaceCounts) : NamespaceCounts :=
  {| co_Name := co_Name c; ResourceQuotaCount := ResourceQuotaCount c; LimitRangeCount := LimitRangeCount c;
     NetworkPolicyCount := NetworkPolicyCount c; PodCount := PodCount c; ServiceCount := ServiceCount c + 1;
     IngressCount := IngressCount c |}.
Definition count_ingress (c : NamespaceCounts) : NamespaceCounts :=
  {| co_Name := co_Name c; ResourceQuotaCount := ResourceQuotaCount c; LimitRangeCount := LimitRangeCount c;
     NetworkPolicyCount := NetworkPolicyCount c; PodCount := PodCount c; ServiceCount := ServiceCount c;
     IngressCount := IngressCount c + 1 |}.
Definition count_quota (c : NamespaceCounts) : NamespaceCounts :=
  {| co_Name := co_Name c; ResourceQuotaCount := ResourceQuotaCount c + 1; LimitRangeCount := LimitRangeCount c;
     NetworkPolicyCount := NetworkPolicyCount c; PodCount := PodCount c; ServiceCount := ServiceCount c;
     IngressCount := IngressCount c |}.
Definition count_limit_range (c : NamespaceCounts) : NamespaceCounts :=
  {| co_Name := co_Name c; ResourceQuotaCount := ResourceQuotaCount c; LimitRangeCount := LimitRangeCount c + 1;
     NetworkPolicyCount := NetworkPolicyCount c; PodCount := PodCount c; ServiceCount := ServiceCount c;
     IngressCount := IngressCount c |}.
Definition count_network_policy (c : NamespaceCounts) : NamespaceCounts :=
  {| co_Name := co_Name c; ResourceQuotaCount := ResourceQuotaCount c; LimitRangeCount := LimitRangeCount c;
     NetworkPolicyCount := NetworkPolicyCount c + 1; PodCount := PodCount c; ServiceCount := ServiceCount c;
     IngressCount := IngressCount c |}.

(** An object of a namespace that is not listed is not counted. *)
Definition count_in (f : NamespaceCounts -> NamespaceCounts) (countsByNS : gmap string NamespaceCounts) (namespace : string)
    : gmap string NamespaceCounts := alter f namespace countsByNS.

Definition count_all (f : NamespaceCounts -> NamespaceCounts) (namespaces : list string) (countsByNS : gmap string NamespaceCounts)
    : gmap string NamespaceCounts := foldl (count_in f) countsByNS namespaces.

(** A list that fails counts nothing. *)
Definition count_listed (f : NamespaceCounts -> NamespaceCounts) (listed : result string (list string))
    (countsByNS : gmap string NamespaceCounts) : gmap string NamespaceCounts :=
  match listed with
  | Ok namespaces => count_all f namespaces countsByNS
  | Err _ => countsByNS
  end.

Section report.
Context {W U Qty : Type} `{QQ : !Quantity Qty} `{QS : !QuantitySums Qty} `{RO : !RangeOrder string Qty} `{RU : !RangeOrder string unit}.
Context `{GS : !GoSort} `{F64 : !Float64} `{PO : !PodObjects U Qty} `{PL : !PodLists W Qty} `{CL : !ClusterLists W U Qty}.
Context `{DL : !DynamicLists W} `{FT : !FloatTexts} `{NF : !NestedFields} `{RV : !RangeOrder string value}.
Context `{R1 : !RangeOrder string OwnerResult} `{R2 : !RangeOrder string ImageResult}.

Definition storage (rl : ResourceList Qty) : string :=
  match map_get rl "storage" with
  | Some qty => q_String qty
  | None => ""
  end.

Definition formatPersistentVolumeClaim (item : APIClaim Qty) : PersistentVolumeClaim :=
  let m := ac_Meta item in
  {| pv_Kind := KindPersistentVolumeClaim; pv_Name := om_Name m; pv_Namespace := om_Namespace m;
     pv_Annotations := om_Annotations m; pv_Labels := om_Labels m; pv_UID := om_UID m;
     pv_APIVersion := resolveCoreAPIVersion (ac_APIVersion item); pv_StorageClassName := ac_StorageClassName item;
     pv_AccessModes := formatAccessModes (ac_AccessModes item); pv_VolumeMode := default "" (ac_VolumeMode item);
     pv_VolumeName := ac_VolumeName item; pv_RequestStorage := storage (ac_Requests item);
     pv_CapacityStorage := storage (ac_Capacity item); pv_Phase := ac_Phase item |}.

(** The claims are ranged over by value; the counters are found by name. *)
Definition collectNamespaceCounts (namespaces : list (Namespace (W := W) (Qty := Qty))) (pods : list (Pod Qty)) (services : list Service)
    (ingresses : list Ingress) : io W (list NamespaceCounts) :=
  let c := foldl (fun m ns => <[ns_Name ns := no_counts (ns_Name ns)]> m) (∅ : gmap string NamespaceCounts) namespaces in
  let c := count_all count_pod (p_Namespace <$> pods) c in
  let c := count_all count_service (sv_Namespace <$> services) c in
  let c := count_all count_ingress (ig_Namespace <$> ingresses) c in
  resourceQuotas ← effect (ListResourceQuotas (U := U) (Qty := Qty));
  limitRanges ← effect (ListLimitRanges (U := U) (Qty := Qty));
  networkPolicies ← effect (ListNetworkPolicies (U := U) (Qty := Qty));
  let c := count_listed count_quota resourceQuotas c in
  let c := count_listed count_limit_range limitRanges c in
  let c := count_listed count_network_policy networkPolicies c in
  pure_go (foldr (fun ns rest => n ← deref (c !! ns_Name ns); l ← rest; mret (n :: l)) (mret []) namespaces).

Definition node_summary (item : Node Qty) (allocated : NodeAllocatedResources Qty) (utilization : NodeUtilization)
    : NodeSummary (Qty := Qty) :=
  {| no_Name := om_Name (n_Meta item); no_UID := om_UID (n_Meta item); no_Labels := om_Labels (n_Meta item);
     no_Annotations := om_Annotations (n_Meta item); no_CreationTimestamp := n_CreationTimestamp item;
     no_Capacity := n_Capacity item; no_Allocatable := n_Allocatable item; no_AllocatedLimits := na_Limits allocated;
     no_AllocatedRequests := na_Requests allocated; no_Utilization := utilization;
     no_KubeletVersion := si_KubeletVersion (n_NodeInfo item); no_KubeProxyVersion := si_KubeProxyVersion (n_NodeInfo item);
     no_IsControlPlaneNode := checkIfNodeIsControlPlane (om_Labels (n_Meta item));
     no_Conditions := formatNodeConditions (n_Conditions item); no_Taints := formatNodeTaints (n_Taints item);
     no_Unschedulable := n_Unschedulable item; no_Addresses := formatNodeAddresses (n_Addresses item);
     no_ProviderID := n_ProviderID item; no_NodeInfo := formatNodeInfo (n_NodeInfo item) |}.

Fixpoint node_summaries (nodes : list (Node Qty)) (pods : list (Pod Qty)) : result string (list (NodeSummary (Qty := Qty))) :=
  match nodes with
  | [] => Ok []
  | item :: nodes' =>
      match getNodeAllocatedResources (n_Capacity item) (podsScheduledOnNode pods (om_Name (n_Meta item))) with
      | Err e => Err ("error fetching node allocation: " +:+ e)
      | Ok (allocated, utilization) =>
          rest ← node_summaries nodes' pods;
          mret (node_summary item allocated utilization :: rest)
      end
  end.

(** A list that the report cannot do without. *)
Definition required {A B} (message : string) (list_it : W -> W * result string A) (k : A -> io W (option (result string B)))
    : io W (option (result string B)) :=
  r ← effect list_it;
  match r with
  | Err e => mret (Some (Err (message +:+ ": " +:+ e)))
  | Ok a => k a
  end.

Definition report : Type := ClusterWorkloadReport (Qty := Qty) (NS := Namespace (W := W) (Qty := Qty)).

(** [None] is a run out of fuel in an inventory. *)
Definition CreateResourceProviderFromAPI (fuel : nat) (clusterName : string) : io W (option (result string report)) :=
  required "error fetching Cluster API version" (ServerVersion (U := U) (Qty := Qty)) (fun serverVersion =>
  required "error while getting all TopControllers" GetAllTopControllersWithPods (fun workloads : list (Workload U Qty) =>
  let interfaces := controller_result <$> workloads in
  required "error fetching Nodes" (ListNodes (U := U)) (fun nodes =>
  required "error fetching Pods" (ListPods "" "" "") (fun allPods =>
  match node_summaries nodes allPods with
  | Err e => mret (Some (Err e))
  | Ok nodesSummaries =>
      required "error fetching Namespaces" ListNamespaces (fun namespaces =>
      required "error fetching ingresses" (ListIngresses (U := U) (Qty := Qty)) (fun ingressList =>
      let ingresses := formatIngress <$> ingressList in
      required "error fetching services" (ListServices (U := U) (Qty := Qty)) (fun serviceList =>
      let services := formatService <$> serviceList in
      required "error fetching persistentvolumeclaims" (ListClaims (U := U)) (fun pvcList =>
      let pvcs := formatPersistentVolumeClaim <$> pvcList in
      namespaceCounts ← collectNamespaceCounts namespaces allPods services ingresses;
      imageDiscovery ← ListImages true workloads;
      let images := match imageDiscovery with Ok images => images | Err _ => [] end in
      karpenter ← listKarpenterInventory fuel;
      match karpenter with
      | None => mret None
      | Some karpenter =>
          gatewayAPI ← listGatewayAPIInventory fuel;
          match gatewayAPI with
          | None => mret None
          | Some gatewayAPI =>
              now ← asks (Now (U := U) (Qty := Qty));
              mret (Some (Ok {| rp_ServerVersion := serverVersion.1 +:+ "." +:+ serverVersion.2; rp_CreationTime := now;
                                rp_SourceName := clusterName; rp_SourceType := "Cluster"; rp_Nodes := nodesSummaries;
                                rp_Namespaces := namespaces; rp_NamespaceCounts := namespaceCounts;
                                rp_Controllers := interfaces; rp_Ingresses := ingresses; rp_Services := services;
                                rp_PersistentVolumeClaims := pvcs; rp_Images := images; rp_Karpenter := karpenter;
                                rp_GatewayAPI := gatewayAPI |}))
          end
      end))))
  end)))).

(** *** The program *)

Definition tempFile : string := "/output/workloads-temp.json".

Context `{FS : !Files W} (Rename : string -> string -> W -> W * option string) (MarshalIndent : report -> result string string).

(** An error is fatal; without an output file nothing is written. *)
Definition main (fuel : nat) (auditOutputFile clusterName : string) : io W (option (result string unit)) :=
  resources ← CreateResourceProviderFromAPI fuel clusterName;
  match resources with
  | None => mret None
  | Some (Err e) => mret (Some (Err ("error fetching Kubernetes resources: " +:+ e)))
  | Some (Ok resources) =>
      match MarshalIndent resources with
      | Err e => mret (Some (Err ("error marshalling audit: " +:+ e)))
      | Ok outputBytes =>
          if decide (auditOutputFile = "") then mret (Some (Ok tt))
          else
            err ← effect (WriteFile tempFile outputBytes);
            match err with
            | Some e => mret (Some (Err ("error writing output to file: " +:+ e)))
            | None =>
                err ← effect (Rename tempFile auditOutputFile);
                mret (Some (match err with Some e => Err ("error renaming output file: " +:+ e) | None => Ok tt end))
            end
      end
  end.
End report.

(** ** Claims and nodes of a controller *)

Definition volume_key (v : string * string) : string := v.1 +:+ "/" +:+ v.2.
Definition ref_key (r : VolumeClaimRef) : string := volume_key (vc_Name r, vc_ClaimName r).

(** What the loop over the volumes keeps: the keys of what is listed, each once, and the
    claims of the volumes gone through. *)
Definition claims_inv (volumes : list Volume) (acc : gset string * list VolumeClaimRef) : Prop :=
  (forall k, k ∈ acc.1 <-> k ∈ ref_key <$> acc.2) /\ NoDup (ref_key <$> acc.2)
  /\ (forall r, r ∈ acc.2 -> exists v, v ∈ volumes /\ vol_Name v = vc_Name r /\ vol_ClaimName v = Some (vc_ClaimName r)
                                       /\ vc_ClaimName r <> "")
  /\ (forall v c, v ∈ volumes -> vol_ClaimName v = Some c -> c <> "" -> volume_key (vol_Name v, c) ∈ acc.1).

Lemma volume_loop volumes : claims_inv volumes (foldl volume_step (∅, []) volumes).
Proof.
  induction volumes as [|v l IH] using rev_ind.
  - split_and!; [by intros k; simpl; rewrite elem_of_empty, elem_of_nil|constructor|by intros r ?%elem_of_nil|by intros v c ?%elem_of_nil].
  - rewrite foldl_app. simpl. destruct IH as (Hk & Hnd & Hs & Hc). set (acc := foldl volume_step (∅, []) l) in *.
    assert (Hkeep : claims_inv (l ++ [v]) acc <->
      forall c, vol_ClaimName v = Some c -> c <> "" -> volume_key (vol_Name v, c) ∈ acc.1).
    { split; [intros (_ & _ & _ & H) c; apply H, elem_of_app; right; by left|]. intros H. split_and!; [done|done|..].
      - intros r (v' & ? & ?)%Hs. exists v'. split; [apply elem_of_app; by left|done].
      - intros v' c [?| ->%list_elem_of_singleton]%elem_of_app; [by apply Hc|apply H]. }
    unfold volume_step at 1. destruct (vol_ClaimName v) as [c|] eqn:Ev; [|by apply Hkeep].
    case_decide as Hempty; [apply Hkeep; intros c' [= <-] ?; done|]. case_decide as Hin; [apply Hkeep; by intros c' [= <-]|].
    change (vol_Name v +:+ "/" +:+ c) with (volume_key (vol_Name v, c)) in *. split_and!; simpl.
    + intros k. rewrite elem_of_union, elem_of_singleton, fmap_app, elem_of_app, Hk. simpl. rewrite list_elem_of_singleton. tauto.
    + rewrite fmap_app. apply NoDup_app. split; [done|]. split; [|apply NoDup_singleton].
      intros k Hk1 ->%list_elem_of_singleton. by apply Hin, Hk.
    + intros r [Hr| ->%list_elem_of_singleton]%elem_of_app.
      * destruct (Hs r Hr) as (v' & ? & ?). exists v'. split; [apply elem_of_app; by left|done].
      * exists v. split; [apply elem_of_app; right; by left|done].
    + intros v' c' [Hv| ->%list_elem_of_singleton]%elem_of_app Hc' Hne; apply elem_of_union.
      * right. by apply Hc.
      * left. rewrite Ev in Hc'. injection Hc' as <-. by apply elem_of_singleton.
Qed.

(** The claims are those of the volumes, each pair of names once; without any the field is left out. *)
Lemma volume_claims_exact volumes :
  let refs := default [] (formatVolumeClaimsFromVolumes volumes) in
  NoDup (ref_key <$> refs)
  /\ (forall r, r ∈ refs -> exists v, v ∈ volumes /\ vol_Name v = vc_Name r /\ vol_ClaimName v = Some (vc_ClaimName r))
  /\ (forall v c, v ∈ volumes -> vol_ClaimName v = Some c -> c <> "" -> volume_key (vol_Name v, c) ∈ ref_key <$> refs)
  /\ formatVolumeClaimsFromVolumes volumes <> Some [].
Proof.
  intros refs. destruct (volume_loop volumes) as (Hk & Hnd & Hs & Hc).
  assert (refs = (foldl volume_step (∅, []) volumes).2) as -> by (unfold refs, formatVolumeClaimsFromVolumes; by destruct (_.2)).
  split_and!; [done| |intros; by apply Hk, Hc|by unfold formatVolumeClaimsFromVolumes; destruct (_.2)].
  intros r (v & ? & ? & ? & _)%Hs. by exists v.
Qed.

Section node_names.
Context {U Qty : Type} `{GS : !GoSort} `{PO : !PodObjects U Qty}.

Definition runs_on (name : string) (u : U) : Prop :=
  exists pod, FromUnstructured u = Ok pod /\ p_Phase pod = PodRunning /\ NodeName (p_Spec pod) = name /\ name <> "".

Lemma node_name_loop (us : list U) :
  let acc := foldl node_name_step (∅, []) us in
  (forall n, n ∈ acc.1 <-> n ∈ acc.2) /\ NoDup acc.2 /\ (forall n, n ∈ acc.2 <-> exists u, u ∈ us /\ runs_on n u).
Proof.
  induction us as [|u us IH] using rev_ind.
  - split_and!; [by intros n; simpl; rewrite elem_of_empty, elem_of_nil|constructor|].
    intros n. simpl. rewrite elem_of_nil. split; [done|]. by intros (u & ?%elem_of_nil & _).
  - rewrite foldl_app. cbn [foldl]. cbv zeta in *. set (acc := foldl node_name_step (∅, []) us) in *. destruct IH as (Hk & Hnd & Hs).
    assert (Hkeep : (forall n, runs_on n u -> n ∈ acc.2) ->
      (forall n, n ∈ acc.1 <-> n ∈ acc.2) /\ NoDup acc.2 /\ (forall n, n ∈ acc.2 <-> exists u', u' ∈ us ++ [u] /\ runs_on n u')).
    { intros H. split_and!; [done..|]. intros n. rewrite Hs. split.
      - intros (u' & ? & ?). exists u'. split; [apply elem_of_app; by left|done].
      - intros (u' & [?| ->%list_elem_of_singleton]%elem_of_app & Hr); [by exists u'|]. by apply Hs, H. }
    clearbody acc. unfold node_name_step. unfold runs_on in Hkeep.
    destruct (FromUnstructured u) as [pod|] eqn:E; [|apply Hkeep; by intros n (pod & [= ?] & _)].
    case_decide as Hp; [apply Hkeep; by intros n (pod' & [= <-] & ? & _)|].
    case_decide as He; [apply Hkeep; intros n (pod' & [= <-] & _ & <- & ?); done|].
    case_decide as Hin; [apply Hkeep; intros n (pod' & [= <-] & _ & <- & _); by apply Hk|]. clear Hkeep. simpl. split_and!.
    + intros n. rewrite elem_of_union, elem_of_singleton, elem_of_app, list_elem_of_singleton, Hk. tauto.
    + apply NoDup_app. split; [done|]. split; [|apply NoDup_singleton]. intros n Hn ->%list_elem_of_singleton. by apply Hin, Hk.
    + intros n. rewrite elem_of_app, list_elem_of_singleton, Hs. split.
      * intros [(u' & ? & ?)| ->]; [exists u'; split; [apply elem_of_app; by left|done]|].
        exists u. split; [apply elem_of_app; right; by left|]. by exists pod.
      * intros (u' & [?| ->%list_elem_of_singleton]%elem_of_app & Hr); [left; by exists u'|].
        destruct Hr as (pod' & E' & _ & <- & _). rewrite E in E'. injection E' as <-. by right.
Qed.

(** The nodes are those that a running pod is on, each once and sorted. *)
Lemma node_names_exact (us : list U) :
  let names := default [] (collectControllerNodeNames us) in
  NoDup names /\ StronglySorted (not_after string_less) names /\ (forall n, n ∈ names <-> exists u, u ∈ us /\ runs_on n u).
Proof.
  destruct (node_name_loop us) as (_ & Hnd & Hs). unfold collectControllerNodeNames.
  destruct (foldl node_name_step (∅, []) us).2 as [|x l]; cbv zeta; simpl.
  - split_and!; [constructor|constructor|done].
  - split_and!.
    + unfold sort_strings. by rewrite sort_slice_perm.
    + apply sort_slice_sorted, string_less_strict_weak.
    + intros n. by rewrite elem_of_sort_strings.
Qed.
End node_names.

(** ** Counts per namespace *)

Definition occurrences (n : string) (l : list string) : Z := lenZ (List.filter (fun x => bool_decide (x = n)) l).
Definition listed_occurrences (n : string) (r : result string (list string)) : Z :=
  match r with
  | Ok l => occurrences n l
  | Err _ => 0
  end.

Fixpoint times {A} (k : nat) (f : A -> A) (a : A) : A := match k with O => a | S k' => times k' f (f a) end.

Lemma count_all_lookup f l m n :
  count_all f l m !! n = times (length (List.filter (fun x => bool_decide (x = n)) l)) f <$> m !! n.
Proof.
  unfold count_all. revert m. induction l as [|x l IH]; intros m; simpl; [by destruct (m !! n)|].
  rewrite IH. unfold count_in. case_bool_decide as E; simpl.
  - subst x. rewrite lookup_alter_eq. by destruct (m !! n).
  - by rewrite lookup_alter_ne.
Qed.

Lemma count_listed_lookup f r m n :
  count_listed f r m !! n
  = times (match r with Ok l => length (List.filter (fun x => bool_decide (x = n)) l) | Err _ => O end) f <$> m !! n.
Proof. destruct r as [l|e]; [apply count_all_lookup|]. simpl. by destruct (m !! n). Qed.

Lemma listed_occurrences_eq n r :
  listed_occurrences n r = Z.of_nat (match r with Ok l => length (List.filter (fun x => bool_decide (x = n)) l) | Err _ => O end).
Proof. by destruct r. Qed.

(** Each counter adds to its own field. *)
Definition add_counts (q l np p s i : Z) (c : NamespaceCounts) : NamespaceCounts :=
  {| co_Name := co_Name c; ResourceQuotaCount := ResourceQuotaCount c + q; LimitRangeCount := LimitRangeCount c + l;
     NetworkPolicyCount := NetworkPolicyCount c + np; PodCount := PodCount c + p; ServiceCount := ServiceCount c + s;
     IngressCount := IngressCount c + i |}.

Lemma times_add k f q l np p s i :
  (forall c, f c = add_counts q l np p s i c) ->
  forall c, times k f c = add_counts (Z.of_nat k * q) (Z.of_nat k * l) (Z.of_nat k * np) (Z.of_nat k * p) (Z.of_nat k * s) (Z.of_nat k * i) c.
Proof.
  intros Hf. induction k as [|k IH]; intros c; cbn [times].
  - destruct c. unfold add_counts. simpl. f_equal; lia.
  - rewrite IH, Hf. destruct c. unfold add_counts. simpl. f_equal; lia.
Qed.

Section counts.
Context {W U Qty : Type} `{PL : !PodLists W Qty} `{CL : !ClusterLists W U Qty}.

(** The counts that a namespace has. *)
Definition exact_counts (pods services ingresses : list string) (quotas limits policies : result string (list string)) (n : string)
    : NamespaceCounts :=
  {| co_Name := n; ResourceQuotaCount := listed_occurrences n quotas; LimitRangeCount := listed_occurrences n limits;
     NetworkPolicyCount := listed_occurrences n policies; PodCount := occurrences n pods;
     ServiceCount := occurrences n services; IngressCount := occurrences n ingresses |}.

Lemma foldl_names_lookup (namespaces : list (Namespace (W := W) (Qty := Qty))) n :
  n ∈ ns_Name <$> namespaces ->
  foldl (fun m ns => <[ns_Name ns := no_counts (ns_Name ns)]> m) (∅ : gmap string NamespaceCounts) namespaces !! n = Some (no_counts n).
Proof.
  induction namespaces as [|x l IH] using rev_ind; [by intros ?%elem_of_nil|].
  rewrite fmap_app, elem_of_app, foldl_app. simpl. rewrite list_elem_of_singleton. intros Hn.
  destruct (decide (ns_Name x = n)) as [<-|Hne]; [by rewrite lookup_insert_eq|].
  rewrite lookup_insert_ne by done. apply IH. destruct Hn as [|Hn]; [done|congruence].
Qed.

Lemma collectNamespaceCounts_runs (namespaces : list (Namespace (W := W) (Qty := Qty))) (pods : list (Pod Qty)) services ingresses
    (w w1 w2 w3 : W) quotas limits policies :
  ListResourceQuotas (U := U) (Qty := Qty) w = (w1, quotas) -> ListLimitRanges (U := U) (Qty := Qty) w1 = (w2, limits) ->
  ListNetworkPolicies (U := U) (Qty := Qty) w2 = (w3, policies) ->
  runs (collectNamespaceCounts (U := U) namespaces pods services ingresses) w w3
    ((fun ns => exact_counts (p_Namespace <$> pods) (sv_Namespace <$> services) (ig_Namespace <$> ingresses)
                  quotas limits policies (ns_Name ns)) <$> namespaces).
Proof.
  intros E1 E2 E3. unfold collectNamespaceCounts.
  set (c0 := foldl _ _ namespaces). set (c1 := count_all count_ingress _ _).
  apply runs_bind. exists w1, quotas. split; [by apply runs_effect|]. apply runs_bind. exists w2, limits. split; [by apply runs_effect|].
  apply runs_bind. exists w3, policies. split; [by apply runs_effect|]. apply runs_pure. split; [done|].
  set (c := count_listed count_network_policy _ _).
  assert (Hc : forall n, n ∈ ns_Name <$> namespaces -> c !! n =
    Some (exact_counts (p_Namespace <$> pods) (sv_Namespace <$> services) (ig_Namespace <$> ingresses) quotas limits policies n)).
  { intros n Hn. unfold c, c1. rewrite !count_listed_lookup, !count_all_lookup. unfold c0. rewrite foldl_names_lookup by done. simpl.
    rewrite (times_add _ count_pod 0 0 0 1 0 0), (times_add _ count_service 0 0 0 0 1 0), (times_add _ count_ingress 0 0 0 0 0 1),
      (times_add _ count_quota 1 0 0 0 0 0), (times_add _ count_limit_range 0 1 0 0 0 0), (times_add _ count_network_policy 0 0 1 0 0 0)
      by (intros []; cbv [add_counts count_pod count_service count_ingress count_quota count_limit_range count_network_policy];
          cbn; f_equal; lia).
    unfold exact_counts. rewrite (listed_occurrences_eq n quotas), (listed_occurrences_eq n limits), (listed_occurrences_eq n policies).
    unfold add_counts, no_counts, occurrences, lenZ. cbn. do 2 f_equal; lia. }
  clearbody c. clear -Hc. induction namespaces as [|ns l IH]; [done|]. cbn [foldr fmap list_fmap].
  rewrite (Hc (ns_Name ns)) by (by left). simpl.
  rewrite IH by (intros n Hn; apply Hc; by right). done.
Qed.

(** Every namespace of the list gets, in its place, the number of its pods, services and ingresses, and of its quotas,
    limit ranges and network policies; a list of these three that fails leaves 0 and fails nothing else; what is in a
    namespace that is not listed is not counted, and the call never panics. *)
Theorem namespace_counts_exact (namespaces : list (Namespace (W := W) (Qty := Qty))) (pods : list (Pod Qty)) services ingresses (w : W) :
  let '(w1, quotas) := ListResourceQuotas (U := U) (Qty := Qty) w in
  let '(w2, limits) := ListLimitRanges (U := U) (Qty := Qty) w1 in
  let '(w3, policies) := ListNetworkPolicies (U := U) (Qty := Qty) w2 in
  runs (collectNamespaceCounts (U := U) namespaces pods services ingresses) w w3
    ((fun ns => exact_counts (p_Namespace <$> pods) (sv_Namespace <$> services) (ig_Namespace <$> ingresses)
                  quotas limits policies (ns_Name ns)) <$> namespaces).
Proof.
  destruct (ListResourceQuotas w) as [w1 quotas] eqn:E1. destruct (ListLimitRanges w1) as [w2 limits] eqn:E2.
  destruct (ListNetworkPolicies w2) as [w3 policies] eqn:E3. by eapply collectNamespaceCounts_runs.
Qed.
End counts.

(** ** The whole report *)

Section report_facts.
Context {W U Qty : Type} `{QQ : !Quantity Qty} `{QS : !QuantitySums Qty} `{RO : !RangeOrder string Qty} `{RU : !RangeOrder string unit}.
Context `{GS : !GoSort} `{F64 : !Float64} `{PO : !PodObjects U Qty} `{PL : !PodLists W Qty} `{CL : !ClusterLists W U Qty}.
Context `{DL : !DynamicLists W} `{FT : !FloatTexts} `{NF : !NestedFields} `{RV : !RangeOrder string value}.
Context `{R1 : !RangeOrder string OwnerResult} `{R2 : !RangeOrder string ImageResult}.

(** What a list answered at some point of the run. *)
Definition answered {A} (f : W -> W * A) (a : A) : Prop := exists w1 w2, f w1 = (w2, a).

(** With enough fuel a call gives a result with a property. *)
Definition ends {A} (m : nat -> io W (option A)) (P : A -> Prop) (w : W) : Prop := exists w' a, eventually m w w' a /\ P a.

Lemma ends_ret {A} (P : A -> Prop) (a : A) (w : W) : P a -> ends (fun _ => mret (Some a)) P w.
Proof. intros H. exists w, a. split; [apply eventually_ret|done]. Qed.

Lemma ends_bind_pure {A B} (m : io W A) (k : nat -> A -> io W (option B)) (P : B -> Prop) (w w1 : W) a :
  runs m w w1 a -> ends (fun fuel => k fuel a) P w1 -> ends (fun fuel => m ≫= k fuel) P w.
Proof.
  intros Hm (w2 & b & [n Hn] & Hb). exists w2, b. split; [|done]. exists n. intros fuel Hf. apply runs_bind. exists w1, a.
  split; [done|by apply Hn].
Qed.

Lemma ends_bind {A B} (m : nat -> io W (option A)) (k : nat -> option A -> io W (option B)) (P : B -> Prop) (w w1 : W) a :
  eventually m w w1 a -> ends (fun fuel => k fuel (Some a)) P w1 -> ends (fun fuel => m fuel ≫= k fuel) P w.
Proof. intros Hm (w2 & b & Hk & Hb). exists w2, b. split; [by eapply eventually_bind|done]. Qed.

Lemma ends_required {A B} message (f : W -> W * result string A) (k : nat -> A -> io W (option (result string B)))
    (P : result string B -> Prop) (w : W) :
  (forall t, answered f (Err t) -> P (Err (message +:+ ": " +:+ t))) ->
  (forall a w1, answered f (Ok a) -> ends (fun fuel => k fuel a) P w1) -> ends (fun fuel => required message f (k fuel)) P w.
Proof.
  intros He Hk. unfold required. destruct (f w) as [w1 [a|t]] eqn:E.
  - eapply ends_bind_pure; [by apply runs_effect|]. apply Hk. by exists w, w1.
  - eapply ends_bind_pure; [by apply runs_effect|]. apply ends_ret, He. by exists w, w1.
Qed.

(** A list that the report needs failed, and the error says which. *)
Inductive required_failure : string -> Prop :=
| version_failed t : answered (ServerVersion (U := U) (Qty := Qty)) (Err t) ->
    required_failure ("error fetching Cluster API version" +:+ ": " +:+ t)
| controllers_failed t : answered (GetAllTopControllersWithPods (U := U) (Qty := Qty)) (Err t) ->
    required_failure ("error while getting all TopControllers" +:+ ": " +:+ t)
| nodes_failed t : answered (ListNodes (U := U) (Qty := Qty)) (Err t) -> required_failure ("error fetching Nodes" +:+ ": " +:+ t)
| pods_failed t : answered (ListPods (Qty := Qty) "" "" "") (Err t) -> required_failure ("error fetching Pods" +:+ ": " +:+ t)
| namespaces_failed t : answered (ListNamespaces (Qty := Qty)) (Err t) -> required_failure ("error fetching Namespaces" +:+ ": " +:+ t)
| ingresses_failed t : answered (ListIngresses (U := U) (Qty := Qty)) (Err t) -> required_failure ("error fetching ingresses" +:+ ": " +:+ t)
| services_failed t : answered (ListServices (U := U) (Qty := Qty)) (Err t) -> required_failure ("error fetching services" +:+ ": " +:+ t)
| claims_failed t : answered (ListClaims (U := U) (Qty := Qty)) (Err t) ->
    required_failure ("error fetching persistentvolumeclaims" +:+ ": " +:+ t).

(** A node of the report is that of the cluster with what its own pods need. *)
Definition node_of (pods : list (Pod Qty)) (item : Node Qty) (s : NodeSummary (Qty := Qty)) : Prop :=
  exists allocated utilization,
    getNodeAllocatedResources (n_Capacity item) (podsScheduledOnNode pods (om_Name (n_Meta item))) = Ok (allocated, utilization)
    /\ s = node_summary item allocated utilization.

(** Every section is made from what its list answered. *)
Definition describes (clusterName : string) (rep : report (W := W) (Qty := Qty)) : Prop :=
  exists version workloads nodes pods namespaces ingresses services claims quotas limits policies,
    answered (ServerVersion (U := U) (Qty := Qty)) (Ok version)
    /\ answered (GetAllTopControllersWithPods (U := U) (Qty := Qty)) (Ok workloads)
    /\ answered (ListNodes (U := U) (Qty := Qty)) (Ok nodes) /\ answered (ListPods "" "" "") (Ok pods)
    /\ answered ListNamespaces (Ok namespaces) /\ answered (ListIngresses (U := U) (Qty := Qty)) (Ok ingresses)
    /\ answered (ListServices (U := U) (Qty := Qty)) (Ok services) /\ answered (ListClaims (U := U) (Qty := Qty)) (Ok claims)
    /\ answered (ListResourceQuotas (U := U) (Qty := Qty)) quotas /\ answered (ListLimitRanges (U := U) (Qty := Qty)) limits
    /\ answered (ListNetworkPolicies (U := U) (Qty := Qty)) policies
    /\ rp_ServerVersion rep = version.1 +:+ "." +:+ version.2 /\ rp_SourceName rep = clusterName
    /\ rp_Controllers rep = controller_result <$> workloads
    /\ Forall2 (node_of pods) nodes (rp_Nodes rep)
    /\ rp_Namespaces rep = namespaces /\ rp_Ingresses rep = formatIngress <$> ingresses
    /\ rp_Services rep = formatService <$> services /\ rp_PersistentVolumeClaims rep = formatPersistentVolumeClaim <$> claims
    /\ rp_NamespaceCounts rep
       = (fun ns => exact_counts (p_Namespace <$> pods) (sv_Namespace <$> rp_Services rep) (ig_Namespace <$> rp_Ingresses rep)
                      quotas limits policies (ns_Name ns)) <$> namespaces
    /\ (exists w1 w2 r, runs (ListImages true workloads) w1 w2 r /\ rp_Images rep = match r with Ok images => images | Err _ => [] end)
    /\ (exists w1 w2, eventually listKarpenterInventory w1 w2 (rp_Karpenter rep))
    /\ (exists w1 w2, eventually listGatewayAPIInventory w1 w2 (rp_GatewayAPI rep)).

Lemma getNodeAllocatedResources_ok (capacity : ResourceList Qty) (pods : list (Pod Qty)) :
  exists r, getNodeAllocatedResources capacity pods = Ok r.
Proof.
  unfold getNodeAllocatedResources. rewrite sum_pods_eq. cbn [mbind result_bind].
  destruct (gpu_totals _ _ _) as [[? ?] ?]. by eexists.
Qed.

Lemma node_summaries_ok nodes pods : exists l, node_summaries nodes pods = Ok l /\ Forall2 (node_of pods) nodes l.
Proof.
  induction nodes as [|item nodes IH]; [by exists []|]. destruct IH as (l & E' & Hl).
  destruct (getNodeAllocatedResources_ok (n_Capacity item) (podsScheduledOnNode pods (om_Name (n_Meta item)))) as [[na u] E].
  exists (node_summary item na u :: l). split; [simpl; by rewrite E, E'|]. constructor; [|done]. by exists na, u.
Qed.

Lemma ListImages_returns (workloads : list (Workload U Qty)) (w : W) : exists w' r, runs (ListImages true workloads) w w' r.
Proof.
  unfold ListImages. simpl.
  destruct (runs_effect_total (ListNamespaces (Qty := Qty)) w) as (w1 & r & H1).
  destruct r as [items|e].
  - destruct (recordOrphanPods_returns (ns_Name <$> items) (recordControllerPods workloads) w1) as (w2 & [s|e] & H2).
    + destruct (recordJobPods_returns (ns_Name <$> items) s w2) as (w3 & r & H3). eexists w3, _.
      apply runs_bind. eexists w1, (Ok _). split; [apply runs_bind; eexists w1, _; split; [exact H1|by apply runs_ret]|].
      cbn beta iota. apply runs_bind. exists w2, (Ok s). split; [exact H2|]. apply runs_bind. exists w3, r. split; [exact H3|]. by apply runs_ret.
    + eexists w2, _. apply runs_bind. eexists w1, (Ok _). split; [apply runs_bind; eexists w1, _; split; [exact H1|by apply runs_ret]|].
      cbn beta iota. apply runs_bind. exists w2, (Err e). split; [exact H2|]. by apply runs_ret.
  - eexists w1, _. apply runs_bind. eexists w1, (Err _). split; [apply runs_bind; eexists w1, _; split; [exact H1|by apply runs_ret]|].
    by apply runs_ret.
Qed.

(** What a report of these answers is made of. *)
Definition reported (clusterName : string) (r : result string (report (W := W) (Qty := Qty))) : Prop :=
  match r with
  | Ok rep => describes clusterName rep
  | Err e => required_failure e
  end.

(** C26. With an API server whose pages of objects end, the report ends: either a list that it needs failed, and the error
    names that list, or every section is there: the controllers, namespaces, ingresses, services and claims are those
    that were listed, each node has the allocation of the pods scheduled on it, the counts are those of the lists,
    the images are those discovered or none where the discovery fails, and so are the two inventories.  No other call can
    make it fail: quotas, limit ranges, network policies, images and inventories never do. *)
Theorem report_ends_or_required_list_failed (clusterName : string) (w : W)
    (Hpages : forall gvr w, exists w' r, pages gvr "" w w' r) :
  ends (fun fuel => CreateResourceProviderFromAPI (U := U) (Qty := Qty) fuel clusterName) (reported clusterName) w.
Proof.
  unfold CreateResourceProviderFromAPI.
  apply ends_required; [by constructor|]. intros version w1 Aversion.
  apply ends_required; [by constructor|]. intros workloads w2 Aworkloads. cbv zeta.
  apply ends_required; [by constructor|]. intros nodes w3 Anodes.
  apply ends_required; [by constructor|]. intros pods w4 Apods.
  destruct (node_summaries_ok nodes pods) as (summaries & -> & Hsummaries).
  apply ends_required; [by constructor|]. intros namespaces w5 Anamespaces.
  apply ends_required; [by constructor|]. intros ingresses w6 Aingresses.
  apply ends_required; [by constructor|]. intros services w7 Aservices.
  apply ends_required; [by constructor|]. intros claims w8 Aclaims.
  destruct (ListResourceQuotas w8) as [w9 quotas] eqn:Equotas. destruct (ListLimitRanges w9) as [w10 limits] eqn:Elimits.
  destruct (ListNetworkPolicies w10) as [w11 policies] eqn:Epolicies.
  eapply ends_bind_pure; [by eapply collectNamespaceCounts_runs|].
  destruct (ListImages_returns workloads w11) as (w12 & images & Himages). eapply ends_bind_pure; [exact Himages|].
  destruct (karpenter_inventory_ends w12 Hpages) as (w13 & karpenter & Hkarpenter). eapply ends_bind; [exact Hkarpenter|].
  destruct (gateway_inventory_ends w13 Hpages) as (w14 & gateway & Hgateway). eapply ends_bind; [exact Hgateway|].
  eapply ends_bind_pure; [by apply runs_asks|]. apply ends_ret.
  exists version, workloads, nodes, pods, namespaces, ingresses, services, claims, quotas, limits, policies.
  split_and!; try done; try (by eexists _, _); by eexists _, _, _.
Qed.
End report_facts.

(** ** The file *)

Section publishing.
Context {W U Qty : Type} `{QQ : !Quantity Qty} `{QS : !QuantitySums Qty} `{RO : !RangeOrder string Qty} `{RU : !RangeOrder string unit}.
Context `{GS : !GoSort} `{F64 : !Float64} `{PO : !PodObjects U Qty} `{PL : !PodLists W Qty} `{CL : !ClusterLists W U Qty}.
Context `{DL : !DynamicLists W} `{FT : !FloatTexts} `{NF : !NestedFields} `{RV : !RangeOrder string value}.
Context `{R1 : !RangeOrder string OwnerResult} `{R2 : !RangeOrder string ImageResult}.
Context `{FS : !Files W} (Rename : string -> string -> W -> W * option string).
Context (MarshalIndent : report (W := W) (Qty := Qty) -> result string string).

(** A run that succeeds has renamed to the output file what it wrote, whole, to the temporary one. *)
Lemma main_publishes fuel output clusterName (w w' : W) :
  runs (main (U := U) Rename MarshalIndent fuel output clusterName) w w' (Some (Ok tt)) -> output <> "" ->
  exists w1 w2 rep text,
    runs (CreateResourceProviderFromAPI (U := U) fuel clusterName) w w1 (Some (Ok rep)) /\ MarshalIndent rep = Ok text
    /\ WriteFile tempFile text w1 = (w2, None) /\ Rename tempFile output w2 = (w', None).
Proof.
  intros H Hout. unfold main in H. apply runs_bind in H as (w1 & [[rep|e]|] & H1 & H); [|by apply runs_ret in H as [_ ?]..].
  destruct (MarshalIndent rep) as [text|] eqn:Em; [|by apply runs_ret in H as [_ ?]]. case_decide; [done|].
  apply runs_bind in H as (w2 & [e|] & Hw%runs_effect & H); [by apply runs_ret in H as [_ ?]|].
  apply runs_bind in H as (w3 & [e|] & Hr%runs_effect & [-> ?]%runs_ret); [done|]. by exists w1, w2, rep, text.
Qed.

(** The output file is only touched, by that rename, after the temporary one is written: no failure before it leaves it cut. *)
Lemma main_renames_last fuel output clusterName (w w' : W) e :
  runs (main (U := U) Rename MarshalIndent fuel output clusterName) w w' (Some (Err e)) ->
  (exists w1 r, runs (CreateResourceProviderFromAPI (U := U) fuel clusterName) w w1 (Some r)
     /\ (w' = w1 \/ (exists rep text e', r = Ok rep /\ MarshalIndent rep = Ok text /\ WriteFile tempFile text w1 = (w', Some e'))
         \/ (exists rep text w2 e', r = Ok rep /\ MarshalIndent rep = Ok text /\ WriteFile tempFile text w1 = (w2, None)
               /\ Rename tempFile output w2 = (w', Some e')))).
Proof.
  intros H. unfold main in H. apply runs_bind in H as (w1 & [[rep|e1]|] & H1 & H); [| |by apply runs_ret in H as [_ ?]].
  - exists w1, (Ok rep). split; [done|]. destruct (MarshalIndent rep) as [text|] eqn:Em; [|left; by apply runs_ret in H as [-> _]].
    case_decide; [by apply runs_ret in H as [_ ?]|]. right.
    apply runs_bind in H as (w2 & [e2|] & Hw%runs_effect & H).
    + left. apply runs_ret in H as [-> _]. by exists rep, text, e2.
    + right. apply runs_bind in H as (w3 & [e2|] & Hr%runs_effect & [-> ?]%runs_ret); [|done]. by exists rep, text, w2, e2.
  - exists w1, (Err e1). split; [done|]. left. by apply runs_ret in H as [-> _].
Qed.
End publishing.

(** ** A concrete cluster *)
Module Witness.
#[local] Existing Instance Q_quantity.
#[local] Existing Instance Q_sums.
#[local] Existing Instance Q_Float64.
#[local] Existing Instance merge_go_sort.
#[local] Existing Instance canonical_order.
#[local] Instance no_floats : FloatTexts := {| Sprint_float := fun s => s; int32_of_float := fun _ => 0 |}.
#[local] Instance no_fields : NestedFields := {|
  NestedMap := fun _ _ => Ok None; NestedSlice := fun _ _ => Ok None; NestedString := fun _ _ => Ok None;
  NestedInt64 := fun _ _ => Ok None; NestedStringSlice := fun _ _ => Ok None |}.

Definition container : Container Q :=
  {| c_Name := "web"; c_Image := "nginx"; c_Resources := {| Requests := Some {[ResourceCPU := 2%Q]}; Limits := None |} |}.
Definition pod : Pod Q :=
  {| p_Namespace := "default"; p_Name := "web"; p_UID := "1"; p_Labels := None; p_Annotations := None; p_OwnerReferences := [];
     p_Spec := {| NodeName := "node"; Containers := [container]; InitContainers := []; EphemeralContainers := []; Volumes := [] |};
     p_Phase := PodRunning; p_Conditions := []; p_ContainerStatuses := []; p_InitContainerStatuses := [];
     p_EphemeralContainerStatuses := [] |}.
Definition meta (name : string) : ObjectMeta :=
  {| om_Name := name; om_Namespace := ""; om_UID := name; om_Annotations := None; om_Labels := None |}.
Definition node : Node Q :=
  {| n_Meta := meta "node"; n_CreationTimestamp := 0; n_Capacity := Some {[ResourceCPU := 8%Q]}; n_Allocatable := None;
     n_Conditions := []; n_Taints := []; n_Unschedulable := false; n_Addresses := []; n_ProviderID := "";
     n_NodeInfo := {| si_Architecture := ""; si_OperatingSystem := ""; si_OSImage := ""; si_ContainerRuntimeVersion := "";
                      si_KernelVersion := ""; si_KubeletVersion := ""; si_KubeProxyVersion := "" |} |}.

#[local] Instance pods_are_pods : PodObjects (Pod Q) Q :=
  {| FromUnstructured := fun p => Ok p; GetPodMetadataAndSpec := fun p => Ok (Some (p_Spec p)) |}.
#[local] Instance pod_lists : PodLists unit Q := {|
  Namespace := string; ns_Name := fun s => s; ListNamespaces := fun w => (w, Ok ["default"%string]);
  ListPods := fun _ _ _ w => (w, Ok [pod]); ListJobs := fun _ w => (w, Ok []) |}.
(** Quotas cannot be listed. *)
#[local] Instance cluster_lists : ClusterLists unit (Pod Q) Q := {|
  ServerVersion := fun w => (w, Ok ("1", "33")%string);
  GetAllTopControllersWithPods := fun w => (w, Ok []);
  ListNodes := fun w => (w, Ok [node]);
  ListIngresses := fun w => (w, Ok []);
  ListServices := fun w => (w, Ok []);
  ListClaims := fun w => (w, Ok []);
  ListResourceQuotas := fun w => (w, Err "forbidden"%string);
  ListLimitRanges := fun w => (w, Ok ["default"; "other"]%string);
  ListNetworkPolicies := fun w => (w, Ok []);
  Now := fun _ => 0
|}.
#[local] Instance server : DynamicLists unit := {| ListPage := fun _ _ w => (w, Ok ([], ""%string)) |}.

Lemma report_ends_or_required_list_failed_witness :
  exists w' rep, eventually (fun fuel => CreateResourceProviderFromAPI (U := Pod Q) (Qty := Q) fuel "cluster") tt w' (Ok rep)
  /\ rp_ServerVersion rep = "1.33"%string /\ length (rp_Nodes rep) = 1%nat
  /\ (fun c => (PodCount c, LimitRangeCount c, ResourceQuotaCount c)) <$> rp_NamespaceCounts rep = [(1, 1, 0)].
Proof.
  destruct (report_ends_or_required_list_failed (U := Pod Q) (Qty := Q) "cluster" tt) as (w' & [rep|e] & Hrun & H).
  - intros gvr w. exists w, (Ok []). by apply pages_last.
  - exists w', rep. split; [exact Hrun|].
    destruct H as (v & ws & ns & ps & nms & igs & svs & cls & qs & ls & nps & Hv & _ & Hn & Hp & Hm & Hi & Hs & _ & Hq & Hl & _
                   & -> & _ & _ & Hnodes & _ & Eis & Ess & _ & -> & _).
    destruct Hv as (? & ? & [= <- <-]), Hn as (? & ? & [= <- <-]), Hp as (? & ? & [= <- <-]), Hm as (? & ? & [= <- <-]),
      Hi as (? & ? & [= <- <-]), Hs as (? & ? & [= <- <-]), Hq as (? & ? & [= <- <-]), Hl as (? & ? & [= <- <-]).
    split; [done|]. split; [by apply Forall2_length in Hnodes|]. done.
  - destruct H as [t (? & ? & ?)|t (? & ? & ?)|t (? & ? & ?)|t (? & ? & ?)|t (? & ? & ?)|t (? & ? & ?)|t (? & ? & ?)|t (? & ? & ?)]; discriminate.
Defined.
End Witness.
