(* ===== verification/KyvernoReports.v ===== *)
(** * kyverno: the report on policies

    [kyverno/cmd/main.go]: policy reports of the cluster cut down to their violations, with
    the titles of policies, and the version of Kyverno.  The objects that are listed are
    changed in place: the functions over a list take it as a store and return it with the
    positions of the objects in their result. *)

From stdpp Require Import base decidable list gmap strings.
From Stdlib Require Import ZArith Lia Ascii Sorted.
From S2P Require Import Prelude GoStrings GoText GoValues GoSort GoFiles.

(** ** Objects *)

(** What a field of an object holds: decoded JSON, or a [[]map[string]any] that the program
    has put there. *)
Inductive field : Type :=
| Decoded (v : value)
| Maps (l : list (gmap string value)).

Abbreviation object := (gmap string field).

(** Comma-ok assertions on a field. *)
Definition field_map (x : option field) : option (gmap string value) :=
  match x with
  | Some (Decoded v) => to_map (Some v)
  | _ => None
  end.

Definition field_array (x : option field) : option (list value) :=
  match x with
  | Some (Decoded v) => to_array (Some v)
  | _ => None
  end.

(** Titles and descriptions by the name of a policy. *)
Abbreviation titles := (gmap string (string * string)).

(** [delete(metadata, "managedFields")], which panics without a map. *)
Definition drop_managed (p : object) : go object :=
  metadata ← deref (field_map (p !! "metadata"));
  mret (<["metadata" := Decoded (VMap (delete "managedFields" metadata))]> p).

(** A loop that keeps what its body makes of an element, or skips it. *)
Fixpoint mapM_some {A B} (f : A -> go (option B)) (l : list A) : go (list B) :=
  match l with
  | [] => Ret []
  | x :: l' =>
      o ← f x;
      rest ← mapM_some f l';
      mret (match o with Some b => b :: rest | None => rest end)
  end.

(** ** Violations *)

Definition fails_or_warns (s : string) : bool := bool_decide (s = "fail" \/ s = "warn").

Definition add_title (ts : titles) (policy : string) (result : gmap string value) : gmap string value :=
  match ts !! policy with
  | Some (title, description) =>
      <["policyDescription" := VString description]> (<["policyTitle" := VString title]> result)
  | None => result
  end.

Definition violation (ts : titles) (r : value) : go (option (gmap string value)) :=
  result ← deref (to_map (Some r));
  s ← deref (to_string (result !! "result"));
  if negb (fails_or_warns s) then mret None
  else
    policy ← deref (to_string (result !! "policy"));
    mret (Some (add_title ts policy result)).

(** One report, and whether it is in the result. *)
Definition report_violations (ts : titles) (p : object) : go (object * bool) :=
  p ← drop_managed p;
  results ← deref (field_array (p !! "results"));
  violations ← mapM_some (violation ts) results;
  mret (match violations with
        | [] => (p, false)
        | _ => (<["results" := Maps violations]> p, true)
        end).

(** The objects of a list one after the other, with the positions of those that are kept. *)
Fixpoint over_store (f : object -> go (object * bool)) (i : nat) (store : list object) : go (list object * list nat) :=
  match store with
  | [] => Ret ([], [])
  | p :: store' =>
      '(p, keep) ← f p;
      '(store', kept) ← over_store f (S i) store';
      mret (p :: store', (if keep : bool then [i] else []) ++ kept)
  end.

Definition filterViolations (policies : list object) (ts : titles) : go (list object * list nat) :=
  over_store (report_violations ts) 0 policies.

(** ** Reports on validating admission policies *)

Definition vap_result (r : value) : go (option (gmap string value)) :=
  result ← deref (to_map (Some r));
  mret (if negb (not_nil (result !! "result")) || negb (bool_decide (to_string (result !! "source") = Some "ValidatingAdmissionPolicy"))
        then None else Some result).

(** The second branch is entered only when its own assertion must panic. *)
Definition report_vap (p : object) : go (object * bool) :=
  p ← drop_managed p;
  match p !! "results" with
  | Some (Decoded (VArray results)) =>
      violations ← mapM_some vap_result results;
      mret (match violations with
            | [] => (p, false)
            | _ => (<["results" := Maps violations]> p, true)
            end)
  | Some (Maps _) => mret (p, false)
  | _ => Panic
  end.

Definition filterValidationAdmissionPolicyReports (policies : list object) : go (list object * list nat) :=
  over_store report_vap 0 policies.

(** ** Policies *)

Definition remove_managed (p : object) : object :=
  match field_map (p !! "metadata") with
  | Some metadata => <["metadata" := Decoded (VMap (delete "managedFields" metadata))]> p
  | None => p
  end.

(** Every object is in the result. *)
Definition removeManagedFields (policies : list object) : list object := remove_managed <$> policies.

(** An annotation, or the empty text; any other value than a text panics. *)
Definition annotation_text (annotations : gmap string value) (key : string) : go string :=
  if not_nil (annotations !! key) then deref (to_string (annotations !! key)) else mret "".

(** ** The version *)

Definition imageRefWithoutDigest (image : string) : string := before_first (TrimSpace image) "@".

Definition extractVersionFromImage (image : string) : string :=
  let image := imageRefWithoutDigest image in
  if decide (image = "") then ""
  else
    match LastIndex image ":" with
    | None => ""
    | Some idx => if decide (lenS image - 1 <= Z.of_nat idx)%Z then "" else TrimSpace (slice_from (S idx) image)
    end.

(** Name and image of a container; name and containers of a deployment. *)
Record Container : Type := { c_Name : string; c_Image : string }.
Record Deployment : Type := { d_Name : string; d_Containers : list Container }.

Fixpoint first_tag (l : list Container) : string :=
  match l with
  | [] => ""
  | c :: l' => let tag := extractVersionFromImage (c_Image c) in if decide (tag <> "") then tag else first_tag l'
  end.

Definition is_kyverno_image (c : Container) : bool := Contains (ToLower (imageRefWithoutDigest (c_Image c))) "kyverno/kyverno".

Definition kyvernoVersionFromContainers (containers : list Container) : string :=
  let tag := first_tag (List.filter (fun c => bool_decide (c_Name c = "kyverno")) containers) in
  if decide (tag <> "") then tag else first_tag (List.filter is_kyverno_image containers).

Fixpoint first_version (l : list Deployment) : string :=
  match l with
  | [] => ""
  | d :: l' => let v := kyvernoVersionFromContainers (d_Containers d) in if decide (v <> "") then v else first_version l'
  end.

Definition deployment_keys (d : Deployment) : list string := [d_Name d].

(** The cluster: the resource of a kind, its objects, and deployments by label. *)
Class KyvernoCluster (W : Type) := {
  ResourceFor : string -> W -> W * result string string;
  ListAll : string -> W -> W * result string (list object);
  ListDeployments : string -> string -> W -> W * result string (list Deployment)
}.

Section program.
Context {W : Type} `{KC : !KyvernoCluster W} `{GS : !GoSort} (GetName : object -> string).

Definition detectKyvernoVersionInNamespace (namespace : string) : io W string :=
  deploys ← effect (ListDeployments namespace "app.kubernetes.io/component=admission-controller");
  mret (match deploys with
        | Err _ => ""
        | Ok items => first_version (sort_slice (by_keys deployment_keys) items)
        end).

Fixpoint detect_in (namespaces : list string) : io W string :=
  match namespaces with
  | [] => mret ""
  | ns :: l => v ← detectKyvernoVersionInNamespace ns; if decide (v <> "") then mret v else detect_in l
  end.

Definition detectKyvernoVersion : io W string := detect_in ["kyverno"; "kyverno-system"].

Definition ListResources (resourceType : string) : io W (result string (list object)) :=
  gvr ← effect (ResourceFor resourceType);
  match gvr with
  | Err e => mret (Err e)
  | Ok gvr => effect (ListAll gvr)
  end.

(** The titles of one object. *)
Definition title_step (p : object) (ts : titles) : go titles :=
  metadata ← deref (field_map (p !! "metadata"));
  match metadata !! "annotations" with
  | None => mret ts
  | Some annotations =>
      annotationsMap ← deref (to_map (Some annotations));
      title ← annotation_text annotationsMap "policies.kyverno.io/title";
      description ← annotation_text annotationsMap "policies.kyverno.io/description";
      mret (<[GetName p := (title, description)]> ts)
  end.

Fixpoint titles_of (l : list object) (ts : titles) : go titles :=
  match l with
  | [] => mret ts
  | p :: l' => ts ← title_step p ts; titles_of l' ts
  end.

Definition createPoliciesTitleAndDescriptionMap (resourceType : string) : io W (result string titles) :=
  l ← ListResources resourceType;
  match l with
  | Err e => mret (Err e)
  | Ok l => ts ← pure_go (titles_of l ∅); mret (Ok ts)
  end.

(** ** The program *)

Record response : Type := {
  kyvernoVersion : string;
  policyReports : list object;
  clusterPolicyReports : list object;
  validatingAdmissionPolicyReports : list object;
  validatingAdmissionPolicies : list object;
  clusterPolicies : list object
}.

(** The objects at positions of a store. *)
Definition at_ (store : list object) (positions : list nat) : list object := omap (fun i => store !! i) positions.

(** A fatal error. *)
Definition fatal {A B} (message : string) (m : io W (result string A)) (k : A -> io W (result string B)) : io W (result string B) :=
  r ← m;
  match r with
  | Err e => mret (Err (message +:+ e))
  | Ok a => k a
  end.

(** Up to what is written.  The two sections of policy reports are positions in one store. *)
Definition collect_response : io W (result string response) :=
  version ← detectKyvernoVersion;
  fatal "Error creating policies title and description map: " (createPoliciesTitleAndDescriptionMap "ClusterPolicy") (fun cluster_titles =>
  fatal "Error listing policy reports: " (ListResources "PolicyReport") (fun reports =>
  fatal "Error creating policies title and description map: " (createPoliciesTitleAndDescriptionMap "PolicyReport") (fun report_titles =>
  fatal "Error listing cluster policy reports: " (ListResources "ClusterPolicyReport") (fun cluster_reports =>
  '(reports, violating) ← pure_go (filterViolations reports report_titles);
  '(cluster_reports, cluster_violating) ← pure_go (filterViolations cluster_reports cluster_titles);
  '(reports, vap) ← pure_go (filterValidationAdmissionPolicyReports reports);
  fatal "Error listing validating admission policies: " (ListResources "ValidatingAdmissionPolicy") (fun vaps =>
  fatal "Error listing cluster policies: " (ListResources "ClusterPolicy") (fun policies =>
  mret (Ok {| kyvernoVersion := version; policyReports := at_ reports violating;
              clusterPolicyReports := at_ cluster_reports cluster_violating;
              validatingAdmissionPolicyReports := at_ reports vap;
              validatingAdmissionPolicies := removeManagedFields vaps; clusterPolicies := removeManagedFields policies |}))))))).

Context `{FS : !Files W} (Rename : string -> string -> W -> W * option string) (Marshal : response -> result string string).

(** A call that only returns an error. *)
Definition check (f : W -> W * option string) : io W (result string unit) :=
  r ← effect f;
  mret (match r with Some e => Err e | None => Ok tt end).

Definition main : io W (result string unit) :=
  fatal "" collect_response (fun r =>
  fatal "Error marshalling response: " (mret (Marshal r)) (fun jsonBytes =>
  fatal "Error writing output file: " (check (WriteFile "/output/kyverno-temp.json" jsonBytes)) (fun _ =>
  fatal "Error renaming output file: " (check (Rename "/output/kyverno-temp.json" "/output/kyverno.json")) (fun _ =>
  mret (Ok tt))))).
End program.

(** ** Versions *)

(** The version of a reference is its tag, with or without a digest after it. *)
Lemma extractVersionFromImage_tag name tag rest :
  name <> "" -> tag <> "" -> "@"%char ∉ chars (name +:+ ":" +:+ tag) -> ":"%char ∉ chars tag ->
  TrimSpace tag = tag -> TrimSpace ((name +:+ ":" +:+ tag) +:+ rest) = (name +:+ ":" +:+ tag) +:+ rest ->
  rest = "" \/ (exists digest, rest = String "@" digest) ->
  extractVersionFromImage ((name +:+ ":" +:+ tag) +:+ rest) = tag.
Proof.
  intros Hn Ht Hat Hcolon Htrim Hall Hrest. unfold extractVersionFromImage, imageRefWithoutDigest. rewrite Hall.
  assert (before_first ((name +:+ ":" +:+ tag) +:+ rest) "@" = name +:+ ":" +:+ tag) as ->.
  { destruct Hrest as [-> | [digest ->]]; [rewrite str_app_nil; by apply before_first_none|by apply before_first_split]. }
  rewrite decide_False by (by destruct name).
  change (name +:+ ":" +:+ tag) with (name +:+ String ":" tag). rewrite LastIndex_split by done.
  rewrite decide_False.
  - unfold slice_from. rewrite chars_app. simpl.
    unfold slen. replace (S (length (chars name))) with (length (chars name ++ [":"%char])) by (rewrite length_app; simpl; lia).
    change (":"%char :: chars tag) with ([":"%char] ++ chars tag). rewrite app_assoc, drop_app_length, str_chars. done.
  - rewrite lenS_app. unfold lenS, slen. simpl. assert (0 < length (chars tag))%nat by (destruct tag; [done|simpl; lia]). lia.
Qed.

Section version.
Context {W : Type} `{KC : !KyvernoCluster W}.

(** The version does not depend on how the sort treats deployments of one name when there are none. *)
Lemma detect_deterministic (s1 s2 : GoSort) namespace (w : W) :
  (forall w' items, ListDeployments namespace "app.kubernetes.io/component=admission-controller" w = (w', Ok items) -> NoDup (d_Name <$> items)) ->
  @detectKyvernoVersionInNamespace W _ s1 namespace w = @detectKyvernoVersionInNamespace W _ s2 namespace w.
Proof.
  intros Hnd. unfold detectKyvernoVersionInNamespace, mbind, io_bind, effect, mret, io_ret.
  destruct (ListDeployments _ _ w) as [w' [items|e]] eqn:E; [|done]. do 2 f_equal. f_equal.
  apply (sort_by_keys_unique s1 s2 deployment_keys 1); [done| |done].
  specialize (Hnd _ _ eq_refl). intros a b Ha Hb [= Heq].
  revert Hnd Ha Hb. clear -Heq. induction items as [|d items IH]; intros Hnd Ha Hb; [by apply elem_of_nil in Ha|].
  apply NoDup_cons in Hnd as [Hd Hnd]. apply elem_of_cons in Ha as [->|Ha], Hb as [->|Hb]; [done| | |by apply IH].
  - destruct Hd. rewrite Heq. by apply list_elem_of_fmap_2.
  - destruct Hd. rewrite <-Heq. by apply list_elem_of_fmap_2.
Qed.
End version.

(** ** Reports *)

(** A report as Kyverno writes it. *)
Definition result_ok (r : value) : Prop :=
  exists m s, r = VMap m /\ m !! "result" = Some (VString s)
  /\ (fails_or_warns s = true -> exists policy, m !! "policy" = Some (VString policy)).

Definition report_ok (p : object) : Prop :=
  (exists metadata, p !! "metadata" = Some (Decoded (VMap metadata)))
  /\ exists results, p !! "results" = Some (Decoded (VArray results)) /\ Forall result_ok results.

Definition results_of (p : object) : list value := default [] (field_array (p !! "results")).

(** A result that fails or warns, and what is reported of it. *)
Definition violates (r : value) : bool :=
  match to_map (Some r) with
  | Some m => match to_string (m !! "result") with Some s => fails_or_warns s | None => false end
  | None => false
  end.

Definition reported (ts : titles) (r : value) : option (gmap string value) :=
  if violates r then (fun m => add_title ts (default "" (to_string (m !! "policy"))) m) <$> to_map (Some r) else None.

(** A result of a validating admission policy. *)
Definition of_vap (r : value) : bool :=
  match to_map (Some r) with
  | Some m => not_nil (m !! "result") && bool_decide (to_string (m !! "source") = Some "ValidatingAdmissionPolicy")
  | None => false
  end.

Definition violating (p : object) : bool := existsb violates (results_of p).

(** Without the managed fields. *)
Definition trimmed (p : object) : object :=
  <["metadata" := Decoded (VMap (delete "managedFields" (default ∅ (field_map (p !! "metadata")))))]> p.

Definition with_results (l : list (gmap string value)) (p : object) : object := <["results" := Maps l]> (trimmed p).

Lemma mapM_some_ok {A B} (f : A -> go (option B)) g l : Forall (fun x => f x = Ret (g x)) l -> mapM_some f l = Ret (omap g l).
Proof.
  induction 1 as [|x l Hx _ IH]; [done|]. cbn [mapM_some]. rewrite Hx. cbn. rewrite IH. cbn. by destruct (g x).
Qed.

Fixpoint positions {A} (k : A -> bool) (i : nat) (l : list A) : list nat :=
  match l with
  | [] => []
  | x :: l' => (if k x then [i] else []) ++ positions k (S i) l'
  end.

Lemma over_store_ok {A} (f : object -> go (object * bool)) (h : A -> object) g k i l :
  Forall (fun x => f (h x) = Ret (g x, k x)) l -> over_store f i (h <$> l) = Ret (g <$> l, positions k i l).
Proof.
  revert i. induction l as [|x l IH]; intros i H; [done|]. apply Forall_cons in H as [Hx H]. cbn [fmap list_fmap over_store].
  rewrite Hx. cbn. by rewrite (IH (S i) H).
Qed.

Lemma at_positions {A} (k : A -> bool) (g : A -> object) pre l :
  at_ ((g <$> pre) ++ (g <$> l)) (positions k (length pre) l) = g <$> List.filter k l.
Proof.
  revert pre. induction l as [|x l IH]; intros pre; [done|]. cbn [positions List.filter]. unfold at_. rewrite omap_app.
  change ((g <$> pre) ++ (g <$> x :: l)) with ((g <$> pre) ++ [g x] ++ (g <$> l)). rewrite app_assoc.
  change [g x] with (g <$> [x]). rewrite <-fmap_app. specialize (IH (pre ++ [x])). unfold at_ in IH.
  rewrite length_app in IH. simpl in IH. replace (length pre + 1)%nat with (S (length pre)) in IH by lia. rewrite IH.
  destruct (k x); [|done]. simpl. rewrite lookup_app_l by (rewrite length_fmap, length_app; simpl; lia).
  rewrite list_lookup_fmap, lookup_app_r, Nat.sub_diag by lia. done.
Qed.

Lemma elem_of_positions {A} (k : A -> bool) i l j :
  j ∈ positions k i l <-> exists x, (i <= j)%nat /\ l !! (j - i)%nat = Some x /\ k x = true.
Proof.
  revert i. induction l as [|x l IH]; intros i; simpl.
  - rewrite elem_of_nil. split; [done|]. by intros (? & _ & ? & _).
  - rewrite elem_of_app, IH. split.
    + intros [Hj|(y & Hij & Hy & Hk)].
      * destruct (k x) eqn:E; [|by apply elem_of_nil in Hj]. apply list_elem_of_singleton in Hj as ->. exists x.
        by rewrite Nat.sub_diag.
      * exists y. split; [lia|]. replace (j - i)%nat with (S (j - S i)) by lia. done.
    + intros (y & Hij & Hy & Hk). destruct (decide (j = i)) as [->|Hne].
      * rewrite Nat.sub_diag in Hy. injection Hy as ->. left. rewrite Hk. by left.
      * right. exists y. split; [lia|]. by replace (j - i)%nat with (S (j - S i)) in Hy by lia.
Qed.

Lemma violation_ok ts r : result_ok r -> violation ts r = Ret (reported ts r).
Proof.
  intros (m & s & -> & Hs & Hp). unfold violation, reported, violates. cbn. rewrite Hs. cbn.
  destruct (fails_or_warns s) eqn:E; [|done]. destruct (Hp eq_refl) as [policy Hpol]. cbn. by rewrite Hpol.
Qed.

Lemma vap_result_ok r : result_ok r -> vap_result r = Ret (if of_vap r then to_map (Some r) else None).
Proof.
  intros (m & s & -> & Hs & _). unfold vap_result, of_vap. cbn. rewrite <-negb_andb. by destruct (_ && _).
Qed.

Lemma reported_none ts l : Forall result_ok l -> omap (reported ts) l = [] <-> existsb violates l = false.
Proof.
  induction 1 as [|r l (m & s & -> & Hs & _) _ IH]; [done|]. cbn [existsb omap list_omap]. unfold reported at 1.
  destruct (violates (VMap m)); [done|]. by rewrite IH.
Qed.

(** A section of the report: the reports that [k] selects, cut down to the results that [f] selects. *)
Definition section_of (k : object -> bool) (f : value -> option (gmap string value)) (reports : list object) : list object :=
  (fun p => with_results (omap f (results_of p)) p) <$> List.filter k reports.

(** A report that no result of fails, with a result of a validating admission policy. *)
Definition passing_vap (p : object) : bool := negb (violating p) && existsb of_vap (results_of p).

Definition vap_map (r : value) : option (gmap string value) := if of_vap r then to_map (Some r) else None.

(** What the first pass leaves of a report. *)
Definition after_first (ts : titles) (p : object) : object :=
  if violating p then with_results (omap (reported ts) (results_of p)) p else trimmed p.

Lemma drop_managed_eq p : field_map (p !! "metadata") <> None -> drop_managed p = Ret (trimmed p).
Proof. unfold drop_managed, trimmed. by destruct (field_map (p !! "metadata")). Qed.

Lemma drop_managed_ok p : report_ok p -> drop_managed p = Ret (trimmed p).
Proof. intros [[metadata Hm] _]. apply drop_managed_eq. by rewrite Hm. Qed.

Lemma trimmed_other p k : k <> "metadata" -> trimmed p !! k = p !! k.
Proof. intros H. unfold trimmed. by rewrite lookup_insert_ne. Qed.

(** Trimming twice changes nothing more, also after other fields have changed. *)
Lemma drop_managed_again p x k : k <> "metadata" ->
  drop_managed (trimmed p) = Ret (trimmed p) /\ drop_managed (<[k := x]> (trimmed p)) = Ret (<[k := x]> (trimmed p)).
Proof.
  intros Hk. unfold drop_managed. rewrite (lookup_insert_ne (trimmed p) k) by done. unfold trimmed.
  rewrite lookup_insert_eq. cbn [field_map to_map deref mbind go_bind mret go_ret]. rewrite delete_delete_eq.
  split; f_equal; apply insert_id; [|rewrite lookup_insert_ne by done]; by rewrite lookup_insert_eq.
Qed.

Lemma report_violations_ok ts p : report_ok p -> report_violations ts p = Ret (after_first ts p, violating p).
Proof.
  intros Hp. unfold report_violations. rewrite drop_managed_ok by done. destruct Hp as [_ (results & Hr & Hok)].
  unfold after_first, with_results, violating, results_of. cbn [mbind go_bind]. rewrite trimmed_other, Hr by done.
  cbn [field_array to_array deref default mbind go_bind]. unfold id.
  rewrite (mapM_some_ok _ (reported ts)) by (eapply Forall_impl; [exact Hok|]; intros; by apply violation_ok).
  pose proof (reported_none ts results Hok) as Hnone. destruct (omap (reported ts) results) as [|x l].
  - by rewrite (proj1 Hnone eq_refl).
  - destruct (existsb violates results); [done|]. by discriminate (proj2 Hnone eq_refl).
Qed.

Lemma vap_none l : Forall result_ok l -> omap vap_map l = [] <-> existsb of_vap l = false.
Proof.
  induction 1 as [|r l (m & s & -> & Hs & _) _ IH]; [done|]. cbn [existsb omap list_omap]. unfold vap_map at 1.
  destruct (of_vap (VMap m)); [done|]. by rewrite IH.
Qed.

(** What the second pass makes of what the first has left: nothing of a report with violations. *)
Lemma report_vap_ok ts p : report_ok p ->
  report_vap (after_first ts p)
  = Ret (if passing_vap p then with_results (omap vap_map (results_of p)) p else after_first ts p, passing_vap p).
Proof.
  intros [_ (results & Hr & Hok)]. unfold report_vap, passing_vap, after_first, with_results. destruct (violating p).
  - rewrite (proj2 (drop_managed_again p _ "results" ltac:(done))). cbn [mbind go_bind]. by rewrite lookup_insert_eq.
  - rewrite (proj1 (drop_managed_again p (Maps []) "results" ltac:(done))). cbn [mbind go_bind negb andb].
    unfold results_of. rewrite trimmed_other, Hr by done. cbn [field_array to_array default]. unfold id.
    rewrite (mapM_some_ok _ vap_map) by (eapply Forall_impl; [exact Hok|]; intros; by apply vap_result_ok).
    pose proof (vap_none results Hok) as Hnone. destruct (omap vap_map results) as [|x l].
    + by rewrite (proj1 Hnone eq_refl).
    + destruct (existsb of_vap results); [done|]. by discriminate (proj2 Hnone eq_refl).
Qed.

(** C27. Of reports as Kyverno writes them the two passes return, and share them out: the first section holds exactly the
    reports with a result that fails or warns, cut down to these results with the titles of their policies; the second,
    which reads the reports as the first pass left them, holds exactly those without any such result that have one of a
    validating admission policy, cut down to these.  No report is in both, so a validating admission policy that
    fails is never in the section for them. *)
Theorem policy_reports_shared_out ts (reports : list object) :
  Forall report_ok reports ->
  exists store1 first store2 second,
    filterViolations reports ts = Ret (store1, first)
    /\ filterValidationAdmissionPolicyReports store1 = Ret (store2, second)
    /\ at_ store2 first = section_of violating (reported ts) reports
    /\ at_ store2 second = section_of passing_vap vap_map reports
    /\ (forall i, i ∈ first -> i ∉ second)
    /\ (forall p r, p ∈ reports -> passing_vap p = true -> r ∈ results_of p -> violates r = false).
Proof.
  intros Hok. set (second p := if passing_vap p then with_results (omap vap_map (results_of p)) p else after_first ts p).
  exists (after_first ts <$> reports), (positions violating 0 reports), (second <$> reports), (positions passing_vap 0 reports).
  split; [|split; [|split; [|split; [|split]]]].
  - rewrite <-(list_fmap_id reports) at 1. apply (over_store_ok _ id).
    eapply Forall_impl; [exact Hok|]. intros p Hp. by apply report_violations_ok.
  - apply (over_store_ok _ (after_first ts)). eapply Forall_impl; [exact Hok|]. intros p Hp. by apply report_vap_ok.
  - refine (eq_trans (at_positions violating second [] reports) _). unfold section_of. apply list_fmap_ext. intros i p Hp.
    apply list_elem_of_lookup_2, list_elem_of_In, filter_In in Hp as [_ Hv]. unfold second, passing_vap, after_first. by rewrite Hv.
  - refine (eq_trans (at_positions passing_vap second [] reports) _). unfold section_of. apply list_fmap_ext. intros i p Hp.
    apply list_elem_of_lookup_2, list_elem_of_In, filter_In in Hp as [_ Hv]. unfold second. by rewrite Hv.
  - intros i (p & _ & Hp & Hv)%elem_of_positions (q & _ & Hq & Hk)%elem_of_positions. rewrite Hp in Hq. injection Hq as <-.
    unfold passing_vap in Hk. by rewrite Hv in Hk.
  - intros p r _ [Hv _]%andb_true_iff Hr. apply negb_true_iff in Hv. destruct (violates r) eqn:E; [|done].
    rewrite <-Hv. symmetry. apply existsb_exists. exists r. split; [by apply list_elem_of_In|done].
Qed.

(** A report whose results are not there stops the program. *)
Lemma missing_results_panic ts p metadata :
  p !! "metadata" = Some (Decoded (VMap metadata)) -> p !! "results" = None ->
  report_violations ts p = Panic /\ report_vap p = Panic.
Proof.
  intros Hm Hr. unfold report_violations, report_vap. rewrite drop_managed_eq by by rewrite Hm. cbn [mbind go_bind].
  by rewrite trimmed_other, Hr.
Qed.

(** ** Titles *)

Section facts.
Context {W : Type} `{KC : !KyvernoCluster W} `{GS : !GoSort} (GetName : object -> string).

(** A run that succeeds has renamed the whole report to its place. *)
Lemma kyverno_main_publishes `{FS : !Files W} Rename Marshal (w w' : W) :
  runs (main GetName Rename Marshal) w w' (Ok tt) ->
  exists w1 w2 r text, runs (collect_response GetName) w w1 (Ok r) /\ Marshal r = Ok text
    /\ WriteFile "/output/kyverno-temp.json" text w1 = (w2, None)
    /\ Rename "/output/kyverno-temp.json" "/output/kyverno.json" w2 = (w', None).
Proof.
  unfold main, fatal, check. intros (w1 & [r|e] & H1 & H)%runs_bind; [|by apply runs_ret in H as [_ ?]].
  apply runs_bind in H as (w2 & [text|e] & [-> E]%runs_ret & H); [|by apply runs_ret in H as [_ ?]].
  apply runs_bind in H as (w3 & r3 & (w4 & o & Hw%runs_effect & Hr)%runs_bind & H).
  apply runs_ret in Hr as [-> ->]. destruct o as [e|]; [by apply runs_ret in H as [_ ?]|].
  apply runs_bind in H as (w5 & r5 & (w6 & o & Hw2%runs_effect & Hr)%runs_bind & H).
  apply runs_ret in Hr as [-> ->]. destruct o as [e|]; apply runs_ret in H as [-> ?]; [done|]. by exists w1, w4, r, text.
Qed.

(** The titles are those of the annotations of the objects, the last of a name; for the reports the
    names are those of the reports. *)
Lemma titles_of_names l ts ts' name t :
  titles_of GetName l ts = Ret ts' -> ts' !! name = Some t -> ts !! name = Some t \/ name ∈ GetName <$> l.
Proof.
  revert ts. induction l as [|p l IH]; intros ts; [intros [= <-]; by left|]. cbn [titles_of].
  intros (ts1 & Hstep & Hrest)%go_bind_ret Hn. destruct (IH ts1 Hrest Hn) as [Hl|Hl]; [|right; by right].
  unfold title_step in Hstep. apply go_bind_ret in Hstep as (metadata & _ & Hstep).
  destruct (metadata !! "annotations") as [a|]; [|injection Hstep as <-; by left].
  apply go_bind_ret in Hstep as (annotations & _ & (title & _ & (description & _ & [= <-])%go_bind_ret)%go_bind_ret).
  destruct (decide (GetName p = name)) as [<-|Hne]; [right; by left|].
  rewrite lookup_insert_ne in Hl by done. by left.
Qed.

(** A result of a policy that no report is named after gets no title. *)
Lemma report_titles_miss reports ts m policy :
  titles_of GetName reports ∅ = Ret ts -> policy ∉ GetName <$> reports -> add_title ts policy m = m.
Proof.
  intros H Hn. unfold add_title. destruct (ts !! policy) as [t|] eqn:E; [|done].
  destruct (titles_of_names _ _ _ _ _ H E) as [Hl|Hl]; [by rewrite lookup_empty in Hl|done].
Qed.
End facts.

(** ** Concrete reports *)
Module Witness.

Definition result (policy outcome source : string) : value :=
  VMap {["policy" := VString policy; "result" := VString outcome; "source" := VString source]}.

Definition a_report (name : string) (results : list value) : object :=
  {["metadata" := Decoded (VMap {["name" := VString name; "managedFields" := VArray []]}); "results" := Decoded (VArray results)]}.

Definition reports : list object :=
  [a_report "a" [result "labels" "pass" "kyverno"; result "replicas" "fail" "ValidatingAdmissionPolicy"];
   a_report "b" [result "replicas" "pass" "ValidatingAdmissionPolicy"; result "labels" "skip" "kyverno"];
   a_report "c" [result "labels" "pass" "kyverno"]].

Lemma reports_ok : Forall report_ok reports.
Proof.
  repeat (apply Forall_cons; split); [..|constructor]; split; try (eexists; reflexivity); eexists; (split; [reflexivity|]);
    repeat (apply Forall_cons; split); try constructor; eexists _, _; (split; [reflexivity|]); (split; [reflexivity|]);
    intros ?; try discriminate; eexists; reflexivity.
Qed.

(** The failing result of a validating admission policy is in the first section only. *)
Lemma policy_reports_shared_out_witness :
  exists store1 first store2 second,
    filterViolations reports {["replicas" := ("Replicas", "At most three")]} = Ret (store1, first)
    /\ filterValidationAdmissionPolicyReports store1 = Ret (store2, second)
    /\ first = [0%nat] /\ second = [1%nat].
Proof.
  destruct (policy_reports_shared_out {["replicas" := ("Replicas", "At most three")]} reports reports_ok)
    as (store1 & first & store2 & second & H1 & H2 & _).
  exists store1, first, store2, second. split; [exact H1|]. split; [exact H2|].
  assert (match filterViolations reports {["replicas" := ("Replicas", "At most three")]} with
          | Ret (s, l) => match filterValidationAdmissionPolicyReports s with
                          | Ret (_, k) => bool_decide (l = [0%nat] /\ k = [1%nat])
                          | Panic => false
                          end
          | Panic => false
          end = true) as H by (vm_compute; reflexivity).
  rewrite H1, H2 in H. exact (proj1 (bool_decide_eq_true _) H).
Defined.

(** Versions of images; a port is taken for one. *)
Example versions :
  extractVersionFromImage "ghcr.io/kyverno/kyverno:v1.18.0@sha256:abc" = "v1.18.0"
  /\ extractVersionFromImage "reg.kyverno.io/kyverno/kyverno" = ""
  /\ extractVersionFromImage "registry:5000/kyverno/kyverno" = "5000/kyverno/kyverno".
Proof. by vm_compute. Qed.
End Witness.
