(* ===== verification/FalcoAgent.v ===== *)
(** * falco-agent: collecting the alerts of Falco

    [falco-agent/pkg/]: a server that keeps every alert it is sent in a file, with the
    controller of its pod, and answers with those of the last 24 hours. *)

From stdpp Require Import base decidable list gmap strings sets.
From Stdlib Require Import ZArith Lia Ascii.
From S2P Require Import Prelude GoStrings GoText GoValues GoFiles.
Import GoTime.

Local Open Scope Z_scope.

(** ** Names of files ([util/util.go]) *)

(** [strings.SplitN(s, sep, 2)]. *)
Definition SplitN2 (s : string) (c : ascii) : string * option string :=
  match Cut s c with
  | Some (a, b) => (a, Some b)
  | None => (s, None)
  end.

Definition incrementString (s : string) (first : Z) : string :=
  if decide (s = "") then s
  else
    let '(nameWithoutExtension, ext) := SplitN2 s "." in
    let extension := match ext with Some e => "." +:+ e | None => "" end in
    let separator := "_" in
    let first := if (first =? 0) || (first <? 0) then 1 else first in
    match SplitN2 nameWithoutExtension "_" with
    | (name, Some number) =>
        match ParseInt number with
        | ParsedOk i => name +:+ separator +:+ fmt_d (GoInt.i64 (i + first)) +:+ extension
        | _ => ""
        end
    | (_, None) => nameWithoutExtension +:+ separator +:+ fmt_d first +:+ extension
    end.

(** The loop; [None] is a run out of fuel. *)
Fixpoint unique_loop (fuel : nat) (exists_ : string -> bool) (i : Z) (uniqueFilename : string) : option string :=
  match fuel with
  | O => None
  | S fuel' =>
      if exists_ uniqueFilename then unique_loop fuel' exists_ (i + 1) (incrementString uniqueFilename i)
      else Some uniqueFilename
  end.

Definition UniqueFilename (fuel : nat) (exists_ : string -> bool) (f : string) : option string :=
  if decide (f = "") then Some f else unique_loop fuel exists_ 0 f.

(** ** Data ([data/types.go]) *)

Record FalcoOutput : Type := {
  PodName : string;
  fo_Container : string;
  ControllerNamespace : string;
  ControllerName : string;
  ControllerKind : string;
  UUID : string;
  Output : string;
  Priority : Z;
  Rule : string;
  fo_Time : Z;
  OutputFields : nilmap value
}.

(** ** Files

    A directory lists names with the bits of their type.  [Stat] is the time of the last change. *)
Class FalcoFiles (W : Type) := {
  ReadDir : string -> W -> result string (list (string * Z));
  StatFile : string -> W -> result string Z;
  ReadFile : string -> W -> result string string;
  WriteFile : string -> string -> W -> W * option string;
  Remove : string -> W -> W * option string;
  Now : W -> Z
}.

(** JSON of alerts. *)
Class FalcoJSON := {
  Unmarshal : string -> result string FalcoOutput;
  Marshal : FalcoOutput -> result string string;
  MarshalOutput : list FalcoOutput -> result string string
}.

(** The bits of [io/fs]. *)
Definition ModeDir : Z := Z.shiftl 1 31.
Definition ModeSymlink : Z := Z.shiftl 1 27.
Definition ModeDevice : Z := Z.shiftl 1 26.
Definition ModeNamedPipe : Z := Z.shiftl 1 25.
Definition ModeSocket : Z := Z.shiftl 1 24.
Definition ModeCharDevice : Z := Z.shiftl 1 21.
Definition ModeIrregular : Z := Z.shiftl 1 19.
Definition ModeType : Z :=
  Z.lor ModeDir (Z.lor ModeSymlink (Z.lor ModeNamedPipe (Z.lor ModeSocket (Z.lor ModeDevice (Z.lor ModeCharDevice ModeIrregular))))).
Definition Perm (mode : Z) : Z := Z.land mode 511.
Definition IsRegular (mode : Z) : bool := Z.land mode ModeType =? 0.

Section files.
Context {W : Type} `{FF : !FalcoFiles W} `{FJ : !FalcoJSON}.

(** ** The last 24 hours ([data/data.go]) *)

Definition isLessThan24hrs (now t : Z) : bool := Sub now t <? 24 * Hour.

Definition deleteOlderFile (filePath : string) : io W (option string) := effect (Remove filePath).

Definition readDataFromFile (fileName : string) (w : W) : result string FalcoOutput :=
  data ← ReadFile fileName w;
  Unmarshal data.

(** [err] is the named result, which every step of the loop assigns. *)
Fixpoint aggregate_loop (dir : string) (entries : list (string * Z)) (data : list FalcoOutput) (err : option string)
    : io W (list FalcoOutput * option string) :=
  match entries with
  | [] => mret (data, err)
  | (name, mode) :: entries' =>
      if IsRegular (Perm mode) then
        let filename := PathJoin dir name in
        stat ← asks (StatFile filename);
        match stat with
        | Err e => mret (data, Some e)
        | Ok modTime =>
            now ← asks Now;
            if isLessThan24hrs now modTime then
              output ← asks (readDataFromFile filename);
              match output with
              | Err e => aggregate_loop dir entries' data (Some e)
              | Ok output => aggregate_loop dir entries' (data ++ [output]) None
              end
            else
              e ← deleteOlderFile filename;
              match e with
              | Some e => mret (data, Some e)
              | None => aggregate_loop dir entries' data None
              end
        end
      else aggregate_loop dir entries' data err
  end.

Definition Aggregate24hrsData (dir : string) : io W (list FalcoOutput * option string) :=
  tmpfiles ← asks (ReadDir dir);
  match tmpfiles with
  | Err e => mret ([], Some e)
  | Ok tmpfiles => aggregate_loop dir tmpfiles [] None
  end.

(** ** The handlers ([routes.go]) *)

Definition outputfolder : string := "/output".

Record answer : Type := { code : Z; body : string }.

Definition StatusOK : Z := 200.
Definition StatusInternalServerError : Z := 500.

(** [http.Error] ends the text with a line break. *)
Definition Error (e : string) : answer := {| code := StatusInternalServerError; body := e +:+ str [byte 10] |}.

Definition outputDataHandler : io W answer :=
  '(payload, err) ← Aggregate24hrsData outputfolder;
  match err with
  | Some e => mret (Error e)
  | None =>
      match MarshalOutput payload with
      | Err e => mret (Error e)
      | Ok data => mret {| code := StatusOK; body := data |}
      end
  end.

(** A field that is not nil must be a text. *)
Definition field_text (fields : nilmap value) (key : string) : go string :=
  if not_nil (map_get fields key) then deref (to_string (map_get fields key)) else mret "".

(** The last container whose image begins with the repository. *)
Definition container_of (repository : string) (containers : list (string * string)) (c : string) : string :=
  foldl (fun c ctn => if HasPrefix ctn.2 repository then ctn.1 else c) c containers.

Context {U : Type}.

(** The cluster: the mapping of pods, a pod, name and kind of its top controller, and name and
    image of its containers. *)
Class FalcoCluster := {
  PodMapping : W -> W * result string string;
  GetPod : string -> string -> string -> W -> W * result string U;
  GetTopController : U -> W -> W * result string (string * string);
  PodContainers : U -> result string (list (string * string))
}.
Context `{FC : !FalcoCluster}.

Definition GetPodByPodName (namespace podname : string) : io W (result string U) :=
  mapping ← effect PodMapping;
  match mapping with
  | Err e => mret (Err e)
  | Ok mapping => effect (GetPod mapping namespace podname)
  end.

(** The alert with what is found of its pod. *)
Definition with_pod (o : FalcoOutput) (namespace podName : string) (controller : string * string) (container : string) : FalcoOutput :=
  {| PodName := podName; fo_Container := container; ControllerNamespace := namespace; ControllerName := controller.1;
     ControllerKind := controller.2; UUID := UUID o; Output := Output o; Priority := Priority o; Rule := Rule o;
     fo_Time := fo_Time o; OutputFields := OutputFields o |}.

Definition file_exists (w : W) (name : string) : bool := match StatFile name w with Ok _ => true | Err _ => false end.

(** Keeping an alert: [None] is a run out of fuel in the search for a name. *)
Definition store_alert (fuel : nat) (o : FalcoOutput) : io W (option answer) :=
  match Marshal o with
  | Err e => mret (Some (Error e))
  | Ok payload =>
      now ← asks Now;
      filename ← asks (fun w => UniqueFilename fuel (file_exists w) (fmt_d now +:+ ".json"));
      match filename with
      | None => mret None
      | Some filename =>
          err ← effect (WriteFile (PathJoin outputfolder filename) payload);
          mret (Some (match err with
                      | Some e => Error e
                      | None => {| code := StatusOK; body := "{" +:+ Quote "status" +:+ ": " +:+ Quote "ok" +:+ "}" |}
                      end))
      end
  end.

(** [request] is the body of the request, or the error of reading it. *)
Definition inputDataHandler (fuel : nat) (request : result string string) : io W (option answer) :=
  match request with
  | Err e => mret (Some (Error e))
  | Ok request =>
      match Unmarshal request with
      | Err e => mret (Some (Error e))
      | Ok o =>
          namespace ← pure_go (field_text (OutputFields o) "k8s.ns.name");
          podName ← pure_go (field_text (OutputFields o) "k8s.pod.name");
          repository ← pure_go (field_text (OutputFields o) "container.image.repository");
          if decide (namespace = "" \/ podName = "") then mret (Some (Error "Failed to get namespace or podName"))
          else
            pod ← GetPodByPodName namespace podName;
            match pod with
            | Err e => mret (Some (Error e))
            | Ok pod =>
                controller ← effect (GetTopController pod);
                match controller with
                | Err e => mret (Some (Error e))
                | Ok controller =>
                    match PodContainers pod with
                    | Err e => mret (Some (Error e))
                    | Ok containers =>
                        store_alert fuel (with_pod o namespace podName controller
                                            (container_of repository containers (fo_Container o)))
                    end
                end
            end
      end
  end.
End files.

(** ** A name that is not taken *)

Lemma SplitN2_sep a c b : c ∉ chars a -> SplitN2 (a +:+ String c b) c = (a, Some b).
Proof. intros H. unfold SplitN2. by rewrite Cut_split. Qed.

Lemma SplitN2_none a c : c ∉ chars a -> SplitN2 a c = (a, None).
Proof. intros H. unfold SplitN2, Cut. by rewrite Index_none. Qed.

Lemma digits_value_ge acc ds : (0 <= acc) -> Forall (fun d => 0 <= d <= 9) ds -> acc <= foldl (fun acc d => acc * 10 + d) acc ds.
Proof.
  intros Ha H. revert acc Ha. induction H as [|d ds Hd _ IH]; intros acc Ha; simpl; [lia|].
  specialize (IH (acc * 10 + d) ltac:(lia)). lia.
Qed.

Lemma parse_uint_digits cs ds acc :
  Forall2 is_digit cs ds -> 0 <= acc -> foldl (fun acc d => acc * 10 + d) acc ds <= 2 ^ 64 - 1 ->
  parse_uint_aux acc cs = ParsedOk (foldl (fun acc d => acc * 10 + d) acc ds).
Proof.
  intros H. revert acc. induction H as [|c d cs ds Hc H IH]; intros acc Ha Hb; [done|]. cbn [parse_uint_aux foldl] in *.
  rewrite Hc. pose proof (digit_value_range _ _ Hc) as Hd.
  assert (Forall (fun d => 0 <= d <= 9) ds) as Hds.
  { clear -H. induction H as [|c d cs ds Hc _ IH]; constructor; [by apply digit_value_range in Hc|done]. }
  pose proof (digits_value_ge (acc * 10 + d) ds ltac:(lia) Hds).
  destruct (2 ^ 64 - 1 <? acc * 10 + d) eqn:E; [lia|]. apply IH; lia.
Qed.

(** Printing a number and reading it back. *)
Lemma ParseInt_fmt_d z : 0 <= z < 2 ^ 63 -> ParseInt (fmt_d z) = ParsedOk z.
Proof.
  intros Hz. destruct (fmt_d_digits z ltac:(lia)) as (cs & ds & Hc & Hd & Hv & Hne).
  assert (ParseUint cs = ParsedOk z) as Hp.
  { destruct cs as [|c cs]; [done|]. unfold ParseUint. rewrite (parse_uint_digits _ ds 0 Hd); [|lia|].
    - by rewrite <-Hv.
    - change (digits_value ds <= 2 ^ 64 - 1). rewrite Hv. lia. }
  assert (forall c l d, is_digit c d -> ParseUint (c :: l) = ParsedOk z -> ParseInt (str (c :: l)) = ParsedOk z) as Hgo.
  { clear -Hz. intros c l d Hcd Hp. pose proof (is_digit_code _ _ Hcd) as Hcode. clear Hcd. unfold ParseInt. rewrite chars_str.
    destruct c as [b0 b1 b2 b3 b4 b5 b6 b7].
    destruct b0, b1, b2, b3, b4, b5, b6, b7; try (exfalso; vm_compute in Hcode; lia); cbv iota beta; rewrite Hp;
      cbn [negb andb]; destruct (2 ^ 63 <=? z) eqn:E; (lia || done). }
  rewrite <-(str_chars (fmt_d z)), Hc. destruct Hd as [|c d cs ds Hcd _]; [done|]. by apply (Hgo c cs d).
Qed.

Lemma fmt_d_inj x y : 0 <= x < 2 ^ 63 -> 0 <= y < 2 ^ 63 -> fmt_d x = fmt_d y -> x = y.
Proof. intros Hx Hy E. pose proof (ParseInt_fmt_d x Hx) as Hp. rewrite E, ParseInt_fmt_d in Hp by done. congruence. Qed.

(** The names that are tried for a time: the suffixes are 1, 2, 4, 7, ... *)
Fixpoint suffix (n : nat) : Z :=
  match n with
  | O => 1
  | S n' => suffix n' + Z.of_nat n
  end.

Definition candidate (t : Z) (n : nat) : string :=
  match n with
  | O => fmt_d t +:+ ".json"
  | S n' => (fmt_d t +:+ "_" +:+ fmt_d (suffix n')) +:+ ".json"
  end.

Lemma suffix_bounds n : Z.of_nat n < suffix n /\ suffix n <= 1 + Z.of_nat n * Z.of_nat n.
Proof. induction n as [|n IH]; [simpl; lia|]. cbn [suffix]. nia. Qed.

Lemma suffix_mono n m : (n < m)%nat -> suffix n < suffix m.
Proof. induction 1 as [|m _ IH]; cbn [suffix]; lia. Qed.

Lemma fmt_d_no_dot z : 0 <= z -> "."%char ∉ chars (fmt_d z).
Proof. intros H. by apply fmt_d_not_in. Qed.

Lemma fmt_d_no_underscore z : 0 <= z -> "_"%char ∉ chars (fmt_d z).
Proof. intros H. by apply fmt_d_not_in. Qed.

Lemma fmt_d_nonempty z : 0 <= z -> fmt_d z <> "".
Proof. intros H E. destruct (fmt_d_digits z H) as (cs & ds & Hc & _ & _ & Hne). rewrite E in Hc. by subst. Qed.

Lemma append_nonempty (s t : string) : s <> "" -> s +:+ t <> "".
Proof. by destruct s. Qed.

Lemma incrementString_candidate t n :
  0 <= t -> Z.of_nat n < 2 ^ 31 -> incrementString (candidate t n) (Z.of_nat n) = candidate t (S n).
Proof.
  intros Ht Hn. unfold incrementString. destruct n as [|n].
  - rewrite decide_False by (by apply append_nonempty, fmt_d_nonempty). unfold candidate at 1.
    change ".json" with (String "." "json") at 1. rewrite SplitN2_sep by by apply fmt_d_no_dot.
    rewrite SplitN2_none by by apply fmt_d_no_underscore. cbn -[fmt_d String.append].
    apply chars_inj. rewrite !chars_app. by rewrite <-!app_assoc.
  - pose proof (suffix_bounds n) as Hs. assert (0 <= suffix n <= 2 ^ 62 + 1) as Hr by nia.
    rewrite decide_False by (by apply append_nonempty, append_nonempty, fmt_d_nonempty). unfold candidate at 1.
    change ".json" with (String "." "json") at 1. rewrite SplitN2_sep.
    + change ("_" +:+ fmt_d (suffix n)) with (String "_" (fmt_d (suffix n))).
      rewrite SplitN2_sep by by apply fmt_d_no_underscore. rewrite ParseInt_fmt_d by lia.
      rewrite (proj2 (Z.eqb_neq _ _)), (proj2 (Z.ltb_ge _ _)) by lia. cbn [orb].
      rewrite GoInt.i64_id by (unfold GoInt.in_i64; lia). unfold candidate. cbn [suffix].
      apply chars_inj. rewrite !chars_app. by rewrite <-!app_assoc.
    + rewrite chars_app, elem_of_app. intros [H|H]; [by apply fmt_d_no_dot in H|].
      rewrite chars_app, elem_of_app in H. destruct H as [H|H]; [by apply list_elem_of_singleton in H|].
      apply fmt_d_no_dot in H; [done|lia].
Qed.

Lemma candidate_inj t n m :
  0 <= t -> Z.of_nat n < 2 ^ 31 -> Z.of_nat m < 2 ^ 31 -> candidate t n = candidate t m -> n = m.
Proof.
  intros Ht Hn Hm. assert (forall k, candidate t 0 <> candidate t (S k)) as H0.
  { intros k E. apply (f_equal chars) in E. unfold candidate in E. rewrite !chars_app, <-!app_assoc in E. apply app_inv_head in E.
    done. }
  destruct n as [|n], m as [|m]; [done|by intros ?%H0|by intros E; destruct (H0 n)|]. intros E. f_equal.
  apply (f_equal chars) in E. unfold candidate in E. rewrite !chars_app, <-!app_assoc in E.
  apply app_inv_head, app_inv_head, app_inv_tail, chars_inj in E. pose proof (suffix_bounds n). pose proof (suffix_bounds m).
  apply fmt_d_inj in E; [|nia..]. destruct (Nat.lt_total n m) as [Hl|[Hl|Hl]]; [|done|]; apply suffix_mono in Hl; lia.
Qed.

(** The first that is not taken, if one of those before [b] is not. *)
Lemma first_free (e : string -> bool) t b :
  (exists n, (n < b)%nat /\ e (candidate t n) = false) ->
  exists n, (n < b)%nat /\ e (candidate t n) = false /\ forall m, (m < n)%nat -> e (candidate t m) = true.
Proof.
  induction b as [|b IH]; intros (n & Hn & He); [lia|]. destruct (decide (n = b)) as [->|Hne].
  - destruct (decide (Exists (fun k => e (candidate t k) = false) (seq 0 b))) as [Hk|Hk].
    + apply Exists_exists in Hk as (k & Hk%elem_of_seq & Hek). destruct IH as (i & Hib & Hi); [exists k; split; [lia|done]|].
      exists i. split; [lia|done].
    + exists b. split; [lia|]. split; [done|]. intros m Hm. destruct (e (candidate t m)) eqn:E; [done|]. destruct Hk.
      apply Exists_exists. exists m. split; [apply elem_of_seq; lia|done].
  - destruct IH as (k & Hkb & Hk1 & Hk2); [exists n; split; [lia|done]|]. exists k. split; [lia|done].
Qed.

Lemma unique_loop_finds (e : string -> bool) t n fuel j :
  0 <= t -> Z.of_nat n < 2 ^ 31 -> (j <= n)%nat -> (n - j < fuel)%nat -> e (candidate t n) = false ->
  (forall m, (j <= m < n)%nat -> e (candidate t m) = true) ->
  unique_loop fuel e (Z.of_nat j) (candidate t j) = Some (candidate t n).
Proof.
  intros Ht Hn Hj Hf He Hm. revert j Hj Hf Hm. induction fuel as [|fuel IH]; intros j Hj Hf Hm; [lia|]. cbn [unique_loop].
  destruct (decide (j = n)) as [->|Hne]; [by rewrite He|]. rewrite Hm by lia.
  rewrite incrementString_candidate by lia. replace (Z.of_nat j + 1) with (Z.of_nat (S j)) by lia.
  apply IH; [lia|lia|]. intros m ?. apply Hm. lia.
Qed.

(** With finitely many names taken one of the first candidates is not. *)
Lemma some_free (files : gset string) t :
  0 <= t -> Z.of_nat (size files) < 2 ^ 31 -> exists n, (n < S (size files))%nat /\ candidate t n ∉ files.
Proof.
  intros Ht Hs. destruct (decide (Exists (fun n => candidate t n ∉ files) (seq 0 (S (size files))))) as [H|H].
  - apply Exists_exists in H as (n & Hn & Hf). apply elem_of_seq in Hn. exists n. split; [lia|done].
  - exfalso. set (l := candidate t <$> seq 0 (S (size files))).
    assert (NoDup l) as Hnd.
    { apply NoDup_fmap_2_strong; [|apply NoDup_seq]. intros x y Hx Hy Hxy. apply elem_of_seq in Hx, Hy.
      apply (candidate_inj t); [done|lia|lia|done]. }
    assert (size (list_to_set l : gset string) <= size files)%nat as Hle.
    { apply subseteq_size. intros x Hx. apply elem_of_list_to_set, list_elem_of_fmap in Hx as (n & -> & Hn).
      destruct (decide (candidate t n ∈ files)); [done|]. destruct H. apply Exists_exists. by exists n. }
    rewrite size_list_to_set in Hle by done. unfold l in Hle. rewrite length_fmap, length_seq in Hle. lia.
Qed.

(** C34. The search for the name of an alert ends, after at most as many steps as there are files, and gives the first of
    the candidates, the time alone and then with the suffixes 1, 2, 4, 7, ..., that no file has. *)
Theorem UniqueFilename_fresh (files : gset string) (t : Z) (fuel : nat) :
  0 <= t -> Z.of_nat (size files) < 2 ^ 31 -> (size files < fuel)%nat ->
  exists n, UniqueFilename fuel (fun x => bool_decide (x ∈ files)) (fmt_d t +:+ ".json") = Some (candidate t n)
  /\ (n <= size files)%nat /\ candidate t n ∉ files /\ forall m, (m < n)%nat -> candidate t m ∈ files.
Proof.
  intros Ht Hs Hf. destruct (first_free (fun x => bool_decide (x ∈ files)) t (S (size files))) as (n & Hn & He & Hm).
  { destruct (some_free files t Ht Hs) as (n & ? & ?). exists n. split; [done|]. by apply bool_decide_eq_false. }
  exists n. split; [|split; [lia|]; split; [by apply bool_decide_eq_false in He|]; intros m ?%Hm; by eapply bool_decide_eq_true].
  unfold UniqueFilename. rewrite decide_False by (by apply append_nonempty, fmt_d_nonempty).
  apply (unique_loop_finds _ t n fuel 0); [done|lia|lia|lia|done|]. intros m Hmn. apply Hm. lia.
Qed.

(** ** The report *)

(** The permission bits never say that an entry is something else than a file, such as a directory. *)
Lemma Perm_regular mode : IsRegular (Perm mode) = true.
Proof. unfold IsRegular, Perm. rewrite <-Z.land_assoc. change (Z.land 511 ModeType) with 0. by rewrite Z.land_0_r. Qed.

Definition ok_value {A} (r : result string A) : option A := match r with Ok a => Some a | Err _ => None end.
Definition err_value {A} (r : result string A) : option string := match r with Ok _ => None | Err e => Some e end.

Section report.
Context {W : Type} `{FF : !FalcoFiles W} `{FJ : !FalcoJSON}.

Definition recent (dir : string) (w : W) (e : string * Z) : Prop :=
  exists t, StatFile (PathJoin dir e.1) w = Ok t /\ isLessThan24hrs (Now w) t = true.

Definition alert_of (dir : string) (w : W) (e : string * Z) : result string FalcoOutput := readDataFromFile (PathJoin dir e.1) w.

(** The error of a loop over recent files is that of the last one. *)
Lemma aggregate_recent dir (w : W) entries data err :
  Forall (recent dir w) entries ->
  runs (aggregate_loop dir entries data err) w w
    (data ++ omap (fun e => ok_value (alert_of dir w e)) entries,
     match last entries with Some e => err_value (alert_of dir w e) | None => err end).
Proof.
  intros H. revert data err. induction H as [|[name mode] l (t & Hs & Hr) H IH]; intros data err.
  - cbn. rewrite app_nil_r. by apply runs_ret.
  - cbn [aggregate_loop]. rewrite Perm_regular. apply runs_bind. exists w, (Ok t). split; [by apply runs_asks|]. cbn iota.
    apply runs_bind. exists w, (Now w). split; [by apply runs_asks|]. rewrite Hr. apply runs_bind.
    exists w, (alert_of dir w (name, mode)). split; [by apply runs_asks|].
    change (readDataFromFile (PathJoin dir name) w) with (alert_of dir w (name, mode)).
    rewrite last_cons. cbn [omap list_omap]. destruct (alert_of dir w (name, mode)) as [o|e] eqn:E; cbn [ok_value].
    + specialize (IH (data ++ [o]) None). rewrite <-app_assoc in IH. destruct (last l); [|rewrite E]; exact IH.
    + specialize (IH data (Some e)). destruct (last l); [|rewrite E]; exact IH.
Qed.

(** C35. When every file in the folder is of the last 24 hours, the answer is made of exactly the alerts that can be read,
    in the order of the folder, unless the last file cannot be: then it is the error of that file, and nothing of the
    others is reported. *)
Theorem report_of_recent_files (w : W) entries :
  ReadDir outputfolder w = Ok entries -> Forall (recent outputfolder w) entries ->
  let alerts := omap (fun e => ok_value (alert_of outputfolder w e)) entries in
  runs outputDataHandler w w
    (match last entries ≫= fun e => err_value (alert_of outputfolder w e) with
     | Some e => Error e
     | None => match MarshalOutput alerts with
               | Ok data => {| code := StatusOK; body := data |}
               | Err e => Error e
               end
     end).
Proof.
  intros Hd Hr alerts. unfold outputDataHandler. apply runs_bind.
  exists w, (alerts, last entries ≫= fun e => err_value (alert_of outputfolder w e)). split.
  - unfold Aggregate24hrsData. apply runs_bind. exists w, (Ok entries). split; [by apply runs_asks|].
    apply (aggregate_recent _ _ _ [] None) in Hr. cbn iota. by destruct (last entries).
  - destruct (last entries ≫= _) as [e|]; [by apply runs_ret|]. by destruct (MarshalOutput alerts); apply runs_ret.
Qed.

(** A file older than that is removed, and one that cannot be ends the report. *)
Lemma old_file_removed dir (w : W) name mode entries data err t :
  StatFile (PathJoin dir name) w = Ok t -> isLessThan24hrs (Now w) t = false ->
  aggregate_loop dir ((name, mode) :: entries) data err w
  = match Remove (PathJoin dir name) w with
    | (w', None) => aggregate_loop dir entries data None w'
    | (w', Some e) => Ret (w', (data, Some e))
    end.
Proof.
  intros Hs Ht. cbn [aggregate_loop]. rewrite Perm_regular. unfold mbind, io_bind, asks, deleteOlderFile, effect. rewrite Hs, Ht.
  destruct (Remove (PathJoin dir name) w) as [w' [e|]]; done.
Qed.

(** Names are looked up in the working directory and files written to the output folder: without a file of
    that name here, one of that name there is written over. *)
Lemma alert_overwrites `{FC : !FalcoCluster (W := W) (U := U)} fuel (w w' : W) (o : FalcoOutput) payload err :
  Marshal o = Ok payload -> file_exists w (fmt_d (Now w) +:+ ".json") = false -> 0 <= Now w -> (0 < fuel)%nat ->
  WriteFile (PathJoin outputfolder (fmt_d (Now w) +:+ ".json")) payload w = (w', err) ->
  exists a, runs (store_alert fuel o) w w' (Some a).
Proof.
  intros Hm He Hn Hf Hw. unfold store_alert. rewrite Hm. eexists.
  apply runs_bind. exists w, (Now w). split; [by apply runs_asks|]. apply runs_bind.
  exists w, (Some (fmt_d (Now w) +:+ ".json")). split.
  - apply runs_asks. split; [done|]. unfold UniqueFilename. rewrite decide_False by (by apply append_nonempty, fmt_d_nonempty).
    destruct fuel; [lia|]. cbn [unique_loop]. by rewrite He.
  - apply runs_bind. exists w', err. split; [by apply runs_effect|]. by apply runs_ret.
Qed.
End report.

(** ** Concrete files *)
Module Witness.

Definition taken : gset string := list_to_set ["5.json"; "5_1.json"; "5_2.json"].

Lemma UniqueFilename_fresh_witness :
  exists n, UniqueFilename 4 (fun x => bool_decide (x ∈ taken)) "5.json" = Some (candidate 5 n) /\ candidate 5 n ∉ taken
  /\ candidate 5 n = "5_4.json".
Proof.
  destruct (UniqueFilename_fresh taken 5 4) as (n & Hu & _ & Hf & _); [lia|vm_compute; done|vm_compute; lia|].
  exists n. split; [exact Hu|]. split; [exact Hf|].
  assert (UniqueFilename 4 (fun x => bool_decide (x ∈ taken)) "5.json" = Some "5_4.json") as H by (vm_compute; reflexivity).
  change (fmt_d 5 +:+ ".json") with "5.json" in Hu. rewrite H in Hu. by injection Hu as <-.
Defined.

(** A name that ends in no number after an underscore becomes the empty one. *)
Example increments :
  incrementString "5" 0 = "5_1" /\ incrementString "a_3.tar.gz" 2 = "a_5.tar.gz" /\ incrementString "a_b.json" 0 = "".
Proof. by vm_compute. Qed.

Definition alert (name : string) : FalcoOutput :=
  {| PodName := name; fo_Container := ""; ControllerNamespace := ""; ControllerName := ""; ControllerKind := ""; UUID := "";
     Output := ""; Priority := 0; Rule := ""; fo_Time := 0; OutputFields := None |}.

(** An alert, and after it in the folder a directory, which cannot be read as one. *)
#[local] Instance two_files : FalcoFiles unit := {|
  ReadDir := fun _ _ => Ok [("1.json", 0); ("old", ModeDir)];
  StatFile := fun _ _ => Ok 0;
  ReadFile := fun name _ => if decide (name = "/output/1.json") then Ok "alert" else Err ("read " +:+ name +:+ ": is a directory");
  WriteFile := fun _ _ w => (w, None);
  Remove := fun _ w => (w, None);
  Now := fun _ => Hour
|}.
#[local] Instance names : FalcoJSON := {|
  Unmarshal := fun s => Ok (alert s);
  Marshal := fun o => Ok (PodName o);
  MarshalOutput := fun l => Ok (Join (PodName <$> l) ",")
|}.

(** A directory that sorts last hides the alert. *)
Lemma report_of_recent_files_witness :
  exists a, runs outputDataHandler tt tt a /\ code a = StatusInternalServerError
  /\ body a = "read /output/old: is a directory" +:+ str [byte 10].
Proof.
  eexists. split.
  - apply (report_of_recent_files tt [("1.json", 0); ("old", ModeDir)]); [reflexivity|].
    repeat (apply Forall_cons; split); try constructor; (exists 0; split; [reflexivity|vm_compute; reflexivity]).
  - split; vm_compute; reflexivity.
Defined.
End Witness.
