(* ===== verification/NodeReports.v ===== *)
(** * kube-bench, its aggregator, and rbac-reporter

    [kube-bench/pkg/main.go] runs the checks of a node, [kube-bench-aggregator/pkg/main.go]
    collects those of all nodes, and [rbac-reporter/pkg/] lists roles and bindings. *)

From stdpp Require Import base decidable list gmap strings.
From Stdlib Require Import ZArith Lia Ascii.
From S2P Require Import Prelude GoStrings GoText GoValues GoFiles.
Import GoTime.

Local Open Scope Z_scope.

(** ** Controls by node

    A control is a value of the library; only its identifier is used. *)

Definition policiesID : string := "5".

Record kubeBenchModel {C : Type} : Type := { Name : string; Controls : list C }.
Arguments kubeBenchModel : clear implicits.

Section kube_bench.
Context {C W : Type} (ID : C -> string) `{FS : !Files W} (Rename : string -> string -> W -> W * option string).

(** The identifier, with the name of the node but for the policies, which belong to no node. *)
Definition control_key (name : string) (control : C) : string :=
  if decide (ID control <> policiesID) then name +:+ "/" +:+ ID control else ID control.

Definition add_controls (model : kubeBenchModel C) (data : gmap string C) : gmap string C :=
  foldl (fun data control => <[control_key (Name model) control := control]> data) data (Controls model).

Definition outputFile : string := "/output/kube-bench.json".
Definition outputTempFile : string := "/output/kube-bench-temp.json".

Context (MarshalIndent : gmap string C -> result string string).

(** A call whose error panics. *)
Definition must {A} (r : result string A) : go A := match r with Ok a => Ret a | Err _ => Panic end.
Definition must_do (f : W -> W * option string) : io W unit :=
  err ← effect f;
  match err with Some _ => pure_go Panic | None => mret tt end.

Definition write_output (data : gmap string C) : io W unit :=
  outputBytes ← pure_go (must (MarshalIndent data));
  _ ← must_do (WriteFile outputTempFile outputBytes);
  must_do (Rename outputTempFile outputFile).

(** ** kube-bench

    [cmd_Output] runs the command; a decoder gives the next object of a text, the end of it or an error. *)
Inductive decoded (D : Type) : Type := Object (controls : list C) (rest : D) | EOF | DecodeError (e : string).
Arguments Object {D}. Arguments EOF {D}. Arguments DecodeError {D}.

Context {D : Type} (NewDecoder : string -> D) (Decode : D -> decoded D) (cmd_Output : W -> W * result string string).

(** The objects of the output; [None] is a run out of fuel, an error is fatal. *)
Fixpoint decode_all (fuel : nat) (decoder : D) (allControls : list C) : option (result string (list C)) :=
  match fuel with
  | O => None
  | S fuel' =>
      match Decode decoder with
      | EOF => Some (Ok allControls)
      | DecodeError e => Some (Err e)
      | Object controls rest => decode_all fuel' rest (allControls ++ controls)
      end
  end.

(** What is served until the next update; a failure ends the program. *)
Definition updateModel (fuel : nat) (model : kubeBenchModel C) : io W (option (result string (kubeBenchModel C))) :=
  response ← effect cmd_Output;
  mret (match response with
        | Err e => Some (Err e)
        | Ok response =>
            match decode_all fuel (NewDecoder response) [] with
            | None => None
            | Some (Err e) => Some (Err e)
            | Some (Ok allControls) => Some (Ok {| Name := Name model; Controls := allControls |})
            end
        end).

(** The number of hours between updates; [NewTicker] panics unless the duration is positive. *)
Definition interval (s : string) : result string Z :=
  if decide (s = "") then Ok 2
  else match ParseInt s with
       | ParsedOk n => Ok n
       | _ => Err s
       end.

Definition NewTicker (intervalHours : Z) : go Z :=
  let d := GoInt.i64 (intervalHours * Hour) in
  if 0 <? d then Ret d else Panic.

(** With RUN_ONCE the file is written; else [None] of the inner option: the server runs. *)
Definition main_kube_bench (fuel : nat) (Getenv : string -> string) : io W (option (result string (option Z))) :=
  let model := {| Name := Getenv "NODE_NAME"; Controls := [] |} in
  match interval (Getenv "INTERVAL_HOURS") with
  | Err e => mret (Some (Err e))
  | Ok intervalHours =>
      if decide (ToLower (Getenv "RUN_ONCE") = "true") then
        model ← updateModel fuel model;
        match model with
        | None => mret None
        | Some (Err e) => mret (Some (Err e))
        | Some (Ok model) => _ ← write_output (add_controls model ∅); mret (Some (Ok None))
        end
      else ticker ← pure_go (NewTicker intervalHours); mret (Some (Ok (Some ticker)))
  end.

(** ** The aggregator: every error panics *)

Context (LookupHost : string -> W -> W * result string (list string)).
Context (HttpGet : string -> W -> W * result string (result string string)).
Context (Unmarshal : string -> result string (kubeBenchModel C)).

(** The status of an answer is not looked at. *)
Definition fetch_node (address : string) (data : gmap string C) : io W (gmap string C) :=
  response ← effect (HttpGet ("http://" +:+ address +:+ ":8080"));
  response ← pure_go (must response);
  body ← pure_go (must response);
  responseData ← pure_go (must (Unmarshal body));
  mret (add_controls responseData data).

Definition main_aggregator (daemonsetName : string) : io W unit :=
  if decide (daemonsetName = "") then pure_go Panic
  else
    addresses ← effect (LookupHost daemonsetName);
    addresses ← pure_go (must addresses);
    data ← for_each fetch_node addresses ∅;
    write_output data.

(** ** Lemmas *)

(** The controls of a node with one key: the last counts. *)
Definition last_with_key (model : kubeBenchModel C) (k : string) : option C :=
  last (List.filter (fun c => bool_decide (control_key (Name model) c = k)) (Controls model)).

Lemma add_controls_lookup model data k :
  add_controls model data !! k = match last_with_key model k with Some c => Some c | None => data !! k end.
Proof.
  unfold add_controls, last_with_key. induction (Controls model) as [|c l IH] using rev_ind; [done|].
  rewrite foldl_app, List.filter_app. simpl. case_bool_decide as E.
  - subst k. by rewrite lookup_insert_eq, last_snoc.
  - by rewrite lookup_insert_ne, app_nil_r.
Qed.

(** What a node writes for itself is added to what there is. *)
Lemma add_controls_union model data : add_controls model data = add_controls model ∅ ∪ data.
Proof.
  apply map_eq. intros k. rewrite lookup_union, !add_controls_lookup, lookup_empty.
  by destruct (last_with_key model k), (data !! k).
Qed.

(** What the nodes answered. *)
Inductive answered : W -> list string -> list (kubeBenchModel C) -> W -> Prop :=
| answered_nil w : answered w [] [] w
| answered_cons w w1 w2 address addresses body model models :
    HttpGet ("http://" +:+ address +:+ ":8080") w = (w1, Ok (Ok body)) -> Unmarshal body = Ok model ->
    answered w1 addresses models w2 -> answered w (address :: addresses) (model :: models) w2.

Lemma fetch_all addresses (w w' : W) data data' :
  runs (for_each fetch_node addresses data) w w' data' <->
  exists models, answered w addresses models w' /\ data' = foldl (fun data model => add_controls model ∅ ∪ data) data models.
Proof.
  revert w data. induction addresses as [|address l IH]; intros w data; cbn [for_each].
  - rewrite runs_ret. split; [intros [-> ->]; exists []; split; [constructor|done]|].
    intros (models & Ha & ->). inversion Ha. by subst.
  - rewrite runs_bind. split.
    + intros (w1 & d1 & H1 & H2). apply IH in H2 as (models & Ha & ->). unfold fetch_node in H1.
      apply runs_bind in H1 as (w2 & r & Hg%runs_effect & H1). apply runs_bind in H1 as (w3 & r1 & [-> Er]%runs_pure & H1).
      apply runs_bind in H1 as (w4 & body & [-> Eb]%runs_pure & H1). apply runs_bind in H1 as (w5 & model & [-> Em]%runs_pure & H1).
      apply runs_ret in H1 as [-> ->]. destruct r as [r|]; [|done]. injection Er as ->. destruct r1 as [b|]; [|done]. injection Eb as ->.
      destruct (Unmarshal body) as [m|] eqn:Eu; [|done]. injection Em as ->. exists (model :: models). split; [by econstructor|].
      cbn [foldl]. by rewrite <-add_controls_union.
    + intros (models & Ha & ->). inversion Ha as [|? w1 ? ? ? body model ms Hg Hu Hrest]; subst.
      exists w1, (add_controls model data). split.
      * unfold fetch_node. apply runs_bind. exists w1, (Ok (Ok body)). split; [by apply runs_effect|].
        apply runs_bind. exists w1, (Ok body). split; [by apply runs_pure|]. apply runs_bind. exists w1, body.
        split; [by apply runs_pure|]. apply runs_bind. exists w1, model. split; [|by apply runs_ret]. apply runs_pure. by rewrite Hu.
      * apply IH. exists ms. split; [done|]. cbn [foldl]. by rewrite <-add_controls_union.
Qed.

Lemma must_do_runs f (w w' : W) x : runs (must_do f) w w' x <-> f w = (w', None).
Proof.
  unfold must_do. rewrite runs_bind. split.
  - intros (w1 & [e|] & Hf%runs_effect & H); [by apply runs_pure in H as [_ ?]|]. by apply runs_ret in H as [-> _].
  - intros Hf. exists w', None. split; [by apply runs_effect|]. apply runs_ret. by destruct x.
Qed.

Lemma write_output_runs data (w w' : W) x :
  runs (write_output data) w w' x <->
  exists w1 text, MarshalIndent data = Ok text /\ WriteFile outputTempFile text w = (w1, None)
                  /\ Rename outputTempFile outputFile w1 = (w', None).
Proof.
  unfold write_output. rewrite runs_bind. split.
  - intros (w0 & text & [-> Et]%runs_pure & (w1 & [] & Hw%must_do_runs & Hr%must_do_runs)%runs_bind).
    destruct (MarshalIndent data) as [t|]; [|done]. injection Et as ->. by exists w1, text.
  - intros (w1 & text & Et & Hw & Hr). exists w, text. split; [apply runs_pure; by rewrite Et|].
    apply runs_bind. exists w1, tt. split; by apply must_do_runs.
Qed.


(** Nodes of different names, without a slash, never share a key. *)
Lemma node_keys_apart n m c d :
  "/"%char ∉ chars n -> "/"%char ∉ chars m -> ID c <> policiesID -> ID d <> policiesID ->
  control_key n c = control_key m d -> n = m.
Proof.
  intros Hn Hm Hc Hd. unfold control_key. rewrite !decide_True by done. intros E.
  change (n +:+ String "/" (ID c) = m +:+ String "/" (ID d)) in E.
  pose proof (Cut_split n "/" (ID c) Hn) as E1. rewrite E, (Cut_split m "/" (ID d) Hm) in E1. congruence.
Qed.

(** Zero or less hours panic, after the name and the interval were read. *)
Lemma zero_hours_panic : NewTicker 0 = Panic.
Proof. done. Qed.
End kube_bench.

(** ** rbac-reporter *)

Record RBACReport {Role Binding ClusterRole ClusterBinding : Type} : Type := {
  ServerVersion : string;
  CreationTime : Z;
  Roles : list Role;
  RoleBindings : list Binding;
  ClusterRoles : list ClusterRole;
  ClusterRoleBindings : list ClusterBinding
}.
Arguments RBACReport : clear implicits.

Section rbac.
Context {W Role Binding ClusterRole ClusterBinding : Type}.

(** Every list gives items, also with an error. *)
Context (list_cluster_bindings : W -> W * (list ClusterBinding * option string)) (list_cluster_roles : W -> W * (list ClusterRole * option string)).
Context (list_bindings : W -> W * (list Binding * option string)) (list_roles : W -> W * (list Role * option string)).

(** The version is a pointer, nil with an error. *)
Context (server_version : W -> W * result string (string * string)) (Now : W -> Z).

(** [err] is assigned by every call and returned with what the last one left. *)
Definition CreateResourceProviderFromAPI : io W (RBACReport Role Binding ClusterRole ClusterBinding * option string) :=
  version ← effect server_version;
  cluster_bindings ← effect list_cluster_bindings;
  cluster_roles ← effect list_cluster_roles;
  bindings ← effect list_bindings;
  roles ← effect list_roles;
  version ← pure_go (must version);
  now ← asks Now;
  mret ({| ServerVersion := version.1 +:+ "." +:+ version.2; CreationTime := now; Roles := roles.1; RoleBindings := bindings.1;
           ClusterRoles := cluster_roles.1; ClusterRoleBindings := cluster_bindings.1 |}, roles.2).

Context `{FS : !Files W} (Rename : string -> string -> W -> W * option string).
Context (MarshalIndent : RBACReport Role Binding ClusterRole ClusterBinding -> result string string).

Definition rbac_tempFile : string := "/output/rbac-reporter-temp.json".

Definition main_rbac (auditOutputFile : string) : io W (result string unit) :=
  '(resources, err) ← CreateResourceProviderFromAPI;
  match err with
  | Some e => mret (Err ("Error fetching Kubernetes resources " +:+ e))
  | None =>
      match MarshalIndent resources with
      | Err e => mret (Err ("Error marshalling audit: " +:+ e))
      | Ok outputBytes =>
          if decide (auditOutputFile = "") then mret (Ok tt)
          else
            err ← effect (WriteFile rbac_tempFile outputBytes);
            match err with
            | Some e => mret (Err ("Error writing output to file: " +:+ e))
            | None =>
                err ← effect (Rename rbac_tempFile auditOutputFile);
                mret (match err with Some e => Err ("Error renaming output file: " +:+ e) | None => Ok tt end)
            end
      end
  end.

(** Only the error of the last list stops the report: bindings that cannot be listed are reported as none. *)
Lemma lost_list_errors (w w1 w2 w3 w4 w5 : W) version cb e1 cr e2 b e3 roles e :
  server_version w = (w1, Ok version) -> list_cluster_bindings w1 = (w2, (cb, e1)) -> list_cluster_roles w2 = (w3, (cr, e2)) ->
  list_bindings w3 = (w4, (b, e3)) -> list_roles w4 = (w5, (roles, e)) ->
  exists report, runs CreateResourceProviderFromAPI w w5 (report, e) /\ ClusterRoleBindings report = cb /\ RoleBindings report = b.
Proof.
  intros H1 H2 H3 H4 H5. eexists. split.
  - apply runs_bind. eexists w1, _. split; [by apply runs_effect|]. apply runs_bind. eexists w2, _. split; [by apply runs_effect|].
    apply runs_bind. eexists w3, _. split; [by apply runs_effect|]. apply runs_bind. eexists w4, _. split; [by apply runs_effect|].
    apply runs_bind. eexists w5, _. split; [by apply runs_effect|]. apply runs_bind. eexists w5, _. split; [by apply runs_pure|].
    apply runs_bind. eexists w5, _. split; [by apply runs_asks|]. by apply runs_ret.
  - done.
Qed.

(** Without a version the report panics, after all lists. *)
Lemma missing_version_panics (w : W) : (exists w1 e, server_version w = (w1, Err e)) -> CreateResourceProviderFromAPI w = Panic.
Proof.
  intros (w1 & e & H). unfold CreateResourceProviderFromAPI, mbind, io_bind, effect. rewrite H.
  destruct (list_cluster_bindings w1) as [w2 ?]. destruct (list_cluster_roles w2) as [w3 ?]. destruct (list_bindings w3) as [w4 ?].
  by destruct (list_roles w4).
Qed.
End rbac.
