(* ===== verification/PrometheusProgram.v ===== *)
(** * prometheus: the client and the program

    [prometheus/pkg/data/client.go] and [cmd/prometheus-collector/main.go]: the headers that
    every request to Prometheus carries, and the run from the environment to the file. *)

From stdpp Require Import base decidable list gmap strings.
From Stdlib Require Import ZArith Lia Ascii.
From S2P Require Import Prelude GoStrings GoText GoValues GoNumbers GoFiles PrometheusQueries PrometheusData.

Local Open Scope Z_scope.

(** ** The client *)

Definition TenantHeader : string := "X-Scope-OrgID".

Record clientConfig : Type := { bearerToken : string; tenantID : string }.

Definition ClientOption : Type := clientConfig -> clientConfig.

Definition WithBearerToken (token : string) : ClientOption := fun c => {| bearerToken := token; tenantID := tenantID c |}.
Definition WithTenantID (tenant : string) : ClientOption := fun c => {| bearerToken := bearerToken c; tenantID := tenant |}.

(** A request with its headers, which are set one value each. *)
Record Request : Type := { rq_URL : string; rq_Header : gmap string string }.

Definition Set_ (k v : string) (r : Request) : Request := {| rq_URL := rq_URL r; rq_Header := <[k := v]> (rq_Header r) |}.

Section client.
Context {W Response : Type}.

Definition RoundTripper : Type := Request -> W -> W * result string Response.

(** The request is cloned before the header is set. *)
Definition tenantRoundTripper (tenant : string) (next : RoundTripper) : RoundTripper := fun req => next (Set_ TenantHeader tenant req).

(** The transports of the libraries: both defaults, and the one that adds an authorization to a request without one. *)
Context (DefaultTransport DefaultRoundTripper : RoundTripper).
Context (NewAuthorizationCredentialsRoundTripper : string -> string -> RoundTripper -> RoundTripper).

Definition newTenantRoundTripper (tenant : string) (next : option RoundTripper) : RoundTripper :=
  tenantRoundTripper tenant (default DefaultTransport next).

(** The transport of the client for options. *)
Definition transport (opts : list ClientOption) : RoundTripper :=
  let cfg := foldl (fun c opt => opt c) {| bearerToken := ""; tenantID := "" |} opts in
  let rt := DefaultRoundTripper in
  let rt := if decide (bearerToken cfg <> "") then NewAuthorizationCredentialsRoundTripper "Bearer" (bearerToken cfg) rt else rt in
  if decide (tenantID cfg <> "") then newTenantRoundTripper (tenantID cfg) (Some rt) else rt.

Context {API : Type} (NewClient : string -> RoundTripper -> result string API).

Definition GetClientWithOptions (address : string) (opts : list ClientOption) : result string API :=
  NewClient address (transport opts).

(** ** The program *)

Definition outputFile : string := "/output/prometheus-metrics.json".
Definition outputTempFile : string := "/output/prometheus-metrics-tmp.json".
Definition monitoringReadScope : string := "https://www.googleapis.com/auth/monitoring.read".
Definition monitoringGoogleApis : string := "monitoring.googleapis.com".

Context `{F64 : !Float64} `{FS : !Files W} (Rename : string -> string -> W -> W * option string) (Getenv : string -> string).

(** [logrus.ParseLevel]. *)
Context (ParseLevel : string -> result string unit).

(** The default token source of Google for a scope, and its token. *)
Context (DefaultTokenSource : string -> W -> W * result string (W -> W * result string string)).

Context (getKubeClient : W -> W * result string unit) (claims : W -> result string (list RawPVC)) (workloads : W -> result string (list Workload)).
Context (QueryRange : API -> string -> result string QueryValue) (url_hostname : string -> result string string).
Context (capacityString2Int : string -> result string Z) `{!RangeOrder string CombinedRequest} (Now : W -> Z).
Context (Marshal : list Statistics -> NodesMetrics -> result string string).

(** An error panics. *)
Definition or_panic {A} (r : result string A) : io W A := pure_go (match r with Ok a => Ret a | Err _ => Panic end).
Definition or_panic_do (f : W -> W * option string) : io W unit :=
  err ← effect f;
  or_panic (match err with Some e => Err e | None => Ok tt end).

Definition setLogLevel : io W unit :=
  if decide (Getenv "LOGRUS_LEVEL" <> "") then or_panic (ParseLevel (Getenv "LOGRUS_LEVEL")) else mret tt.

(** The token of the environment, or that of Google for its address. *)
Definition access_token (address : string) : io W string :=
  if Contains address monitoringGoogleApis then
    tokenSource ← effect (DefaultTokenSource monitoringReadScope);
    tokenSource ← or_panic tokenSource;
    token ← effect tokenSource;
    or_panic token
  else mret (Getenv "PROMETHEUS_BEARER_TOKEN").

Definition client_options (accessToken tenant : string) : list ClientOption :=
  (if decide (accessToken <> "") then [WithBearerToken accessToken] else [])
  ++ (if decide (tenant <> "") then [WithTenantID tenant] else []).

Definition skip_non_zero : bool := bool_decide (ToLower (Getenv "SKIP_NON_ZERO_METRICS_CHECK") = "true").

(** The check of the metrics of kube-state-metrics is skipped unless it is asked for. *)
Definition skip_ksm_non_zero : bool :=
  bool_decide (ToLower (Getenv "SKIP_KSM_NON_ZERO_METRICS_CHECK") = "")
  || bool_decide (ToLower (Getenv "SKIP_KSM_NON_ZERO_METRICS_CHECK") = "true").

Definition main : io W unit :=
  _ ← setLogLevel;
  let address := Getenv "PROMETHEUS_ADDRESS" in
  if decide (address = "") then pure_go Panic
  else
    let clusterName := Getenv "CLUSTER_NAME" in
    accessToken ← access_token address;
    client ← or_panic (GetClientWithOptions address (client_options accessToken (Getenv "PROMETHEUS_TENANT_ID")));
    kube ← effect getKubeClient;
    _ ← or_panic kube;
    now ← asks Now;
    cs ← asks claims;
    ws ← asks workloads;
    res ← pure_go (GetMetrics (QueryRange client) url_hostname capacityString2Int now clusterName address
                     skip_non_zero skip_ksm_non_zero cs ws);
    res ← or_panic res;
    stats_now ← asks Now;
    let stats := CalculateStatistics stats_now res in
    nodesMetrics ← pure_go (GetNodesMetrics (QueryRange client) clusterName);
    nodesMetrics ← or_panic nodesMetrics;
    data ← or_panic (Marshal stats nodesMetrics);
    _ ← or_panic_do (WriteFile outputTempFile data);
    or_panic_do (Rename outputTempFile outputFile).

(** ** Lemmas *)

(** What the library documents: an authorization is only added to a request without one. *)
Definition adds_authorization : Prop := forall kind secret next req,
  NewAuthorizationCredentialsRoundTripper kind secret next req
  = next (if decide (default "" (rq_Header req !! "Authorization") = "") then Set_ "Authorization" (kind +:+ " " +:+ secret) req else req).

(** Every request of the program's client carries the tenant and, unless it has one, the authorization,
    each exactly when it is configured. *)
Lemma client_headers token tenant req (w : W) :
  adds_authorization ->
  transport (client_options token tenant) req w
  = DefaultRoundTripper
      (let req := if decide (tenant <> "") then Set_ TenantHeader tenant req else req in
       if decide (token <> "" /\ default "" (rq_Header req !! "Authorization") = "")
       then Set_ "Authorization" ("Bearer " +:+ token) req else req) w.
Proof.
  intros Hauth. unfold transport, client_options.
  destruct (decide (token <> "")), (decide (tenant <> "")); cbn [app foldl WithBearerToken WithTenantID bearerToken tenantID];
    unfold newTenantRoundTripper, tenantRoundTripper; cbn [default]; unfold id; cbv zeta;
    repeat first [progress rewrite Hauth | case_decide; try (done || tauto)].
Qed.

Lemma or_panic_runs {A} (r : result string A) (w w' : W) a : runs (or_panic r) w w' a <-> w' = w /\ r = Ok a.
Proof. unfold or_panic. rewrite runs_pure. destruct r; [|by split; intros [_ ?]]. split; intros [-> E]; by injection E as ->. Qed.

Lemma or_panic_do_runs f (w w' : W) x : runs (or_panic_do f) w w' x -> f w = (w', None).
Proof.
  unfold or_panic_do. intros (w1 & [e|] & H%runs_effect & Hr%or_panic_runs)%runs_bind; [by destruct Hr as [_ ?]|].
  by destruct Hr as [-> _].
Qed.

(** A run that ends has written the statistics of the metrics, whole; everything else panics. *)
Lemma prometheus_main_publishes (w w' : W) :
  runs main w w' tt ->
  exists client now1 now2 cs ws res nodes text w1 w2,
    GetMetrics (QueryRange client) url_hostname capacityString2Int now1 (Getenv "CLUSTER_NAME") (Getenv "PROMETHEUS_ADDRESS")
      skip_non_zero skip_ksm_non_zero cs ws = Ret (Ok res)
    /\ GetNodesMetrics (QueryRange client) (Getenv "CLUSTER_NAME") = Ret (Ok nodes)
    /\ Marshal (CalculateStatistics now2 res) nodes = Ok text
    /\ WriteFile outputTempFile text w1 = (w2, None) /\ Rename outputTempFile outputFile w2 = (w', None).
Proof.
  unfold main. intros (w0 & [] & _ & H)%runs_bind. case_decide; [by apply runs_pure in H as [_ ?]|].
  apply runs_bind in H as (w1 & token & _ & (w2 & client & _ & (w3 & kube & _ & (w4 & [] & _ & H)%runs_bind)%runs_bind)%runs_bind).
  apply runs_bind in H as (w5 & now & [-> ->]%runs_asks & (w6 & cs & [-> ->]%runs_asks & (w7 & ws & [-> ->]%runs_asks & H)%runs_bind)%runs_bind).
  apply runs_bind in H as (w8 & r & [-> Er]%runs_pure & (w9 & res & [-> ->]%or_panic_runs & H)%runs_bind).
  apply runs_bind in H as (w10 & now2 & [-> ->]%runs_asks & (w11 & n & [-> En]%runs_pure & (w12 & nodes & [-> ->]%or_panic_runs & H)%runs_bind)%runs_bind).
  apply runs_bind in H as (w13 & text & [-> Et]%or_panic_runs & (w14 & [] & Hw%or_panic_do_runs & Hr%or_panic_do_runs)%runs_bind).
  eexists client, _, _, _, _, res, nodes, text, _, _. by split_and!.
Qed.
End client.
