(* ===== verification/RealtimeReporter.v ===== *)
(** * realtime-reporter: events of Kubernetes objects, as they happen

    [realtime-reporter/]: informers of the configured resources and namespaces call a handler,
    which audits the object with Polaris and uploads one event for every change. *)

From stdpp Require Import base decidable list gmap strings.
From Stdlib Require Import ZArith Lia Ascii.
From S2P Require Import Prelude GoStrings GoText GoValues GoFiles AdmissionReports.
Import GoTime.

Local Open Scope Z_scope.

(** ** Events ([pkg/event/event.go]) *)

Definition eventVersion : Z := 1.

Record Event : Type := {
  EventVersion : Z;
  Timestamp : Z;
  KubeEvent : string;
  ev_Kind : string;
  ev_Namespace : string;
  Workload : string;
  Data : nilmap value
}.

Definition NewEvent (timestamp : Z) (kubeEvent kind namespace workload : string) (data : nilmap value) : Event :=
  {| EventVersion := eventVersion; Timestamp := timestamp; KubeEvent := kubeEvent; ev_Kind := kind;
     ev_Namespace := namespace; Workload := workload; Data := data |}.

(** ** The settings ([cmd/root.go])

    What the program has told the configuration library so far; its answers are parameters. *)
Record viper : Type := {
  ConfigFile : string;
  automatic_env : bool;
  flags : list string;
  env : list (string * string)
}.

Definition fresh_viper : viper := {| ConfigFile := ""; automatic_env := false; flags := []; env := [] |}.

Definition SetConfigFile (p : string) (v : viper) : viper :=
  {| ConfigFile := p; automatic_env := automatic_env v; flags := flags v; env := env v |}.
Definition AutomaticEnv (v : viper) : viper :=
  {| ConfigFile := ConfigFile v; automatic_env := true; flags := flags v; env := env v |}.
Definition BindPFlag (f : string) (v : viper) : viper :=
  {| ConfigFile := ConfigFile v; automatic_env := automatic_env v; flags := flags v ++ [f]; env := env v |}.
Definition BindEnv (k name : string) (v : viper) : viper :=
  {| ConfigFile := ConfigFile v; automatic_env := automatic_env v; flags := flags v; env := env v ++ [(k, name)] |}.

Section settings.
Context {L : Type} (ParseLevel : string -> result string L) (ReadInConfig : viper -> option string).

(** The level when it is valid, and the settings; an error exits.  The flags are only bound when
    the file could be read, and nothing tells when it could not. *)
Definition PersistentPreRun (configPath logLevel : string) (v : viper) : result string (option L * viper) :=
  let level := match ParseLevel logLevel with Ok l => Some l | Err _ => None end in
  if decide (configPath = "") then Err "config must be set"
  else
    let v := AutomaticEnv (SetConfigFile configPath v) in
    Ok (level,
        match ReadInConfig v with
        | None =>
            BindPFlag "polaris-config" (BindPFlag "polaris-enabled"
              (BindEnv "token" "FAIRWINDS_TOKEN" (BindPFlag "host" (BindPFlag "cluster" (BindPFlag "organization" v)))))
        | Some _ => v
        end).
End settings.

(** ** The client ([pkg/client/client.go]) *)

(** [time.Millisecond]. *)
Definition Millisecond : Z := Second / 1000.

Definition maxTries : Z := 10.
Definition minDelay : Z := 100 * Millisecond.
Definition maxDelay : Z := 30 * Second.
Definition maxJitter : Z := 50 * Millisecond.

(** The error types; every other error is [OtherError]. *)
Inductive upload_error : Type :=
| RetryAfterError (retry_after_header : string)
| SomeOtherError (err : string) (retryAfter : Z)
| OtherError (err : string).

Record request : Type := { rq_url : string; rq_header : list (string * string); rq_body : string }.

Record retry_options : Type := {
  Attempts : Z;
  Delay : Z;
  MaxDelay : Z;
  MaxJitter : Z;
  DelayType : Z -> Z -> upload_error -> Z
}.

Section client.
Context {W : Type}.

(** [http.NewRequest] fails on an address that cannot be parsed; [Do] gives the status of an answer. *)
Context (NewRequest : string -> option string) (Do : request -> W -> W * result string Z).

(** The library of retries, its growing delay, and the reader of Retry-After headers. *)
Context (retry_Do : retry_options -> io W (option upload_error) -> io W (option upload_error)).
Context (BackOffDelay : Z -> upload_error -> Z) (httpretryafter_Parse : string -> option Z).

(** The wait before another try, at [now]. *)
Definition delay_type (now n : Z) (err : upload_error) : Z :=
  match err with
  | RetryAfterError header =>
      match httpretryafter_Parse header with
      | Some t => Sub t now
      | None => BackOffDelay n err
      end
  | SomeOtherError _ retryAfter => retryAfter
  | OtherError _ => BackOffDelay n err
  end.

Context (GetString : string -> string).

Definition api_url (reportType : string) : string :=
  GetString "host" +:+ "/v0/organizations/" +:+ GetString "organization" +:+ "/clusters/" +:+ GetString "cluster"
  +:+ "/data/" +:+ reportType +:+ "/incremental".

Definition event_request (timestamp : Z) (reportType payload : string) : request :=
  {| rq_url := api_url reportType;
     rq_header := [("Content-Type", "application/json"); ("X-Fairwinds-Event-Timestamp", fmt_d timestamp);
                   ("Authorization", "Bearer " +:+ GetString "token")];
     rq_body := payload |}.

(** One try.  The status of the answer is not looked at. *)
Definition upload_once (timestamp : Z) (reportType payload : string) : io W (option upload_error) :=
  match NewRequest (api_url reportType) with
  | Some e => mret (Some (OtherError ("error creating HTTP request: " +:+ e)))
  | None =>
      resp ← effect (Do (event_request timestamp reportType payload));
      mret (match resp with
            | Err e => Some (OtherError e)
            | Ok status => None
            end)
  end.

Definition UploadToInsights (timestamp : Z) (reportType payload : string) : io W (option upload_error) :=
  retry_Do {| Attempts := maxTries; Delay := minDelay; MaxDelay := maxDelay; MaxJitter := maxJitter; DelayType := delay_type |}
    (upload_once timestamp reportType payload).

(** What the library documents: with an attempt left the first success ends the tries, and a success of
    the whole is one of its last try. *)
Class RetryLaws : Prop := {
  retry_first : forall opts f (w w' : W), 0 < Attempts opts -> runs f w w' None -> runs (retry_Do opts f) w w' None;
  retry_success : forall opts f (w w' : W), runs (retry_Do opts f) w w' None -> exists w1, runs f w1 w' None
}.

Lemma upload_once_runs timestamp reportType payload (w w' : W) :
  runs (upload_once timestamp reportType payload) w w' None <->
  NewRequest (api_url reportType) = None /\ exists status, Do (event_request timestamp reportType payload) w = (w', Ok status).
Proof.
  unfold upload_once. destruct (NewRequest _) as [e|]; [rewrite runs_ret; naive_solver|]. rewrite runs_bind. split.
  - intros (w1 & r & Hd%runs_effect & [-> E]%runs_ret). destruct r as [status|]; [|done]. split; [done|by exists status].
  - intros (_ & status & Hd). exists w', (Ok status). split; [by apply runs_effect|by apply runs_ret].
Qed.

(** No try ends with one of the errors that tell when to come back: the wait is always the growing delay. *)
Lemma upload_waits timestamp reportType payload (w w' : W) e now n :
  runs (upload_once timestamp reportType payload) w w' (Some e) -> delay_type now n e = BackOffDelay n e.
Proof.
  unfold upload_once. destruct (NewRequest _) as [e0|]; [intros [_ [= ->]]%runs_ret; done|].
  intros (w1 & r & _ & [_ E]%runs_ret)%runs_bind. destruct r; [done|]. by injection E as ->.
Qed.

(** An answer of any status counts as an upload: an event that the server refuses is not sent again. *)
Lemma refused_event_is_uploaded `{!RetryLaws} timestamp reportType payload (w w' : W) status :
  NewRequest (api_url reportType) = None -> Do (event_request timestamp reportType payload) w = (w', Ok status) ->
  runs (UploadToInsights timestamp reportType payload) w w' None.
Proof. intros Hn Hd. apply retry_first; [done|]. apply upload_once_runs. by eauto. Qed.

Lemma upload_answered `{!RetryLaws} timestamp reportType payload (w w' : W) :
  runs (UploadToInsights timestamp reportType payload) w w' None ->
  exists w1 status, Do (event_request timestamp reportType payload) w1 = (w', Ok status).
Proof. intros (w1 & (_ & status & Hd)%upload_once_runs)%retry_success. by eauto. Qed.
End client.

(** ** Objects and the handlers ([pkg/handlers/], [pkg/polaris/polaris.go])

    What an informer hands over: an object, or, in place of one whose deletion was missed, the
    record of its last known state. *)
Record Unstructured : Type := {
  OwnerReferences : list (string * string);
  Generation : Z;
  u_Kind : string;
  u_Namespace : string;
  u_Name : string;
  u_Object : value
}.

Inductive object : Type :=
| AnObject (u : Unstructured)
| DeletedFinalStateUnknown (key : string) (u : Unstructured).

(** [obj.( *unstructured.Unstructured)]. *)
Definition as_unstructured (obj : object) : go Unstructured :=
  match obj with
  | AnObject u => Ret u
  | DeletedFinalStateUnknown _ _ => Panic
  end.

(** A controller as the name of its resource: API version and kind, with an s. *)
Definition getOwnerReferenceGVKStringPluralized (ownerReference : string * string) : string :=
  ToLower (ownerReference.1 +:+ "/" +:+ ownerReference.2 +:+ "s").

Definition owner_is_watched (resources : list string) (u : Unstructured) : bool :=
  existsb (fun controller => bool_decide (getOwnerReferenceGVKStringPluralized controller ∈ resources)) (OwnerReferences u).

Section polaris.
Context {P R A : Type} (lib : PolarisLib P R A) (MergeConfigAndParseFile : string -> bool -> result string P).
Context (GetString : viper -> string -> string).

(** The configuration is read when the package is loaded: nothing has been set by then.  An error exits. *)
Definition polaris_init : result string P := MergeConfigAndParseFile (GetString fresh_viper "polaris-config") true.

Definition GetPolarisReport (config : P) (manifest : string) : result string ReportInfo :=
  controller ← NewGenericResourceFromBytes lib manifest;
  controllerResult ← ApplyAllSchemaChecks lib config controller;
  contents ← MarshalAudit lib (PolarisOutputVersion lib) [controllerResult];
  mret {| Report := "polaris"; ReportVersion := PolarisOutputVersion lib; Contents := contents |}.

(** A request with a pod is decoded: whether the pod has owners, and the pod as a resource. *)
Definition GetPolarisValidateResults (decode : result string (bool * result string R)) (kind raw : string) (config : P)
    : result string (option A) :=
  let controller :=
    if decide (kind = "Pod") then
      match decode with
      | Err e => Err e
      | Ok (true, _) => Ok None
      | Ok (false, controller) => controller ← controller; mret (Some controller)
      end
    else controller ← NewGenericResourceFromBytes lib raw; mret (Some controller)
  in
  controller ← controller;
  match controller with
  | None => Ok None
  | Some controller => controllerResult ← ApplyAllSchemaChecks lib config controller; mret (Some controllerResult)
  end.

(** Whatever the flag says, Polaris runs with its own configuration. *)
Lemma polaris_flag_unused : (forall k, GetString fresh_viper k = "") -> polaris_init = MergeConfigAndParseFile "" true.
Proof. intros Hs. unfold polaris_init. by rewrite Hs. Qed.
End polaris.

(** JSON of objects, events and maps.  A slice of bytes is written in base64, so that it reads back as that text. *)
Class ReporterJSON := {
  MarshalObject : object -> result string string;
  MarshalEvent : Event -> result string string;
  MarshalMap : gmap string value -> result string string;
  UnmarshalMap : string -> result string (nilmap value)
}.

Section handlers.
Context `{RJ : !ReporterJSON} {W : Type} (Now : W -> Z).

(** The configured resources, the report of a manifest, and the upload of an event. *)
Context (resources : list string) (report_of : string -> result string ReportInfo).
Context (upload : Z -> string -> string -> io W (option upload_error)).

(** The contents only have to be a map, or null. *)
Definition polarisReportInfoToMap (report : ReportInfo) : result string (nilmap value) :=
  _ ← UnmarshalMap (Contents report);
  reportJson ← MarshalMap (<["Report" := VString (Report report)]>
                            (<["Version" := VString (ReportVersion report)]>
                              {["Contents" := VString (EncodeToString (Contents report))]}));
  UnmarshalMap reportJson.

(** What a handler logs as an error. *)
Inductive handler_error : Type := NoObject (e : string) | NoReport (e : string) | NoMap (e : string) | NoEvent (e : string) | NoUpload (e : upload_error).

Definition upload_event (timestamp : Z) (kubeEvent : string) (u : Unstructured) (data : nilmap value) : io W (option handler_error) :=
  match MarshalEvent (NewEvent timestamp kubeEvent (u_Kind u) (u_Namespace u) (u_Name u) data) with
  | Err e => mret (Some (NoEvent e))
  | Ok eventJson =>
      err ← upload timestamp "polaris" eventJson;
      mret (NoUpload <$> err)
  end.

Definition upload_report (timestamp : Z) (kubeEvent : string) (u : Unstructured) (manifest : string) : io W (option handler_error) :=
  match report_of manifest with
  | Err e => mret (Some (NoReport e))
  | Ok report =>
      match polarisReportInfoToMap report with
      | Err e => mret (Some (NoMap e))
      | Ok reportMap => upload_event timestamp kubeEvent u reportMap
      end
  end.

Definition AddFunc (obj : object) : io W (option handler_error) :=
  timestamp ← asks Now;
  match MarshalObject obj with
  | Err e => mret (Some (NoObject e))
  | Ok manifest =>
      u ← pure_go (as_unstructured obj);
      if owner_is_watched resources u then mret None
      else upload_report timestamp "add" u manifest
  end.

Definition UpdateFunc (old new : object) : io W (option handler_error) :=
  timestamp ← asks Now;
  oldObj ← pure_go (as_unstructured old);
  newObj ← pure_go (as_unstructured new);
  if Generation oldObj <? Generation newObj then
    match MarshalObject new with
    | Err e => mret (Some (NoObject e))
    | Ok manifest => upload_report timestamp "update" newObj manifest
    end
  else mret None.

Definition DeleteFunc (obj : object) : io W (option handler_error) :=
  timestamp ← asks Now;
  u ← pure_go (as_unstructured obj);
  upload_event timestamp "delete" u None.

(** What happens to an object. *)
Inductive change : Type := Added (obj : object) | Updated (old new : object) | Deleted (obj : object).

Definition PolarisHandler (c : change) : io W (option handler_error) :=
  match c with
  | Added obj => AddFunc obj
  | Updated old new => UpdateFunc old new
  | Deleted obj => DeleteFunc obj
  end.

(** A handler that only logs. *)
Definition WatchHandler (resourceType : string) (c : change) : string * change * string :=
  (resourceType, c, match c with Added _ => "add event" | Updated _ _ => "update event" | Deleted _ => "delete event" end).

(** *** What is uploaded

    The event that a change calls for: none when a watched controller stands for the object or nothing in its
    specification changed. *)
Definition due (c : change) : option (string * Unstructured * option object) :=
  match c with
  | Added obj =>
      match obj with
      | AnObject u => if owner_is_watched resources u then None else Some ("add", u, Some obj)
      | _ => None
      end
  | Updated (AnObject old) (AnObject new) =>
      if Generation old <? Generation new then Some ("update", new, Some (AnObject new)) else None
  | Deleted (AnObject u) => Some ("delete", u, None)
  | _ => None
  end.

(** Its data: nothing for a deletion, else the report of the object. *)
Definition due_data (obj : option object) : result string (nilmap value) :=
  match obj with
  | None => Ok None
  | Some obj => manifest ← MarshalObject obj; report ← report_of manifest; polarisReportInfoToMap report
  end.

(** An informer hands over records of last states only with deletions. *)
Definition live (c : change) : Prop :=
  match c with
  | Added obj => exists u, obj = AnObject u
  | Updated old new => (exists u, old = AnObject u) /\ exists u, new = AnObject u
  | Deleted obj => exists u, obj = AnObject u
  end.

Lemma upload_event_runs timestamp k u data (w w' : W) :
  runs (upload_event timestamp k u data) w w' None <->
  exists text, MarshalEvent (NewEvent timestamp k (u_Kind u) (u_Namespace u) (u_Name u) data) = Ok text
               /\ runs (upload timestamp "polaris" text) w w' None.
Proof.
  unfold upload_event. destruct (MarshalEvent _) as [text|e]; [|rewrite runs_ret; naive_solver]. rewrite runs_bind. split.
  - intros (w1 & err & H & [-> E]%runs_ret). destruct err; [done|]. by exists text.
  - intros (? & [= <-] & H). exists w', None. split; [done|by apply runs_ret].
Qed.

Lemma upload_report_runs timestamp k u manifest (w w' : W) :
  runs (upload_report timestamp k u manifest) w w' None <->
  exists report data, report_of manifest = Ok report /\ polarisReportInfoToMap report = Ok data
                      /\ runs (upload_event timestamp k u data) w w' None.
Proof.
  unfold upload_report. destruct (report_of manifest) as [report|e].
  - destruct (polarisReportInfoToMap report) as [data|e] eqn:E.
    + split; [intros Hu; by exists report, data|]. intros (? & ? & [= <-] & Ed & Hu). congruence.
    + rewrite runs_ret. split; [by intros [_ ?]|]. intros (? & ? & [= <-] & Ed & _). congruence.
  - rewrite runs_ret. split; [by intros [_ ?]|]. by intros (? & ? & ? & _).
Qed.

Lemma upload_report_due obj manifest timestamp k u (w w' : W) :
  MarshalObject obj = Ok manifest ->
  runs (upload_report timestamp k u manifest) w w' None <->
  exists data text, due_data (Some obj) = Ok data
    /\ MarshalEvent (NewEvent timestamp k (u_Kind u) (u_Namespace u) (u_Name u) data) = Ok text
    /\ runs (upload timestamp "polaris" text) w w' None.
Proof.
  intros Hm. rewrite upload_report_runs. unfold due_data. rewrite Hm. simpl. split.
  - intros (r & data & Hr & Hd & (text & Ht & Hu)%upload_event_runs). exists data, text. by rewrite Hr.
  - intros (data & text & Hd & Ht & Hu). destruct (report_of manifest) as [r|]; [|done]. simpl in Hd.
    exists r, data. split_and!; [done..|]. apply upload_event_runs. by exists text.
Qed.

(** The handler of a live object, after the clock and the type assertions. *)
Lemma PolarisHandler_live c (w : W) :
  live c ->
  PolarisHandler c w
  = match c with
    | Added (AnObject u) =>
        match MarshalObject (AnObject u) with
        | Err e => mret (Some (NoObject e))
        | Ok manifest => if owner_is_watched resources u then mret None else upload_report (Now w) "add" u manifest
        end w
    | Updated (AnObject old) (AnObject new) =>
        (if Generation old <? Generation new then
           match MarshalObject (AnObject new) with
           | Err e => mret (Some (NoObject e))
           | Ok manifest => upload_report (Now w) "update" new manifest
           end
         else mret None) w
    | Deleted (AnObject u) => upload_event (Now w) "delete" u None w
    | _ => Panic
    end.
Proof.
  destruct c as [obj|old new|obj]; simpl; [intros [u ->]|intros [[u ->] [u' ->]]|by intros [u ->]]; [|done].
  unfold AddFunc, mbind, io_bind, asks. by destruct (MarshalObject (AnObject u)).
Qed.

Ltac fold_runs := match goal with |- context [?m ?w = Ret (?w', ?a)] => change (m w = Ret (w', a)) with (runs m w w' a) end.

(** A change of a live object is handled without an error exactly when its event, if one is due, is uploaded; an addition
    must also be a text, even when none is due. *)
Lemma handler_uploads_due c (w w' : W) :
  live c ->
  runs (PolarisHandler c) w w' None <->
  (forall obj, c = Added obj -> exists manifest, MarshalObject obj = Ok manifest) /\
  match due c with
  | None => w' = w
  | Some (k, u, obj) =>
      exists data text, due_data obj = Ok data
        /\ MarshalEvent (NewEvent (Now w) k (u_Kind u) (u_Namespace u) (u_Name u) data) = Ok text
        /\ runs (upload (Now w) "polaris" text) w w' None
  end.
Proof.
  intros Hl. unfold runs at 1. rewrite PolarisHandler_live by done.
  destruct c as [obj|old new|obj]; simpl in Hl; simpl due.
  - destruct Hl as [u ->]. fold_runs. destruct (MarshalObject (AnObject u)) as [manifest|e] eqn:Em.
    + assert (forall obj, Added (AnObject u) = Added obj -> exists manifest, MarshalObject obj = Ok manifest) as Hall
        by (intros ? [= <-]; eauto).
      destruct (owner_is_watched resources u); [rewrite runs_ret|rewrite (upload_report_due (AnObject u)) by done]; tauto.
    + rewrite runs_ret. split; [by intros [_ ?]|]. intros [Ht _]. by destruct (Ht _ eq_refl); congruence.
  - destruct Hl as [[u ->] [u' ->]]. fold_runs. destruct (Generation u <? Generation u').
    + destruct (MarshalObject (AnObject u')) as [manifest|e] eqn:Em.
      * rewrite (upload_report_due (AnObject u')) by done. naive_solver.
      * rewrite runs_ret. unfold due_data. rewrite Em. naive_solver.
    + rewrite runs_ret. naive_solver.
  - destruct Hl as [u ->]. fold_runs. rewrite upload_event_runs. simpl. split.
    + intros (text & Ht & Hu). split; [done|]. by exists None, text.
    + intros (_ & data & text & [= <-] & Ht & Hu). by exists text.
Qed.

(** A deletion that the informer missed is handed over as a record of the last state: the handler panics on it. *)
Lemma missed_deletion_panics key u : forall w : W, PolarisHandler (Deleted (DeletedFinalStateUnknown key u)) w = Panic.
Proof. done. Qed.

(** Only additions are discarded for a watched owner: the deletion of the same object is still uploaded. *)
Lemma owned_deletion_uploaded u : owner_is_watched resources u = true ->
  due (Added (AnObject u)) = None /\ due (Deleted (AnObject u)) = Some ("delete", u, None).
Proof. intros Ho. simpl. by rewrite Ho. Qed.
End handlers.

(** ** Informers ([pkg/watcher/]) *)

Record GroupVersionResource : Type := { Group : string; Version : string; Resource : string }.

#[global] Instance GroupVersionResource_eq_dec : EqDecision GroupVersionResource.
Proof. solve_decision. Defined.

(** [strings.Count] of a character, and [strings.SplitN] for at least one part. *)
Definition Count (s : string) (c : ascii) : Z := lenZ (filter (fun x => x = c) (chars s)).

Fixpoint SplitN (n : nat) (s : string) (c : ascii) : list string :=
  match n with
  | O => []
  | S O => [s]
  | S n' =>
      match Cut s c with
      | Some (a, b) => a :: SplitN n' b c
      | None => [s]
      end
  end.

(** The resource that is named: group, version and resource, or version and resource; without a slash nothing. *)
Definition parse_resource (resource : string) : go GroupVersionResource :=
  if 2 <=? Count resource "/" then
    match SplitN 3 resource "/" with
    | s0 :: s1 :: s2 :: _ => Ret {| Group := s0; Version := s1; Resource := s2 |}
    | _ => Panic
    end
  else if Count resource "/" =? 1 then
    match SplitN 2 resource "/" with
    | s0 :: s1 :: _ => Ret {| Group := ""; Version := s0; Resource := s1 |}
    | _ => Panic
    end
  else Ret {| Group := ""; Version := ""; Resource := "" |}.

Definition getNamespace (ns : string) : string := if decide (ns = "all") then "" else ns.

Definition resyncPeriod : Z := 1 * Minute.

(** An informer is that of a resource in a factory: a factory gives the same one for the same resource. *)
Abbreviation informer := (nat * GroupVersionResource)%type.

(** The namespaces of the factories, in order. *)
Record multiResourceInformer : Type := {
  resourceToGVR : gmap string GroupVersionResource;
  resourceToInformer : gmap string (gmap string informer);
  informerFactory : list string
}.

Section informers.
Context (ResourcesFor : GroupVersionResource -> option string).

(** [ResourcesFor] is asked whether the cluster has the resource. *)
Definition getGVRFromResource (resource : string) : go (result string GroupVersionResource) :=
  gvr ← parse_resource resource;
  mret (match ResourcesFor gvr with
        | Some e => Err e
        | None => Ok gvr
        end).

Fixpoint find_resources (l : list string) (resources : gmap string GroupVersionResource)
    : go (result string (gmap string GroupVersionResource)) :=
  match l with
  | [] => mret (Ok resources)
  | r :: l' =>
      gvr ← getGVRFromResource r;
      match gvr with
      | Err e => mret (Err e)
      | Ok gvr => find_resources l' (<[r := gvr]> resources)
      end
  end.

Context `{!RangeOrder string GroupVersionResource}.

(** The informers of a namespace, from the factory with number [i]. *)
Definition add_informers (resources : gmap string GroupVersionResource) (i : nat) (ns : string)
    (informers : gmap string (gmap string informer)) : gmap string (gmap string informer) :=
  foldl (fun informers '(r, gvr) => <[ns := <[r := (i, gvr)]> (default ∅ (informers !! ns))]> informers)
    informers (range_map resources).

Fixpoint add_namespaces (resources : gmap string GroupVersionResource) (namespaces : list string) (i : nat)
    (informers : gmap string (gmap string informer)) : gmap string (gmap string informer) :=
  match namespaces with
  | [] => informers
  | ns :: l => add_namespaces resources l (S i) (add_informers resources i ns informers)
  end.

Definition NewMultiResourceInformer (resources namespaces : list string) : go (result string multiResourceInformer) :=
  gvrs ← find_resources resources ∅;
  mret (match gvrs with
        | Err e => Err e
        | Ok gvrs =>
            Ok {| resourceToGVR := gvrs; resourceToInformer := add_namespaces gvrs namespaces 0 ∅;
                  informerFactory := getNamespace <$> namespaces |}
        end).

Context `{!RangeOrder string (gmap string informer)} `{!RangeOrder string informer}.

(** The informers, with the name of their resource, in the order of the two loops. *)
Definition all_informers (i : multiResourceInformer) : list (string * informer) :=
  '(ns, ki) ← range_map (resourceToInformer i); range_map ki.

(** The registrations that are made: informer and resource type of the handler. *)
Definition AddEventHandler (i : multiResourceInformer) : list (informer * string) :=
  (fun '(kind, informer) => (informer, kind)) <$> all_informers i.

Definition HasSynced (synced : informer -> bool) (i : multiResourceInformer) : bool :=
  forallb (fun '(_, informer) => synced informer) (all_informers i).

(** The factories that are started, by their number. *)
Definition Start (i : multiResourceInformer) : list nat := seq 0 (length (informerFactory i)).

(** *** Which informers there are *)

Lemma filter_eq_absent (c : ascii) l : c ∉ l -> filter (fun x => x = c) l = [].
Proof.
  intros Hc. destruct (filter _ l) as [|x k] eqn:E; [done|]. exfalso.
  assert (x ∈ filter (fun x => x = c) l) as Hx by (rewrite E; by left). by apply list_elem_of_filter in Hx as [-> ?].
Qed.

Lemma Count_cut s c : 0 < Count s c -> exists a b, Cut s c = Some (a, b) /\ s = a +:+ String c b /\ Count b c = Count s c - 1.
Proof.
  intros Hc. destruct (decide (c ∈ chars s)) as [Hin|Hn].
  - apply list_elem_of_split_l in Hin as (l1 & l2 & E & Hl1).
    assert (s = str l1 +:+ String c (str l2)) as Es.
    { rewrite <-(str_chars s), E, <-(str_chars (str l1 +:+ String c (str l2))), chars_app, !chars_str. f_equal. f_equal.
      change (chars (String c (str l2))) with (c :: chars (str l2)). by rewrite chars_str. }
    exists (str l1), (str l2). split_and!; [rewrite Es; apply Cut_split; by rewrite chars_str|done|].
    unfold Count, lenZ. rewrite chars_str, E, filter_app, (filter_eq_absent c l1), filter_cons_True by done. cbn [app length]. lia.
  - unfold Count in Hc. by rewrite filter_eq_absent in Hc.
Qed.

Lemma Count_none s c : Count s c = 0 -> c ∉ chars s.
Proof.
  intros Hc Hin. apply list_elem_of_split in Hin as (l1 & l2 & E). unfold Count, lenZ in Hc.
  rewrite E, filter_app, filter_cons_True, length_app in Hc by done. cbn [length] in Hc. lia.
Qed.

Lemma Count_nonneg s c : 0 <= Count s c.
Proof. unfold Count, lenZ. lia. Qed.

(** The name of a resource, in the form in which the configuration has it. *)
Definition resource_name (gvr : GroupVersionResource) : string :=
  if decide (Group gvr = "") then Version gvr +:+ "/" +:+ Resource gvr
  else Group gvr +:+ "/" +:+ Version gvr +:+ "/" +:+ Resource gvr.

(** Reading a name never panics, and a name with a slash reads as its parts: what follows the second slash is
    all resource. *)
Lemma parse_resource_total resource : exists gvr, parse_resource resource = Ret gvr.
Proof.
  unfold parse_resource. destruct (2 <=? Count resource "/") eqn:E2.
  - destruct (Count_cut resource "/") as (a & b & Ha & _ & Hb); [lia|]. destruct (Count_cut b "/") as (a' & b' & Ha' & _); [lia|].
    cbn [SplitN]. rewrite Ha, Ha'. by eexists.
  - destruct (Count resource "/" =? 1) eqn:E1; [|by eexists]. destruct (Count_cut resource "/") as (a & b & Ha & _); [lia|].
    cbn [SplitN]. rewrite Ha. by eexists.
Qed.

Lemma Count_app s c t d : c ∉ chars s -> Count (s +:+ String d t) c = (if decide (d = c) then 1 else 0) + Count t c.
Proof.
  intros Hs. unfold Count, lenZ. rewrite chars_app, filter_app, (filter_eq_absent c (chars s)) by done.
  change (chars (String d t)) with (d :: chars t). rewrite filter_cons. case_decide; cbn [app length]; lia.
Qed.

(** Names and resources: reading what was written gives the resource. *)
Lemma parse_resource_name gvr :
  "/"%char ∉ chars (Group gvr) -> "/"%char ∉ chars (Version gvr) -> (Group gvr = "" -> "/"%char ∉ chars (Resource gvr)) ->
  parse_resource (resource_name gvr) = Ret gvr.
Proof.
  destruct gvr as [g v r]. unfold resource_name, parse_resource. cbn [Group Version Resource]. intros Hg Hv Hr. case_decide as E.
  - subst g. change (v +:+ "/" +:+ r) with (v +:+ String "/" r). rewrite Count_app, decide_True by done.
    assert (Count r "/" = 0) as -> by (unfold Count; rewrite filter_eq_absent by auto; done). cbn -[SplitN].
    cbn [SplitN]. by rewrite Cut_split.
  - change (g +:+ "/" +:+ v +:+ "/" +:+ r) with (g +:+ String "/" (v +:+ String "/" r)).
    rewrite !Count_app, decide_True by done. pose proof (Count_nonneg r "/"). rewrite (proj2 (Z.leb_le _ _)) by lia.
    cbn [SplitN]. by rewrite !Cut_split.
Qed.

(** The resources are found or the first that the cluster does not have is an error. *)
Lemma find_resources_total l m : exists r, find_resources l m = Ret r.
Proof.
  revert m. induction l as [|r l IH]; intros m; cbn [find_resources]; [by eexists|]. unfold getGVRFromResource.
  destruct (parse_resource_total r) as [gvr ->]. cbn. destruct (ResourcesFor gvr); [by eexists|apply IH].
Qed.

Lemma find_resources_ok l m m' :
  find_resources l m = Ret (Ok m') ->
  forall r, m' !! r = if decide (r ∈ l) then match parse_resource r with Ret gvr => Some gvr | Panic => None end else m !! r.
Proof.
  revert m. induction l as [|r0 l IH]; intros m; cbn [find_resources]; [by intros [= <-] r|]. unfold getGVRFromResource.
  destruct (parse_resource r0) as [gvr|] eqn:Ep; [|done]. cbn. destruct (ResourcesFor gvr); [done|]. intros Hf r.
  rewrite (IH _ Hf r). destruct (decide (r = r0)) as [->|Hne].
  - rewrite lookup_insert_eq, (decide_True (P := r0 ∈ r0 :: l)) by by left. rewrite Ep. by case_decide.
  - rewrite lookup_insert_ne by done. repeat case_decide; set_solver.
Qed.

(** A namespace of the list has the informers of its last factory, for all resources. *)
Lemma add_informers_lookup resources i ns m n :
  default ∅ (add_informers resources i ns m !! n)
  = if decide (n = ns) then (pair i <$> resources) ∪ default ∅ (m !! n) else default ∅ (m !! n).
Proof.
  unfold add_informers.
  assert (forall l, NoDup l.*1 ->
    default ∅ (foldl (fun informers '(r, gvr) => <[ns := <[r := (i, gvr)]> (default ∅ (informers !! ns))]> informers) m l !! n)
    = if decide (n = ns) then (pair i <$> list_to_map l) ∪ default ∅ (m !! n) else default ∅ (m !! n)) as Hl.
  { intros l. induction l as [|[r gvr] l IH] using rev_ind; intros Hnd.
    - simpl. case_decide; [|done]. by rewrite fmap_empty, (left_id_L ∅ (∪)).
    - rewrite foldl_app. cbn [foldl]. rewrite fmap_app in Hnd. apply NoDup_app in Hnd as (Hnd & Hr & _).
      specialize (IH Hnd). case_decide as E.
      + subst n. rewrite lookup_insert_eq, IH. cbn [default from_option]. unfold id at 1. apply map_eq. intros k.
        rewrite lookup_insert, !lookup_union, !lookup_fmap, list_to_map_app, lookup_union. cbn [list_to_map foldr]. simpl.
        destruct (decide (r = k)) as [->|Hne].
        * rewrite lookup_insert_eq, (not_elem_of_list_to_map_1 l k); [simpl; by destruct (default ∅ (m !! ns) !! k)|].
          intros Hk. apply (Hr k Hk). by left.
        * rewrite lookup_insert_ne, lookup_empty by done. by rewrite (right_id_L None _).
      + by rewrite lookup_insert_ne. }
  rewrite Hl.
  - by rewrite (list_to_map_proper _ (map_to_list resources)), list_to_map_to_list
      by first [apply range_map_perm | rewrite range_map_perm; apply NoDup_fst_map_to_list].
  - rewrite range_map_perm. apply NoDup_fst_map_to_list.
Qed.

(** The factory of a namespace that counts: that of its last place in the list. *)
Fixpoint last_factory (namespaces : list string) (i : nat) (ns : string) : option nat :=
  match namespaces with
  | [] => None
  | ns' :: l =>
      match last_factory l (S i) ns with
      | Some j => Some j
      | None => if decide (ns = ns') then Some i else None
      end
  end.

Lemma add_namespaces_lookup resources l i m ns r gvr :
  resources !! r = Some gvr ->
  default ∅ (add_namespaces resources l i m !! ns) !! r
  = match last_factory l i ns with
    | Some j => Some (j, gvr)
    | None => default ∅ (m !! ns) !! r
    end.
Proof.
  intros Hr. revert i m. induction l as [|ns' l IH]; intros i m; [done|]. cbn [add_namespaces last_factory]. rewrite IH.
  destruct (last_factory l (S i) ns); [done|]. rewrite add_informers_lookup. case_decide; [|done].
  rewrite lookup_union, lookup_fmap, Hr. simpl. by destruct (default ∅ (m !! ns) !! r).
Qed.

Lemma add_namespaces_absent resources l i m ns r :
  resources !! r = None -> default ∅ (m !! ns) !! r = None -> default ∅ (add_namespaces resources l i m !! ns) !! r = None.
Proof.
  intros Hr. revert i m. induction l as [|ns' l IH]; intros i m Hm; [done|]. apply IH. rewrite add_informers_lookup.
  case_decide; [|done]. by rewrite lookup_union, lookup_fmap, Hr, Hm.
Qed.

Lemma all_informers_elem i kind inf :
  (kind, inf) ∈ all_informers i <-> exists ns, default ∅ (resourceToInformer i !! ns) !! kind = Some inf.
Proof.
  unfold all_informers. rewrite list_elem_of_bind. split.
  - intros ([ns ki] & Hk & Hn). rewrite range_map_perm in Hn. rewrite range_map_perm in Hk.
    apply elem_of_map_to_list in Hn, Hk. exists ns. by rewrite Hn.
  - intros [ns Hk]. destruct (resourceToInformer i !! ns) as [ki|] eqn:En; [|by simpl in Hk; rewrite lookup_empty in Hk].
    exists (ns, ki). rewrite !range_map_perm. split; by apply elem_of_map_to_list.
Qed.

(** The informers that get a handler: for each configured resource that of each namespace, from the last factory of the
    namespace.  A namespace that is listed twice has an earlier factory, which is started as well and handled by nobody. *)
Lemma handlers_registered resources namespaces m inf kind :
  NewMultiResourceInformer resources namespaces = Ret (Ok m) ->
  (inf, kind) ∈ AddEventHandler m <->
  kind ∈ resources /\ exists ns gvr j, parse_resource kind = Ret gvr /\ last_factory namespaces 0 ns = Some j /\ inf = (j, gvr).
Proof.
  unfold NewMultiResourceInformer. destruct (find_resources_total resources ∅) as [[gvrs|e] Ef]; rewrite Ef; [|done].
  intros [= <-]. pose proof (find_resources_ok _ _ _ Ef kind) as Hk. unfold AddEventHandler. rewrite list_elem_of_fmap. split.
  - intros ([kind' inf'] & [= -> ->] & [ns Hn]%all_informers_elem). cbn [resourceToInformer] in Hn.
    destruct (gvrs !! kind') as [gvr|] eqn:Eg; [|by rewrite add_namespaces_absent in Hn by (done || by rewrite lookup_empty)].
    rewrite (add_namespaces_lookup _ _ _ _ _ _ gvr Eg) in Hn. destruct (last_factory namespaces 0 ns) as [j|] eqn:El; [|done].
    injection Hn as <-. case_decide; [|done]. split; [done|]. exists ns, gvr, j. by destruct (parse_resource kind'); simplify_eq.
  - intros (Hin & ns & gvr & j & Hp & Hl & ->). exists (kind, (j, gvr)). split; [done|]. apply all_informers_elem. exists ns.
    rewrite decide_True, Hp in Hk by done. cbn [resourceToInformer]. by rewrite (add_namespaces_lookup _ _ _ _ _ _ gvr Hk), Hl.
Qed.

(** The answer does not depend on the order of the maps. *)
Lemma HasSynced_all synced i :
  HasSynced synced i = true <-> forall ns kind inf, default ∅ (resourceToInformer i !! ns) !! kind = Some inf -> synced inf = true.
Proof.
  unfold HasSynced. rewrite List.forallb_forall. split.
  - intros Hs ns kind inf Hi. apply (Hs (kind, inf)), list_elem_of_In, all_informers_elem. by exists ns.
  - intros Hs [kind inf] [ns Hi]%list_elem_of_In%all_informers_elem. by eapply Hs.
Qed.

(** *** The watcher *)

Context {K D Y : Type} (InClusterConfig : result string K) (BuildConfigFromFlags : string -> result string K) (Getenv : string -> string).
Context (NewDiscoveryClientForConfig : K -> result string D) (NewForConfig : K -> result string Y).
Context (GetStringSlice : string -> list string) (GetBool : string -> bool) (GetString : string -> string).

Definition newKubeConfig : result string K :=
  match InClusterConfig with
  | Ok config => Ok config
  | Err _ =>
      let kubeconfigPath := if decide (Getenv "KUBECONFIG" = "") then Getenv "HOME" +:+ "/.kube/config" else Getenv "KUBECONFIG" in
      BuildConfigFromFlags kubeconfigPath
  end.

(** The mapper of resources is made from the first. *)
Record Client : Type := { discoveryClient : D; dynamicClient : Y }.

Definition newClient (config : K) : result string Client :=
  discovery ← NewDiscoveryClientForConfig config;
  dynamic ← NewForConfig config;
  mret {| discoveryClient := discovery; dynamicClient := dynamic |}.

(** A watcher: its client, its informers, and the registrations of the handler. *)
Record Watcher : Type := { w_client : Client; w_informer : multiResourceInformer; w_handlers : list (informer * string) }.

Definition NewWatcher : go (result string Watcher) :=
  match (config ← newKubeConfig; newClient config) with
  | Err e => mret (Err e)
  | Ok client =>
      informer ← NewMultiResourceInformer (GetStringSlice "resources") (GetStringSlice "namespaces");
      mret (match informer with
            | Err e => Err e
            | Ok informer =>
                if GetBool "polaris-enabled" then
                  if decide (GetString "polaris-config" = "") then
                    Err "polaris configuration file path must be provided when Polaris is enabled"
                  else Ok {| w_client := client; w_informer := informer; w_handlers := AddEventHandler informer |}
                else Err "no valid handler has been specified"
            end)
  end.

(** [Watcher.Run]: the factories that are started. *)
Definition Watcher_Run (w : Watcher) : list nat := Start (w_informer w).

(** The path of the configuration of Polaris must be set, though nothing reads it. *)
Lemma NewWatcher_settings w :
  NewWatcher = Ret (Ok w) -> GetBool "polaris-enabled" = true /\ GetString "polaris-config" <> "" /\ w_handlers w = AddEventHandler (w_informer w).
Proof.
  unfold NewWatcher. destruct (config ← newKubeConfig; newClient config); [|done].
  unfold NewMultiResourceInformer. destruct (find_resources_total (GetStringSlice "resources") ∅) as [[gvrs|e] ->]; [|done]. cbn.
  destruct (GetBool "polaris-enabled"); [|done]. case_decide; [done|]. by intros [= <-].
Qed.

Lemma NewWatcher_returns : exists r, NewWatcher = Ret r.
Proof.
  unfold NewWatcher. destruct (config ← newKubeConfig; newClient config); [|by eexists].
  unfold NewMultiResourceInformer. destruct (find_resources_total (GetStringSlice "resources") ∅) as [r ->]. by eexists.
Qed.
End informers.
